(* ===== verification/_CoqProject ===== *)
-Q . S2P
Prelude.v
GoText.v
GoNum.v
GoTime.v
Json.v
Regex.v
Encoding.v
Cipher.v
Base64.v
Domain.v
Models.v
Inventory.v
Validation.v
Outbound.v
HttpClient.v
ChartGetter.v
Fetch.v
Redaction.v
Client.v
Tables.v
Decoding.v
ClientSafety.v
ImageUpdate.v
Paging.v
VersionSkew.v
Metadata.v
Storage.v
Governance.v
Network.v
Access.v
Extensions.v
Admission.v
Diagnostics.v
Revisions.v
Governor.v
Sampler.v
GatewayCache.v
Session.v
RateLimit.v
Password.v
Config.v
Panelctl.v
Store.v
StoreFile.v
Program.v
ChartRepo.v
HelmAdapter.v
Service.v
Repositories.v
Operations.v
Pool.v
Ownership.v
Lifecycle.v
Interleaving.v
Http.v
Handlers.v
Server.v
ServerSafety.v
Startup.v
