(* ===== verification/Prelude.v ===== *)
(** * A verification library for k8s-panel

    k8s-panel is a web panel for Kubernetes clusters, written in Go.  This library
    models its server and proves what its components promise.  This header covers the
    whole development; each file opens with what it holds.

    ** The program and the files

    A browser talks to an HTTP server (src/internal/httpapi), which authenticates it
    (src/internal/auth), and calls the platform service (src/internal/platform).  The
    service keeps clusters, chart repositories, operations and audit events in a store
    (src/internal/store) that is one JSON file, seals credentials with a cipher
    (src/internal/secure), reads and changes clusters through Kubernetes clients
    (src/internal/kubernetes) that it caches, and runs Helm and workload operations on a
    pool of workers, admitted by a governor (src/internal/resourceguard).  Charts are
    downloaded and run by the Helm adapter (src/internal/helmadapter), and repositories
    checked by src/internal/chartrepo.  Connections leave the process only through the
    outbound policy (src/internal/outbound).  The program (src/cmd/panel) is configured by
    its environment (src/internal/config), with values that src/cmd/panelctl prints.

    - The language: [Prelude] (errors as values with [errors.Is], results, guards, times,
      sorting), [GoText] (strings as bytes, UTF-8, the functions of strings and
      unicode), [GoNum] (strconv), [GoTime] (the calendar, RFC 3339), [Json]
      (encoding/json: parser, decoders by type, encoder), [Regex] (the patterns used).
    - Data: [Domain] (what components exchange), [Models] and [Inventory] (what is read of
      a cluster), all of domain/models.go; [Encoding] (identifiers, digests, base64),
      [Cipher], [Base64] (its standard alphabet).
    - Guards: [Validation] (domain/validation.go), [Outbound] (outbound/policy.go, over an
      executable net/netip), [Governor] and [Sampler] (resourceguard/governor.go and
      sampler.go, on IEEE floats), [Password] (secure/password.go).
    - Configuration: [Config] (config/config.go), [Panelctl] (cmd/panelctl), [Startup]
      (cmd/panel: what is made of a configuration and an opened store).
    - Charts: [HttpClient] (net/http's client with its redirects, as programs over
      exchanges, and what a program does for every answer, [watched]), [ChartGetter]
      (helmadapter/secure_getter.go), [ChartRepo] (chartrepo/checker.go), [HelmAdapter]
      (helmadapter/adapter.go and oci.go).
    - Kubernetes: [Fetch] (an HTTP exchange as an effect; what a program does for every
      answer, [within] and [safe], and for given answers, [run]), [Redaction] (the YAML of
      a workload), [Client] (client.go, batch.go, events.go), [Tables]
      (configuration.go), [Decoding], [ClientSafety] and [ImageUpdate] (their properties).
    - The readers of an inventory, all on the loop over pages of [Paging]: [VersionSkew]
      (version_skew.go), [Metadata] (pod_security_admission.go, helm_release_history.go,
      csi_driver.go, priority_class.go, runtime_class.go), [Storage] (storage.go,
      volume_attachment.go, volume_attributes_class.go, csi_storage_capacity.go,
      csi_node.go), [Governance] (governance.go, availability.go), [Network] (network.go,
      endpoint_slice.go, network_policy.go), [Access] (access.go, access_review.go,
      certificate_signing_request.go), [Extensions] (custom_resource_definition.go,
      api_service.go), [Admission] (admission_webhook.go, admission_policy.go),
      [Diagnostics] (api_server_readiness.go, endpoint_certificate.go, deprecated_api.go)
      and [Revisions] (deployment_revision_history.go).
    - State: [GatewayCache] (platform/gateway_cache.go, a machine of concurrent calls),
      [Session] (auth/session.go), [RateLimit] (httpapi/rate_limit.go), [Store] and
      [StoreFile] (store/file.go: the state in memory, and the write protocol with faults
      and crashes).
    - The service: [Program] (a program of effects on store, locks, governor, cache and
      clusters), [Service], [Repositories] and [Operations] (service.go,
      repositories.go, operations.go, views.go), [Pool] (requests and workers sharing one
      world), [Ownership], [Lifecycle] and [Interleaving] (the invariant of that world).
    - HTTP: [Http] (requests, responses, errors), [Handlers] (handlers.go), [Server]
      (server.go: routes, middleware, login), [ServerSafety].

    A Go function is the definition of its name, in the Module of its type where that
    keeps names apart; a method that waits for the outside is a program whose
    environment answers as it likes; an [error] result is [Err].

    ** What is proved

    - Operations: an operation moves only from queued to running to an end, is executed
      at most once, under its target's lock, by a bounded number of workers, its end is
      final, and nothing it holds leaks, for every interleaving of requests and workers.
    - Persistence: a write is atomic under a crash, acknowledged writes survive, every
      method keeps the invariant of the store, and opening ends what was interrupted.
    - Access: the service is reached only by authenticated requests of the same origin;
      methods exempt from the origin check change nothing; rejected logins lock out; a
      session refines a grant that ends; errors are answered by their class alone.
    - Clusters: a disabled cluster is not contacted, a rotation of credentials is all or
      nothing, stored credentials open to what was sealed, addresses outside the policy
      are not dialled.
    - The client: readers only read, on paths no name leads out of, within a budget that
      ends every list; lists are complete; an image is compared before it is set; the YAML
      of a workload hides what is secret; what is decoded is well typed.
    - The inventory: what is shown of an object follows from what the server said, is
      bounded, and says so when it is cut; what contradicts itself is refused; every list
      is read by a bounded number of requests that only read, and comes sorted, and where
      the code looks for duplicates without them; versions are parsed as their grammar
      says and judged by the skew policy.
    - Charts: an execution sends nothing before the policy accepted the cluster's server,
      runs one action, the one that was asked for, and removes its workspace on every
      path; a repository's credentials stay with its host over every redirect, and each
      hop was accepted by the policy; what is downloaded is whole or refused.
    - Start: an environment that was written from a configuration is read as that
      configuration; what the command line prints configures the panel; a hash logs in
      the passwords of its key and no others, at a bounded cost; a configuration that is
      loaded and a store that is opened start, in a state from which the invariants of
      operations hold.
    - The cache, the governor and the limiter: bounds, single flight, progress and
      conservation of gateways; the ratios the governor compares are never NaN or negative.

    ** Parameters, bounds and fuel

    What is not under src/ is a parameter where its definition cannot be read here: the
    AEAD of crypto/cipher (laws: opening undoes sealing), net/url, yaml.v3, the resolver
    and dialer, certificate pools, the Helm SDK, argon2, the numbers of the runtime, the
    file system of the static files, the codec of the store file, random bytes.  Each is a class or
    an argument, and the witnesses instantiate it.  The standard library is modelled as
    far as it is used; the Unicode case tables above ASCII are a class with an instance
    for ASCII.  [sort.Slice] is a merge sort: Go leaves the order of equal
    elements open, so theorems on order speak of the relation, not of ties.

    [Json.parse] runs on fuel that grows with the text, and [Json.parse_terminates] shows
    that more changes nothing.  The page loops of the client count down the pages
    their budget leaves, so that their recursion is structural; that the code's loops end
    with it is [Workloads_terminates] and its likes.  The parts of a duration take as
    many rounds as it has characters at most ([duration_parts_enough]), and the redirects
    of a request ten, at which every client of the program stops ([watched_send] shows
    that they are never too few).  Loops over data are structural.
    Machine integers are [Z] with the wrap written out where the code can reach it.

    ** Not modelled

    Serving, signals, logging and the timeouts of the servers and transports are net/http's
    and the operating system's, and of cmd/panel only what is made of a configuration is
    modelled.  What a dialed connection does is not either: requests are answered by the
    environment, as it likes.  The Helm SDK, its registry client and its requests to the
    cluster are parameters: the adapter is proved for whatever they ask of it.  The
    service is proved for whatever its Kubernetes and Helm gateways answer, so its
    theorems do not depend on theirs; they are not composed into one program. *)

From stdpp Require Export base tactics option list gmap strings sorting.
From Stdlib Require Export ZArith Lia.

Declare Scope go_scope.
Delimit Scope go_scope with go.

(** ** Errors

    The sentinel errors of internal/domain/errors.go, the two errors of the
    [context] package the code tests for, and the three ways the code builds an
    error: [domain.Invalid], [errors.New] and [fmt.Errorf] with one [%w] verb.
    [Errorf msg e] is the error whose text is [msg] followed by the text of [e]
    and whose [Unwrap] is [e]. *)
Inductive error : Type :=
  | ErrNotFound | ErrConflict | ErrUnauthorized | ErrForbidden
  | ErrInvalidState | ErrBusy | ErrUpstream | ErrTimeout
  | Canceled | DeadlineExceeded
  | ValidationError (Field Message : string)
  | NewError (message : string)
  | Errorf (message : string) (wrapped : error).

#[export] Instance error_eq_dec : EqDecision error.
Proof. solve_decision. Defined.

(** [domain.Invalid]. *)
Definition Invalid (field message : string) : error := ValidationError field message.

(** [Error()]: the text of an error. *)
Fixpoint ErrorText (err : error) : string :=
  match err with
  | ErrNotFound => "resource not found"
  | ErrConflict => "resource conflict"
  | ErrUnauthorized => "unauthorized"
  | ErrForbidden => "forbidden"
  | ErrInvalidState => "invalid resource state"
  | ErrBusy => "system is busy"
  | ErrUpstream => "upstream request failed"
  | ErrTimeout => "request timed out"
  | Canceled => "context canceled"
  | DeadlineExceeded => "context deadline exceeded"
  | ValidationError field message => "validate " +:+ field +:+ ": " +:+ message
  | NewError message => message
  | Errorf message wrapped => message +:+ ErrorText wrapped
  end.

(** [errors.Is] for a target that is not itself a wrapper: the chain of
    [Unwrap] calls is searched for the target. *)
Fixpoint Is (err target : error) : bool :=
  bool_decide (err = target) ||
  match err with
  | Errorf _ wrapped => Is wrapped target
  | _ => false
  end.

(** [errors.As] with a [*domain.ValidationError] target. *)
Fixpoint AsValidationError (err : error) : option (string * string) :=
  match err with
  | ValidationError f m => Some (f, m)
  | Errorf _ wrapped => AsValidationError wrapped
  | _ => None
  end.

(** ** Results: a Go pair [(value, error)] of which only one half is used. *)
Inductive result (A : Type) : Type :=
  | Ok (a : A)
  | Err (e : error).
Arguments Ok {A} a.
Arguments Err {A} e.

#[export] Instance result_eq_dec {A} `{EqDecision A} : EqDecision (result A).
Proof. solve_decision. Defined.

#[export] Instance result_ret : MRet result := @Ok.
#[export] Instance result_bind : MBind result := λ A B f r,
  match r with Ok a => f a | Err e => Err e end.
#[export] Instance result_fmap : FMap result := λ A B f r,
  match r with Ok a => Ok (f a) | Err e => Err e end.

Definition is_ok {A} (r : result A) : bool :=
  match r with Ok _ => true | Err _ => false end.

(** [if bad { return err }]: go on with [k] when the guard does not fire. *)
Definition reject_if (bad : bool) (e : error) : result unit :=
  if bad then Err e else Ok tt.

(** What a decoder could not read is an error of this kind. *)
Definition expect_ok {A} (err : error) (x : option A) : result A :=
  match x with Some a => Ok a | None => Err err end.

Lemma bind_Ok {A B} (f : A → result B) (r : result A) b :
  r ≫= f = Ok b ↔ ∃ a, r = Ok a ∧ f a = Ok b.
Proof. destruct r; simpl; naive_solver. Qed.

Lemma bind_Err {A B} (f : A → result B) (r : result A) e :
  r ≫= f = Err e ↔ r = Err e ∨ ∃ a, r = Ok a ∧ f a = Err e.
Proof. destruct r; simpl; naive_solver. Qed.

Lemma reject_if_Ok b e u : reject_if b e = Ok u ↔ b = false.
Proof. destruct u, b; naive_solver. Qed.

Lemma reject_if_Err b e e' : reject_if b e = Err e' ↔ b = true ∧ e' = e.
Proof. destruct b; naive_solver. Qed.

Lemma expect_ok_Ok {A} err (x : option A) a : expect_ok err x = Ok a ↔ x = Some a.
Proof. destruct x; naive_solver. Qed.

Lemma is_ok_spec {A} (r : result A) : is_ok r = true ↔ ∃ a, r = Ok a.
Proof. destruct r; naive_solver. Qed.

Lemma Is_refl e : Is e e = true.
Proof. destruct e; cbn [Is]; by rewrite bool_decide_eq_true_2. Qed.

Lemma Is_Errorf m e t : Is (Errorf m e) t = bool_decide (Errorf m e = t) || Is e t.
Proof. done. Qed.

(** ** Integers and time

    Go's [int] is 64 bits wide on every platform the project builds for;
    [time.Time] values are instants in nanoseconds since the zero time, with the
    location dropped (every stored time goes through [UTC()]), and
    [time.Duration] is a signed 64-bit count of nanoseconds. *)
Notation time := Z (only parsing).
Notation duration := Z (only parsing).

Definition time_zero : time := 0%Z.
Definition min_int64 : Z := (- 2 ^ 63)%Z.
Definition max_int64 : Z := (2 ^ 63 - 1)%Z.
Definition nanosecond : duration := 1%Z.
Definition second : duration := 1000000000%Z.
Definition minute : duration := (60 * second)%Z.
Definition hour : duration := (60 * minute)%Z.

(** [t.Before u], [t.After u], [t.Equal u], [t.IsZero()] and [t.Add d]. *)
Definition Before (t u : time) : bool := (t <? u)%Z.
Definition After (t u : time) : bool := (u <? t)%Z.
Definition TimeEqual (t u : time) : bool := (t =? u)%Z.
Definition IsZero (t : time) : bool := (t =? time_zero)%Z.
Definition Add (t : time) (d : duration) : time := (t + d)%Z.

(** [t.Sub u] saturates at the ends of the [Duration] range. *)
Definition Sub (t u : time) : duration :=
  Z.max min_int64 (Z.min max_int64 (t - u)).

Lemma Before_spec t u : Before t u = true ↔ (t < u)%Z.
Proof. apply Z.ltb_lt. Qed.

Lemma Before_false t u : Before t u = false ↔ (u ≤ t)%Z.
Proof. apply Z.ltb_ge. Qed.

Lemma After_spec t u : After t u = true ↔ (u < t)%Z.
Proof. apply Z.ltb_lt. Qed.

Lemma Sub_exact t u : (min_int64 ≤ t - u ≤ max_int64)%Z → Sub t u = (t - u)%Z.
Proof. unfold Sub. lia. Qed.

Lemma Sub_range t u : (min_int64 ≤ Sub t u ≤ max_int64)%Z.
Proof. unfold Sub, min_int64, max_int64. lia. Qed.

(** Two's-complement wrap-around of an [int]. *)
Definition wrap_int (z : Z) : Z := ((z + 2 ^ 63) mod 2 ^ 64 - 2 ^ 63)%Z.

Lemma wrap_int_id z : (min_int64 ≤ z ≤ max_int64)%Z → wrap_int z = z.
Proof. unfold wrap_int, min_int64, max_int64. intros. rewrite Z.mod_small; lia. Qed.

(** Unsigned 64-bit arithmetic. *)
Definition wrap_uint64 (z : Z) : Z := (z mod 2 ^ 64)%Z.

(** Go slices and strings are measured by [len], an [int]. *)
Definition len (s : string) : Z := Z.of_nat (String.length s).
Definition len_list {A} (l : list A) : Z := Z.of_nat (length l).

Lemma len_nonneg s : (0 ≤ len s)%Z.
Proof. unfold len. lia. Qed.

Lemma len_empty s : len s = 0%Z ↔ s = "".
Proof. destruct s; unfold len; simpl; split; intros; (done || lia). Qed.

(** ** Sorting

    [sort.Slice(items, less)] leaves a permutation of the items in which no
    item is less than an earlier one; where [less] orders the items totally that
    list is unique, so merge sort computes it. *)
Section sort.
Context {A : Type} (less : A → A → bool).

Definition not_after (x y : A) : Prop := less y x = false.
#[global] Instance not_after_dec x y : Decision (not_after x y).
Proof. unfold not_after. apply _. Defined.

Definition sort_Slice (l : list A) : list A := merge_sort not_after l.

Lemma sort_Slice_Permutation l : sort_Slice l ≡ₚ l.
Proof. apply merge_sort_Permutation. Qed.

Lemma sort_Slice_length l : length (sort_Slice l) = length l.
Proof. by rewrite sort_Slice_Permutation. Qed.

Lemma sort_Slice_elem l x : x ∈ sort_Slice l ↔ x ∈ l.
Proof. by rewrite sort_Slice_Permutation. Qed.

(** [less] is a strict weak order: what [sort.Slice] requires of it. *)
Class StrictWeak : Prop := {
  less_asym x y : less x y = true → less y x = false;
  less_cotrans x y z : less x z = true → less x y = true ∨ less y z = true;
}.

#[global] Instance not_after_total `{StrictWeak} : Total not_after.
Proof.
  intros x y. unfold not_after. destruct (less y x) eqn:E; [right|by left].
  by apply less_asym.
Qed.

#[global] Instance not_after_trans `{StrictWeak} : Transitive not_after.
Proof.
  intros x y z. unfold not_after. intros Hyx Hzy.
  destruct (less z x) eqn:E; [|done].
  apply (less_cotrans z y x) in E. naive_solver congruence.
Qed.

Lemma sort_Slice_Sorted `{StrictWeak} l : StronglySorted not_after (sort_Slice l).
Proof. apply (StronglySorted_merge_sort not_after). Qed.
End sort.

(** [sort.SliceStable]: insertion sort, whose ties stay in their order. *)
Section stable_sort.
Context {A : Type} (less : A → A → bool).

Fixpoint insert_stable (x : A) (l : list A) : list A :=
  match l with
  | [] => [x]
  | y :: l => if less y x then y :: insert_stable x l else x :: y :: l
  end.

Definition sort_SliceStable (l : list A) : list A := foldr insert_stable [] l.

Lemma insert_stable_Permutation x l : insert_stable x l ≡ₚ x :: l.
Proof.
  induction l as [|y l IH]; cbn; [done|]. destruct (less y x); [|done]. rewrite IH. apply Permutation_swap.
Qed.

Lemma sort_SliceStable_Permutation l : sort_SliceStable l ≡ₚ l.
Proof. induction l as [|x l IH]; cbn; [done|]. by rewrite insert_stable_Permutation, IH. Qed.

Lemma sort_SliceStable_length l : length (sort_SliceStable l) = length l.
Proof. by rewrite sort_SliceStable_Permutation. Qed.

Lemma insert_stable_Sorted `{!StrictWeak less} x l :
  StronglySorted (not_after less) l → StronglySorted (not_after less) (insert_stable x l).
Proof.
  induction 1 as [|y l Hl IH Hy]; cbn; [constructor; constructor|].
  destruct (less y x) eqn:E.
  - constructor; [done|]. rewrite insert_stable_Permutation. constructor; [|done]. by apply less_asym.
  - constructor; [by constructor|]. constructor; [done|]. eapply Forall_impl; [exact Hy|].
    intros z Hz. by trans y.
Qed.

Lemma sort_SliceStable_Sorted `{!StrictWeak less} l : StronglySorted (not_after less) (sort_SliceStable l).
Proof. induction l as [|x l IH]; cbn; [constructor|by apply insert_stable_Sorted]. Qed.

(** Elements that are not told apart keep their order. *)
Definition tied (x y : A) : bool := negb (less x y) && negb (less y x).

Lemma insert_stable_ties `{!StrictWeak less} x y l :
  filter (λ z, tied x z = true) (insert_stable y l) = filter (λ z, tied x z = true) (y :: l).
Proof.
  induction l as [|z l IH]; cbn [insert_stable]; [done|]. destruct (less z y) eqn:E; [|done].
  rewrite (filter_cons _ z), IH, !filter_cons. unfold tied. repeat case_decide; try done. exfalso.
  rewrite !andb_true_iff, !negb_true_iff in *. destruct_and?.
  destruct (less_cotrans less z x y E); congruence.
Qed.

Lemma sort_SliceStable_ties `{!StrictWeak less} x l :
  filter (λ z, tied x z = true) (sort_SliceStable l) = filter (λ z, tied x z = true) l.
Proof.
  induction l as [|y l IH]; cbn [sort_SliceStable foldr]; [done|].
  rewrite insert_stable_ties, !filter_cons. unfold sort_SliceStable in IH. by rewrite IH.
Qed.
End stable_sort.

(** A comparison by an integer key, and by a string key. *)
#[export] Instance strict_weak_Z {A} (key : A → Z) :
  StrictWeak (λ x y, key x <? key y)%Z.
Proof. split; intros *; rewrite ?Z.ltb_lt, ?Z.ltb_ge; lia. Qed.

Lemma String_ltb_leb s t : String.ltb s t = negb (String.leb t s).
Proof.
  unfold String.ltb, String.leb. rewrite (String.compare_antisym t s).
  by destruct (String.compare s t).
Qed.

Lemma String_ltb_false s t : String.ltb s t = false ↔ String.le t s.
Proof.
  rewrite String_ltb_leb. unfold String.le.
  destruct (String.leb t s); naive_solver.
Qed.

Lemma String_ltb_true s t : String.ltb s t = true ↔ ¬ String.le t s.
Proof. rewrite <-String_ltb_false. destruct (String.ltb s t); naive_solver. Qed.

Lemma String_ltb_irrefl s : String.ltb s s = false.
Proof. by rewrite String_ltb_false. Qed.

Lemma String_ltb_trichotomy s t :
  String.ltb s t = false → String.ltb t s = false → s = t.
Proof. rewrite !String_ltb_false. intros. by apply (anti_symm String.le). Qed.

#[export] Instance strict_weak_string {A} (key : A → string) :
  StrictWeak (λ x y, String.ltb (key x) (key y)).
Proof.
  split; intros *.
  - rewrite String_ltb_true, String_ltb_false. intros Hn.
    destruct (total String.le (key x) (key y)); naive_solver.
  - rewrite !String_ltb_true. intros Hn.
    destruct (decide (String.le (key y) (key x))) as [Hyx|]; [right|by left].
    intros Hzy. apply Hn. by trans (key y).
Qed.
