(* ===== verification/GoText.v ===== *)
(** * Go strings

    A Go string is a sequence of bytes, here a [string] of 8-bit [ascii]
    characters.  This file models what the program uses of packages [strings],
    [unicode] and [unicode/utf8]: byte-level searches and splits, the UTF-8
    decoding that [range], [strings.IndexFunc], [strings.TrimSpace] and
    [strings.ToLower] perform, and [unicode.IsSpace] and [unicode.IsControl].
    The Unicode case tables are data of the standard library and enter as the
    class [UnicodeTables]. *)

From S2P Require Export Prelude.
From Stdlib Require Export Ascii.
From Stdlib Require String.

Local Open Scope Z_scope.
Local Open Scope stdpp_scope.

(** ** Bytes *)

Definition byte (c : ascii) : Z := Z.of_N (N_of_ascii c).

Definition ascii_of_Z (z : Z) : ascii := ascii_of_N (Z.to_N (z mod 256)).

Definition in_range (lo hi c : ascii) : bool :=
  (byte lo <=? byte c) && (byte c <=? byte hi).

Definition is_digit (c : ascii) : bool := in_range "0" "9" c.
Definition is_lower (c : ascii) : bool := in_range "a" "z" c.
Definition is_upper (c : ascii) : bool := in_range "A" "Z" c.

(** The bytes of a string, and tests over all or some of them. *)
Definition bytes (s : string) : list ascii := String.list_ascii_of_string s.
Definition of_bytes (l : list ascii) : string := String.string_of_list_ascii l.

Fixpoint all_bytes (f : ascii → bool) (s : string) : bool :=
  match s with
  | EmptyString => true
  | String c r => f c && all_bytes f r
  end.

Definition has_byte (c : ascii) (s : string) : bool :=
  negb (all_bytes (λ d, negb (bool_decide (d = c))) s).

Lemma byte_range c : 0 ≤ byte c < 256.
Proof.
  unfold byte. pose proof (N_ascii_bounded c). lia.
Qed.

Lemma byte_inj c d : byte c = byte d → c = d.
Proof.
  unfold byte. intros H. apply (f_equal Z.to_N) in H.
  rewrite !N2Z.id in H.
  by rewrite <-(ascii_N_embedding c), <-(ascii_N_embedding d), H.
Qed.

Lemma bytes_of_bytes l : bytes (of_bytes l) = l.
Proof. apply String.list_ascii_of_string_of_list_ascii. Qed.

Lemma of_bytes_bytes s : of_bytes (bytes s) = s.
Proof. apply String.string_of_list_ascii_of_string. Qed.

Lemma length_bytes s : length (bytes s) = String.length s.
Proof. induction s; simpl; congruence. Qed.

Lemma app_cons c s t : String c s +:+ t = String c (s +:+ t).
Proof. done. Qed.

Lemma app_empty_l t : "" +:+ t = t.
Proof. done. Qed.

Lemma bytes_app s t : bytes (s +:+ t) = bytes s ++ bytes t.
Proof. induction s as [|c s IH]; [done|]. rewrite ?app_cons. simpl. by f_equal. Qed.

Lemma length_app_string s t :
  String.length (s +:+ t) = (String.length s + String.length t)%nat.
Proof. by rewrite <-!length_bytes, bytes_app, length_app. Qed.

Lemma string_app_nil_r s : s +:+ "" = s.
Proof. induction s as [|c s IH]; [done|]. rewrite ?app_cons. simpl. by f_equal. Qed.

Lemma string_app_assoc s t u : (s +:+ t) +:+ u = s +:+ (t +:+ u).
Proof. induction s as [|c s IH]; [done|]. rewrite ?app_cons. simpl. by f_equal. Qed.

Lemma all_bytes_spec f s : all_bytes f s = true ↔ ∀ c, c ∈ bytes s → f c = true.
Proof.
  induction s as [|c s IH]; simpl; [set_solver|].
  rewrite andb_true_iff, IH. set_solver.
Qed.

Lemma all_bytes_Forall f s : all_bytes f s = true ↔ Forall (λ c, f c = true) (bytes s).
Proof. by rewrite all_bytes_spec, Forall_forall. Qed.

Lemma all_bytes_app f s t : all_bytes f (s +:+ t) = all_bytes f s && all_bytes f t.
Proof. induction s as [|c s IH]; [done|]. rewrite app_cons. simpl. by rewrite IH, andb_assoc. Qed.

Lemma all_bytes_weaken (f g : ascii → bool) s :
  (∀ c, f c = true → g c = true) → all_bytes f s = true → all_bytes g s = true.
Proof. rewrite !all_bytes_spec. naive_solver. Qed.

Lemma has_byte_spec c s : has_byte c s = true ↔ c ∈ bytes s.
Proof.
  unfold has_byte. rewrite negb_true_iff. split.
  - intros Hf. destruct (decide (c ∈ bytes s)); [done|].
    assert (all_bytes (λ d, negb (bool_decide (d = c))) s = true); [|congruence].
    apply all_bytes_spec. intros d Hd. rewrite negb_true_iff.
    apply bool_decide_eq_false_2. congruence.
  - intros Hin. apply not_true_is_false. rewrite all_bytes_spec.
    intros Hall. apply Hall in Hin. by rewrite bool_decide_eq_true_2 in Hin.
Qed.

Lemma has_byte_false c s : has_byte c s = false ↔ c ∉ bytes s.
Proof. rewrite <-has_byte_spec. destruct (has_byte c s); naive_solver. Qed.

(** A test of one byte, decided over the 256 values by computation. *)
Definition all_ascii : list ascii := map (λ n, ascii_of_nat n) (seq 0 256).

Lemma all_ascii_complete c : c ∈ all_ascii.
Proof.
  unfold all_ascii. apply list_elem_of_fmap. exists (nat_of_ascii c).
  split; [by rewrite ascii_nat_embedding|].
  apply elem_of_seq. pose proof (nat_ascii_bounded c). lia.
Qed.

Lemma ascii_forallb (f : ascii → bool) : forallb f all_ascii = true → ∀ c, f c = true.
Proof.
  intros H c. rewrite forallb_forall in H. apply H, list_elem_of_In, all_ascii_complete.
Qed.

(** Prove [∀ c, f c = true → g c = true] for byte tests by enumeration. *)
Ltac byte_implies :=
  let c := fresh "c" in
  intros c; apply implb_true_iff; revert c;
  apply (ascii_forallb (λ c, implb _ _)); vm_compute; reflexivity.

Example digit_is_byte : ∀ c, is_digit c = true → in_range "0" "z" c = true.
Proof. byte_implies. Qed.

(** ** Searching and splitting *)

(** [strings.TrimPrefix] when the prefix is there. *)
Fixpoint strip_prefix (p s : string) : option string :=
  match p, s with
  | EmptyString, _ => Some s
  | String a p', String b s' => if bool_decide (a = b) then strip_prefix p' s' else None
  | String _ _, EmptyString => None
  end.

Definition HasPrefix (s p : string) : bool := bool_decide (is_Some (strip_prefix p s)).
Definition TrimPrefix (s p : string) : string := default s (strip_prefix p s).

Definition string_rev (s : string) : string := of_bytes (rev (bytes s)).

Definition HasSuffix (s p : string) : bool := HasPrefix (string_rev s) (string_rev p).
Definition TrimSuffix (s p : string) : string :=
  string_rev (TrimPrefix (string_rev s) (string_rev p)).

(** [strings.Split(s, sep)] and [strings.Cut(s, sep)] for a one-byte separator. *)
Fixpoint Split (s : string) (sep : ascii) : list string :=
  match s with
  | EmptyString => [EmptyString]
  | String c r =>
      if bool_decide (c = sep) then EmptyString :: Split r sep
      else match Split r sep with
           | h :: t => String c h :: t
           | [] => [String c EmptyString]
           end
  end.

Fixpoint Cut (s : string) (sep : ascii) : string * string * bool :=
  match s with
  | EmptyString => (EmptyString, EmptyString, false)
  | String c r =>
      if bool_decide (c = sep) then (EmptyString, r, true)
      else let '(before, after, found) := Cut r sep in (String c before, after, found)
  end.

(** [strings.Index(s, sub)], and [strings.Contains] from it. *)
Fixpoint Index (s sub : string) : option nat :=
  if HasPrefix s sub then Some O
  else match s with
       | EmptyString => None
       | String _ r => S <$> Index r sub
       end.

Definition Contains (s sub : string) : bool := bool_decide (is_Some (Index s sub)).

Definition ContainsAny (s chars : string) : bool :=
  negb (all_bytes (λ c, negb (has_byte c chars)) s).

(** [s[n:]], and [strings.TrimLeft], [strings.TrimRight] and [strings.Trim]
    with a cutset of ASCII characters. *)
Fixpoint drop_bytes (n : nat) (s : string) : string :=
  match n, s with
  | S n, String _ r => drop_bytes n r
  | _, _ => s
  end.

Fixpoint take_bytes (n : nat) (s : string) : string :=
  match n, s with
  | S n, String c r => String c (take_bytes n r)
  | _, _ => EmptyString
  end.

Lemma take_bytes_length n s : String.length (take_bytes n s) = Nat.min n (String.length s).
Proof. revert s. induction n as [|n IH]; intros [|c s]; simpl; by rewrite ?IH. Qed.

Lemma take_bytes_all s : take_bytes (String.length s) s = s.
Proof. induction s as [|c s IH]; simpl; by rewrite ?IH. Qed.

Fixpoint TrimLeft (s cutset : string) : string :=
  match s with
  | String c r => if has_byte c cutset then TrimLeft r cutset else s
  | EmptyString => EmptyString
  end.

Definition TrimRight (s cutset : string) : string :=
  string_rev (TrimLeft (string_rev s) cutset).

Definition Trim (s cutset : string) : string := TrimRight (TrimLeft s cutset) cutset.

(** [strings.Join(parts, sep)]. *)
Fixpoint Join (parts : list string) (sep : string) : string :=
  match parts with
  | [] => EmptyString
  | [p] => p
  | p :: rest => p +:+ sep +:+ Join rest sep
  end.

Lemma strip_prefix_Some p s r : strip_prefix p s = Some r ↔ s = p +:+ r.
Proof.
  revert s. induction p as [|a p IH]; intros s; simpl.
  - rewrite app_empty_l. naive_solver.
  - rewrite app_cons. destruct s as [|b s]; [naive_solver|].
    case_bool_decide; subst; [rewrite IH|]; naive_solver.
Qed.

Lemma HasPrefix_spec s p : HasPrefix s p = true ↔ ∃ r, s = p +:+ r.
Proof.
  unfold HasPrefix. rewrite bool_decide_eq_true. unfold is_Some.
  by setoid_rewrite strip_prefix_Some.
Qed.

Lemma TrimPrefix_app p r : TrimPrefix (p +:+ r) p = r.
Proof. unfold TrimPrefix. by rewrite (proj2 (strip_prefix_Some p (p +:+ r) r)). Qed.

Lemma string_rev_involutive s : string_rev (string_rev s) = s.
Proof. unfold string_rev. by rewrite bytes_of_bytes, rev_involutive, of_bytes_bytes. Qed.

Lemma bytes_string_rev s : bytes (string_rev s) = rev (bytes s).
Proof. apply bytes_of_bytes. Qed.

Lemma bytes_inj s t : bytes s = bytes t → s = t.
Proof. intros H. by rewrite <-(of_bytes_bytes s), H, of_bytes_bytes. Qed.

Lemma string_app_cancel_r s t u : s +:+ u = t +:+ u → s = t.
Proof. intros E. apply bytes_inj. apply (f_equal bytes) in E. rewrite !bytes_app in E. by apply app_inv_tail in E. Qed.

Lemma string_rev_app s t : string_rev (s +:+ t) = string_rev t +:+ string_rev s.
Proof. apply bytes_inj. by rewrite bytes_app, !bytes_string_rev, bytes_app, rev_app_distr. Qed.

Lemma HasSuffix_spec s p : HasSuffix s p = true ↔ ∃ r, s = r +:+ p.
Proof.
  unfold HasSuffix. rewrite HasPrefix_spec. split; intros [r Hr].
  - exists (string_rev r). apply (f_equal string_rev) in Hr.
    by rewrite string_rev_app, !string_rev_involutive in Hr.
  - exists (string_rev r). by rewrite Hr, string_rev_app.
Qed.

Lemma TrimSuffix_app r p : TrimSuffix (r +:+ p) p = r.
Proof. unfold TrimSuffix. by rewrite string_rev_app, TrimPrefix_app, string_rev_involutive. Qed.

Lemma Split_not_nil s sep : Split s sep ≠ [].
Proof.
  destruct s as [|c s]; simpl; [done|].
  destruct (bool_decide (c = sep)); [done|]. by destruct (Split s sep).
Qed.

Lemma Split_no_sep s sep p : p ∈ Split s sep → sep ∉ bytes p.
Proof.
  revert p. induction s as [|c s IH]; intros p; simpl.
  { rewrite list_elem_of_singleton. intros ->. apply not_elem_of_nil. }
  pose proof (Split_not_nil s sep). case_bool_decide as Hc.
  - rewrite elem_of_cons. intros [->|Hp]; [apply not_elem_of_nil|by apply IH].
  - destruct (Split s sep) as [|h t]; [done|].
    rewrite elem_of_cons. intros [->|Hp]; [|apply IH; by right].
    simpl. rewrite elem_of_cons. intros [->|Hin]; [done|].
    apply (IH h); [by left|done].
Qed.

Lemma Join_Split s sep : Join (Split s sep) (String sep "") = s.
Proof.
  induction s as [|c s IH]; cbn [Split]; [done|].
  pose proof (Split_not_nil s sep).
  destruct (Split s sep) as [|h t]; [done|]. case_bool_decide; subst.
  - done.
  - destruct t; cbn [Join] in *; by rewrite <-?IH, ?app_cons.
Qed.

Lemma Split_no_sep_inv s sep : sep ∉ bytes s → Split s sep = [s].
Proof.
  induction s as [|c s IH]; simpl; [done|]. intros Hn.
  rewrite bool_decide_eq_false_2 by set_solver. by rewrite IH by set_solver.
Qed.

Lemma Split_app s t sep :
  sep ∉ bytes s → Split (s +:+ String sep t) sep = s :: Split t sep.
Proof.
  induction s as [|c s IH]; intros Hn; rewrite ?app_cons, ?app_empty_l; simpl in *.
  - by rewrite bool_decide_eq_true_2.
  - rewrite bool_decide_eq_false_2 by set_solver. by rewrite IH by set_solver.
Qed.

(** [Join] undoes [Split], and [Split] undoes [Join] of separator-free parts. *)
Lemma Split_Join ps sep :
  ps ≠ [] → Forall (λ p, sep ∉ bytes p) ps → Split (Join ps (String sep "")) sep = ps.
Proof.
  induction ps as [|p ps IH]; [done|]. intros _ [Hp Hps]%Forall_cons.
  destruct ps as [|q ps]; [by apply Split_no_sep_inv|].
  change (Split (p +:+ String sep (Join (q :: ps) (String sep ""))) sep = p :: q :: ps).
  rewrite Split_app by done. f_equal. apply IH; [done|set_solver].
Qed.

Lemma Cut_found s sep before after :
  Cut s sep = (before, after, true) → sep ∉ bytes before ∧ s = before +:+ String sep after.
Proof.
  revert before. induction s as [|c s IH]; intros before; simpl; [done|].
  case_bool_decide as Hc; [subst; intros [= <- <-]; split; [set_solver|done]|].
  destruct (Cut s sep) as [[b a] f]. intros [= <- -> ->].
  destruct (IH b eq_refl) as [Hb ->]. split; [simpl; set_solver|by rewrite app_cons].
Qed.

Lemma Cut_not_found s sep before after :
  Cut s sep = (before, after, false) → before = s ∧ after = "" ∧ sep ∉ bytes s.
Proof.
  revert before. induction s as [|c s IH]; intros before; simpl.
  { intros [= <- <-]. set_solver. }
  case_bool_decide as Hc; [done|].
  destruct (Cut s sep) as [[b a] f]. intros [= <- -> ->].
  destruct (IH b eq_refl) as (-> & -> & ?). set_solver.
Qed.

Lemma Cut_app before sep after :
  sep ∉ bytes before → Cut (before +:+ String sep after) sep = (before, after, true).
Proof.
  induction before as [|c b IH]; intros Hn; rewrite ?app_cons, ?app_empty_l; simpl in *.
  - by rewrite bool_decide_eq_true_2.
  - rewrite bool_decide_eq_false_2 by set_solver. by rewrite IH by set_solver.
Qed.

Lemma Cut_none s sep : sep ∉ bytes s → Cut s sep = (s, "", false).
Proof.
  destruct (Cut s sep) as [[b a] [|]] eqn:E; intros Hn.
  - apply Cut_found in E as [_ ->]. rewrite bytes_app in Hn. simpl in Hn. set_solver.
  - by apply Cut_not_found in E as (-> & -> & _).
Qed.

(** ** UTF-8 *)

Definition RuneError : Z := 65533.

Definition is_cont (c : ascii) : bool := in_range "128" "191" c.

(** The two-, three- and four-byte forms [utf8.DecodeRune] accepts, with the
    restricted second bytes that exclude overlong forms, surrogates and values
    beyond U+10FFFF. *)
Definition lead2 (c : ascii) : bool := in_range "194" "223" c.

Definition lead3 (c d : ascii) : bool :=
  if bool_decide (c = "224"%char) then in_range "160" "191" d
  else if bool_decide (c = "237"%char) then in_range "128" "159" d
  else in_range "225" "239" c && is_cont d.

Definition lead4 (c d : ascii) : bool :=
  if bool_decide (c = "240"%char) then in_range "144" "191" d
  else if bool_decide (c = "244"%char) then in_range "128" "143" d
  else in_range "241" "243" c && is_cont d.

Definition rune2 (c d : ascii) : Z :=
  Z.lor (Z.shiftl (Z.land (byte c) 31) 6) (Z.land (byte d) 63).
Definition rune3 (c d e : ascii) : Z :=
  Z.lor (Z.shiftl (Z.land (byte c) 15) 12)
    (Z.lor (Z.shiftl (Z.land (byte d) 63) 6) (Z.land (byte e) 63)).
Definition rune4 (c d e f : ascii) : Z :=
  Z.lor (Z.shiftl (Z.land (byte c) 7) 18)
    (Z.lor (Z.shiftl (Z.land (byte d) 63) 12)
      (Z.lor (Z.shiftl (Z.land (byte e) 63) 6) (Z.land (byte f) 63))).

Definition is_ascii (c : ascii) : bool := byte c <? 128.

(** The runes [for _, r := range s] visits; a byte that starts no valid
    sequence is visited alone as U+FFFD. *)
Fixpoint runes (s : string) : list Z :=
  match s with
  | EmptyString => []
  | String c r0 =>
      if is_ascii c then byte c :: runes r0 else
      match r0 with
      | EmptyString => [RuneError]
      | String d r1 =>
          if lead2 c && is_cont d then rune2 c d :: runes r1 else
          match r1 with
          | EmptyString => RuneError :: runes r0
          | String e r2 =>
              if lead3 c d && is_cont e then rune3 c d e :: runes r2 else
              match r2 with
              | EmptyString => RuneError :: runes r0
              | String f r3 =>
                  if lead4 c d && is_cont e && is_cont f then rune4 c d e f :: runes r3
                  else RuneError :: runes r0
              end
          end
      end
  end.

(** [strings.IndexFunc(s, f) >= 0]. *)
Definition has_rune (f : Z → bool) (s : string) : bool := existsb f (runes s).

(** [utf8.EncodeRune]. *)
Definition encode_rune (r : Z) : string :=
  let r := if (r <? 0) || (1114111 <? r) || ((55296 <=? r) && (r <=? 57343))
           then RuneError else r in
  let tail n := ascii_of_Z (Z.lor 128 (Z.land (Z.shiftr r n) 63)) in
  if r <? 128 then of_bytes [ascii_of_Z r]
  else if r <? 2048 then of_bytes [ascii_of_Z (Z.lor 192 (Z.shiftr r 6)); tail 0]
  else if r <? 65536 then
    of_bytes [ascii_of_Z (Z.lor 224 (Z.shiftr r 12)); tail 6; tail 0]
  else of_bytes [ascii_of_Z (Z.lor 240 (Z.shiftr r 18)); tail 12; tail 6; tail 0].

(** [unicode.IsSpace] and [unicode.IsControl]. *)
Definition IsSpace (r : Z) : bool :=
  ((9 <=? r) && (r <=? 13)) || (r =? 32) || (r =? 133) || (r =? 160) || (r =? 5760) ||
  ((8192 <=? r) && (r <=? 8202)) || (r =? 8232) || (r =? 8233) || (r =? 8239) ||
  (r =? 8287) || (r =? 12288).

Definition IsControl (r : Z) : bool :=
  ((0 <=? r) && (r <=? 31)) || ((127 <=? r) && (r <=? 159)).

(** [strings.TrimSpace].  White space is encoded in one, two or three bytes, and
    both ends are cut rune by rune; at the right end the bytes arrive last first. *)
Definition space1 (c : ascii) : bool := is_ascii c && IsSpace (byte c).
Definition space2 (c d : ascii) : bool := lead2 c && is_cont d && IsSpace (rune2 c d).
Definition space3 (c d e : ascii) : bool :=
  lead3 c d && is_cont e && IsSpace (rune3 c d e).

Fixpoint TrimLeftSpace (s : string) : string :=
  match s with
  | EmptyString => s
  | String c r0 =>
      if space1 c then TrimLeftSpace r0 else
      match r0 with
      | EmptyString => s
      | String d r1 =>
          if space2 c d then TrimLeftSpace r1 else
          match r1 with
          | EmptyString => s
          | String e r2 => if space3 c d e then TrimLeftSpace r2 else s
          end
      end
  end.

Fixpoint TrimLeftSpaceRev (s : string) : string :=
  match s with
  | EmptyString => s
  | String c r0 =>
      if space1 c then TrimLeftSpaceRev r0 else
      match r0 with
      | EmptyString => s
      | String d r1 =>
          if space2 d c then TrimLeftSpaceRev r1 else
          match r1 with
          | EmptyString => s
          | String e r2 => if space3 e d c then TrimLeftSpaceRev r2 else s
          end
      end
  end.

Definition TrimSpace (s : string) : string :=
  string_rev (TrimLeftSpaceRev (string_rev (TrimLeftSpace s))).

(** [strings.Fields]: [current] is the field that is being read. *)
Fixpoint Fields_from (current s : string) : list string :=
  let field rest := if String.eqb current "" then rest else current :: rest in
  match s with
  | EmptyString => field []
  | String c r0 =>
      let go_on := Fields_from (current +:+ String c "") r0 in
      if space1 c then field (Fields_from "" r0) else
      match r0 with
      | EmptyString => go_on
      | String d r1 =>
          if space2 c d then field (Fields_from "" r1) else
          match r1 with
          | EmptyString => go_on
          | String e r2 => if space3 c d e then field (Fields_from "" r2) else go_on
          end
      end
  end.

Definition Fields (s : string) : list string := Fields_from "" s.

Example TrimSpace_ascii : TrimSpace "  a b  " = "a b".
Proof. reflexivity. Qed.
Example TrimSpace_unicode :
  TrimSpace (of_bytes [ascii_of_Z 9; ascii_of_Z 227; ascii_of_Z 128; ascii_of_Z 128] +:+ "x") = "x".
Proof. by vm_compute. Qed.

(** [strings.ToLower].  The case mapping of non-ASCII runes is a table of
    package [unicode]; of it the program relies on one fact: U+0130 and U+212A
    are the only non-ASCII runes that map into ASCII.  [simple_fold] picks a
    representative of the orbit that [unicode.SimpleFold] walks, which is what
    [strings.EqualFold] compares. *)
Definition ascii_lower (r : Z) : Z := if (65 <=? r) && (r <=? 90) then r + 32 else r.

Class UnicodeTables := {
  to_lower : Z → Z;
  to_lower_ascii r : 0 ≤ r < 128 → to_lower r = ascii_lower r;
  to_lower_into_ascii r : 128 ≤ r → to_lower r < 128 →
    (r = 304 ∧ to_lower r = 105) ∨ (r = 8490 ∧ to_lower r = 107);
  simple_fold : Z → Z;
  simple_fold_ascii r : 0 ≤ r < 128 → simple_fold r = ascii_lower r;
}.

(** The tables restricted to ASCII and the two runes above: a concrete instance
    for examples. *)
#[export] Program Instance ascii_tables : UnicodeTables := {
  to_lower r := if r =? 304 then 105 else if r =? 8490 then 107 else ascii_lower r;
  simple_fold r := if r =? 8490 then 107 else if r =? 383 then 115 else ascii_lower r;
}.
Next Obligation. intros r Hr. cbv beta. repeat case_match; lia. Qed.
Next Obligation.
  intros r. unfold ascii_lower. repeat case_match; lia.
Qed.
Next Obligation. intros r Hr. cbv beta. repeat case_match; lia. Qed.

Section case.
Context `{UnicodeTables}.

Definition ToLower (s : string) : string :=
  foldr (λ r acc, encode_rune (to_lower r) +:+ acc) EmptyString (runes s).

Definition EqualFold (s t : string) : bool :=
  bool_decide (map simple_fold (runes s) = map simple_fold (runes t)).

#[global] Instance EqualFold_equivalence : Equivalence (λ s t, EqualFold s t = true).
Proof.
  unfold EqualFold. split.
  - intros s. by rewrite bool_decide_eq_true.
  - intros s t. by rewrite !bool_decide_eq_true.
  - intros s t u. rewrite !bool_decide_eq_true. congruence.
Qed.

Lemma EqualFold_refl s : EqualFold s s = true.
Proof. by apply bool_decide_eq_true. Qed.

Lemma EqualFold_sym s t : EqualFold s t = EqualFold t s.
Proof. apply bool_decide_ext. naive_solver. Qed.
End case.

(** ** ASCII inside UTF-8

    ASCII bytes never occur inside a longer sequence, so they survive decoding. *)

Lemma cont_not_ascii c : is_cont c = true → is_ascii c = false.
Proof. rewrite <-negb_true_iff. revert c. byte_implies. Qed.

Lemma lead2_not_ascii c : lead2 c = true → is_ascii c = false.
Proof. rewrite <-negb_true_iff. revert c. byte_implies. Qed.

Lemma high_not_ascii lo hi c :
  (128 <=? byte lo) = true → in_range lo hi c = true → is_ascii c = false.
Proof. unfold in_range, is_ascii. lia. Qed.

#[local] Ltac solve_high := eapply high_not_ascii; [|eassumption]; reflexivity.

Lemma lead3_not_ascii c d : lead3 c d = true → is_ascii c = false ∧ is_ascii d = false.
Proof.
  unfold lead3. repeat case_bool_decide; subst; [intros Hd..|].
  - split; [done|]. solve_high.
  - split; [done|]. solve_high.
  - rewrite andb_true_iff. intros [Hc Hd].
    split; [solve_high|by apply cont_not_ascii].
Qed.

Lemma lead4_not_ascii c d : lead4 c d = true → is_ascii c = false ∧ is_ascii d = false.
Proof.
  unfold lead4. repeat case_bool_decide; subst; [intros Hd..|].
  - split; [done|]. solve_high.
  - split; [done|]. solve_high.
  - rewrite andb_true_iff. intros [Hc Hd].
    split; [solve_high|by apply cont_not_ascii].
Qed.

(** Induction over the decoding: every call of [runes] is on a proper suffix. *)
Lemma string_suffix_ind (P : string → Prop) :
  (∀ s, (∀ t, (String.length t < String.length s)%nat → P t) → P s) → ∀ s, P s.
Proof.
  intros IH s. remember (String.length s) as n eqn:Hn. revert s Hn.
  induction (lt_wf n) as [n _ IHn]. intros s ->. apply IH. intros t Ht. by eapply IHn.
Qed.

Lemma in_runes_ascii c s : is_ascii c = true → c ∈ bytes s → byte c ∈ runes s.
Proof.
  intros Hc. induction s as [s IH] using string_suffix_ind.
  destruct s as [|c0 r0]; simpl; [set_solver|].
  destruct (is_ascii c0) eqn:E0.
  { rewrite !elem_of_cons. intros [->|]; [by left|right; apply IH; simpl; [lia|done]]. }
  assert (c ≠ c0) as Hne by congruence.
  destruct r0 as [|c1 r1]; simpl; [set_solver|].
  destruct (lead2 c0 && is_cont c1) eqn:E1.
  { apply andb_true_iff in E1 as [_ ?%cont_not_ascii].
    rewrite !elem_of_cons. intros [|[->|]]; [done|congruence|].
    right. apply IH; simpl; [lia|done]. }
  assert (∀ l, c ∈ c0 :: bytes (String c1 r1) → byte c ∈ l :: runes (String c1 r1)) as Hskip.
  { intros l. rewrite !elem_of_cons. intros [|]; [done|]. right. apply IH; simpl; [lia|done]. }
  destruct r1 as [|c2 r2]; [apply Hskip|].
  destruct (lead3 c0 c1 && is_cont c2) eqn:E2.
  { apply andb_true_iff in E2 as [[_ ?]%lead3_not_ascii ?%cont_not_ascii].
    simpl. rewrite !elem_of_cons. intros [|[->|[->|]]]; [done|congruence..|].
    right. apply IH; simpl; [lia|done]. }
  destruct r2 as [|c3 r3]; [apply Hskip|].
  destruct (lead4 c0 c1 && is_cont c2 && is_cont c3) eqn:E3; [|apply Hskip].
  apply andb_true_iff in E3 as [[[_ ?]%lead4_not_ascii ?%cont_not_ascii]%andb_true_iff
    ?%cont_not_ascii].
  simpl. rewrite !elem_of_cons. intros [|[->|[->|[->|]]]]; [done|congruence..|].
  right. apply IH; simpl; [lia|done].
Qed.

Lemma has_rune_false_byte f s c :
  has_rune f s = false → is_ascii c = true → c ∈ bytes s → f (byte c) = false.
Proof.
  unfold has_rune. intros Hf Hc Hin. apply (in_runes_ascii c s Hc) in Hin.
  destruct (f (byte c)) eqn:E; [|done].
  assert (existsb f (runes s) = true); [|congruence].
  apply existsb_exists. exists (byte c). by rewrite <-list_elem_of_In.
Qed.

Lemma runes_ascii s : all_bytes is_ascii s = true → runes s = map byte (bytes s).
Proof.
  induction s as [|c s IH]; [done|]. simpl. rewrite andb_true_iff. intros [-> Hs].
  by rewrite IH.
Qed.

Lemma has_rune_ascii f s :
  all_bytes is_ascii s = true → has_rune f s = existsb (λ c, f (byte c)) (bytes s).
Proof. intros Hs. unfold has_rune. rewrite runes_ascii by done. by induction (bytes s); simpl; f_equal. Qed.

(** A string of visible ASCII characters is its own [TrimSpace]. *)
Definition is_visible (c : ascii) : bool := in_range "!" "~" c.

Lemma visible_not_space1 c : is_visible c = true → space1 c = false.
Proof. rewrite <-negb_true_iff. revert c. byte_implies. Qed.

Lemma visible_ascii c : is_visible c = true → is_ascii c = true.
Proof. revert c. byte_implies. Qed.

Lemma visible_space23 c d e :
  is_visible c = true → space2 c d = false ∧ space3 c d e = false.
Proof.
  intros Hc%visible_ascii. unfold space2, space3. split.
  - destruct (lead2 c) eqn:E; [apply lead2_not_ascii in E; congruence|done].
  - destruct (lead3 c d) eqn:E; [apply lead3_not_ascii in E; naive_solver congruence|done].
Qed.

Lemma visible_space23_rev c d e :
  is_visible c = true → space2 d c = false ∧ space3 e d c = false.
Proof.
  intros Hc%visible_ascii. unfold space2, space3. split.
  - destruct (is_cont c) eqn:E; [apply cont_not_ascii in E; congruence|].
    by rewrite andb_false_r.
  - destruct (is_cont c) eqn:E; [apply cont_not_ascii in E; congruence|].
    by rewrite andb_false_r.
Qed.

Lemma TrimLeftSpace_visible c s :
  is_visible c = true → TrimLeftSpace (String c s) = String c s.
Proof.
  intros Hc. simpl. rewrite visible_not_space1 by done.
  destruct s as [|d [|e s]]; [done|..];
    rewrite (proj1 (visible_space23 c d d Hc)); [done|].
  by rewrite (proj2 (visible_space23 c d e Hc)).
Qed.

Lemma TrimLeftSpaceRev_visible c s :
  is_visible c = true → TrimLeftSpaceRev (String c s) = String c s.
Proof.
  intros Hc. simpl. rewrite visible_not_space1 by done.
  destruct s as [|d [|e s]]; [done|..];
    rewrite (proj1 (visible_space23_rev c d d Hc)); [done|].
  by rewrite (proj2 (visible_space23_rev c d e Hc)).
Qed.

Lemma TrimSpace_visible s : all_bytes is_visible s = true → TrimSpace s = s.
Proof.
  intros Hs. unfold TrimSpace.
  assert (TrimLeftSpace s = s) as ->.
  { destruct s as [|c s]; [done|]. apply TrimLeftSpace_visible. simpl in Hs.
    by apply andb_true_iff in Hs as [? _]. }
  assert (TrimLeftSpaceRev (string_rev s) = string_rev s) as ->;
    [|apply string_rev_involutive].
  assert (all_bytes is_visible (string_rev s) = true) as Hr.
  { rewrite all_bytes_spec in *. intros c. rewrite bytes_string_rev, list_elem_of_In, <-in_rev,
      <-list_elem_of_In. apply Hs. }
  destruct (string_rev s) as [|c r]; [done|]. apply TrimLeftSpaceRev_visible.
  simpl in Hr. by apply andb_true_iff in Hr as [? _].
Qed.

(** ** Lower case of ASCII strings *)

Definition lower_byte (c : ascii) : ascii :=
  if is_upper c then ascii_of_Z (byte c + 32) else c.

Definition lower_string (s : string) : string := of_bytes (map lower_byte (bytes s)).

Lemma encode_lower_byte c :
  is_ascii c = true → encode_rune (ascii_lower (byte c)) = String (lower_byte c) "".
Proof.
  rewrite <-(bool_decide_eq_true (encode_rune _ = _)). revert c. byte_implies.
Qed.

Section lower.
Context `{UnicodeTables}.

Lemma ToLower_ascii s : all_bytes is_ascii s = true → ToLower s = lower_string s.
Proof.
  unfold ToLower, lower_string. intros Hs. rewrite runes_ascii by done.
  induction s as [|c s IH]; [done|]. simpl in *. apply andb_true_iff in Hs as [Hc Hs].
  rewrite to_lower_ascii, encode_lower_byte, IH; [done..|].
  unfold is_ascii in Hc. pose proof (byte_range c). lia.
Qed.

Lemma ToLower_lower s :
  all_bytes (λ c, is_ascii c && negb (is_upper c)) s = true → ToLower s = s.
Proof.
  intros Hs. rewrite ToLower_ascii.
  - unfold lower_string. rewrite <-(of_bytes_bytes s) at 2. f_equal.
    rewrite all_bytes_spec in Hs. rewrite <-(list_fmap_id (bytes s)) at 2.
    apply list_fmap_ext. intros i c Hc. apply list_elem_of_lookup_2, Hs in Hc.
    apply andb_true_iff in Hc as [_ Hc]. unfold lower_byte.
    by destruct (is_upper c).
  - eapply all_bytes_weaken, Hs. intros c. rewrite andb_true_iff. naive_solver.
Qed.
End lower.
