(* ===== verification/GoNum.v ===== *)
(** * Decimal integers

    [strconv.ParseUint], [strconv.ParseInt], [strconv.Atoi] and
    [strconv.FormatInt] in base 10, with the range checks of the width asked
    for.  A failed parse (syntax or range) is [None]: the program only looks at
    whether the error is nil. *)

From S2P Require Export GoText.

Local Open Scope Z_scope.

Definition digit_value (c : ascii) : Z := byte c - byte "0".
Definition digit_char (d : Z) : ascii := ascii_of_Z (d + byte "0").

(** The loop of [ParseUint]: [None] at the first byte that is no digit. *)
Fixpoint digits_from (acc : Z) (s : string) : option Z :=
  match s with
  | EmptyString => Some acc
  | String c r => if is_digit c then digits_from (acc * 10 + digit_value c) r else None
  end.

Definition ParseUint (s : string) (bits : Z) : option Z :=
  if bool_decide (s = EmptyString) then None else
  n ← digits_from 0 s; if n <? 2 ^ bits then Some n else None.

Definition ParseInt (s : string) (bits : Z) : option Z :=
  let cutoff := 2 ^ (bits - 1) in
  match s with
  | String "+" r => n ← ParseUint r bits; if n <? cutoff then Some n else None
  | String "-" r => n ← ParseUint r bits; if n <=? cutoff then Some (- n) else None
  | _ => n ← ParseUint s bits; if n <? cutoff then Some n else None
  end.

Definition Atoi (s : string) : option Z := ParseInt s 64.

(** [FormatInt(n, 10)]; [fuel] bounds the number of digits, and the binary
    logarithm is more than enough of them. *)
Fixpoint format_digits (fuel : nat) (n : Z) (acc : string) : string :=
  match fuel with
  | O => acc
  | S fuel =>
      let acc := String (digit_char (n mod 10)) acc in
      if n <? 10 then acc else format_digits fuel (n / 10) acc
  end.

Definition FormatUint (n : Z) : string := format_digits (S (Z.to_nat (Z.log2 n))) n "".

Definition FormatInt (n : Z) : string :=
  if n <? 0 then String "-" (FormatUint (- n)) else FormatUint n.

Example FormatInt_ex : FormatInt 1024 = "1024" ∧ FormatInt (-7) = "-7" ∧ FormatInt 0 = "0".
Proof. done. Qed.
Example ParseInt_ex :
  ParseInt "2147483647" 32 = Some 2147483647 ∧ ParseInt "2147483648" 32 = None ∧
  ParseInt "-2147483648" 32 = Some (-2147483648) ∧ ParseInt "1_0" 32 = None.
Proof. done. Qed.

(** ** Digits *)

Lemma digit_char_digit d : 0 ≤ d < 10 → is_digit (digit_char d) = true.
Proof.
  intros Hd. assert (d = 0 ∨ d = 1 ∨ d = 2 ∨ d = 3 ∨ d = 4 ∨ d = 5 ∨ d = 6 ∨ d = 7 ∨ d = 8 ∨ d = 9)
    as Hc by lia. by repeat destruct Hc as [->|Hc]; [..|subst].
Qed.

Lemma digit_value_char d : 0 ≤ d < 10 → digit_value (digit_char d) = d.
Proof.
  intros Hd. assert (d = 0 ∨ d = 1 ∨ d = 2 ∨ d = 3 ∨ d = 4 ∨ d = 5 ∨ d = 6 ∨ d = 7 ∨ d = 8 ∨ d = 9)
    as Hc by lia. by repeat destruct Hc as [->|Hc]; [..|subst].
Qed.

Lemma digit_value_range c : is_digit c = true → 0 ≤ digit_value c < 10.
Proof.
  unfold is_digit, in_range, digit_value.
  replace (byte "9") with 57 by done. replace (byte "0") with 48 by done. lia.
Qed.

Lemma digits_from_app acc s t :
  digits_from acc (s +:+ t) = digits_from acc s ≫= λ n, digits_from n t.
Proof.
  revert acc. induction s as [|c s IH]; intros acc; [done|].
  rewrite app_cons. simpl. by destruct (is_digit c).
Qed.

Lemma digits_from_all_digits acc s n :
  digits_from acc s = Some n → all_bytes is_digit s = true.
Proof.
  revert acc. induction s as [|c s IH]; intros acc; simpl; [done|].
  destruct (is_digit c); [apply IH|done].
Qed.

Lemma digits_from_total acc s :
  all_bytes is_digit s = true → ∃ n, digits_from acc s = Some n.
Proof.
  revert acc. induction s as [|c s IH]; intros acc; simpl; [eauto|].
  rewrite andb_true_iff. intros [-> Hs]. by apply IH.
Qed.

(** The value of a digit string lies below the power of ten of its length. *)
Lemma digits_from_bound acc s n :
  0 ≤ acc → digits_from acc s = Some n →
  acc * 10 ^ len s ≤ n < (acc + 1) * 10 ^ len s.
Proof.
  revert acc. induction s as [|c s IH]; intros acc Hacc; simpl.
  - intros [= ->]. change (len "") with 0. lia.
  - destruct (is_digit c) eqn:Hc; [|done]. apply digit_value_range in Hc.
    intros H. apply IH in H; [|lia].
    replace (len (String c s)) with (Z.succ (len s)) by (unfold len; simpl; lia).
    rewrite Z.pow_succ_r by apply len_nonneg.
    assert (0 < 10 ^ len s) by (apply Z.pow_pos_nonneg; [lia|apply len_nonneg]). nia.
Qed.

Lemma format_digits_spec fuel n acc :
  0 ≤ n → (Z.to_nat (Z.log2 n) < fuel)%nat →
  ∃ d, format_digits fuel n acc = d +:+ acc ∧ d ≠ "" ∧
    all_bytes is_digit d = true ∧ digits_from 0 d = Some n ∧
    (0 < n → ∀ r, d ≠ String "0" r).
Proof.
  revert n acc. induction fuel as [|fuel IH]; intros n acc Hn Hf; [lia|]. simpl.
  assert (0 ≤ n mod 10 < 10) as Hm by (apply Z.mod_pos_bound; lia).
  pose proof (digit_char_digit _ Hm) as Hd. pose proof (digit_value_char _ Hm) as Hv.
  destruct (n <? 10) eqn:E.
  - exists (String (digit_char (n mod 10)) ""). split; [done|]. split; [done|].
    simpl. rewrite Hd, Hv. split; [done|].
    split; [f_equal; rewrite Z.mod_small by lia; lia|].
    intros Hpos r [= Hc _]. rewrite Hc in Hv. rewrite Z.mod_small in Hv by lia.
    change (digit_value "0") with 0 in Hv. lia.
  - destruct (IH (n / 10) (String (digit_char (n mod 10)) acc)) as (d & Heq & Hne & Hall & Hval & H0).
    { apply Z.div_pos; lia. }
    { assert (Z.log2 (n / 10) < Z.log2 n); [|pose proof (Z.log2_nonneg (n / 10)); lia].
      apply Z.log2_lt_pow2; [apply Z.div_str_pos; lia|].
      apply Z.div_lt_upper_bound; [lia|].
      pose proof (Z.log2_spec n ltac:(lia)) as Hlog.
      rewrite Z.pow_succ_r in Hlog by apply Z.log2_nonneg. lia. }
    exists (d +:+ String (digit_char (n mod 10)) "").
    rewrite string_app_assoc, all_bytes_app, digits_from_app, Hval. simpl. rewrite Hd, Hv, Hall.
    split; [done|]. split; [by destruct d|]. split; [done|].
    split; [f_equal; pose proof (Z.div_mod n 10); lia|].
    intros _ r Hr. assert (0 < n / 10) as Hpos by (apply Z.div_str_pos; lia).
    destruct d as [|c d]; [done|]. rewrite app_cons in Hr. injection Hr as -> _.
    by eapply H0.
Qed.

Lemma FormatUint_spec n :
  0 ≤ n → FormatUint n ≠ "" ∧ all_bytes is_digit (FormatUint n) = true ∧
    digits_from 0 (FormatUint n) = Some n ∧ (0 < n → ∀ r, FormatUint n ≠ String "0" r).
Proof.
  intros Hn. unfold FormatUint.
  destruct (format_digits_spec (S (Z.to_nat (Z.log2 n))) n "") as (d & -> & ?); [lia..|].
  by rewrite string_app_nil_r.
Qed.

(** Parsing undoes printing, at every width that holds the number. *)
Lemma ParseUint_FormatUint n bits :
  0 ≤ n < 2 ^ bits → ParseUint (FormatUint n) bits = Some n.
Proof.
  intros Hn. destruct (FormatUint_spec n) as (Hne & _ & Hv & _); [lia|].
  unfold ParseUint. rewrite bool_decide_eq_false_2, Hv by done. simpl.
  by rewrite (proj2 (Z.ltb_lt _ _)) by lia.
Qed.

Lemma ParseUint_Some s bits n :
  ParseUint s bits = Some n →
  s ≠ "" ∧ all_bytes is_digit s = true ∧ digits_from 0 s = Some n ∧ 0 ≤ n < 2 ^ bits.
Proof.
  unfold ParseUint. case_bool_decide as Hs; [done|].
  destruct (digits_from 0 s) as [m|] eqn:E; simpl; [|done].
  destruct (m <? 2 ^ bits) eqn:Hlt; [|done]. intros [= ->].
  apply digits_from_bound in E as Hb; [|lia]. apply digits_from_all_digits in E as Hd.
  split_and!; [done..|lia|lia].
Qed.

(** Two digit strings of the same value without leading zeros are equal. *)
Lemma digits_from_inj acc s t n :
  String.length s = String.length t → 0 ≤ acc →
  digits_from acc s = Some n → digits_from acc t = Some n → s = t.
Proof.
  revert acc t. induction s as [|c s IH]; intros acc [|d t]; simpl; try done.
  intros [= Hl] Hacc. destruct (is_digit c) eqn:Hc; [|done]. destruct (is_digit d) eqn:Hd; [|done].
  intros H1 H2. pose proof (digit_value_range _ Hc). pose proof (digit_value_range _ Hd).
  assert (0 ≤ acc * 10 + digit_value c ∧ 0 ≤ acc * 10 + digit_value d) as [N1 N2] by lia.
  pose proof (digits_from_bound _ _ _ N1 H1) as B1.
  pose proof (digits_from_bound _ _ _ N2 H2) as B2.
  assert (len s = len t) as Hlen by (unfold len; by rewrite Hl). rewrite Hlen in B1.
  assert (0 < 10 ^ len t) by (apply Z.pow_pos_nonneg; [lia|apply len_nonneg]).
  assert (digit_value c = digit_value d) as Hcd by nia.
  f_equal; [apply byte_inj; unfold digit_value in Hcd; lia|].
  rewrite <-Hcd in H2. by apply (IH (acc * 10 + digit_value c)).
Qed.

(** ** Numbers without leading zeros *)

(** Digits, and no zero before them. *)
Definition canonical (d : string) : bool :=
  negb (bool_decide (d = "")) && negb ((1 <? len d) && HasPrefix d "0").

Lemma HasPrefix_zero d : HasPrefix d "0" = match d with String c _ => bool_decide (c = "0"%char) | "" => false end.
Proof.
  apply eq_true_iff_eq. rewrite HasPrefix_spec. destruct d as [|c d].
  - split; [by intros [r ?]|done].
  - rewrite bool_decide_eq_true. split; [by intros [r [= -> _]]|]. intros ->. by exists d.
Qed.

(** The number says how many digits there are. *)
Lemma canonical_bound d n :
  canonical d = true → digits_from 0 d = Some n → (len d = 1 ∧ n < 10) ∨ (1 < len d ∧ 10 ^ (len d - 1) ≤ n < 10 ^ len d).
Proof.
  unfold canonical. rewrite andb_true_iff, !negb_true_iff, bool_decide_eq_false, HasPrefix_zero. intros [Hne Hz] Hd.
  destruct d as [|c d]; [done|]. pose proof (digits_from_bound 0 _ _ ltac:(lia) Hd) as Hb.
  cbn [digits_from] in Hd. destruct (is_digit c) eqn:Hc; [|done]. pose proof (digit_value_range _ Hc) as Hr.
  apply digits_from_bound in Hd; [|lia]. assert (len (String c d) = 1 + len d) as Hl by (unfold len; cbn; lia).
  rewrite Hl in *. pose proof (len_nonneg d) as Hn. destruct (Z.eq_dec (len d) 0) as [E|E].
  - rewrite E in *. left. change (10 ^ (1 + 0)) with 10 in Hb. lia.
  - right. replace (1 + len d - 1) with (len d) by lia. rewrite (proj2 (Z.ltb_lt _ _)) in Hz by lia.
    cbn in Hz. apply bool_decide_eq_false in Hz.
    assert (1 ≤ digit_value c).
    { destruct (Z.eq_dec (digit_value c) 0) as [E0|]; [|lia]. exfalso. apply Hz, byte_inj.
      unfold digit_value in E0. lia. }
    assert (0 < 10 ^ len d) by (apply Z.pow_pos_nonneg; lia). nia.
Qed.

Lemma canonical_inj d e n :
  canonical d = true → canonical e = true → digits_from 0 d = Some n → digits_from 0 e = Some n → d = e.
Proof.
  intros Hd He Nd Ne. apply (digits_from_inj 0 d e n); [|lia|done..].
  assert (len d = len e) as E; [|unfold len in E; lia].
  assert (∀ k l, 1 < k → 1 ≤ l → 10 ^ (k - 1) ≤ n → n < 10 ^ l → k ≤ l) as cmp.
  { intros k l ? ? H1 H2. destruct (Z.le_gt_cases k l) as [|Hlt]; [done|]. exfalso.
    pose proof (Z.pow_le_mono_r 10 l (k - 1) ltac:(lia) ltac:(lia)). lia. }
  assert (10 ^ 1 = 10) as P by done.
  destruct (canonical_bound _ _ Hd Nd) as [(Ld & Bd)|(Ld & Bd)],
    (canonical_bound _ _ He Ne) as [(Le & Be)|(Le & Be)]; try lia.
  - pose proof (cmp (len e) 1). lia.
  - pose proof (cmp (len d) 1). lia.
  - pose proof (cmp (len d) (len e)). pose proof (cmp (len e) (len d)). lia.
Qed.

Lemma canonical_FormatUint n : 0 ≤ n → canonical (FormatUint n) = true.
Proof.
  intros Hn. destruct (FormatUint_spec n Hn) as (Hne & _ & _ & Hz). unfold canonical.
  rewrite bool_decide_eq_false_2 by done. destruct (Z.eq_dec n 0) as [->|Hn0]; [done|].
  rewrite HasPrefix_zero. destruct (FormatUint n) as [|c d] eqn:E; [done|].
  rewrite bool_decide_eq_false_2; [by rewrite andb_false_r|]. intros ->. by apply (Hz ltac:(lia) d).
Qed.

Lemma len_app s t : len (s +:+ t) = len s + len t.
Proof. unfold len. rewrite length_app_string. lia. Qed.

Lemma len_FormatUint n : 0 ≤ n → 1 ≤ len (FormatUint n).
Proof.
  intros Hn. destruct (FormatUint_spec n Hn) as (Hne & _). rewrite <-len_empty in Hne.
  pose proof (len_nonneg (FormatUint n)). lia.
Qed.

Lemma ParseInt_digits s bits : all_bytes is_digit s = true → s ≠ "" →
  ParseInt s bits = n ← ParseUint s bits; if n <? 2 ^ (bits - 1) then Some n else None.
Proof.
  destruct s as [|c s]; [done|]. cbn [all_bytes]. intros [Hc _]%andb_true_iff _.
  assert (c ≠ "+"%char ∧ c ≠ "-"%char) as [Hp Hm] by (split; intros ->; vm_compute in Hc; discriminate).
  unfold ParseInt. destruct c as [[] [] [] [] [] [] [] []]; try reflexivity; by (exfalso; (apply Hp + apply Hm); reflexivity).
Qed.

Lemma FormatInt_nonneg n : 0 ≤ n → FormatInt n = FormatUint n.
Proof. intros Hn. unfold FormatInt. by destruct (Z.ltb_spec n 0); [lia|]. Qed.

Lemma ParseInt_FormatInt n bits : 1 ≤ bits → 0 ≤ n < 2 ^ (bits - 1) → ParseInt (FormatInt n) bits = Some n.
Proof.
  intros Hb Hn. rewrite FormatInt_nonneg by lia. destruct (FormatUint_spec n ltac:(lia)) as (Hne & Hd & _ & _).
  rewrite ParseInt_digits, ParseUint_FormatUint by (done || (replace bits with (Z.succ (bits - 1)) by lia; rewrite Z.pow_succ_r by lia; lia)).
  cbn [mbind option_bind]. by rewrite (proj2 (Z.ltb_lt _ _)) by lia.
Qed.

(** A number is written with digits. *)
Lemma FormatInt_digits n : 0 ≤ n → FormatInt n ≠ "" ∧ all_bytes is_digit (FormatInt n) = true.
Proof. intros Hn. rewrite FormatInt_nonneg by done. destruct (FormatUint_spec n Hn) as (? & ? & _). done. Qed.
