(* ===== verification/GoTime.v ===== *)
(** * Times as text

    The parts of package [time] that read and write text: [time.Parse] and
    [Time.Format] with the RFC 3339 layouts (which [encoding/json] uses for a
    [time.Time]), and [time.ParseDuration].  A [time] is a number of nanoseconds
    since the zero time, 1 January of year 1, UTC. *)

From S2P Require Export GoNum.

Local Open Scope Z_scope.

(** ** The calendar *)

Definition is_leap (year : Z) : bool :=
  (year mod 4 =? 0) && (negb (year mod 100 =? 0) || (year mod 400 =? 0)).

(** The days of the year before the month. *)
Definition daysBefore (month : Z) : Z :=
  nth (Z.to_nat (month - 1)) [0; 31; 59; 90; 120; 151; 181; 212; 243; 273; 304; 334; 365] 0.

Definition days_before_month (year month : Z) : Z :=
  daysBefore month + (if (2 <? month) && is_leap year then 1 else 0).

Definition daysIn (month year : Z) : Z :=
  days_before_month year (month + 1) - days_before_month year month.

Definition days_before_year (year : Z) : Z :=
  let n := year - 1 in 365 * n + n / 4 - n / 100 + n / 400.

Definition days_of (year month day : Z) : Z :=
  days_before_year year + days_before_month year month + (day - 1).

Definition Date (year month day hour min sec nsec offset : Z) : time :=
  (((days_of year month day * 24 + hour) * 60 + min) * 60 + sec - offset) * second + nsec.

(** The year, and the day of the year from 0, of a day. *)
Definition year_day (days : Z) : Z * Z :=
  let n400 := days / 146097 in let d := days mod 146097 in
  let n100 := Z.min 3 (d / 36524) in let d := d - 36524 * n100 in
  let n4 := d / 1461 in let d := d mod 1461 in
  let n1 := Z.min 3 (d / 365) in let d := d - 365 * n1 in
  (400 * n400 + 100 * n100 + 4 * n4 + n1 + 1, d).

Definition month_of (year yday : Z) : Z :=
  match List.find (λ m, yday <? days_before_month year (m + 1)) [1; 2; 3; 4; 5; 6; 7; 8; 9; 10; 11; 12] with
  | Some m => m
  | None => 12
  end.

Definition civil (days : Z) : Z * Z * Z :=
  let '(year, yday) := year_day days in
  let month := month_of year yday in
  (year, month, yday - days_before_month year month + 1).

(** ** RFC 3339 *)

Definition expect (c : ascii) (s : string) : option string :=
  match s with String d r => if bool_decide (c = d) then Some r else None | EmptyString => None end.

Definition two_digits (s : string) : option (Z * string) :=
  match s with
  | String a (String b r) =>
      if is_digit a && is_digit b then Some (digit_value a * 10 + digit_value b, r) else None
  | _ => None
  end.

(** The hour may have one digit. *)
Definition one_or_two_digits (s : string) : option (Z * string) :=
  match two_digits s with
  | Some x => Some x
  | None =>
      match s with String a r => if is_digit a then Some (digit_value a, r) else None | EmptyString => None end
  end.

Definition within (lo hi : Z) (x : option (Z * string)) : option (Z * string) :=
  '(n, r) ← x; if (lo <=? n) && (n <=? hi) then Some (n, r) else None.

Fixpoint leading_digits (s : string) : string * string :=
  match s with
  | String c r => if is_digit c then let '(d, rest) := leading_digits r in (String c d, rest) else (EmptyString, s)
  | EmptyString => (EmptyString, s)
  end.

(** The first nine digits of a fraction, as nanoseconds. *)
Fixpoint nanoseconds (digits : nat) (s : string) : Z :=
  match digits with
  | O => 0
  | S digits =>
      match s with
      | String c r => digit_value c * 10 ^ Z.of_nat digits + nanoseconds digits r
      | EmptyString => 0
      end
  end.

(** A fraction after the seconds, with a period or a comma. *)
Definition fraction (s : string) : Z * string :=
  match s with
  | String c r =>
      if bool_decide (c = "."%char ∨ c = ","%char) then
        let '(d, rest) := leading_digits r in
        if bool_decide (d = EmptyString) then (0, s) else (nanoseconds 9 d, rest)
      else (0, s)
  | EmptyString => (0, s)
  end.

(** [Z], or a signed offset in hours and minutes, at the end of the text. *)
Definition zone (s : string) : option Z :=
  match s with
  | String "Z" EmptyString => Some 0
  | String sign r =>
      '(hour, r) ← within 0 24 (two_digits r); r ← expect ":" r;
      '(min, r) ← within 0 60 (two_digits r);
      if negb (bool_decide (r = EmptyString)) then None else
      let offset := (hour * 60 + min) * 60 in
      if bool_decide (sign = "+"%char) then Some offset
      else if bool_decide (sign = "-"%char) then Some (- offset)
      else None
  | EmptyString => None
  end.

(** [time.Parse(time.RFC3339, s)], as an instant. *)
Definition ParseRFC3339 (s : string) : option time :=
  '(century, r) ← two_digits s; '(y, r) ← two_digits r; r ← expect "-" r;
  '(month, r) ← within 1 12 (two_digits r); r ← expect "-" r;
  '(day, r) ← two_digits r; r ← expect "T" r;
  '(hour, r) ← within 0 23 (one_or_two_digits r); r ← expect ":" r;
  '(min, r) ← within 0 59 (two_digits r); r ← expect ":" r;
  '(sec, r) ← within 0 59 (two_digits r);
  let '(nsec, r) := fraction r in
  offset ← zone r;
  let year := century * 100 + y in
  if (1 <=? day) && (day <=? daysIn month year)
  then Some (Date year month day hour min sec nsec offset) else None.

Definition pad2 (n : Z) : string :=
  String (digit_char (n / 10 mod 10)) (String (digit_char (n mod 10)) EmptyString).

(** The fraction without its trailing zeros: [.999999999] of the layout. *)
Fixpoint fraction_digits (digits : nat) (n : Z) : string :=
  match digits with
  | O => EmptyString
  | S digits =>
      if n =? 0 then EmptyString else
      String (digit_char (n / 10 ^ Z.of_nat digits)) (fraction_digits digits (n mod 10 ^ Z.of_nat digits))
  end.

Definition format_fraction (nsec : Z) : string :=
  if nsec =? 0 then EmptyString else String "." (fraction_digits 9 nsec).

(** [t.UTC().Format(time.RFC3339Nano)] for the years 0 to 9999. *)
Definition FormatRFC3339Nano (t : time) : string :=
  let seconds := t / second in
  let nsec := t mod second in
  let '(year, month, day) := civil (seconds / 86400) in
  let s := seconds mod 86400 in
  pad2 (year / 100) +:+ pad2 (year mod 100) +:+ "-" +:+ pad2 month +:+ "-" +:+ pad2 day +:+ "T" +:+
  pad2 (s / 3600) +:+ ":" +:+ pad2 (s / 60 mod 60) +:+ ":" +:+ pad2 (s mod 60) +:+
  format_fraction nsec +:+ "Z".

Example RFC3339_examples :
  ParseRFC3339 "1970-01-01T00:00:00Z" = Some (62135596800 * second) ∧
  ParseRFC3339 "2024-02-29T23:59:60Z" = None ∧ ParseRFC3339 "2023-02-29T00:00:00Z" = None ∧
  ParseRFC3339 "0001-01-01T05:30:00.25+05:30" = Some 250000000 ∧
  FormatRFC3339Nano (62135596800 * second + 1500000) = "1970-01-01T00:00:00.0015Z".
Proof. by vm_compute. Qed.

(** ** Reading what was written *)

Lemma year_day_spec d :
  let '(year, yday) := year_day d in
  days_before_year year + yday = d ∧ 0 ≤ yday < 365 + (if is_leap year then 1 else 0) ∧
  400 * (d / 146097) < year ≤ 400 * (d / 146097) + 400.
Proof.
  unfold year_day. cbv zeta.
  pose proof (Z.div_mod d 146097 ltac:(lia)) as Hd.
  pose proof (Z.mod_pos_bound d 146097 ltac:(lia)) as Hr.
  set (a := d / 146097) in *. set (r := d mod 146097) in *. clearbody a r. subst d.
  set (b := Z.min 3 (r / 36524)).
  assert (0 ≤ b ≤ 3 ∧ 36524 * b ≤ r ∧ (b < 3 → r < 36524 * b + 36524)) as (Hb & Hb1 & Hb2).
  { subst b. Z.to_euclidean_division_equations; lia. }
  clearbody b. set (s := r - 36524 * b).
  assert (0 ≤ s ∧ s < 36525 ∧ (b < 3 → s < 36524)) as (Hs & Hs1 & Hs2) by (subst s; lia).
  set (c := s / 1461). set (u := s mod 1461).
  assert (s = 1461 * c + u ∧ 0 ≤ u < 1461 ∧ 0 ≤ c ≤ 24) as (Hc & Hu & Hc1).
  { subst c u. Z.to_euclidean_division_equations; lia. }
  clearbody c u. set (e := Z.min 3 (u / 365)).
  assert (0 ≤ e ≤ 3 ∧ 365 * e ≤ u ∧ (e < 3 → u < 365 * e + 365)) as (He & He1 & He2).
  { subst e. Z.to_euclidean_division_equations; lia. }
  clearbody e. split_and!; try lia.
  - unfold days_before_year.
    replace (400 * a + 100 * b + 4 * c + e + 1 - 1) with (400 * a + 100 * b + 4 * c + e) by lia.
    replace ((400 * a + 100 * b + 4 * c + e) / 4) with (100 * a + 25 * b + c)
      by (Z.to_euclidean_division_equations; lia).
    replace ((400 * a + 100 * b + 4 * c + e) / 100) with (4 * a + b)
      by (Z.to_euclidean_division_equations; lia).
    replace ((400 * a + 100 * b + 4 * c + e) / 400) with a
      by (Z.to_euclidean_division_equations; lia).
    subst s. lia.
  - destruct (is_leap (400 * a + 100 * b + 4 * c + e + 1)) eqn:El; [lia|].
    destruct (Z.lt_ge_cases (u - 365 * e) 365) as [|Hlast]; [lia|]. exfalso.
    assert (e = 3 ∧ u = 1460) as [-> ->] by lia.
    assert (c < 24 ∨ b = 3) as Hcb by lia.
    unfold is_leap in El. rewrite andb_false_iff, orb_false_iff, negb_false_iff, !Z.eqb_neq, Z.eqb_eq in El.
    Z.to_euclidean_division_equations; lia.
Qed.

Definition month_check (leap : bool) (yday : Z) : bool :=
  let year := if leap then 4 else 1 in
  let month := month_of year yday in
  (1 <=? month) && (month <=? 12) && (days_before_month year month <=? yday) &&
  (yday <? days_before_month year (month + 1)) ||
  (365 + (if leap then 1 else 0) <=? yday).

Lemma month_check_all leap : forallb (month_check leap) (seqZ 0 366) = true.
Proof. destruct leap; by vm_compute. Qed.

Lemma days_before_month_leap year m :
  days_before_month year m = days_before_month (if is_leap year then 4 else 1) m.
Proof. unfold days_before_month. by destruct (is_leap year). Qed.

Lemma month_of_spec year yday :
  0 ≤ yday < 365 + (if is_leap year then 1 else 0) →
  1 ≤ month_of year yday ≤ 12 ∧
  days_before_month year (month_of year yday) ≤ yday < days_before_month year (month_of year yday + 1).
Proof.
  intros Hd. assert (month_of year yday = month_of (if is_leap year then 4 else 1) yday) as ->.
  { unfold month_of. cbn [List.find]. by rewrite !(days_before_month_leap year). }
  rewrite !(days_before_month_leap year).
  pose proof (month_check_all (is_leap year)) as Hall. rewrite forallb_forall in Hall.
  specialize (Hall yday). unfold month_check in Hall.
  rewrite orb_true_iff, !andb_true_iff, !Z.leb_le, Z.ltb_lt in Hall.
  rewrite <-list_elem_of_In, elem_of_seqZ in Hall.
  destruct (is_leap year); (destruct Hall as [Hall|Hall]; [lia| |]); lia.
Qed.

(** The calendar day of a number of days is a day of the calendar, and the one. *)
Lemma civil_spec d :
  let '(year, month, day) := civil d in
  1 ≤ month ≤ 12 ∧ 1 ≤ day ≤ daysIn month year ∧ days_of year month day = d ∧
  days_before_year year ≤ d < days_before_year (year + 1).
Proof.
  unfold civil. pose proof (year_day_spec d) as Hy. destruct (year_day d) as [year yday].
  destruct Hy as (Hy & Hyd & _). pose proof (month_of_spec year yday Hyd) as [Hm Hb].
  cbv zeta. unfold daysIn, days_of. split_and!; try lia.
  rewrite <-Hy. enough (days_before_year year + 365 + (if is_leap year then 1 else 0) ≤ days_before_year (year + 1)) by lia.
  unfold days_before_year, is_leap. replace (year + 1 - 1) with (year - 1 + 1) by lia.
  destruct (Z.eqb_spec (year mod 4) 0), (Z.eqb_spec (year mod 100) 0), (Z.eqb_spec (year mod 400) 0); simpl;
    Z.to_euclidean_division_equations; lia.
Qed.

Lemma daysIn_31 month year : 1 ≤ month ≤ 12 → daysIn month year ≤ 31.
Proof.
  intros Hm. unfold daysIn, days_before_month, daysBefore.
  assert (month ∈ [1;2;3;4;5;6;7;8;9;10;11;12]) as Hm' by (rewrite !elem_of_cons; lia).
  rewrite !elem_of_cons, elem_of_nil in Hm'. destruct_or!; subst; simpl; repeat case_match; lia.
Qed.

Lemma two_digits_pad2 n r : 0 ≤ n < 100 → two_digits (pad2 n +:+ r) = Some (n, r).
Proof.
  intros Hn. unfold pad2. rewrite !app_cons, app_empty_l. simpl.
  assert (0 ≤ n / 10 mod 10 < 10 ∧ 0 ≤ n mod 10 < 10) as [] by (split; apply Z.mod_pos_bound; lia).
  rewrite !digit_char_digit, !digit_value_char by done. simpl. f_equal. f_equal.
  rewrite (Z.mod_small (n / 10)) by (split; [apply Z.div_pos|apply Z.div_lt_upper_bound]; lia).
  pose proof (Z.div_mod n 10). lia.
Qed.

Lemma one_or_two_digits_pad2 n r : 0 ≤ n < 100 → one_or_two_digits (pad2 n +:+ r) = Some (n, r).
Proof. intros. unfold one_or_two_digits. by rewrite two_digits_pad2. Qed.

Lemma within_Some lo hi n r : lo ≤ n ≤ hi → within lo hi (Some (n, r)) = Some (n, r).
Proof.
  intros. unfold within. simpl. destruct (Z.leb_spec lo n), (Z.leb_spec n hi); (lia || done).
Qed.

Lemma expect_cons c r : expect c (String c r) = Some r.
Proof. unfold expect. by rewrite bool_decide_eq_true_2. Qed.

Lemma fraction_digits_spec digits n :
  0 ≤ n < 10 ^ Z.of_nat digits →
  leading_digits (fraction_digits digits n +:+ "Z") = (fraction_digits digits n, "Z") ∧
  nanoseconds digits (fraction_digits digits n) = n ∧
  (n ≠ 0 → fraction_digits digits n ≠ EmptyString).
Proof.
  revert n. induction digits as [|digits IH]; intros n Hn.
  { assert (n = 0) as -> by (simpl in Hn; lia). simpl. split_and!; [done..|lia]. }
  cbn [fraction_digits]. destruct (Z.eqb_spec n 0) as [->|Hz].
  { done. }
  rewrite Nat2Z.inj_succ, Z.pow_succ_r in Hn by lia.
  assert (0 < 10 ^ Z.of_nat digits) as Hp by (apply Z.pow_pos_nonneg; lia).
  assert (0 ≤ n / 10 ^ Z.of_nat digits < 10)
    by (split; [apply Z.div_pos|apply Z.div_lt_upper_bound]; lia).
  destruct (IH (n mod 10 ^ Z.of_nat digits)) as (IH1 & IH2 & _); [by apply Z.mod_pos_bound|].
  rewrite app_cons. cbn [leading_digits nanoseconds].
  rewrite digit_char_digit, digit_value_char, IH1, IH2 by done.
  split_and!; [done| |done]. pose proof (Z.div_mod n (10 ^ Z.of_nat digits)). lia.
Qed.

Lemma fraction_format nsec :
  0 ≤ nsec < second → fraction (format_fraction nsec +:+ "Z") = (nsec, "Z").
Proof.
  intros Hn. unfold format_fraction. destruct (Z.eqb_spec nsec 0) as [->|Hz].
  { reflexivity. }
  destruct (fraction_digits_spec 9 nsec) as (H1 & H2 & H3); [done|].
  rewrite app_cons. unfold fraction. rewrite bool_decide_eq_true_2 by auto.
  rewrite H1, bool_decide_eq_false_2, H2 by auto. done.
Qed.

Lemma year_bounds d year :
  days_before_year 0 ≤ d < days_before_year 10000 →
  days_before_year year ≤ d < days_before_year (year + 1) → 0 ≤ year ≤ 9999.
Proof. unfold days_before_year. intros. Z.to_euclidean_division_equations; lia. Qed.

(** A time of the years 0 to 9999 that is written in the format of RFC 3339 is read
    back to the nanosecond. *)
Lemma ParseRFC3339_Format t :
  days_before_year 0 ≤ t / second / 86400 < days_before_year 10000 →
  ParseRFC3339 (FormatRFC3339Nano t) = Some t.
Proof.
  intros Ht. unfold FormatRFC3339Nano. pose proof (civil_spec (t / second / 86400)) as Hc.
  destruct (civil (t / second / 86400)) as [[year month] day].
  destruct Hc as (Hm & Hd & Hof & Hyear%year_bounds); [|done].
  set (s := t / second mod 86400). assert (0 ≤ s < 86400) by (apply Z.mod_pos_bound; lia).
  assert (0 ≤ t mod second < second) by (apply Z.mod_pos_bound; unfold second; lia).
  pose proof (daysIn_31 month year Hm) as Hdays.
  assert (0 ≤ year / 100 < 100) by (split; [apply Z.div_pos|apply Z.div_lt_upper_bound]; lia).
  assert (0 ≤ year mod 100 < 100) by (apply Z.mod_pos_bound; lia).
  assert (0 ≤ s / 3600 < 24) by (split; [apply Z.div_pos|apply Z.div_lt_upper_bound]; lia).
  assert (0 ≤ s / 60 mod 60 < 60) by (apply Z.mod_pos_bound; lia).
  assert (0 ≤ s mod 60 < 60) by (apply Z.mod_pos_bound; lia).
  unfold ParseRFC3339.
  repeat first
    [ rewrite two_digits_pad2 by lia | rewrite one_or_two_digits_pad2 by lia
    | rewrite within_Some by lia | rewrite app_cons, app_empty_l, expect_cons
    | progress cbn [mbind option_bind] ].
  rewrite fraction_format by done. cbn [zone mbind option_bind].
  replace (year / 100 * 100 + year mod 100) with year by (pose proof (Z.div_mod year 100); lia).
  destruct (Z.leb_spec 1 day), (Z.leb_spec day (daysIn month year)); try lia. cbn [andb]. f_equal.
  unfold Date. rewrite Hof. unfold s, second in *.
  Z.to_euclidean_division_equations; lia.
Qed.
