(* ===== verification/Json.v ===== *)
(** * encoding/json

    The part of Go's [encoding/json] the program uses, executable: the syntax of
    [json.Unmarshal] with its string escapes, its replacement of invalid UTF-8 and
    its nesting limit; the decoding of a value into a Go variable, type by type,
    with the variable's old content as an argument (a repeated member decodes on
    top of the first one, [null] leaves most variables alone); [json.RawMessage],
    which keeps the text of a value; and [json.Marshal] of a tree of values. *)

From S2P Require Export GoTime.

Local Open Scope Z_scope.

Module Json.

(** Every element and every member's value carries its text, for [RawMessage]. *)
Inductive value : Type :=
  | Null
  | Bool (b : bool)
  | Number (literal : string)
  | Str (s : string)
  | Array (elements : list (string * value))
  | Object (members : list (string * (string * value))).

Notation member := (string * (string * value))%type.

(** ** Syntax *)

Definition is_space (c : ascii) : bool :=
  let b := byte c in (b =? 32) || (b =? 9) || (b =? 13) || (b =? 10).

Fixpoint skip (s : string) : string :=
  match s with
  | String c r => if is_space c then skip r else s
  | EmptyString => s
  end.

Definition hex_digit (c : ascii) : option Z :=
  if is_digit c then Some (digit_value c)
  else if in_range "a" "f" c then Some (byte c - byte "a" + 10)
  else if in_range "A" "F" c then Some (byte c - byte "A" + 10)
  else None.

Definition hex4 (a b c d : ascii) : option Z :=
  w ← hex_digit a; x ← hex_digit b; y ← hex_digit c; z ← hex_digit d;
  Some (w * 4096 + x * 256 + y * 16 + z).

Definition is_surrogate (r : Z) : bool := (55296 <=? r) && (r <? 57344).

(** [utf16.DecodeRune]: [None] for what is no surrogate pair. *)
Definition surrogate_pair (hi lo : Z) : option Z :=
  if (55296 <=? hi) && (hi <? 56320) && (56320 <=? lo) && (lo <? 57344)
  then Some (Z.lor (Z.shiftl (hi - 55296) 10) (lo - 56320) + 65536) else None.

Definition quote : ascii := "034".
Definition backslash : ascii := "092".

(** The one-byte escapes. *)
Definition short_escape (e : ascii) : option ascii :=
  if bool_decide (e = quote ∨ e = backslash ∨ e = "/"%char) then Some e
  else if bool_decide (e = "b"%char) then Some (ascii_of_Z 8)
  else if bool_decide (e = "f"%char) then Some (ascii_of_Z 12)
  else if bool_decide (e = "n"%char) then Some (ascii_of_Z 10)
  else if bool_decide (e = "r"%char) then Some (ascii_of_Z 13)
  else if bool_decide (e = "t"%char) then Some (ascii_of_Z 9)
  else None.

Definition replacement : string := encode_rune RuneError.

Definition before (t : string) (x : option (string * string)) : option (string * string) :=
  match x with Some (u, rest) => Some (t +:+ u, rest) | None => None end.

(** The rest of a string after its opening quote: its decoded text and what
    follows.  A surrogate that is not half of a pair and a byte that starts no
    valid sequence become U+FFFD; a control character is a syntax error. *)
Fixpoint string_tail (s : string) : option (string * string) :=
  match s with
  | EmptyString => None
  | String c r0 =>
      if bool_decide (c = quote) then Some (EmptyString, r0)
      else if bool_decide (c = backslash) then
        match r0 with
        | String "u" (String h1 (String h2 (String h3 (String h4 r5)))) =>
            hi ← hex4 h1 h2 h3 h4;
            if is_surrogate hi then
              match r5 with
              | String "092" (String "u" (String l1 (String l2 (String l3 (String l4 r11))))) =>
                  match lo ← hex4 l1 l2 l3 l4; surrogate_pair hi lo with
                  | Some r => before (encode_rune r) (string_tail r11)
                  | None => before replacement (string_tail r5)
                  end
              | _ => before replacement (string_tail r5)
              end
            else before (encode_rune hi) (string_tail r5)
        | String e r1 =>
            match short_escape e with
            | Some b => before (String b EmptyString) (string_tail r1)
            | None => None
            end
        | EmptyString => None
        end
      else if byte c <? 32 then None
      else if is_ascii c then before (String c EmptyString) (string_tail r0)
      else
      match r0 with
      | EmptyString => None
      | String d r1 =>
          if lead2 c && is_cont d then before (of_bytes [c; d]) (string_tail r1) else
          match r1 with
          | EmptyString => before replacement (string_tail r0)
          | String e r2 =>
              if lead3 c d && is_cont e then before (of_bytes [c; d; e]) (string_tail r2) else
              match r2 with
              | EmptyString => before replacement (string_tail r0)
              | String f r3 =>
                  if lead4 c d && is_cont e && is_cont f
                  then before (of_bytes [c; d; e; f]) (string_tail r3)
                  else before replacement (string_tail r0)
              end
          end
      end
  end.

(** The longest prefix of digits, and the rest. *)
Fixpoint digits (s : string) : string * string :=
  match s with
  | String c r => if is_digit c then let '(d, rest) := digits r in (String c d, rest) else (EmptyString, s)
  | EmptyString => (EmptyString, s)
  end.

(** A number: sign, integer part without leading zeros, fraction, exponent. *)
Definition integer (s : string) : option (string * string) :=
  match s with
  | String "0" r => Some ("0", r)
  | _ => let '(d, r) := digits s in if bool_decide (d = EmptyString) then None else Some (d, r)
  end.

Definition fraction (s : string) : option (string * string) :=
  match s with
  | String "." r =>
      let '(d, r) := digits r in
      if bool_decide (d = EmptyString) then None else Some (String "." d, r)
  | _ => Some (EmptyString, s)
  end.

Definition exponent (s : string) : option (string * string) :=
  match s with
  | String c r =>
      if bool_decide (c = "e"%char ∨ c = "E"%char) then
        let '(sign, r) :=
          match r with
          | String "+" r' => ("+", r')
          | String "-" r' => ("-", r')
          | _ => (EmptyString, r)
          end in
        let '(d, r) := digits r in
        if bool_decide (d = EmptyString) then None else Some (String c (sign +:+ d), r)
      else Some (EmptyString, s)
  | EmptyString => Some (EmptyString, s)
  end.

Definition number (s : string) : option (string * string) :=
  let '(sign, r) := match s with String "-" r => ("-", r) | _ => (EmptyString, s) end in
  '(i, r) ← integer r; '(f, r) ← fraction r; '(e, r) ← exponent r;
  Some (sign +:+ i +:+ f +:+ e, r).

Definition literal_value (s : string) : option (value * string) :=
  match strip_prefix "true" s, strip_prefix "false" s, strip_prefix "null" s with
  | Some r, _, _ => Some (Bool true, r)
  | _, Some r, _ => Some (Bool false, r)
  | _, _, Some r => Some (Null, r)
  | _, _, _ => '(n, r) ← number s; Some (Number n, r)
  end.

(** The text of what was read from [s] when [rest] remains. *)
Definition span (s rest : string) : string :=
  take_bytes (String.length s - String.length rest) s.

Definition maxNestingDepth : Z := 10000.

(** [fuel] bounds the calls; two for every byte of the text are enough. *)
Fixpoint parse_value (fuel : nat) (depth : Z) (s : string) : option (value * string) :=
  match fuel with
  | O => None
  | S fuel =>
      match s with
      | EmptyString => None
      | String c r =>
          if bool_decide (c = "{"%char) then
            if maxNestingDepth <=? depth then None else
            match skip r with
            | String "}" r => Some (Object [], r)
            | r => '(ms, rest) ← parse_members fuel (depth + 1) r; Some (Object ms, rest)
            end
          else if bool_decide (c = "["%char) then
            if maxNestingDepth <=? depth then None else
            match skip r with
            | String "]" r => Some (Array [], r)
            | r => '(es, rest) ← parse_elements fuel (depth + 1) r; Some (Array es, rest)
            end
          else if bool_decide (c = quote) then '(t, rest) ← string_tail r; Some (Str t, rest)
          else literal_value s
      end
  end
with parse_elements (fuel : nat) (depth : Z) (s : string) :
    option (list (string * value) * string) :=
  match fuel with
  | O => None
  | S fuel =>
      '(v, r) ← parse_value fuel depth s;
      let element := (span s r, v) in
      match skip r with
      | String "," r => '(es, rest) ← parse_elements fuel depth (skip r); Some (element :: es, rest)
      | String "]" r => Some ([element], r)
      | _ => None
      end
  end
with parse_members (fuel : nat) (depth : Z) (s : string) : option (list member * string) :=
  match fuel with
  | O => None
  | S fuel =>
      match s with
      | EmptyString => None
      | String c r =>
          if negb (bool_decide (c = quote)) then None else
          '(name, r) ← string_tail r;
          match skip r with
          | String ":" r =>
              let s := skip r in
              '(v, r) ← parse_value fuel depth s;
              let m := (name, (span s r, v)) in
              match skip r with
              | String "," r => '(ms, rest) ← parse_members fuel depth (skip r); Some (m :: ms, rest)
              | String "}" r => Some ([m], r)
              | _ => None
              end
          | _ => None
          end
      end
  end.

Definition enough (text : string) : nat := S (S (2 * String.length text)).

(** The value of a text, with the text of the value itself. *)
Definition parse_with (fuel : nat) (text : string) : option (string * value) :=
  let s := skip text in
  '(v, r) ← parse_value fuel 0 s;
  if bool_decide (skip r = EmptyString) then Some (span s r, v) else None.

Definition parse (text : string) : option (string * value) := parse_with (enough text) text.

(** ** Decoding

    A decoder takes the content of the variable, the text of the value and the
    value, and gives the new content, or [None] where [Unmarshal] reports an error
    (every caller drops the variable then). *)
Definition decoder (A : Type) : Type := A → string → value → option A.

(** The zero value of a type. *)
Class Zero (A : Type) : Type := zero : A.
#[global] Arguments zero {A _} : simpl never.
#[global] Instance zero_string : Zero string := EmptyString.
#[global] Instance zero_Z : Zero Z := 0.
#[global] Instance zero_bool : Zero bool := false.
#[global] Instance zero_list {A} : Zero (list A) := [].
#[global] Instance zero_option {A} : Zero (option A) := None.
#[global] Instance zero_gmap {A} : Zero (gmap string A) := (∅ : gmap string A).
#[global] Instance zero_unit : Zero unit := tt.
#[global] Instance zero_prod {A B} `{Zero A, Zero B} : Zero (A * B) := (zero, zero) : A * B.

Definition RawMessage : Type := string.

Definition raw_message : decoder RawMessage := λ _ text _, Some text.

Definition string_ : decoder string := λ old _ v,
  match v with Str s => Some s | Null => Some old | _ => None end.

Definition bool_ : decoder bool := λ old _ v,
  match v with Bool b => Some b | Null => Some old | _ => None end.

(** A signed integer of [bits] bits: the literal must be one, without a fraction or
    an exponent. *)
Definition int_ (bits : Z) : decoder Z := λ old _ v,
  match v with Number n => ParseInt n bits | Null => Some old | _ => None end.

(** [Time.UnmarshalJSON]: the text between the quotes is not unescaped. *)
Definition time_ : decoder time := λ old text v,
  match v with
  | Str _ => ParseRFC3339 (take_bytes (String.length text - 2) (drop_bytes 1 text))
  | Null => Some old
  | _ => None
  end.

(** A pointer: to a new zero value where it is nil. *)
Definition pointer {A} `{Zero A} (d : decoder A) : decoder (option A) := λ old text v,
  match v with
  | Null => Some None
  | _ => Some <$> d (default zero old) text v
  end.

(** A slice: an element decodes on top of the one the slice has at its place. *)
Fixpoint slice_elements {A} `{Zero A} (d : decoder A) (old : list A)
    (elements : list (string * value)) : option (list A) :=
  match elements with
  | [] => Some []
  | (text, v) :: elements =>
      a ← d (default zero (head old)) text v;
      rest ← slice_elements d (tail old) elements;
      Some (a :: rest)
  end.

Definition slice {A} `{Zero A} (d : decoder A) : decoder (list A) := λ old _ v,
  match v with
  | Array elements => slice_elements d old elements
  | Null => Some []
  | _ => None
  end.

(** A map with string keys. *)
Fixpoint map_members {A} `{Zero A} (d : decoder A) (old : gmap string A) (members : list member) :
    option (gmap string A) :=
  match members with
  | [] => Some old
  | (name, (text, v)) :: members =>
      a ← d zero text v; map_members d (<[name := a]> old) members
  end.

Definition map_ {A} `{Zero A} (d : decoder A) : decoder (gmap string A) := λ old _ v,
  match v with
  | Object members => map_members d old members
  | Null => Some ∅
  | _ => None
  end.

(** The name of a member names a field up to the case of its letters; of the runes
    outside of ASCII, U+017F and U+212A fold to the letters S and K. *)
Definition fold_rune (r : Z) : Z :=
  if (97 <=? r) && (r <=? 122) then r - 32
  else if r =? 383 then 83 else if r =? 8490 then 75 else r.

Definition names (field name : string) : bool :=
  bool_decide (fold_rune <$> runes name = fold_rune <$> runes field).

(** The members of an object that name the field, one after the other. *)
Definition fields (A : Type) : Type := A → list member → option A.

Fixpoint field {A} (name : string) (d : decoder A) (old : A) (members : list member) : option A :=
  match members with
  | [] => Some old
  | (n, (text, v)) :: members =>
      if names name n then a ← d old text v; field name d a members
      else field name d old members
  end.

(** Several fields, as a tuple. *)
Definition both {A B} (f : fields A) (g : fields B) : fields (A * B) := λ old members,
  a ← f old.1 members; b ← g old.2 members; Some (a, b).

(** A struct, by its fields. *)
Definition struct {A} (f : fields A) : decoder A := λ old _ v,
  match v with
  | Object members => f old members
  | Null => Some old
  | _ => None
  end.

(** [json.Unmarshal(text, &x)] with [x] of zero value. *)
Definition Unmarshal {A} `{Zero A} (d : decoder A) (text : string) : option A :=
  '(t, v) ← parse text; d zero t v.

(** ** Writing *)

Definition hex_char (d : Z) : ascii :=
  if d <? 10 then digit_char d else ascii_of_Z (byte "a" + d - 10).

(** An ASCII byte: the characters of HTML and the control characters are escaped. *)
Definition escape_byte (c : ascii) : string :=
  let b := byte c in
  if bool_decide (c = quote ∨ c = backslash) then of_bytes [backslash; c]
  else if b =? 8 then of_bytes [backslash; "b"%char]
  else if b =? 12 then of_bytes [backslash; "f"%char]
  else if b =? 10 then of_bytes [backslash; "n"%char]
  else if b =? 13 then of_bytes [backslash; "r"%char]
  else if b =? 9 then of_bytes [backslash; "t"%char]
  else if (b <? 32) || bool_decide (c = "<"%char ∨ c = ">"%char ∨ c = "&"%char) then
    of_bytes [backslash; "u"%char; "0"%char; "0"%char; hex_char (b / 16); hex_char (b mod 16)]
  else String c EmptyString.

Definition escaped_replacement : string := of_bytes (backslash :: bytes "ufffd").

(** U+2028 and U+2029, the only sequences of three bytes that are escaped. *)
Definition escape3 (c d e : ascii) : string :=
  if rune3 c d e =? 8232 then of_bytes (backslash :: bytes "u2028")
  else if rune3 c d e =? 8233 then of_bytes (backslash :: bytes "u2029")
  else of_bytes [c; d; e].

Fixpoint escape (s : string) : string :=
  match s with
  | EmptyString => EmptyString
  | String c r0 =>
      if is_ascii c then escape_byte c +:+ escape r0 else
      match r0 with
      | EmptyString => escaped_replacement
      | String d r1 =>
          if lead2 c && is_cont d then of_bytes [c; d] +:+ escape r1 else
          match r1 with
          | EmptyString => escaped_replacement +:+ escape r0
          | String e r2 =>
              if lead3 c d && is_cont e then escape3 c d e +:+ escape r2 else
              match r2 with
              | EmptyString => escaped_replacement +:+ escape r0
              | String f r3 =>
                  if lead4 c d && is_cont e && is_cont f
                  then of_bytes [c; d; e; f] +:+ escape r3
                  else escaped_replacement +:+ escape r0
              end
          end
      end
  end.

Definition quoted (s : string) : string := String quote (escape s +:+ String quote EmptyString).

(** [json.Marshal] of a value; the members of an object in the order given. *)
Fixpoint Marshal (v : value) : string :=
  match v with
  | Null => "null"
  | Bool true => "true"
  | Bool false => "false"
  | Number n => n
  | Str s => quoted s
  | Array elements => "[" +:+ Join ((λ e, Marshal e.2) <$> elements) "," +:+ "]"
  | Object members =>
      "{" +:+ Join ((λ m, quoted m.1 +:+ ":" +:+ Marshal m.2.2) <$> members) "," +:+ "}"
  end.

(** ** The parser ends

    A parser that succeeds has consumed something, so the fuel of [parse] is never
    what makes it fail. *)
Local Open Scope nat_scope.

Definition slen : string → nat := String.length.

Lemma skip_length s : slen (skip s) ≤ slen s.
Proof. induction s as [|c s IH]; simpl; [lia|]. destruct (is_space c); simpl; unfold slen in *; lia. Qed.

Lemma strip_prefix_length p s r : strip_prefix p s = Some r → slen s = slen p + slen r.
Proof. intros ->%strip_prefix_Some. apply length_app_string. Qed.

Lemma digits_length s : slen s = slen (digits s).1 + slen (digits s).2.
Proof.
  induction s as [|c s IH]; [done|]. cbn [digits]. destruct (is_digit c); [|done].
  destruct (digits s). simpl in *. unfold slen in *. lia.
Qed.

Lemma before_Some t x u r : before t x = Some (u, r) → ∃ u', x = Some (u', r) ∧ u = t +:+ u'.
Proof. destruct x as [[u' r']|]; [|done]. intros [= <- <-]. eauto. Qed.

Lemma string_tail_length s t r : string_tail s = Some (t, r) → slen r < slen s.
Proof.
  unfold slen. remember (String.length s) as n eqn:Hn. revert s Hn t r.
  induction n as [n IH] using lt_wf_ind. intros s -> t r.
  assert (∀ s' t' r', String.length s' < String.length s → string_tail s' = Some (t', r') →
            String.length r' < String.length s) as Hrec.
  { intros s' t' r' Hs Ht. specialize (IH _ Hs s' eq_refl _ _ Ht). lia. }
  clear IH. destruct s as [|c r0]; [done|]. cbn [string_tail].
  repeat first
    [ progress intros
    | match goal with
      | H : before _ _ = Some _ |- _ => apply before_Some in H as (? & H & _)
      | H : string_tail _ = Some _ |- _ => eapply Hrec in H; [done|simpl; lia]
      | H : Some _ = Some _ |- _ => injection H as <- <-; simpl; lia
      | H : None = Some _ |- _ => discriminate H
      | H : (_ ≫= _) = Some _ |- _ => apply bind_Some in H as (? & ? & H)
      | H : context [match ?x with _ => _ end] |- _ => is_var x; destruct x
      | H : (if ?b then _ else _) = Some _ |- _ => destruct b
      | H : (match ?x with _ => _ end) = Some _ |- _ => destruct x eqn:?
      end ].
Qed.

Lemma integer_length s d r : integer s = Some (d, r) → slen r < slen s.
Proof.
  assert (∀ x, (let '(d, r) := digits s in if bool_decide (d = "") then None else Some (d, r)) = Some x →
            slen x.2 < slen s) as Hd.
  { intros [d' r']. pose proof (digits_length s) as Hl. destruct (digits s) as [d0 r0].
    case_bool_decide as He; [done|]. intros [= <- <-]. simpl in *. destruct d0; [done|].
    unfold slen in *. simpl in *. lia. }
  unfold integer. intros H.
  repeat match type of H with context [match ?x with _ => _ end] => is_var x; destruct x end;
    try (specialize (Hd _ H); done).
  injection H as <- <-. unfold slen. simpl. lia.
Qed.

Lemma fraction_length s d r : fraction s = Some (d, r) → slen r ≤ slen s.
Proof.
  unfold fraction. intros H.
  repeat match type of H with context [match ?x with _ => _ end] => is_var x; destruct x end;
    try (injection H as <- <-; done).
  match type of H with context [digits ?s] => pose proof (digits_length s); destruct (digits s) end.
  case_bool_decide; [done|]. injection H as <- <-. unfold slen in *. simpl in *. lia.
Qed.

Lemma exponent_length s d r : exponent s = Some (d, r) → slen r ≤ slen s.
Proof.
  unfold exponent. destruct s as [|c s]; [by intros [= <- <-]|].
  case_bool_decide; [|by intros [= <- <-]].
  set (x := match s with String "+" r' => _ | String "-" r' => _ | _ => _ end).
  assert (slen x.2 ≤ slen s) as Hx.
  { subst x. unfold slen. repeat case_match; simpl; lia. }
  destruct x as [sign r0]. pose proof (digits_length r0) as Hl. destruct (digits r0) as [d0 r1].
  case_bool_decide; [done|]. intros [= <- <-]. unfold slen in *. simpl in *. lia.
Qed.

Lemma number_length s n r : number s = Some (n, r) → slen r < slen s.
Proof.
  unfold number. set (x := match s with String "-" r => _ | _ => _ end).
  assert (slen x.2 ≤ slen s) as Hx.
  { subst x. unfold slen. repeat case_match; simpl; lia. }
  destruct x as [sign r0]. intros H.
  repeat (apply bind_Some in H as ([? ?] & ? & H)). injection H as <- <-.
  repeat match goal with
  | H : integer _ = Some _ |- _ => apply integer_length in H
  | H : fraction _ = Some _ |- _ => apply fraction_length in H
  | H : exponent _ = Some _ |- _ => apply exponent_length in H
  end. unfold slen in *. simpl in *. lia.
Qed.

Lemma literal_value_length s v r : literal_value s = Some (v, r) → slen r < slen s.
Proof.
  unfold literal_value.
  destruct (strip_prefix "true" s) eqn:E1; [intros [= <- <-]; apply strip_prefix_length in E1; simpl in *; lia|].
  destruct (strip_prefix "false" s) eqn:E2; [intros [= <- <-]; apply strip_prefix_length in E2; simpl in *; lia|].
  destruct (strip_prefix "null" s) eqn:E3; [intros [= <- <-]; apply strip_prefix_length in E3; simpl in *; lia|].
  intros H. apply bind_Some in H as ([n r'] & H & [= <- <-]). by eapply number_length.
Qed.

(** What the three mutual parsers leave is shorter than what they were given. *)
Definition consumes {A} (p : string → option (A * string)) : Prop :=
  ∀ s x r, p s = Some (x, r) → slen r < slen s.

(** The shape of the proofs about the three parsers. *)
Ltac parser_step :=
  match goal with
  | H : Some _ = Some _ |- _ => injection H as <- <-
  | H : None = Some _ |- _ => discriminate H
  | H : (_ ≫= _) = Some _ |- _ => apply bind_Some in H as ([? ?] & ? & H)
  | H : (if ?b then _ else _) = Some _ |- _ => destruct b
  | H : context [match ?x with _ => _ end] |- _ => destruct x eqn:?
  end.

Ltac skip_lengths :=
  repeat match goal with
  | H : skip ?s = ?t |- _ =>
      lazymatch goal with
      | _ : (slen t ≤ slen s)%nat |- _ => fail
      | _ => pose proof (eq_ind _ (λ t, slen t ≤ slen s) (skip_length s) _ H)
      end
  | |- context [skip ?s] =>
      lazymatch goal with
      | _ : (slen (skip s) ≤ slen s)%nat |- _ => fail
      | _ => pose proof (skip_length s)
      end
  | _ : context [skip ?s] |- _ =>
      lazymatch goal with
      | _ : (slen (skip s) ≤ slen s)%nat |- _ => fail
      | _ => pose proof (skip_length s)
      end
  end.

Lemma parse_consumes fuel :
  (∀ d, consumes (parse_value fuel d)) ∧ (∀ d, consumes (parse_elements fuel d)) ∧
  (∀ d, consumes (parse_members fuel d)).
Proof.
  induction fuel as [|fuel (IHv & IHe & IHm)]; [done|].
  split_and!; intros d s x r H; cbn [parse_value parse_elements parse_members] in H.
  - destruct s as [|c s]; [done|]. case_bool_decide; [|case_bool_decide; [|case_bool_decide]].
    + destruct (_ <=? _)%Z; [done|].
      assert (∀ s', slen s' ≤ slen s → ('(ms, rest) ← parse_members fuel (d + 1) s'; Some (Object ms, rest)) = Some (x, r) →
                slen r < slen (String c s)) as Hm.
      { intros s' Hs H'. apply bind_Some in H' as ([ms rest] & H' & [= <- <-]).
        apply IHm in H'. unfold slen in *. simpl. lia. }
      pose proof (skip_length s). destruct (skip s) as [|c' r']; [by eapply Hm|].
      repeat match type of H with context [match ?x with _ => _ end] => is_var x; destruct x end;
        try (by eapply Hm). injection H as <- <-. unfold slen in *. simpl in *. lia.
    + destruct (_ <=? _)%Z; [done|].
      assert (∀ s', slen s' ≤ slen s → ('(es, rest) ← parse_elements fuel (d + 1) s'; Some (Array es, rest)) = Some (x, r) →
                slen r < slen (String c s)) as Hm.
      { intros s' Hs H'. apply bind_Some in H' as ([ms rest] & H' & [= <- <-]).
        apply IHe in H'. unfold slen in *. simpl. lia. }
      pose proof (skip_length s). destruct (skip s) as [|c' r']; [by eapply Hm|].
      repeat match type of H with context [match ?x with _ => _ end] => is_var x; destruct x end;
        try (by eapply Hm). injection H as <- <-. unfold slen in *. simpl in *. lia.
    + apply bind_Some in H as ([t rest] & H & [= <- <-]). apply string_tail_length in H.
      unfold slen in *. simpl. lia.
    + by eapply literal_value_length.
  - apply bind_Some in H as ([v r0] & Hv & H). apply IHv in Hv. cbv zeta in H.
    pose proof (skip_length r0). destruct (skip r0) as [|c r1]; [done|].
    repeat match type of H with context [match ?x with _ => _ end] => is_var x; destruct x end;
      try discriminate H; try (injection H as <- <-; unfold slen in *; simpl in *; lia).
    apply bind_Some in H as ([es rest] & H & [= <- <-]). apply IHe in H. skip_lengths.
    unfold slen in *. simpl in *. lia.
  - destruct s as [|c s]; [done|]. destruct (negb _); [done|].
    apply bind_Some in H as ([name r0] & Hn & H). apply string_tail_length in Hn.
    pose proof (skip_length r0). destruct (skip r0) as [|c0 r1]; [done|].
    repeat match type of H with context [match ?x with _ => _ end] => is_var x; destruct x end;
      try discriminate H.
    cbv zeta in H. apply bind_Some in H as ([v r2] & Hv & H). apply IHv in Hv. cbv zeta in H.
    pose proof (skip_length r2). skip_lengths. destruct (skip r2) as [|c2 r3]; [done|].
    repeat match type of H with context [match ?x with _ => _ end] => is_var x; destruct x end;
      try discriminate H; try (injection H as <- <-; unfold slen in *; simpl in *; lia).
    apply bind_Some in H as ([es rest] & H & [= <- <-]). apply IHm in H. skip_lengths.
    unfold slen in *. simpl in *. lia.
Qed.

Lemma bind_ext {A B} (x y : option A) (f g : A → option B) :
  x = y → (∀ a, x = Some a → f a = g a) → x ≫= f = y ≫= g.
Proof. intros <- Hf. destruct x; simpl; auto. Qed.

(** Above two calls for every byte, more fuel gives nothing else. *)
Lemma parse_fuel f :
  (∀ f' d s, 2 * slen s + 1 ≤ f → 2 * slen s + 1 ≤ f' → parse_value f d s = parse_value f' d s) ∧
  (∀ f' d s, 2 * slen s + 2 ≤ f → 2 * slen s + 2 ≤ f' → parse_elements f d s = parse_elements f' d s) ∧
  (∀ f' d s, 2 * slen s + 2 ≤ f → 2 * slen s + 2 ≤ f' → parse_members f d s = parse_members f' d s).
Proof.
  induction f as [|f (IHv & IHe & IHm)]; [split_and!; intros; lia|].
  split_and!; intros [|f'] d s Hf Hf'; try lia; cbn [parse_value parse_elements parse_members].
  - destruct s as [|c s]; [done|]. unfold slen in *. simpl in Hf, Hf'.
    pose proof (skip_length s) as Hs. unfold slen in Hs.
    repeat (case_bool_decide; [destruct (_ <=? _)%Z; [done|]|]); [..|done];
      (destruct (skip s) as [|c' r']; [|repeat case_match]; try reflexivity;
       [..|subst]; (apply bind_ext; [|done]); (apply IHm || apply IHe); simpl in *; lia).
  - apply bind_ext; [apply IHv; lia|]. intros [v r0] Hv. apply parse_consumes in Hv.
    cbv zeta. pose proof (skip_length r0). destruct (skip r0) as [|c r1]; [done|].
    unfold slen in *. simpl in *. repeat (case_match; try reflexivity).
    apply bind_ext; [|done]. pose proof (skip_length r1). unfold slen in *. apply IHe; lia.
  - destruct s as [|c s]; [done|]. destruct (negb _); [done|].
    apply bind_ext; [done|]. intros [name r0] Hn%string_tail_length.
    pose proof (skip_length r0). destruct (skip r0) as [|c0 r1]; [done|].
    unfold slen in *. simpl in *. repeat (case_match; try reflexivity).
    cbv zeta. pose proof (skip_length r1). unfold slen in *.
    apply bind_ext; [apply IHv; lia|]. intros [v r2] Hv. apply parse_consumes in Hv.
    pose proof (skip_length r2). destruct (skip r2) as [|c2 r3]; [done|].
    unfold slen in *. simpl in *. repeat (case_match; try reflexivity).
    apply bind_ext; [|done]. pose proof (skip_length r3). unfold slen in *. apply IHm; lia.
Qed.

(** Parsing JSON terminates by itself, not by running out of fuel: with two calls
    for every byte of the text, or with any larger number, the parser gives the same
    value, or the same refusal; so [parse] refuses a text only for its syntax or its
    nesting. *)
Theorem parse_terminates text fuel : enough text ≤ fuel → parse_with fuel text = parse text.
Proof.
  intros Hf. unfold parse, parse_with, enough in *. cbv zeta.
  pose proof (skip_length text). unfold slen in *.
  apply bind_ext; [|done]. apply parse_fuel; unfold slen; lia.
Qed.

(** ** Writing and reading back *)

(** The text [Unmarshal] keeps of a string: the invalid bytes are replaced. *)
Fixpoint to_valid (s : string) : string :=
  match s with
  | EmptyString => EmptyString
  | String c r0 =>
      if is_ascii c then String c (to_valid r0) else
      match r0 with
      | EmptyString => replacement
      | String d r1 =>
          if lead2 c && is_cont d then of_bytes [c; d] +:+ to_valid r1 else
          match r1 with
          | EmptyString => replacement +:+ to_valid r0
          | String e r2 =>
              if lead3 c d && is_cont e then of_bytes [c; d; e] +:+ to_valid r2 else
              match r2 with
              | EmptyString => replacement +:+ to_valid r0
              | String f r3 =>
                  if lead4 c d && is_cont e && is_cont f
                  then of_bytes [c; d; e; f] +:+ to_valid r3
                  else replacement +:+ to_valid r0
              end
          end
      end
  end.

Lemma string_tail_escape_byte c s :
  is_ascii c = true → string_tail (escape_byte c +:+ s) = before (String c EmptyString) (string_tail s).
Proof. destruct c as [[] [] [] [] [] [] [] []]; try discriminate; intros _; reflexivity. Qed.

Lemma string_tail_replacement s :
  string_tail (escaped_replacement +:+ s) = before replacement (string_tail s).
Proof. reflexivity. Qed.

(** A byte above ASCII is copied with its sequence. *)
Lemma not_ascii_tests c :
  is_ascii c = false →
  bool_decide (c = quote) = false ∧ bool_decide (c = backslash) = false ∧ (byte c <? 32)%Z = false.
Proof. destruct c as [[] [] [] [] [] [] [] []]; try discriminate; intros _; done. Qed.

Ltac high_byte :=
  match goal with
  | H : is_ascii ?c = false |- context [string_tail (String ?c _)] =>
      let H1 := fresh in let H2 := fresh in let H3 := fresh in
      destruct (not_ascii_tests c H) as (H1 & H2 & H3); cbn [string_tail]; rewrite H1, H2, H3, H
  end.

Lemma lead3_not_lead2 c d : lead3 c d = true → lead2 c = false.
Proof. destruct c as [[] [] [] [] [] [] [] []]; done. Qed.

Lemma lead4_not_lead23 c d : lead4 c d = true → lead2 c = false ∧ lead3 c d = false.
Proof. destruct c as [[] [] [] [] [] [] [] []]; done. Qed.

Lemma string_tail_2 c d s :
  is_ascii c = false → lead2 c && is_cont d = true →
  string_tail (of_bytes [c; d] +:+ s) = before (of_bytes [c; d]) (string_tail s).
Proof. intros Hc H. change (of_bytes [c; d] +:+ s) with (String c (String d s)). high_byte. by rewrite H. Qed.

Lemma string_tail_3 c d e s :
  is_ascii c = false → lead3 c d && is_cont e = true →
  string_tail (of_bytes [c; d; e] +:+ s) = before (of_bytes [c; d; e]) (string_tail s).
Proof.
  intros Hc H. change (of_bytes [c; d; e] +:+ s) with (String c (String d (String e s))).
  high_byte. rewrite H. apply andb_prop in H as [H _]. by rewrite (lead3_not_lead2 _ _ H).
Qed.

Lemma string_tail_4 c d e f s :
  is_ascii c = false → lead4 c d && is_cont e && is_cont f = true →
  string_tail (of_bytes [c; d; e; f] +:+ s) = before (of_bytes [c; d; e; f]) (string_tail s).
Proof.
  intros Hc H. change (of_bytes [c; d; e; f] +:+ s) with (String c (String d (String e (String f s)))).
  high_byte. rewrite H. rewrite !andb_true_iff in H.
  destruct (lead4_not_lead23 c d) as [-> ->]; [by apply H|done].
Qed.

Lemma lor_shiftl x y n : (0 ≤ n → 0 ≤ y < 2 ^ n → Z.lor (Z.shiftl x n) y = x * 2 ^ n + y)%Z.
Proof.
  intros Hn Hy. rewrite <-Z.shiftl_mul_pow2 by done. symmetry. apply Z.add_nocarry_lor.
  apply Z.bits_inj'. intros i Hi. rewrite Z.land_spec, Z.bits_0.
  destruct (Z.lt_ge_cases i n).
  - by rewrite Z.shiftl_spec_low.
  - assert (Z.testbit y i = false) as -> by (apply (Z.bounded_iff_bits_nonneg n y); lia).
    by rewrite andb_false_r.
Qed.

Definition low_bits (c : ascii) : bool :=
  implb (is_cont c) (Z.land (byte c) 63 =? byte c - 128)%Z &&
  implb (in_range "224" "239" c) (Z.land (byte c) 15 =? byte c - 224)%Z.

Lemma low_bits_all c : low_bits c = true.
Proof. revert c. apply ascii_forallb. by vm_compute. Qed.

Lemma lead3_spec c d :
  lead3 c d = true → (224 ≤ byte c < 240)%Z ∧ in_range "224" "239" c = true ∧ is_cont d = true.
Proof.
  unfold lead3, is_cont, in_range. change (byte "224") with 224%Z. change (byte "239") with 239%Z.
  change (byte "128") with 128%Z. change (byte "191") with 191%Z. change (byte "160") with 160%Z.
  change (byte "159") with 159%Z. change (byte "225") with 225%Z.
  case_bool_decide; [subst; change (byte "224") with 224%Z|case_bool_decide;
    [subst; change (byte "237") with 237%Z|]]; rewrite ?andb_true_iff, ?Z.leb_le; lia.
Qed.

Lemma rune3_spec c d e :
  lead3 c d && is_cont e = true →
  (rune3 c d e = (byte c - 224) * 4096 + (byte d - 128) * 64 + (byte e - 128) ∧
   224 ≤ byte c < 240 ∧ 128 ≤ byte d < 192 ∧ 128 ≤ byte e < 192)%Z.
Proof.
  intros [(Hc & Hc' & Hd)%lead3_spec He]%andb_prop. unfold rune3.
  pose proof (low_bits_all c) as Lc. pose proof (low_bits_all d) as Ld. pose proof (low_bits_all e) as Le.
  unfold low_bits in *. rewrite Hc' in Lc. rewrite Hd in Ld. rewrite He in Le. simpl in *.
  rewrite !andb_true_iff, !Z.eqb_eq in *.
  destruct Lc as [_ ->], Ld as [-> _], Le as [-> _].
  unfold is_cont, in_range in Hd, He. rewrite !andb_true_iff, !Z.leb_le in Hd, He.
  change (byte "128") with 128%Z in *. change (byte "191") with 191%Z in *.
  assert (Z.lor (Z.shiftl (byte d - 128) 6) (byte e - 128) = (byte d - 128) * 2 ^ 6 + (byte e - 128))%Z as ->
    by (apply lor_shiftl; lia).
  rewrite lor_shiftl by lia. lia.
Qed.

Lemma string_tail_escape3 c d e s :
  is_ascii c = false → lead3 c d && is_cont e = true →
  string_tail (escape3 c d e +:+ s) = before (of_bytes [c; d; e]) (string_tail s).
Proof.
  intros Hc H. destruct (rune3_spec c d e H) as (Hr & ? & ? & ?). unfold escape3.
  assert (∀ n, byte c = byte n → c = n) as Hbc by (intros; by apply byte_inj).
  destruct (Z.eqb_spec (rune3 c d e) 8232); [|destruct (Z.eqb_spec (rune3 c d e) 8233)].
  - assert (c = "226"%char ∧ d = "128"%char ∧ e = "168"%char) as (-> & -> & ->); [|reflexivity].
    split_and!; apply byte_inj; [change (byte c = 226%Z)|change (byte d = 128%Z)|change (byte e = 168%Z)]; lia.
  - assert (c = "226"%char ∧ d = "128"%char ∧ e = "169"%char) as (-> & -> & ->); [|reflexivity].
    split_and!; apply byte_inj; [change (byte c = 226%Z)|change (byte d = 128%Z)|change (byte e = 169%Z)]; lia.
  - by apply string_tail_3.
Qed.

Lemma before_before t u x : before t (before u x) = before (t +:+ u) x.
Proof. destruct x as [[v r]|]; [|done]. simpl. by rewrite string_app_assoc. Qed.

Lemma string_tail_escape s r :
  string_tail (escape s +:+ String quote r) = Some (to_valid s, r).
Proof.
  remember (String.length s) as n eqn:Hn. revert s Hn.
  induction n as [n IH] using lt_wf_ind. intros s ->.
  assert (∀ s', String.length s' < String.length s →
            string_tail (escape s' +:+ String quote r) = Some (to_valid s', r)) as Hrec.
  { intros s' Hs. by apply (IH _ Hs s'). }
  clear IH. destruct s as [|c r0]; [done|]. cbn [escape to_valid].
  destruct (is_ascii c) eqn:Hc.
  { rewrite string_app_assoc, string_tail_escape_byte, Hrec by (done || simpl; lia). done. }
  destruct r0 as [|d r1]; [done|].
  destruct (lead2 c && is_cont d) eqn:H2.
  { rewrite string_app_assoc, string_tail_2, Hrec by (done || simpl; lia). done. }
  destruct r1 as [|e r2].
  { rewrite string_app_assoc, string_tail_replacement, Hrec by (simpl; lia). done. }
  destruct (lead3 c d && is_cont e) eqn:H3.
  { rewrite string_app_assoc, string_tail_escape3, Hrec by (done || simpl; lia). done. }
  destruct r2 as [|f r3].
  { rewrite string_app_assoc, string_tail_replacement, Hrec by (simpl; lia). done. }
  destruct (lead4 c d && is_cont e && is_cont f) eqn:H4.
  { rewrite string_app_assoc, string_tail_4, Hrec by (done || simpl; lia). done. }
  rewrite string_app_assoc, string_tail_replacement, Hrec by (simpl; lia). done.
Qed.

(** A value without the texts it was read from. *)
Fixpoint erase (v : value) : value :=
  match v with
  | Array elements => Array ((λ e, (EmptyString, erase e.2)) <$> elements)
  | Object members => Object ((λ m, (m.1, (EmptyString, erase m.2.2))) <$> members)
  | v => v
  end.

Fixpoint depth (v : value) : nat :=
  match v with
  | Array elements => S (foldr (λ e n, Nat.max (depth e.2) n) 0 elements)
  | Object members => S (foldr (λ m n, Nat.max (depth m.2.2) n) 0 members)
  | _ => 0
  end.

(** What [Marshal] can write: strings of valid UTF-8 and literals that are numbers. *)
Fixpoint printable (v : value) : Prop :=
  match v with
  | Number n => number n = Some (n, EmptyString)
  | Str s => to_valid s = s
  | Array elements => foldr (λ e P, printable e.2 ∧ P) True elements
  | Object members => foldr (λ m P, (to_valid m.1 = m.1 ∧ printable m.2.2) ∧ P) True members
  | _ => True
  end.

Lemma value_ind' (P : value → Prop) :
  P Null → (∀ b, P (Bool b)) → (∀ n, P (Number n)) → (∀ s, P (Str s)) →
  (∀ es, Forall (λ e, P e.2) es → P (Array es)) →
  (∀ ms, Forall (λ m, P m.2.2) ms → P (Object ms)) → ∀ v, P v.
Proof.
  intros Hn Hb Hd Hs Ha Ho. fix IH 1. intros [|b|n|s|es|ms]; [done..| |].
  - apply Ha. induction es as [|[t v] es IHes]; [constructor|]. constructor; [apply IH|apply IHes].
  - apply Ho. induction ms as [|[n [t v]] ms IHms]; [constructor|]. constructor; [apply IH|apply IHms].
Qed.

(** What may follow a number. *)
Definition delimited (rest : string) : Prop :=
  match rest with
  | EmptyString => True
  | String c _ => is_digit c = false ∧ c ≠ "."%char ∧ c ≠ "e"%char ∧ c ≠ "E"%char
  end.

Lemma delimited_digits rest : delimited rest → digits rest = (EmptyString, rest).
Proof. destruct rest; [done|]. simpl. by intros (-> & _). Qed.

Lemma digits_app s rest :
  delimited rest → digits (s +:+ rest) = ((digits s).1, (digits s).2 +:+ rest).
Proof.
  intros Hr. induction s as [|c s IH]; [by apply delimited_digits|].
  rewrite app_cons. cbn [digits]. rewrite IH. destruct (digits s). by destruct (is_digit c).
Qed.

Lemma integer_app s d r rest :
  delimited rest → integer s = Some (d, r) → integer (s +:+ rest) = Some (d, r +:+ rest).
Proof.
  intros Hr. assert (∀ s, (let '(d, r) := digits s in if bool_decide (d = "") then None else Some (d, r)) = Some (d, r) →
    (let '(d, r) := digits (s +:+ rest) in if bool_decide (d = "") then None else Some (d, r)) = Some (d, r +:+ rest)) as Hd.
  { intros s0. rewrite digits_app by done. destruct (digits s0). case_bool_decide; [done|].
    simpl. intros [= -> ->]. by rewrite bool_decide_eq_false_2. }
  specialize (Hd s). unfold integer. destruct s as [|c s]; [done|]. rewrite app_cons in *.
  destruct c as [[] [] [] [] [] [] [] []]; try exact Hd. by intros [= <- <-].
Qed.

Lemma fraction_app s d r rest :
  delimited rest → fraction s = Some (d, r) → fraction (s +:+ rest) = Some (d, r +:+ rest).
Proof.
  intros Hr. unfold fraction. destruct s as [|c s].
  - intros [= <- <-]. rewrite app_empty_l. destruct rest as [|c rest]; [done|].
    destruct Hr as (_ & Hc & _). by destruct c as [[] [] [] [] [] [] [] []].
  - rewrite app_cons. destruct c as [[] [] [] [] [] [] [] []]; try (intros [= <- <-]; done).
    rewrite digits_app by done. destruct (digits s). case_bool_decide; [done|].
    simpl. intros [= <- <-]. by rewrite bool_decide_eq_false_2.
Qed.

Lemma sign_app s rest :
  delimited rest → s ≠ EmptyString →
  match s +:+ rest with String "+" r' => ("+", r') | String "-" r' => ("-", r') | _ => (EmptyString, s +:+ rest) end =
  (match s with String "+" r' => ("+", r' +:+ rest) | String "-" r' => ("-", r' +:+ rest) | _ => (EmptyString, s +:+ rest) end
    : string * string).
Proof.
  intros Hr Hs. destruct s as [|c s]; [done|]. rewrite app_cons.
  by destruct c as [[] [] [] [] [] [] [] []].
Qed.

Lemma exponent_app s d r rest :
  delimited rest → exponent s = Some (d, r) → exponent (s +:+ rest) = Some (d, r +:+ rest).
Proof.
  intros Hr. unfold exponent. destruct s as [|c s].
  - intros [= <- <-]. rewrite app_empty_l. destruct rest as [|c rest]; [done|].
    destruct Hr as (_ & _ & ? & ?). by rewrite bool_decide_eq_false_2 by naive_solver.
  - rewrite app_cons. case_bool_decide; [|by intros [= <- <-]].
    destruct (decide (s = EmptyString)) as [->|Hs]; [done|].
    rewrite sign_app by done. destruct s as [|x s]; [done|].
    assert (∀ sign s0, (let '(d, r) := digits s0 in if bool_decide (d = "") then None else Some (String c (sign +:+ d), r)) = Some (d, r) →
      (let '(d, r) := digits (s0 +:+ rest) in if bool_decide (d = "") then None else Some (String c (sign +:+ d), r)) = Some (d, r +:+ rest)) as Hd.
    { intros sign s0. rewrite digits_app by done. destruct (digits s0). case_bool_decide; [done|].
      simpl. intros [= <- <-]. by rewrite bool_decide_eq_false_2. }
    destruct x as [[] [] [] [] [] [] [] []]; try exact (Hd _ (String _ s)); apply Hd.
Qed.

Lemma number_app s n r rest :
  delimited rest → number s = Some (n, r) → number (s +:+ rest) = Some (n, r +:+ rest).
Proof.
  intros Hr. assert (∀ sign s,
    ('(i, r) ← integer s; '(f, r) ← fraction r; '(e, r) ← exponent r; Some (sign +:+ i +:+ f +:+ e, r)) = Some (n, r) →
    ('(i, r) ← integer (s +:+ rest); '(f, r) ← fraction r; '(e, r) ← exponent r; Some (sign +:+ i +:+ f +:+ e, r)) =
      Some (n, r +:+ rest)) as Hd.
  { intros sign s0 H. apply bind_Some in H as ([i r1] & Hi & H). apply bind_Some in H as ([f r2] & Hf & H).
    apply bind_Some in H as ([e r3] & He & [= <- <-]).
    rewrite (integer_app _ _ _ _ Hr Hi). cbn [mbind option_bind].
    rewrite (fraction_app _ _ _ _ Hr Hf). cbn [mbind option_bind].
    by rewrite (exponent_app _ _ _ _ Hr He). }
  unfold number. destruct s as [|c s]; [done|]. rewrite app_cons.
  destruct c as [[] [] [] [] [] [] [] []]; try exact (Hd _ (String _ s)). apply Hd.
Qed.

(** The first byte of a printed value. *)
Definition starts (s : string) : Prop :=
  match s with
  | EmptyString => False
  | String c _ => is_space c = false ∧ c ≠ "]"%char ∧ c ≠ "}"%char
  end.

Lemma number_first s n r :
  number s = Some (n, r) → ∃ c t, s = String c t ∧ (is_digit c = true ∨ c = "-"%char).
Proof.
  unfold number. destruct s as [|c s]; [done|]. intros H. exists c, s. split; [done|].
  destruct (decide (c = "-"%char)) as [|Hc]; [by right|]. left.
  assert (is_Some (integer (String c s))) as [[d r'] Hi].
  { destruct c as [[] [] [] [] [] [] [] []]; try done; (apply bind_Some in H as ([? ?] & H & _); eauto). }
  unfold integer in Hi. destruct (is_digit c) eqn:Hd; [done|].
  cbn [digits] in Hi. rewrite Hd in Hi. by destruct c as [[] [] [] [] [] [] [] []].
Qed.

Lemma first_of_number c :
  is_digit c = true ∨ c = "-"%char →
  is_space c = false ∧ c ≠ "]"%char ∧ c ≠ "}"%char ∧ c ≠ "["%char ∧ c ≠ "{"%char ∧ c ≠ quote ∧
  c ≠ "t"%char ∧ c ≠ "f"%char ∧ c ≠ "n"%char.
Proof. intros [H| ->]; [|done]. by destruct c as [[] [] [] [] [] [] [] []]. Qed.

Lemma Marshal_starts v rest : printable v → starts (Marshal v +:+ rest).
Proof.
  destruct v as [|[]|n|s|es|ms]; try done.
  intros Hn. destruct (number_first _ _ _ Hn) as (c & t & -> & Hc).
  apply first_of_number in Hc. simpl. tauto.
Qed.

Lemma skip_starts s : starts s → skip s = s.
Proof. destruct s as [|c s]; [done|]. simpl. by intros (-> & _). Qed.

Lemma literal_value_number n rest :
  number n = Some (n, EmptyString) → delimited rest →
  literal_value (n +:+ rest) = Some (Number n, rest).
Proof.
  intros Hn Hr. destruct (number_first _ _ _ Hn) as (c & t & -> & Hc).
  apply first_of_number in Hc as (_ & _ & _ & _ & _ & _ & H1 & H2 & H3).
  unfold literal_value. rewrite app_cons. cbn [strip_prefix].
  rewrite !bool_decide_eq_false_2 by congruence. rewrite <-app_cons.
  by rewrite (number_app _ _ _ _ Hr Hn).
Qed.

(** What a parser with enough fuel reads back of a printed value. *)
Definition reads_back (v : value) : Prop :=
  ∀ fuel d rest, printable v → (d + Z.of_nat (depth v) ≤ maxNestingDepth)%Z → delimited rest →
    2 * slen (Marshal v +:+ rest) + 1 ≤ fuel →
    ∃ v', parse_value fuel d (Marshal v +:+ rest) = Some (v', rest) ∧ erase v' = erase v.

Lemma slen_app s t : slen (s +:+ t) = slen s + slen t.
Proof. apply length_app_string. Qed.

Lemma Join_cons2 x y l sep : Join (x :: y :: l) sep = x +:+ sep +:+ Join (y :: l) sep.
Proof. done. Qed.

Lemma elements_read_back es e fuel d rest :
  Forall (λ e : string * value, reads_back e.2) (e :: es) →
  Forall (λ e : string * value, printable e.2) (e :: es) →
  Forall (λ e : string * value, (d + Z.of_nat (depth e.2) ≤ maxNestingDepth)%Z) (e :: es) →
  let text := Join ((λ e : string * value, Marshal e.2) <$> e :: es) "," +:+ String "]" rest in
  2 * slen text + 2 ≤ fuel →
  starts text ∧
  ∃ es', parse_elements fuel d text = Some (es', rest) ∧
    (λ e : string * value, (EmptyString, erase e.2)) <$> es' = (λ e : string * value, (EmptyString, erase e.2)) <$> e :: es.
Proof.
  revert e fuel. induction es as [|e2 es IH]; intros e fuel H1 H2 H3 text Hf;
    (destruct fuel as [|fuel]; [unfold slen in Hf; lia|]);
    apply Forall_cons in H1 as [H1 H1'], H2 as [H2 H2'], H3 as [H3 H3'].
  - assert (text = Marshal e.2 +:+ String "]" rest) as Ht by done. clearbody text. subst text.
    split; [by apply Marshal_starts|].
    destruct (H1 fuel d (String "]" rest)) as (v & Hv & He); [done..|lia|].
    exists [(span (Marshal e.2 +:+ String "]" rest) (String "]" rest), v)].
    cbn [parse_elements]. rewrite Hv. cbn [mbind option_bind]. split; [done|]. simpl. by rewrite He.
  - set (more := Join ((λ e : string * value, Marshal e.2) <$> e2 :: es) "," +:+ String "]" rest).
    assert (text = Marshal e.2 +:+ "," +:+ more) as Ht.
    { subst text more. rewrite !fmap_cons, Join_cons2. by rewrite !string_app_assoc. }
    clearbody text. subst text. split; [by apply Marshal_starts|].
    destruct (H1 fuel d ("," +:+ more)) as (v & Hv & He); [done..|lia|].
    destruct (IH e2 fuel H1' H2' H3') as (Hs & es' & Hes & Heq).
    { fold more. rewrite !slen_app in Hf. simpl in Hf. lia. }
    fold more in Hs, Hes. cbn [parse_elements]. rewrite Hv. cbn [mbind option_bind].
    rewrite app_cons, app_empty_l. change (skip (String "," more)) with (String "," more).
    cbv iota. rewrite (skip_starts more Hs), Hes. cbn [mbind option_bind].
    eexists. split; [done|]. rewrite fmap_cons, Heq. simpl. by rewrite He.
Qed.

Definition print_member (m : member) : string := quoted m.1 +:+ ":" +:+ Marshal m.2.2.

Definition erase_member (m : member) : member := (m.1, (EmptyString, erase m.2.2)).

Lemma parse_member m fuel d rest next :
  reads_back m.2.2 → to_valid m.1 = m.1 → printable m.2.2 →
  (d + Z.of_nat (depth m.2.2) ≤ maxNestingDepth)%Z → delimited (String next rest) →
  2 * slen (print_member m +:+ String next rest) + 1 ≤ fuel →
  ∃ v text, erase v = erase m.2.2 ∧
    parse_members (S fuel) d (print_member m +:+ String next rest) =
    match skip (String next rest) with
    | String "," r => '(ms, rest) ← parse_members fuel d (skip r); Some ((m.1, (text, v)) :: ms, rest)
    | String "}" r => Some ([(m.1, (text, v))], r)
    | _ => None
    end.
Proof.
  intros Hr Hn Hp Hd Hdel Hf. unfold print_member, quoted in *.
  destruct (Hr fuel d (String next rest)) as (v & Hv & He); [done..| |].
  { rewrite !slen_app in *. unfold slen in *. simpl in *. rewrite !length_app_string in Hf. simpl in Hf. lia. }
  exists v, (span (Marshal m.2.2 +:+ String next rest) (String next rest)). split; [done|].
  rewrite !app_cons, !string_app_assoc, !app_cons. cbn [parse_members]. rewrite bool_decide_eq_true_2 by done.
  cbn [negb]. rewrite string_tail_escape, Hn. cbn [mbind option_bind].
  change ((EmptyString +:+ Marshal m.2.2) +:+ String next rest) with (Marshal m.2.2 +:+ String next rest).
  set (s := Marshal m.2.2 +:+ String next rest) in *.
  change (skip (EmptyString +:+ String ":" s)) with (String ":" s). cbv iota.
  rewrite (skip_starts s) by by apply Marshal_starts.
  rewrite Hv. done.
Qed.

Lemma members_read_back ms m fuel d rest :
  Forall (λ m : member, reads_back m.2.2) (m :: ms) →
  Forall (λ m : member, to_valid m.1 = m.1 ∧ printable m.2.2) (m :: ms) →
  Forall (λ m : member, (d + Z.of_nat (depth m.2.2) ≤ maxNestingDepth)%Z) (m :: ms) →
  let text := Join (print_member <$> m :: ms) "," +:+ String "}" rest in
  2 * slen text + 2 ≤ fuel →
  ∃ ms', parse_members fuel d text = Some (ms', rest) ∧ erase_member <$> ms' = erase_member <$> m :: ms.
Proof.
  revert m fuel. induction ms as [|m2 ms IH]; intros m fuel H1 H2 H3 text Hf;
    (destruct fuel as [|fuel]; [lia|]);
    apply Forall_cons in H1 as [H1 H1'], H2 as [[H2 H2p] H2'], H3 as [H3 H3'].
  - assert (text = print_member m +:+ String "}" rest) as Ht by done. clearbody text. subst text.
    destruct (parse_member m fuel d rest "}") as (v & t & He & ->); [done..|lia|].
    exists [(m.1, (t, v))]. split; [done|]. unfold erase_member. simpl. by rewrite He.
  - set (more := Join (print_member <$> m2 :: ms) "," +:+ String "}" rest).
    assert (text = print_member m +:+ String "," more) as Ht.
    { subst text more. rewrite !fmap_cons, Join_cons2. by rewrite !string_app_assoc. }
    clearbody text. subst text.
    destruct (parse_member m fuel d more ",") as (v & t & He & ->); [done..|lia|].
    destruct (IH m2 fuel H1' H2' H3') as (ms' & Hms & Heq).
    { fold more. rewrite !slen_app in Hf. unfold slen in *. simpl in Hf. lia. }
    fold more in Hms. change (skip (String "," more)) with (String "," more). cbv iota.
    assert (skip more = more) as -> by (by destruct ms). rewrite Hms. cbn [mbind option_bind].
    eexists. split; [done|]. rewrite fmap_cons, Heq. unfold erase_member at 1. simpl. by rewrite He.
Qed.

Lemma foldr_and {A} (P : A → Prop) l : foldr (λ x Q, P x ∧ Q) True l ↔ Forall P l.
Proof. induction l as [|x l IH]; simpl; [done|]. by rewrite Forall_cons, IH. Qed.

Lemma foldr_max {A} (f : A → nat) l d n :
  (d + Z.succ (Z.of_nat (foldr (λ x n, Nat.max (f x) n) 0%nat l)) ≤ n)%Z →
  Forall (λ x, (d + 1 + Z.of_nat (f x) ≤ n)%Z) l.
Proof. induction l as [|x l IH]; simpl; intros H; constructor; [lia|apply IH; lia]. Qed.

Lemma parse_array fuel d s :
  starts s → (d < maxNestingDepth)%Z →
  parse_value (S fuel) d (String "[" s) = '(es, rest) ← parse_elements fuel (d + 1) s; Some (Array es, rest).
Proof.
  intros Hs Hd. cbn [parse_value]. rewrite bool_decide_eq_false_2, bool_decide_eq_true_2 by done.
  rewrite (skip_starts _ Hs). destruct (Z.leb_spec maxNestingDepth d); [lia|].
  destruct s as [|c s]; [done|]. destruct Hs as (_ & Hc & _).
  by destruct c as [[] [] [] [] [] [] [] []].
Qed.

Lemma parse_object fuel d s :
  starts s → (d < maxNestingDepth)%Z →
  parse_value (S fuel) d (String "{" s) = '(ms, rest) ← parse_members fuel (d + 1) s; Some (Object ms, rest).
Proof.
  intros Hs Hd. cbn [parse_value]. rewrite bool_decide_eq_true_2 by done.
  rewrite (skip_starts _ Hs). destruct (Z.leb_spec maxNestingDepth d); [lia|].
  destruct s as [|c s]; [done|]. destruct Hs as (_ & _ & Hc).
  by destruct c as [[] [] [] [] [] [] [] []].
Qed.

Lemma less_fuel n fuel : 2 * S n + 1 ≤ S fuel → 2 * n + 2 ≤ fuel.
Proof. lia. Qed.

Lemma slen_cons c s : slen (String c s) = S (slen s).
Proof. done. Qed.

Lemma bracketed a b s rest :
  (String a EmptyString +:+ s +:+ String b EmptyString) +:+ rest = String a (s +:+ String b rest).
Proof. by rewrite !app_cons, app_empty_l, string_app_assoc, app_cons, app_empty_l. Qed.

Lemma Marshal_object ms rest :
  Marshal (Object ms) +:+ rest = String "{" (Join (print_member <$> ms) "," +:+ String "}" rest).
Proof. exact (bracketed "{" "}" _ rest). Qed.

Lemma value_reads_back v : reads_back v.
Proof.
  induction v as [|b|n|s|es IH|ms IH] using value_ind'; intros fuel d rest Hp Hd Hr Hf;
    (destruct fuel as [|fuel]; [lia|]).
  - by exists Null.
  - exists (Bool b). by destruct b.
  - exists (Number n). split; [|done]. cbn [Marshal].
    pose proof (literal_value_number n rest Hp Hr) as Hl.
    destruct (number_first _ _ _ Hp) as (c & t & -> & Hc). apply first_of_number in Hc.
    rewrite app_cons in *. cbn [parse_value]. by rewrite !bool_decide_eq_false_2 by tauto.
  - exists (Str s). split; [|done]. cbn [Marshal]. unfold quoted.
    rewrite app_cons, string_app_assoc, app_cons, app_empty_l. cbn [parse_value].
    rewrite !bool_decide_eq_false_2 by done. rewrite bool_decide_eq_true_2 by done.
    rewrite string_tail_escape. simpl. by rewrite Hp.
  - cbn [Marshal printable depth] in *. apply foldr_and in Hp. rewrite bracketed in Hf |- *.
    destruct es as [|e es].
    { exists (Array []). split; [|done]. cbn [parse_value].
      destruct (Z.leb_spec maxNestingDepth d); [simpl in Hd; lia|done]. }
    rewrite Nat2Z.inj_succ in Hd. rewrite slen_cons in Hf.
    destruct (elements_read_back es e fuel (d + 1)%Z rest IH Hp) as (Hs & es' & Hes & Heq).
    { apply (foldr_max (λ e : string * value, depth e.2)). exact Hd. }
    { apply less_fuel, Hf. }
    exists (Array es'). rewrite parse_array, Hes by (done || lia). cbn [erase]. by rewrite Heq.
  - cbn [printable depth] in *. rewrite Marshal_object in Hf |- *.
    assert (Forall (λ m : member, to_valid m.1 = m.1 ∧ printable m.2.2) ms) as Hp'.
    { clear -Hp. induction ms as [|m ms IH]; constructor; [apply Hp|apply IH, Hp]. }
    destruct ms as [|m ms].
    { exists (Object []). split; [|done]. cbn [parse_value].
      destruct (Z.leb_spec maxNestingDepth d); [simpl in Hd; lia|done]. }
    rewrite Nat2Z.inj_succ in Hd. rewrite slen_cons in Hf.
    destruct (members_read_back ms m fuel (d + 1)%Z rest IH Hp') as (ms' & Hms & Heq).
    { apply (foldr_max (λ m : member, depth m.2.2)). exact Hd. }
    { apply less_fuel, Hf. }
    exists (Object ms'). rewrite parse_object by (lia || by destruct ms). rewrite Hms. split; [done|].
    cbn [erase]. change (λ m : string * (string * value), (m.1, (EmptyString, erase m.2.2))) with erase_member.
    by rewrite Heq.
Qed.

(** What [json.Marshal] writes of a tree of values (strings of valid UTF-8, numbers
    as JSON writes them, nested at most 10000 deep), [json.Unmarshal] reads back as
    the same tree, whatever the strings hold: no quote, backslash or control character
    of a name or a value ends its string, and every text stands for one tree. *)
Theorem Unmarshal_Marshal v :
  printable v → (Z.of_nat (depth v) ≤ maxNestingDepth)%Z →
  ∃ v', parse (Marshal v) = Some (Marshal v, v') ∧ erase v' = erase v.
Proof.
  intros Hp Hd. destruct (value_reads_back v (enough (Marshal v)) 0%Z EmptyString) as (v' & Hv & He);
    [done..| |].
  { rewrite string_app_nil_r. unfold enough, slen. lia. }
  exists v'. split; [|done]. rewrite string_app_nil_r in Hv. unfold parse, parse_with.
  assert (skip (Marshal v) = Marshal v) as ->.
  { pose proof (Marshal_starts v EmptyString Hp) as Hs. rewrite string_app_nil_r in Hs. by apply skip_starts. }
  cbv zeta. rewrite Hv. cbn [mbind option_bind]. rewrite bool_decide_eq_true_2 by done.
  unfold span. simpl. by rewrite Nat.sub_0_r, take_bytes_all.
Qed.

Local Close Scope nat_scope.
End Json.

#[global] Arguments Json.parse : simpl never.
#[global] Arguments Json.Unmarshal : simpl never.
#[global] Arguments Json.field : simpl never.
#[global] Arguments Json.Marshal : simpl never.

Notation RawMessage := Json.RawMessage.

Declare Scope json_scope.
Delimit Scope json_scope with json.
Notation "f ⊗ g" := (Json.both f g) (at level 40, left associativity) : json_scope.
