(* ===== verification/Regex.v ===== *)
(** * Regular expressions

    The fragment of RE2 syntax the program's patterns use (character classes,
    concatenation, [?], [*], bounded repetition, with [^] and [$] anchoring the
    whole text), with an executable matcher by derivatives and the language it
    decides.  The classes are ASCII, so matching bytes and matching runes agree. *)

From S2P Require Export GoText.

Local Open Scope Z_scope.

Inductive re : Type :=
  | Void
  | Eps
  | Class (ranges : list (ascii * ascii))
  | Cat (r1 r2 : re)
  | Alt (r1 r2 : re)
  | Star (r : re).

Definition in_class (ranges : list (ascii * ascii)) (c : ascii) : bool :=
  existsb (λ '(lo, hi), in_range lo hi c) ranges.

Definition Opt (r : re) : re := Alt Eps r.

(** [r{0,n}] and [r{1,n}]. *)
Fixpoint Upto (n : nat) (r : re) : re :=
  match n with
  | O => Eps
  | S n => Opt (Cat r (Upto n r))
  end.

Definition OneUpto (n : nat) (r : re) : re := Cat r (Upto (pred n) r).

(** The language of an expression. *)
Inductive matches : re → list ascii → Prop :=
  | m_eps : matches Eps []
  | m_class ranges c : in_class ranges c = true → matches (Class ranges) [c]
  | m_cat r1 r2 l1 l2 : matches r1 l1 → matches r2 l2 → matches (Cat r1 r2) (l1 ++ l2)
  | m_alt_l r1 r2 l : matches r1 l → matches (Alt r1 r2) l
  | m_alt_r r1 r2 l : matches r2 l → matches (Alt r1 r2) l
  | m_star_nil r : matches (Star r) []
  | m_star_cons r l1 l2 : matches r l1 → matches (Star r) l2 → matches (Star r) (l1 ++ l2).

Create HintDb regex.
#[export] Hint Constructors matches : regex.

(** ** The matcher *)

Definition cat (r1 r2 : re) : re :=
  match r1 with Void => Void | Eps => r2 | _ => Cat r1 r2 end.

Definition alt (r1 r2 : re) : re :=
  match r1, r2 with Void, _ => r2 | _, Void => r1 | _, _ => Alt r1 r2 end.

Fixpoint nullable (r : re) : bool :=
  match r with
  | Void | Class _ => false
  | Eps | Star _ => true
  | Cat r1 r2 => nullable r1 && nullable r2
  | Alt r1 r2 => nullable r1 || nullable r2
  end.

Fixpoint deriv (c : ascii) (r : re) : re :=
  match r with
  | Void | Eps => Void
  | Class ranges => if in_class ranges c then Eps else Void
  | Cat r1 r2 =>
      let d := cat (deriv c r1) r2 in
      if nullable r1 then alt d (deriv c r2) else d
  | Alt r1 r2 => alt (deriv c r1) (deriv c r2)
  | Star r1 => cat (deriv c r1) r
  end.

Fixpoint MatchString (r : re) (s : string) : bool :=
  match s with
  | EmptyString => nullable r
  | String c s => MatchString (deriv c r) s
  end.

Lemma matches_Eps l : matches Eps l ↔ l = [].
Proof. split; [by inversion 1|intros ->; constructor]. Qed.

Lemma matches_Class k l : matches (Class k) l ↔ ∃ c, l = [c] ∧ in_class k c = true.
Proof. split; [inversion 1; subst; eauto|intros (c & -> & ?); by constructor]. Qed.

Lemma matches_Cat r1 r2 l :
  matches (Cat r1 r2) l ↔ ∃ l1 l2, l = l1 ++ l2 ∧ matches r1 l1 ∧ matches r2 l2.
Proof.
  split; [inversion 1; subst; eauto 6|intros (l1 & l2 & -> & ? & ?); by constructor].
Qed.

Lemma matches_Alt r1 r2 l : matches (Alt r1 r2) l ↔ matches r1 l ∨ matches r2 l.
Proof. split; [inversion 1; subst; eauto|intros [|]; eauto with regex]. Qed.

Lemma matches_cat r1 r2 l : matches (cat r1 r2) l ↔ matches (Cat r1 r2) l.
Proof.
  rewrite matches_Cat. destruct r1; simpl; rewrite ?matches_Cat; try done.
  - split; [inversion 1|]. intros (l1 & l2 & _ & H & _). inversion H.
  - setoid_rewrite matches_Eps. split; [intros H; by exists [], l|].
    intros (l1 & l2 & -> & -> & H). done.
Qed.

Lemma matches_alt r1 r2 l : matches (alt r1 r2) l ↔ matches r1 l ∨ matches r2 l.
Proof.
  assert (¬ matches Void l) by (intros H; inversion H).
  destruct r1, r2; simpl; rewrite ?matches_Alt; tauto.
Qed.

Lemma nullable_spec r : nullable r = true ↔ matches r [].
Proof.
  induction r as [| |k|r1 IH1 r2 IH2|r1 IH1 r2 IH2|r1 IH1]; simpl.
  - split; [done|inversion 1].
  - by rewrite matches_Eps.
  - rewrite matches_Class. naive_solver.
  - rewrite andb_true_iff, matches_Cat, IH1, IH2. split.
    + intros [??]. by exists [], [].
    + intros (l1 & l2 & Hl & ? & ?). symmetry in Hl. by apply app_nil in Hl as [-> ->].
  - by rewrite orb_true_iff, matches_Alt, IH1, IH2.
  - split; [constructor|done].
Qed.

Lemma matches_Star_cons r c l :
  matches (Star r) (c :: l) →
  ∃ l1 l2, l = l1 ++ l2 ∧ matches r (c :: l1) ∧ matches (Star r) l2.
Proof.
  remember (Star r) as s eqn:Hs. remember (c :: l) as cl eqn:Hcl. intros H.
  revert Hs Hcl. induction H as [| | | | | |r0 l1 l2 H1 _ H2 IH2]; intros Hs Hcl; try done.
  injection Hs as ->. destruct l1 as [|d l1]; simpl in Hcl; [by eapply IH2|].
  injection Hcl as -> <-. eauto.
Qed.

Lemma deriv_spec c r l : matches (deriv c r) l ↔ matches r (c :: l).
Proof.
  revert l. induction r as [| |k|r1 IH1 r2 IH2|r1 IH1 r2 IH2|r1 IH1]; intros l; simpl.
  - split; inversion 1.
  - split; inversion 1.
  - rewrite matches_Class. destruct (in_class k c) eqn:E.
    + rewrite matches_Eps. split; [intros ->; eauto|]. intros (d & [= -> ->] & _). done.
    + split; [inversion 1|]. intros (d & [= -> ->] & ?). congruence.
  - assert (matches (Cat (deriv c r1) r2) l ∨ (matches r1 [] ∧ matches r2 (c :: l)) ↔
      matches (Cat r1 r2) (c :: l)) as <-.
    { rewrite !matches_Cat. setoid_rewrite IH1. split.
      - intros [(l1 & l2 & -> & ? & ?)|[? ?]]; [by exists (c :: l1), l2|by exists [], (c :: l)].
      - intros ([|d l1] & l2 & Hl & H1 & H2); simpl in Hl; [right; by subst|left].
        injection Hl as <- ->. eauto 6. }
    rewrite <-nullable_spec. destruct (nullable r1);
      rewrite ?matches_alt, matches_cat, ?IH2; naive_solver.
  - by rewrite matches_alt, matches_Alt, IH1, IH2.
  - rewrite matches_cat, matches_Cat. setoid_rewrite IH1. split.
    + intros (l1 & l2 & -> & H1 & H2). by apply (m_star_cons r1 (c :: l1) l2).
    + intros H. apply matches_Star_cons in H as (l1 & l2 & ? & ? & ?). eauto.
Qed.

(** The matcher decides the language. *)
Lemma MatchString_spec r s : MatchString r s = true ↔ matches r (bytes s).
Proof.
  revert r. induction s as [|c s IH]; intros r; simpl; [apply nullable_spec|].
  rewrite IH. apply deriv_spec.
Qed.

(** ** Languages of the shapes the patterns have *)

Definition all_in (k : list (ascii * ascii)) (l : list ascii) : Prop :=
  Forall (λ c, in_class k c = true) l.

Lemma matches_Opt r l : matches (Opt r) l ↔ l = [] ∨ matches r l.
Proof. unfold Opt. by rewrite matches_Alt, matches_Eps. Qed.

Lemma matches_Star_Class k l : matches (Star (Class k)) l ↔ all_in k l.
Proof.
  unfold all_in. induction l as [|c l IH].
  - split; constructor.
  - rewrite Forall_cons, <-IH. split.
    + intros H. apply matches_Star_cons in H as (l1 & l2 & -> & H1 & H2).
      apply matches_Class in H1 as (d & [= -> ->] & ?). done.
    + intros [Hc Hl]. apply (m_star_cons (Class k) [c] l); [by constructor|done].
Qed.

Lemma matches_Upto_Class n k l :
  matches (Upto n (Class k)) l ↔ (length l ≤ n)%nat ∧ all_in k l.
Proof.
  unfold all_in. revert l. induction n as [|n IH]; intros l; cbn [Upto].
  - rewrite matches_Eps. split; [intros ->; split; [simpl; lia|done]|].
    intros [Hl _]. destruct l; [done|simpl in Hl; lia].
  - rewrite matches_Opt, matches_Cat. setoid_rewrite matches_Class. setoid_rewrite IH. split.
    + intros [->|(l1 & l2 & -> & (c & -> & Hc) & Hn & Hl2)]; [split; [simpl; lia|done]|].
      split; [simpl; lia|]. by constructor.
    + intros [Hn Hl]. destruct l as [|c l]; [by left|right].
      apply Forall_cons in Hl as [Hc Hl]. exists [c], l.
      split_and!; [done|eauto|simpl in Hn; lia|done].
Qed.
