(* ===== verification/Encoding.v ===== *)
(** * Encodings and digests of the Go standard library the program uses

    crypto/sha256 (session tokens, gateway fingerprints), encoding/base64's
    [RawURLEncoding] (tokens and identifiers), and the 64-bit FNV-1a hash that
    platform/operations.go writes out for its lock stripes. *)

From S2P Require Export GoText.

Local Open Scope Z_scope.
Local Open Scope stdpp_scope.

(** ** SHA-256 over bytes as integers *)

Module SHA256.
Definition wrap32 (z : Z) : Z := z mod 2 ^ 32.
Definition rotr (n x : Z) : Z := Z.lor (Z.shiftr x n) (wrap32 (Z.shiftl x (32 - n))).
Definition Ch (x y z : Z) : Z := Z.lxor (Z.land x y) (Z.land (Z.lxor x (2 ^ 32 - 1)) z).
Definition Maj (x y z : Z) : Z := Z.lxor (Z.lxor (Z.land x y) (Z.land x z)) (Z.land y z).
Definition Sigma0 (x : Z) : Z := Z.lxor (Z.lxor (rotr 2 x) (rotr 13 x)) (rotr 22 x).
Definition Sigma1 (x : Z) : Z := Z.lxor (Z.lxor (rotr 6 x) (rotr 11 x)) (rotr 25 x).
Definition sigma0 (x : Z) : Z := Z.lxor (Z.lxor (rotr 7 x) (rotr 18 x)) (Z.shiftr x 3).
Definition sigma1 (x : Z) : Z := Z.lxor (Z.lxor (rotr 17 x) (rotr 19 x)) (Z.shiftr x 10).

Definition K : list Z :=
  [1116352408; 1899447441; 3049323471; 3921009573; 961987163; 1508970993;
   2453635748; 2870763221; 3624381080; 310598401; 607225278; 1426881987;
   1925078388; 2162078206; 2614888103; 3248222580; 3835390401; 4022224774;
   264347078; 604807628; 770255983; 1249150122; 1555081692; 1996064986;
   2554220882; 2821834349; 2952996808; 3210313671; 3336571891; 3584528711;
   113926993; 338241895; 666307205; 773529912; 1294757372; 1396182291;
   1695183700; 1986661051; 2177026350; 2456956037; 2730485921; 2820302411;
   3259730800; 3345764771; 3516065817; 3600352804; 4094571909; 275423344;
   430227734; 506948616; 659060556; 883997877; 958139571; 1322822218;
   1537002063; 1747873779; 1955562222; 2024104815; 2227730452; 2361852424;
   2428436474; 2756734187; 3204031479; 3329325298].

Definition H0 : list Z :=
  [1779033703; 3144134277; 1013904242; 2773480762; 1359893119; 2600822924;
   528734635; 1541459225].

(** The [n] low bytes of [z], most significant first. *)
Fixpoint be_bytes (n : nat) (z : Z) : list Z :=
  match n with O => [] | S m => be_bytes m (z / 256) ++ [z mod 256] end.

Definition pad (msg : list Z) : list Z :=
  let l := Z.of_nat (length msg) in
  msg ++ 128 :: replicate (Z.to_nat ((55 - l) mod 64)) 0 ++ be_bytes 8 (8 * l).

Fixpoint words (l : list Z) : list Z :=
  match l with
  | a :: b :: c :: d :: l => (((a * 256 + b) * 256 + c) * 256 + d) :: words l
  | _ => []
  end.

(** The message schedule, most recent word first. *)
Fixpoint schedule (n : nat) (w : list Z) : list Z :=
  match n with
  | O => w
  | S n =>
      let at_ i := nth i w 0 in
      schedule n
        (wrap32 (sigma1 (at_ 1%nat) + at_ 6%nat + sigma0 (at_ 14%nat) + at_ 15%nat) :: w)
  end.

Definition round (s : list Z) (kw : Z * Z) : list Z :=
  match s with
  | [a; b; c; d; e; f; g; h] =>
      let t1 := h + Sigma1 e + Ch e f g + kw.1 + kw.2 in
      let t2 := Sigma0 a + Maj a b c in
      [wrap32 (t1 + t2); a; b; c; wrap32 (d + t1); e; f; g]
  | _ => s
  end.

Definition block (s : list Z) (b : list Z) : list Z :=
  let w := rev (schedule 48 (rev (words b))) in
  zip_with (λ x y, wrap32 (x + y)) s (foldl round s (zip K w)).

Fixpoint blocks (fuel : nat) (s l : list Z) : list Z :=
  match fuel with
  | O => s
  | S fuel => match l with [] => s | _ => blocks fuel (block s (take 64 l)) (drop 64 l) end
  end.

Definition Sum256 (msg : string) : list Z :=
  let l := pad (byte <$> bytes msg) in
  concat (be_bytes 4 <$> blocks (S (length l / 64)) H0 l).
End SHA256.

Example Sum256_abc :
  SHA256.Sum256 "abc" =
  [186; 120; 22; 191; 143; 1;
   207; 234; 65; 65; 64; 222;
   93; 174; 34; 35; 176; 3;
   97; 163; 150; 23; 122; 156;
   180; 16; 255; 97; 242; 0;
   21; 173].
Proof. by vm_compute. Qed.

Example Sum256_two_blocks :
  SHA256.Sum256 "abcdbcdecdefdefgefghfghighijhijkijkljklmklmnlmnomnopnopq" =
  [36; 141; 106; 97; 210; 6;
   56; 184; 229; 192; 38; 147;
   12; 62; 96; 57; 163; 60;
   228; 89; 100; 255; 33; 103;
   246; 236; 237; 212; 25; 219;
   6; 193].
Proof. by vm_compute. Qed.

(** ** base64.RawURLEncoding *)

Definition base64url_char (d : Z) : ascii :=
  if d <? 26 then ascii_of_Z (65 + d)
  else if d <? 52 then ascii_of_Z (97 + (d - 26))
  else if d <? 62 then ascii_of_Z (48 + (d - 52))
  else if d =? 62 then "-"%char else "_"%char.

Fixpoint RawURLEncode (l : list Z) : string :=
  match l with
  | a :: b :: c :: l =>
      String (base64url_char (a / 4))
        (String (base64url_char ((a mod 4) * 16 + b / 16))
          (String (base64url_char ((b mod 16) * 4 + c / 64))
            (String (base64url_char (c mod 64)) (RawURLEncode l))))
  | [a; b] =>
      String (base64url_char (a / 4))
        (String (base64url_char ((a mod 4) * 16 + b / 16))
          (String (base64url_char ((b mod 16) * 4)) ""))
  | [a] =>
      String (base64url_char (a / 4)) (String (base64url_char ((a mod 4) * 16)) "")
  | [] => ""
  end.

Example RawURLEncode_example : RawURLEncode [251; 255; 191; 1] = "-_-_AQ".
Proof. by vm_compute. Qed.

(** Decoding, to state that encoding loses nothing. *)
Definition base64url_digit (c : ascii) : Z :=
  if is_upper c then byte c - 65
  else if is_lower c then byte c - 97 + 26
  else if is_digit c then byte c - 48 + 52
  else if bool_decide (c = "-"%char) then 62 else 63.

Fixpoint RawURLDecode (l : list Z) : list Z :=
  match l with
  | a :: b :: c :: d :: l =>
      (a * 4 + b / 16) :: ((b mod 16) * 16 + c / 4) :: ((c mod 4) * 64 + d) :: RawURLDecode l
  | [a; b; c] => [a * 4 + b / 16; (b mod 16) * 16 + c / 4]
  | [a; b] => [a * 4 + b / 16]
  | _ => []
  end.

Definition is_byte (z : Z) : Prop := 0 ≤ z < 256.

Definition below_64 : list Z := seqZ 0 64.

Lemma below_64_forall (P : Z → bool) : forallb P below_64 = true → ∀ d, 0 ≤ d < 64 → P d = true.
Proof.
  intros HP d Hd. rewrite forallb_forall in HP. apply HP, list_elem_of_In, elem_of_seqZ. lia.
Qed.

Lemma base64url_digit_char d : 0 ≤ d < 64 → base64url_digit (base64url_char d) = d.
Proof.
  intros Hd. apply Z.eqb_eq. revert d Hd.
  apply (below_64_forall (λ d, base64url_digit (base64url_char d) =? d)). by vm_compute.
Qed.

(** Identifier characters: letters, digits, hyphen and underscore. *)
Definition is_base64url (c : ascii) : bool :=
  is_upper c || is_lower c || is_digit c || bool_decide (c = "-"%char) || bool_decide (c = "_"%char).

Lemma base64url_char_ok d : 0 ≤ d < 64 → is_base64url (base64url_char d) = true.
Proof.
  revert d. apply (below_64_forall (λ d, is_base64url (base64url_char d))). by vm_compute.
Qed.

(** Induction three bytes at a time. *)
Lemma list_ind3 {A} (P : list A → Prop) :
  P [] → (∀ a, P [a]) → (∀ a b, P [a; b]) → (∀ a b c l, P l → P (a :: b :: c :: l)) → ∀ l, P l.
Proof.
  intros H0 H1 H2 H3. fix IH 1. intros [|a [|b [|c l]]]; [done..|]. apply H3, IH.
Qed.

Lemma sextets_range a b :
  is_byte a → is_byte b →
  0 ≤ a / 4 < 64 ∧ 0 ≤ a mod 4 * 16 + b / 16 < 64 ∧ 0 ≤ a mod 16 * 4 + b / 64 < 64 ∧
  0 ≤ a mod 64 < 64 ∧ 0 ≤ a mod 4 * 16 < 64 ∧ 0 ≤ a mod 16 * 4 < 64.
Proof. unfold is_byte. intros. Z.div_mod_to_equations. lia. Qed.

(** [RawURLDecode] undoes [RawURLEncode]: the encoding is injective. *)
Lemma RawURLDecode_Encode l :
  Forall is_byte l → RawURLDecode (base64url_digit <$> bytes (RawURLEncode l)) = l.
Proof.
  induction l as [|a|a b|a b c l IH] using list_ind3; rewrite ?Forall_cons; intros Hl.
  - done.
  - destruct Hl as [Ha _]. pose proof (sextets_range a a Ha Ha). simpl.
    rewrite !base64url_digit_char by tauto. f_equal. clear. Z.div_mod_to_equations. lia.
  - destruct Hl as (Ha & Hb & _). pose proof (sextets_range a b Ha Hb).
    pose proof (sextets_range b b Hb Hb). simpl.
    rewrite !base64url_digit_char by tauto. unfold is_byte in *.
    repeat f_equal; clear -Ha Hb; Z.div_mod_to_equations; lia.
  - destruct Hl as (Ha & Hb & Hc & Hl). pose proof (sextets_range a b Ha Hb).
    pose proof (sextets_range b c Hb Hc). pose proof (sextets_range c c Hc Hc). simpl.
    rewrite !base64url_digit_char by tauto. unfold is_byte in *.
    f_equal; [clear -Ha Hb; Z.div_mod_to_equations; lia|].
    f_equal; [clear -Hb Hc; Z.div_mod_to_equations; lia|].
    f_equal; [clear -Hc; Z.div_mod_to_equations; lia|]. by apply IH.
Qed.

Lemma RawURLEncode_chars l :
  Forall is_byte l → all_bytes is_base64url (RawURLEncode l) = true.
Proof.
  induction l as [|a|a b|a b c l IH] using list_ind3; rewrite ?Forall_cons; intros Hl.
  - done.
  - destruct Hl as [Ha _]. pose proof (sextets_range a a Ha Ha). simpl.
    rewrite !base64url_char_ok by tauto. done.
  - destruct Hl as (Ha & Hb & _). pose proof (sextets_range a b Ha Hb).
    pose proof (sextets_range b b Hb Hb). simpl. rewrite !base64url_char_ok by tauto. done.
  - destruct Hl as (Ha & Hb & Hc & Hl). pose proof (sextets_range a b Ha Hb).
    pose proof (sextets_range b c Hb Hc). pose proof (sextets_range c c Hc Hc). simpl.
    rewrite !base64url_char_ok by tauto. simpl. by apply IH.
Qed.

(** Three bytes become four characters, one byte two and two bytes three. *)
Lemma RawURLEncode_length l :
  len (RawURLEncode l) = (4 * len_list l + 2) / 3.
Proof.
  unfold len, len_list. induction l as [|a|a b|a b c l IH] using list_ind3; [done..|].
  cbn [RawURLEncode String.length length]. rewrite !Nat2Z.inj_succ, IH.
  replace (4 * Z.succ (Z.succ (Z.succ (Z.of_nat (length l)))) + 2) with (4 * Z.of_nat (length l) + 2 + 4 * 3) by lia.
  rewrite Z.div_add by done. lia.
Qed.

(** ** Random identifiers (src/internal/secure/random.go)

    [random] is what [rand.Reader] delivers: 18 bytes, or an error. *)
Definition RandomID (random : result (list Z)) (prefix : string) : result string :=
  match random with
  | Err e => Err (Errorf "create random ID: " e)
  | Ok bs => Ok (prefix +:+ "_" +:+ RawURLEncode bs)
  end.

(** ** FNV-1a *)

Definition fnv_offset : Z := 14695981039346656037.
Definition fnv_prime : Z := 1099511628211.

Definition fnv1a (value : string) : Z :=
  foldl (λ hash c, (Z.lxor hash (byte c) * fnv_prime) mod 2 ^ 64) fnv_offset (bytes value).
