(* ===== verification/Cipher.v ===== *)
(** * The cipher of stored credentials (src/internal/secure/cipher.go)

    AES-256-GCM comes from the standard library: it is a parameter, an AEAD whose
    laws are those of authenticated encryption with a 12-byte nonce.  What the
    repository adds, the versioned base64 envelope and its checks, is modelled. *)

From S2P Require Export Encoding.

Local Open Scope Z_scope.
Local Open Scope stdpp_scope.

(** Strings as byte lists and back. *)
Definition to_bytes (s : string) : list Z := byte <$> bytes s.
Definition from_bytes (l : list Z) : string := of_bytes (ascii_of_Z <$> l).

Lemma from_to_bytes s : from_bytes (to_bytes s) = s.
Proof.
  unfold from_bytes, to_bytes. rewrite <-list_fmap_compose.
  rewrite <-(of_bytes_bytes s) at 2. f_equal. rewrite <-list_fmap_id. apply list_fmap_ext.
  intros _ c _. simpl. unfold ascii_of_Z, byte.
  pose proof (N_ascii_bounded c). rewrite Z.mod_small, N2Z.id by lia. apply ascii_N_embedding.
Qed.

Lemma to_bytes_is_byte s : Forall is_byte (to_bytes s).
Proof. apply Forall_fmap, Forall_true. intros c. apply byte_range. Qed.

(** [base64.RawURLEncoding.DecodeString]: line breaks are skipped, a character
    outside the alphabet or a single left-over character is an error. *)
Definition is_line_break (c : ascii) : bool :=
  bool_decide (c = "010"%char) || bool_decide (c = "013"%char).

Definition DecodeString (s : string) : option (list Z) :=
  let chars := List.filter (λ c, negb (is_line_break c)) (bytes s) in
  if forallb is_base64url chars && negb (len_list chars mod 4 =? 1)
  then Some (RawURLDecode (base64url_digit <$> chars))
  else None.

Lemma filter_all {A} (f : A → bool) l : (∀ x, x ∈ l → f x = true) → List.filter f l = l.
Proof.
  induction l as [|x l IH]; simpl; [done|]. intros Hl. rewrite Hl, IH by set_solver. done.
Qed.

Lemma base64url_not_break c : is_base64url c = true → negb (is_line_break c) = true.
Proof.
  intros Hc. unfold is_line_break. rewrite negb_true_iff, orb_false_iff, !bool_decide_eq_false.
  split; intros ->; done.
Qed.

Lemma DecodeString_RawURLEncode l : Forall is_byte l → DecodeString (RawURLEncode l) = Some l.
Proof.
  intros Hl. unfold DecodeString. pose proof (RawURLEncode_chars _ Hl) as Hc.
  rewrite all_bytes_spec in Hc.
  rewrite filter_all by auto using base64url_not_break.
  rewrite (proj2 (forallb_forall _ _)) by (intros c Hin; apply Hc; by apply list_elem_of_In).
  simpl. rewrite RawURLDecode_Encode by done.
  pose proof (RawURLEncode_length l) as Hlen. unfold len in Hlen. rewrite <-length_bytes in Hlen.
  unfold len_list in *. rewrite Hlen.
  destruct (((4 * Z.of_nat (length l) + 2) / 3) mod 4 =? 1) eqn:E; [|done].
  apply Z.eqb_eq in E. revert E. generalize (Z.of_nat (length l)). intros n E. exfalso.
  clear -E. Z.div_mod_to_equations. lia.
Qed.

Module Cipher.

(** AES-GCM under one key, the key schedule included: [Seal] and [Open] of
    [cipher.AEAD] (the destination slice is nil in both calls). *)
Class AEAD := {
  Seal : list Z → list Z → list Z → list Z → list Z;
  Open : list Z → list Z → list Z → list Z → option (list Z);
}.

Definition NonceSize : Z := 12.

(** The documented behaviour of the construction. *)
Class AEADLaws `{AEAD} : Prop := {
  Open_Seal key nonce plaintext ad :
    Forall is_byte plaintext → Open key nonce (Seal key nonce plaintext ad) ad = Some plaintext;
  Seal_bytes key nonce plaintext ad : Forall is_byte (Seal key nonce plaintext ad);
  (** the tag is 16 bytes long *)
  Seal_length key nonce plaintext ad :
    len_list (Seal key nonce plaintext ad) = len_list plaintext + 16;
  (** a ciphertext that authenticates is the sealing of what it opens to *)
  Seal_Open key nonce ciphertext ad plaintext :
    Open key nonce ciphertext ad = Some plaintext → Seal key nonce plaintext ad = ciphertext;
}.

Section cipher.
Context `{AEAD}.

Definition ciphertextVersion : string := "v1.".

(** A [Cipher] is its key. *)
Definition NewCipher (key : list Z) : result (list Z) :=
  reject_if (negb (len_list key =? 32)) (NewError "encryption key must be exactly 32 bytes") ;;
  Ok key.

(** [random] is what reading the nonce from [rand.Reader] gives. *)
Definition SealString (key : list Z) (random : result (list Z)) (plaintext associatedData : string) :
    result string :=
  match random with
  | Err e => Err (Errorf "create encryption nonce: " e)
  | Ok nonce =>
      let sealed := Seal key nonce (to_bytes plaintext) (to_bytes associatedData) in
      Ok (ciphertextVersion +:+ RawURLEncode (nonce ++ sealed))
  end.

Definition OpenString (key : list Z) (encoded associatedData : string) : result string :=
  reject_if (negb (HasPrefix encoded ciphertextVersion))
    (NewError "unsupported ciphertext version") ;;
  match DecodeString (TrimPrefix encoded ciphertextVersion) with
  | None => Err (NewError "invalid ciphertext encoding")
  | Some payload =>
      reject_if (len_list payload <=? NonceSize) (NewError "invalid ciphertext length") ;;
      let nonce := take (Z.to_nat NonceSize) payload in
      let ciphertext := drop (Z.to_nat NonceSize) payload in
      match Open key nonce ciphertext (to_bytes associatedData) with
      | None => Err (NewError "ciphertext authentication failed")
      | Some plaintext => Ok (from_bytes plaintext)
      end
  end.

(** C17: what [SealString] returns is never empty, starts with the version prefix,
    and [OpenString] with the same key and associated data gives the plaintext
    back, byte for byte, for every plaintext, every associated data and every
    12-byte nonce; and conversely whatever [OpenString] accepts is the envelope of
    a sealing of the returned plaintext under the caller's associated data, so a
    ciphertext stored for one field opens for another only if the AEAD itself
    seals the two alike. *)
Theorem OpenString_SealString `{!AEADLaws} key nonce plaintext ad :
  Forall is_byte nonce → len_list nonce = NonceSize →
  (∃ encoded, SealString key (Ok nonce) plaintext ad = Ok encoded ∧
     HasPrefix encoded ciphertextVersion = true ∧ encoded ≠ "" ∧
     OpenString key encoded ad = Ok plaintext) ∧
  (∀ encoded ad' opened, OpenString key encoded ad' = Ok opened →
     ∃ nonce' plaintext',
       from_bytes plaintext' = opened ∧ len_list nonce' = NonceSize ∧
       DecodeString (TrimPrefix encoded ciphertextVersion) =
         Some (nonce' ++ Seal key nonce' plaintext' (to_bytes ad'))).
Proof.
  intros Hn Hlen. split.
  - eexists. split; [done|]. cbn [SealString].
    assert (HasPrefix (ciphertextVersion +:+
              RawURLEncode (nonce ++ Seal key nonce (to_bytes plaintext) (to_bytes ad)))
              ciphertextVersion = true) as Hp.
    { apply HasPrefix_spec. by eexists. }
    split_and!; [done|done|]. unfold OpenString. rewrite Hp. cbn [negb reject_if mbind result_bind].
    rewrite TrimPrefix_app.
    rewrite DecodeString_RawURLEncode by (apply Forall_app; split; [done|apply Seal_bytes]).
    pose proof (Seal_length key nonce (to_bytes plaintext) (to_bytes ad)) as Hs.
    assert (length nonce = Z.to_nat NonceSize) as Hnat
      by (unfold len_list, NonceSize in *; lia).
    destruct (len_list _ <=? NonceSize) eqn:E.
    { apply Z.leb_le in E. unfold len_list, NonceSize in *. rewrite length_app in E. lia. }
    cbn [reject_if mbind result_bind]. rewrite take_app_length', drop_app_length' by done.
    rewrite Open_Seal by apply to_bytes_is_byte. by rewrite from_to_bytes.
  - intros encoded ad' opened. unfold OpenString. rewrite bind_Ok. intros (? & _ & Hd).
    destruct (DecodeString _) as [payload|]; [|done]. rewrite bind_Ok in Hd.
    destruct Hd as (? & Hl%reject_if_Ok & Ho).
    destruct (Open _ _ _ _) as [p|] eqn:Ep; [|done]. injection Ho as <-.
    exists (take (Z.to_nat NonceSize) payload), p. split_and!; [done| |].
    + apply Z.leb_gt in Hl. unfold len_list, NonceSize in *. rewrite length_take. lia.
    + by rewrite (Seal_Open _ _ _ _ _ Ep), take_drop.
Qed.
End cipher.

(** A toy AEAD that satisfies the laws: the plaintext followed by a tag of sixteen
    bytes that sums up the associated data. *)
Definition toy_tag (ad : list Z) : list Z := replicate 16 (foldl Z.add 0 ad mod 256).
#[global] Arguments toy_tag : simpl never.

Definition toy_AEAD : AEAD := {|
  Seal _ _ plaintext ad := ((λ b, b mod 256) <$> plaintext) ++ toy_tag ad;
  Open _ _ ciphertext ad :=
    let plaintext := take (length ciphertext - 16) ciphertext in
    if bool_decide (ciphertext = ((λ b, b mod 256) <$> plaintext) ++ toy_tag ad)
    then Some plaintext else None;
|}.

Lemma toy_laws : @AEADLaws toy_AEAD.
Proof.
  split; cbn.
  - intros _ _ p ad Hp.
    assert (((λ b, b mod 256) <$> p) = p) as Hmod.
    { clear -Hp. induction Hp as [|b p Hb _ IH]; [done|]. cbn.
      f_equal; [by apply Z.mod_small|exact IH]. }
    rewrite Hmod, length_app. replace (length p + length (toy_tag ad) - 16)%nat with (length p)
      by (unfold toy_tag; rewrite length_replicate; lia).
    rewrite take_app_length, Hmod. by rewrite bool_decide_eq_true_2.
  - intros _ _ p ad. apply Forall_app. split.
    + apply Forall_fmap, Forall_true. intros b. by apply Z.mod_pos_bound.
    + apply Forall_replicate. by apply Z.mod_pos_bound.
  - intros _ _ p ad. unfold len_list. rewrite length_app, length_fmap. unfold toy_tag.
    rewrite length_replicate. lia.
  - intros _ _ c ad p. case_bool_decide as E; [|done]. by intros [= <-].
Qed.

Lemma OpenString_SealString_witness :
  let key := replicate 32 7 in
  let nonce := replicate 12 5 in
  Forall is_byte nonce ∧
  ∃ encoded, @SealString toy_AEAD key (Ok nonce) "token" "cluster:clu_a:bearer_token" = Ok encoded ∧
    @OpenString toy_AEAD key encoded "cluster:clu_a:bearer_token" = Ok "token".
Proof.
  intros key nonce.
  assert (Forall is_byte nonce) as Hn by (apply Forall_replicate; unfold is_byte; lia).
  split; [exact Hn|].
  destruct (proj1 (@OpenString_SealString toy_AEAD toy_laws key nonce "token"
    "cluster:clu_a:bearer_token" Hn eq_refl)) as (e & He & _ & _ & Ho).
  by exists e.
Defined.

End Cipher.
