(* ===== verification/Base64.v ===== *)
(** * The standard alphabet of base64

    encoding/base64's [StdEncoding], in which the encryption key and the certificates of
    webhooks arrive, and [RawStdEncoding], in which a password hash is written. *)

From S2P Require Export Cipher.

Local Open Scope Z_scope.
Local Open Scope stdpp_scope.

Definition base64std_digit (c : ascii) : Z :=
  if bool_decide (c = "+"%char) then 62 else if bool_decide (c = "/"%char) then 63 else base64url_digit c.

Definition is_base64std (c : ascii) : bool :=
  is_lower c || is_upper c || is_digit c || bool_decide (c = "+"%char) || bool_decide (c = "/"%char).

(** [base64.StdEncoding.DecodeString]: line breaks are skipped, the rest is padded to
    groups of four, and the padding is the end. *)
Definition unpadded (chars : list ascii) : list ascii :=
  match reverse chars with
  | "="%char :: "="%char :: body => reverse body
  | "="%char :: body => reverse body
  | _ => chars
  end.

Definition StdDecodeString (s : string) : option (list Z) :=
  let chars := List.filter (λ c, negb (is_line_break c)) (bytes s) in
  let body := unpadded chars in
  if (len_list chars mod 4 =? 0) && forallb is_base64std body
  then Some (RawURLDecode (base64std_digit <$> body)) else None.

(** [base64.RawStdEncoding]: the alphabet of URLs with two characters exchanged. *)
Definition std_char (c : ascii) : ascii :=
  if bool_decide (c = "-"%char) then "+"%char else if bool_decide (c = "_"%char) then "/"%char else c.

Definition RawStdEncode (l : list Z) : string := of_bytes (std_char <$> bytes (RawURLEncode l)).

(** [base64.StdEncoding.EncodeToString]. *)
Definition StdEncodeToString (l : list Z) : string :=
  RawStdEncode l +:+ match len_list l mod 3 with 0 => "" | 1 => "==" | _ => "=" end.

Definition RawStdDecodeString (s : string) : option (list Z) :=
  let chars := List.filter (λ c, negb (is_line_break c)) (bytes s) in
  if forallb is_base64std chars && negb (len_list chars mod 4 =? 1)
  then Some (RawURLDecode (base64std_digit <$> chars)) else None.

Example base64_std : RawStdEncode [251; 255; 191; 1] = "+/+/AQ" ∧ StdDecodeString "+/+/AQ==" = Some [251; 255; 191; 1] ∧
  RawStdDecodeString "+/+/AQ" = Some [251; 255; 191; 1] ∧ RawStdDecodeString "+/+/AQ==" = None.
Proof. by vm_compute. Qed.

(** ** Decoding undoes encoding *)

Lemma std_char_digit c : is_base64url c = true → base64std_digit (std_char c) = base64url_digit c ∧
  is_base64std (std_char c) = true ∧ negb (is_line_break (std_char c)) = true.
Proof. destruct c as [[] [] [] [] [] [] [] []]; vm_compute; intros; (split_and!; congruence) || congruence. Qed.

Lemma RawStdEncode_chars l : Forall is_byte l →
  Forall (λ c, is_base64url c = true) (bytes (RawURLEncode l)).
Proof. intros Hl%RawURLEncode_chars. rewrite all_bytes_spec in Hl. by apply Forall_forall. Qed.

Lemma RawStdEncode_length l : len (RawStdEncode l) = (4 * len_list l + 2) / 3.
Proof.
  unfold RawStdEncode. rewrite <-RawURLEncode_length. unfold len. rewrite <-!length_bytes, bytes_of_bytes.
  by rewrite length_fmap.
Qed.

Lemma RawStdDecodeString_Encode l : Forall is_byte l → RawStdDecodeString (RawStdEncode l) = Some l.
Proof.
  intros Hl. pose proof (RawStdEncode_chars _ Hl) as Hc. pose proof (RawStdEncode_length l) as Hlen.
  unfold RawStdDecodeString. unfold len in Hlen. rewrite <-length_bytes in Hlen.
  unfold RawStdEncode in *. rewrite bytes_of_bytes in *. set (cs := bytes (RawURLEncode l)) in *.
  assert (∀ c, c ∈ std_char <$> cs → is_base64std c = true ∧ negb (is_line_break c) = true) as Hs.
  { intros c (d & -> & Hd)%list_elem_of_fmap. rewrite Forall_forall in Hc. by apply std_char_digit, Hc. }
  rewrite filter_all by (intros c Hin; by apply Hs).
  rewrite (proj2 (forallb_forall _ _)) by (intros c Hin; apply Hs; by apply list_elem_of_In).
  rewrite <-list_fmap_compose.
  assert (base64std_digit ∘ std_char <$> cs = base64url_digit <$> cs) as ->.
  { apply list_fmap_ext. intros i c Hi. apply std_char_digit. rewrite Forall_forall in Hc. apply Hc. by eapply list_elem_of_lookup_2. }
  unfold cs. rewrite RawURLDecode_Encode by done. fold cs. unfold len_list in *. rewrite Hlen.
  destruct (((4 * Z.of_nat (length l) + 2) / 3) mod 4 =? 1) eqn:E; [|done]. exfalso.
  apply Z.eqb_eq in E. revert E. generalize (Z.of_nat (length l)). intros n E. clear -E. Z.div_mod_to_equations. lia.
Qed.

Lemma std_not_padding c : is_base64std c = true → c ≠ "="%char ∧ negb (is_line_break c) = true.
Proof. destruct c as [[] [] [] [] [] [] [] []]; vm_compute; intros; (split; congruence) || congruence. Qed.

(** One character of padding, for a length that leaves two bytes. *)
Lemma StdDecodeString_padded l :
  Forall is_byte l → len_list l mod 3 = 2 → StdDecodeString (RawStdEncode l +:+ "=") = Some l.
Proof.
  intros Hl Hmod. pose proof (RawStdDecodeString_Encode l Hl) as Hd. pose proof (RawStdEncode_length l) as Hlen.
  unfold RawStdDecodeString in Hd. unfold StdDecodeString. rewrite bytes_app, List.filter_app.
  change (List.filter _ (bytes "=")) with ["="%char]. set (chars := List.filter _ (bytes (RawStdEncode l))) in *.
  destruct (forallb is_base64std chars && _) eqn:Hc; [|done]. apply andb_true_iff in Hc as [Hc _].
  assert (unpadded (chars ++ ["="%char]) = chars) as ->.
  { unfold unpadded. rewrite reverse_snoc. destruct (reverse chars) as [|c r] eqn:Er.
    - apply (f_equal reverse) in Er. by rewrite reverse_involutive in Er.
    - assert (c ∈ chars) as Hin by (apply elem_of_reverse; rewrite Er; left).
      rewrite forallb_forall in Hc. destruct (std_not_padding c) as [Hne _]; [apply Hc; by apply list_elem_of_In|].
      rewrite <-(reverse_involutive chars), Er.
      destruct c as [[] [] [] [] [] [] [] []]; try reflexivity. by contradict Hne. }
  rewrite Hc, andb_true_r. injection Hd as Hd. rewrite Hd.
  assert (chars = bytes (RawStdEncode l)) as Hchars.
  { unfold chars. apply filter_all. intros c Hin.
    unfold RawStdEncode in Hin. rewrite bytes_of_bytes in Hin. apply list_elem_of_fmap in Hin as (d & -> & Hin).
    pose proof (RawStdEncode_chars _ Hl) as Hf. rewrite Forall_forall in Hf. by apply std_char_digit, Hf. }
  unfold len_list in *. rewrite length_app, Hchars. unfold len in Hlen. rewrite <-length_bytes in Hlen.
  rewrite (proj2 (Z.eqb_eq _ _)); [done|]. cbn [length]. rewrite Nat2Z.inj_add, Hlen. clear -Hmod. Z.div_mod_to_equations. lia.
Qed.

Lemma RawStdEncode_visible l : Forall is_byte l → all_bytes is_visible (RawStdEncode l) = true.
Proof.
  intros Hl. apply all_bytes_spec. intros c. unfold RawStdEncode. rewrite bytes_of_bytes. intros (d & -> & Hin)%list_elem_of_fmap.
  pose proof (RawStdEncode_chars _ Hl) as Hf. rewrite Forall_forall in Hf. specialize (Hf d Hin). clear -Hf.
  revert Hf. destruct d as [[] [] [] [] [] [] [] []]; vm_compute; congruence.
Qed.
