(* ===== verification/Domain.v ===== *)
(** * Domain data (src/internal/domain/models.go)

    The records and enumerations the other components exchange.  Go's
    string-typed enumerations stay strings, because decoded data can hold any
    text; their constants keep the source's names.  Each record is a module, so
    that field names are the source's. *)

From S2P Require Export GoText.

Local Open Scope Z_scope.
Local Open Scope stdpp_scope.

(** ** Enumerations *)

Definition Environment := string.
Definition EnvironmentDevelopment : Environment := "development".
Definition EnvironmentStaging : Environment := "staging".
Definition EnvironmentProduction : Environment := "production".

Definition ClusterStatus := string.
Definition ClusterPending : ClusterStatus := "pending".
Definition ClusterConnected : ClusterStatus := "connected".
Definition ClusterDegraded : ClusterStatus := "degraded".
Definition ClusterUnreachable : ClusterStatus := "unreachable".
Definition ClusterDisabled : ClusterStatus := "disabled".

Definition OperationKind := string.
Definition OperationHelmInstall : OperationKind := "helm.install".
Definition OperationHelmUpgrade : OperationKind := "helm.upgrade".
Definition OperationHelmRollback : OperationKind := "helm.rollback".
Definition OperationHelmUninstall : OperationKind := "helm.uninstall".
Definition OperationWorkloadScale : OperationKind := "workload.scale".
Definition OperationWorkloadRestart : OperationKind := "workload.restart".
Definition OperationWorkloadImage : OperationKind := "workload.image_update".

Definition OperationState := string.
Definition OperationQueued : OperationState := "queued".
Definition OperationRunning : OperationState := "running".
Definition OperationSucceeded : OperationState := "succeeded".
Definition OperationFailed : OperationState := "failed".
Definition OperationCanceled : OperationState := "canceled".
Definition OperationUnknown : OperationState := "unknown".

Definition KubernetesCapabilityState := string.
Definition KubernetesCapabilityAllowed : KubernetesCapabilityState := "allowed".
Definition KubernetesCapabilityDenied : KubernetesCapabilityState := "denied".
Definition KubernetesCapabilityIndeterminate : KubernetesCapabilityState := "indeterminate".

Definition KubernetesAccessResourceKind := string.
Definition AccessResourceServiceAccounts : KubernetesAccessResourceKind := "serviceaccounts".
Definition AccessResourceRoles : KubernetesAccessResourceKind := "roles".
Definition AccessResourceRoleBindings : KubernetesAccessResourceKind := "rolebindings".
Definition AccessResourceClusterRoles : KubernetesAccessResourceKind := "clusterroles".
Definition AccessResourceClusterRoleBindings : KubernetesAccessResourceKind :=
  "clusterrolebindings".

Definition KubernetesAdmissionWebhookConfigurationKind := string.
Definition AdmissionWebhookConfigurationValidating :
  KubernetesAdmissionWebhookConfigurationKind := "validating".
Definition AdmissionWebhookConfigurationMutating :
  KubernetesAdmissionWebhookConfigurationKind := "mutating".

(** ** Limits *)

Definition MaxClusterBearerTokenBytes : Z := 64 * 1024.
Definition MaxClusterCACertBytes : Z := 256 * 1024.
Definition MaxPodLogTailLines : Z := 2000.
Definition MaxWorkloadEventLimit : Z := 100.
Definition MaxNodeEventLimit : Z := 100.
Definition MaxClusterEventLimit : Z := 500.
Definition MaxWorkloadReplicas : Z := 1000.
Definition MaxContainerImageBytes : Z := 1024.

(** ** Clusters and repositories *)

Module Cluster.
Record t : Type := mk {
  ID : string;
  Name : string;
  Environment : Environment;
  Server : string;
  Status : ClusterStatus;
  Version : string;
  LastErrorCode : string;
  CACertCiphertext : string;
  BearerTokenCiphertext : string;
  LastCheckedAt : time;
  CreatedAt : time;
  UpdatedAt : time;
}.
#[global] Instance eq_dec : EqDecision t.
Proof. solve_decision. Defined.
End Cluster.
Notation Cluster := Cluster.t.

Module ClusterInput.
Record t : Type := mk {
  Name : string;
  Environment : Environment;
  Server : string;
  CACert : string;
  BearerToken : string;
}.
End ClusterInput.
Notation ClusterInput := ClusterInput.t.

Module ClusterCredentialRotationInput.
Record t : Type := mk {
  CACert : string;
  BearerToken : string;
  Confirmation : string;
}.
End ClusterCredentialRotationInput.
Notation ClusterCredentialRotationInput := ClusterCredentialRotationInput.t.

Module Repository.
Record t : Type := mk {
  ID : string;
  Name : string;
  URL : string;
  Enabled : bool;
  UsernameCiphertext : string;
  PasswordCiphertext : string;
  Status : string;
  LastErrorCode : string;
  LastCheckedAt : time;
  CreatedAt : time;
  UpdatedAt : time;
}.
#[global] Instance eq_dec : EqDecision t.
Proof. solve_decision. Defined.
End Repository.
Notation Repository := Repository.t.

Module RepositoryInput.
Record t : Type := mk {
  Name : string;
  URL : string;
  Username : string;
  Password : string;
}.
End RepositoryInput.
Notation RepositoryInput := RepositoryInput.t.

(** ** Operations and audit events *)

Module Operation.
Record t : Type := mk {
  ID : string;
  RequestID : string;
  Kind : OperationKind;
  State : OperationState;
  ClusterID : string;
  Namespace : string;
  Target : string;
  SubmittedBy : string;
  Summary : string;
  ErrorCode : string;
  ErrorMessage : string;
  CreatedAt : time;
  StartedAt : time;
  FinishedAt : time;
  UpdatedAt : time;
}.
#[global] Instance eq_dec : EqDecision t.
Proof. solve_decision. Defined.

(** The assignments the code makes to an operation: a new state with its
    error fields and finishing time, or the start of the execution. *)
Definition finish (o : t) (state : OperationState) (code message : string) (now : time) : t :=
  mk o.(ID) o.(RequestID) o.(Kind) state o.(ClusterID) o.(Namespace) o.(Target)
    o.(SubmittedBy) o.(Summary) code message o.(CreatedAt) o.(StartedAt) now now.

Definition start (o : t) (now : time) : t :=
  mk o.(ID) o.(RequestID) o.(Kind) OperationRunning o.(ClusterID) o.(Namespace) o.(Target)
    o.(SubmittedBy) o.(Summary) o.(ErrorCode) o.(ErrorMessage) o.(CreatedAt) now
    o.(FinishedAt) now.
End Operation.
Notation Operation := Operation.t.

Module AuditEvent.
Record t : Type := mk {
  ID : string;
  RequestID : string;
  OperationID : string;
  Actor : string;
  Action : string;
  Result : string;
  ClusterID : string;
  Namespace : string;
  Target : string;
  Summary : string;
  CreatedAt : time;
}.
#[global] Instance eq_dec : EqDecision t.
Proof. solve_decision. Defined.
End AuditEvent.
Notation AuditEvent := AuditEvent.t.

(** ** Requests *)

Module WorkloadReference.
Record t : Type := mk { Kind : string; Namespace : string; Name : string }.
#[global] Instance eq_dec : EqDecision t.
Proof. solve_decision. Defined.
End WorkloadReference.
Notation WorkloadReference := WorkloadReference.t.

Module HelmOperationInput.
Record t : Type := mk {
  ClusterID : string;
  Namespace : string;
  ReleaseName : string;
  Chart : string;
  RepositoryID : string;
  Version : string;
  Values : string;
  Revision : Z;
}.
#[global] Instance eq_dec : EqDecision t.
Proof. solve_decision. Defined.
End HelmOperationInput.
Notation HelmOperationInput := HelmOperationInput.t.

Module WorkloadOperationInput.
Record t : Type := mk {
  ClusterID : string;
  Reference : WorkloadReference;
  ResourceVersion : string;
  Replicas : option Z;
  Confirmation : string;
}.
#[global] Instance eq_dec : EqDecision t.
Proof. solve_decision. Defined.
End WorkloadOperationInput.
Notation WorkloadOperationInput := WorkloadOperationInput.t.

Module WorkloadImageChange.
Record t : Type := mk {
  Reference : WorkloadReference;
  ResourceVersion : string;
  Container : string;
  CurrentImage : string;
  Image : string;
}.
#[global] Instance eq_dec : EqDecision t.
Proof. solve_decision. Defined.
End WorkloadImageChange.
Notation WorkloadImageChange := WorkloadImageChange.t.

Module WorkloadImageOperationInput.
Record t : Type := mk {
  ClusterID : string;
  Change : WorkloadImageChange;
  Confirmation : string;
}.
#[global] Instance eq_dec : EqDecision t.
Proof. solve_decision. Defined.
End WorkloadImageOperationInput.
Notation WorkloadImageOperationInput := WorkloadImageOperationInput.t.

Module PodLogRequest.
Record t : Type := mk {
  Namespace : string;
  Pod : string;
  Container : string;
  TailLines : Z;
  Previous : bool;
  Timestamps : bool;
}.
End PodLogRequest.
Notation PodLogRequest := PodLogRequest.t.

Module KubernetesAccessResourceReference.
Record t : Type := mk {
  Kind : KubernetesAccessResourceKind; Namespace : string; Name : string }.
End KubernetesAccessResourceReference.
Notation KubernetesAccessResourceReference := KubernetesAccessResourceReference.t.

Module KubernetesServiceAccountReference.
Record t : Type := mk { Namespace : string; Name : string }.
End KubernetesServiceAccountReference.
Notation KubernetesServiceAccountReference := KubernetesServiceAccountReference.t.

Module KubernetesResourceAttributes.
Record t : Type := mk {
  Group : string;
  Resource : string;
  Subresource : string;
  Verb : string;
  Namespace : string;
  Name : string;
}.
End KubernetesResourceAttributes.
Notation KubernetesResourceAttributes := KubernetesResourceAttributes.t.

Module KubernetesServiceAccountAccessReviewInput.
Record t : Type := mk {
  ServiceAccount : KubernetesServiceAccountReference;
  ResourceAttributes : KubernetesResourceAttributes;
}.
End KubernetesServiceAccountAccessReviewInput.
Notation KubernetesServiceAccountAccessReviewInput :=
  KubernetesServiceAccountAccessReviewInput.t.

(** ** Read models returned by the cluster gateway *)

Module ClusterProbe.
Record t : Type := mk { Version : string; NamespaceCount : Z; NodeCount : Z }.
End ClusterProbe.
Notation ClusterProbe := ClusterProbe.t.

(** ** States of an operation *)

Definition in_flight (o : Operation) : bool :=
  bool_decide (o.(Operation.State) = OperationQueued) ||
  bool_decide (o.(Operation.State) = OperationRunning).
