(* ===== verification/Models.v ===== *)
(** * Read models (src/internal/domain/models.go)

    What the Kubernetes client reads of a cluster: the structs and enumerations of
    the domain that only travel from the client to the browser.  An embedded struct
    is a field of the same name. *)

From S2P Require Export Domain.

Module WorkloadFieldChange.
Record t : Type := mk { Field : string; Before : string; After : string }.
End WorkloadFieldChange.
Notation WorkloadFieldChange := WorkloadFieldChange.t.

Module WorkloadImagePreview.
Record t : Type := mk {
  Kind : string;
  Namespace : string;
  Name : string;
  Container : string;
  ResourceVersion : string;
  Changes : list WorkloadFieldChange;
}.
End WorkloadImagePreview.
Notation WorkloadImagePreview := WorkloadImagePreview.t.

Module ClusterSummary.
Record t : Type := mk {
  Version : string;
  NamespaceCount : Z;
  NodeCount : Z;
  ReadyNodeCount : Z;
  WorkloadCount : Z;
  ReadyWorkloads : Z;
  UnhealthyPods : Z;
}.
End ClusterSummary.
Notation ClusterSummary := ClusterSummary.t.

Module KubernetesCapability.
Record t : Type := mk { Key : string; State : KubernetesCapabilityState }.
End KubernetesCapability.
Notation KubernetesCapability := KubernetesCapability.t.

Module Namespace.
Record t : Type := mk {
  Name : string;
  Status : string;
  Labels : gmap string string;
  Finalizers : list string;
  CreatedAt : time;
}.
End Namespace.
Notation Namespace := Namespace.t.

Notation KubernetesPodSecurityAdmissionModeStatus := string (only parsing).
Definition PodSecurityAdmissionModeInherited : KubernetesPodSecurityAdmissionModeStatus := "inherited".
Definition PodSecurityAdmissionModeConfigured : KubernetesPodSecurityAdmissionModeStatus := "configured".
Definition PodSecurityAdmissionModeInvalid : KubernetesPodSecurityAdmissionModeStatus := "invalid".

Module KubernetesPodSecurityAdmissionMode.
Record t : Type := mk {
  Status : KubernetesPodSecurityAdmissionModeStatus;
  Level : string;
  Version : string;
  VersionDefaulted : bool;
}.
End KubernetesPodSecurityAdmissionMode.
Notation KubernetesPodSecurityAdmissionMode := KubernetesPodSecurityAdmissionMode.t.

Module KubernetesPodSecurityAdmissionNamespace.
Record t : Type := mk {
  Name : string;
  Enforce : KubernetesPodSecurityAdmissionMode;
  Audit : KubernetesPodSecurityAdmissionMode;
  Warn : KubernetesPodSecurityAdmissionMode;
  InvalidModeCount : Z;
  CreatedAt : time;
}.
End KubernetesPodSecurityAdmissionNamespace.
Notation KubernetesPodSecurityAdmissionNamespace := KubernetesPodSecurityAdmissionNamespace.t.

Notation KubernetesNodeVersionSkewStatus := string (only parsing).
Definition NodeVersionSameMinor : KubernetesNodeVersionSkewStatus := "same-minor".
Definition NodeVersionWithinPolicy : KubernetesNodeVersionSkewStatus := "within-policy".
Definition NodeVersionUpgradeBlocking : KubernetesNodeVersionSkewStatus := "upgrade-blocking".
Definition NodeVersionOutsidePolicy : KubernetesNodeVersionSkewStatus := "outside-policy".
Definition NodeVersionNewerThanServer : KubernetesNodeVersionSkewStatus := "newer-than-server".
Definition NodeVersionMajorMismatch : KubernetesNodeVersionSkewStatus := "major-mismatch".

Module KubernetesNodeVersionSkew.
Record t : Type := mk {
  Name : string;
  KubeletVersion : string;
  Status : KubernetesNodeVersionSkewStatus;
  MinorSkew : Z;
  MaximumMinorSkew : Z;
  MinorSkewComparable : bool;
}.
End KubernetesNodeVersionSkew.
Notation KubernetesNodeVersionSkew := KubernetesNodeVersionSkew.t.

Module KubernetesNodeVersionSkewReport.
Record t : Type := mk { APIServerVersion : string; Nodes : list KubernetesNodeVersionSkew }.
End KubernetesNodeVersionSkewReport.
Notation KubernetesNodeVersionSkewReport := KubernetesNodeVersionSkewReport.t.

Module KubernetesDeprecatedAPIRequest.
Record t : Type := mk {
  Group : string;
  Version : string;
  Resource : string;
  Subresource : string;
  RemovedRelease : string;
}.
End KubernetesDeprecatedAPIRequest.
Notation KubernetesDeprecatedAPIRequest := KubernetesDeprecatedAPIRequest.t.

Notation KubernetesEndpointCertificateStatus := string (only parsing).
Definition EndpointCertificateValid : KubernetesEndpointCertificateStatus := "valid".
Definition EndpointCertificateExpiring : KubernetesEndpointCertificateStatus := "expiring".
Definition EndpointCertificateCritical : KubernetesEndpointCertificateStatus := "critical".
Definition EndpointCertificateExpired : KubernetesEndpointCertificateStatus := "expired".

Module KubernetesEndpointCertificate.
Record t : Type := mk {
  ObservedAt : time;
  NotBefore : time;
  NotAfter : time;
  RemainingSeconds : Z;
  Status : KubernetesEndpointCertificateStatus;
}.
End KubernetesEndpointCertificate.
Notation KubernetesEndpointCertificate := KubernetesEndpointCertificate.t.

Notation KubernetesAPIServerReadinessCheckStatus := string (only parsing).
Definition APIServerReadinessCheckPassed : KubernetesAPIServerReadinessCheckStatus := "passed".
Definition APIServerReadinessCheckFailed : KubernetesAPIServerReadinessCheckStatus := "failed".

Module KubernetesAPIServerReadinessCheck.
Record t : Type := mk { Name : string; Status : KubernetesAPIServerReadinessCheckStatus }.
End KubernetesAPIServerReadinessCheck.
Notation KubernetesAPIServerReadinessCheck := KubernetesAPIServerReadinessCheck.t.

Module KubernetesAPIServerReadiness.
Record t : Type := mk {
  ObservedAt : time;
  Ready : bool;
  PassedChecks : Z;
  FailedChecks : Z;
  Checks : list KubernetesAPIServerReadinessCheck;
}.
End KubernetesAPIServerReadiness.
Notation KubernetesAPIServerReadiness := KubernetesAPIServerReadiness.t.

Module NodeResources.
Record t : Type := mk { CPU : string; Memory : string; Pods : string; EphemeralStorage : string }.
End NodeResources.
Notation NodeResources := NodeResources.t.

Module Node.
Record t : Type := mk {
  Name : string;
  Status : string;
  Roles : list string;
  Version : string;
  InternalIP : string;
  OSImage : string;
  Architecture : string;
  Capacity : NodeResources;
  Allocatable : NodeResources;
  Unschedulable : bool;
  TaintCount : Z;
  CreatedAt : time;
}.
End Node.
Notation Node := Node.t.

Module NodeTaint.
Record t : Type := mk { Key : string; Value : string; Effect : string; TimeAdded : time }.
End NodeTaint.
Notation NodeTaint := NodeTaint.t.

Module NodeAddress.
Record t : Type := mk { Type_ : string; Address : string }.
End NodeAddress.
Notation NodeAddress := NodeAddress.t.

Module NodeCondition.
Record t : Type := mk {
  Type_ : string;
  Status : string;
  Reason : string;
  Message : string;
  LastHeartbeatTime : time;
  LastTransitionTime : time;
}.
End NodeCondition.
Notation NodeCondition := NodeCondition.t.

Module NodeSystemInfo.
Record t : Type := mk {
  OSImage : string;
  KernelVersion : string;
  ContainerRuntimeVersion : string;
  KubeletVersion : string;
  OperatingSystem : string;
  Architecture : string;
}.
End NodeSystemInfo.
Notation NodeSystemInfo := NodeSystemInfo.t.

Module NodeDetail.
Record t : Type := mk {
  Node : Node;
  UID : string;
  ResourceVersion : string;
  Labels : gmap string string;
  Taints : list NodeTaint;
  Addresses : list NodeAddress;
  Conditions : list NodeCondition;
  SystemInfo : NodeSystemInfo;
}.
End NodeDetail.
Notation NodeDetail := NodeDetail.t.

Module KubernetesConfigMap.
Record t : Type := mk { Namespace : string; Name : string; DataCount : Z; CreatedAt : time }.
End KubernetesConfigMap.
Notation KubernetesConfigMap := KubernetesConfigMap.t.

Module KubernetesSecret.
Record t : Type := mk {
  Namespace : string;
  Name : string;
  Type_ : string;
  DataCount : Z;
  CreatedAt : time;
}.
End KubernetesSecret.
Notation KubernetesSecret := KubernetesSecret.t.

Module Workload.
Record t : Type := mk {
  Kind : string;
  Namespace : string;
  Name : string;
  Ready : Z;
  Desired : Z;
  Status : string;
  Images : list string;
  CreatedAt : time;
}.
End Workload.
Notation Workload := Workload.t.

Module WorkloadContainer.
Record t : Type := mk {
  Name : string;
  Image : string;
  Type_ : string;
  Ready : bool;
  RestartCount : Z;
  State : string;
}.
End WorkloadContainer.
Notation WorkloadContainer := WorkloadContainer.t.

Module WorkloadCondition.
Record t : Type := mk {
  Type_ : string;
  Status : string;
  Reason : string;
  Message : string;
  LastTransitionTime : time;
}.
End WorkloadCondition.
Notation WorkloadCondition := WorkloadCondition.t.

Module WorkloadDetail.
Record t : Type := mk {
  Workload : Workload;
  UID : string;
  ResourceVersion : string;
  Labels : gmap string string;
  Containers : list WorkloadContainer;
  Conditions : list WorkloadCondition;
  YAML : string;
}.
End WorkloadDetail.
Notation WorkloadDetail := WorkloadDetail.t.

Module KubernetesEvent.
Record t : Type := mk {
  Namespace : string;
  Name : string;
  Type_ : string;
  Reason : string;
  Message : string;
  MessageTruncated : bool;
  Source : string;
  ObjectKind : string;
  ObjectName : string;
  Count : Z;
  FirstSeen : time;
  LastSeen : time;
  CreatedAt : time;
}.
End KubernetesEvent.
Notation KubernetesEvent := KubernetesEvent.t.

Module PodLogs.
Record t : Type := mk {
  Namespace : string;
  Pod : string;
  Container : string;
  TailLines : Z;
  Previous : bool;
  Timestamps : bool;
  Truncated : bool;
  Content : string;
}.
End PodLogs.
Notation PodLogs := PodLogs.t.

Module HelmReleaseRevision.
Record t : Type := mk { Revision : Z; Status : string; CreatedAt : time }.
End HelmReleaseRevision.
Notation HelmReleaseRevision := HelmReleaseRevision.t.

Module HelmReleaseHistory.
Record t : Type := mk {
  Name : string;
  Namespace : string;
  Revisions : list HelmReleaseRevision;
  Truncated : bool;
}.
End HelmReleaseHistory.
Notation HelmReleaseHistory := HelmReleaseHistory.t.

