(* ===== verification/Inventory.v ===== *)
(** * The inventory of a cluster (src/internal/domain/models.go)

    What the panel shows of services, storage, policies, admission and access: the
    records of domain/models.go, field by field, with the names of the code ([Type] is
    [Type_], an embedded struct is a field of its name). *)

From S2P Require Export Models.

Local Open Scope Z_scope.

Definition MaxNetworkAddresses : Z := 32.
Definition MaxServicePorts : Z := 64.
Definition MaxIngressHosts : Z := 32.

Module ServicePort.
Record t : Type := mk {
  Name : string;
  Protocol : string;
  Port : Z;
  TargetPort : string;
  NodePort : Z;
}.
End ServicePort.
Notation ServicePort := ServicePort.t.

Module KubernetesService.
Record t : Type := mk {
  Namespace : string;
  Name : string;
  Type_ : string;
  ClusterIP : string;
  ExternalName : string;
  ExternalAddresses : list string;
  AddressCount : Z;
  Ports : list ServicePort;
  PortCount : Z;
  CreatedAt : time;
}.
End KubernetesService.
Notation KubernetesService := KubernetesService.t.

Module KubernetesIngress.
Record t : Type := mk {
  Namespace : string;
  Name : string;
  ClassName : string;
  Hosts : list string;
  HostCount : Z;
  Addresses : list string;
  AddressCount : Z;
  TLS : bool;
  RuleCount : Z;
  PathCount : Z;
  CreatedAt : time;
}.
End KubernetesIngress.
Notation KubernetesIngress := KubernetesIngress.t.

Module KubernetesEndpointSlice.
Record t : Type := mk {
  Namespace : string;
  Name : string;
  ServiceName : string;
  AddressType : string;
  EndpointCount : Z;
  ReadyEndpointCount : Z;
  ReadyDefaultedCount : Z;
  ServingEndpointCount : Z;
  ServingDefaultedCount : Z;
  TerminatingEndpointCount : Z;
  TerminatingDefaultedCount : Z;
  PortCount : Z;
  CreatedAt : time;
}.
End KubernetesEndpointSlice.
Notation KubernetesEndpointSlice := KubernetesEndpointSlice.t.

Notation KubernetesSelectorMode := string (only parsing).
Definition KubernetesSelectorNone : KubernetesSelectorMode := "none".
Definition KubernetesSelectorAll : KubernetesSelectorMode := "all".
Definition KubernetesSelectorFiltered : KubernetesSelectorMode := "filtered".

Module KubernetesNetworkPolicy.
Record t : Type := mk {
  Namespace : string;
  Name : string;
  PodSelectorMode : KubernetesSelectorMode;
  PodSelectorLabelCount : Z;
  PodSelectorExpressionCount : Z;
  PolicyTypes : list string;
  PolicyTypesDefaulted : bool;
  IngressRuleCount : Z;
  IngressPeerCount : Z;
  IngressPortCount : Z;
  EgressRuleCount : Z;
  EgressPeerCount : Z;
  EgressPortCount : Z;
  CreatedAt : time;
}.
End KubernetesNetworkPolicy.
Notation KubernetesNetworkPolicy := KubernetesNetworkPolicy.t.

Module KubernetesPersistentVolumeClaim.
Record t : Type := mk {
  Namespace : string;
  Name : string;
  Status : string;
  Volume : string;
  Capacity : string;
  AccessModes : string;
  StorageClass : string;
  VolumeMode : string;
  CreatedAt : time;
}.
End KubernetesPersistentVolumeClaim.
Notation KubernetesPersistentVolumeClaim := KubernetesPersistentVolumeClaim.t.

Module KubernetesPersistentVolume.
Record t : Type := mk {
  Name : string;
  Status : string;
  Claim : string;
  Capacity : string;
  AccessModes : string;
  StorageClass : string;
  ReclaimPolicy : string;
  VolumeMode : string;
  CreatedAt : time;
}.
End KubernetesPersistentVolume.
Notation KubernetesPersistentVolume := KubernetesPersistentVolume.t.

Module KubernetesStorageClass.
Record t : Type := mk {
  Name : string;
  Provisioner : string;
  ReclaimPolicy : string;
  VolumeBindingMode : string;
  AllowVolumeExpansion : bool;
  Default : bool;
  CreatedAt : time;
}.
End KubernetesStorageClass.
Notation KubernetesStorageClass := KubernetesStorageClass.t.

Notation KubernetesVolumeAttachmentStatus := string (only parsing).
Definition VolumeAttachmentAttached : KubernetesVolumeAttachmentStatus := "attached".
Definition VolumeAttachmentAttaching : KubernetesVolumeAttachmentStatus := "attaching".
Definition VolumeAttachmentDetaching : KubernetesVolumeAttachmentStatus := "detaching".

Module KubernetesVolumeAttachment.
Record t : Type := mk {
  Name : string;
  Attacher : string;
  PersistentVolume : string;
  Node : string;
  Status : KubernetesVolumeAttachmentStatus;
  CreatedAt : time;
}.
End KubernetesVolumeAttachment.
Notation KubernetesVolumeAttachment := KubernetesVolumeAttachment.t.

Module KubernetesCSIStorageCapacity.
Record t : Type := mk {
  Namespace : string;
  Name : string;
  StorageClass : string;
  Capacity : string;
  CreatedAt : time;
}.
End KubernetesCSIStorageCapacity.
Notation KubernetesCSIStorageCapacity := KubernetesCSIStorageCapacity.t.

Module KubernetesVolumeAttributesClass.
Record t : Type := mk { Name : string; DriverName : string; CreatedAt : time }.
End KubernetesVolumeAttributesClass.
Notation KubernetesVolumeAttributesClass := KubernetesVolumeAttributesClass.t.

Module KubernetesCSIDriver.
Record t : Type := mk { Name : string; CreatedAt : time }.
End KubernetesCSIDriver.
Notation KubernetesCSIDriver := KubernetesCSIDriver.t.

Notation KubernetesCSIFSGroupPolicy := string (only parsing).
Definition CSIFSGroupPolicyReadWriteOnceWithFSType : KubernetesCSIFSGroupPolicy := "ReadWriteOnceWithFSType".
Definition CSIFSGroupPolicyFile : KubernetesCSIFSGroupPolicy := "File".
Definition CSIFSGroupPolicyNone : KubernetesCSIFSGroupPolicy := "None".

Notation KubernetesCSIVolumeLifecycleMode := string (only parsing).
Definition CSIVolumeLifecyclePersistent : KubernetesCSIVolumeLifecycleMode := "Persistent".
Definition CSIVolumeLifecycleEphemeral : KubernetesCSIVolumeLifecycleMode := "Ephemeral".

Module KubernetesCSIDriverDetail.
Record t : Type := mk {
  KubernetesCSIDriver : KubernetesCSIDriver;
  AttachRequired : bool;
  PodInfoOnMount : bool;
  StorageCapacity : bool;
  RequiresRepublish : bool;
  SELinuxMount : bool;
  FSGroupPolicy : KubernetesCSIFSGroupPolicy;
  VolumeLifecycleModes : list KubernetesCSIVolumeLifecycleMode;
  TokenRequestCount : Z;
}.
End KubernetesCSIDriverDetail.
Notation KubernetesCSIDriverDetail := KubernetesCSIDriverDetail.t.

Module KubernetesCSINode.
Record t : Type := mk { Name : string; DriverCount : Z; CreatedAt : time }.
End KubernetesCSINode.
Notation KubernetesCSINode := KubernetesCSINode.t.

Module KubernetesCSINodeDriver.
Record t : Type := mk { Name : string; AllocatableCount : option Z; TopologyKeyCount : Z }.
End KubernetesCSINodeDriver.
Notation KubernetesCSINodeDriver := KubernetesCSINodeDriver.t.

Module KubernetesCSINodeDetail.
Record t : Type := mk {
  KubernetesCSINode : KubernetesCSINode;
  Drivers : list KubernetesCSINodeDriver;
}.
End KubernetesCSINodeDetail.
Notation KubernetesCSINodeDetail := KubernetesCSINodeDetail.t.

Module KubernetesQuotaResource.
Record t : Type := mk { Name : string; Hard : string; Used : string; Observed : bool }.
End KubernetesQuotaResource.
Notation KubernetesQuotaResource := KubernetesQuotaResource.t.

Module KubernetesResourceQuota.
Record t : Type := mk {
  Namespace : string;
  Name : string;
  Scopes : list string;
  ScopeCount : Z;
  ScopesTruncated : bool;
  ScopeSelectorCount : Z;
  Resources : list KubernetesQuotaResource;
  ResourceCount : Z;
  ResourcesTruncated : bool;
  CreatedAt : time;
}.
End KubernetesResourceQuota.
Notation KubernetesResourceQuota := KubernetesResourceQuota.t.

Module KubernetesLimitRangeConstraint.
Record t : Type := mk {
  Type_ : string;
  Resource : string;
  DefaultRequest : string;
  Default : string;
  Min : string;
  Max : string;
  MaxLimitRequestRatio : string;
}.
End KubernetesLimitRangeConstraint.
Notation KubernetesLimitRangeConstraint := KubernetesLimitRangeConstraint.t.

Module KubernetesLimitRange.
Record t : Type := mk {
  Namespace : string;
  Name : string;
  Constraints : list KubernetesLimitRangeConstraint;
  ConstraintCount : Z;
  ConstraintsTruncated : bool;
  CreatedAt : time;
}.
End KubernetesLimitRange.
Notation KubernetesLimitRange := KubernetesLimitRange.t.

Module KubernetesPolicyCondition.
Record t : Type := mk { Type_ : string; Status : string; Reason : string }.
End KubernetesPolicyCondition.
Notation KubernetesPolicyCondition := KubernetesPolicyCondition.t.

Module KubernetesHorizontalPodAutoscaler.
Record t : Type := mk {
  Namespace : string;
  Name : string;
  TargetAPIVersion : string;
  TargetKind : string;
  TargetName : string;
  MinReplicas : Z;
  MinReplicasDefaulted : bool;
  MaxReplicas : Z;
  CurrentReplicas : Z;
  DesiredReplicas : Z;
  MetricCount : Z;
  CurrentMetricCount : Z;
  Observed : bool;
  Conditions : list KubernetesPolicyCondition;
  ConditionCount : Z;
  ConditionsTruncated : bool;
  LastScaleTime : option time;
  CreatedAt : time;
}.
End KubernetesHorizontalPodAutoscaler.
Notation KubernetesHorizontalPodAutoscaler := KubernetesHorizontalPodAutoscaler.t.

Notation KubernetesDisruptionBudgetStatus := string (only parsing).
Definition DisruptionBudgetAvailable : KubernetesDisruptionBudgetStatus := "available".
Definition DisruptionBudgetBlocked : KubernetesDisruptionBudgetStatus := "blocked".
Definition DisruptionBudgetInactive : KubernetesDisruptionBudgetStatus := "inactive".
Definition DisruptionBudgetUnobserved : KubernetesDisruptionBudgetStatus := "unobserved".

Module KubernetesPodDisruptionBudget.
Record t : Type := mk {
  Namespace : string;
  Name : string;
  SelectorMode : KubernetesSelectorMode;
  SelectorLabelCount : Z;
  SelectorExpressionCount : Z;
  MinAvailable : string;
  MaxUnavailable : string;
  CurrentHealthy : Z;
  DesiredHealthy : Z;
  DisruptionsAllowed : Z;
  ExpectedPods : Z;
  Observed : bool;
  DisruptionStatus : KubernetesDisruptionBudgetStatus;
  UnhealthyPodEvictionPolicy : string;
  UnhealthyPodEvictionPolicyDefaulted : bool;
  Conditions : list KubernetesPolicyCondition;
  ConditionCount : Z;
  ConditionsTruncated : bool;
  CreatedAt : time;
}.
End KubernetesPodDisruptionBudget.
Notation KubernetesPodDisruptionBudget := KubernetesPodDisruptionBudget.t.

Module KubernetesCustomResourceDefinition.
Record t : Type := mk { Name : string; Resource : string; Group : string; CreatedAt : time }.
End KubernetesCustomResourceDefinition.
Notation KubernetesCustomResourceDefinition := KubernetesCustomResourceDefinition.t.

Module KubernetesCertificateSigningRequest.
Record t : Type := mk { Name : string; CreatedAt : time }.
End KubernetesCertificateSigningRequest.
Notation KubernetesCertificateSigningRequest := KubernetesCertificateSigningRequest.t.

Notation KubernetesCertificateSigningRequestState := string (only parsing).
Definition CertificateSigningRequestPending : KubernetesCertificateSigningRequestState := "pending".
Definition CertificateSigningRequestApproved : KubernetesCertificateSigningRequestState := "approved".
Definition CertificateSigningRequestDenied : KubernetesCertificateSigningRequestState := "denied".
Definition CertificateSigningRequestFailed : KubernetesCertificateSigningRequestState := "failed".
Definition CertificateSigningRequestIssued : KubernetesCertificateSigningRequestState := "issued".

Module KubernetesCertificateSigningRequestCondition.
Record t : Type := mk {
  Type_ : string;
  Status : string;
  Reason : string;
  LastUpdateTime : option time;
  LastTransitionTime : option time;
}.
End KubernetesCertificateSigningRequestCondition.
Notation KubernetesCertificateSigningRequestCondition :=
  KubernetesCertificateSigningRequestCondition.t.

Module KubernetesCertificateSigningRequestDetail.
Record t : Type := mk {
  KubernetesCertificateSigningRequest : KubernetesCertificateSigningRequest;
  Requester : string;
  SignerName : string;
  RequestedExpirationSeconds : option Z;
  Usages : list string;
  State : KubernetesCertificateSigningRequestState;
  CertificateIssued : bool;
  Conditions : list KubernetesCertificateSigningRequestCondition;
  ConditionCount : Z;
}.
End KubernetesCertificateSigningRequestDetail.
Notation KubernetesCertificateSigningRequestDetail := KubernetesCertificateSigningRequestDetail.t.

Module KubernetesPriorityClass.
Record t : Type := mk { Name : string; CreatedAt : time }.
End KubernetesPriorityClass.
Notation KubernetesPriorityClass := KubernetesPriorityClass.t.

Notation KubernetesPriorityClassPreemptionPolicy := string (only parsing).
Definition PriorityClassPreemptNever : KubernetesPriorityClassPreemptionPolicy := "Never".
Definition PriorityClassPreemptLower : KubernetesPriorityClassPreemptionPolicy := "PreemptLowerPriority".

Module KubernetesPriorityClassDetail.
Record t : Type := mk {
  KubernetesPriorityClass : KubernetesPriorityClass;
  Value : Z;
  GlobalDefault : bool;
  PreemptionPolicy : KubernetesPriorityClassPreemptionPolicy;
  PreemptionPolicyDefaulted : bool;
}.
End KubernetesPriorityClassDetail.
Notation KubernetesPriorityClassDetail := KubernetesPriorityClassDetail.t.

Module KubernetesRuntimeClass.
Record t : Type := mk { Name : string; CreatedAt : time }.
End KubernetesRuntimeClass.
Notation KubernetesRuntimeClass := KubernetesRuntimeClass.t.

Module KubernetesRuntimeClassDetail.
Record t : Type := mk {
  KubernetesRuntimeClass : KubernetesRuntimeClass;
  Handler : string;
  OverheadConfigured : bool;
  PodOverheadCPU : option string;
  PodOverheadMemory : option string;
  OverheadResourceCount : Z;
  SchedulingConfigured : bool;
  NodeSelectorCount : Z;
  TolerationCount : Z;
}.
End KubernetesRuntimeClassDetail.
Notation KubernetesRuntimeClassDetail := KubernetesRuntimeClassDetail.t.

Module KubernetesAPIService.
Record t : Type := mk {
  Name : string;
  Group : string;
  Version : string;
  Local : bool;
  ServiceNamespace : string;
  ServiceName : string;
  ServicePort : Z;
  ServicePortDefaulted : bool;
  AvailabilityObserved : bool;
  AvailabilityStatus : string;
  AvailabilityReason : string;
  AvailabilityTransitionTime : option time;
  ConditionCount : Z;
  InsecureSkipTLSVerify : bool;
  GroupPriorityMinimum : Z;
  VersionPriority : Z;
  CreatedAt : time;
}.
End KubernetesAPIService.
Notation KubernetesAPIService := KubernetesAPIService.t.

Module KubernetesAdmissionWebhookConfiguration.
Record t : Type := mk {
  Kind : KubernetesAdmissionWebhookConfigurationKind;
  Name : string;
  CreatedAt : time;
}.
End KubernetesAdmissionWebhookConfiguration.
Notation KubernetesAdmissionWebhookConfiguration := KubernetesAdmissionWebhookConfiguration.t.

Module KubernetesAdmissionWebhook.
Record t : Type := mk {
  Name : string;
  TargetType : string;
  ServiceNamespace : string;
  ServiceName : string;
  ServicePort : Z;
  ServicePortDefaulted : bool;
  CABundleConfigured : bool;
  FailurePolicy : string;
  FailurePolicyDefaulted : bool;
  MatchPolicy : string;
  MatchPolicyDefaulted : bool;
  SideEffects : string;
  TimeoutSeconds : Z;
  TimeoutSecondsDefaulted : bool;
  ReinvocationPolicy : string;
  ReinvocationPolicyDefaulted : bool;
  AdmissionReviewVersions : list string;
  RuleCount : Z;
  OperationCount : Z;
  APIGroupCount : Z;
  APIVersionCount : Z;
  ResourceCount : Z;
  NamespaceSelectorLabelCount : Z;
  NamespaceSelectorExpressionCount : Z;
  ObjectSelectorLabelCount : Z;
  ObjectSelectorExpressionCount : Z;
  MatchConditionCount : Z;
}.
End KubernetesAdmissionWebhook.
Notation KubernetesAdmissionWebhook := KubernetesAdmissionWebhook.t.

Module KubernetesAdmissionWebhookConfigurationDetail.
Record t : Type := mk {
  KubernetesAdmissionWebhookConfiguration : KubernetesAdmissionWebhookConfiguration;
  Generation : Z;
  Webhooks : list KubernetesAdmissionWebhook;
  WebhookCount : Z;
}.
End KubernetesAdmissionWebhookConfigurationDetail.
Notation KubernetesAdmissionWebhookConfigurationDetail :=
  KubernetesAdmissionWebhookConfigurationDetail.t.

Notation KubernetesAdmissionPolicyResourceKind := string (only parsing).
Definition AdmissionPolicyResourcePolicy : KubernetesAdmissionPolicyResourceKind := "policy".
Definition AdmissionPolicyResourceBinding : KubernetesAdmissionPolicyResourceKind := "binding".

Module KubernetesAdmissionPolicyResource.
Record t : Type := mk {
  Kind : KubernetesAdmissionPolicyResourceKind;
  Name : string;
  CreatedAt : time;
}.
End KubernetesAdmissionPolicyResource.
Notation KubernetesAdmissionPolicyResource := KubernetesAdmissionPolicyResource.t.

Module KubernetesAdmissionMatchSummary.
Record t : Type := mk {
  Configured : bool;
  MatchPolicy : string;
  MatchPolicyDefaulted : bool;
  ResourceRuleCount : Z;
  ExcludeResourceRuleCount : Z;
  OperationCount : Z;
  APIGroupCount : Z;
  APIVersionCount : Z;
  ResourceCount : Z;
  NamespaceSelectorLabelCount : Z;
  NamespaceSelectorExpressionCount : Z;
  ObjectSelectorLabelCount : Z;
  ObjectSelectorExpressionCount : Z;
}.
End KubernetesAdmissionMatchSummary.
Notation KubernetesAdmissionMatchSummary := KubernetesAdmissionMatchSummary.t.

Module KubernetesValidatingAdmissionPolicyDetail.
Record t : Type := mk {
  KubernetesAdmissionPolicyResource : KubernetesAdmissionPolicyResource;
  Generation : Z;
  FailurePolicy : string;
  FailurePolicyDefaulted : bool;
  ParamKindConfigured : bool;
  ParamAPIVersion : string;
  ParamKind : string;
  Match : KubernetesAdmissionMatchSummary;
  ValidationCount : Z;
  AuditAnnotationCount : Z;
  MatchConditionCount : Z;
  VariableCount : Z;
  ObservedGeneration : Z;
  TypeCheckingObserved : bool;
  ExpressionWarningCount : Z;
  ConditionCount : Z;
}.
End KubernetesValidatingAdmissionPolicyDetail.
Notation KubernetesValidatingAdmissionPolicyDetail := KubernetesValidatingAdmissionPolicyDetail.t.

Module KubernetesValidatingAdmissionPolicyBindingDetail.
Record t : Type := mk {
  KubernetesAdmissionPolicyResource : KubernetesAdmissionPolicyResource;
  Generation : Z;
  PolicyName : string;
  ValidationActions : list string;
  ParamRefConfigured : bool;
  ParamRefMode : string;
  ParamNamespace : string;
  ParameterNotFoundAction : string;
  ParamSelectorLabelCount : Z;
  ParamSelectorExpressionCount : Z;
  Match : KubernetesAdmissionMatchSummary;
}.
End KubernetesValidatingAdmissionPolicyBindingDetail.
Notation KubernetesValidatingAdmissionPolicyBindingDetail :=
  KubernetesValidatingAdmissionPolicyBindingDetail.t.

Module KubernetesCustomResourceDefinitionVersion.
Record t : Type := mk { Name : string; Served : bool; Storage : bool; Deprecated : bool }.
End KubernetesCustomResourceDefinitionVersion.
Notation KubernetesCustomResourceDefinitionVersion := KubernetesCustomResourceDefinitionVersion.t.

Module KubernetesCustomResourceDefinitionCondition.
Record t : Type := mk {
  Type_ : string;
  Status : string;
  Reason : string;
  ObservedGeneration : Z;
  LastTransitionTime : time;
}.
End KubernetesCustomResourceDefinitionCondition.
Notation KubernetesCustomResourceDefinitionCondition :=
  KubernetesCustomResourceDefinitionCondition.t.

Module KubernetesCustomResourceDefinitionDetail.
Record t : Type := mk {
  KubernetesCustomResourceDefinition : KubernetesCustomResourceDefinition;
  Scope : string;
  Singular : string;
  Kind : string;
  ListKind : string;
  ShortNames : list string;
  ShortNameCount : Z;
  ShortNamesTruncated : bool;
  Categories : list string;
  CategoryCount : Z;
  CategoriesTruncated : bool;
  Versions : list KubernetesCustomResourceDefinitionVersion;
  VersionCount : Z;
  VersionsTruncated : bool;
  StoredVersions : list string;
  StoredVersionCount : Z;
  StoredVersionsTruncated : bool;
  ConversionStrategy : string;
  ConversionStrategyDefaulted : bool;
  Generation : Z;
  ObservedGeneration : Z;
  Conditions : list KubernetesCustomResourceDefinitionCondition;
  ConditionCount : Z;
  ConditionsTruncated : bool;
}.
End KubernetesCustomResourceDefinitionDetail.
Notation KubernetesCustomResourceDefinitionDetail := KubernetesCustomResourceDefinitionDetail.t.

Module KubernetesAccessResource.
Record t : Type := mk { Kind : string; Namespace : string; Name : string; CreatedAt : time }.
End KubernetesAccessResource.
Notation KubernetesAccessResource := KubernetesAccessResource.t.

Module KubernetesRoleRule.
Record t : Type := mk {
  APIGroups : list string;
  Resources : list string;
  ResourceNames : list string;
  Verbs : list string;
  NonResourceURLs : list string;
}.
End KubernetesRoleRule.
Notation KubernetesRoleRule := KubernetesRoleRule.t.

Module KubernetesRoleReference.
Record t : Type := mk { Kind : string; Name : string }.
End KubernetesRoleReference.
Notation KubernetesRoleReference := KubernetesRoleReference.t.

Module KubernetesAccessSubject.
Record t : Type := mk { Kind : string; Namespace : string; Name : string }.
End KubernetesAccessSubject.
Notation KubernetesAccessSubject := KubernetesAccessSubject.t.

Module KubernetesAccessResourceDetail.
Record t : Type := mk {
  KubernetesAccessResource : KubernetesAccessResource;
  RoleRef : option KubernetesRoleReference;
  Rules : list KubernetesRoleRule;
  RuleCount : Z;
  RulesTruncated : bool;
  Subjects : list KubernetesAccessSubject;
  SubjectCount : Z;
  SubjectsTruncated : bool;
  AutomountServiceAccountToken : option bool;
  SecretCount : Z;
  ImagePullSecretCount : Z;
}.
End KubernetesAccessResourceDetail.
Notation KubernetesAccessResourceDetail := KubernetesAccessResourceDetail.t.

Module DeploymentRevision.
Record t : Type := mk { Revision : Z; ReplicaSet : string; CreatedAt : time; Current : bool }.
End DeploymentRevision.
Notation DeploymentRevision := DeploymentRevision.t.

Module DeploymentRevisionHistory.
Record t : Type := mk {
  Namespace : string;
  Name : string;
  CurrentRevision : Z;
  UnassignedReplicaSetCount : Z;
  Revisions : list DeploymentRevision;
  Truncated : bool;
}.
End DeploymentRevisionHistory.
Notation DeploymentRevisionHistory := DeploymentRevisionHistory.t.
