(* ===== verification/Validation.v ===== *)
(** * Input validation (src/internal/domain/validation.go)

    Every exported validator and its helpers.  A validator returns [Ok tt] or
    the first error of the source, in the source's order.  The URL parser of
    package net/url enters as the class [URLParser]. *)

From S2P Require Export Domain.
From S2P Require Import Regex GoNum.

Local Open Scope Z_scope.
Local Open Scope stdpp_scope.

(** ** Patterns *)

Definition alnum : list (ascii * ascii) :=
  [("A", "Z"); ("a", "z"); ("0", "9")]%char.
Definition lower_alnum : list (ascii * ascii) := [("a", "z"); ("0", "9")]%char.

(** [^[A-Za-z0-9][A-Za-z0-9._-]{0,63}$] *)
Definition resourceNamePattern : re :=
  Cat (Class alnum) (Upto 63 (Class (alnum ++ [(".", "."); ("_", "_"); ("-", "-")]%char))).

(** [^[a-z0-9]([-a-z0-9]*[a-z0-9])?$] *)
Definition dnsLabelPattern : re :=
  Cat (Class lower_alnum)
    (Opt (Cat (Star (Class (("-", "-")%char :: lower_alnum))) (Class lower_alnum))).

(** [^[a-z0-9]([-a-z0-9.]*[a-z0-9])?$] *)
Definition dnsSubdomainPattern : re :=
  Cat (Class lower_alnum)
    (Opt (Cat (Star (Class (("-", "-")%char :: lower_alnum ++ [(".", ".")]%char)))
      (Class lower_alnum))).

(** [^[A-Za-z0-9][A-Za-z0-9._/-]{0,127}$] *)
Definition chartNamePattern : re :=
  Cat (Class alnum)
    (Upto 127 (Class (alnum ++ [(".", "."); ("_", "_"); ("/", "/"); ("-", "-")]%char))).

Definition MaxHelmValuesBytes : Z := 256 * 1024.

(** ** net/url *)

Module URL.
Record t : Type := mk {
  Scheme : string;
  HasUser : bool;
  Host : string;
  Path : string;
  RawQuery : string;
  Fragment : string;
}.
End URL.

(** [url.ParseRequestURI] and [url.Parse]: [None] when the parser reports an error. *)
Class URLParser := {
  ParseRequestURI : string → option URL.t;
  ParseURL : string → option URL.t;
}.

(** ** Kubernetes names *)

Definition validDNSLabel (value : string) : bool :=
  (0 <? len value) && (len value <=? 63) && MatchString dnsLabelPattern value.

Definition validDNSSubdomain (value : string) : bool :=
  if (len value =? 0) || (253 <? len value) || negb (MatchString dnsSubdomainPattern value)
  then false
  else forallb validDNSLabel (Split value ".").

Definition validRBACResourceName (value : string) : bool :=
  negb (bool_decide (value = "")) && (len value <=? 253) && negb (bool_decide (value = ".")) &&
  negb (bool_decide (value = "..")) && bool_decide (value = TrimSpace value) &&
  negb (ContainsAny value "/%") && negb (has_rune IsControl value).

Definition validWorkloadKind (kind : string) : bool :=
  bool_decide (kind ∈ ["deployment"; "statefulset"; "daemonset"; "job"; "cronjob"; "pod"]).

Definition validAccessReviewVerb (value : string) : bool :=
  bool_decide (value ∈
    ["get"; "list"; "watch"; "create"; "update"; "patch"; "delete"; "deletecollection";
     "proxy"; "use"; "bind"; "escalate"; "impersonate"; "approve"; "sign"]).

Definition space_or_control (r : Z) : bool := IsSpace r || IsControl r.

Definition validateClusterCredentials (caCert bearerToken : string) : result unit :=
  reject_if (bool_decide (bearerToken = "") || (MaxClusterBearerTokenBytes <? len bearerToken) ||
             negb (bool_decide (bearerToken = TrimSpace bearerToken)) ||
             has_rune space_or_control bearerToken)
    (Invalid "bearer_token" "must be non-empty, no longer than 64 KiB and contain no whitespace or control characters") ;;
  reject_if (MaxClusterCACertBytes <? len caCert) (Invalid "ca_cert" "must not exceed 256 KiB").

Definition ValidateClusterCredentialRotationInput
    (input : ClusterCredentialRotationInput) : result unit :=
  validateClusterCredentials input.(ClusterCredentialRotationInput.CACert)
    input.(ClusterCredentialRotationInput.BearerToken) ;;
  reject_if (negb (MatchString resourceNamePattern
                     input.(ClusterCredentialRotationInput.Confirmation)))
    (Invalid "confirmation" "must be a valid cluster name").

Definition validateContainerImage (field image : string) : result unit :=
  reject_if (bool_decide (image = "") || (MaxContainerImageBytes <? len image) ||
             negb (bool_decide (image = TrimSpace image)) || has_rune space_or_control image)
    (Invalid field "must be a non-empty image reference no longer than 1024 bytes without whitespace").

Definition ValidateNamespace (namespace : string) : result unit :=
  reject_if (negb (validDNSLabel namespace))
    (Invalid "namespace" "must be a valid Kubernetes namespace").

Definition ValidateHelmReleaseReference (namespace releaseName : string) : result unit :=
  reject_if (negb (validDNSLabel namespace))
    (Invalid "namespace" "must be a valid Kubernetes namespace") ;;
  reject_if (negb (validDNSLabel releaseName))
    (Invalid "release_name" "must be a valid Helm release name").

(** ** URLs, clusters and repositories *)

Section url.
Context `{URLParser}.

Definition validateHTTPSURL (raw : string) (allowPath : bool) : result URL.t :=
  match ParseRequestURI (TrimSpace raw) with
  | None => Err (NewError "parse error")
  | Some parsed =>
      reject_if (negb (bool_decide (parsed.(URL.Scheme) = "https")) ||
                 bool_decide (parsed.(URL.Host) = "") || parsed.(URL.HasUser) ||
                 negb (bool_decide (parsed.(URL.RawQuery) = "")) ||
                 negb (bool_decide (parsed.(URL.Fragment) = "")))
        (Invalid "url" "invalid HTTPS URL") ;;
      reject_if (negb allowPath && negb (bool_decide (parsed.(URL.Path) = "")) &&
                 negb (bool_decide (parsed.(URL.Path) = "/")))
        (Invalid "url" "path is not allowed") ;;
      Ok parsed
  end.

Definition ValidateClusterInput (input : ClusterInput) : result unit :=
  reject_if (negb (MatchString resourceNamePattern input.(ClusterInput.Name)))
    (Invalid "name" "must be 1-64 letters, numbers, dots, underscores or hyphens") ;;
  reject_if (negb (bool_decide (input.(ClusterInput.Environment) = EnvironmentDevelopment)) &&
             negb (bool_decide (input.(ClusterInput.Environment) = EnvironmentStaging)) &&
             negb (bool_decide (input.(ClusterInput.Environment) = EnvironmentProduction)))
    (Invalid "environment" "must be development, staging or production") ;;
  match validateHTTPSURL input.(ClusterInput.Server) false with
  | Ok parsed =>
      reject_if (negb (bool_decide (parsed.(URL.Path) = "")) &&
                 negb (bool_decide (parsed.(URL.Path) = "/")))
        (Invalid "server" "must be an HTTPS origin without credentials, path, query or fragment")
  | Err _ =>
      Err (Invalid "server" "must be an HTTPS origin without credentials, path, query or fragment")
  end ;;
  validateClusterCredentials input.(ClusterInput.CACert) input.(ClusterInput.BearerToken).

Definition ValidateRepositoryInput (input : RepositoryInput) : result unit :=
  reject_if (negb (MatchString resourceNamePattern input.(RepositoryInput.Name)))
    (Invalid "name" "must be 1-64 letters, numbers, dots, underscores or hyphens") ;;
  match validateHTTPSURL input.(RepositoryInput.URL) true with
  | Ok _ => Ok tt
  | Err _ => Err (Invalid "url" "must be an HTTPS URL without credentials, query or fragment")
  end ;;
  reject_if (negb (bool_decide (input.(RepositoryInput.Password) = "")) &&
             bool_decide (TrimSpace input.(RepositoryInput.Username) = ""))
    (Invalid "username" "is required when a password is configured").

Definition ValidateHelmOperationInput (input : HelmOperationInput) : result unit :=
  reject_if (bool_decide (TrimSpace input.(HelmOperationInput.ClusterID) = ""))
    (Invalid "cluster_id" "is required") ;;
  reject_if (negb (validDNSLabel input.(HelmOperationInput.Namespace)))
    (Invalid "namespace" "must be a valid Kubernetes namespace") ;;
  reject_if (negb (validDNSLabel input.(HelmOperationInput.ReleaseName)))
    (Invalid "release_name" "must be a valid Helm release name") ;;
  reject_if (MaxHelmValuesBytes <? len input.(HelmOperationInput.Values))
    (Invalid "values" "must not exceed 256 KiB") ;;
  let chart := TrimSpace input.(HelmOperationInput.Chart) in
  if HasPrefix chart "oci://" then
    match ParseURL chart with
    | Some parsed =>
        reject_if (bool_decide (parsed.(URL.Host) = "") || bool_decide (parsed.(URL.Path) = "") ||
                   parsed.(URL.HasUser) || negb (bool_decide (parsed.(URL.RawQuery) = "")) ||
                   negb (bool_decide (parsed.(URL.Fragment) = "")))
          (Invalid "chart" "must be a valid OCI chart reference")
    | None => Err (Invalid "chart" "must be a valid OCI chart reference")
    end
  else
    reject_if (bool_decide (input.(HelmOperationInput.RepositoryID) = "") ||
               negb (MatchString chartNamePattern chart) || Contains chart ".." ||
               HasPrefix chart "/" || Contains chart "\")
      (Invalid "chart" "must be an OCI reference or a safe chart name from a configured repository").
End url.

(** ** Workloads, access resources, events *)

Section workload.
Context `{UnicodeTables}.

Definition ValidateWorkloadReference (reference : WorkloadReference) : result unit :=
  let kind := ToLower (TrimSpace reference.(WorkloadReference.Kind)) in
  reject_if (negb (validWorkloadKind kind))
    (Invalid "kind" "must be deployment, statefulset, daemonset, job, cronjob or pod") ;;
  reject_if (negb (validDNSLabel reference.(WorkloadReference.Namespace)))
    (Invalid "namespace" "must be a valid Kubernetes namespace") ;;
  reject_if (negb (validDNSSubdomain reference.(WorkloadReference.Name)))
    (Invalid "name" "must be a valid Kubernetes resource name").

Definition not_deployment (reference : WorkloadReference) : bool :=
  negb (bool_decide (ToLower (TrimSpace reference.(WorkloadReference.Kind)) = "deployment")).

Definition ValidateDeploymentReference (reference : WorkloadReference) : result unit :=
  ValidateWorkloadReference reference ;;
  reject_if (not_deployment reference) (Invalid "kind" "must be deployment").

Definition ValidateWorkloadList (namespace kind : string) : result unit :=
  (if bool_decide (namespace = "") then Ok tt else ValidateNamespace namespace) ;;
  let kind := ToLower (TrimSpace kind) in
  reject_if (negb (bool_decide (kind = "")) && negb (validWorkloadKind kind))
    (Invalid "kind" "must be deployment, statefulset, daemonset, job, cronjob or pod").

(** The guard on a resource version, after trimming. *)
Definition bad_resource_version (resourceVersion : string) : bool :=
  let resourceVersion := TrimSpace resourceVersion in
  bool_decide (resourceVersion = "") || (256 <? len resourceVersion) ||
  has_rune IsControl resourceVersion.

Definition ValidateWorkloadOperationInput
    (kind : OperationKind) (input : WorkloadOperationInput) : result unit :=
  reject_if (negb (bool_decide (kind = OperationWorkloadScale)) &&
             negb (bool_decide (kind = OperationWorkloadRestart)))
    (Invalid "kind" "must be workload.scale or workload.restart") ;;
  reject_if (bool_decide (TrimSpace input.(WorkloadOperationInput.ClusterID) = ""))
    (Invalid "cluster_id" "is required") ;;
  ValidateWorkloadReference input.(WorkloadOperationInput.Reference) ;;
  reject_if (not_deployment input.(WorkloadOperationInput.Reference))
    (Invalid "kind" "only Deployment operations are supported") ;;
  reject_if (bad_resource_version input.(WorkloadOperationInput.ResourceVersion))
    (Invalid "resource_version" "must be a valid value no longer than 256 characters") ;;
  if bool_decide (kind = OperationWorkloadScale) then
    match input.(WorkloadOperationInput.Replicas) with
    | None => Err (Invalid "replicas" "is required")
    | Some replicas =>
        reject_if ((replicas <? 0) || (MaxWorkloadReplicas <? replicas))
          (Invalid "replicas" "must be between 0 and 1000")
    end
  else
    reject_if (bool_decide (is_Some input.(WorkloadOperationInput.Replicas)))
      (Invalid "replicas" "must not be provided for restart").

Definition ValidateWorkloadImageChange (change : WorkloadImageChange) : result unit :=
  ValidateWorkloadReference change.(WorkloadImageChange.Reference) ;;
  reject_if (not_deployment change.(WorkloadImageChange.Reference))
    (Invalid "kind" "only Deployment image updates are supported") ;;
  reject_if (bad_resource_version change.(WorkloadImageChange.ResourceVersion))
    (Invalid "resource_version" "must be a valid value no longer than 256 characters") ;;
  reject_if (negb (validDNSLabel change.(WorkloadImageChange.Container)))
    (Invalid "container" "must be a valid Kubernetes container name") ;;
  validateContainerImage "current_image" change.(WorkloadImageChange.CurrentImage) ;;
  validateContainerImage "image" change.(WorkloadImageChange.Image) ;;
  reject_if (bool_decide (change.(WorkloadImageChange.CurrentImage) =
                          change.(WorkloadImageChange.Image)))
    (Invalid "image" "must differ from the current image").

Definition ValidateWorkloadImageOperationInput
    (input : WorkloadImageOperationInput) : result unit :=
  reject_if (bool_decide (TrimSpace input.(WorkloadImageOperationInput.ClusterID) = ""))
    (Invalid "cluster_id" "is required") ;;
  ValidateWorkloadImageChange input.(WorkloadImageOperationInput.Change).

Definition ValidatePodLogRequest (input : PodLogRequest) : result unit :=
  ValidateWorkloadReference
    (WorkloadReference.mk "pod" input.(PodLogRequest.Namespace) input.(PodLogRequest.Pod)) ;;
  reject_if (negb (validDNSLabel input.(PodLogRequest.Container)))
    (Invalid "container" "must be a valid Kubernetes container name") ;;
  reject_if ((input.(PodLogRequest.TailLines) <? 1) ||
             (MaxPodLogTailLines <? input.(PodLogRequest.TailLines)))
    (Invalid "tail_lines" "must be between 1 and 2000").
End workload.

Definition ValidateOperationID (id : string) : result unit :=
  reject_if (negb (HasPrefix id "op_") || negb (MatchString resourceNamePattern id))
    (Invalid "operation_id" "must be a valid operation identifier").

Definition ValidateAccessResourceScope
    (kind : KubernetesAccessResourceKind) (namespace : string) : result unit :=
  if bool_decide (kind ∈ [AccessResourceServiceAccounts; AccessResourceRoles;
                          AccessResourceRoleBindings])
  then ValidateNamespace namespace
  else if bool_decide (kind ∈ [AccessResourceClusterRoles; AccessResourceClusterRoleBindings])
  then reject_if (negb (bool_decide (namespace = "")))
         (Invalid "namespace" "must be empty for a cluster-scoped access resource")
  else Err (Invalid "kind" "must be serviceaccounts, roles, rolebindings, clusterroles or clusterrolebindings").

Definition ValidateAccessResourceReference
    (reference : KubernetesAccessResourceReference) : result unit :=
  ValidateAccessResourceScope reference.(KubernetesAccessResourceReference.Kind)
    reference.(KubernetesAccessResourceReference.Namespace) ;;
  let name := reference.(KubernetesAccessResourceReference.Name) in
  let validName :=
    if bool_decide (reference.(KubernetesAccessResourceReference.Kind) =
                    AccessResourceServiceAccounts)
    then validDNSSubdomain name else validRBACResourceName name in
  reject_if (negb validName) (Invalid "name" "must be a valid Kubernetes resource name").

Definition ValidateServiceAccountAccessReviewInput
    (input : KubernetesServiceAccountAccessReviewInput) : result unit :=
  let account := input.(KubernetesServiceAccountAccessReviewInput.ServiceAccount) in
  let attributes := input.(KubernetesServiceAccountAccessReviewInput.ResourceAttributes) in
  reject_if (negb (validDNSLabel account.(KubernetesServiceAccountReference.Namespace)))
    (Invalid "service_account.namespace" "must be a valid Kubernetes namespace") ;;
  reject_if (negb (validDNSSubdomain account.(KubernetesServiceAccountReference.Name)))
    (Invalid "service_account.name" "must be a valid Kubernetes resource name") ;;
  reject_if (negb (bool_decide (attributes.(KubernetesResourceAttributes.Group) = "")) &&
             negb (validDNSSubdomain attributes.(KubernetesResourceAttributes.Group)))
    (Invalid "resource_attributes.group" "must be empty or a valid Kubernetes API group") ;;
  reject_if (negb (validDNSLabel attributes.(KubernetesResourceAttributes.Resource)))
    (Invalid "resource_attributes.resource" "must be a valid Kubernetes API resource") ;;
  reject_if (negb (bool_decide (attributes.(KubernetesResourceAttributes.Subresource) = "")) &&
             negb (validDNSLabel attributes.(KubernetesResourceAttributes.Subresource)))
    (Invalid "resource_attributes.subresource" "must be empty or a valid Kubernetes subresource") ;;
  reject_if (negb (validAccessReviewVerb attributes.(KubernetesResourceAttributes.Verb)))
    (Invalid "resource_attributes.verb" "must be an allowed Kubernetes resource verb") ;;
  reject_if (negb (bool_decide (attributes.(KubernetesResourceAttributes.Namespace) = "")) &&
             negb (validDNSLabel attributes.(KubernetesResourceAttributes.Namespace)))
    (Invalid "resource_attributes.namespace" "must be empty or a valid Kubernetes namespace") ;;
  reject_if (negb (bool_decide (attributes.(KubernetesResourceAttributes.Name) = "")) &&
             negb (validRBACResourceName attributes.(KubernetesResourceAttributes.Name)))
    (Invalid "resource_attributes.name" "must be empty or a safe Kubernetes resource name").

Definition ValidateKubernetesEventList (namespace eventType : string) (limit : Z) : result unit :=
  (if bool_decide (namespace = "") then Ok tt else ValidateNamespace namespace) ;;
  reject_if (negb (bool_decide (eventType = "")) && negb (bool_decide (eventType = "Normal")) &&
             negb (bool_decide (eventType = "Warning")))
    (Invalid "type" "must be Normal or Warning") ;;
  reject_if ((limit <? 1) || (MaxClusterEventLimit <? limit))
    (Invalid "limit" "must be between 1 and 500").

(** ** Names of single resources *)

Definition ValidateNodeName (name : string) : result unit :=
  reject_if (negb (validDNSSubdomain name)) (Invalid "name" "must be a valid Kubernetes node name").

Definition ValidateCertificateSigningRequestName (name : string) : result unit :=
  reject_if (negb (validDNSSubdomain name)) (Invalid "name" "must be a valid Kubernetes CertificateSigningRequest name").

Definition ValidatePriorityClassName (name : string) : result unit :=
  reject_if (negb (validDNSSubdomain name)) (Invalid "name" "must be a valid Kubernetes PriorityClass name").

Definition ValidateRuntimeClassName (name : string) : result unit :=
  reject_if (negb (validDNSSubdomain name)) (Invalid "name" "must be a valid Kubernetes RuntimeClass name").

Definition ValidateRuntimeClassHandler (handler : string) : result unit :=
  reject_if (negb (validDNSLabel handler)) (Invalid "handler" "must be a valid Kubernetes RuntimeClass handler").

Definition ValidateCSIDriverName (name : string) : result unit :=
  reject_if (negb (validDNSSubdomain name)) (Invalid "name" "must be a valid Kubernetes CSIDriver name").

Definition ValidateVolumeAttachmentName (name : string) : result unit :=
  reject_if (negb (validDNSSubdomain name)) (Invalid "name" "must be a valid Kubernetes VolumeAttachment name").

Definition ValidatePersistentVolumeName (name : string) : result unit :=
  reject_if (negb (validDNSSubdomain name)) (Invalid "name" "must be a valid Kubernetes PersistentVolume name").

Definition ValidateStorageClassName (name : string) : result unit :=
  reject_if (negb (validDNSSubdomain name)) (Invalid "name" "must be a valid Kubernetes StorageClass name").

Definition ValidateCSIStorageCapacityName (name : string) : result unit :=
  reject_if (negb (validDNSSubdomain name)) (Invalid "name" "must be a valid Kubernetes CSIStorageCapacity name").

Definition ValidateVolumeAttributesClassName (name : string) : result unit :=
  reject_if (negb (validDNSSubdomain name)) (Invalid "name" "must be a valid Kubernetes VolumeAttributesClass name").

Definition ValidateAdmissionWebhookConfigurationName (name : string) : result unit :=
  reject_if (negb (validDNSSubdomain name)) (Invalid "name" "must be a valid Kubernetes admission webhook configuration name").

Definition ValidateAdmissionPolicyResourceName (name : string) : result unit :=
  reject_if (negb (validDNSSubdomain name)) (Invalid "name" "must be a valid Kubernetes admission policy resource name").

Definition ValidateCustomResourceDefinitionName (name : string) : result unit :=
  let '(resource, group, found) := Cut name "." in
  reject_if (negb found || negb (validDNSSubdomain name) || negb (validDNSLabel resource) ||
             negb (validDNSSubdomain group))
    (Invalid "name" "must be a valid Kubernetes CustomResourceDefinition name").

Definition ValidateAPIServiceName (name : string) : result unit :=
  let '(version, group, found) := Cut name "." in
  reject_if (negb found || (253 <? len name) || negb (validDNSLabel version) ||
             (negb (bool_decide (group = "")) && negb (validDNSSubdomain group)))
    (Invalid "name" "must be a valid Kubernetes APIService name").

Definition ValidateAdmissionWebhookConfigurationKind
    (kind : KubernetesAdmissionWebhookConfigurationKind) : result unit :=
  reject_if (negb (bool_decide (kind = AdmissionWebhookConfigurationValidating)) &&
             negb (bool_decide (kind = AdmissionWebhookConfigurationMutating)))
    (Invalid "kind" "must be validating or mutating").

(** ** Languages of the patterns *)

(** [^a(b*a)?$] with [a ⊆ b]: the words over [b] that begin and end in [a]. *)
Lemma matches_delimited a b l :
  (∀ c, in_class a c = true → in_class b c = true) →
  matches (Cat (Class a) (Opt (Cat (Star (Class b)) (Class a)))) l ↔
  all_in b l ∧ (∃ c, head l = Some c ∧ in_class a c = true) ∧
  (∃ c, last l = Some c ∧ in_class a c = true).
Proof.
  intros Hab. unfold all_in. rewrite matches_Cat. setoid_rewrite matches_Class.
  setoid_rewrite matches_Opt. setoid_rewrite matches_Cat.
  setoid_rewrite matches_Star_Class. setoid_rewrite matches_Class. unfold all_in. split.
  - intros (? & l2 & -> & (c & -> & Hc) & [->|(m & ? & -> & Hm & d & -> & Hd)]); simpl.
    + split_and!; [by repeat constructor; apply Hab|eauto..].
    + split_and!; [|eauto|exists d; by rewrite app_comm_cons, last_snoc].
      constructor; [by apply Hab|]. apply Forall_app; split; [done|].
      constructor; [by apply Hab|done].
  - intros (Hall & (c & Hh & Hc) & d & Hlast & Hd).
    destruct l as [|c' l]; [done|]. injection Hh as ->.
    exists [c], l. split_and!; [done|eauto|].
    destruct l as [|x l _] using rev_ind; [by left|right].
    rewrite app_comm_cons, last_snoc in Hlast. injection Hlast as ->.
    apply Forall_cons in Hall as [_ [Hl _]%Forall_app]. eauto 8.
Qed.

Definition label_byte (c : ascii) : bool := is_lower c || is_digit c || bool_decide (c = "-"%char).

Lemma in_class_lower_alnum c : in_class lower_alnum c = is_lower c || is_digit c.
Proof. unfold in_class. simpl. by rewrite orb_false_r. Qed.

Lemma in_class_label c : in_class (("-", "-")%char :: lower_alnum) c = label_byte c.
Proof.
  apply eqb_prop. revert c. apply ascii_forallb. by vm_compute.
Qed.

Lemma all_in_label s : all_in (("-", "-")%char :: lower_alnum) (bytes s) ↔ all_bytes label_byte s = true.
Proof.
  rewrite all_bytes_Forall. unfold all_in. by setoid_rewrite in_class_label.
Qed.

Lemma validDNSLabel_iff v :
  validDNSLabel v = true ↔
  (1 ≤ len v ≤ 63) ∧ all_bytes label_byte v = true ∧
  (∃ c, head (bytes v) = Some c ∧ is_lower c || is_digit c = true) ∧
  (∃ c, last (bytes v) = Some c ∧ is_lower c || is_digit c = true).
Proof.
  unfold validDNSLabel. rewrite !andb_true_iff, MatchString_spec. unfold dnsLabelPattern.
  rewrite matches_delimited, all_in_label, Z.ltb_lt, Z.leb_le.
  2:{ intros c Hc. simpl in *. by rewrite Hc, orb_true_r. }
  setoid_rewrite in_class_lower_alnum. intuition lia.
Qed.

Lemma label_byte_not_dash c :
  label_byte c = true → c ≠ "-"%char → is_lower c || is_digit c = true.
Proof. unfold label_byte. rewrite orb_true_iff, bool_decide_eq_true. tauto. Qed.

Lemma alnum_not_dash c : is_lower c || is_digit c = true → c ≠ "-"%char.
Proof. intros H ->. done. Qed.

(** A text over [b] that begins and ends with a lower-case letter or a digit. *)
Definition delimited (b : ascii → bool) (s : string) : Prop :=
  all_bytes b s = true ∧
  (∃ c, head (bytes s) = Some c ∧ is_lower c || is_digit c = true) ∧
  (∃ c, last (bytes s) = Some c ∧ is_lower c || is_digit c = true).

Lemma delimited_weaken (b b' : ascii → bool) s :
  (∀ c, b c = true → b' c = true) → delimited b s → delimited b' s.
Proof. intros Hb (Hall & ? & ?). split_and!; [by eapply all_bytes_weaken|done..]. Qed.

Lemma delimited_app (b : ascii → bool) s c t :
  b c = true → delimited b s → delimited b t → delimited b (s +:+ String c t).
Proof.
  intros Hc (Hs & (hs & Hhs & ?) & _) (Ht & _ & lt & Hlt & ?).
  split_and!.
  - rewrite all_bytes_app, Hs. simpl. by rewrite Hc, Ht.
  - exists hs. rewrite bytes_app. destruct (bytes s); naive_solver.
  - exists lt. rewrite bytes_app. simpl. split; [|done].
    rewrite cons_middle, app_assoc, last_app, Hlt. done.
Qed.

Definition subdomain_byte (c : ascii) : bool := label_byte c || bool_decide (c = "."%char).

Lemma subdomain_pattern_iff v :
  MatchString dnsSubdomainPattern v = true ↔ delimited subdomain_byte v.
Proof.
  rewrite MatchString_spec. unfold dnsSubdomainPattern, delimited.
  rewrite matches_delimited.
  2:{ revert v; intros _. byte_implies. }
  setoid_rewrite in_class_lower_alnum. rewrite all_bytes_Forall. unfold all_in.
  assert (∀ c, in_class (("-", "-")%char :: lower_alnum ++ [(".", ".")%char]) c =
               subdomain_byte c) as Heq.
  { intros c. apply eqb_prop. revert c. apply ascii_forallb. by vm_compute. }
  by setoid_rewrite Heq.
Qed.

Lemma validDNSLabel_delimited v :
  validDNSLabel v = true ↔ (1 ≤ len v ≤ 63) ∧ delimited label_byte v.
Proof. apply validDNSLabel_iff. Qed.

Lemma delimited_Join ps :
  ps ≠ [] → Forall (delimited subdomain_byte) ps → delimited subdomain_byte (Join ps ".").
Proof.
  induction ps as [|p ps IH]; [done|]. intros _ [Hp Hps]%Forall_cons.
  destruct ps as [|q ps]; [done|].
  change (delimited subdomain_byte (p +:+ String "." (Join (q :: ps) "."))).
  apply delimited_app; [done..|]. by apply IH.
Qed.

(** The pattern test of [validDNSSubdomain] is implied by the tests of its
    labels: a subdomain is a short dotted list of labels. *)
Lemma validDNSSubdomain_eq v :
  validDNSSubdomain v = (len v <=? 253) && forallb validDNSLabel (Split v ".").
Proof.
  unfold validDNSSubdomain. rewrite Z.leb_antisym.
  destruct (253 <? len v) eqn:Hlen; [by rewrite orb_true_r|].
  rewrite orb_false_r. simpl.
  destruct (forallb validDNSLabel (Split v ".")) eqn:Hall; [|by destruct (_ || _)].
  rewrite forallb_forall in Hall.
  assert (Forall (λ p, validDNSLabel p = true) (Split v ".")) as Hps.
  { apply Forall_forall. intros p Hp. by apply Hall, list_elem_of_In. }
  assert (delimited subdomain_byte v) as Hv.
  { rewrite <-(Join_Split v "."). apply delimited_Join; [apply Split_not_nil|].
    eapply Forall_impl; [exact Hps|]. intros p [_ Hp]%validDNSLabel_delimited.
    eapply delimited_weaken, Hp. byte_implies. }
  rewrite (proj2 (subdomain_pattern_iff v) Hv).
  destruct (len v =? 0) eqn:E; [|done]. apply Z.eqb_eq, len_empty in E. subst.
  destruct Hv as (_ & (c & ? & _) & _). done.
Qed.

Lemma validDNSSubdomain_iff v :
  validDNSSubdomain v = true ↔
  len v ≤ 253 ∧ Forall (λ p, validDNSLabel p = true) (Split v ".").
Proof.
  rewrite validDNSSubdomain_eq, andb_true_iff, Z.leb_le, forallb_forall, Forall_forall.
  by setoid_rewrite list_elem_of_In.
Qed.

Lemma validDNSSubdomain_delimited v :
  validDNSSubdomain v = true → delimited subdomain_byte v.
Proof.
  unfold validDNSSubdomain. destruct (_ || _) eqn:E; [done|]. intros _.
  apply orb_false_iff in E as [_ E%negb_false_iff]. by apply subdomain_pattern_iff.
Qed.

Lemma validDNSLabel_subdomain v : validDNSLabel v = true → validDNSSubdomain v = true.
Proof.
  intros Hv. apply validDNSSubdomain_iff.
  apply validDNSLabel_delimited in Hv as Hd. destruct Hd as (? & Hall & _ & _).
  split; [lia|]. rewrite Split_no_sep_inv; [by repeat constructor|].
  intros Hin. rewrite all_bytes_spec in Hall. by apply Hall in Hin.
Qed.

(** A path segment that an HTTP client transmits unchanged and that does not
    leave its directory: visible ASCII without a delimiter, and not a dot
    segment. *)
Definition segment_byte (c : ascii) : bool :=
  is_visible c && negb (bool_decide (c ∈ ["/"; "?"; "#"; "%"; "\"; "&"; "="; ";"]%char)).

Definition safe_segment (s : string) : Prop :=
  s ≠ "" ∧ s ≠ "." ∧ s ≠ ".." ∧ all_bytes segment_byte s = true.

Lemma validDNSSubdomain_safe v : validDNSSubdomain v = true → safe_segment v.
Proof.
  intros (Hall & (c & Hc & Hlc) & _)%validDNSSubdomain_delimited.
  split_and!; [by intros ->|by intros ->; injection Hc as <-..|].
  eapply all_bytes_weaken, Hall. byte_implies.
Qed.

Lemma validDNSSubdomain_TrimSpace v : validDNSSubdomain v = true → TrimSpace v = v.
Proof.
  intros (Hall & _)%validDNSSubdomain_delimited. apply TrimSpace_visible.
  eapply all_bytes_weaken, Hall. byte_implies.
Qed.

(** ** Properties *)

(** Turn an accepting chain of guards into its conditions. *)
Lemma seq_Ok (r s : result unit) : (r ;; s) = Ok tt ↔ r = Ok tt ∧ s = Ok tt.
Proof. destruct r as [[]|]; simpl; naive_solver. Qed.

Lemma guard_Ok b e : reject_if b e = Ok tt ↔ b = false.
Proof. apply reject_if_Ok. Qed.

Ltac accepted :=
  rewrite ?seq_Ok, ?guard_Ok, ?orb_false_iff, ?andb_false_iff, ?negb_false_iff, ?Z.ltb_ge,
    ?bool_decide_eq_true, ?bool_decide_eq_false.

(** [validDNSLabel] accepts exactly the texts of 1 to 63 bytes over
    lower-case letters, digits and hyphens that begin and end with a letter or a
    digit: its regular expression and its length tests say no more and no less. *)
Theorem validDNSLabel_correct v :
  validDNSLabel v = true ↔
  (1 ≤ len v ≤ 63) ∧ (∀ c, c ∈ bytes v → is_lower c ∨ is_digit c ∨ c = "-"%char) ∧
  HasPrefix v "-" = false ∧ HasSuffix v "-" = false.
Proof.
  rewrite validDNSLabel_delimited. unfold delimited. rewrite all_bytes_spec.
  assert (∀ c, label_byte c = true ↔ is_lower c ∨ is_digit c ∨ c = "-"%char) as Hb.
  { intros c. unfold label_byte. rewrite !orb_true_iff, bool_decide_eq_true.
    destruct (is_lower c), (is_digit c); naive_solver. }
  setoid_rewrite Hb. rewrite <-!not_true_iff_false, HasPrefix_spec, HasSuffix_spec.
  split; intros (Hlen & Hall & H1 & H2); (split; [done|split; [done|]]).
  - destruct H1 as (c & Hc & Hlc), H2 as (d & Hd & Hld).
    split; intros (r & ->); [by injection Hc as <-|].
    rewrite bytes_app in Hd. change (bytes "-") with ["-"%char] in Hd.
    rewrite last_snoc in Hd. by injection Hd as <-.
  - destruct v as [|c v]; [unfold len in Hlen; simpl in Hlen; lia|]. split.
    + exists c. split; [done|]. apply label_byte_not_dash; [apply Hb, Hall; by left|].
      intros ->. apply H1. by exists v.
    + destruct (last (bytes (String c v))) as [d|] eqn:Hd; [|by apply last_None in Hd].
      exists d. split; [done|]. apply last_Some in Hd as [l Hl].
      apply label_byte_not_dash; [apply Hb, Hall; rewrite Hl; set_solver|].
      intros ->. apply H2. exists (of_bytes l). apply bytes_inj.
      by rewrite Hl, bytes_app, bytes_of_bytes.
Qed.

(** [validDNSSubdomain] accepts exactly the texts of at most 253 bytes whose
    dot-separated parts are all DNS labels; its own pattern test never rejects
    more than the labels do. *)
Theorem validDNSSubdomain_correct v :
  validDNSSubdomain v = true ↔
  len v ≤ 253 ∧ ∃ labels, labels ≠ [] ∧ v = Join labels "." ∧
    Forall (λ label, validDNSLabel label = true) labels.
Proof.
  rewrite validDNSSubdomain_iff. split; intros [Hlen H]; split; try done.
  - exists (Split v "."). split_and!; [apply Split_not_nil|by rewrite Join_Split|done].
  - destruct H as (labels & Hne & -> & Hall). rewrite Split_Join; [done..|].
    eapply Forall_impl; [exact Hall|]. intros p [_ (Hp & _)]%validDNSLabel_delimited Hin.
    rewrite all_bytes_spec in Hp. by apply Hp in Hin.
Qed.

(** [ValidateCustomResourceDefinitionName] accepts exactly the names
    [<resource>.<group>] of at most 253 bytes with a DNS label as resource and a
    DNS subdomain as group. *)
Theorem ValidateCustomResourceDefinitionName_correct name :
  ValidateCustomResourceDefinitionName name = Ok tt ↔
  len name ≤ 253 ∧ ∃ resource group, name = resource +:+ String "." group ∧
    validDNSLabel resource = true ∧ validDNSSubdomain group = true.
Proof.
  unfold ValidateCustomResourceDefinitionName.
  destruct (Cut name ".") as [[resource group] found] eqn:Hcut. accepted. split.
  - intros (((-> & Hn) & Hr) & Hg). apply Cut_found in Hcut as [_ ->].
    split; [by apply validDNSSubdomain_iff in Hn as [? _]|]. eauto.
  - intros (Hlen & r & g & -> & Hr & Hg).
    assert ("."%char ∉ bytes r) as Hdot.
    { apply validDNSLabel_delimited in Hr as [_ (Hr & _)].
      intros Hin. rewrite all_bytes_spec in Hr. by apply Hr in Hin. }
    rewrite Cut_app in Hcut by done. injection Hcut as <- <- <-. split_and!; try done.
    apply validDNSSubdomain_iff. split; [done|]. rewrite Split_app by done.
    constructor; [done|]. by apply validDNSSubdomain_iff.
Qed.

(** The validators of names that the Kubernetes client puts into request paths. *)
Definition name_validators : list (string → result unit) :=
  [ValidateNamespace; ValidateNodeName; ValidateCustomResourceDefinitionName;
   ValidateCertificateSigningRequestName; ValidatePriorityClassName;
   ValidateRuntimeClassName; ValidateRuntimeClassHandler; ValidateCSIDriverName;
   ValidateVolumeAttachmentName; ValidatePersistentVolumeName; ValidateStorageClassName;
   ValidateCSIStorageCapacityName; ValidateVolumeAttributesClassName;
   ValidateAPIServiceName; ValidateAdmissionWebhookConfigurationName;
   ValidateAdmissionPolicyResourceName].

Lemma validDNSLabel_safe v : validDNSLabel v = true → safe_segment v.
Proof. intros ?%validDNSLabel_subdomain. by apply validDNSSubdomain_safe. Qed.

Lemma ValidateAPIServiceName_safe name :
  ValidateAPIServiceName name = Ok tt → safe_segment name.
Proof.
  unfold ValidateAPIServiceName.
  destruct (Cut name ".") as [[version group] found] eqn:Hcut. accepted.
  intros (((-> & _) & Hv) & Hg). apply Cut_found in Hcut as [_ ->].
  apply validDNSLabel_delimited in Hv as (_ & Hv & (c & Hc & Hlc) & _).
  split_and!.
  - by destruct version.
  - intros Heq. destruct version as [|d version]; [done|]. rewrite app_cons in Heq.
    injection Hc as ->. by injection Heq as ->.
  - intros Heq. destruct version as [|d version]; [done|]. rewrite app_cons in Heq.
    injection Hc as ->. by injection Heq as ->.
  - rewrite all_bytes_app. simpl. apply andb_true_iff. split.
    { eapply all_bytes_weaken, Hv. byte_implies. }
    destruct Hg as [->|(_ & _ & _ & Hg)%validDNSSubdomain_safe]; done.
Qed.

(** Every name a single-resource validator accepts is one safe path segment:
    it is not empty and not a dot segment, and it holds no slash, query or
    fragment delimiter, percent sign, space or control character, so it cannot
    change the API path it is placed in. *)
Theorem name_validators_safe validate name :
  validate ∈ name_validators → validate name = Ok tt → safe_segment name.
Proof.
  unfold name_validators. rewrite !elem_of_cons, elem_of_nil. intros Hin Hok.
  assert (validate = ValidateCustomResourceDefinitionName ∨ validate = ValidateAPIServiceName ∨
    validDNSSubdomain name = true) as [->|[->|?]].
  { repeat (destruct Hin as [->|Hin]); try tauto; right; right;
      apply guard_Ok, negb_false_iff in Hok; auto using validDNSLabel_subdomain. }
  - revert Hok. unfold ValidateCustomResourceDefinitionName.
    destruct (Cut name ".") as [[resource group] found]. accepted.
    intros (((_ & Hn) & _) & _). by apply validDNSSubdomain_safe.
  - by apply ValidateAPIServiceName_safe.
  - by apply validDNSSubdomain_safe.
Qed.

Lemma name_validators_safe_witness : safe_segment "certificates.cert-manager.io".
Proof.
  apply (name_validators_safe ValidateCustomResourceDefinitionName);
    [by do 2 right; left|by vm_compute].
Defined.

Section workload_spec.
Context `{UnicodeTables}.

Lemma ValidateWorkloadReference_Ok r :
  ValidateWorkloadReference r = Ok tt ↔
  validWorkloadKind (ToLower (TrimSpace r.(WorkloadReference.Kind))) = true ∧
  validDNSLabel r.(WorkloadReference.Namespace) = true ∧
  validDNSSubdomain r.(WorkloadReference.Name) = true.
Proof. unfold ValidateWorkloadReference. accepted. tauto. Qed.

Lemma not_deployment_false r :
  not_deployment r = false ↔ ToLower (TrimSpace r.(WorkloadReference.Kind)) = "deployment".
Proof. unfold not_deployment. by rewrite negb_false_iff, bool_decide_eq_true. Qed.

(** A workload operation is accepted exactly when it scales a Deployment to
    between 0 and 1000 replicas or restarts one without a replica count, the
    cluster is named, the namespace and name are valid, and the resource version
    is 1 to 256 bytes without control characters after trimming. *)
Theorem ValidateWorkloadOperationInput_correct kind input :
  ValidateWorkloadOperationInput kind input = Ok tt ↔
  ((kind = OperationWorkloadScale ∧
    ∃ n, input.(WorkloadOperationInput.Replicas) = Some n ∧ 0 ≤ n ≤ 1000) ∨
   (kind = OperationWorkloadRestart ∧ input.(WorkloadOperationInput.Replicas) = None)) ∧
  TrimSpace input.(WorkloadOperationInput.ClusterID) ≠ "" ∧
  (let r := input.(WorkloadOperationInput.Reference) in
   ToLower (TrimSpace r.(WorkloadReference.Kind)) = "deployment" ∧
   validDNSLabel r.(WorkloadReference.Namespace) = true ∧
   validDNSSubdomain r.(WorkloadReference.Name) = true) ∧
  (let v := TrimSpace input.(WorkloadOperationInput.ResourceVersion) in
   1 ≤ len v ≤ 256 ∧ has_rune IsControl v = false).
Proof.
  unfold ValidateWorkloadOperationInput.
  assert (∀ v, bad_resource_version v = false ↔
    1 ≤ len (TrimSpace v) ≤ 256 ∧ has_rune IsControl (TrimSpace v) = false) as Hrv.
  { intros v. unfold bad_resource_version. accepted. rewrite <-len_empty.
    pose proof (len_nonneg (TrimSpace v)). intuition lia. }
  accepted. rewrite ValidateWorkloadReference_Ok, not_deployment_false, Hrv. cbn zeta.
  case_bool_decide as Hs.
  - subst kind. destruct (WorkloadOperationInput.Replicas input) as [n|].
    + accepted. unfold MaxWorkloadReplicas. split.
      * intros (_ & ? & (_ & ? & ?) & ? & ? & ? & ?).
        split; [left; split; [done|by exists n]|tauto].
      * intros ([(_ & n' & [= <-] & ?)|[? _]] & ? & (-> & ? & ?) & ?); [|done].
        split_and!; (done || tauto || lia).
    + split; [by intros (_ & _ & _ & _ & _ & ?)|].
      intros ([(_ & n' & ? & ?)|[? _]] & _); done.
  - accepted. rewrite <-eq_None_not_Some. split.
    + intros ([?|?] & ? & (_ & ? & ?) & ? & ? & ?); [done|]. split_and!; (done || tauto).
    + intros ([(-> & _)|[-> ?]] & ? & (-> & ? & ?) & ?); [done|]. split_and!; (done || tauto).
Qed.
End workload_spec.

(** ** Chart references *)

Lemma Index_app a sub b : is_Some (Index (a +:+ (sub +:+ b)) sub).
Proof.
  assert (∀ s, HasPrefix s sub = true → is_Some (Index s sub)) as Hpre.
  { intros s Hs. destruct s; cbn [Index]; rewrite Hs; eauto. }
  induction a as [|c a IH]; [apply Hpre, HasPrefix_spec; eauto|].
  rewrite app_cons. cbn [Index]. destruct (HasPrefix _ sub); [eauto|].
  destruct IH as [n ->]. eauto.
Qed.

Lemma Split_substring s sep p : p ∈ Split s sep → ∃ a b, s = a +:+ (p +:+ b).
Proof.
  intros Hp. rewrite <-(Join_Split s sep). induction (Split s sep) as [|h t IH]; [by inversion Hp|].
  apply elem_of_cons in Hp as [->|Hp].
  - exists "". destruct t; [exists ""; by rewrite string_app_nil_r|]. by eexists.
  - destruct (IH Hp) as (a & b & Heq). destruct t as [|q t]; [by inversion Hp|].
    exists (h +:+ String sep a), b. cbn [Join]. cbn [Join] in Heq.
    rewrite Heq. by rewrite !string_app_assoc, !app_cons, app_empty_l.
Qed.

Section chart_spec.
Context `{URLParser}.

(** An accepted chart reference that is not an OCI URL is a relative path of
    1 to 128 safe bytes inside the chart repository: it comes with a repository,
    and no segment of it is [..], so it cannot leave the repository's directory. *)
Theorem ValidateHelmOperationInput_chart_safe input :
  ValidateHelmOperationInput input = Ok tt →
  let chart := TrimSpace input.(HelmOperationInput.Chart) in
  HasPrefix chart "oci://" = false →
  input.(HelmOperationInput.RepositoryID) ≠ "" ∧
  1 ≤ len chart ≤ 128 ∧
  all_bytes (λ c, segment_byte c || bool_decide (c = "/"%char)) chart = true ∧
  HasPrefix chart "/" = false ∧
  (∀ segment, segment ∈ Split chart "/" → segment ≠ "..").
Proof.
  intros Hok chart Hoci. unfold ValidateHelmOperationInput in Hok. fold chart in Hok.
  rewrite Hoci in Hok. revert Hok. accepted.
  intros (_ & _ & _ & _ & (((? & Hpat) & Hdots) & Hslash) & _).
  apply MatchString_spec in Hpat. unfold chartNamePattern in Hpat.
  rewrite matches_Cat in Hpat. setoid_rewrite matches_Class in Hpat.
  setoid_rewrite matches_Upto_Class in Hpat.
  destruct Hpat as (? & l & Hl & (c & -> & Hc) & Hlen & Hall).
  split_and!; try done.
  - unfold len. rewrite <-length_bytes, Hl. simpl. lia.
  - unfold len. rewrite <-length_bytes, Hl. simpl. lia.
  - rewrite all_bytes_Forall, Hl. constructor; [revert c Hc Hl; intros c Hc _; revert c Hc; byte_implies|].
    eapply Forall_impl; [exact Hall|]. byte_implies.
  - intros seg (a & b & Heq)%Split_substring ->.
    unfold Contains in Hdots. apply bool_decide_eq_false in Hdots.
    apply Hdots. rewrite Heq. apply Index_app.
Qed.
End chart_spec.

Lemma validateClusterCredentials_header_safe caCert token :
  validateClusterCredentials caCert token = Ok tt →
  1 ≤ len token ≤ MaxClusterBearerTokenBytes ∧ len caCert ≤ MaxClusterCACertBytes ∧
  ∀ c, c ∈ bytes token → 33 ≤ byte c ∧ byte c ≠ 127.
Proof.
  unfold validateClusterCredentials. accepted.
  intros ((((Hne & Hlen) & _) & Hrune) & ?). rewrite <-len_empty in Hne.
  pose proof (len_nonneg token). split_and!; [lia..|]. intros c Hc.
  destruct (is_ascii c) eqn:Ha; [|unfold is_ascii in Ha; lia].
  apply (has_rune_false_byte space_or_control _ c) in Hrune; [|done..]. revert Hrune.
  assert (∀ c, negb (space_or_control (byte c)) && is_ascii c = true →
    (33 <=? byte c) && negb (byte c =? 127) = true) as Hb by byte_implies.
  intros Hrune. specialize (Hb c). rewrite Hrune, Ha in Hb. specialize (Hb eq_refl). lia.
Qed.

Section cluster_spec.
Context `{URLParser}.

Lemma validateHTTPSURL_Ok raw allowPath parsed :
  validateHTTPSURL raw allowPath = Ok parsed ↔
  ParseRequestURI (TrimSpace raw) = Some parsed ∧
  parsed.(URL.Scheme) = "https" ∧ parsed.(URL.Host) ≠ "" ∧ parsed.(URL.HasUser) = false ∧
  parsed.(URL.RawQuery) = "" ∧ parsed.(URL.Fragment) = "" ∧
  (allowPath = true ∨ parsed.(URL.Path) = "" ∨ parsed.(URL.Path) = "/").
Proof.
  unfold validateHTTPSURL. destruct (ParseRequestURI _) as [p|]; [|naive_solver].
  rewrite bind_Ok. setoid_rewrite bind_Ok. setoid_rewrite reject_if_Ok. split.
  - intros ([] & Hg & [] & Hp & [= <-]). revert Hg Hp. accepted. tauto.
  - intros ([= <-] & Hall). exists tt. split; [accepted; tauto|].
    exists tt. split; [accepted; tauto|done].
Qed.

(** An accepted cluster has an HTTPS origin without credentials, path, query
    or fragment as its server, a known environment, and a bearer token that is a
    safe header value: 1 byte to 64 KiB with no blank, line break or other control
    byte in it. *)
Theorem ValidateClusterInput_safe input :
  ValidateClusterInput input = Ok tt →
  (∃ parsed, ParseRequestURI (TrimSpace input.(ClusterInput.Server)) = Some parsed ∧
    parsed.(URL.Scheme) = "https" ∧ parsed.(URL.Host) ≠ "" ∧ parsed.(URL.HasUser) = false ∧
    parsed.(URL.RawQuery) = "" ∧ parsed.(URL.Fragment) = "" ∧
    (parsed.(URL.Path) = "" ∨ parsed.(URL.Path) = "/")) ∧
  input.(ClusterInput.Environment) ∈
    [EnvironmentDevelopment; EnvironmentStaging; EnvironmentProduction] ∧
  1 ≤ len input.(ClusterInput.BearerToken) ≤ MaxClusterBearerTokenBytes ∧
  len input.(ClusterInput.CACert) ≤ MaxClusterCACertBytes ∧
  (∀ c, c ∈ bytes input.(ClusterInput.BearerToken) → 33 ≤ byte c ∧ byte c ≠ 127).
Proof.
  unfold ValidateClusterInput. accepted.
  destruct (validateHTTPSURL _ _) as [parsed|] eqn:Hurl; [|by intros (_ & _ & ? & _)].
  accepted. intros (_ & Henv & _ & Hcred). apply validateHTTPSURL_Ok in Hurl.
  apply validateClusterCredentials_header_safe in Hcred. split_and!; try tauto.
  - exists parsed. naive_solver.
  - rewrite !elem_of_cons. tauto.
Qed.
End cluster_spec.

(** A parser of plain URLs, to try the validators on. *)
Definition plain_url (raw : string) : option URL.t :=
  match Index raw "://" with
  | None => None
  | Some n =>
      let '(host, path, rooted) := Cut (drop_bytes (n + 3) raw) "/" in
      Some (URL.mk (take_bytes n raw) (has_byte "@" host) host
              (if rooted then String "/" path else "") "" "")
  end.

#[local] Instance plain_parser : URLParser := {| ParseRequestURI := plain_url; ParseURL := plain_url |}.

Definition example_install : HelmOperationInput :=
  HelmOperationInput.mk "cl_1" "apps" "web" "charts/nginx" "repo_1" "1.2.3" "" 0.

Lemma ValidateHelmOperationInput_chart_safe_witness :
  "nginx" ∈ Split (TrimSpace example_install.(HelmOperationInput.Chart)) "/" ∧ "nginx" ≠ "..".
Proof.
  assert ("nginx" ∈ Split (TrimSpace example_install.(HelmOperationInput.Chart)) "/") as Hin.
  { vm_compute. right. left. }
  split; [exact Hin|].
  apply (ValidateHelmOperationInput_chart_safe example_install); [by vm_compute..|exact Hin].
Defined.

Lemma ValidateClusterInput_safe_witness :
  let input := ClusterInput.mk "prod" "production" "https://10.0.0.1:6443/" "" "abc.def" in
  input.(ClusterInput.Environment) ∈
    [EnvironmentDevelopment; EnvironmentStaging; EnvironmentProduction].
Proof.
  intros input. apply (ValidateClusterInput_safe input). by vm_compute.
Defined.
