(* ===== verification/Outbound.v ===== *)
(** * The outbound policy (src/internal/outbound/policy.go)

    Which addresses the service may connect to, and that it connects to no others.
    Addresses and their parsing are those of net/netip; the resolver and the dialer
    are parameters. *)

From S2P Require Export GoNum Validation.

Local Open Scope Z_scope.
Local Open Scope stdpp_scope.
Local Open Scope go_scope.

(** ** net/netip *)

Module Addr.

(** An invalid address, a 32-bit one, and a 128-bit one with its zone. *)
Inductive t : Type :=
  | Invalid
  | V4 (n : Z)
  | V6 (n : Z) (zone : string).

#[export] Instance eq_dec : EqDecision t.
Proof. solve_decision. Defined.

Definition from_bytes (l : list Z) : Z := foldl (λ acc b, acc * 256 + b) 0 l.

(** [parseIPv4Fields]: [fields] are the fields already read; [val] and [digits] are
    the value and the number of digits of the current one. *)
Fixpoint parseIPv4Fields (s : string) (first after_dot : bool) (val digits : Z) (fields : list Z) :
    option (list Z) :=
  match s with
  | EmptyString => if len_list fields <? 3 then None else Some (fields ++ [val])
  | String c s' =>
      if is_digit c then
        if (digits =? 1) && (val =? 0) then None else
        let val := val * 10 + digit_value c in
        if 255 <? val then None else parseIPv4Fields s' false false val (digits + 1) fields
      else if bool_decide (c = "."%char) then
        if first || bool_decide (s' = EmptyString) || after_dot then None
        else if len_list fields =? 3 then None
        else parseIPv4Fields s' false true 0 0 (fields ++ [val])
      else None
  end.

Definition IPv4Fields (s : string) : option (list Z) := parseIPv4Fields s true false 0 0 [].

Definition hex_value (c : ascii) : option Z :=
  if is_digit c then Some (digit_value c)
  else if in_range "a" "f" c then Some (byte c - byte "a" + 10)
  else if in_range "A" "F" c then Some (byte c - byte "A" + 10)
  else None.

(** The digits of one group: how many, their value, and the rest. *)
Fixpoint hex_group (s : string) (off acc : Z) : option (Z * Z * string) :=
  match s with
  | String c s' =>
      match hex_value c with
      | Some d =>
          let acc := acc * 16 + d in
          if (3 <? off) || (65535 <? acc) then None else hex_group s' (off + 1) acc
      | None => Some (off, acc, s)
      end
  | EmptyString => Some (off, acc, s)
  end.

(** The loop of [parseIPv6], which ends when 16 bytes are read: [fuel] groups of two
    are left.  The answer is the bytes, the place of the ellipsis, and the rest. *)
Fixpoint ipv6_groups (fuel : nat) (s : string) (ip : list Z) (ellipsis : option nat) :
    option (list Z * option nat * string) :=
  match fuel with
  | O => Some (ip, ellipsis, s)
  | S fuel =>
      '(off, acc, rest) ← hex_group s 0 0;
      if off =? 0 then None else
      if HasPrefix rest "." then
        if bool_decide (ellipsis = None) && negb (len_list ip =? 12) then None
        else if 16 <? len_list ip + 4 then None
        else fields ← IPv4Fields s; Some (ip ++ fields, ellipsis, EmptyString)
      else
      let ip := ip ++ [acc / 256; acc mod 256] in
      match rest with
      | EmptyString => Some (ip, ellipsis, EmptyString)
      | String c rest =>
          if negb (bool_decide (c = ":"%char)) || bool_decide (rest = EmptyString) then None else
          match rest with
          | String ":" rest =>
              if bool_decide (is_Some ellipsis) then None
              else if bool_decide (rest = EmptyString) then Some (ip, Some (length ip), EmptyString)
              else ipv6_groups fuel rest ip (Some (length ip))
          | _ => ipv6_groups fuel rest ip ellipsis
          end
      end
  end.

(** The ellipsis stands for the bytes that were not written. *)
Definition expand (ip : list Z) (ellipsis : option nat) : option (list Z) :=
  if len_list ip <? 16 then
    e ← ellipsis;
    Some (take e ip ++ replicate (16 - length ip) 0 ++ drop e ip)
  else if bool_decide (is_Some ellipsis) then None
  else Some ip.

Definition parseIPv6 (s : string) : option t :=
  let '(s, zone, zoned) := Cut s "%" in
  if zoned && bool_decide (zone = EmptyString) then None else
  let '(s, ellipsis) :=
    match strip_prefix "::" s with
    | Some rest => (rest, Some 0%nat)
    | None => (s, None)
    end in
  if bool_decide (is_Some ellipsis) && bool_decide (s = EmptyString) then Some (V6 0 zone) else
  '(ip, ellipsis, rest) ← ipv6_groups 8 s [] ellipsis;
  if negb (bool_decide (rest = EmptyString)) then None else
  ip ← expand ip ellipsis;
  Some (V6 (from_bytes ip) zone).

(** [ParseAddr]: the first of the bytes [.], [:] and [%] says what to parse. *)
Fixpoint kind (s : string) : option ascii :=
  match s with
  | String c s =>
      if bool_decide (c = "."%char) || bool_decide (c = ":"%char) || bool_decide (c = "%"%char)
      then Some c else kind s
  | EmptyString => None
  end.

Definition ParseAddr (s : string) : option t :=
  match kind s with
  | Some "."%char => V4 <$> (from_bytes <$> IPv4Fields s)
  | Some ":"%char => parseIPv6 s
  | _ => None
  end.

Definition AddrFromSlice (l : list Z) : option t :=
  if len_list l =? 4 then Some (V4 (from_bytes l))
  else if len_list l =? 16 then Some (V6 (from_bytes l) "")
  else None.

(** [::ffff:a.b.c.d] is [a.b.c.d]. *)
Definition Unmap (a : t) : t :=
  match a with
  | V6 n _ => if Z.shiftr n 32 =? 65535 then V4 (n mod 2 ^ 32) else a
  | _ => a
  end.

Definition IsValid (a : t) : bool := negb (bool_decide (a = Invalid)).
Definition IsUnspecified (a : t) : bool := bool_decide (a = V4 0) || bool_decide (a = V6 0 "").

(** The byte and the 16-bit word an address starts with. *)
Definition v4_0 (n : Z) : Z := Z.shiftr n 24.
Definition v6_0 (n : Z) : Z := Z.shiftr n 120.
Definition v6u16_0 (n : Z) : Z := Z.shiftr n 112.

Definition IsLoopback (a : t) : bool :=
  match Unmap a with
  | V4 n => v4_0 n =? 127
  | V6 n _ => n =? 1
  | Invalid => false
  end.

Definition IsMulticast (a : t) : bool :=
  match Unmap a with
  | V4 n => Z.land (v4_0 n) 240 =? 224
  | V6 n _ => v6_0 n =? 255
  | Invalid => false
  end.

Definition IsLinkLocalUnicast (a : t) : bool :=
  match Unmap a with
  | V4 n => (v4_0 n =? 169) && (Z.land (Z.shiftr n 16) 255 =? 254)
  | V6 n _ => Z.land (v6u16_0 n) 65472 =? 65152
  | Invalid => false
  end.

Definition IsLinkLocalMulticast (a : t) : bool :=
  match Unmap a with
  | V4 n => Z.shiftr n 8 =? 224 * 2 ^ 16
  | V6 n _ => Z.land (v6u16_0 n) 65295 =? 65282
  | Invalid => false
  end.

Definition IsPrivate (a : t) : bool :=
  match Unmap a with
  | V4 n =>
      (v4_0 n =? 10) ||
      ((v4_0 n =? 172) && (Z.land (Z.land (Z.shiftr n 16) 255) 240 =? 16)) ||
      ((v4_0 n =? 192) && (Z.land (Z.shiftr n 16) 255 =? 168))
  | V6 n _ => Z.land (v6_0 n) 254 =? 252
  | Invalid => false
  end.

Definition IsGlobalUnicast (a : t) : bool :=
  match Unmap a with
  | Invalid => false
  | V4 n =>
      negb (n =? 0) && negb (n =? 2 ^ 32 - 1) &&
      negb (IsLoopback (V4 n)) && negb (IsMulticast (V4 n)) && negb (IsLinkLocalUnicast (V4 n))
  | V6 n zone =>
      negb (bool_decide (V6 n zone = V6 0 "")) &&
      negb (IsLoopback (V6 n zone)) && negb (IsMulticast (V6 n zone)) &&
      negb (IsLinkLocalUnicast (V6 n zone))
  end.
End Addr.
Notation Addr := Addr.t.

Module Prefix.
Record t : Type := mk { Addr_ : Addr; Bits : Z }.

Definition BitLen (a : Addr) : Z :=
  match a with Addr.Invalid => 0 | Addr.V4 _ => 32 | Addr.V6 _ _ => 128 end.

(** [ParsePrefix]. *)
Definition ParsePrefix (s : string) : option t :=
  let '(rbits, rip, found) := Cut (string_rev s) "/" in
  let '(ip, bits) := (string_rev rip, string_rev rbits) in
  if negb found then None else
  a ← Addr.ParseAddr ip;
  if match a with Addr.V6 _ zone => negb (bool_decide (zone = "")) | _ => false end then None else
  if (1 <? len bits) && negb (match bits with String c _ => in_range "1" "9" c | _ => false end)
  then None else
  n ← Atoi bits;
  if (n <? 0) || (BitLen a <? n) then None else Some (mk a n).

(** [Masked]: the bits after the prefix are cleared. *)
Definition Masked (p : t) : t :=
  let clear n k := Z.shiftl (Z.shiftr n k) k in
  match p.(Addr_) with
  | Addr.Invalid => p
  | Addr.V4 n => mk (Addr.V4 (clear n (32 - p.(Bits)))) p.(Bits)
  | Addr.V6 n _ => mk (Addr.V6 (clear n (128 - p.(Bits))) "") p.(Bits)
  end.

Definition Contains (p : t) (a : Addr) : bool :=
  match p.(Addr_), a with
  | Addr.V4 n, Addr.V4 m => Z.shiftr (Z.lxor m n) (32 - p.(Bits)) =? 0
  | Addr.V6 n _, Addr.V6 m zone =>
      bool_decide (zone = "") && (Z.shiftr (Z.lxor m n) (128 - p.(Bits)) =? 0)
  | _, _ => false
  end.
End Prefix.

(** ** The policy *)

Module Outbound.

(** [ParseAllowedPrefixes]. *)
Fixpoint parse_prefixes (parts : list string) : result (list Prefix.t) :=
  match parts with
  | [] => Ok []
  | part :: parts =>
      match Prefix.ParsePrefix (TrimSpace part) with
      | None => Err (NewError "parse allowed CIDR")
      | Some p => prefixes ← parse_prefixes parts; Ok (Prefix.Masked p :: prefixes)
      end
  end.

Definition ParseAllowedPrefixes (raw : string) : result (list Prefix.t) :=
  if bool_decide (TrimSpace raw = "") then Ok [] else parse_prefixes (Split raw ",").

Definition isAllowed (allowed : list Prefix.t) (address : Addr) : bool :=
  existsb (λ p, Prefix.Contains p address) allowed ||
  (Addr.IsValid address && Addr.IsGlobalUnicast address && negb (Addr.IsPrivate address) &&
   negb (Addr.IsLoopback address) && negb (Addr.IsLinkLocalUnicast address) &&
   negb (Addr.IsLinkLocalMulticast address) && negb (Addr.IsMulticast address) &&
   negb (Addr.IsUnspecified address)).

(** [net/url]'s [Hostname] of a host with an optional port. *)
Definition valid_optional_port (port : string) : bool :=
  match port with
  | EmptyString => true
  | String c rest => bool_decide (c = ":"%char) && all_bytes is_digit rest
  end.

Definition Hostname (host : string) : string :=
  let '(rport, rhost, found) := Cut (string_rev host) ":" in
  let host := if found && valid_optional_port (String ":" (string_rev rport))
              then string_rev rhost else host in
  if HasPrefix host "[" && HasSuffix host "]" then TrimSuffix (TrimPrefix host "[") "]" else host.

(** [net.SplitHostPort]. *)
Definition SplitHostPort (hostport : string) : option (string * string) :=
  let '(rport, rhost, found) := Cut (string_rev hostport) ":" in
  let '(port, before) := (string_rev rport, string_rev rhost) in
  if negb found then None else
  match strip_prefix "[" before with
  | Some inner =>
      match strip_prefix "]" (string_rev inner) with
      | None => None
      | Some rinner =>
          let host := string_rev rinner in
          if has_byte "]" host || has_byte "[" host || has_byte "[" port || has_byte "]" port
          then None else Some (host, port)
      end
  | None =>
      if has_byte ":" before || has_byte "[" hostport || has_byte "]" hostport then None
      else Some (before, port)
  end.

Section policy.
Context (allowed : list Prefix.t).

(** The resolver's answer to one lookup: the addresses as slices of bytes. *)
Definition resolution : Type := string → result (list (list Z)).

Fixpoint from_slices (resolved : list (list Z)) : result (list Addr) :=
  match resolved with
  | [] => Ok []
  | address :: resolved =>
      match Addr.AddrFromSlice address with
      | None => Err (NewError "resolver returned an invalid address")
      | Some parsed => rest ← from_slices resolved; Ok (Addr.Unmap parsed :: rest)
      end
  end.

Definition lookup (LookupIP : resolution) (host : string) : result (list Addr) :=
  match Addr.ParseAddr (Trim host "[]") with
  | Some parsed => Ok [Addr.Unmap parsed]
  | None => resolved ← LookupIP host; from_slices resolved
  end.

(** The checks [ValidateHost] and [DialContext] share. *)
Definition validated (LookupIP : resolution) (host : string) : result (list Addr) :=
  match lookup LookupIP host with
  | Err err => Err (Errorf "resolve target host: " err)
  | Ok addresses =>
      reject_if (bool_decide (addresses = [])) (NewError "target host resolved to no addresses") ;;
      reject_if (existsb (λ a, negb (isAllowed allowed a)) addresses)
        (NewError "target address is blocked by outbound policy") ;;
      Ok addresses
  end.

Definition ValidateHost (LookupIP : resolution) (host : string) : result unit :=
  validated LookupIP host ;; Ok tt.

Definition ValidateHTTPSURL `{URLParser} (LookupIP : resolution) (raw : string) : result URL.t :=
  match ParseRequestURI (TrimSpace raw) with
  | None => Err (NewError "invalid target URL")
  | Some parsed =>
      reject_if (negb (bool_decide (parsed.(URL.Scheme) = "https")) ||
                 bool_decide (parsed.(URL.Host) = "") || parsed.(URL.HasUser))
        (NewError "target must be an HTTPS URL without credentials") ;;
      ValidateHost LookupIP (Hostname parsed.(URL.Host)) ;;
      Ok parsed
  end.

Definition Validate `{URLParser} (LookupIP : resolution) (raw : string) : result unit :=
  ValidateHTTPSURL LookupIP raw ;; Ok tt.

(** The candidates dialed, in order, and the outcome; [dial] answers each attempt. *)
Fixpoint dial_candidates (dial : Addr → string → result nat) (port : string) (candidates : list Addr)
    (lastErr : error) : list Addr * result nat :=
  match candidates with
  | [] => ([], Err (Errorf "connect to validated target: " lastErr))
  | candidate :: candidates =>
      match dial candidate port with
      | Ok connection => ([candidate], Ok connection)
      | Err dialErr =>
          let '(dialed, r) := dial_candidates dial port candidates dialErr in
          (candidate :: dialed, r)
      end
  end.

Definition DialContext (LookupIP : resolution) (dial : Addr → string → result nat)
    (address : string) : list Addr * result nat :=
  match SplitHostPort address with
  | None => ([], Err (NewError "invalid target address"))
  | Some (host, port) =>
      match validated LookupIP host with
      | Err err => ([], Err err)
      | Ok addresses => dial_candidates dial port addresses (NewError "")
      end
  end.
End policy.


(** ** Properties *)

(** The blocks of addresses that are not public. *)
Definition blocked : list Prefix.t :=
  [Prefix.mk (Addr.V4 0) 32;                              (** 0.0.0.0/32 *)
   Prefix.mk (Addr.V4 (2 ^ 32 - 1)) 32;                   (** 255.255.255.255/32 *)
   Prefix.mk (Addr.V4 (10 * 2 ^ 24)) 8;                   (** 10.0.0.0/8 *)
   Prefix.mk (Addr.V4 (172 * 2 ^ 24 + 16 * 2 ^ 16)) 12;   (** 172.16.0.0/12 *)
   Prefix.mk (Addr.V4 (192 * 2 ^ 24 + 168 * 2 ^ 16)) 16;  (** 192.168.0.0/16 *)
   Prefix.mk (Addr.V4 (127 * 2 ^ 24)) 8;                  (** 127.0.0.0/8 *)
   Prefix.mk (Addr.V4 (169 * 2 ^ 24 + 254 * 2 ^ 16)) 16;  (** 169.254.0.0/16 *)
   Prefix.mk (Addr.V4 (224 * 2 ^ 24)) 4;                  (** 224.0.0.0/4 *)
   Prefix.mk (Addr.V6 0 "") 128;                          (** ::/128 *)
   Prefix.mk (Addr.V6 1 "") 128;                          (** ::1/128 *)
   Prefix.mk (Addr.V6 (252 * 2 ^ 120) "") 7;              (** fc00::/7 *)
   Prefix.mk (Addr.V6 (65152 * 2 ^ 112) "") 10;           (** fe80::/10 *)
   Prefix.mk (Addr.V6 (255 * 2 ^ 120) "") 8].             (** ff00::/8 *)

(** An unmapped address without a zone. *)
Definition plain (a : Addr) : Prop :=
  match a with
  | Addr.Invalid => False
  | Addr.V4 n => 0 ≤ n < 2 ^ 32
  | Addr.V6 n zone => 0 ≤ n < 2 ^ 128 ∧ zone = "" ∧ Z.shiftr n 32 ≠ 65535
  end.

Lemma same_prefix n m k : (Z.shiftr (Z.lxor n m) k =? 0) = (Z.shiftr n k =? Z.shiftr m k).
Proof.
  rewrite Z.shiftr_lxor. apply eq_iff_eq_true. rewrite !Z.eqb_eq. apply Z.lxor_eq_0_iff.
Qed.

Lemma forall_below (n : Z) (f : Z → bool) :
  forallb f (seqZ 0 n) = true → ∀ x, 0 ≤ x < n → f x = true.
Proof.
  rewrite forallb_forall. intros Hf x Hx. apply Hf, list_elem_of_In, elem_of_seqZ. lia.
Qed.

Lemma forall_word (f : Z → bool) :
  forallb (λ hi, forallb (λ lo, f (256 * hi + lo)) (seqZ 0 256)) (seqZ 0 256) = true →
  ∀ x, 0 ≤ x < 65536 → f x = true.
Proof.
  intros Hf x Hx. rewrite (Z.div_mod x 256) by done.
  pose proof (forall_below 256 _ Hf (x / 256)) as Hhi.
  refine (forall_below 256 (λ lo, f (256 * (x / 256) + lo)) (Hhi _) (x mod 256) _).
  - split; [apply Z.div_pos|apply Z.div_lt_upper_bound]; lia.
  - by apply Z.mod_pos_bound.
Qed.

(** A test of the first bits of a byte or a word is one of its quotient. *)
Lemma mask_byte b :
  0 ≤ b < 256 →
  (Z.land b 240 =? 224) = (b / 16 =? 14) ∧ (Z.land b 240 =? 16) = (b / 16 =? 1) ∧
  (Z.land b 254 =? 252) = (b / 2 =? 126).
Proof.
  intros Hb. pose proof (forall_below 256 (λ b,
    Bool.eqb (Z.land b 240 =? 224) (b / 16 =? 14) && Bool.eqb (Z.land b 240 =? 16) (b / 16 =? 1) &&
    Bool.eqb (Z.land b 254 =? 252) (b / 2 =? 126)) ltac:(by vm_compute) b Hb) as H.
  cbv beta in H. rewrite !andb_true_iff, !eqb_true_iff in H. tauto.
Qed.

Lemma mask_word w :
  0 ≤ w < 65536 →
  (Z.land w 65472 =? 65152) = (w / 64 =? 1018) ∧ ((Z.land w 65295 =? 65282) = true → w / 256 = 255).
Proof.
  intros Hw. pose proof (forall_word (λ w,
    Bool.eqb (Z.land w 65472 =? 65152) (w / 64 =? 1018) &&
    implb (Z.land w 65295 =? 65282) (w / 256 =? 255)) ltac:(by vm_compute) w Hw) as H.
  cbv beta in H. rewrite andb_true_iff, eqb_true_iff, implb_true_iff, (Z.eqb_eq (w / 256)) in H.
  exact H.
Qed.

(** The tests of an IPv4 address look at its first two bytes [w], at whether it is the
    first or the last address, and ([ml]) at whether it is in 224.0.0.0/24. *)
Definition word_equation (w : Z) (first last ml : bool) : bool :=
  let b0 := w / 256 in
  let b1 := w mod 256 in
  Bool.eqb
    (negb first && negb last && negb (b0 =? 127) && negb (b0 / 16 =? 14) &&
     negb ((b0 =? 169) && (b1 =? 254)) &&
     negb ((b0 =? 10) || (b0 =? 172) && (b1 / 16 =? 1) || (b0 =? 192) && (b1 =? 168)) &&
     negb (b0 =? 127) && negb ((b0 =? 169) && (b1 =? 254)) &&
     negb (ml && (b0 / 16 =? 14)) && negb (b0 / 16 =? 14) && negb (first || false))
    (negb (first || (last || ((b0 =? 10) || ((w / 16 =? 2753) || ((w =? 49320) || ((b0 =? 127) ||
       ((w =? 43518) || ((w / 4096 =? 14) || false))))))))).

Lemma word_equation_holds w first last ml : 0 ≤ w < 65536 → word_equation w first last ml = true.
Proof.
  intros Hw.
  pose proof (forall_word (λ w, word_equation w false false false) ltac:(by vm_compute) w Hw) as H.
  cbv beta in H. unfold word_equation in *. destruct first, last; try done.
  destruct ml, (w / 256 / 16 =? 14); cbn [andb negb] in *;
    rewrite ?andb_false_r, ?andb_true_r in *; exact H.
Qed.

Lemma public_v4 n :
  0 ≤ n < 2 ^ 32 →
  isAllowed [] (Addr.V4 n) = negb (existsb (λ p, Prefix.Contains p (Addr.V4 n)) blocked).
Proof.
  intros Hn. unfold isAllowed, blocked, Prefix.Contains, Addr.IsGlobalUnicast, Addr.IsPrivate,
    Addr.IsLoopback, Addr.IsLinkLocalUnicast, Addr.IsLinkLocalMulticast, Addr.IsMulticast,
    Addr.IsUnspecified, Addr.IsValid, Addr.Unmap, Addr.v4_0.
  cbn [existsb Prefix.Addr_ Prefix.Bits]. rewrite !same_prefix.
  rewrite !(bool_decide_eq_false_2 (Addr.V4 n = Addr.Invalid)), !(bool_decide_eq_false_2 (Addr.V4 n = Addr.V6 _ _)) by done.
  assert (bool_decide (Addr.V4 n = Addr.V4 0) = (n =? 0)) as ->.
  { apply eq_iff_eq_true. rewrite bool_decide_eq_true, Z.eqb_eq. naive_solver. }
  change (Z.land (Z.shiftr n 16) 255) with (Z.land (Z.shiftr n 16) (Z.ones 8)).
  rewrite Z.land_ones, !Z.shiftr_div_pow2 by done.
  destruct (mask_byte (n / 2 ^ 24)) as (-> & _ & _).
  { split; [apply Z.div_pos|apply Z.div_lt_upper_bound]; lia. }
  destruct (mask_byte (n / 2 ^ 16 mod 2 ^ 8)) as (_ & -> & _); [by apply Z.mod_pos_bound|].
  assert (∀ k, 0 ≤ k → n / 2 ^ (16 + k) = n / 2 ^ 16 / 2 ^ k) as Hdiv.
  { intros k Hk. by rewrite Z.pow_add_r, Z.div_div by lia. }
  pose proof (Hdiv 8 ltac:(done)) as H8. pose proof (Hdiv 4 ltac:(done)) as H4.
  pose proof (Hdiv 12 ltac:(done)) as H12.
  assert (0 ≤ n / 2 ^ 16 < 65536) as Hw by (split; [apply Z.div_pos|apply Z.div_lt_upper_bound]; lia).
  assert ((n / 2 ^ 8 =? 224 * 2 ^ 16) =
          (n / 2 ^ 8 =? 224 * 2 ^ 16) && (n / 2 ^ 24 / 16 =? 14)) as ->.
  { destruct (n / 2 ^ 8 =? 224 * 2 ^ 16) eqn:E; [|done]. apply Z.eqb_eq in E.
    change (2 ^ 24) with (2 ^ 8 * 2 ^ 16). by rewrite <-Z.div_div, E by done. }
  change (32 - 32) with 0. change (32 - 8) with (16 + 8). change (32 - 12) with (16 + 4).
  change (32 - 4) with (16 + 12). change (32 - 16) with 16. change 24 with (16 + 8).
  rewrite H8, H4, H12. change (2 ^ 0) with 1. rewrite Z.div_1_r.
  change (0 / 1) with 0. change ((2 ^ 32 - 1) / 1) with (2 ^ 32 - 1).
  change (10 * 2 ^ (16 + 8) / 2 ^ (16 + 8)) with 10.
  change ((172 * 2 ^ (16 + 8) + 16 * 2 ^ 16) / 2 ^ (16 + 4)) with 2753.
  change ((192 * 2 ^ (16 + 8) + 168 * 2 ^ 16) / 2 ^ 16) with 49320.
  change (127 * 2 ^ (16 + 8) / 2 ^ (16 + 8)) with 127.
  change ((169 * 2 ^ (16 + 8) + 254 * 2 ^ 16) / 2 ^ 16) with 43518.
  change (224 * 2 ^ (16 + 8) / 2 ^ (16 + 12)) with 14.
  change (2 ^ 8) with 256. change (2 ^ 4) with 16. change (2 ^ 12) with 4096.
  pose proof (word_equation_holds (n / 2 ^ 16) (n =? 0) (n =? 2 ^ 32 - 1) (n / 2 ^ 8 =? 224 * 2 ^ 16) Hw) as He.
  apply eqb_prop in He. exact He.
Qed.

Lemma public_v6 n :
  0 ≤ n < 2 ^ 128 → Z.shiftr n 32 ≠ 65535 →
  isAllowed [] (Addr.V6 n "") = negb (existsb (λ p, Prefix.Contains p (Addr.V6 n "")) blocked).
Proof.
  intros Hn Hmap. unfold isAllowed, blocked, Prefix.Contains, Addr.IsGlobalUnicast, Addr.IsPrivate,
    Addr.IsLoopback, Addr.IsLinkLocalUnicast, Addr.IsLinkLocalMulticast, Addr.IsMulticast,
    Addr.IsUnspecified, Addr.IsValid, Addr.v6_0, Addr.v6u16_0.
  assert (Addr.Unmap (Addr.V6 n "") = Addr.V6 n "") as Hu.
  { unfold Addr.Unmap. by rewrite (proj2 (Z.eqb_neq _ _) Hmap). }
  rewrite !Hu.
  cbn [existsb Prefix.Addr_ Prefix.Bits]. rewrite !same_prefix.
  rewrite !(bool_decide_eq_false_2 (Addr.V6 n "" = Addr.Invalid)), !(bool_decide_eq_false_2 (Addr.V6 n "" = Addr.V4 _)) by done.
  rewrite !(bool_decide_eq_true_2 ("" = "")) by done.
  assert (bool_decide (Addr.V6 n "" = Addr.V6 0 "") = (n =? 0)) as ->.
  { apply eq_iff_eq_true. rewrite bool_decide_eq_true, Z.eqb_eq. split; [by intros [= ->]|by intros ->]. }
  rewrite !Z.shiftr_div_pow2 by done.
  assert (0 ≤ n / 2 ^ 112 < 65536) as Hw by (split; [apply Z.div_pos|apply Z.div_lt_upper_bound]; lia).
  assert (∀ k, 0 ≤ k → n / 2 ^ (112 + k) = n / 2 ^ 112 / 2 ^ k) as Hdiv.
  { intros k Hk. by rewrite Z.pow_add_r, Z.div_div by lia. }
  change (128 - 128) with 0. change (128 - 7) with (112 + 9). change (128 - 10) with (112 + 6).
  change (128 - 8) with (112 + 8). change 120 with (112 + 8).
  rewrite (Hdiv 8), (Hdiv 9), (Hdiv 6) by done. change (2 ^ 0) with 1. rewrite Z.div_1_r.
  change (0 / 1) with 0. change (1 / 1) with 1.
  change (252 * 2 ^ (112 + 8) / 2 ^ (112 + 9)) with 126.
  change (65152 * 2 ^ 112 / 2 ^ (112 + 6)) with 1018.
  change (255 * 2 ^ (112 + 8) / 2 ^ (112 + 8)) with 255.
  set (w := n / 2 ^ 112) in *.
  destruct (mask_word w Hw) as [-> Hml].
  change (2 ^ 6) with 64. change (2 ^ 8) with 256. change (2 ^ 9) with (256 * 2).
  rewrite <-Z.div_div by done.
  destruct (mask_byte (w / 256)) as (_ & _ & ->).
  { split; [apply Z.div_pos|apply Z.div_lt_upper_bound]; lia. }
  destruct (Z.land w 65295 =? 65282); [rewrite Hml by done|].
  all: destruct (n =? 0), (n =? 1), (w / 64 =? 1018), (w / 256 / 2 =? 126), (w / 256 =? 255); done.
Qed.

(** An address is accepted exactly when it is in a configured prefix or is outside
    of every non-public block: unspecified, broadcast, loopback, private, link-local
    and multicast. *)
Theorem isAllowed_blocks allowed a :
  plain a →
  isAllowed allowed a = true ↔
  (∃ p, p ∈ allowed ∧ Prefix.Contains p a = true) ∨
  ∀ p, p ∈ blocked → Prefix.Contains p a = false.
Proof.
  intros Ha. assert (isAllowed [] a = negb (existsb (λ p, Prefix.Contains p a) blocked)) as Hpub.
  { destruct a as [|n|n zone]; [done|by apply public_v4|]. destruct Ha as (? & -> & ?). by apply public_v6. }
  unfold isAllowed in Hpub |- *. simpl existsb in Hpub at 1. rewrite orb_false_l in Hpub.
  rewrite Hpub, orb_true_iff, negb_true_iff, existsb_exists. split.
  - intros [(p & Hp & Hc)|Hn]; [left|right].
    + exists p. by rewrite list_elem_of_In.
    + intros p Hp. apply not_true_iff_false. intros Hc. rewrite <-not_true_iff_false in Hn.
      apply Hn, existsb_exists. exists p. by rewrite <-list_elem_of_In.
  - intros [(p & Hp & Hc)|Hall]; [left|right].
    + exists p. by rewrite <-list_elem_of_In.
    + apply not_true_iff_false. intros (p & Hp & Hc)%existsb_exists. rewrite Hall in Hc; [done|].
      by rewrite list_elem_of_In.
Qed.

Lemma dial_candidates_sound dial port candidates lastErr :
  let '(dialed, r) := dial_candidates dial port candidates lastErr in
  (∃ rest, candidates = dialed ++ rest) ∧
  match r with
  | Ok connection => ∃ before a, dialed = before ++ [a] ∧ dial a port = Ok connection ∧
      ∀ b, b ∈ before → is_ok (dial b port) = false
  | Err _ => dialed = candidates
  end.
Proof.
  revert lastErr. induction candidates as [|a candidates IH]; intros lastErr; simpl.
  - split; [by exists []|done].
  - destruct (dial a port) as [connection|err] eqn:Ed.
    + split; [by exists candidates|]. exists [], a. split_and!; [done|done|].
      intros b Hb. by apply elem_of_nil in Hb.
    + specialize (IH err). destruct (dial_candidates dial port candidates err) as [dialed r].
      destruct IH as [[rest ->] Hr]. split; [by exists rest|].
      destruct r as [connection|e]; [|by rewrite Hr at 1].
      destruct Hr as (before & b & -> & Hb & Hall). exists (a :: before), b. split_and!; [done|done|].
      intros b' [->|Hin]%elem_of_cons; [by rewrite Ed|by apply Hall].
Qed.

Lemma validated_Ok allowed LookupIP host addresses :
  validated allowed LookupIP host = Ok addresses →
  lookup LookupIP host = Ok addresses ∧ addresses ≠ [] ∧
  ∀ a, a ∈ addresses → isAllowed allowed a = true.
Proof.
  unfold validated. destruct (lookup LookupIP host) as [l|]; [|done].
  rewrite bind_Ok. intros ([] & Hne & Hrest). rewrite bind_Ok in Hrest.
  destruct Hrest as ([] & Hb & [= ->]). apply reject_if_Ok, bool_decide_eq_false in Hne.
  apply reject_if_Ok in Hb. split_and!; [done|done|]. intros a Ha. apply not_false_iff_true. intros Hn.
  rewrite <-not_true_iff_false in Hb. apply Hb, existsb_exists. exists a.
  by rewrite <-list_elem_of_In, Hn.
Qed.

(** C14: A connection is only made to an address the policy allows, and the resolution
    that is checked is the one that is dialed: whatever the resolver and the dialer
    answer, every address dialed is one of this lookup's, every address of the lookup
    is allowed, and a lookup with one blocked address dials nothing. *)
Theorem DialContext_only_allowed allowed LookupIP dial address :
  let '(dialed, r) := DialContext allowed LookupIP dial address in
  (dialed = [] ∧ is_ok r = false) ∨
  ∃ host port addresses, SplitHostPort address = Some (host, port) ∧
    lookup LookupIP host = Ok addresses ∧
    (∀ a, a ∈ addresses → isAllowed allowed a = true) ∧
    (∃ rest, addresses = dialed ++ rest) ∧
    match r with
    | Ok connection => ∃ before a, dialed = before ++ [a] ∧ dial a port = Ok connection
    | Err _ => dialed = addresses
    end.
Proof.
  unfold DialContext. destruct (SplitHostPort address) as [[host port]|]; [|by left].
  destruct (validated allowed LookupIP host) as [addresses|err] eqn:Ev; [|by left].
  apply validated_Ok in Ev as (Hl & _ & Hall).
  pose proof (dial_candidates_sound dial port addresses (NewError "")) as Hd.
  destruct (dial_candidates dial port addresses (NewError "")) as [dialed r].
  destruct Hd as [Hrest Hr]. right. exists host, port, addresses. split_and!; [done..|]. destruct r; [|done].
  destruct Hr as (before & last & ? & ? & _). by exists before, last.
Qed.

(** ** Examples *)

Example ParseAddr_examples :
  Addr.ParseAddr "10.0.0.1" = Some (Addr.V4 (10 * 2 ^ 24 + 1)) ∧
  Addr.ParseAddr "010.0.0.1" = None ∧
  Addr.ParseAddr "::1" = Some (Addr.V6 1 "") ∧
  Addr.ParseAddr "fe80::1%eth0" = Some (Addr.V6 (65152 * 2 ^ 112 + 1) "eth0") ∧
  Addr.ParseAddr "1:2:3:4:5:6:7:8::" = None ∧
  Addr.Unmap <$> Addr.ParseAddr "::ffff:127.0.0.1" = Some (Addr.V4 (127 * 2 ^ 24 + 1)).
Proof. by vm_compute. Qed.

Example ParseAllowedPrefixes_example :
  ParseAllowedPrefixes "10.1.2.3/8, fd00::/8" =
  Ok [Prefix.mk (Addr.V4 (10 * 2 ^ 24)) 8; Prefix.mk (Addr.V6 (253 * 2 ^ 120) "") 8].
Proof. by vm_compute. Qed.

Example SplitHostPort_examples :
  SplitHostPort "[::1]:443" = Some ("::1", "443") ∧ SplitHostPort "example.com:6443" =
  Some ("example.com", "6443") ∧ SplitHostPort "::1:443" = None ∧ Hostname "[fe80::1]:6443" = "fe80::1".
Proof. by vm_compute. Qed.

(** The unspecified address with a zone is none of the blocked addresses to net/netip,
    whose [IsUnspecified] and [IsGlobalUnicast] compare with the zoneless one: the
    policy accepts it. *)
Example zoned_unspecified_allowed :
  isAllowed [] (Addr.V6 0 "") = false ∧
  ValidateHost [] (λ _, Ok []) "::%lo" = Ok tt ∧
  (DialContext [] (λ _, Ok []) (λ _ _, Ok 0%nat) "[::%lo]:443").1 = [Addr.V6 0 "lo"].
Proof. by vm_compute. Qed.

Lemma isAllowed_blocks_witness :
  isAllowed [Prefix.mk (Addr.V4 (10 * 2 ^ 24)) 8] (Addr.V4 (10 * 2 ^ 24 + 1)) = true ∧
  isAllowed [] (Addr.V4 (10 * 2 ^ 24 + 1)) = false.
Proof.
  split.
  - apply isAllowed_blocks; [done|]. left. eexists. split; [by left|by vm_compute].
  - by vm_compute.
Defined.

End Outbound.
