(* ===== verification/HttpClient.v ===== *)
(** * HTTP requests with redirects (net/http's Client, src/internal/helmadapter/secure_getter.go)

    [http.Client.Do] as the program uses it: requests without a body, their redirects
    with the headers that are copied, and the round trippers.  What a server and a
    resolver answer are effects, so that every statement is about all of them. *)

From S2P Require Export Outbound Base64.

Local Open Scope Z_scope.
Local Open Scope stdpp_scope.

(** ** Programs over effects *)

Inductive io (E : Type → Type) (A : Type) : Type :=
  | Return (a : A)
  | Effect {X} (e : E X) (k : X → io E A).
Arguments Return {E A} a.
Arguments Effect {E A X} e k.

Fixpoint io_bind_ {E A B} (f : A → io E B) (m : io E A) : io E B :=
  match m with
  | Return a => f a
  | Effect e k => Effect e (λ x, io_bind_ f (k x))
  end.

#[export] Instance io_ret {E} : MRet (io E) := @Return E.
#[export] Instance io_bind {E} : MBind (io E) := @io_bind_ E.

Definition trigger {E X} (e : E X) : io E X := Effect e Return.

(** [x, err := m; if err != nil { return zero, err }]. *)
Definition or_fail {E A B} (m : io E (result A)) (k : A → io E (result B)) : io E (result B) :=
  r ← m; match r with Ok a => k a | Err err => Return (Err err) end.

Declare Scope io_scope.
Delimit Scope io_scope with io.
Notation "x ←~ m ; k" := (or_fail m (λ x, k))
  (at level 20, m at level 100, k at level 200, right associativity) : io_scope.
Notation "m ;~ k" := (or_fail m (λ _, k))
  (at level 100, k at level 200, right associativity) : io_scope.
Local Open Scope io_scope.

(** The program of one kind of effects as one of another, [f] being what becomes of each. *)
Fixpoint interpret {E F A} (f : ∀ X, E X → io F X) (m : io E A) : io F A :=
  match m with
  | Return a => Return a
  | Effect e k => x ← f _ e; interpret f (k x)
  end.

(** A watched program: [allowed] says which effects may happen in a state, [next] what
    becomes of the state with the answer. *)
Section watch.
Context {E : Type → Type} {S : Type}.
Context (allowed : S → ∀ X, E X → Prop) (next : S → ∀ X, E X → X → S).

Fixpoint watched {A} (m : io E A) (s : S) (Q : A → S → Prop) : Prop :=
  match m with
  | Return a => Q a s
  | Effect e k => allowed s _ e ∧ ∀ x, watched (k x) (next s _ e x) Q
  end.

Lemma watched_bind {A B} (m : io E A) (f : A → io E B) s Q :
  watched m s (λ a s, watched (f a) s Q) → watched (m ≫= f) s Q.
Proof.
  revert s. induction m as [a|X e k IH]; intros s Hm; [done|]. cbn in *.
  destruct Hm as [He Hk]. split; [done|]. intros x. by apply IH.
Qed.

Lemma watched_mono {A} (m : io E A) s (Q Q' : A → S → Prop) :
  watched m s Q → (∀ a s, Q a s → Q' a s) → watched m s Q'.
Proof.
  intros Hm HQ. revert s Hm. induction m as [a|X e k IH]; intros s Hm; cbn in *; [auto|].
  destruct Hm as [He Hk]. split; [done|]. intros x. by apply IH.
Qed.

Lemma watched_or_fail {A B} (m : io E (result A)) (k : A → io E (result B)) s Q :
  watched m s (λ r s, match r with Ok a => watched (k a) s Q | Err err => Q (Err err) s end) →
  watched (or_fail m k) s Q.
Proof. intros Hm. apply watched_bind. eapply watched_mono; [exact Hm|]. by intros [a|err] s'. Qed.

Lemma watched_trigger {X B} (e : E X) (f : X → io E B) s Q :
  allowed s _ e → (∀ x, watched (f x) (next s _ e x) Q) → watched (x ← trigger e; f x) s Q.
Proof. by split. Qed.

End watch.

Lemma watched_weaken {E S A} (ok ok' : S → ∀ X, E X → Prop) next (m : io E A) s Q :
  (∀ s X e, ok s X e → ok' s X e) → watched ok next m s Q → watched ok' next m s Q.
Proof.
  intros Hok. revert s. induction m as [a|X e k IH]; intros s Hm; [done|].
  destruct Hm as [He Hk]. split; [by apply Hok|]. intros x. by apply IH.
Qed.

(** A property that every effect of a program keeps. *)
Lemma watched_interpret {E F S A} (allowed : S → ∀ X, E X → Prop) (next : S → ∀ X, E X → X → S) (f : ∀ X, F X → io E X) (m : io F A) (I : S → Prop) s :
  I s → (∀ X (e : F X) s, I s → watched allowed next (f X e) s (λ _, I)) → watched allowed next (interpret f m) s (λ _, I).
Proof.
  intros Hs Hf. revert s Hs. induction m as [a|X e k IH]; intros s Hs; [done|].
  cbn. apply watched_bind. eapply watched_mono; [by apply Hf|]. intros x s' Hs'. by apply IH.
Qed.

(** ** Requests *)

(** What the code uses of net/url's [String], of [URL.Parse], which resolves a reference
    against a URL, and of [strconv.Quote] and [idna.Lookup.ToASCII]. *)
Class URLReferences := {
  URLString : URL.t → string;
  ParseReference : URL.t → string → option URL.t;
  Quote : string → string;
  ToASCII : string → option string;
}.

(** The header has one value for each name.  A request to a URL with user information
    and without [Authorization] is sent with that of the URL. *)
Module HTTPRequest.
Record t : Type := mk { Method : string; URL : URL.t; Header : gmap string string }.
End HTTPRequest.
Notation HTTPRequest := HTTPRequest.t.

(** [ContentLength] is -1 when it is unknown; [Broken] says that reading the body ends
    with an error. *)
Module HTTPResponse.
Record t : Type := mk { StatusCode : Z; Location : string; ContentLength : Z; Body : string; Broken : bool }.
End HTTPResponse.
Notation HTTPResponse := HTTPResponse.t.

Definition basicAuth (username password : string) : string :=
  "Basic " +:+ StdEncodeToString (byte <$> bytes (username +:+ ":" +:+ password)).

Definition SetHeader (r : HTTPRequest) (key value : string) : HTTPRequest :=
  HTTPRequest.mk r.(HTTPRequest.Method) r.(HTTPRequest.URL) (<[key := value]> r.(HTTPRequest.Header)).
Definition DelHeader (r : HTTPRequest) (key : string) : HTTPRequest :=
  HTTPRequest.mk r.(HTTPRequest.Method) r.(HTTPRequest.URL) (delete key r.(HTTPRequest.Header)).
Definition SetBasicAuth (r : HTTPRequest) (username password : string) : HTTPRequest :=
  SetHeader r "Authorization" (basicAuth username password).

(** What the resolver would answer now, and an exchange with a server. *)
Inductive http : Type → Type :=
  | Resolver : http Outbound.resolution
  | RoundTrip (r : HTTPRequest) : http (result HTTPResponse).

Section client.
Context `{URLParser} `{URLReferences}.

(** [http.NewRequestWithContext] without a body. *)
Definition NewRequest (method rawURL : string) : result HTTPRequest :=
  match ParseURL rawURL with
  | None => Err (NewError "parse")
  | Some u => Ok (HTTPRequest.mk method
      (URL.mk u.(URL.Scheme) u.(URL.HasUser) (TrimSuffix u.(URL.Host) ":") u.(URL.Path) u.(URL.RawQuery) u.(URL.Fragment)) ∅)
  end.

(** [idnaASCIIFromURL], [isDomainOrSubdomain] and [shouldCopyHeaderOnRedirect]. *)
Definition idnaASCIIFromURL (u : URL.t) : string :=
  let addr := Outbound.Hostname u.(URL.Host) in
  if all_bytes is_ascii addr then addr else default addr (ToASCII addr).

Definition isDomainOrSubdomain (sub parent : string) : bool :=
  bool_decide (sub = parent) ||
  (negb (ContainsAny sub ":%") &&
   match strip_prefix (string_rev parent) (string_rev sub) with Some (String "." _) => true | _ => false end).

Definition shouldCopyHeaderOnRedirect (initial dest : URL.t) : bool :=
  isDomainOrSubdomain (idnaASCIIFromURL dest) (idnaASCIIFromURL initial).

(** The headers [copyHeaders] leaves out when a redirect left the first host. *)
Definition sensitive : list string :=
  ["Authorization"; "Www-Authenticate"; "Cookie"; "Cookie2"; "Proxy-Authorization"; "Proxy-Authenticate"].

Definition copyHeaders (header : gmap string string) (stripSensitiveHeaders : bool) : gmap string string :=
  if stripSensitiveHeaders then foldr delete header sensitive else header.

(** [refererForURL]. *)
Definition refererForURL (lastReq newReq : URL.t) (explicitRef : string) : string :=
  if bool_decide (lastReq.(URL.Scheme) = "https") && bool_decide (newReq.(URL.Scheme) = "http") then ""
  else if negb (bool_decide (explicitRef = "")) then explicitRef
  else URLString (URL.mk lastReq.(URL.Scheme) false lastReq.(URL.Host) lastReq.(URL.Path) lastReq.(URL.RawQuery) lastReq.(URL.Fragment)).

(** [redirectBehavior]: the method of the next request, for one without a body. *)
Definition redirectBehavior (method : string) (status : Z) : option string :=
  if bool_decide (status ∈ [301; 302; 303]) then
    Some (if bool_decide (method = "GET") || bool_decide (method = "HEAD") then method else "GET")
  else if bool_decide (status ∈ [307; 308]) then Some method
  else None.

(** [url.Error]. *)
Definition url_error (method url : string) (err : error) : error :=
  let op := match method with "" => "Get" | String c s => String c (ToLower s) end in
  Errorf (op +:+ " " +:+ Quote url +:+ ": ") err.

(** A client: its round tripper, and what it makes of a redirect. *)
Record Client : Type := mkClient {
  Transport : HTTPRequest → io http (result HTTPResponse);
  CheckRedirect : HTTPRequest → list HTTPRequest → result HTTPRequest;
}.

(** [defaultCheckRedirect]. *)
Definition defaultCheckRedirect (request : HTTPRequest) (via : list HTTPRequest) : result HTTPRequest :=
  reject_if (10 <=? len_list via) (NewError "stopped after 10 redirects") ;; Ok request.

(** The request a redirect of [request] is answered with. *)
Definition redirected (first request : HTTPRequest) (method : string) (u : URL.t) (strip : bool) : HTTPRequest :=
  let header := copyHeaders first.(HTTPRequest.Header) strip in
  let ref := refererForURL request.(HTTPRequest.URL) u (default "" (header !! "Referer")) in
  HTTPRequest.mk method u (if bool_decide (ref = "") then header else <["Referer" := ref]> header).

(** The loop of [Client.do]: [via] are the requests before [request], of which [first]
    is the first.  [None]: the [fuel], for as many requests, was not enough. *)
Fixpoint send (fuel : nat) (c : Client) (first request : HTTPRequest) (via : list HTTPRequest) (strip : bool) :
    io http (option (result HTTPResponse)) :=
  match fuel with
  | O => Return None
  | S fuel =>
      let uerr := url_error first.(HTTPRequest.Method) (URLString request.(HTTPRequest.URL)) in
      sent ← c.(Transport) request;
      match sent with
      | Err err => Return (Some (Err (uerr err)))
      | Ok response =>
          match redirectBehavior request.(HTTPRequest.Method) response.(HTTPResponse.StatusCode) with
          | None => Return (Some (Ok response))
          | Some method =>
              let loc := response.(HTTPResponse.Location) in
              if bool_decide (loc = "") then Return (Some (Ok response)) else
              match ParseReference request.(HTTPRequest.URL) loc with
              | None => Return (Some (Err (uerr (NewError "failed to parse Location header"))))
              | Some u =>
                  let strip := strip ||
                    (negb (bool_decide (first.(HTTPRequest.URL).(URL.Host) = u.(URL.Host))) &&
                     negb (shouldCopyHeaderOnRedirect first.(HTTPRequest.URL) u)) in
                  match c.(CheckRedirect) (redirected first request method u strip) (via ++ [request]) with
                  | Err err => Return (Some (Err (url_error first.(HTTPRequest.Method) loc err)))
                  | Ok request' => send fuel c first request' (via ++ [request]) strip
                  end
              end
          end
      end
  end.

(** Enough for every client of the program: each stops after ten requests or fewer. *)
Definition Do (c : Client) (request : HTTPRequest) : io http (result HTTPResponse) :=
  r ← send 10 c request request [] false; Return (default (Err (NewError "redirects")) r).

(** A limited body: [io.LimitReader]; and [io.ReadAll]. *)
Definition LimitReader (n : Z) (response : HTTPResponse) : HTTPResponse :=
  let '(HTTPResponse.mk status location length body broken) := response in
  if len body <? n then response
  else HTTPResponse.mk status location length (take_bytes (Z.to_nat n) body) false.

Definition ReadAll (response : HTTPResponse) : result string :=
  if response.(HTTPResponse.Broken) then Err (NewError "read") else Ok response.(HTTPResponse.Body).

(** ** The round trips of the policy *)

Context (allowed : list Outbound.Prefix.t).

Definition validate (rawURL : string) : io http (result URL.t) :=
  resolver ← trigger Resolver; Return (Outbound.ValidateHTTPSURL allowed resolver rawURL).

Definition policyRoundTripper (maxBytes : Z) (request : HTTPRequest) : io http (result HTTPResponse) :=
  valid ← validate (URLString request.(HTTPRequest.URL));
  match valid with
  | Err err => Return (Err (Errorf "outbound request is blocked: " err))
  | Ok _ =>
      response ←~ trigger (RoundTrip request);
      if maxBytes <? response.(HTTPResponse.ContentLength)
      then Return (Err (NewError "outbound response exceeds size limit"))
      else Return (Ok (LimitReader (maxBytes + 1) response))
  end.
End client.

(** ** What a client sends *)

Section clients.
Context `{URLParser} `{URLReferences}.

(** A redirect that keeps the headers stays with the first host and its subdomains. *)
Definition same_site (first u : URL.t) : Prop :=
  first.(URL.Host) = u.(URL.Host) ∨ shouldCopyHeaderOnRedirect first u = true.

(** The states of a watched client: the last answer of the resolver that was not used
    yet, the requests that were sent, and the answer to the last. *)
Record traffic : Type := mkTraffic {
  resolver : option Outbound.resolution;
  sent : list HTTPRequest;
  answer : option HTTPResponse;
}.

Definition no_traffic : traffic := mkTraffic None [] None.

Definition observe (s : traffic) X (e : http X) : X → traffic :=
  match e in http X return X → traffic with
  | Resolver => λ x, mkTraffic (Some x) s.(sent) s.(answer)
  | RoundTrip r => λ x, mkTraffic None (s.(sent) ++ [r]) (match x with Ok response => Some response | Err _ => None end)
  end.

(** Before a request is sent, the policy has accepted the text of its URL, as the
    resolver answered for this request. *)
Definition validated_url (allowed : list Prefix.t) (s : traffic) (u : URL.t) : Prop :=
  ∃ resolver' u', s.(resolver) = Some resolver' ∧
    Outbound.ValidateHTTPSURL allowed resolver' (URLString u) = Ok u'.

(** [may_send n P]: at most [n] requests, each with [P]. *)
Definition may_send (n : nat) (P : traffic → HTTPRequest → Prop) (s : traffic) X (e : http X) : Prop :=
  match e with
  | Resolver => True
  | RoundTrip r => (length s.(sent) < n)%nat ∧ P s r
  end.

Lemma redirectBehavior_GET status method : redirectBehavior "GET" status = Some method → method = "GET".
Proof. unfold redirectBehavior. by do 2 case_bool_decide; intros [= <-]. Qed.

Lemma watched_validate_with {S} (ok : S → ∀ X, http X → Prop) (next : S → ∀ X, http X → X → S) allowed rawURL s (Q : result URL.t → S → Prop) :
  ok s _ Resolver → (∀ resolver', Q (Outbound.ValidateHTTPSURL allowed resolver' rawURL) (next s _ Resolver resolver')) →
  watched ok next (validate allowed rawURL) s Q.
Proof. by split. Qed.

Lemma watched_validate allowed n P rawURL s (Q : result URL.t → traffic → Prop) :
  (∀ resolver', Q (Outbound.ValidateHTTPSURL allowed resolver' rawURL) (mkTraffic (Some resolver') s.(sent) s.(answer))) →
  watched (may_send n P) observe (validate allowed rawURL) s Q.
Proof. intros HQ. apply watched_validate_with; [done|exact HQ]. Qed.

(** The rules of a client's loop: [P] holds of the requests, [n] bounds their number, [T]
    holds of what was answered. *)
Lemma watched_send {S} (ok : S → ∀ X, http X → Prop) next (c : Client) first n
    (P : HTTPRequest → Prop) (I : nat → S → Prop) (T : HTTPResponse → S → Prop) :
  (∀ r k s, P r → I k s → (k < n)%nat →
     watched ok next (c.(Transport) r) s (λ x s', I (Datatypes.S k) s' ∧ ∀ response, x = Ok response → T response s')) →
  (∀ request status method u strip via r, P request → redirectBehavior request.(HTTPRequest.Method) status = Some method →
     (strip = false → same_site first.(HTTPRequest.URL) u) →
     c.(CheckRedirect) (redirected first request method u strip) via = Ok r → P r ∧ (length via < n)%nat) →
  ∀ fuel request via strip s, P request → I (length via) s → (length via < n)%nat → (n ≤ length via + fuel)%nat →
  watched ok next (send fuel c first request via strip) s (λ r s',
    ∃ r', r = Some r' ∧ ∀ response, r' = Ok response → T response s').
Proof.
  intros Htransport Hredirect fuel. induction fuel as [|fuel IH]; intros request via strip s HP HI Hn Hfuel; [lia|].
  cbn [send]. apply watched_bind. eapply watched_mono; [by apply Htransport|].
  intros [response|err] s' [HI' HT]; [|by eexists].
  destruct (redirectBehavior _ _) as [method|] eqn:Hm; [|by eexists; split; [done|]; intros ? [= <-]; apply HT].
  case_bool_decide; [by eexists; split; [done|]; intros ? [= <-]; apply HT|].
  destruct (ParseReference _ _) as [u|]; [|by eexists].
  match goal with |- context [redirected first request method u ?b] => set (strip' := b) end.
  destruct (c.(CheckRedirect) _ _) as [r|err] eqn:Hr; [|by eexists].
  eapply Hredirect in Hr as [Hr Hl]; [|done|exact Hm|].
  - apply IH; rewrite ?length_app in *; simpl in *; [done| |lia|lia]. by rewrite Nat.add_1_r.
  - unfold strip', same_site. intros [_ [->%negb_false_iff%bool_decide_eq_true | ->%negb_false_iff]%andb_false_iff]%orb_false_iff; auto.
Qed.

Lemma watched_Do {S} (ok : S → ∀ X, http X → Prop) next (c : Client) request n
    (P : HTTPRequest → Prop) (I : nat → S → Prop) (T : HTTPResponse → S → Prop) s
    (Q : result HTTPResponse → S → Prop) :
  (∀ r k s, P r → I k s → (k < n)%nat →
     watched ok next (c.(Transport) r) s (λ x s', I (Datatypes.S k) s' ∧ ∀ response, x = Ok response → T response s')) →
  (∀ r status method u strip via r', P r → redirectBehavior r.(HTTPRequest.Method) status = Some method →
     (strip = false → same_site request.(HTTPRequest.URL) u) →
     c.(CheckRedirect) (redirected request r method u strip) via = Ok r' → P r' ∧ (length via < n)%nat) →
  P request → I O s → (0 < n ≤ 10)%nat →
  (∀ r s, (∀ response, r = Ok response → T response s) → Q r s) →
  watched ok next (Do c request) s Q.
Proof.
  intros Htransport Hredirect HP HI Hn HQ. apply watched_bind. eapply watched_mono.
  - apply (watched_send ok next c request n P I T); try done; simpl; lia.
  - intros r s' (r' & -> & HT). by apply HQ.
Qed.

(** What the policy lets through of an answer. *)
Lemma watched_policy allowed maxBytes n (P : HTTPRequest → Prop) r s (k : nat) :
  P r → (length s.(sent) ≤ k)%nat → (k < n)%nat →
  watched (may_send n (λ s r, validated_url allowed s r.(HTTPRequest.URL) ∧ P r)) observe
    (policyRoundTripper allowed maxBytes r) s (λ x s', (length s'.(sent) ≤ Datatypes.S k)%nat ∧
      ∀ response, x = Ok response → ∃ a, s'.(answer) = Some a ∧
        a.(HTTPResponse.ContentLength) ≤ maxBytes ∧ response = LimitReader (maxBytes + 1) a).
Proof.
  intros HP Hk Hn. apply watched_bind, watched_validate. intros resolver'.
  destruct (Outbound.ValidateHTTPSURL _ _ _) as [u|err] eqn:E; cbn; [|split; [lia|done]].
  split; [split; [lia|]; split; [|done]; by exists resolver', u|].
  intros [response|err]; cbn; [|rewrite length_app; simpl; split; [lia|done]].
  destruct (Z.ltb_spec maxBytes response.(HTTPResponse.ContentLength)); cbn; rewrite length_app; simpl; split; try lia; [done|].
  intros ? [= <-]. by exists response.
Qed.
End clients.

(** ** Limits of what is read *)

(** What is read of a limited body is all of it, and it was not broken off. *)
Lemma LimitReader_whole n a payload :
  0 ≤ n → ReadAll (LimitReader (n + 1) a) = Ok payload → len payload ≤ n →
  payload = a.(HTTPResponse.Body) ∧ a.(HTTPResponse.Broken) = false.
Proof.
  destruct a as [status location length body broken]. unfold ReadAll. cbn. intros Hn.
  destruct (Z.ltb_spec (len body) (n + 1)); cbn.
  - by destruct broken; intros [= <-].
  - intros [= <-]. unfold len in *. rewrite take_bytes_length. lia.
Qed.

Lemma LimitReader_again n a : 0 ≤ n → LimitReader n (LimitReader n a) = LimitReader n a.
Proof.
  intros Hn. destruct a as [status location length body broken]. unfold LimitReader.
  destruct (Z.ltb_spec (len body) n) as [Hl|Hl]; [by rewrite (proj2 (Z.ltb_lt _ _) Hl)|].
  rewrite (proj2 (Z.ltb_ge _ _)) by (unfold len in *; rewrite take_bytes_length; lia).
  f_equal. clear Hl. revert body. generalize (Z.to_nat n). intros m.
  induction m as [|m IH]; intros [|c body]; simpl; [done..|]. by rewrite IH.
Qed.
