(* ===== verification/ChartGetter.v ===== *)
(** * Downloading charts (src/internal/helmadapter/secure_getter.go)

    The getter that downloads the index of a repository and its charts: who is asked,
    which requests carry the repository's credentials, and how much is read. *)

From S2P Require Export HttpClient.

Local Open Scope Z_scope.
Local Open Scope stdpp_scope.
Local Open Scope io_scope.

Definition maxChartArchiveBytes : Z := 64 * 1024 * 1024.

Module secureHTTPGetter.
Record t : Type := mk { repositoryHost : string; username : string; password : string; Timeout : duration }.
End secureHTTPGetter.
Notation secureHTTPGetter := secureHTTPGetter.t.

Section getter.
Context `{URLParser} `{URLReferences}.

(** [newPolicyHTTPClient]. *)
Definition newPolicyHTTPClient (allowed : list Prefix.t) : Client :=
  mkClient (policyRoundTripper allowed maxChartArchiveBytes) (λ request via,
    reject_if (5 <=? len_list via) (NewError "outbound request exceeded redirect limit") ;; Ok request).

Definition newSecureHTTPGetter (policy : option (list Prefix.t)) (repositoryURL username password : string)
    (timeout : duration) : io http (result secureHTTPGetter) :=
  match policy with
  | None => Return (Err (NewError "outbound policy is required"))
  | Some allowed =>
      let timeout := if timeout <=? 0 then 5 * minute else timeout in
      parsed ← validate allowed repositoryURL;
      match parsed with
      | Err err => Return (Err (Errorf "validate chart repository: " err))
      | Ok parsed => Return (Ok (secureHTTPGetter.mk parsed.(URL.Host) username password timeout))
      end
  end.

Definition setAuthorization (g : secureHTTPGetter) (request : HTTPRequest) : HTTPRequest :=
  let request := DelHeader request "Authorization" in
  if negb (bool_decide (g.(secureHTTPGetter.username) = "")) &&
     bool_decide (request.(HTTPRequest.URL).(URL.Host) = g.(secureHTTPGetter.repositoryHost))
  then SetBasicAuth request g.(secureHTTPGetter.username) g.(secureHTTPGetter.password)
  else request.

(** The getter's client: the redirects are those of [newSecureHTTPGetter]. *)
Definition getter_client (allowed : list Prefix.t) (g : secureHTTPGetter) : Client :=
  mkClient (newPolicyHTTPClient allowed).(Transport) (λ request via,
    reject_if (5 <=? len_list via) (NewError "chart download exceeded redirect limit") ;;
    Ok (setAuthorization g request)).

(** [secureHTTPGetter.Get] once the server has answered. *)
Definition chart_content (response : HTTPResponse) : result string :=
  reject_if ((response.(HTTPResponse.StatusCode) <? 200) || (300 <=? response.(HTTPResponse.StatusCode)))
    (NewError ("chart server returned HTTP " +:+ FormatInt response.(HTTPResponse.StatusCode))) ;;
  reject_if (maxChartArchiveBytes <? response.(HTTPResponse.ContentLength)) (NewError "chart content exceeds size limit") ;;
  match ReadAll (LimitReader (maxChartArchiveBytes + 1) response) with
  | Err err => Err (Errorf "read chart content: " err)
  | Ok payload =>
      reject_if (maxChartArchiveBytes <? len payload) (NewError "chart content exceeds size limit") ;; Ok payload
  end.

Definition Get (allowed : list Prefix.t) (g : secureHTTPGetter) (rawURL : string) : io http (result string) :=
  parsed ← validate allowed rawURL;
  match parsed with
  | Err err => Return (Err (Errorf "validate chart URL: " err))
  | Ok parsed =>
      match NewRequest "GET" (URLString parsed) with
      | Err err => Return (Err (Errorf "create chart request: " err))
      | Ok request =>
          let request := SetHeader request "Accept" "application/gzip, application/octet-stream, application/yaml, text/yaml" in
          response ← Do (getter_client allowed g) (setAuthorization g request);
          match response with
          | Err err => Return (Err (Errorf "download chart content: " err))
          | Ok response => Return (chart_content response)
          end
      end
  end.
End getter.

(** ** Who is asked for charts *)

Section downloads.
Context `{URLParser} `{URLReferences}.

(** The header a request to a host may carry: the credentials of the repository, when it
    has some and the host is its own, and none else. *)
Definition authorization_of (repositoryURL username password : string) (u : URL.t) : option string :=
  match ParseRequestURI (TrimSpace repositoryURL) with
  | Some repository =>
      if bool_decide (username ≠ "" ∧ u.(URL.Host) = repository.(URL.Host))
      then Some (basicAuth username password) else None
  | None => None
  end.

(** What a finished download is: the whole body of the last answer, which was a success. *)
Definition downloaded (payload : string) (s : traffic) : Prop :=
  ∃ a, s.(answer) = Some a ∧ 200 ≤ a.(HTTPResponse.StatusCode) < 300 ∧ a.(HTTPResponse.Body) = payload ∧
    a.(HTTPResponse.Broken) = false ∧ len payload ≤ maxChartArchiveBytes.

(** The requests the repository's credentials may be sent with. *)
Definition guarded (allowed : list Prefix.t) (repositoryURL username password : string) (s : traffic) (r : HTTPRequest) : Prop :=
  validated_url allowed s r.(HTTPRequest.URL) ∧
  r.(HTTPRequest.Header) !! "Authorization" = authorization_of repositoryURL username password r.(HTTPRequest.URL).

Lemma chart_content_whole a payload :
  chart_content (LimitReader (maxChartArchiveBytes + 1) a) = Ok payload →
  200 ≤ a.(HTTPResponse.StatusCode) < 300 ∧ a.(HTTPResponse.Body) = payload ∧ a.(HTTPResponse.Broken) = false ∧
  len payload ≤ maxChartArchiveBytes.
Proof.
  unfold chart_content. rewrite LimitReader_again by done.
  replace (HTTPResponse.StatusCode (LimitReader (maxChartArchiveBytes + 1) a)) with a.(HTTPResponse.StatusCode)
    by (by destruct a; cbn; destruct (_ <? _)).
  intros ([] & [Hlo%Z.ltb_ge Hhi%Z.leb_gt]%reject_if_Ok%orb_false_iff & ([] & _ & Hr)%bind_Ok)%bind_Ok.
  destruct (ReadAll _) as [p|] eqn:E; [|done]. apply bind_Ok in Hr as ([] & Hl%reject_if_Ok%Z.ltb_ge & [= ->]).
  apply LimitReader_whole in E as [-> ->]; [done|by unfold maxChartArchiveBytes|done].
Qed.

(** The getter of a repository. *)
Definition getter_for (repositoryURL username password : string) (g : secureHTTPGetter) : Prop :=
  (∃ repository, ParseRequestURI (TrimSpace repositoryURL) = Some repository ∧
     g.(secureHTTPGetter.repositoryHost) = repository.(URL.Host)) ∧
  g.(secureHTTPGetter.username) = username ∧ g.(secureHTTPGetter.password) = password.

Lemma setAuthorization_guarded repositoryURL username password g r :
  getter_for repositoryURL username password g →
  (setAuthorization g r).(HTTPRequest.URL) = r.(HTTPRequest.URL) ∧
  (setAuthorization g r).(HTTPRequest.Header) !! "Authorization"
    = authorization_of repositoryURL username password r.(HTTPRequest.URL).
Proof.
  intros ((repository & Hp & Hh) & <- & <-). unfold setAuthorization, authorization_of. rewrite Hp. cbn. rewrite Hh.
  destruct (bool_decide (g.(secureHTTPGetter.username) = "")) eqn:E1, (bool_decide (r.(HTTPRequest.URL).(URL.Host) = _)) eqn:E2;
    cbn; rewrite ?bool_decide_eq_true, ?bool_decide_eq_false in *.
  all: first [rewrite bool_decide_eq_true_2 by done | rewrite bool_decide_eq_false_2 by tauto].
  all: split; [done|]; unfold SetBasicAuth, SetHeader; cbn; by rewrite ?lookup_insert_eq, ?lookup_delete_eq.
Qed.

Lemma watched_newSecureHTTPGetter allowed repositoryURL username password timeout n P s (Q : result secureHTTPGetter → traffic → Prop) :
  (∀ r s', s'.(sent) = s.(sent) → (∀ g, r = Ok g → getter_for repositoryURL username password g) → Q r s') →
  watched (may_send n P) observe (newSecureHTTPGetter (Some allowed) repositoryURL username password timeout) s Q.
Proof.
  intros HQ. apply watched_bind, watched_validate. intros resolver'.
  destruct (Outbound.ValidateHTTPSURL _ _ _) as [u|err] eqn:E; apply HQ; try done. intros g [= <-].
  unfold Outbound.ValidateHTTPSURL in E. destruct (ParseRequestURI _) as [u'|] eqn:Hp; [|done].
  apply bind_Ok in E as ([] & _ & ([] & _ & [= ->])%bind_Ok). split; [by exists u|done].
Qed.

Lemma watched_Get allowed repositoryURL username password g rawURL s :
  getter_for repositoryURL username password g →
  watched (may_send (length s.(sent) + 5) (guarded allowed repositoryURL username password)) observe (Get allowed g rawURL) s
    (λ r s', ∀ payload, r = Ok payload → downloaded payload s').
Proof.
  intros Hg. apply watched_bind, watched_validate. intros resolver'.
  destruct (Outbound.ValidateHTTPSURL _ _ _) as [u|err]; [|done].
  destruct (NewRequest _ _) as [request|err]; [|done]. apply watched_bind.
  apply (watched_Do _ _ _ _ 5
    (λ r, r.(HTTPRequest.Header) !! "Authorization" = authorization_of repositoryURL username password r.(HTTPRequest.URL))
    (λ k s', (length s'.(sent) ≤ length s.(sent) + k)%nat)
    (λ response s', ∃ a, s'.(answer) = Some a ∧ response = LimitReader (maxChartArchiveBytes + 1) a)); [| | |simpl; lia|lia|].
  - intros r k s' Hr Hk Hn. pose proof (watched_policy allowed maxChartArchiveBytes (length s.(sent) + 5)
      (λ r, r.(HTTPRequest.Header) !! "Authorization" = authorization_of repositoryURL username password r.(HTTPRequest.URL))
      r s' (length s.(sent) + k) Hr Hk ltac:(lia)) as Hw.
    eapply watched_mono; [exact Hw|]. intros x s'' [Hl Hx]. split; [lia|]. intros response (a & Ha & _ & ->)%Hx. by exists a.
  - intros r status method u' strip via r' _ _ _ ([] & Hv%reject_if_Ok%Z.leb_gt & [= <-])%bind_Ok. unfold len_list in Hv. split; [|lia].
    destruct (setAuthorization_guarded _ _ _ g (redirected (setAuthorization g (SetHeader request "Accept"
      "application/gzip, application/octet-stream, application/yaml, text/yaml")) r method u' strip) Hg) as [-> ->]. done.
  - destruct (setAuthorization_guarded _ _ _ g (SetHeader request "Accept"
      "application/gzip, application/octet-stream, application/yaml, text/yaml") Hg) as [-> ->]. done.
  - intros [response|err] s' HT; [|done]. intros payload Hp. destruct (HT response eq_refl) as (a & Ha & ->).
    apply chart_content_whole in Hp as (? & ? & ? & ?). by exists a.
Qed.

(** C11: The credentials of a chart repository stay with it: whatever the servers answer
    and wherever they redirect to, a download makes at most five requests; each goes to
    a URL that the policy has accepted for this very request, after its host was resolved
    anew; it carries the credentials exactly if its host is that of the repository; and
    what is returned is the whole body of the last answer, a success of at most 64 MiB
    that did not break off. *)
Theorem chart_downloads_guarded allowed repositoryURL username password timeout rawURL :
  watched (may_send 5 (guarded allowed repositoryURL username password)) observe
    (g ←~ newSecureHTTPGetter (Some allowed) repositoryURL username password timeout; Get allowed g rawURL) no_traffic
    (λ r s, ∀ payload, r = Ok payload → downloaded payload s).
Proof.
  apply watched_or_fail, watched_newSecureHTTPGetter. intros [g|err] s Hs Hg; [|done].
  pose proof (watched_Get allowed repositoryURL username password g rawURL s (Hg g eq_refl)) as Hw. by rewrite Hs in Hw.
Qed.
End downloads.

(** ** Examples *)

(** A program alone: [answers] are those of the servers, in their order; every host has
    the address 93.184.216.34.  The result is with the requests that were sent. *)
Fixpoint run_http {A} (m : io http A) (answers : list (result HTTPResponse)) : list HTTPRequest * A :=
  match m with
  | Return a => ([], a)
  | Effect e k =>
      match e in http X return (X → io http A) → _ with
      | Resolver => λ k, run_http (k (λ _, Ok [[93; 184; 216; 34]])) answers
      | RoundTrip r => λ k,
          let '(sent, a) := run_http (k (default (Err (NewError "EOF")) (head answers))) (tail answers) in (r :: sent, a)
      end k
  end.

(** Plain URLs are written as they are read. *)
#[local] Existing Instance plain_parser.

Definition plain_references : URLReferences := {|
  URLString u := u.(URL.Scheme) +:+ "://" +:+ u.(URL.Host) +:+ u.(URL.Path);
  ParseReference u ref := if Contains ref "://" then plain_url ref
    else Some (URL.mk u.(URL.Scheme) u.(URL.HasUser) u.(URL.Host) ref "" "");
  Quote s := s;
  ToASCII := Some;
|}.
#[local] Existing Instance plain_references.

Definition redirect_to (loc : string) : result HTTPResponse := Ok (HTTPResponse.mk 302 loc 0 "" false).
Definition content (body : string) : result HTTPResponse := Ok (HTTPResponse.mk 200 "" (len body) body false).

Definition asked (r : HTTPRequest) : string * string * option string :=
  (r.(HTTPRequest.URL).(URL.Scheme), r.(HTTPRequest.URL).(URL.Host), r.(HTTPRequest.Header) !! "Authorization").

Definition example_download (answers : list (result HTTPResponse)) : list (string * string * option string) * result string :=
  let '(sent, payload) := run_http (g ←~ newSecureHTTPGetter (Some []) "https://charts.example.com" "reader" "secret" 0;
    Get [] g "https://charts.example.com/web-1.tgz") answers in (asked <$> sent, payload).

(** A redirect to another host loses the credentials, and one to plain HTTP is refused. *)
Example download_elsewhere :
  example_download [redirect_to "/v1/web-1.tgz"; redirect_to "https://cdn.example.com/web-1.tgz"; content "chart"] =
    ([("https", "charts.example.com", Some "Basic cmVhZGVyOnNlY3JldA=="); ("https", "charts.example.com", Some "Basic cmVhZGVyOnNlY3JldA==");
      ("https", "cdn.example.com", None)], Ok "chart") ∧
  (example_download [redirect_to "http://charts.example.com/web-1.tgz"; content "chart"]).1 =
    [("https", "charts.example.com", Some "Basic cmVhZGVyOnNlY3JldA==")].
Proof. by vm_compute. Qed.
