(* ===== verification/Fetch.v ===== *)
(** * Requests to a cluster (src/internal/kubernetes/client.go)

    The methods of [Client] are programs over one effect, an HTTP exchange, and the
    clock.  The transport, the server and the network are the environment, which
    answers every request as it likes.  [within] and
    [safe] state what a program does for every answer: how many requests it makes at
    most, which ones, and what it returns; [run] is what it does for given answers. *)

From S2P Require Export Validation Json Models.

Local Open Scope Z_scope.
Local Open Scope stdpp_scope.

(** ** Exchanges *)

Module Request.
(** [Path] is appended to the path of the server's URL. *)
Record t : Type := mk {
  Method : string;
  Path : string;
  Query : option (gmap string string);
  Headers : list (string * string);
  Body : string;
}.
End Request.
Notation Request := Request.t.

Module Certificate.
Record t : Type := mk { Raw : string; NotBefore : time; NotAfter : time }.
End Certificate.
Notation Certificate := Certificate.t.

(** [tls.ConnectionState]: nil certificates are [None]. *)
Module ConnectionState.
Record t : Type := mk {
  HandshakeComplete : bool;
  PeerCertificates : list (option Certificate);
  VerifiedChains : list (list (option Certificate));
}.
End ConnectionState.
Notation ConnectionState := ConnectionState.t.

(** What became of a request: [http.NewRequest] refused it, [http.Client.Do] failed,
    or the server answered with a status and a body, whose reading may break off. *)
Inductive outcome : Type :=
  | Unsent (err : error)
  | Failed (err : error)
  | Answer (status : Z) (body : string) (broken : bool) (TLS : option ConnectionState).

Inductive fetch (A : Type) : Type :=
  | Done (a : A)
  | Do (r : Request) (k : outcome → fetch A)
  | Now (k : time → fetch A).
Arguments Done {A} a.
Arguments Do {A} r k.
Arguments Now {A} k.

#[export] Instance fetch_ret : MRet fetch := @Done.

Fixpoint fetch_bind_ {A B} (f : A → fetch B) (m : fetch A) : fetch B :=
  match m with
  | Done a => f a
  | Do r k => Do r (λ o, fetch_bind_ f (k o))
  | Now k => Now (λ t, fetch_bind_ f (k t))
  end.
#[export] Instance fetch_bind : MBind fetch := @fetch_bind_.

Definition do (r : Request) : fetch outcome := Do r Done.
Definition now : fetch time := Now Done.

(** [x, err := m; if err != nil { return zero, err }; k x] *)
Definition or_return {A B} (m : fetch (result A)) (k : A → fetch (result B)) : fetch (result B) :=
  r ← m; match r with Ok a => k a | Err e => Done (Err e) end.

Declare Scope fetch_scope.
Delimit Scope fetch_scope with fetch.
Notation "x ←! m ; k" := (or_return m (λ x, k))
  (at level 20, m at level 100, k at level 200, right associativity) : fetch_scope.
Notation "' p ←! m ; k" := (or_return m (λ x, match x with p => k end))
  (at level 20, p pattern, m at level 100, k at level 200, right associativity) : fetch_scope.
(** [if bad { return err }; k] and the same for a result that is already there. *)
Notation "m ;! k" := (or_return (Done m) (λ _, k))
  (at level 100, k at level 200, right associativity) : fetch_scope.
Local Open Scope fetch_scope.

(** [fmt.Errorf(message: %w, domain.ErrUpstream)]. *)
Definition upstream (message : string) : error := Errorf (message +:+ ": ") ErrUpstream.

(** ** [requestPayload] *)

Definition maxResponseBytes : Z := 8 * 1024 * 1024.
Definition maxMutationBytes : Z := 2 * 1024 * 1024.
Definition maxLogBytes : Z := 2 * 1024 * 1024.

(** The error of [c.http.Do]. *)
Definition exchange_error (err : error) : error :=
  if Is err Canceled then Errorf "Kubernetes request canceled: " Canceled
  else if Is err DeadlineExceeded then Errorf "Kubernetes request: " ErrTimeout
  else Errorf "Kubernetes request: " ErrUpstream.

Definition status_error (status : Z) : result unit :=
  if (status <? 200) || (300 <=? status) then
    Err (if status =? 401 then Errorf "Kubernetes authentication rejected: " ErrUnauthorized
         else if status =? 403 then Errorf "Kubernetes authorization rejected: " ErrForbidden
         else if status =? 404 then Errorf "Kubernetes resource unavailable: " ErrNotFound
         else if status =? 409 then Errorf "Kubernetes resource version conflict: " ErrConflict
         else Errorf ("Kubernetes returned HTTP " +:+ FormatInt status +:+ ": ") ErrUpstream)
  else Ok tt.

(** [io.ReadAll(io.LimitReader(body, n))]: the break is seen only below the limit. *)
Definition read_limited (n : Z) (body : string) (broken : bool) : result string :=
  if (len body <? n) && broken then Err (NewError "read")
  else Ok (take_bytes (Z.to_nat n) body).

Definition limited_payload (maxBytes : Z) (truncate : bool) (body : string) (broken : bool) :
    result (string * bool) :=
  match read_limited (maxBytes + 1) body broken with
  | Err _ => Err (upstream "read Kubernetes response")
  | Ok payload =>
      if maxBytes <? len payload then
        if truncate then Ok (take_bytes (Z.to_nat maxBytes) payload, true)
        else Err (upstream "Kubernetes response exceeded size limit")
      else Ok (payload, false)
  end.

Section requests.
(** The bearer token of the connection. *)
Context (token : string).

Definition headers (accept contentType : string) : list (string * string) :=
  [("Authorization", "Bearer " +:+ token); ("Accept", accept)] ++
  (if bool_decide (contentType = "") then [] else [("Content-Type", contentType)]).

Definition requestPayload (method path : string) (query : option (gmap string string))
    (accept contentType body : string) (maxBytes : Z) (truncate : bool) :
    fetch (result (string * bool)) :=
  o ← do (Request.mk method path query (headers accept contentType) body);
  match o with
  | Unsent err => Done (Err (Errorf "create Kubernetes request: " err))
  | Failed err => Done (Err (exchange_error err))
  | Answer status body broken _ =>
      status_error status ;!
      Done (limited_payload maxBytes truncate body broken)
  end.

Definition getPayload (path : string) (query : option (gmap string string)) (accept : string)
    (maxBytes : Z) (truncate : bool) : fetch (result (string * bool)) :=
  requestPayload "GET" path query accept "" "" maxBytes truncate.

Definition getJSON {A} `{Json.Zero A} (path : string) (query : option (gmap string string))
    (target : Json.decoder A) : fetch (result A) :=
  '(payload, _) ←! getPayload path query "application/json" maxResponseBytes false;
  Done (expect_ok (upstream "decode Kubernetes response") (Json.Unmarshal target payload)).
End requests.

(** ** What a program does, for every answer

    [within P n m Q]: the program makes at most [n] requests, all in [P], and [Q] holds
    of what it returns and of the number of requests it has left. *)
Fixpoint within {A} (P : Request → Prop) (n : nat) (m : fetch A) (Q : nat → A → Prop) : Prop :=
  match m with
  | Done a => Q n a
  | Do r k => match n with O => False | S n => P r ∧ ∀ o, within P n (k o) Q end
  | Now k => ∀ t, within P n (k t) Q
  end.

Lemma within_weaken {A} P P' n j (m : fetch A) (Q Q' : nat → A → Prop) :
  within P n m Q → (∀ r, P r → P' r) → (∀ l a, Q l a → Q' (l + j)%nat a) → within P' (n + j) m Q'.
Proof.
  intros H HP HQ. revert n H. induction m as [a|r k IH|k IH]; intros n H; simpl in *.
  - auto.
  - destruct n as [|n]; [done|]. destruct H as [Hr H]. simpl. split; [auto|]. intros o. by apply IH.
  - intros t. by apply IH.
Qed.

Lemma within_impl {A} P n (m : fetch A) (Q Q' : nat → A → Prop) :
  within P n m Q → (∀ l a, Q l a → Q' l a) → within P n m Q'.
Proof.
  intros H HQ. rewrite <-(Nat.add_0_r n). eapply within_weaken; [done..|].
  intros l a. rewrite Nat.add_0_r. apply HQ.
Qed.

Lemma within_bind {A B} P n (m : fetch A) (f : A → fetch B) Q R :
  within P n m Q → (∀ l a, Q l a → within P l (f a) R) → within P n (m ≫= f) R.
Proof.
  intros H Hf. revert n H. induction m as [a|r k IH|k IH]; intros n H; cbn in *.
  - by apply Hf.
  - destruct n as [|n]; [done|]. destruct H as [Hr H]. split; [done|]. intros o. by apply IH.
  - intros t. by apply IH.
Qed.

(** [safe P n m Q]: the same without the number of requests left. *)
Definition safe {A} (P : Request → Prop) (n : nat) (m : fetch A) (Q : A → Prop) : Prop :=
  within P n m (λ _, Q).

Lemma safe_weaken {A} P P' n n' (m : fetch A) (Q Q' : A → Prop) :
  safe P n m Q → (∀ r, P r → P' r) → (n ≤ n')%nat → (∀ a, Q a → Q' a) → safe P' n' m Q'.
Proof. intros H HP [j ->]%Nat.le_sum HQ. by eapply within_weaken; [|eauto..]. Qed.

Lemma safe_then {A B} P n1 n2 (m : fetch A) (f : A → fetch B) Q R :
  safe P n1 m Q → (∀ a, Q a → safe P n2 (f a) R) → safe P (n1 + n2) (m ≫= f) R.
Proof.
  intros H Hf. eapply within_bind.
  - eapply (within_weaken P P n1 n2 m _ (λ l a, (n2 ≤ l)%nat ∧ Q a)); [done..|]. intros l a Ha. split; [lia|done].
  - intros l a [Hl Ha]. by eapply safe_weaken; [apply Hf| |exact Hl|].
Qed.

(** The results a program may return: an error, or a value in [Q]. *)
Definition if_ok {A} (Q : A → Prop) (r : result A) : Prop :=
  match r with Ok a => Q a | Err _ => True end.

Lemma safe_or_return {A B} P n1 n2 (m : fetch (result A)) (k : A → fetch (result B)) Q R :
  safe P n1 m (if_ok Q) → (∀ a, Q a → safe P n2 (k a) (if_ok R)) →
  safe P (n1 + n2) (or_return m k) (if_ok R).
Proof. intros Hm Hk. eapply safe_then; [done|]. intros [a|e] Ha; [by apply Hk|done]. Qed.

Lemma safe_check {A B} P n (r : result A) (k : fetch (result B)) R :
  (∀ a, r = Ok a → safe P n k (if_ok R)) → safe P n (or_return (Done r) (λ _, k)) (if_ok R).
Proof. intros H. destruct r as [a|]; [by apply (H a)|done]. Qed.

Lemma safe_Done {A} P n (r : result A) (Q : A → Prop) : if_ok Q r → safe P n (Done r) (if_ok Q).
Proof. done. Qed.

Lemma take_bytes_long n s : (String.length s ≤ n)%nat → take_bytes n s = s.
Proof. revert s. induction n as [|n IH]; intros [|c s] Hn; simpl in *; [done|lia|done|]. by rewrite IH by lia. Qed.

Lemma requestPayload_safe (P : Request → Prop) token method path query accept contentType body maxBytes truncate :
  0 ≤ maxBytes → P (Request.mk method path query (headers token accept contentType) body) →
  safe P 1 (requestPayload token method path query accept contentType body maxBytes truncate)
    (if_ok (λ x, len x.1 ≤ maxBytes)).
Proof.
  intros Hm Hr. split; [done|]. intros [err|err|status text broken tls]; [done..|]. cbn.
  destruct (status_error status); [|done]. cbn. unfold limited_payload.
  destruct (read_limited _ _ _) as [payload|]; [|done].
  destruct (Z.ltb_spec maxBytes (len payload)); [|simpl; lia]. destruct truncate; [|done].
  cbn. pose proof (take_bytes_length (Z.to_nat maxBytes) payload). unfold len. lia.
Qed.

Lemma getPayload_safe (P : Request → Prop) token path query accept maxBytes truncate :
  0 ≤ maxBytes → P (Request.mk "GET" path query (headers token accept "") "") →
  safe P 1 (getPayload token path query accept maxBytes truncate) (if_ok (λ x, len x.1 ≤ maxBytes)).
Proof. apply requestPayload_safe. Qed.

Lemma getJSON_safe {A} `{Json.Zero A} (P : Request → Prop) token path query (d : Json.decoder A) :
  P (Request.mk "GET" path query (headers token "application/json" "") "") →
  safe P 1 (getJSON token path query d) (if_ok (λ _, True)).
Proof.
  intros Hr. apply (safe_or_return P 1 0 _ _ (λ _, True)).
  - eapply safe_weaken; [by apply getPayload_safe|done..|]. by intros [].
  - intros [payload b] _. cbn. unfold expect_ok. by destruct (Json.Unmarshal d payload).
Qed.

Lemma within_or_return {A B} P n (m : fetch (result A)) (k : A → fetch (result B)) Q R :
  within P n m (λ l, if_ok (Q l)) → (∀ l a, Q l a → within P l (k a) (λ l, if_ok (R l))) →
  within P n (or_return m k) (λ l, if_ok (R l)).
Proof. intros Hm Hk. eapply within_bind; [done|]. intros l [a|e] Ha; [by apply Hk|done]. Qed.

(** ** What a program does, for given answers

    The requests it makes until it returns or the answers are used up, and what it
    returns; the clock stands at [t]. *)
Fixpoint run {A} (t : time) (m : fetch A) (answers : list outcome) : list Request * option A :=
  match m with
  | Done a => ([], Some a)
  | Do r k =>
      match answers with
      | [] => ([r], None)
      | o :: answers => let '(rs, a) := run t (k o) answers in (r :: rs, a)
      end
  | Now k => run t (k t) answers
  end.

Lemma run_bind {A B} t (m : fetch A) (f : A → fetch B) answers :
  run t (m ≫= f) answers =
    let '(rs, a) := run t m answers in
    match a with
    | None => (rs, None)
    | Some a => let '(rs', b) := run t (f a) (drop (length rs) answers) in (rs ++ rs', b)
    end.
Proof.
  revert answers. induction m as [a|r k IH|k IH]; intros answers; cbn.
  - change (Done a ≫= f) with (f a). rewrite drop_0. by destruct (run t (f a) answers).
  - destruct answers as [|o answers]; [done|]. rewrite IH.
    destruct (run t (k o) answers) as [rs [a|]]; [|done]. cbn.
    by destruct (run t (f a) (drop (length rs) answers)).
  - apply IH.
Qed.

(** The answer of a server that was heard to the end. *)
Definition heard (o : outcome) (maxBytes : Z) : option string :=
  match o with
  | Answer status body broken _ =>
      if (200 <=? status) && (status <? 300) && negb broken && (len body <=? maxBytes)
      then Some body else None
  | _ => None
  end.

Lemma limited_payload_whole maxBytes body broken :
  0 ≤ maxBytes →
  ∃ err, limited_payload maxBytes false body broken =
    if negb broken && (len body <=? maxBytes) then Ok (body, false) else Err err.
Proof.
  intros Hm. unfold limited_payload, read_limited.
  destruct (Z.leb_spec (len body) maxBytes) as [Hl|Hl].
  - rewrite (proj2 (Z.ltb_lt _ _)) by lia. destruct broken; cbn; [eauto|].
    assert (take_bytes (Z.to_nat (maxBytes + 1)) body = body) as ->.
    { apply take_bytes_long. unfold len in Hl. lia. }
    rewrite (proj2 (Z.ltb_ge maxBytes (len body))) by lia. by exists ErrUpstream.
  - rewrite (proj2 (Z.ltb_ge _ _)), andb_false_r by lia. cbn.
    pose proof (take_bytes_length (Z.to_nat (maxBytes + 1)) body).
    rewrite (proj2 (Z.ltb_lt _ _)) by (unfold len in *; lia). eauto.
Qed.

(** A request whose answer must be whole: the answer that was heard, or an error. *)
Lemma run_requestPayload t token method path query accept contentType body maxBytes answers :
  0 ≤ maxBytes →
  let m := requestPayload token method path query accept contentType body maxBytes false in
  let r := Request.mk method path query (headers token accept contentType) body in
  ∃ err, run t m answers = ([r], match answers with
    | [] => None
    | o :: _ => Some (match heard o maxBytes with Some payload => Ok (payload, false) | None => Err err end)
    end).
Proof.
  intros Hm m r. unfold m, requestPayload. rewrite run_bind. cbn [do run].
  destruct answers as [|o answers]; [by exists ErrUpstream|].
  destruct o as [err|err|status text broken tls]; cbn; [by eexists..|].
  unfold status_error. destruct (Z.leb_spec 200 status), (Z.ltb_spec status 200); try lia; cbn; [|by eexists].
  destruct (Z.ltb_spec status 300), (Z.leb_spec 300 status); try lia; cbn; [|by eexists].
  destruct (limited_payload_whole maxBytes text broken Hm) as [err ->]. exists err.
  by destruct (negb broken && (len text <=? maxBytes)).
Qed.

(** Running the steps of a program: its pure steps, and the requests whose answers are
    awaited whole. *)
Section run.
Context (token : string) (t : time).

Lemma run_Done {A B} (r : result A) (k : A → fetch (result B)) answers :
  run t (or_return (Done r) k) answers =
    match r with Ok a => run t (k a) answers | Err e => ([], Some (Err e)) end.
Proof. by destruct r. Qed.

Lemma run_or_return {A B} (m : fetch (result A)) (k : A → fetch (result B)) answers :
  run t (or_return m k) answers =
    let '(rs, a) := run t m answers in
    match a with
    | None => (rs, None)
    | Some (Ok a) => let '(rs', b) := run t (k a) (drop (length rs) answers) in (rs ++ rs', b)
    | Some (Err e) => (rs, Some (Err e))
    end.
Proof.
  unfold or_return. rewrite run_bind. destruct (run t m answers) as [rs [[a|e]|]]; [done| |done].
  cbn. by rewrite app_nil_r.
Qed.

(** A whole answer is awaited and the rest of the program goes on with it. *)
Lemma run_whole {A} method path query accept contentType body maxBytes
    (k : string * bool → fetch (result A)) answers :
  0 ≤ maxBytes →
  let r := Request.mk method path query (headers token accept contentType) body in
  ∃ err, run t (or_return (requestPayload token method path query accept contentType body maxBytes false) k) answers =
    match answers with
    | [] => ([r], None)
    | o :: rest =>
        match heard o maxBytes with
        | Some payload => let '(rs, b) := run t (k (payload, false)) rest in (r :: rs, b)
        | None => ([r], Some (Err err))
        end
    end.
Proof.
  intros Hm r. unfold or_return. setoid_rewrite run_bind.
  destruct (run_requestPayload t token method path query accept contentType body maxBytes answers Hm) as [err ->].
  exists err. destruct answers as [|o rest]; [done|]. destruct (heard o maxBytes) as [payload|]; [|done].
  cbn. rewrite drop_0. by destruct (run t (k (payload, false)) rest).
Qed.

(** The same for a list or an object that is decoded at once. *)
Lemma run_getJSON {A B} `{Json.Zero A} path query (d : Json.decoder A) (k : A → fetch (result B)) o rest a :
  heard o maxResponseBytes ≫= Json.Unmarshal d = Some a →
  run t (or_return (getJSON token path query d) k) (o :: rest) =
    let '(rs, b) := run t (k a) rest in
    (Request.mk "GET" path query (headers token "application/json" "") "" :: rs, b).
Proof.
  destruct (heard o maxResponseBytes) as [payload|] eqn:Ho; [|done]. intros Ha. cbn [mbind option_bind] in Ha.
  rewrite run_or_return. unfold getJSON, getPayload.
  destruct (run_whole "GET" path query "application/json" "" "" maxResponseBytes
    (λ x, let '(payload, _) := x in
      Done (expect_ok (upstream "decode Kubernetes response") (Json.Unmarshal d payload))) (o :: rest)) as [err ->]; [done|].
  rewrite Ho. cbn. rewrite Ha. cbn. rewrite drop_0. by destruct (run t (k a) rest).
Qed.
End run.
