(* ===== verification/Redaction.v ===== *)
(** * The YAML of a workload (src/internal/kubernetes/client.go)

    A workload is shown as YAML without its status, the metadata the server keeps,
    the values of its environment variables, its commands and everything under a
    key that names a credential. *)

From S2P Require Export Fetch.

Local Open Scope Z_scope.
Local Open Scope stdpp_scope.

Import Json.

(** ** [map[string]any]: a decoded object has every key once, its last value. *)

Inductive any : Type :=
  | ANull
  | ABool (b : bool)
  | ANumber (literal : string)
  | AString (s : string)
  | AList (l : list any)
  | AMap (members : list (string * any)).

(** Membership in a set of keys. *)
Definition among (keys : list string) (key : string) : bool := existsb (String.eqb key) keys.

Definition lookup_key (key : string) (members : list (string * any)) : option any :=
  snd <$> List.find (λ m, String.eqb m.1 key) members.

Definition delete_key (key : string) (members : list (string * any)) : list (string * any) :=
  List.filter (λ m, negb (String.eqb m.1 key)) members.

(** [f] applied to the value of the key, if the map has it. *)
Definition alter_key (f : any → any) (key : string) (members : list (string * any)) : list (string * any) :=
  (λ m, if String.eqb m.1 key then (m.1, f m.2) else m) <$> members.

(** A number as big as this overflows a [float64], which is an error. *)
Definition float64_limit : Z := (2 ^ 54 - 1) * 2 ^ 970.

Definition digits_value (s : string) : Z := default 0 (digits_from 0 s).

Definition overflows (literal : string) : bool :=
  let unsigned := TrimPrefix literal "-" in
  let '(mantissa, exponent) :=
    match Cut unsigned "e", Cut unsigned "E" with
    | (m, e, true), _ => (m, e)
    | _, (m, e, true) => (m, e)
    | _, _ => (unsigned, "0")
    end in
  let '(whole, part, _) := Cut mantissa "." in
  let m := digits_value (whole +:+ part) in
  let e := (match exponent with
            | String "-" e => - digits_value e
            | String "+" e => digits_value e
            | e => digits_value e
            end) - len part in
  if m =? 0 then false
  else if 400 <? e then true
  else if 0 <=? e then float64_limit <=? m * 10 ^ e
  else if Z.log2 m <? Z.log2 float64_limit then false
  else float64_limit * 10 ^ (- e) <=? m.

Definition last_wins (members : list (string * any)) : list (string * any) :=
  foldl (λ acc m, delete_key m.1 acc ++ [m]) [] members.

Fixpoint any_of (v : value) : option any :=
  match v with
  | Null => Some ANull
  | Bool b => Some (ABool b)
  | Number n => if overflows n then None else Some (ANumber n)
  | Str s => Some (AString s)
  | Array elements =>
      l ← foldr (λ e acc, a ← any_of e.2; l ← acc; Some (a :: l)) (Some []) elements;
      Some (AList l)
  | Object members =>
      ms ← foldr (λ m acc, a ← any_of m.2.2; l ← acc; Some ((m.1, a) :: l)) (Some []) members;
      Some (AMap (last_wins ms))
  end.

(** The value as a map: a nil map where it is none. *)
Definition as_map (a : any) : option (list (string * any)) :=
  match a with AMap ms => Some ms | _ => None end.

(** [f] on a map; a value of another type stays. *)
Definition on_map (f : list (string * any) → list (string * any)) (a : any) : any :=
  match a with AMap ms => AMap (f ms) | a => a end.

Definition on_list (f : any → any) (a : any) : any :=
  match a with AList l => AList (f <$> l) | a => a end.

Definition redacted : any := AString "<redacted>".

Definition container_keys : list string := ["containers"; "initContainers"; "ephemeralContainers"].

Definition redact_variable : any → any := on_map (alter_key (λ _, redacted) "value").

Definition redactSpecEnvironment (spec : list (string * any)) : list (string * any) :=
  foldl (λ spec key,
    alter_key (on_list (on_map (alter_key (on_list redact_variable) "env"))) key spec) spec container_keys.

Definition redactContainerEnvironment (object : list (string * any)) : list (string * any) :=
  alter_key (on_map (λ spec,
    let spec := redactSpecEnvironment spec in
    let spec := alter_key (on_map (alter_key (on_map redactSpecEnvironment) "spec")) "template" spec in
    alter_key (on_map (alter_key (on_map
      (alter_key (on_map (alter_key (on_map redactSpecEnvironment) "spec")) "template")) "spec"))
      "jobTemplate" spec)) "spec" object.

Definition sensitive : list string :=
  ["apikey"; "authorization"; "clientsecret"; "credentials"; "password"; "passwd"; "privatekey"; "token"].

Definition sensitiveSequences : list string := ["args"; "command"].

Definition hidden_metadata : list string :=
  ["annotations"; "creationTimestamp"; "generation"; "managedFields"; "resourceVersion"; "selfLink"; "uid"].

Section text.
Context `{UnicodeTables}.

(** The key without hyphens and underscores, in lower case. *)
Definition normalized (key : string) : string :=
  ToLower (of_bytes (List.filter (λ c, negb (bool_decide (c = "-"%char ∨ c = "_"%char))) (bytes key))).

Fixpoint redactSensitiveFields (a : any) : any :=
  match a with
  | AMap members =>
      AMap ((λ m,
        (m.1,
         if among sensitiveSequences (normalized m.1) then AList [redacted]
         else if among sensitive (normalized m.1) then redacted
         else redactSensitiveFields m.2)) <$> members)
  | AList l => AList (redactSensitiveFields <$> l)
  | a => a
  end.

(** What is left of an object. *)
Definition sanitize (object : list (string * any)) : any :=
  let object := delete_key "status" object in
  let object := alter_key (on_map (λ ms, foldl (λ ms key, delete_key key ms) ms hidden_metadata))
                  "metadata" object in
  redactSensitiveFields (AMap (redactContainerEnvironment object)).
End text.

(** [yaml.Marshal] of the yaml.v3 package. *)
Class YAML := { MarshalYAML : any → result string }.

(** [json.Unmarshal(raw, &object)] with a [map[string]any]. *)
Definition decode_object (raw : RawMessage) : option (list (string * any)) :=
  '(_, v) ← parse raw;
  match v with
  | Object _ => any_of v ≫= as_map
  | Null => Some []
  | _ => None
  end.

Definition sanitizedWorkloadYAML `{UnicodeTables} `{YAML} (raw : RawMessage) : result string :=
  match decode_object raw with
  | None => Err (upstream "decode workload for YAML")
  | Some object =>
      match MarshalYAML (sanitize object) with
      | Err err => Err (Errorf "encode workload YAML: " err)
      | Ok payload => Ok payload
      end
  end.

(** ** Nothing hidden is shown

    Where a value is in an object, which says what is hidden in it. *)
Inductive position : Type :=
  | Object_ | Metadata_ | Spec_ | Template_ | JobTemplate_ | JobSpec_ | PodSpec_
  | Containers_ | Container_ | Environment_ | Variable_ | Other_.

(** The position of an element of a list. *)
Definition item (p : position) : position :=
  match p with Containers_ => Container_ | Environment_ => Variable_ | _ => Other_ end.

Section hiding.
Context `{UnicodeTables}.

Definition credential (key : string) : bool :=
  among sensitiveSequences (normalized key) || among sensitive (normalized key).

(** The position of a member; [None] where its value is hidden. *)
Definition child (p : position) (key : string) : option position :=
  if credential key then None else
  match p with
  | Object_ =>
      if String.eqb key "status" then None
      else if String.eqb key "metadata" then Some Metadata_
      else if String.eqb key "spec" then Some Spec_ else Some Other_
  | Metadata_ => if among hidden_metadata key then None else Some Other_
  | Spec_ =>
      if among container_keys key then Some Containers_
      else if String.eqb key "template" then Some Template_
      else if String.eqb key "jobTemplate" then Some JobTemplate_ else Some Other_
  | Template_ => if String.eqb key "spec" then Some PodSpec_ else Some Other_
  | JobTemplate_ => if String.eqb key "spec" then Some JobSpec_ else Some Other_
  | JobSpec_ => if String.eqb key "template" then Some Template_ else Some Other_
  | PodSpec_ => if among container_keys key then Some Containers_ else Some Other_
  | Container_ => if String.eqb key "env" then Some Environment_ else Some Other_
  | Variable_ => if String.eqb key "value" then None else Some Other_
  | Containers_ | Environment_ | Other_ => Some Other_
  end.

(** Two values that differ in what is hidden only. *)
Inductive alike : position → any → any → Prop :=
  | alike_same p a : alike p a a
  | alike_list p l l' : Forall2 (alike (item p)) l l' → alike p (AList l) (AList l')
  | alike_map p ms ms' : Forall2 (alike_member p) ms ms' → alike p (AMap ms) (AMap ms')
with alike_member : position → string * any → string * any → Prop :=
  | alike_hidden p key a a' : child p key = None → alike_member p (key, a) (key, a')
  | alike_shown p key q a a' :
      child p key = Some q → alike q a a' → alike_member p (key, a) (key, a').
End hiding.

Lemma any_ind' (P : any → Prop) :
  P ANull → (∀ b, P (ABool b)) → (∀ n, P (ANumber n)) → (∀ s, P (AString s)) →
  (∀ l, Forall P l → P (AList l)) →
  (∀ ms, Forall (λ m : string * any, P m.2) ms → P (AMap ms)) → ∀ a, P a.
Proof.
  intros Hn Hb Hd Hs Hl Hm. fix IH 1. intros [|b|n|s|l|ms]; [done..| |].
  - apply Hl. induction l; constructor; [apply IH|done].
  - apply Hm. induction ms as [|[k v] ms IHms]; constructor; [apply IH|done].
Qed.

(** What the redaction of the environment and the deletions do at a position. *)
Definition step (p : position) : any → any :=
  match p with
  | Object_ => λ a,
      match a with
      | AMap ms =>
          AMap (redactContainerEnvironment
            (alter_key (on_map (λ ms, foldl (λ ms key, delete_key key ms) ms hidden_metadata))
               "metadata" (delete_key "status" ms)))
      | a => a
      end
  | Metadata_ => on_map (λ ms, foldl (λ ms key, delete_key key ms) ms hidden_metadata)
  | Spec_ => on_map (λ spec,
      alter_key (on_map (alter_key (on_map
        (alter_key (on_map (alter_key (on_map redactSpecEnvironment) "spec")) "template")) "spec"))
        "jobTemplate"
        (alter_key (on_map (alter_key (on_map redactSpecEnvironment) "spec")) "template"
          (redactSpecEnvironment spec)))
  | Template_ => on_map (alter_key (on_map redactSpecEnvironment) "spec")
  | JobTemplate_ =>
      on_map (alter_key (on_map
        (alter_key (on_map (alter_key (on_map redactSpecEnvironment) "spec")) "template")) "spec")
  | JobSpec_ => on_map (alter_key (on_map (alter_key (on_map redactSpecEnvironment) "spec")) "template")
  | PodSpec_ => on_map redactSpecEnvironment
  | Containers_ => on_list (on_map (alter_key (on_list redact_variable) "env"))
  | Container_ => on_map (alter_key (on_list redact_variable) "env")
  | Environment_ => on_list redact_variable
  | Variable_ => redact_variable
  | Other_ => id
  end.

Section hiding_proof.
Context `{UnicodeTables}.

(** [child] but for the credentials, and what is dropped. *)
Definition place (p : position) (key : string) : option position :=
  match p with
  | Object_ =>
      if String.eqb key "status" then None
      else if String.eqb key "metadata" then Some Metadata_
      else if String.eqb key "spec" then Some Spec_ else Some Other_
  | Metadata_ => if among hidden_metadata key then None else Some Other_
  | Spec_ =>
      if among container_keys key then Some Containers_
      else if String.eqb key "template" then Some Template_
      else if String.eqb key "jobTemplate" then Some JobTemplate_ else Some Other_
  | Template_ => if String.eqb key "spec" then Some PodSpec_ else Some Other_
  | JobTemplate_ => if String.eqb key "spec" then Some JobSpec_ else Some Other_
  | JobSpec_ => if String.eqb key "template" then Some Template_ else Some Other_
  | PodSpec_ => if among container_keys key then Some Containers_ else Some Other_
  | Container_ => if String.eqb key "env" then Some Environment_ else Some Other_
  | Variable_ => if String.eqb key "value" then None else Some Other_
  | Containers_ | Environment_ | Other_ => Some Other_
  end.

Lemma child_place p key : child p key = if credential key then None else place p key.
Proof. done. Qed.

Definition keep (p : position) (key : string) : bool :=
  match p with
  | Object_ => negb (String.eqb key "status")
  | Metadata_ => negb (among hidden_metadata key)
  | _ => true
  end.

Definition member_step (p : position) (m : string * any) : string * any :=
  (m.1, match place p m.1 with Some q => step q m.2 | None => redacted end).

Lemma filter_true {A} (l : list A) : List.filter (λ _, true) l = l.
Proof. induction l as [|x l IH]; simpl; by rewrite ?IH. Qed.

Lemma filter_fmap {A B} (f : A → B) (g : B → bool) l :
  List.filter g (f <$> l) = f <$> List.filter (λ x, g (f x)) l.
Proof.
  induction l as [|x l IH]; [done|]. rewrite fmap_cons. cbn [List.filter].
  destruct (g (f x)); by rewrite ?fmap_cons, IH.
Qed.

Lemma filter_filter {A} (f g : A → bool) l : List.filter f (List.filter g l) = List.filter (λ x, g x && f x) l.
Proof.
  induction l as [|x l IH]; simpl; [done|]. destruct (g x); simpl; [|done].
  destruct (f x); by rewrite IH.
Qed.

Lemma fmap_ext_filter {A B} (f g : A → B) (P Q : A → bool) l :
  (∀ x, P x = Q x) → (∀ x, P x = true → f x = g x) → f <$> List.filter P l = g <$> List.filter Q l.
Proof.
  intros HP Hf. induction l as [|x l IH]; simpl; [done|]. rewrite <-HP. destruct (P x) eqn:E; [|done].
  rewrite !fmap_cons, IH. f_equal. auto.
Qed.

Lemma redactSpecEnvironment_eq ms :
  redactSpecEnvironment ms =
  alter_key (step Containers_) "ephemeralContainers"
    (alter_key (step Containers_) "initContainers" (alter_key (step Containers_) "containers" ms)).
Proof. done. Qed.

Ltac key_cases :=
  repeat match goal with
  | |- context [String.eqb ?k ?c] => destruct (String.eqb_spec k c); [subst; cbn|]
  end.

Ltac members_equal :=
  unfold alter_key; rewrite <-?list_fmap_compose; apply list_fmap_ext; intros i [key a] _;
  unfold member_step, place, among, container_keys; cbn; key_cases; done.

Lemma step_map p ms :
  step p (AMap ms) = AMap (List.filter (λ m, keep p m.1) (member_step p <$> ms)).
Proof.
  destruct p; unfold step, redact_variable; cbn [on_map on_list keep id]; f_equal; rewrite ?filter_true.
  1: { change (redactContainerEnvironment ?x) with (alter_key (step Spec_) "spec" x).
    unfold alter_key, delete_key. rewrite <-list_fmap_compose, filter_fmap. apply fmap_ext_filter; [done|].
    intros [key a]. unfold member_step, place. cbn. key_cases; done. }
  1: { unfold hidden_metadata, delete_key. cbn [foldl]. rewrite !filter_filter, filter_fmap.
    rewrite <-list_fmap_id at 1. apply fmap_ext_filter; intros [key a]; cbn; unfold member_step, place, among;
      cbn; key_cases; done. }
  1, 5: rewrite (redactSpecEnvironment_eq ms).
  all: try members_equal; rewrite <-(list_fmap_id ms) at 1; members_equal.
Qed.

Lemma step_list p l : step p (AList l) = AList (step (item p) <$> l).
Proof.
  assert (step Other_ <$> l = l) as E by apply list_fmap_id.
  destruct p; cbn [item]; rewrite ?E; reflexivity.
Qed.

Definition redact_member (m : string * any) : string * any :=
  (m.1, if among sensitiveSequences (normalized m.1) then AList [redacted]
        else if among sensitive (normalized m.1) then redacted
        else redactSensitiveFields m.2).

Lemma redact_map ms : redactSensitiveFields (AMap ms) = AMap (redact_member <$> ms).
Proof. done. Qed.

Lemma redact_member_equal p key a a' :
  alike_member p (key, a) (key, a') → keep p key = true →
  (∀ q, alike q a a' → redactSensitiveFields (step q a) = redactSensitiveFields (step q a')) →
  redact_member (member_step p (key, a)) = redact_member (member_step p (key, a')).
Proof.
  intros Ha Hk IH. unfold redact_member, member_step. cbn [fst snd].
  assert (place p key = None ∨ credential key = true ∨ ∃ q, place p key = Some q ∧ alike q a a') as Hc.
  { inversion Ha as [? ? ? ? Hp|? ? q ? ? Hp Hq]; subst; rewrite child_place in Hp;
      destruct (credential key); eauto. }
  destruct Hc as [Hc|[Hc|(q & -> & Hq)]]; [by rewrite Hc| |].
  - unfold credential in Hc. destruct (among sensitiveSequences _); [done|].
    cbn [orb] in Hc. by rewrite Hc.
  - by rewrite (IH q Hq).
Qed.

Lemma alike_member_key p m m' : alike_member p m m' → m.1 = m'.1.
Proof. by destruct 1. Qed.

Lemma redact_members_equal p ms ms' :
  Forall2 (alike_member p) ms ms' →
  Forall (λ m : string * any, ∀ q a', alike q m.2 a' →
    redactSensitiveFields (step q m.2) = redactSensitiveFields (step q a')) ms →
  redactSensitiveFields (step p (AMap ms)) = redactSensitiveFields (step p (AMap ms')).
Proof.
  intros Hms. rewrite !step_map, !redact_map. intros IH. f_equal.
  induction Hms as [|[key a] [key' a'] ms ms' Hm Hms IHms]; [done|].
  apply Forall_cons in IH as [IHa IH]. rewrite !fmap_cons. cbn [List.filter].
  change (member_step p ?m).1 with m.1. cbn [fst].
  assert (key' = key) as -> by (symmetry; exact (alike_member_key _ _ _ Hm)).
  destruct (keep p key) eqn:Hk; [|exact (IHms IH)].
  rewrite !fmap_cons, (IHms IH). f_equal.
  exact (redact_member_equal p key a a' Hm Hk (λ q, IHa q a')).
Qed.

Lemma alike_redacted a : ∀ p a', alike p a a' →
  redactSensitiveFields (step p a) = redactSensitiveFields (step p a').
Proof.
  induction a as [|b|n|s|l IH|ms IH] using any_ind'; intros p a' Ha; inversion Ha; subst; try done.
  - rewrite !step_list. cbn [redactSensitiveFields]. f_equal. clear Ha.
    match goal with H : Forall2 _ _ _ |- _ => induction H as [|x y l l' Hx Hl IHl] end; [done|].
    apply Forall_cons in IH as [IHx IH]. rewrite !fmap_cons. f_equal; [by apply IHx|by apply IHl].
  - by apply redact_members_equal.
Qed.

(** C28: The YAML of a workload shows nothing of what is hidden: two workloads that
    differ only in their status, in the metadata the server keeps, in the values of
    environment variables (of pods, of templates and of job templates), and in the
    values of keys that name a credential or a command, wherever they are, are shown
    as the same document. *)
Theorem sanitize_hides `{YAML} raw raw' object object' :
  decode_object raw = Some object → decode_object raw' = Some object' →
  alike Object_ (AMap object) (AMap object') →
  sanitizedWorkloadYAML raw = sanitizedWorkloadYAML raw'.
Proof.
  intros Hr Hr' Ha. unfold sanitizedWorkloadYAML. rewrite Hr, Hr'.
  by rewrite (alike_redacted _ _ _ Ha : sanitize object = sanitize object').
Qed.
End hiding_proof.

(** ** An example *)

(** A deployment with one environment variable and one argument. *)
Definition example_deployment (secret : string) : RawMessage :=
  Marshal (Object [("kind", ("", Str "Deployment"));
    ("metadata", ("", Object [("name", ("", Str "web")); ("uid", ("", Str secret))]));
    ("spec", ("", Object [("template", ("", Object [("spec", ("", Object [("containers", ("", Array
      [("", Object [("name", ("", Str "app")); ("args", ("", Array [("", Str secret)]));
         ("env", ("", Array [("", Object [("name", ("", Str "KEY")); ("value", ("", Str secret))])]))])]))]))]))]))]).

(** A stand-in for yaml.v3 that lists the strings of a document. *)
Fixpoint words_of (a : any) : list string :=
  match a with
  | AString s => [s]
  | AList l => foldr (λ a acc, words_of a ++ acc) [] l
  | AMap ms => foldr (λ m acc, m.1 :: words_of m.2 ++ acc) [] ms
  | _ => []
  end.

#[local] Instance example_YAML : YAML := {| MarshalYAML a := Ok (GoText.Join (words_of a) " ") |}.

Lemma sanitize_hides_witness :
  sanitizedWorkloadYAML (example_deployment "alpha") = sanitizedWorkloadYAML (example_deployment "beta") ∧
  sanitizedWorkloadYAML (example_deployment "alpha") =
    Ok "kind Deployment metadata name web spec template spec containers name app args <redacted> env name KEY value <redacted>".
Proof.
  split; [|by vm_compute].
  eapply (sanitize_hides (example_deployment "alpha") (example_deployment "beta"));
    [by vm_compute|by vm_compute|].
  repeat first
    [ apply alike_same | apply alike_map | apply alike_list | apply Forall2_cons_2 | apply Forall2_nil_2
    | apply alike_hidden; by vm_compute | eapply alike_shown; [by vm_compute|] ].
Defined.
