(* ===== verification/Client.v ===== *)
(** * The Kubernetes client (src/internal/kubernetes/client.go, batch.go, events.go)

    The resources the client decodes, the list requests with their budgets, the
    workloads, nodes, namespaces and events it projects, the image update of a
    deployment, and the redaction of the YAML it shows. *)

From S2P Require Export Redaction Outbound.

Local Open Scope Z_scope.
Local Open Scope stdpp_scope.
Local Open Scope fetch_scope.
Local Open Scope json_scope.

Import Json.

(** ** Resources

    A struct is a record or, where it has no name, a tuple of the fields it lists. *)

Definition int32 : decoder Z := int_ 32.

(** The conversion [int32(n)], which keeps the low 32 bits. *)
Definition to_int32 (n : Z) : Z := (n + 2 ^ 31) mod 2 ^ 32 - 2 ^ 31.

Module objectMetadata.
Record t : Type := mk {
  Name : string;
  Namespace : string;
  UID : string;
  ResourceVersion : string;
  Labels : gmap string string;
  CreationTimestamp : time;
}.
#[global] Instance zero_t : Zero t := mk "" "" "" "" ∅ time_zero.
Definition decode : decoder t := struct (λ old ms,
  name ← field "name" string_ old.(Name) ms;
  namespace ← field "namespace" string_ old.(Namespace) ms;
  uid ← field "uid" string_ old.(UID) ms;
  resourceVersion ← field "resourceVersion" string_ old.(ResourceVersion) ms;
  labels ← field "labels" (map_ string_) old.(Labels) ms;
  creationTimestamp ← field "creationTimestamp" time_ old.(CreationTimestamp) ms;
  Some (mk name namespace uid resourceVersion labels creationTimestamp)).
End objectMetadata.
Notation objectMetadata := objectMetadata.t.

Module containerSpec.
Record t : Type := mk { Name : string; Image : string }.
#[global] Instance zero_t : Zero t := mk "" "".
Definition decode : decoder t := struct (λ old ms,
  name ← field "name" string_ old.(Name) ms; image ← field "image" string_ old.(Image) ms;
  Some (mk name image)).
End containerSpec.
Notation containerSpec := containerSpec.t.

(** The states of a container: the reasons of waiting and of being terminated. *)
Module containerStatus.
Record t : Type := mk {
  Name : string;
  Ready : bool;
  RestartCount : Z;
  Waiting : option string;
  Running : option unit;
  Terminated : option string;
}.
#[global] Instance zero_t : Zero t := mk "" false 0 None None None.
Definition empty_struct : decoder unit := struct (λ _ _, Some tt).
Definition state : fields (option string * option unit * option string) :=
  field "waiting" (pointer (struct (field "reason" string_))) ⊗
  field "running" (pointer empty_struct) ⊗
  field "terminated" (pointer (struct (field "reason" string_))).
Definition decode : decoder t := struct (λ old ms,
  name ← field "name" string_ old.(Name) ms;
  ready ← field "ready" bool_ old.(Ready) ms;
  restartCount ← field "restartCount" int32 old.(RestartCount) ms;
  '(waiting, running, terminated) ←
    field "state" (struct state) (old.(Waiting), old.(Running), old.(Terminated)) ms;
  Some (mk name ready restartCount waiting running terminated)).
End containerStatus.
Notation containerStatus := containerStatus.t.

(** [workloadCondition] and [nodeCondition], whose other fields are the same. *)
Module workloadCondition.
Record t : Type := mk {
  Type_ : string;
  Status : string;
  Reason : string;
  Message : string;
  LastTransitionTime : time;
}.
#[global] Instance zero_t : Zero t := mk "" "" "" "" time_zero.
Definition decode : decoder t := struct (λ old ms,
  type ← field "type" string_ old.(Type_) ms; status ← field "status" string_ old.(Status) ms;
  reason ← field "reason" string_ old.(Reason) ms; message ← field "message" string_ old.(Message) ms;
  last ← field "lastTransitionTime" time_ old.(LastTransitionTime) ms;
  Some (mk type status reason message last)).
End workloadCondition.
Notation workloadCondition := workloadCondition.t.

Module nodeTaint.
Record t : Type := mk { Key : string; Value : string; Effect : string; TimeAdded : time }.
#[global] Instance zero_t : Zero t := mk "" "" "" time_zero.
Definition decode : decoder t := struct (λ old ms,
  key ← field "key" string_ old.(Key) ms; value ← field "value" string_ old.(Value) ms;
  effect ← field "effect" string_ old.(Effect) ms; added ← field "timeAdded" time_ old.(TimeAdded) ms;
  Some (mk key value effect added)).
End nodeTaint.
Notation nodeTaint := nodeTaint.t.

Module nodeAddress.
Record t : Type := mk { Type_ : string; Address : string }.
#[global] Instance zero_t : Zero t := mk "" "".
Definition decode : decoder t := struct (λ old ms,
  type ← field "type" string_ old.(Type_) ms; address ← field "address" string_ old.(Address) ms;
  Some (mk type address)).
End nodeAddress.
Notation nodeAddress := nodeAddress.t.

Module nodeSystemInfo.
Record t : Type := mk {
  OSImage : string;
  KernelVersion : string;
  ContainerRuntimeVersion : string;
  KubeletVersion : string;
  OperatingSystem : string;
  Architecture : string;
}.
#[global] Instance zero_t : Zero t := mk "" "" "" "" "" "".
Definition decode : decoder t := struct (λ old ms,
  os ← field "osImage" string_ old.(OSImage) ms;
  kernel ← field "kernelVersion" string_ old.(KernelVersion) ms;
  runtime ← field "containerRuntimeVersion" string_ old.(ContainerRuntimeVersion) ms;
  kubelet ← field "kubeletVersion" string_ old.(KubeletVersion) ms;
  system ← field "operatingSystem" string_ old.(OperatingSystem) ms;
  architecture ← field "architecture" string_ old.(Architecture) ms;
  Some (mk os kernel runtime kubelet system architecture)).
End nodeSystemInfo.
Notation nodeSystemInfo := nodeSystemInfo.t.

Module nodeCondition.
Record t : Type := mk {
  Type_ : string;
  Status : string;
  Reason : string;
  Message : string;
  LastHeartbeatTime : time;
  LastTransitionTime : time;
}.
#[global] Instance zero_t : Zero t := mk "" "" "" "" time_zero time_zero.
Definition decode : decoder t := struct (λ old ms,
  type ← field "type" string_ old.(Type_) ms; status ← field "status" string_ old.(Status) ms;
  reason ← field "reason" string_ old.(Reason) ms; message ← field "message" string_ old.(Message) ms;
  heartbeat ← field "lastHeartbeatTime" time_ old.(LastHeartbeatTime) ms;
  last ← field "lastTransitionTime" time_ old.(LastTransitionTime) ms;
  Some (mk type status reason message heartbeat last)).
End nodeCondition.
Notation nodeCondition := nodeCondition.t.

Module nodeResource.
Record t : Type := mk {
  Metadata : objectMetadata;
  Unschedulable : bool;
  Taints : list nodeTaint;
  Capacity : gmap string string;
  Allocatable : gmap string string;
  Addresses : list nodeAddress;
  Conditions : list nodeCondition;
  NodeInfo : nodeSystemInfo;
}.
#[global] Instance zero_t : Zero t := mk zero false [] ∅ ∅ [] [] zero.
Definition spec : fields (bool * list nodeTaint) :=
  field "unschedulable" bool_ ⊗ field "taints" (slice nodeTaint.decode).
Definition status : fields (gmap string string * gmap string string * list nodeAddress *
    list nodeCondition * nodeSystemInfo) :=
  field "capacity" (map_ string_) ⊗ field "allocatable" (map_ string_) ⊗
  field "addresses" (slice nodeAddress.decode) ⊗ field "conditions" (slice nodeCondition.decode) ⊗
  field "nodeInfo" nodeSystemInfo.decode.
Definition decode : decoder t := struct (λ old ms,
  metadata ← field "metadata" objectMetadata.decode old.(Metadata) ms;
  '(unschedulable, taints) ← field "spec" (struct spec) (old.(Unschedulable), old.(Taints)) ms;
  '(capacity, allocatable, addresses, conditions, info) ← field "status" (struct status)
    (old.(Capacity), old.(Allocatable), old.(Addresses), old.(Conditions), old.(NodeInfo)) ms;
  Some (mk metadata unschedulable taints capacity allocatable addresses conditions info)).
End nodeResource.
Notation nodeResource := nodeResource.t.

Definition containerSpecs : decoder (list containerSpec) := slice containerSpec.decode.

(** [struct { Spec struct { Containers } }] and its likes, by the path of the field. *)
Definition template_containers : decoder (list containerSpec) :=
  struct (field "spec" (struct (field "containers" containerSpecs))).

(** The spec and the status of [workloadDetailResource]: of a template only the
    containers are used. *)
Module workloadDetailResource.
Record t : Type := mk {
  Metadata : objectMetadata;
  Containers : list containerSpec;
  InitContainers : list containerSpec;
  EphemeralContainers : list containerSpec;
  TemplateContainers : list containerSpec;
  TemplateInitContainers : list containerSpec;
  JobContainers : list containerSpec;
  JobInitContainers : list containerSpec;
  Conditions : list workloadCondition;
  ContainerStatuses : list containerStatus;
  InitContainerStatuses : list containerStatus;
  EphemeralContainerStatuses : list containerStatus;
}.
#[global] Instance zero_t : Zero t := mk zero [] [] [] [] [] [] [] [] [] [] [].
Definition template : decoder (list containerSpec * list containerSpec) :=
  struct (field "spec" (struct (field "containers" containerSpecs ⊗ field "initContainers" containerSpecs))).
Definition spec : fields (list containerSpec * list containerSpec * list containerSpec *
    (list containerSpec * list containerSpec) * (list containerSpec * list containerSpec)) :=
  field "containers" containerSpecs ⊗ field "initContainers" containerSpecs ⊗
  field "ephemeralContainers" containerSpecs ⊗ field "template" template ⊗
  field "jobTemplate" (struct (field "spec" (struct (field "template" template)))).
Definition status : fields (list workloadCondition * list containerStatus * list containerStatus *
    list containerStatus) :=
  field "conditions" (slice workloadCondition.decode) ⊗
  field "containerStatuses" (slice containerStatus.decode) ⊗
  field "initContainerStatuses" (slice containerStatus.decode) ⊗
  field "ephemeralContainerStatuses" (slice containerStatus.decode).
Definition decode : decoder t := struct (λ old ms,
  metadata ← field "metadata" objectMetadata.decode old.(Metadata) ms;
  '(containers, init, ephemeral, (template, template_init), (job, job_init)) ←
    field "spec" (struct spec)
      (old.(Containers), old.(InitContainers), old.(EphemeralContainers),
       (old.(TemplateContainers), old.(TemplateInitContainers)),
       (old.(JobContainers), old.(JobInitContainers))) ms;
  '(conditions, statuses, init_statuses, ephemeral_statuses) ← field "status" (struct status)
    (old.(Conditions), old.(ContainerStatuses), old.(InitContainerStatuses),
     old.(EphemeralContainerStatuses)) ms;
  Some (mk metadata containers init ephemeral template template_init job job_init
          conditions statuses init_statuses ephemeral_statuses)).
End workloadDetailResource.
Notation workloadDetailResource := workloadDetailResource.t.

Module eventResource.
Record t : Type := mk {
  Metadata : objectMetadata;
  Type_ : string;
  Reason : string;
  Message : string;
  Count : Z;
  ReportingComponent : string;
  SourceComponent : string;
  ObjectKind : string;
  ObjectNamespace : string;
  ObjectName : string;
  EventTime : time;
  FirstTimestamp : time;
  LastTimestamp : time;
  SeriesCount : Z;
  SeriesLastObservedTime : time;
}.
#[global] Instance zero_t : Zero t :=
  mk zero "" "" "" 0 "" "" "" "" "" time_zero time_zero time_zero 0 time_zero.
Definition decode : decoder t := struct (λ old ms,
  metadata ← field "metadata" objectMetadata.decode old.(Metadata) ms;
  type ← field "type" string_ old.(Type_) ms; reason ← field "reason" string_ old.(Reason) ms;
  message ← field "message" string_ old.(Message) ms; count ← field "count" int32 old.(Count) ms;
  reporting ← field "reportingComponent" string_ old.(ReportingComponent) ms;
  source ← field "source" (struct (field "component" string_)) old.(SourceComponent) ms;
  '(kind, namespace, name) ← field "involvedObject"
    (struct (field "kind" string_ ⊗ field "namespace" string_ ⊗ field "name" string_))
    (old.(ObjectKind), old.(ObjectNamespace), old.(ObjectName)) ms;
  event ← field "eventTime" time_ old.(EventTime) ms;
  first ← field "firstTimestamp" time_ old.(FirstTimestamp) ms;
  last ← field "lastTimestamp" time_ old.(LastTimestamp) ms;
  '(series, observed) ← field "series" (struct (field "count" int32 ⊗ field "lastObservedTime" time_))
    (old.(SeriesCount), old.(SeriesLastObservedTime)) ms;
  Some (mk metadata type reason message count reporting source kind namespace name
          event first last series observed)).
End eventResource.
Notation eventResource := eventResource.t.

(** ** Projections *)

(** An error of [json.Unmarshal], which is none of the sentinels. *)
Definition json_error : error := NewError "json".

Definition replicaStatus (ready desired : Z) : string :=
  if desired =? ready then "Ready" else if 0 <? ready then "Progressing" else "Unavailable".

Definition jobStatus (suspended : bool) (active succeeded failed desired : Z)
    (conditions : list workloadCondition) : string :=
  let decisive c :=
    bool_decide (c.(workloadCondition.Status) = "True") &&
    bool_decide (c.(workloadCondition.Type_) ∈ ["Complete"; "Failed"; "Suspended"]) in
  match List.find decisive conditions with
  | Some c =>
      if bool_decide (c.(workloadCondition.Type_) = "Complete") then "Succeeded"
      else c.(workloadCondition.Type_)
  | None =>
      if suspended then "Suspended"
      else if 0 <? active then "Running"
      else if (0 <? desired) && (desired <=? succeeded) then "Succeeded"
      else if 0 <? failed then "Retrying"
      else "Pending"
  end.

Definition images (containers : list containerSpec) : list string := containerSpec.Image <$> containers.

Definition decodeJob (item : RawMessage) : result Workload :=
  let resource : decoder (objectMetadata * (option Z * bool * list containerSpec) *
      (Z * Z * Z * list workloadCondition)) :=
    struct (field "metadata" objectMetadata.decode ⊗
      field "spec" (struct (field "completions" (pointer int32) ⊗ field "suspend" bool_ ⊗
        field "template" template_containers)) ⊗
      field "status" (struct (field "active" int32 ⊗ field "succeeded" int32 ⊗ field "failed" int32 ⊗
        field "conditions" (slice workloadCondition.decode)))) in
  '(metadata, (completions, suspend, containers), (active, succeeded, failed, conditions)) ←
    expect_ok (upstream "decode Kubernetes Job") (Unmarshal resource item);
  let desired := default 1 completions in
  Ok (Workload.mk "Job" metadata.(objectMetadata.Namespace) metadata.(objectMetadata.Name)
    succeeded desired (jobStatus suspend active succeeded failed desired conditions)
    (images containers) metadata.(objectMetadata.CreationTimestamp)).

Definition decodeCronJob (item : RawMessage) : result Workload :=
  let resource : decoder (objectMetadata * (bool * list containerSpec) * (list unit * time)) :=
    struct (field "metadata" objectMetadata.decode ⊗
      field "spec" (struct (field "suspend" bool_ ⊗
        field "jobTemplate" (struct (field "spec" (struct (field "template" template_containers)))))) ⊗
      field "status" (struct (field "active" (slice containerStatus.empty_struct) ⊗
        field "lastScheduleTime" time_))) in
  '(metadata, (suspend, containers), (jobs, lastScheduleTime)) ←
    expect_ok (upstream "decode Kubernetes CronJob") (Unmarshal resource item);
  let active := to_int32 (len_list jobs) in
  let status :=
    if suspend : bool then "Suspended" else if 0 <? active then "Running"
    else if negb (IsZero lastScheduleTime) then "Scheduled" else "Pending" in
  Ok (Workload.mk "CronJob" metadata.(objectMetadata.Namespace) metadata.(objectMetadata.Name)
    active active status (images containers) metadata.(objectMetadata.CreationTimestamp)).

Definition decodePod (item : RawMessage) : result Workload :=
  let resource : decoder (objectMetadata * list containerSpec * (string * list bool)) :=
    struct (field "metadata" objectMetadata.decode ⊗
      field "spec" (struct (field "containers" containerSpecs)) ⊗
      field "status" (struct (field "phase" string_ ⊗
        field "containerStatuses" (slice (struct (field "ready" bool_)))))) in
  match Unmarshal resource item with
  | None => Err (Errorf "decode Kubernetes pod: " json_error)
  | Some (metadata, containers, (phase, statuses)) =>
      let ready := to_int32 (len_list (List.filter id statuses)) in
      let desired := to_int32 (len_list containers) in
      let status := if bool_decide (phase = "Running") && (ready =? desired) then "Ready" else phase in
      Ok (Workload.mk "Pod" metadata.(objectMetadata.Namespace) metadata.(objectMetadata.Name)
        ready desired status (images containers) metadata.(objectMetadata.CreationTimestamp))
  end.

Definition decodeWorkload (kind : string) (item : RawMessage) : result Workload :=
  if bool_decide (kind = "pod") then decodePod item
  else if bool_decide (kind = "job") then decodeJob item
  else if bool_decide (kind = "cronjob") then decodeCronJob item
  else
  let resource : decoder (objectMetadata * (option Z * list containerSpec) * (Z * Z * Z * Z)) :=
    struct (field "metadata" objectMetadata.decode ⊗
      field "spec" (struct (field "replicas" (pointer int32) ⊗ field "template" template_containers)) ⊗
      field "status" (struct (field "readyReplicas" int32 ⊗ field "availableReplicas" int32 ⊗
        field "desiredNumberScheduled" int32 ⊗ field "numberReady" int32))) in
  match Unmarshal resource item with
  | None => Err (Errorf "decode Kubernetes workload: " json_error)
  | Some (metadata, (replicas, containers), (readyReplicas, _, scheduled, numberReady)) =>
      let '(displayKind, desired, ready) :=
        if bool_decide (kind = "statefulset") then ("StatefulSet", default 1 replicas, readyReplicas)
        else if bool_decide (kind = "daemonset") then ("DaemonSet", scheduled, numberReady)
        else ("Deployment", default 1 replicas, readyReplicas) in
      Ok (Workload.mk displayKind metadata.(objectMetadata.Namespace) metadata.(objectMetadata.Name)
        ready desired (replicaStatus ready desired) (images containers)
        metadata.(objectMetadata.CreationTimestamp))
  end.

Definition nodeReadyStatus (conditions : list nodeCondition) : string :=
  match List.find (λ c, bool_decide (c.(nodeCondition.Type_) = "Ready")) conditions with
  | Some c =>
      if bool_decide (c.(nodeCondition.Status) = "True") then "Ready"
      else if bool_decide (c.(nodeCondition.Status) = "False") then "NotReady"
      else "Unknown"
  | None => "Unknown"
  end.

Definition rolePrefix : string := "node-role.kubernetes.io/".

Definition nodeRole (label : string * string) : string :=
  let '(key, value) := label in
  if HasPrefix key rolePrefix then
    let role := TrimPrefix key rolePrefix in if bool_decide (role = "") then value else role
  else if bool_decide (key = "kubernetes.io/role") then value
  else "".

Definition nodeRoles (labels : gmap string string) : list string :=
  sort_Slice String.ltb
    (remove_dups (List.filter (λ role, negb (bool_decide (role = ""))) (nodeRole <$> map_to_list labels))).

Definition nodeInternalIP (addresses : list nodeAddress) : string :=
  match List.find (λ a, bool_decide (a.(nodeAddress.Type_) = "InternalIP")) addresses with
  | Some a => a.(nodeAddress.Address)
  | None => ""
  end.

Definition decodeNodeResources (resources : gmap string string) : NodeResources :=
  let get key := default "" (resources !! key) in
  NodeResources.mk (get "cpu") (get "memory") (get "pods") (get "ephemeral-storage").

Definition decodeNode (item : RawMessage) : result (Node * nodeResource) :=
  resource ← expect_ok (upstream "decode Kubernetes node") (Unmarshal nodeResource.decode item);
  let metadata := resource.(nodeResource.Metadata) in
  let info := resource.(nodeResource.NodeInfo) in
  Ok (Node.mk metadata.(objectMetadata.Name) (nodeReadyStatus resource.(nodeResource.Conditions))
        (nodeRoles metadata.(objectMetadata.Labels)) info.(nodeSystemInfo.KubeletVersion)
        (nodeInternalIP resource.(nodeResource.Addresses)) info.(nodeSystemInfo.OSImage)
        info.(nodeSystemInfo.Architecture) (decodeNodeResources resource.(nodeResource.Capacity))
        (decodeNodeResources resource.(nodeResource.Allocatable))
        resource.(nodeResource.Unschedulable) (len_list resource.(nodeResource.Taints))
        metadata.(objectMetadata.CreationTimestamp), resource).

Definition decodeNodeTaints (taints : list nodeTaint) : list NodeTaint :=
  (λ t, NodeTaint.mk t.(nodeTaint.Key) t.(nodeTaint.Value) t.(nodeTaint.Effect) t.(nodeTaint.TimeAdded))
    <$> taints.

Definition decodeNodeAddresses (addresses : list nodeAddress) : list NodeAddress :=
  (λ a, NodeAddress.mk a.(nodeAddress.Type_) a.(nodeAddress.Address)) <$> addresses.

Definition decodeNodeConditions (conditions : list nodeCondition) : list NodeCondition :=
  (λ c, NodeCondition.mk c.(nodeCondition.Type_) c.(nodeCondition.Status) c.(nodeCondition.Reason)
          c.(nodeCondition.Message) c.(nodeCondition.LastHeartbeatTime)
          c.(nodeCondition.LastTransitionTime)) <$> conditions.

Definition decodeNodeSystemInfo (info : nodeSystemInfo) : NodeSystemInfo :=
  NodeSystemInfo.mk info.(nodeSystemInfo.OSImage) info.(nodeSystemInfo.KernelVersion)
    info.(nodeSystemInfo.ContainerRuntimeVersion) info.(nodeSystemInfo.KubeletVersion)
    info.(nodeSystemInfo.OperatingSystem) info.(nodeSystemInfo.Architecture).

Definition containerState (status : containerStatus) : string :=
  let reason r fallback := if bool_decide (r = "") then fallback else r in
  if bool_decide (is_Some status.(containerStatus.Running)) then "Running"
  else match status.(containerStatus.Waiting), status.(containerStatus.Terminated) with
       | Some r, _ => reason r "Waiting"
       | None, Some r => reason r "Terminated"
       | None, None => ""
       end.

(** Of several statuses of a container the last one counts; a container without a
    status gets the zero status. *)
Definition mergeContainerDetails (specs : list containerSpec) (statuses : list containerStatus)
    (containerType : string) : list WorkloadContainer :=
  let byName : gmap string containerStatus :=
    foldl (λ m s, <[s.(containerStatus.Name) := s]> m) ∅ statuses in
  (λ spec,
     let status := default zero (byName !! spec.(containerSpec.Name)) in
     WorkloadContainer.mk spec.(containerSpec.Name) spec.(containerSpec.Image) containerType
       status.(containerStatus.Ready) status.(containerStatus.RestartCount) (containerState status))
    <$> specs.

Definition decodeContainers (kind : string) (resource : workloadDetailResource) :
    list WorkloadContainer :=
  if negb (bool_decide (kind = "pod")) then
    if bool_decide (kind = "cronjob")
    then mergeContainerDetails resource.(workloadDetailResource.JobContainers) [] "container"
    else mergeContainerDetails resource.(workloadDetailResource.TemplateContainers) [] "container"
  else
    mergeContainerDetails resource.(workloadDetailResource.Containers)
      resource.(workloadDetailResource.ContainerStatuses) "container" ++
    mergeContainerDetails resource.(workloadDetailResource.InitContainers)
      resource.(workloadDetailResource.InitContainerStatuses) "init" ++
    mergeContainerDetails resource.(workloadDetailResource.EphemeralContainers)
      resource.(workloadDetailResource.EphemeralContainerStatuses) "ephemeral".

Definition decodeConditions (conditions : list workloadCondition) : list WorkloadCondition :=
  (λ c, WorkloadCondition.mk c.(workloadCondition.Type_) c.(workloadCondition.Status)
          c.(workloadCondition.Reason) c.(workloadCondition.Message)
          c.(workloadCondition.LastTransitionTime)) <$> conditions.

(** [containerImage]: the image of the first container of that name. *)
Definition containerImage (containers : list containerSpec) (name : string) : option string :=
  containerSpec.Image <$> List.find (λ c, bool_decide (c.(containerSpec.Name) = name)) containers.

(** ** Events (events.go) *)

Definition maxEventMessageBytes : Z := 1024.
Definition maxEventScalarBytes : Z := 256.

Definition eventScalar (value : string) (allowEmpty : bool) : result string :=
  if negb (bool_decide (TrimSpace value = value)) || (negb allowEmpty && bool_decide (value = "")) ||
     (maxEventScalarBytes <? len value) || has_rune IsControl value
  then Err ErrUpstream else Ok value.

Definition eventSource (resource : eventResource) : string :=
  if bool_decide (resource.(eventResource.ReportingComponent) = "")
  then resource.(eventResource.SourceComponent)
  else resource.(eventResource.ReportingComponent).

Definition firstNonZeroTime (values : list time) : time :=
  default time_zero (List.find (λ t, negb (IsZero t)) values).

(** [boundedEventMessage]: [result] is what has been written, [space] says that a
    space is due before the next character. *)
Fixpoint bound_message (characters : list Z) (result : string) (space : bool) : string * bool :=
  match characters with
  | [] => (result, false)
  | character :: characters =>
      if IsSpace character || IsControl character
      then bound_message characters result (0 <? len result)
      else
      let written := (if space then " " else "") +:+ encode_rune character in
      if maxEventMessageBytes <? len result + len written then (result, true)
      else bound_message characters (result +:+ written) false
  end.

Definition boundedEventMessage (value : string) : string * bool := bound_message (runes value) "" false.

(** A scalar that must be valid, with the error that names it. *)
Definition scalar (value : string) (allowEmpty : bool) (what : string) : result string :=
  match eventScalar value allowEmpty with
  | Ok v => Ok v
  | Err _ => Err (upstream ("invalid Kubernetes event " +:+ what))
  end.

Definition namespace_scalar (value what : string) : result string :=
  v ← scalar value true what;
  reject_if (negb (bool_decide (v = "")) && negb (is_ok (ValidateNamespace v)))
    (upstream ("invalid Kubernetes event " +:+ what)) ;;
  Ok v.

Definition projectEvent (resource : eventResource) : result KubernetesEvent :=
  let metadata := resource.(eventResource.Metadata) in
  name ← scalar metadata.(objectMetadata.Name) false "name";
  namespace ← namespace_scalar metadata.(objectMetadata.Namespace) "namespace";
  eventType ← scalar resource.(eventResource.Type_) true "type";
  reason ← scalar resource.(eventResource.Reason) true "reason";
  source ← scalar (eventSource resource) true "source";
  objectKind ← scalar resource.(eventResource.ObjectKind) true "object kind";
  objectName ← scalar resource.(eventResource.ObjectName) true "object name";
  objectNamespace ← namespace_scalar resource.(eventResource.ObjectNamespace) "object namespace";
  reject_if (negb (bool_decide (namespace = "")) && negb (bool_decide (objectNamespace = "")) &&
             negb (bool_decide (namespace = objectNamespace)))
    (upstream "Kubernetes event object exceeded namespace scope") ;;
  reject_if ((resource.(eventResource.Count) <? 0) || (resource.(eventResource.SeriesCount) <? 0))
    (upstream "invalid Kubernetes event count") ;;
  let '(message, truncated) := boundedEventMessage resource.(eventResource.Message) in
  let created := metadata.(objectMetadata.CreationTimestamp) in
  Ok (KubernetesEvent.mk namespace name eventType reason message truncated source objectKind objectName
        (Z.max (Z.max resource.(eventResource.Count) resource.(eventResource.SeriesCount)) 1)
        (firstNonZeroTime [resource.(eventResource.FirstTimestamp); resource.(eventResource.EventTime);
                           created])
        (firstNonZeroTime [resource.(eventResource.SeriesLastObservedTime);
                           resource.(eventResource.LastTimestamp); resource.(eventResource.EventTime);
                           created])
        created).

Fixpoint decode_all {A} (decode : RawMessage → result A) (items : list RawMessage) : result (list A) :=
  match items with
  | [] => Ok []
  | item :: items => a ← decode item; rest ← decode_all decode items; Ok (a :: rest)
  end.

Definition decodeEvent (item : RawMessage) : result KubernetesEvent :=
  resource ← expect_ok (upstream "decode Kubernetes event") (Unmarshal eventResource.decode item);
  projectEvent resource.

Definition event_time (e : KubernetesEvent) : time :=
  firstNonZeroTime [e.(KubernetesEvent.LastSeen); e.(KubernetesEvent.CreatedAt)].

Definition event_less (e f : KubernetesEvent) : bool :=
  let left := event_time e in let right := event_time f in
  if negb (TimeEqual left right) then After left right
  else if negb (bool_decide (e.(KubernetesEvent.Namespace) = f.(KubernetesEvent.Namespace)))
  then String.ltb e.(KubernetesEvent.Namespace) f.(KubernetesEvent.Namespace)
  else String.ltb e.(KubernetesEvent.Name) f.(KubernetesEvent.Name).

Definition decodeEvents (items : list RawMessage) (limit : Z) : result (list KubernetesEvent) :=
  events ← decode_all decodeEvent items;
  let events := sort_SliceStable event_less events in
  Ok (if limit <? len_list events then take (Z.to_nat limit) events else events).

(** ** Listing *)

Definition maxListBytes : Z := 32 * 1024 * 1024.
Definition maxCapabilityReviewBytes : Z := 64 * 1024.
Definition maxListItems : Z := 5000.
Definition maxListPages : Z := 20.
Definition listPageSize : string := "500".

(** [listBudget], shared by the lists of one request. *)
Record listBudget : Type := mkBudget { items : Z; pages : Z; bytes : Z }.

Definition newListBudget : listBudget := mkBudget 0 0 0.

(** The sum of the bytes of the items, or the error at the first item beyond [room]. *)
Fixpoint page_bytes (room pageBytes : Z) (pageItems : list RawMessage) : result Z :=
  match pageItems with
  | [] => Ok pageBytes
  | item :: pageItems =>
      if room - pageBytes <? len item
      then Err (upstream "Kubernetes list exceeded safe byte limit")
      else page_bytes room (pageBytes + len item) pageItems
  end.

Definition appendListItemsWithBudget (current pageItems : list RawMessage) (budget : listBudget) :
    result (list RawMessage * listBudget) :=
  reject_if (maxListItems - budget.(items) <? len_list pageItems)
    (upstream "Kubernetes list exceeded safe item limit") ;;
  pageBytes ← page_bytes (maxListBytes - budget.(bytes)) 0 pageItems;
  Ok (current ++ pageItems,
      mkBudget (budget.(items) + len_list pageItems) budget.(pages) (budget.(bytes) + pageBytes)).

(** [struct { Metadata struct { Continue }; Items }] *)
Definition list_page : decoder (string * list RawMessage) :=
  struct (field "metadata" (struct (field "continue" string_)) ⊗ field "items" (slice raw_message)).

Definition Values : Type := gmap string string.

Section client.
Context (token : string).

(** The loop of [listRawWithBudget]: [remaining] is [maxListPages - budget.pages]. *)
Fixpoint list_pages (remaining : nat) (path : string) (query : Values) (budget : listBudget)
    (current : list RawMessage) : fetch (result (list RawMessage * listBudget)) :=
  match remaining with
  | O => Done (Err (upstream "Kubernetes list exceeded safe page limit"))
  | S remaining =>
      let budget := mkBudget budget.(items) (budget.(pages) + 1) budget.(bytes) in
      '(continue, pageItems) ←! getJSON token path (Some query) list_page;
      '(current, budget) ←! Done (appendListItemsWithBudget current pageItems budget);
      if bool_decide (continue = "") then Done (Ok (current, budget))
      else list_pages remaining path (<["continue" := continue]> query) budget current
  end.

Definition listRawWithBudget (path : string) (query : Values) (budget : listBudget) :
    fetch (result (list RawMessage * listBudget)) :=
  list_pages (Z.to_nat (maxListPages - budget.(pages))) path (<["limit" := listPageSize]> query)
    budget [].

Definition listRaw (path : string) (query : Values) : fetch (result (list RawMessage)) :=
  '(list, _) ←! listRawWithBudget path query newListBudget; Done (Ok list).

(** ** Capabilities *)

Record capabilityReviewSpec : Type := mkReview {
  key : string;
  group : string;
  resource : string;
  subresource : string;
  verb : string;
  namespaced : bool;
}.

Definition capabilityReviewSpecs : list capabilityReviewSpec :=
  [mkReview "namespaces.list" "" "namespaces" "" "list" false;
   mkReview "nodes.list" "" "nodes" "" "list" false;
   mkReview "pods.list" "" "pods" "" "list" true;
   mkReview "pods.logs.get" "" "pods" "log" "get" true;
   mkReview "events.list" "" "events" "" "list" true;
   mkReview "deployments.list" "apps" "deployments" "" "list" true;
   mkReview "statefulsets.list" "apps" "statefulsets" "" "list" true;
   mkReview "daemonsets.list" "apps" "daemonsets" "" "list" true;
   mkReview "deployments.patch" "apps" "deployments" "" "patch" true;
   mkReview "deployments.scale.patch" "apps" "deployments" "scale" "patch" true].

Definition text (s : string) : string * value := ("", Str s).
Definition object (ms : list (string * (string * value))) : string * value := ("", Object ms).

(** A member that is left out when it is empty: [omitempty]. *)
Definition omitempty (name s : string) : list (string * (string * value)) :=
  if bool_decide (s = "") then [] else [(name, text s)].

Definition review_body (review : capabilityReviewSpec) (namespace : string) : string :=
  Marshal (Object [("apiVersion", text "authorization.k8s.io/v1");
    ("kind", text "SelfSubjectAccessReview");
    ("spec", object [("resourceAttributes", object
      (omitempty "group" review.(group) ++ [("resource", text review.(resource))] ++
       omitempty "subresource" review.(subresource) ++ [("verb", text review.(verb))] ++
       omitempty "namespace" namespace))])]).

Definition review_answer : decoder (option bool * bool * string) :=
  struct (field "status" (struct (field "allowed" (pointer bool_) ⊗ field "denied" bool_ ⊗
    field "evaluationError" string_))).

Definition capability (review : capabilityReviewSpec) (namespace : string) :
    fetch (result KubernetesCapability) :=
  let resourceNamespace := if review.(namespaced) then namespace else "" in
  '(payload, _) ←! requestPayload token "POST" "/apis/authorization.k8s.io/v1/selfsubjectaccessreviews"
    None "application/json" "application/json" (review_body review resourceNamespace)
    maxCapabilityReviewBytes false;
  Done (match Unmarshal review_answer payload with
        | Some (Some allowed, denied, evaluationError) =>
            Ok (KubernetesCapability.mk review.(key)
              (if allowed : bool then KubernetesCapabilityAllowed
               else if negb denied && negb (bool_decide (evaluationError = ""))
               then KubernetesCapabilityIndeterminate else KubernetesCapabilityDenied))
        | _ => Err (upstream "decode Kubernetes capability review")
        end).

Fixpoint each {A B} (f : A → fetch (result B)) (l : list A) : fetch (result (list B)) :=
  match l with
  | [] => Done (Ok [])
  | a :: l => b ←! f a; rest ←! each f l; Done (Ok (b :: rest))
  end.

Definition Capabilities (namespace : string) : fetch (result (list KubernetesCapability)) :=
  ValidateNamespace namespace ;!
  each (λ review, capability review namespace) capabilityReviewSpecs.

(** ** Namespaces, nodes and the summary *)

Definition decodeNamespace (item : RawMessage) : result Namespace :=
  let resource : decoder (objectMetadata * list string * string) :=
    struct (field "metadata" objectMetadata.decode ⊗
      field "spec" (struct (field "finalizers" (slice string_))) ⊗
      field "status" (struct (field "phase" string_))) in
  match Unmarshal resource item with
  | None => Err (Errorf "decode namespace: " json_error)
  | Some (metadata, finalizers, phase) =>
      Ok (Namespace.mk metadata.(objectMetadata.Name) phase metadata.(objectMetadata.Labels) finalizers
            metadata.(objectMetadata.CreationTimestamp))
  end.

Definition Namespaces : fetch (result (list Namespace)) :=
  items ←! listRaw "/api/v1/namespaces" ∅;
  namespaces ←! Done (decode_all decodeNamespace items);
  Done (Ok (sort_Slice (λ a b, String.ltb a.(Namespace.Name) b.(Namespace.Name)) namespaces)).

Definition Nodes : fetch (result (list Node)) :=
  items ←! listRaw "/api/v1/nodes" ∅;
  nodes ←! Done (decode_all (λ item, fst <$> decodeNode item) items);
  Done (Ok (sort_Slice (λ a b, String.ltb a.(Node.Name) b.(Node.Name)) nodes)).

Definition probeResources : fetch (result (ClusterProbe * list Node)) :=
  version ←! getJSON token "/version" None (struct (field "gitVersion" string_));
  namespaces ←! Namespaces;
  nodes ←! Nodes;
  Done (Ok (ClusterProbe.mk version (len_list namespaces) (len_list nodes), nodes)).

Definition Probe : fetch (result ClusterProbe) :=
  '(probe, _) ←! probeResources; Done (Ok probe).

Definition NodeDetail_ (name : string) : fetch (result NodeDetail) :=
  ValidateNodeName name ;!
  raw ←! getJSON token ("/api/v1/nodes/" +:+ name) None raw_message;
  '(node, resource) ←! Done (decodeNode raw);
  let metadata := resource.(nodeResource.Metadata) in
  Done (Ok (NodeDetail.mk node metadata.(objectMetadata.UID) metadata.(objectMetadata.ResourceVersion)
    metadata.(objectMetadata.Labels) (decodeNodeTaints resource.(nodeResource.Taints))
    (decodeNodeAddresses resource.(nodeResource.Addresses))
    (decodeNodeConditions resource.(nodeResource.Conditions))
    (decodeNodeSystemInfo resource.(nodeResource.NodeInfo)))).

Definition NodeEvents (name : string) (limit : Z) : fetch (result (list KubernetesEvent)) :=
  ValidateNodeName name ;!
  (reject_if ((limit <? 1) || (MaxNodeEventLimit <? limit)) (Invalid "limit" "must be between 1 and 100")) ;!
  items ←! listRaw "/api/v1/events"
    {[ "fieldSelector" := GoText.Join ["involvedObject.kind=Node"; "involvedObject.name=" +:+ name] "," ]};
  Done (decodeEvents items limit).

(** ** Workloads *)

Section workloads.
Context `{UnicodeTables}.

Definition workload_kinds : list string :=
  ["deployment"; "statefulset"; "daemonset"; "job"; "cronjob"; "pod"].

(** A validated namespace is its own [url.PathEscape]. *)
Definition workloadPaths (namespace kind : string) : string :=
  let scoped := if bool_decide (namespace = "") then "/" else "/namespaces/" +:+ namespace +:+ "/" in
  if bool_decide (kind = "deployment") then "/apis/apps/v1" +:+ scoped +:+ "deployments"
  else if bool_decide (kind = "statefulset") then "/apis/apps/v1" +:+ scoped +:+ "statefulsets"
  else if bool_decide (kind = "daemonset") then "/apis/apps/v1" +:+ scoped +:+ "daemonsets"
  else if bool_decide (kind = "job") then "/apis/batch/v1" +:+ scoped +:+ "jobs"
  else if bool_decide (kind = "cronjob") then "/apis/batch/v1" +:+ scoped +:+ "cronjobs"
  else "/api/v1" +:+ scoped +:+ "pods".

Definition workloadResourcePath (reference : WorkloadReference) : string :=
  workloadPaths reference.(WorkloadReference.Namespace) reference.(WorkloadReference.Kind) +:+ "/" +:+
  reference.(WorkloadReference.Name).

Definition displayWorkloadKind (kind : string) : string :=
  if bool_decide (kind = "deployment") then "Deployment"
  else if bool_decide (kind = "statefulset") then "StatefulSet"
  else if bool_decide (kind = "daemonset") then "DaemonSet"
  else if bool_decide (kind = "job") then "Job"
  else if bool_decide (kind = "cronjob") then "CronJob"
  else "Pod".

Definition workload_less (a b : Workload) : bool :=
  if negb (bool_decide (a.(Workload.Namespace) = b.(Workload.Namespace)))
  then String.ltb a.(Workload.Namespace) b.(Workload.Namespace)
  else if negb (bool_decide (a.(Workload.Kind) = b.(Workload.Kind)))
  then String.ltb a.(Workload.Kind) b.(Workload.Kind)
  else String.ltb a.(Workload.Name) b.(Workload.Name).

(** The loop over the kinds, with the budget they share. *)
Fixpoint list_kinds (kinds : list string) (namespace : string) (budget : listBudget)
    (workloads : list Workload) : fetch (result (list Workload)) :=
  match kinds with
  | [] => Done (Ok workloads)
  | kind :: kinds =>
      '(items, budget) ←! listRawWithBudget (workloadPaths namespace kind) ∅ budget;
      decoded ←! Done (decode_all (decodeWorkload kind) items);
      list_kinds kinds namespace budget (workloads ++ decoded)
  end.

Definition Workloads (namespace kind : string) : fetch (result (list Workload)) :=
  let kind := ToLower (TrimSpace kind) in
  ValidateWorkloadList namespace kind ;!
  let kinds := List.filter (λ k, bool_decide (kind = "") || bool_decide (kind = k)) workload_kinds in
  workloads ←! list_kinds kinds namespace newListBudget [];
  Done (Ok (sort_Slice workload_less workloads)).

Definition lower_kind (reference : WorkloadReference) : WorkloadReference :=
  WorkloadReference.mk (ToLower (TrimSpace reference.(WorkloadReference.Kind)))
    reference.(WorkloadReference.Namespace) reference.(WorkloadReference.Name).

Definition WorkloadDetail_ `{YAML} (reference : WorkloadReference) : fetch (result WorkloadDetail) :=
  let reference := lower_kind reference in
  ValidateWorkloadReference reference ;!
  raw ←! getJSON token (workloadResourcePath reference) None raw_message;
  workload ←! Done (decodeWorkload reference.(WorkloadReference.Kind) raw);
  resource ←! Done (expect_ok (upstream "decode Kubernetes workload detail")
    (Unmarshal workloadDetailResource.decode raw));
  sanitized ←! Done (sanitizedWorkloadYAML raw);
  let metadata := resource.(workloadDetailResource.Metadata) in
  Done (Ok (WorkloadDetail.mk workload metadata.(objectMetadata.UID)
    metadata.(objectMetadata.ResourceVersion) metadata.(objectMetadata.Labels)
    (decodeContainers reference.(WorkloadReference.Kind) resource)
    (decodeConditions resource.(workloadDetailResource.Conditions)) sanitized)).

Definition WorkloadEvents (reference : WorkloadReference) (limit : Z) :
    fetch (result (list KubernetesEvent)) :=
  let reference := lower_kind reference in
  ValidateWorkloadReference reference ;!
  (reject_if ((limit <? 1) || (MaxWorkloadEventLimit <? limit)) (Invalid "limit" "must be between 1 and 100")) ;!
  items ←! listRaw ("/api/v1/namespaces/" +:+ reference.(WorkloadReference.Namespace) +:+ "/events")
    {[ "fieldSelector" := GoText.Join
         ["involvedObject.kind=" +:+ displayWorkloadKind reference.(WorkloadReference.Kind);
          "involvedObject.name=" +:+ reference.(WorkloadReference.Name)] "," ]};
  events ←! Done (decodeEvents items limit);
  (reject_if (existsb (λ e,
      negb (bool_decide (e.(KubernetesEvent.Namespace) = "")) &&
      negb (bool_decide (e.(KubernetesEvent.Namespace) = reference.(WorkloadReference.Namespace)))) events)
    (upstream "Kubernetes event exceeded namespace scope")) ;!
  Done (Ok events).

Definition Summary : fetch (result ClusterSummary) :=
  '(probe, nodes) ←! probeResources;
  workloads ←! Workloads "" "";
  let pods := List.filter (λ w, bool_decide (w.(Workload.Kind) = "Pod")) workloads in
  let others := List.filter (λ w, negb (bool_decide (w.(Workload.Kind) = "Pod"))) workloads in
  Done (Ok (ClusterSummary.mk probe.(ClusterProbe.Version) probe.(ClusterProbe.NamespaceCount)
    probe.(ClusterProbe.NodeCount)
    (len_list (List.filter (λ n, bool_decide (n.(Node.Status) = "Ready")) nodes))
    (len_list others)
    (len_list (List.filter (λ w, w.(Workload.Ready) =? w.(Workload.Desired)) others))
    (len_list (List.filter (λ w, negb (bool_decide (w.(Workload.Status) = "Ready")) &&
                                 negb (bool_decide (w.(Workload.Status) = "Succeeded"))) pods)))).
End workloads.
End client.

(** ** Changing a deployment *)

Definition restartAnnotation : string := "k8s-panel.io/restartedAt".

(** The layout of a patch: its version and its spec. *)
Definition patch (resourceVersion : string) (spec : list (string * (string * value))) : value :=
  Object [("metadata", object [("resourceVersion", text resourceVersion)]); ("spec", object spec)].

Definition scale_patch (resourceVersion : string) (replicas : Z) : value :=
  patch resourceVersion [("replicas", ("", Number (FormatInt replicas)))].

Definition restart_patch (resourceVersion : string) (restartedAt : time) : value :=
  patch resourceVersion [("template", object [("metadata", object [("annotations", object
    [(restartAnnotation, text (FormatRFC3339Nano restartedAt))])])])].

Definition image_patch (change : WorkloadImageChange) : value :=
  patch change.(WorkloadImageChange.ResourceVersion)
    [("template", object [("spec", object [("containers", ("", Array [object
       [("image", text change.(WorkloadImageChange.Image));
        ("name", text change.(WorkloadImageChange.Container))]]))])])].

Section mutations.
Context `{UnicodeTables} (token : string).

Definition validateDeploymentMutation (reference : WorkloadReference) (resourceVersion : string) :
    result unit :=
  ValidateWorkloadReference reference ;;
  reject_if (negb (bool_decide (ToLower (TrimSpace reference.(WorkloadReference.Kind)) = "deployment")))
    (Invalid "kind" "only Deployment operations are supported") ;;
  reject_if (bool_decide (TrimSpace resourceVersion = "") || (256 <? len (TrimSpace resourceVersion)))
    (Invalid "resource_version" "is required and must not exceed 256 characters").

Definition patchDeployment (reference : WorkloadReference) (body : value) : fetch (result Workload) :=
  '(payload, _) ←! requestPayload token "PATCH"
    ("/apis/apps/v1/namespaces/" +:+ reference.(WorkloadReference.Namespace) +:+ "/deployments/" +:+
     reference.(WorkloadReference.Name))
    None "application/json" "application/merge-patch+json" (Marshal body) maxResponseBytes false;
  Done (decodeWorkload "deployment" payload).

Definition ScaleWorkload (reference : WorkloadReference) (resourceVersion : string) (replicas : Z) :
    fetch (result Workload) :=
  validateDeploymentMutation reference resourceVersion ;!
  (reject_if ((replicas <? 0) || (MaxWorkloadReplicas <? replicas))
    (Invalid "replicas" "must be between 0 and 1000")) ;!
  patchDeployment reference (scale_patch (TrimSpace resourceVersion) replicas).

Definition RestartWorkload (reference : WorkloadReference) (resourceVersion : string)
    (restartedAt : time) : fetch (result Workload) :=
  validateDeploymentMutation reference resourceVersion ;!
  (reject_if (IsZero restartedAt) (Invalid "restarted_at" "is required")) ;!
  patchDeployment reference (restart_patch (TrimSpace resourceVersion) restartedAt).

Definition normalizeWorkloadImageChange (change : WorkloadImageChange) : WorkloadImageChange :=
  WorkloadImageChange.mk (lower_kind change.(WorkloadImageChange.Reference))
    (TrimSpace change.(WorkloadImageChange.ResourceVersion)) change.(WorkloadImageChange.Container)
    change.(WorkloadImageChange.CurrentImage) change.(WorkloadImageChange.Image).

Definition deploymentContainerImage (payload name : string) : result (option string) :=
  resource ← expect_ok (upstream "decode Kubernetes Deployment image")
    (Unmarshal workloadDetailResource.decode payload);
  Ok (containerImage resource.(workloadDetailResource.TemplateContainers) name).

Definition patchDeploymentImage (change : WorkloadImageChange) (dryRun : bool) : fetch (result string) :=
  ValidateWorkloadImageChange change ;!
  let path := workloadResourcePath change.(WorkloadImageChange.Reference) in
  '(currentPayload, _) ←! requestPayload token "GET" path None "application/json" "" ""
    maxMutationBytes false;
  current ←! Done (expect_ok (upstream "decode Kubernetes Deployment for image update")
    (Unmarshal workloadDetailResource.decode currentPayload));
  (reject_if (negb (bool_decide (current.(workloadDetailResource.Metadata).(objectMetadata.ResourceVersion) =
                                 change.(WorkloadImageChange.ResourceVersion))))
    (Errorf "Deployment resource version changed: " ErrConflict)) ;!
  (reject_if (negb (bool_decide (containerImage current.(workloadDetailResource.TemplateContainers)
                                   change.(WorkloadImageChange.Container) =
                                 Some change.(WorkloadImageChange.CurrentImage))))
    (Errorf "Deployment container image changed: " ErrConflict)) ;!
  '(payload, _) ←! requestPayload token "PATCH" path
    (if dryRun then Some {[ "dryRun" := "All" ]} else None) "application/json"
    "application/strategic-merge-patch+json" (Marshal (image_patch change)) maxMutationBytes false;
  Done (Ok payload).

Definition PreviewWorkloadImage (change : WorkloadImageChange) : fetch (result WorkloadImagePreview) :=
  let change := normalizeWorkloadImageChange change in
  payload ←! patchDeploymentImage change true;
  image ←! Done (deploymentContainerImage payload change.(WorkloadImageChange.Container));
  (reject_if (negb (bool_decide (image = Some change.(WorkloadImageChange.Image))))
    (upstream "Kubernetes dry-run returned an unexpected container image")) ;!
  let reference := change.(WorkloadImageChange.Reference) in
  Done (Ok (WorkloadImagePreview.mk "Deployment" reference.(WorkloadReference.Namespace)
    reference.(WorkloadReference.Name) change.(WorkloadImageChange.Container)
    change.(WorkloadImageChange.ResourceVersion)
    [WorkloadFieldChange.mk
      ("spec.template.spec.containers[name=" +:+ change.(WorkloadImageChange.Container) +:+ "].image")
      change.(WorkloadImageChange.CurrentImage) change.(WorkloadImageChange.Image)])).

Definition UpdateWorkloadImage (change : WorkloadImageChange) : fetch (result Workload) :=
  let change := normalizeWorkloadImageChange change in
  payload ←! patchDeploymentImage change false;
  image ←! Done (deploymentContainerImage payload change.(WorkloadImageChange.Container));
  (reject_if (negb (bool_decide (image = Some change.(WorkloadImageChange.Image))))
    (upstream "Kubernetes update returned an unexpected container image")) ;!
  Done (decodeWorkload "deployment" payload).
End mutations.

(** ** Logs *)

(** [bytes.ToValidUTF8]: a run of invalid bytes, [invalid] says that one is open,
    becomes one replacement character. *)
Fixpoint ToValidUTF8 (s : string) (invalid : bool) : string :=
  let once r := if invalid then r else replacement +:+ r in
  match s with
  | EmptyString => EmptyString
  | String c r0 =>
      if is_ascii c then String c (ToValidUTF8 r0 false) else
      match r0 with
      | EmptyString => once EmptyString
      | String d r1 =>
          if lead2 c && is_cont d then of_bytes [c; d] +:+ ToValidUTF8 r1 false else
          match r1 with
          | EmptyString => once (ToValidUTF8 r0 true)
          | String e r2 =>
              if lead3 c d && is_cont e then of_bytes [c; d; e] +:+ ToValidUTF8 r2 false else
              match r2 with
              | EmptyString => once (ToValidUTF8 r0 true)
              | String f r3 =>
                  if lead4 c d && is_cont e && is_cont f
                  then of_bytes [c; d; e; f] +:+ ToValidUTF8 r3 false
                  else once (ToValidUTF8 r0 true)
              end
          end
      end
  end.

Definition FormatBool (b : bool) : string := if b then "true" else "false".

Definition PodLogs_ (token : string) (input : PodLogRequest) : fetch (result PodLogs) :=
  ValidatePodLogRequest input ;!
  let query : Values :=
    {[ "container" := input.(PodLogRequest.Container);
       "tailLines" := FormatInt input.(PodLogRequest.TailLines);
       "previous" := FormatBool input.(PodLogRequest.Previous);
       "timestamps" := FormatBool input.(PodLogRequest.Timestamps) ]} in
  '(payload, truncated) ←! getPayload token
    ("/api/v1/namespaces/" +:+ input.(PodLogRequest.Namespace) +:+ "/pods/" +:+
     input.(PodLogRequest.Pod) +:+ "/log") (Some query) "text/plain" maxLogBytes true;
  Done (Ok (PodLogs.mk input.(PodLogRequest.Namespace) input.(PodLogRequest.Pod)
    input.(PodLogRequest.Container) input.(PodLogRequest.TailLines) input.(PodLogRequest.Previous)
    input.(PodLogRequest.Timestamps) truncated (ToValidUTF8 payload false))).

(** ** Connecting *)

Module KubernetesConnection.
Record t : Type := mk { Server : string; CACert : string; BearerToken : string }.
End KubernetesConnection.

(** [x509.CertPool.AppendCertsFromPEM]. *)
Class CertPool := { AppendCertsFromPEM : string → bool }.

(** The client of a connection: the server's URL and the bearer token. *)
Record Client : Type := mkClient { baseURL : URL.t; bearer : string }.

Definition NewClientContext `{URLParser} `{CertPool} (policy : option (list Outbound.Prefix.t))
    (ctxErr : option error) (LookupIP : Outbound.resolution) (connection : KubernetesConnection.t) :
    result Client :=
  match policy, ctxErr with
  | None, _ => Err (NewError "outbound policy is required")
  | Some _, Some err => Err err
  | Some allowed, None =>
      match Outbound.ValidateHTTPSURL allowed LookupIP connection.(KubernetesConnection.Server) with
      | Err err => Err (Errorf "validate Kubernetes server: " err)
      | Ok base =>
          reject_if (bool_decide (TrimSpace connection.(KubernetesConnection.BearerToken) = ""))
            (NewError "bearer token is required") ;;
          reject_if (negb (bool_decide (connection.(KubernetesConnection.CACert) = "")) &&
                     negb (AppendCertsFromPEM connection.(KubernetesConnection.CACert)))
            (NewError "CA certificate is not valid PEM") ;;
          Ok (mkClient base connection.(KubernetesConnection.BearerToken))
      end
  end.

(** ** Events of a cluster (events.go) *)

Definition eventListPageSize : string := "250".
Definition maxEventListPages : nat := 8.
Definition maxEventListItems : Z := 2000.
Definition maxEventListBytes : Z := 16 * 1024 * 1024.
Definition maxContinueTokenBytes : Z := 16 * 1024.

Definition validContinueToken (value : string) : bool :=
  negb (bool_decide (value = "")) && (len value <=? maxContinueTokenBytes) &&
  negb (has_rune IsControl value).

Definition event_page : decoder (string * string * string * list RawMessage) :=
  struct (field "apiVersion" string_ ⊗ field "kind" string_ ⊗
    field "metadata" (struct (field "continue" string_)) ⊗ field "items" (slice raw_message)).

Fixpoint event_pages (token : string) (remaining : nat) (path : string) (query : Values) (totalBytes : Z)
    (items : list RawMessage) : fetch (result (list RawMessage)) :=
  match remaining with
  | O => Done (Err (upstream "Kubernetes event list exceeded safe page limit"))
  | S remaining =>
      '(payload, _) ←! getPayload token path (Some query) "application/json" maxResponseBytes false;
      (reject_if (maxEventListBytes - totalBytes <? len payload)
        (upstream "Kubernetes event list exceeded safe byte limit")) ;!
      '(apiVersion, kind, continue, pageItems) ←! Done (expect_ok
        (upstream "decode Kubernetes event list") (Unmarshal event_page payload));
      (reject_if (negb (bool_decide (apiVersion = "v1")) || negb (bool_decide (kind = "EventList")))
        (upstream "unsupported Kubernetes event list")) ;!
      (reject_if (maxEventListItems - len_list items <? len_list pageItems)
        (upstream "Kubernetes event list exceeded safe item limit")) ;!
      let items := items ++ pageItems in
      if bool_decide (continue = "") then Done (Ok items)
      else
        (reject_if (negb (validContinueToken continue))
          (upstream "invalid Kubernetes event continuation token")) ;!
        event_pages token remaining path (<["continue" := continue]> query) (totalBytes + len payload) items
  end.

Definition listEventRaw (token path : string) (query : Values) : fetch (result (list RawMessage)) :=
  event_pages token maxEventListPages path (<["limit" := eventListPageSize]> query) 0 [].

(** What an event of a list must be: in the scope that was asked for. *)
Definition event_in_scope (namespace eventType : string) (event : KubernetesEvent) : result unit :=
  reject_if (bool_decide (event.(KubernetesEvent.Namespace) = "") ||
             negb (is_ok (ValidateNamespace event.(KubernetesEvent.Namespace))) ||
             IsZero event.(KubernetesEvent.CreatedAt)) (upstream "invalid Kubernetes event metadata") ;;
  reject_if (negb (bool_decide (namespace = "")) &&
             negb (bool_decide (event.(KubernetesEvent.Namespace) = namespace)))
    (upstream "Kubernetes event exceeded namespace scope") ;;
  reject_if (negb (bool_decide (eventType = "")) &&
             negb (bool_decide (event.(KubernetesEvent.Type_) = eventType)))
    (upstream "Kubernetes event exceeded type scope").

Fixpoint check_all {A} (f : A → result unit) (l : list A) : result unit :=
  match l with [] => Ok tt | a :: l => f a ;; check_all f l end.

Definition Events (token namespace eventType : string) (limit : Z) :
    fetch (result (list KubernetesEvent)) :=
  ValidateKubernetesEventList namespace eventType limit ;!
  let path := if bool_decide (namespace = "") then "/api/v1/events"
              else "/api/v1/namespaces/" +:+ namespace +:+ "/events" in
  let query : Values := if bool_decide (eventType = "") then ∅
                        else {[ "fieldSelector" := "type=" +:+ eventType ]} in
  items ←! listEventRaw token path query;
  events ←! Done (decodeEvents items (len_list items));
  check_all (event_in_scope namespace eventType) events ;!
  Done (Ok (if limit <? len_list events then take (Z.to_nat limit) events else events)).
