(* ===== verification/Tables.v ===== *)
(** * Config maps and secrets

    What the client reads of configuration without reading its content
    (src/internal/kubernetes/configuration.go): config maps and secrets as tables of
    counts, with the checks of tables and metadata that the readers of an inventory use
    too. *)

From S2P Require Export Client.

Local Open Scope Z_scope.
Local Open Scope stdpp_scope.
Local Open Scope fetch_scope.
Local Open Scope json_scope.

Import Json.

(** ** Tables (configuration.go) *)

Definition kubernetesTableAccept : string := "application/json;as=Table;g=meta.k8s.io;v=v1".
Definition maxTableColumns : Z := 64.
Definition maxTableStringBytes : Z := 256.

Record configurationTableItem : Type := mkTableItem {
  item_Namespace : string;
  item_Name : string;
  item_Type : string;
  item_DataCount : Z;
  item_CreatedAt : time;
}.

(** A column: its name and its type. *)
Definition column : Type := string * string.

Module kubernetesTableRow.
Record t : Type := mk { Cells : list RawMessage; Object : RawMessage }.
#[global] Instance zero_t : Zero t := mk [] "".
Definition decode : decoder t := struct (λ old ms,
  cells ← field "cells" (slice raw_message) old.(Cells) ms;
  object ← field "object" raw_message old.(Object) ms;
  Some (mk cells object)).
End kubernetesTableRow.
Notation kubernetesTableRow := kubernetesTableRow.t.

Module kubernetesTable.
Record t : Type := mk {
  APIVersion : string;
  Kind : string;
  Continue : string;
  ColumnDefinitions : list column;
  Rows : list kubernetesTableRow;
}.
#[global] Instance zero_t : Zero t := mk "" "" "" [] [].
Definition decode : decoder t := struct (λ old ms,
  apiVersion ← field "apiVersion" string_ old.(APIVersion) ms;
  kind ← field "kind" string_ old.(Kind) ms;
  continue ← field "metadata" (struct (field "continue" string_)) old.(Continue) ms;
  columns ← field "columnDefinitions" (slice (struct (field "name" string_ ⊗ field "type" string_)))
    old.(ColumnDefinitions) ms;
  rows ← field "rows" (slice kubernetesTableRow.decode) old.(Rows) ms;
  Some (mk apiVersion kind continue columns rows)).
End kubernetesTable.
Notation kubernetesTable := kubernetesTable.t.

Definition supported_table (t : kubernetesTable) : bool :=
  bool_decide (t.(kubernetesTable.APIVersion) = "meta.k8s.io/v1") &&
  bool_decide (t.(kubernetesTable.Kind) = "Table") &&
  negb (len_list t.(kubernetesTable.ColumnDefinitions) =? 0) &&
  (len_list t.(kubernetesTable.ColumnDefinitions) <=? maxTableColumns).

(** The value without spaces around it and without control characters. *)
Definition clean (value : string) : bool :=
  bool_decide (value = TrimSpace value) && negb (has_rune IsControl value).

Definition validKubernetesMetadataString (value : string) : bool :=
  negb (bool_decide (value = "")) && (len value <=? 253) && clean value.

Definition validTableString (value : string) : bool :=
  (len value <=? maxTableStringBytes) && clean value.

(** The indexes of the columns of a name, from [i] on. *)
Fixpoint columns_named (name : string) (i : Z) (columns : list column) : list Z :=
  match columns with
  | [] => []
  | c :: columns =>
      if bool_decide (c.1 = name) then i :: columns_named name (i + 1) columns
      else columns_named name (i + 1) columns
  end.

Definition configurationTableColumn (columns : list column) (name : string) : result Z :=
  match columns_named name 0 columns with
  | [] => Err (upstream "missing Kubernetes table column")
  | [index] => Ok index
  | _ => Err (upstream "duplicate Kubernetes table column")
  end.

Module partialObjectMetadata.
Record t : Type := mk {
  Name : string;
  Namespace : string;
  CreationTimestamp : time;
  DeletionTimestamp : option time;
}.
End partialObjectMetadata.
Notation partialObjectMetadata := partialObjectMetadata.t.

(** The object of a row has metadata and nothing else, so no data can be in it. *)
Definition metadata_only (raw : RawMessage) (undecoded unsafe : string) : result unit :=
  if bool_decide (raw = "") then Err (upstream undecoded) else
  match Unmarshal (map_ raw_message) raw with
  | None => Err (upstream undecoded)
  | Some members =>
      reject_if (negb (bool_decide (map_Forall
        (λ name _, name ∈ ["apiVersion"; "kind"; "metadata"]) members))) (upstream unsafe)
  end.

Definition metadata_envelope : decoder (string * string * (string * string * time * option time)) :=
  struct (field "apiVersion" string_ ⊗ field "kind" string_ ⊗
    field "metadata" (struct (field "name" string_ ⊗ field "namespace" string_ ⊗
      field "creationTimestamp" time_ ⊗ field "deletionTimestamp" (pointer time_)))).

Definition decodePartialObjectMetadataForScope (raw : RawMessage) (namespaced : bool) :
    result partialObjectMetadata :=
  metadata_only raw "decode Kubernetes table metadata" "unsafe Kubernetes table row object" ;;
  '(apiVersion, kind, (name, namespace, created, deleted)) ←
    expect_ok (upstream "unsupported Kubernetes table row object") (Unmarshal metadata_envelope raw);
  reject_if (negb (bool_decide (apiVersion = "meta.k8s.io/v1")) ||
             negb (bool_decide (kind = "PartialObjectMetadata")))
    (upstream "unsupported Kubernetes table row object") ;;
  reject_if (negb (validKubernetesMetadataString name) || IsZero created ||
             bool_decide (deleted = Some time_zero)) (upstream "invalid Kubernetes table metadata") ;;
  (if namespaced
   then reject_if (negb (is_ok (ValidateNamespace namespace)))
          (upstream "invalid Kubernetes table namespace")
   else reject_if (negb (bool_decide (namespace = "")))
          (upstream "cluster-scoped Kubernetes table row contains a namespace")) ;;
  Ok (partialObjectMetadata.mk name namespace created deleted).

Definition decodePartialObjectMetadata (raw : RawMessage) : result partialObjectMetadata :=
  decodePartialObjectMetadataForScope raw true.

(** The cell of a column; the callers have checked that the row has it. *)
Definition cell (row : kubernetesTableRow) (column : Z) : RawMessage :=
  default "" (row.(kubernetesTableRow.Cells) !! Z.to_nat column).

(** [typeColumn] is -1 for a table without types. *)
Definition decodeConfigurationTableRow (row : kubernetesTableRow) (dataColumn typeColumn : Z) :
    result configurationTableItem :=
  let cells := len_list row.(kubernetesTableRow.Cells) in
  reject_if ((cells =? 0) || (maxTableColumns <? cells) || (cells <=? dataColumn) || (cells <=? typeColumn))
    (upstream "invalid Kubernetes table row") ;;
  metadata ← decodePartialObjectMetadata row.(kubernetesTableRow.Object);
  dataCount ← expect_ok (upstream "invalid Kubernetes table data count")
    (Unmarshal (int_ 64) (cell row dataColumn));
  reject_if (dataCount <? 0) (upstream "invalid Kubernetes table data count") ;;
  type ←
    (if 0 <=? typeColumn then
       type ← expect_ok (upstream "invalid Kubernetes table type") (Unmarshal string_ (cell row typeColumn));
       reject_if (negb (validTableString type)) (upstream "invalid Kubernetes table type") ;;
       Ok (if bool_decide (type = "") then "Opaque" else type)
     else Ok "");
  Ok (mkTableItem metadata.(partialObjectMetadata.Namespace) metadata.(partialObjectMetadata.Name) type
        dataCount metadata.(partialObjectMetadata.CreationTimestamp)).

Definition item_less (a b : configurationTableItem) : bool :=
  if negb (bool_decide (a.(item_Namespace) = b.(item_Namespace)))
  then String.ltb a.(item_Namespace) b.(item_Namespace)
  else String.ltb a.(item_Name) b.(item_Name).

(** The rows of one page, in the namespace that was asked for. *)
Fixpoint table_rows (expectedNamespace : string) (dataColumn typeColumn : Z)
    (rows : list kubernetesTableRow) : result (list configurationTableItem) :=
  match rows with
  | [] => Ok []
  | row :: rows =>
      item ← decodeConfigurationTableRow row dataColumn typeColumn;
      reject_if (negb (bool_decide (expectedNamespace = "")) &&
                 negb (bool_decide (item.(item_Namespace) = expectedNamespace)))
        (upstream "Kubernetes table row exceeded namespace scope") ;;
      rest ← table_rows expectedNamespace dataColumn typeColumn rows;
      Ok (item :: rest)
  end.

Definition table_page (includeType : bool) (expectedNamespace : string) (response : kubernetesTable)
    (items : list configurationTableItem) : result (list configurationTableItem) :=
  reject_if (negb (supported_table response)) (upstream "unsupported Kubernetes table response") ;;
  reject_if (maxListItems - len_list items <? len_list response.(kubernetesTable.Rows))
    (upstream "Kubernetes table exceeded safe item limit") ;;
  dataColumn ← configurationTableColumn response.(kubernetesTable.ColumnDefinitions) "Data";
  typeColumn ← (if includeType
                then configurationTableColumn response.(kubernetesTable.ColumnDefinitions) "Type"
                else Ok (-1));
  page ← table_rows expectedNamespace dataColumn typeColumn response.(kubernetesTable.Rows);
  Ok (items ++ page).

Section tables.
Context (token : string).

Fixpoint table_pages (remaining : nat) (path expectedNamespace : string) (includeType : bool)
    (query : Values) (totalBytes : Z) (items : list configurationTableItem) :
    fetch (result (list configurationTableItem)) :=
  match remaining with
  | O => Done (Err (upstream "Kubernetes table exceeded safe page limit"))
  | S remaining =>
      '(payload, _) ←! getPayload token path (Some query) kubernetesTableAccept maxResponseBytes false;
      (reject_if (maxListBytes - totalBytes <? len payload)
        (upstream "Kubernetes table exceeded safe byte limit")) ;!
      response ←! Done (expect_ok (upstream "decode Kubernetes table")
        (Unmarshal kubernetesTable.decode payload));
      items ←! Done (table_page includeType expectedNamespace response items);
      let continue := response.(kubernetesTable.Continue) in
      if bool_decide (continue = "") then Done (Ok (sort_Slice item_less items))
      else table_pages remaining path expectedNamespace includeType
             (<["continue" := continue]> query) (totalBytes + len payload) items
  end.

Definition listConfigurationTable (path expectedNamespace : string) (includeType : bool) :
    fetch (result (list configurationTableItem)) :=
  table_pages (Z.to_nat maxListPages) path expectedNamespace includeType
    {[ "includeObject" := "Metadata"; "limit" := listPageSize ]} 0 [].

Definition ConfigMaps (namespace : string) : fetch (result (list KubernetesConfigMap)) :=
  (if bool_decide (namespace = "") then Ok tt else ValidateNamespace namespace) ;!
  let path := if bool_decide (namespace = "") then "/api/v1/configmaps"
              else "/api/v1/namespaces/" +:+ namespace +:+ "/configmaps" in
  items ←! listConfigurationTable path namespace false;
  Done (Ok ((λ i, KubernetesConfigMap.mk i.(item_Namespace) i.(item_Name) i.(item_DataCount)
                    i.(item_CreatedAt)) <$> items)).

Definition Secrets (namespace : string) : fetch (result (list KubernetesSecret)) :=
  ValidateNamespace namespace ;!
  items ←! listConfigurationTable ("/api/v1/namespaces/" +:+ namespace +:+ "/secrets") namespace true;
  Done (Ok ((λ i, KubernetesSecret.mk i.(item_Namespace) i.(item_Name) i.(item_Type) i.(item_DataCount)
                    i.(item_CreatedAt)) <$> items)).
End tables.
