(* ===== verification/Decoding.v ===== *)
(** * The types of what the Kubernetes client decodes (src/internal/kubernetes/client.go, batch.go)

    The decoders of a struct keep the types of its fields, whatever the document: the
    counts of a workload are 32-bit integers, its kind and status are those of its
    list. *)

From S2P Require Export Client.

Local Open Scope Z_scope.
Local Open Scope stdpp_scope.
Local Open Scope json_scope.

Import Json.

(** ** Types of decoded values

    [Keeps T d]: what the decoder [d] makes of a value of [T] is in [T] again; [KeepsF]
    the same for the fields of a struct.  The instances follow the structure of a
    decoder, so that the type of what a whole decoder reads is found by resolution. *)
Class Keeps {A} (T : A → Prop) (d : decoder A) : Prop :=
  keeps old text v a : T old → d old text v = Some a → T a.
Class KeepsF {A} (T : A → Prop) (f : fields A) : Prop :=
  keepsF old ms a : T old → f old ms = Some a → T a.

Definition any_value {A} (_ : A) : Prop := True.
Definition int_range (bits n : Z) : Prop := - 2 ^ (bits - 1) ≤ n < 2 ^ (bits - 1).
Definition on_some {A} (T : A → Prop) (o : option A) : Prop := match o with Some a => T a | None => True end.
Definition on_both {A B} (T : A → Prop) (U : B → Prop) (p : A * B) : Prop := T p.1 ∧ U p.2.

(** A type with the zero value, from which every decoder starts. *)
Class HasZero {A} `{Zero A} (T : A → Prop) : Prop := has_zero : T zero.

#[export] Instance zero_any {A} `{Zero A} : HasZero (@any_value A).
Proof. done. Qed.
#[export] Instance zero_int32 : HasZero (int_range 32).
Proof. split; done. Qed.
#[export] Instance zero_some {A} (T : A → Prop) : HasZero (on_some T).
Proof. done. Qed.
#[export] Instance zero_both {A B} `{Zero A, Zero B} (T : A → Prop) (U : B → Prop) :
  HasZero T → HasZero U → HasZero (on_both T U).
Proof. by split. Qed.

Lemma ParseInt_range s bits n : 0 < bits → ParseInt s bits = Some n → int_range bits n.
Proof.
  intros Hb. unfold ParseInt, int_range.
  assert (∀ t, (n0 ← ParseUint t bits; if n0 <? 2 ^ (bits - 1) then Some n0 else None) = Some n →
    - 2 ^ (bits - 1) ≤ n < 2 ^ (bits - 1)) as H.
  { intros t. destruct (ParseUint t bits) as [m|] eqn:E; [|done]. cbn.
    apply ParseUint_Some in E as (_ & _ & _ & ?). destruct (Z.ltb_spec m (2 ^ (bits - 1))); [|done].
    intros [= <-]. lia. }
  destruct s as [|c s]; [apply H|].
  destruct (decide (c = "+"%char)) as [->|]; [apply H|].
  destruct (decide (c = "-"%char)) as [->|].
  - destruct (ParseUint s bits) as [m|] eqn:E; [|done]. cbn.
    apply ParseUint_Some in E as (_ & _ & _ & ?). destruct (Z.leb_spec m (2 ^ (bits - 1))); [|done].
    intros [= <-]. assert (0 < 2 ^ (bits - 1)) by (apply Z.pow_pos_nonneg; lia). lia.
  - destruct c as [[] [] [] [] [] [] [] []]; try apply H; done.
Qed.

#[export] Instance keeps_int32 : Keeps (int_range 32) int32.
Proof. intros old text v a Ho. unfold int32, int_. destruct v; try done; [by intros [= <-]|by apply ParseInt_range]. Qed.

#[export] Instance keeps_any {A} (d : decoder A) : Keeps any_value d | 10.
Proof. done. Qed.

#[export] Instance keeps_struct {A} (T : A → Prop) f : KeepsF T f → Keeps T (struct f).
Proof. intros Hf old text v a Ho. destruct v; try done; [by intros [= <-]|by apply Hf]. Qed.

Lemma field_cons {A} name (d : decoder A) old n text v ms :
  field name d old ((n, (text, v)) :: ms) =
    if names name n then a ← d old text v; field name d a ms else field name d old ms.
Proof. reflexivity. Qed.

#[export] Instance keeps_field {A} (T : A → Prop) name d : Keeps T d → KeepsF T (field name d).
Proof.
  intros Hd old ms. revert old. induction ms as [|[n [text v]] ms IH]; intros old a Ho.
  - by intros [= <-].
  - rewrite field_cons. destruct (names name n); [|by apply IH]. destruct (d old text v) as [b|] eqn:E; [|done].
    apply IH. by eapply Hd.
Qed.

#[export] Instance keeps_both {A B} (T : A → Prop) (U : B → Prop) f g :
  KeepsF T f → KeepsF U g → KeepsF (on_both T U) (f ⊗ g).
Proof.
  intros Hf Hg [x y] ms [x' y'] [Hx Hy]. unfold both. cbn.
  destruct (f x ms) as [a|] eqn:E1; [|done]. cbn. destruct (g y ms) as [b|] eqn:E2; [|done]. cbn.
  intros [= <- <-]. split; [by eapply Hf|by eapply Hg].
Qed.

#[export] Instance keeps_pointer {A} `{Zero A} (T : A → Prop) d :
  Keeps T d → HasZero T → Keeps (on_some T) (pointer d).
Proof.
  intros Hd Hz old text v a Ho. unfold pointer.
  assert (Some <$> d (default zero old) text v = Some a → on_some T a) as HS.
  { destruct (d (default zero old) text v) as [b|] eqn:E; [|done]. cbn. intros [= <-]. cbn.
    eapply Hd; [|done]. by destruct old. }
  destruct v; try exact HS. by intros [= <-].
Qed.

Lemma Unmarshal_keeps {A} `{Zero A} (T : A → Prop) d text a :
  Keeps T d → HasZero T → Unmarshal d text = Some a → T a.
Proof.
  intros Hd Hz. unfold Unmarshal. destruct (parse text) as [[t v]|]; [|done]. cbn. by eapply Hd.
Qed.

(** ** Workloads *)

Lemma to_int32_range n : int_range 32 (to_int32 n).
Proof.
  unfold int_range, to_int32. pose proof (Z.mod_pos_bound (n + 2 ^ 31) (2 ^ 32) eq_refl).
  change (2 ^ (32 - 1)) with (2 ^ 31). lia.
Qed.

(** The statuses of the workloads of a kind; a pod shows the phase it reports. *)
Definition statuses (kind : string) : list string :=
  if bool_decide (kind = "job") then ["Succeeded"; "Failed"; "Suspended"; "Running"; "Retrying"; "Pending"]
  else if bool_decide (kind = "cronjob") then ["Suspended"; "Running"; "Scheduled"; "Pending"]
  else ["Ready"; "Progressing"; "Unavailable"].

Definition well_typed (kind : string) (w : Workload) : Prop :=
  w.(Workload.Kind) = displayWorkloadKind kind ∧
  int_range 32 w.(Workload.Ready) ∧ int_range 32 w.(Workload.Desired) ∧
  (kind ≠ "pod" → w.(Workload.Status) ∈ statuses kind) ∧
  (w.(Workload.Status) = "Ready" → kind ≠ "pod" → w.(Workload.Ready) = w.(Workload.Desired)).

Lemma replicaStatus_cases ready desired :
  replicaStatus ready desired ∈ ["Ready"; "Progressing"; "Unavailable"] ∧
  (replicaStatus ready desired = "Ready" → ready = desired).
Proof.
  unfold replicaStatus. destruct (Z.eqb_spec desired ready); [split; [left|done]|].
  destruct (0 <? ready); split; try done; [right; left|do 2 right; left].
Qed.

Lemma jobStatus_cases suspended active succeeded failed desired conditions :
  jobStatus suspended active succeeded failed desired conditions ∈ statuses "job".
Proof.
  unfold jobStatus. cbv zeta. change (statuses "job") with
    ["Succeeded"; "Failed"; "Suspended"; "Running"; "Retrying"; "Pending"].
  destruct (List.find _ conditions) as [c|] eqn:Hf.
  - apply List.find_some in Hf as [_ [_ Hc]%andb_true_iff]. apply bool_decide_eq_true in Hc.
    case_bool_decide as Ht; [left|]. rewrite !elem_of_cons in *. tauto.
  - repeat match goal with |- context [if ?b then _ else _] => destruct b end; rewrite !elem_of_cons; tauto.
Qed.

Lemma on_some_default (T : Z → Prop) d o : T d → on_some T o → T (default d o).
Proof. by destruct o. Qed.

Lemma one_range : int_range 32 1.
Proof. split; done. Qed.
Lemma decodeJob_typed item w : decodeJob item = Ok w → well_typed "job" w.
Proof.
  unfold decodeJob. cbv zeta. destruct (Unmarshal _ item) as [r|] eqn:E; [|done].
  eapply Unmarshal_keeps in E; [|apply _..].
  destruct r as [[metadata [[completions suspend] containers]] [[[active succeeded] failed] conditions]].
  destruct E as [[_ [[Hc _] _]] [[[_ Hs] _] _]]. cbn in Hc, Hs. cbn.
  intros [= <-]. unfold well_typed. cbn. split_and!; try done.
  - by apply on_some_default; [apply one_range|].
  - intros _. apply jobStatus_cases.
  - intros Hr. exfalso. pose proof (jobStatus_cases suspend active succeeded failed (default 1 completions) conditions) as Hin.
    rewrite Hr in Hin. by vm_compute in Hin; repeat (apply elem_of_cons in Hin as [Hin|Hin]; [done|]); inversion Hin.
Qed.

Lemma decodeCronJob_typed item w : decodeCronJob item = Ok w → well_typed "cronjob" w.
Proof.
  unfold decodeCronJob. cbv zeta. destruct (Unmarshal _ item) as [r|]; [|done].
  destruct r as [[metadata [suspend containers]] [jobs scheduled]]. cbn. intros [= <-].
  unfold well_typed. cbn [Workload.Kind Workload.Ready Workload.Desired Workload.Status].
  assert (∀ s, s ∈ statuses "cronjob" → s ≠ "Ready") as Hn.
  { intros s Hs ->. vm_compute in Hs. repeat (apply elem_of_cons in Hs as [Hs|Hs]; [done|]). inversion Hs. }
  assert ((if suspend : bool then "Suspended" else if 0 <? to_int32 (len_list jobs) then "Running"
    else if negb (IsZero scheduled) then "Scheduled" else "Pending") ∈ statuses "cronjob") as Hin.
  { change (statuses "cronjob") with ["Suspended"; "Running"; "Scheduled"; "Pending"].
    repeat match goal with |- context [if ?b then _ else _] => destruct b end; rewrite !elem_of_cons; tauto. }
  split_and!; [done|apply to_int32_range|apply to_int32_range|done|done].
Qed.

Lemma decodePod_typed item w : decodePod item = Ok w → well_typed "pod" w.
Proof.
  unfold decodePod. cbv zeta. destruct (Unmarshal _ item) as [r|]; [|done].
  destruct r as [[metadata containers] [phase st]]. intros [= <-]. unfold well_typed.
  cbn [Workload.Kind Workload.Ready Workload.Desired Workload.Status].
  split_and!; [done|apply to_int32_range|apply to_int32_range|done|done].
Qed.

(** Whatever a server sends as an item of a list of workloads, what is read of it
    is a workload of the kind that was listed, with counts of 32 bits and, except for
    a pod, which shows the phase it reports, a status of those the kind has; and a
    controller that is shown as ready has as many ready replicas as it wants. *)
Theorem decodeWorkload_typed kind item w :
  kind ∈ workload_kinds → decodeWorkload kind item = Ok w → well_typed kind w.
Proof.
  unfold workload_kinds. rewrite !elem_of_cons, elem_of_nil. intros Hk. unfold decodeWorkload.
  destruct (decide (kind = "pod")) as [->|Hp]; [apply decodePod_typed|].
  destruct (decide (kind = "job")) as [->|Hj]; [apply decodeJob_typed|].
  destruct (decide (kind = "cronjob")) as [->|Hc]; [apply decodeCronJob_typed|].
  rewrite !bool_decide_eq_false_2 by done. cbv zeta.
  destruct (Unmarshal _ item) as [r|] eqn:E; [|done]. eapply Unmarshal_keeps in E; [|apply _..].
  destruct r as [[metadata [replicas containers]] [[[ready available] scheduled] number]].
  destruct E as [[_ [Hr _]] [[[Hready _] Hs] Hn]]. cbn in Hr, Hready, Hs, Hn.
  pose proof (on_some_default _ 1 replicas one_range Hr) as Hd.
  assert (kind = "deployment" ∨ kind = "statefulset" ∨ kind = "daemonset") as Hcase by tauto.
  destruct Hcase as [->|[->| ->]]; cbn; intros [= <-]; unfold well_typed; cbn;
    split_and!; try done; intros; try (by apply replicaStatus_cases).
  all: symmetry; by apply replicaStatus_cases.
Qed.

Lemma decodeWorkload_typed_witness :
  ∃ w, decodeWorkload "deployment" (example_deployment "x") = Ok w ∧ well_typed "deployment" w.
Proof.
  eexists. split; [by vm_compute|].
  apply (decodeWorkload_typed "deployment" (example_deployment "x")); [left|by vm_compute].
Defined.

(** What cannot be read of a pod, a deployment or a namespace is not blamed on the
    server that sent it, unlike what cannot be read of a job or a node. *)
Lemma undecodable_items :
  match decodeWorkload "deployment" "[]", decodeWorkload "pod" "[]", decodeNamespace "[]",
        decodeWorkload "job" "[]", decodeNode "[]" with
  | Err e1, Err e2, Err e3, Err e4, Err e5 =>
      (λ e, Is e ErrUpstream) <$> [e1; e2; e3; e4; e5] = [false; false; false; true; true]
  | _, _, _, _, _ => False
  end.
Proof. by vm_compute. Qed.
