(* ===== verification/ClientSafety.v ===== *)
(** * What the Kubernetes client does to a cluster (src/internal/kubernetes/client.go, events.go)

    Which requests its methods make, how many, and what they return, for every
    server: the readers only read, on paths that a name cannot leave; a list ends
    within its budget; an image is changed only after it was seen unchanged. *)

From S2P Require Export Tables.

Local Open Scope Z_scope.
Local Open Scope stdpp_scope.
Local Open Scope fetch_scope.
Local Open Scope json_scope.

Import Json.

(** ** Paths *)

(** A path whose segments a client transmits unchanged and that leaves no directory. *)
Definition plain_path (path : string) : Prop :=
  ∃ segments, segments ≠ [] ∧ Forall safe_segment segments ∧ path = "/" +:+ GoText.Join segments "/".

Lemma plain_segment s : safe_segment s → plain_path ("/" +:+ s).
Proof. intros Hs. exists [s]. split_and!; [done| |done]. by constructor. Qed.

Lemma Join_app ps qs sep :
  ps ≠ [] → qs ≠ [] → GoText.Join (ps ++ qs) sep = GoText.Join ps sep +:+ sep +:+ GoText.Join qs sep.
Proof.
  intros Hps Hqs. induction ps as [|p ps IH]; [done|]. destruct ps as [|p' ps].
  - by destruct qs.
  - change ((p :: p' :: ps) ++ qs) with (p :: p' :: (ps ++ qs)). rewrite !Join_cons2.
    change (p' :: ps ++ qs) with ((p' :: ps) ++ qs). rewrite IH by done. by rewrite !string_app_assoc.
Qed.

Lemma plain_app p q : plain_path p → plain_path q → plain_path (p +:+ q).
Proof.
  intros (ps & Hps & Sps & ->) (qs & Hqs & Sqs & ->). exists (ps ++ qs). split_and!.
  - by destruct ps.
  - by apply Forall_app.
  - by rewrite Join_app, !string_app_assoc.
Qed.

Lemma plain_under p s : plain_path p → safe_segment s → plain_path (p +:+ "/" +:+ s).
Proof. intros Hp Hs. apply plain_app; [done|by apply plain_segment]. Qed.

Definition safe_segmentb (s : string) : bool :=
  negb (bool_decide (s = "")) && negb (bool_decide (s = ".")) && negb (bool_decide (s = "..")) &&
  all_bytes segment_byte s.

(** A path that is written out is plain when its segments are. *)
Definition plainb (path : string) : bool :=
  match GoText.Split path "/" with
  | "" :: s :: rest => forallb safe_segmentb (s :: rest)
  | _ => false
  end.

Lemma safe_segmentb_spec s : safe_segmentb s = true → safe_segment s.
Proof.
  unfold safe_segmentb. rewrite !andb_true_iff, !negb_true_iff, !bool_decide_eq_false. unfold safe_segment. tauto.
Qed.

Lemma plainb_spec path : plainb path = true → plain_path path.
Proof.
  unfold plainb. intros H. pose proof (Join_Split path "/") as J.
  destruct (GoText.Split path "/") as [|s [|s' l]]; [done|by destruct s|]. destruct s; [|done].
  exists (s' :: l). split_and!; [done| |].
  - apply Is_true_true in H. apply forallb_True in H.
    eapply Forall_impl; [exact H|]. intros s Hs. apply safe_segmentb_spec. by apply Is_true_true.
  - rewrite <-J. by rewrite Join_cons2.
Qed.

Lemma plain_named p s : plainb p = true → safe_segment s → plain_path ((p +:+ "/") +:+ s).
Proof. intros Hp%plainb_spec Hs. rewrite string_app_assoc. by apply plain_under. Qed.

(** ** Readers *)

(** A request that asks for a resource and sends nothing. *)
Definition reading (r : Request) : Prop :=
  r.(Request.Method) = "GET" ∧ r.(Request.Body) = "" ∧ plain_path r.(Request.Path).

Definition review_path : string := "/apis/authorization.k8s.io/v1/selfsubjectaccessreviews".

(** A review of the panel's own permissions, which a cluster keeps nothing of. *)
Definition reviewing (r : Request) : Prop :=
  r.(Request.Method) = "POST" ∧ r.(Request.Path) = review_path.

Definition harmless (r : Request) : Prop := reading r ∨ reviewing r.

Section readers.
Context `{UnicodeTables} (token : string).

Lemma reading_get path query accept :
  plain_path path → reading (Request.mk "GET" path query (headers token accept "") "").
Proof. done. Qed.

Lemma get_within {A} `{Zero A} n path query (d : decoder A) :
  plain_path path → within reading (S n) (getJSON token path query d) (λ l, if_ok (λ _, l = n)).
Proof.
  intros Hp. split; [by apply reading_get|]. intros [err|err|status text broken tls]; [done..|]. cbn.
  destruct (status_error status); [|done]. cbn.
  destruct (limited_payload _ _ _ _) as [[payload b]|]; [|done]. cbn.
  unfold expect_ok. by destruct (Unmarshal d payload).
Qed.

Lemma payload_within n path query accept maxBytes truncate :
  0 ≤ maxBytes → plain_path path →
  within reading (S n) (getPayload token path query accept maxBytes truncate)
    (λ l, if_ok (λ x, l = n ∧ len x.1 ≤ maxBytes)).
Proof.
  intros Hm Hp. pose proof (getPayload_safe reading token path query accept maxBytes truncate Hm
    (reading_get _ query accept Hp)) as Hs.
  split; [by apply reading_get|]. intros o. destruct Hs as [_ Hs]. specialize (Hs o).
  destruct o as [err|err|status text broken tls]; [done..|]. revert Hs. cbn.
  destruct (status_error status); [|done]. cbn. by destruct (limited_payload _ _ _ _).
Qed.

(** ** Lists *)

(** What is left of a budget. *)
Definition within_budget (b : listBudget) : Prop :=
  0 ≤ b.(items) ≤ maxListItems ∧ 0 ≤ b.(pages) ≤ maxListPages ∧ 0 ≤ b.(bytes) ≤ maxListBytes.

Definition pages_left (b : listBudget) : nat := Z.to_nat (maxListPages - b.(pages)).

Lemma page_bytes_bounds room n l m : page_bytes room n l = Ok m → n ≤ m ∧ (n ≤ room → m ≤ room).
Proof.
  revert n. induction l as [|item l IH]; intros n; cbn [page_bytes]; [intros [= <-]; lia|].
  destruct (Z.ltb_spec (room - n) (len item)); [done|]. intros [? ?]%IH.
  pose proof (len_nonneg item). lia.
Qed.

Lemma append_budget current page b current' b' :
  within_budget b → appendListItemsWithBudget current page b = Ok (current', b') →
  current' = current ++ page ∧ b'.(items) = b.(items) + len_list page ∧ b'.(pages) = b.(pages) ∧
  within_budget b'.
Proof.
  intros (Hi & Hp & Hb). unfold appendListItemsWithBudget, within_budget.
  destruct (Z.ltb_spec (maxListItems - b.(items)) (len_list page)); [done|]. cbn.
  destruct (page_bytes _ _ _) as [m|] eqn:Hm; [|done]. cbn. intros [= <- <-]. cbn.
  apply page_bytes_bounds in Hm as [? Hm]. split_and!; try done; try (unfold len_list in *; lia).
Qed.

Lemma list_pages_within n path query b current :
  plain_path path → within_budget b → n = pages_left b →
  within reading n (list_pages token n path query b current) (λ l, if_ok (λ x,
    within_budget x.2 ∧ l = pages_left x.2 ∧ x.2.(items) - len_list x.1 = b.(items) - len_list current)).
Proof.
  intros Hp. revert query b current. induction n as [|n IH]; intros query b current Hb Hn; [done|].
  cbn [list_pages]. set (b1 := mkBudget _ _ _).
  assert (within_budget b1 ∧ n = pages_left b1) as [Hb1 Hn1].
  { unfold within_budget, pages_left in *. cbn. lia. }
  eapply within_or_return; [by apply get_within|]. intros l [continue page] ->. cbn [fst snd].
  eapply (within_or_return _ _ _ _ (λ l x, appendListItemsWithBudget current page b1 = Ok x ∧ l = n)).
  { cbn. by destruct (appendListItemsWithBudget current page b1). }
  intros l [current' b2] [Ha ->]. apply append_budget in Ha as (-> & Hi & Hpg & Hb2); [|done].
  case_bool_decide.
  - cbn. split_and!; [done|unfold pages_left in *; by rewrite Hpg|].
    rewrite Hi. cbn. unfold len_list. rewrite length_app. lia.
  - eapply within_impl; [apply IH; [done|unfold pages_left in *; by rewrite Hpg]|].
    intros l [[xs b3]|e]; [|done]. cbn. intros (Hb3 & -> & Hx). split_and!; [done..|].
    rewrite Hx, Hi. cbn. unfold len_list. rewrite length_app. lia.
Qed.

Lemma listRawWithBudget_within path query b :
  plain_path path → within_budget b →
  within reading (pages_left b) (listRawWithBudget token path query b) (λ l, if_ok (λ x,
    within_budget x.2 ∧ l = pages_left x.2 ∧ x.2.(items) = b.(items) + len_list x.1)).
Proof.
  intros Hp Hb. eapply within_impl; [by apply list_pages_within|].
  intros l [[xs b']|]; [|done]. cbn. intros (? & ? & ?). split_and!; [done..|].
  unfold len_list in *. cbn in *. lia.
Qed.

Lemma newListBudget_within : within_budget newListBudget.
Proof. unfold within_budget, newListBudget, maxListItems, maxListPages, maxListBytes. cbn. lia. Qed.

(** One list: at most [maxListPages] requests and [maxListItems] items. *)
Lemma listRaw_safe path query :
  plain_path path → safe reading 20 (listRaw token path query) (if_ok (λ xs, len_list xs ≤ maxListItems)).
Proof.
  intros Hp. eapply within_or_return; [apply (listRawWithBudget_within path query newListBudget Hp)|].
  { apply newListBudget_within. }
  intros l [xs b] (Hb & _ & Hi). cbn in *. unfold within_budget, newListBudget in *. cbn in *. lia.
Qed.

Lemma decode_all_length {A} (f : RawMessage → result A) l xs : decode_all f l = Ok xs → length xs = length l.
Proof.
  revert xs. induction l as [|a l IH]; intros xs; cbn; [by intros [= <-]|].
  destruct (f a); [|done]. cbn. destruct (decode_all f l) as [ys|]; [|done]. cbn.
  intros [= <-]. cbn. by rewrite (IH ys).
Qed.

(** ** The readers *)

Lemma safe_Result {A} P n (r : result A) : safe P n (Done r) (if_ok (λ _, True)).
Proof. by destruct r. Qed.

Lemma safe_more {A} P n n' (m : fetch (result A)) Q Q' :
  safe P n m (if_ok Q) → (n ≤ n')%nat → (∀ a, Q a → Q' a) → safe P n' m (if_ok Q').
Proof. intros Hm Hn HQ. eapply safe_weaken; [done..|]. intros [a|]; [apply HQ|done]. Qed.

Lemma sorted_list_safe {A} path query (decode : RawMessage → result A) (less : A → A → bool) :
  plain_path path →
  safe reading 20 (
    items ←! listRaw token path query; decoded ←! Done (decode_all decode items);
    Done (Ok (sort_Slice less decoded))) (if_ok (λ xs, len_list xs ≤ maxListItems)).
Proof.
  intros Hp. apply (safe_or_return reading 20 0 _ _ _ _ (listRaw_safe path query Hp)).
  intros xs Hxs. cbn. destruct (decode_all decode xs) as [ys|] eqn:Hys; [|done]. cbn.
  apply decode_all_length in Hys. unfold len_list in *. by rewrite sort_Slice_length, Hys.
Qed.

Lemma Namespaces_safe : safe reading 20 (Namespaces token) (if_ok (λ xs, len_list xs ≤ maxListItems)).
Proof. unfold Namespaces. apply sorted_list_safe. by apply plainb_spec. Qed.

Lemma Nodes_safe : safe reading 20 (Nodes token) (if_ok (λ xs, len_list xs ≤ maxListItems)).
Proof. unfold Nodes. apply sorted_list_safe. by apply plainb_spec. Qed.

Lemma probeResources_safe : safe reading 41 (probeResources token) (if_ok (λ _, True)).
Proof.
  unfold probeResources. apply (safe_or_return reading 1 40 _ _ (λ _, True)); [apply getJSON_safe; by apply reading_get, plainb_spec|].
  intros version _. apply (safe_or_return reading 20 20 _ _ _ _ Namespaces_safe).
  intros namespaces _. by apply (safe_or_return reading 20 0 _ _ _ _ Nodes_safe).
Qed.

Lemma Probe_safe : safe reading 41 (Probe token) (if_ok (λ _, True)).
Proof.
  unfold Probe. apply (safe_or_return reading 41 0 _ _ _ _ probeResources_safe). by intros [probe nodes].
Qed.

Lemma NodeDetail_safe name : safe reading 1 (NodeDetail_ token name) (if_ok (λ _, True)).
Proof.
  unfold NodeDetail_. apply safe_check. intros [] Hn. apply guard_Ok, negb_false_iff, validDNSSubdomain_safe in Hn.
  apply (safe_or_return reading 1 0 _ _ (λ _, True)).
  { by apply getJSON_safe, reading_get, (plain_named "/api/v1/nodes"). }
  intros raw _. by destruct (decodeNode raw) as [[node resource]|].
Qed.

Lemma events_safe path query limit :
  plain_path path →
  safe reading 20 (items ←! listRaw token path query; Done (decodeEvents items limit)) (if_ok (λ _, True)).
Proof.
  intros Hp. apply (safe_or_return reading 20 0 _ _ _ _ (listRaw_safe path query Hp)).
  intros xs _. apply safe_Result.
Qed.

Lemma NodeEvents_safe name limit : safe reading 20 (NodeEvents token name limit) (if_ok (λ _, True)).
Proof. unfold NodeEvents. do 2 (apply safe_check; intros _ _). by apply events_safe, plainb_spec. Qed.

Lemma workloadPaths_plain namespace kind :
  namespace = "" ∨ safe_segment namespace → plain_path (workloadPaths namespace kind).
Proof.
  intros Hns.
  assert (∀ group resource, plainb group = true → safe_segmentb resource = true →
    plain_path (group +:+ (if bool_decide (namespace = "") then "/" else "/namespaces/" +:+ namespace +:+ "/") +:+
      resource)) as Hpath.
  { intros group resource Hg%plainb_spec Hr%safe_segmentb_spec. case_bool_decide as Hn.
    - by apply plain_under.
    - destruct Hns as [Hns|Hns]; [done|]. rewrite !string_app_assoc. apply plain_app; [done|].
      apply (plain_app "/namespaces"); [by apply plainb_spec|].
      apply (plain_under ("/" +:+ namespace)); [by apply plain_segment|done]. }
  unfold workloadPaths. cbv zeta. repeat case_bool_decide; by apply Hpath.
Qed.

Lemma workloadResourcePath_plain reference :
  ValidateWorkloadReference reference = Ok tt → plain_path (workloadResourcePath reference).
Proof.
  intros (_ & Hns & Hn)%ValidateWorkloadReference_Ok. apply plain_under.
  - apply workloadPaths_plain. right. by apply validDNSLabel_safe.
  - by apply validDNSSubdomain_safe.
Qed.

Lemma list_kinds_within kinds namespace b workloads :
  namespace = "" ∨ safe_segment namespace → within_budget b →
  len_list workloads ≤ b.(items) →
  within reading (pages_left b) (list_kinds token kinds namespace b workloads)
    (λ _, if_ok (λ xs, len_list xs ≤ maxListItems)).
Proof.
  intros Hns. revert b workloads. induction kinds as [|kind kinds IH]; intros b workloads Hb Hw; cbn [list_kinds].
  { cbn. unfold within_budget in Hb. lia. }
  eapply within_or_return; [apply listRawWithBudget_within; [by apply workloadPaths_plain|done]|].
  intros l [xs b'] (Hb' & -> & Hi). cbn [snd fst] in *.
  eapply (within_or_return _ _ _ _ (λ l ys, length ys = length xs ∧ l = pages_left b')).
  { cbn. destruct (decode_all _ xs) as [ys|] eqn:Hys; [|done]. by apply decode_all_length in Hys. }
  intros l ys [Hys ->]. apply IH; [done|]. unfold len_list in *. rewrite length_app. lia.
Qed.

Lemma ValidateWorkloadList_Ok namespace kind :
  ValidateWorkloadList namespace kind = Ok tt → namespace = "" ∨ safe_segment namespace.
Proof.
  unfold ValidateWorkloadList. intros [Hns _]%seq_Ok. revert Hns. case_bool_decide; [by left|]. intros Hns. right.
  by apply guard_Ok, negb_false_iff, validDNSLabel_safe in Hns.
Qed.

Lemma Workloads_safe namespace kind :
  safe reading 20 (Workloads token namespace kind) (if_ok (λ xs, len_list xs ≤ maxListItems)).
Proof.
  unfold Workloads. apply safe_check. intros [] Hns%ValidateWorkloadList_Ok.
  apply (safe_or_return reading 20 0 _ _ (λ xs, len_list xs ≤ maxListItems)).
  - apply (list_kinds_within _ namespace newListBudget []); [done|apply newListBudget_within|done].
  - intros xs Hxs. cbn. unfold len_list in *. by rewrite sort_Slice_length.
Qed.

Lemma WorkloadDetail_safe `{YAML} reference :
  safe reading 1 (WorkloadDetail_ token reference) (if_ok (λ _, True)).
Proof.
  unfold WorkloadDetail_. apply safe_check. intros [] Hr%workloadResourcePath_plain.
  apply (safe_or_return reading 1 0 _ _ (λ _, True)); [by apply getJSON_safe, reading_get|].
  intros raw _. do 3 (eapply (safe_or_return reading 0 0 _ _ (λ _, True)); [apply safe_Result|intros ? _]).
  apply safe_Result.
Qed.

Lemma namespaced_path namespace resource :
  validDNSLabel namespace = true → safe_segment resource →
  plain_path ("/api/v1/namespaces/" +:+ namespace +:+ "/" +:+ resource).
Proof.
  intros Hns%validDNSLabel_safe Hr.
  apply (plain_app "/api/v1/namespaces" (("/" +:+ namespace) +:+ "/" +:+ resource)); [by apply plainb_spec|].
  apply plain_under; [by apply plain_segment|done].
Qed.

Lemma WorkloadEvents_safe reference limit :
  safe reading 20 (WorkloadEvents token reference limit) (if_ok (λ _, True)).
Proof.
  unfold WorkloadEvents. apply safe_check. intros [] (_ & Hns & _)%ValidateWorkloadReference_Ok. apply safe_check. intros [] _.
  eapply (safe_or_return reading 20 0).
  { apply listRaw_safe. change "/events" with ("/" +:+ "events"). apply namespaced_path; [done|].
    by apply safe_segmentb_spec. }
  intros xs _. eapply (safe_or_return reading 0 0 _ _ (λ _, True)); [apply safe_Result|intros ? _].
  by apply safe_check.
Qed.

Lemma Summary_safe : safe reading 61 (Summary token) (if_ok (λ _, True)).
Proof.
  unfold Summary. apply (safe_or_return reading 41 20 _ _ _ _ probeResources_safe). intros [probe nodes] _.
  by apply (safe_or_return reading 20 0 _ _ _ _ (Workloads_safe "" "")).
Qed.

Lemma PodLogs_safe input : safe reading 1 (PodLogs_ token input) (if_ok (λ _, True)).
Proof.
  unfold PodLogs_. apply safe_check. intros [] (Hr & _)%seq_Ok.
  apply ValidateWorkloadReference_Ok in Hr as (_ & Hns & Hn%validDNSSubdomain_safe). cbn in Hns, Hn.
  apply (safe_or_return reading 1 0 _ _ (λ x, len x.1 ≤ maxLogBytes)); [|by intros []].
  apply getPayload_safe; [done|]. apply reading_get.
  replace ("/api/v1/namespaces/" +:+ _) with
    (("/api/v1/namespaces/" +:+ input.(PodLogRequest.Namespace) +:+ "/" +:+ "pods") +:+
     (("/" +:+ input.(PodLogRequest.Pod)) +:+ "/" +:+ "log")) by (by rewrite !string_app_assoc).
  apply plain_app.
  - apply namespaced_path; [done|]. by apply safe_segmentb_spec.
  - apply plain_under; [by apply plain_segment|]. by apply safe_segmentb_spec.
Qed.

(** ** Events *)

Lemma event_pages_safe n path query totalBytes items :
  plain_path path →
  safe reading n (event_pages token n path query totalBytes items) (if_ok (λ xs, len_list xs ≤ maxEventListItems)).
Proof.
  intros Hp. revert query totalBytes items. induction n as [|n IH]; intros query totalBytes items; [done|].
  cbn [event_pages]. eapply (safe_or_return reading 1 n); [by apply getPayload_safe; [|apply reading_get]|].
  intros [payload b] _. apply safe_check. intros _ _.
  eapply (safe_or_return reading 0 n _ _ (λ _, True)); [apply safe_Result|].
  intros [[[apiVersion kind] continue] page] _. apply safe_check. intros _ _.
  apply safe_check. intros [] Hn%reject_if_Ok%Z.ltb_ge. case_bool_decide.
  - cbn. unfold len_list in *. rewrite length_app. lia.
  - apply safe_check. intros _ _. apply IH.
Qed.

Lemma listEventRaw_safe path query :
  plain_path path →
  safe reading maxEventListPages (listEventRaw token path query) (if_ok (λ xs, len_list xs ≤ maxEventListItems)).
Proof. apply event_pages_safe. Qed.

(** ** Tables *)

Lemma table_pages_safe n path namespace includeType query totalBytes items :
  plain_path path →
  safe reading n (table_pages token n path namespace includeType query totalBytes items) (if_ok (λ _, True)).
Proof.
  intros Hp. revert query totalBytes items. induction n as [|n IH]; intros query totalBytes items; [done|].
  cbn [table_pages]. eapply (safe_or_return reading 1 n); [by apply getPayload_safe; [|apply reading_get]|].
  intros [payload b] _. apply safe_check. intros _ _.
  eapply (safe_or_return reading 0 n _ _ (λ _, True)); [apply safe_Result|]. intros response _.
  eapply (safe_or_return reading 0 n _ _ (λ _, True)); [apply safe_Result|]. intros items' _.
  case_bool_decide; [done|apply IH].
Qed.

Lemma tables_safe path namespace includeType :
  plain_path path →
  safe reading 20 (listConfigurationTable token path namespace includeType) (if_ok (λ _, True)).
Proof. apply table_pages_safe. Qed.

Lemma ConfigMaps_safe namespace : safe reading 20 (ConfigMaps token namespace) (if_ok (λ _, True)).
Proof.
  unfold ConfigMaps. apply safe_check. intros [] Hns.
  apply (safe_or_return reading 20 0 _ _ (λ _, True)); [|done]. apply tables_safe.
  revert Hns. case_bool_decide; intros Hns; [by apply plainb_spec|].
  change "/configmaps" with ("/" +:+ "configmaps").
  apply guard_Ok, negb_false_iff in Hns. apply namespaced_path; [done|by apply safe_segmentb_spec].
Qed.

Lemma Secrets_safe namespace : safe reading 20 (Secrets token namespace) (if_ok (λ _, True)).
Proof.
  unfold Secrets. apply safe_check. intros [] Hns.
  apply (safe_or_return reading 20 0 _ _ (λ _, True)); [|done]. apply tables_safe.
  change "/secrets" with ("/" +:+ "secrets").
  apply guard_Ok, negb_false_iff in Hns. apply namespaced_path; [done|by apply safe_segmentb_spec].
Qed.

(** ** Capabilities *)

Lemma each_safe {A B} P (f : A → fetch (result B)) l :
  (∀ a, safe P 1 (f a) (if_ok (λ _, True))) → safe P (length l) (each f l) (if_ok (λ _, True)).
Proof.
  intros Hf. induction l as [|a l IH]; [done|]. cbn [each length].
  eapply (safe_or_return P 1 (length l)); [apply Hf|]. intros b _.
  rewrite <-(Nat.add_0_r (length l)). by eapply (safe_or_return P (length l) 0).
Qed.

Lemma Capabilities_safe namespace : safe reviewing 10 (Capabilities token namespace) (if_ok (λ _, True)).
Proof.
  unfold Capabilities. apply safe_check. intros _ _. apply (each_safe reviewing _ capabilityReviewSpecs).
  intros review. unfold capability. cbv zeta. eapply (safe_or_return reviewing 1 0).
  { by apply requestPayload_safe. }
  intros [payload b] _. apply safe_Result.
Qed.
End readers.

(** ** Orders *)

(** Comparing by one key and, where it is equal, by another. *)
Lemma less_cotrans_b {A} (l : A → A → bool) x y z :
  StrictWeak l → implb (l x z) (l x y || l y z) = true.
Proof.
  intros Hl. pose proof (less_cotrans l x y z). destruct (l x z); [|done].
  cbn. apply orb_true_iff. auto.
Qed.

Lemma less_asym_b {A} (l : A → A → bool) x y : StrictWeak l → negb (l x y && l y x) = true.
Proof. intros Hl. pose proof (less_asym l x y). destruct (l x y); [|done]. cbn. by rewrite H. Qed.

Lemma strict_weak_lex {A} (same l1 l2 : A → A → bool) :
  (∀ x y, same x y = true ↔ l1 x y = false ∧ l1 y x = false) →
  StrictWeak l1 → StrictWeak l2 → StrictWeak (λ x y, if negb (same x y) then l1 x y else l2 x y).
Proof.
  intros Hs H1 H2.
  assert (∀ x y, same x y = negb (l1 x y) && negb (l1 y x)) as E.
  { intros x y. apply Bool.eq_iff_eq_true. by rewrite Hs, andb_true_iff, !negb_true_iff. }
  split.
  - intros x y. rewrite !E. pose proof (less_asym l1 x y). pose proof (less_asym l2 x y).
    destruct (l1 x y), (l1 y x); naive_solver.
  - intros x y z. rewrite !E. pose proof (less_cotrans_b l1) as C.
    pose proof (less_cotrans_b l2 x y z H2) as L.
    pose proof (C x y z H1). pose proof (C x z y H1). pose proof (C y x z H1). pose proof (C y z x H1).
    pose proof (C z x y H1). pose proof (C z y x H1). clear C. rewrite <-orb_true_iff.
    pose proof (less_asym_b l1 x y H1). pose proof (less_asym_b l1 x z H1). pose proof (less_asym_b l1 y z H1).
    destruct (l1 x y), (l1 y x), (l1 x z), (l1 z x), (l1 y z), (l1 z y); cbn in *; try done;
      rewrite ?orb_true_r; by revert L; destruct (l2 x z).
Qed.

Lemma strict_weak_before {A} (key : A → time) : StrictWeak (λ x y, After (key x) (key y)).
Proof. split; intros *; unfold After; rewrite ?Z.ltb_lt, ?Z.ltb_ge; lia. Qed.

Lemma same_string {A} (key : A → string) x y :
  bool_decide (key x = key y) = true ↔ String.ltb (key x) (key y) = false ∧ String.ltb (key y) (key x) = false.
Proof.
  rewrite bool_decide_eq_true. split; [intros ->; by rewrite String_ltb_irrefl|].
  intros [? ?]. by apply String_ltb_trichotomy.
Qed.

#[export] Instance event_less_weak : StrictWeak event_less.
Proof.
  apply (strict_weak_lex (λ e f, TimeEqual (event_time e) (event_time f))).
  - intros x y. unfold TimeEqual, After. rewrite Z.eqb_eq, !Z.ltb_ge. lia.
  - apply strict_weak_before.
  - apply (strict_weak_lex (λ e f, bool_decide (e.(KubernetesEvent.Namespace) = f.(KubernetesEvent.Namespace))));
      [apply same_string|apply strict_weak_string..].
Qed.

#[export] Instance workload_less_weak : StrictWeak workload_less.
Proof.
  apply (strict_weak_lex (λ a b, bool_decide (a.(Workload.Namespace) = b.(Workload.Namespace))));
    [apply same_string|apply strict_weak_string|].
  apply (strict_weak_lex (λ a b, bool_decide (a.(Workload.Kind) = b.(Workload.Kind))));
    [apply same_string|apply strict_weak_string..].
Qed.

Lemma StronglySorted_take {A} (R : relation A) n l : StronglySorted R l → StronglySorted R (take n l).
Proof.
  intros Hl. revert n. induction Hl as [|a l Hl IH Ha]; intros [|n]; cbn; [constructor..|].
  constructor; [apply IH|by apply Forall_take].
Qed.

(** The events of a list, the latest first. *)
Lemma decodeEvents_Ok items limit events :
  decodeEvents items limit = Ok events → StronglySorted (not_after event_less) events.
Proof.
  unfold decodeEvents. destruct (decode_all _ _) as [es|]; [|done]. cbn. intros [= <-].
  pose proof (sort_SliceStable_Sorted event_less es). destruct (limit <? _); [by apply StronglySorted_take|done].
Qed.

Lemma check_all_Forall {A} (f : A → result unit) l : check_all f l = Ok tt ↔ Forall (λ a, f a = Ok tt) l.
Proof.
  induction l as [|a l IH]; cbn [check_all]; [by split; constructor|].
  rewrite Forall_cons, <-IH. apply seq_Ok.
Qed.

Lemma event_in_scope_Ok namespace eventType e :
  event_in_scope namespace eventType e = Ok tt →
  e.(KubernetesEvent.CreatedAt) ≠ time_zero ∧ safe_segment e.(KubernetesEvent.Namespace) ∧
  (namespace ≠ "" → e.(KubernetesEvent.Namespace) = namespace) ∧
  (eventType ≠ "" → e.(KubernetesEvent.Type_) = eventType).
Proof.
  unfold event_in_scope. intros [Hm [Hn Ht]%seq_Ok]%seq_Ok. apply guard_Ok in Hm, Hn, Ht.
  apply orb_false_iff in Hm as [[_ Hv]%orb_false_iff Hz]. apply negb_false_iff in Hv. split_and!.
  - intros Hc. rewrite Hc in Hz. by vm_compute in Hz.
  - apply is_ok_spec in Hv as [[] Hv]. by apply guard_Ok, negb_false_iff, validDNSLabel_safe in Hv.
  - intros Hne. apply andb_false_iff in Hn as [Hn|Hn]; apply negb_false_iff, bool_decide_eq_true in Hn; done.
  - intros Hne. apply andb_false_iff in Ht as [Ht|Ht]; apply negb_false_iff, bool_decide_eq_true in Ht; done.
Qed.

Lemma events_path namespace :
  (if bool_decide (namespace = "") then Ok tt else ValidateNamespace namespace) = Ok tt →
  plain_path (if bool_decide (namespace = "") then "/api/v1/events"
              else "/api/v1/namespaces/" +:+ namespace +:+ "/events").
Proof.
  case_bool_decide; intros Hns; [by apply plainb_spec|]. apply guard_Ok, negb_false_iff in Hns.
  apply (namespaced_path namespace "events"); [done|by apply safe_segmentb_spec].
Qed.

Lemma Events_safe `{UnicodeTables} token namespace eventType limit :
  safe reading 8 (Events token namespace eventType limit) (if_ok (λ events,
    len_list events ≤ limit ∧ 1 ≤ limit ≤ 500 ∧
    StronglySorted (not_after event_less) events ∧
    Forall (λ e, e.(KubernetesEvent.CreatedAt) ≠ time_zero ∧ safe_segment e.(KubernetesEvent.Namespace) ∧
                 (namespace ≠ "" → e.(KubernetesEvent.Namespace) = namespace) ∧
                 (eventType ≠ "" → e.(KubernetesEvent.Type_) = eventType)) events)).
Proof.
  unfold Events. apply safe_check. intros [] [Hns [_ Hlimit]%seq_Ok]%seq_Ok.
  apply guard_Ok, orb_false_iff in Hlimit as [Hl1 Hl2]. rewrite Z.ltb_ge in Hl1, Hl2.
  unfold MaxClusterEventLimit in Hl2. cbv zeta. eapply (safe_or_return reading 8 0).
  { apply listEventRaw_safe. by apply events_path. }
  intros items _. eapply (safe_or_return reading 0 0 _ _ (λ events, StronglySorted (not_after event_less) events)).
  { cbn. destruct (decodeEvents _ _) as [events|] eqn:He; [|done]. by apply decodeEvents_Ok in He. }
  intros events Hs. apply safe_check. intros [] Hscope%check_all_Forall. cbn.
  assert (Forall (λ e, e.(KubernetesEvent.CreatedAt) ≠ time_zero ∧ safe_segment e.(KubernetesEvent.Namespace) ∧
    (namespace ≠ "" → e.(KubernetesEvent.Namespace) = namespace) ∧
    (eventType ≠ "" → e.(KubernetesEvent.Type_) = eventType)) events) as Hall.
  { eapply Forall_impl; [exact Hscope|]. apply event_in_scope_Ok. }
  destruct (Z.ltb_spec limit (len_list events)) as [Hlen|Hlen].
  - split_and!; [|lia..|by apply StronglySorted_take|by apply Forall_take].
    unfold len_list in *. rewrite length_take. lia.
  - split_and!; [lia..|done|done].
Qed.

(** The events of a cluster are at most as many as were asked for, the latest
    first, all of the namespace and the type that were asked for, and they are read
    with at most eight requests, which only read, whatever the server answers. *)
Theorem Events_correct `{UnicodeTables} token namespace eventType limit :
  safe reading 8 (Events token namespace eventType limit) (if_ok (λ events,
    len_list events ≤ limit ∧ 1 ≤ limit ≤ 500 ∧
    StronglySorted (not_after event_less) events ∧
    Forall (λ e, e.(KubernetesEvent.CreatedAt) ≠ time_zero ∧ safe_segment e.(KubernetesEvent.Namespace) ∧
                 (namespace ≠ "" → e.(KubernetesEvent.Namespace) = namespace) ∧
                 (eventType ≠ "" → e.(KubernetesEvent.Type_) = eventType)) events)).
Proof. apply Events_safe. Qed.

(** ** The text of an event *)

Definition blank (r : Z) : bool := IsSpace r || IsControl r.

Definition encode_runes (rs : list Z) : string := foldr (λ r s, encode_rune r +:+ s) "" rs.

(** The words of a text: its runs of characters that are neither spaces nor controls;
    [word] is the run that is open. *)
Fixpoint words_from (rs word : list Z) : list (list Z) :=
  match rs with
  | [] => match word with [] => [] | _ => [word] end
  | r :: rs =>
      if blank r then match word with [] => words_from rs [] | _ => word :: words_from rs [] end
      else words_from rs (word ++ [r])
  end.

(** The words of a text with one space between them. *)
Definition collapsed (value : string) : string :=
  GoText.Join (encode_runes <$> words_from (runes value) []) " ".

(** What is still to be written, without the limit. *)
Fixpoint rest_of (rs : list Z) (written space : bool) : string :=
  match rs with
  | [] => ""
  | r :: rs =>
      if blank r then rest_of rs written written
      else (if space then " " else "") +:+ encode_rune r +:+ rest_of rs true false
  end.

Lemma encode_rune_len r : 1 ≤ len (encode_rune r) ≤ 4.
Proof.
  unfold encode_rune. cbv zeta. repeat match goal with |- context [if ?b then _ else _] => destruct b end; done.
Qed.

Lemma string_app_assoc_rev s t u : s +:+ t +:+ u = (s +:+ t) +:+ u.
Proof. by rewrite string_app_assoc. Qed.

Lemma words_from_open rs w : w ≠ [] → words_from rs w ≠ [].
Proof.
  revert w. induction rs as [|r rs IH]; intros w Hw; cbn; [by destruct w|].
  destruct (blank r); [by destruct w|]. apply IH. by destruct w.
Qed.

Lemma bound_message_spec rs result space :
  len result ≤ maxEventMessageBytes →
  let full := result +:+ rest_of rs (0 <? len result) space in
  let '(message, truncated) := bound_message rs result space in
  if len full <=? maxEventMessageBytes then message = full ∧ truncated = false
  else truncated = true ∧ HasPrefix full message = true ∧
       maxEventMessageBytes - 4 ≤ len message ≤ maxEventMessageBytes.
Proof.
  revert result space. induction rs as [|r rs IH]; intros result space Hr; cbn [rest_of bound_message].
  { rewrite string_app_nil_r. by rewrite (proj2 (Z.leb_le _ _)) by done. }
  change (IsSpace r || IsControl r) with (blank r). destruct (blank r); [by apply IH|].
  set (written := (if space then " " else "") +:+ encode_rune r).
  assert (1 ≤ len (encode_rune r) ≤ 4) as He by apply encode_rune_len.
  assert (1 ≤ len written ≤ 5) as Hw.
  { unfold written. rewrite len_app. destruct space; [change (len " ") with 1|change (len "") with 0]; lia. }
  rewrite (string_app_assoc_rev (if space then " " else "") (encode_rune r)). fold written.
  rewrite (string_app_assoc_rev result written).
  destruct (Z.ltb_spec maxEventMessageBytes (len result + len written)) as [Hl|Hl].
  - rewrite !len_app. pose proof (len_nonneg (rest_of rs true false)).
    rewrite (proj2 (Z.leb_gt _ _)) by lia. split_and!; [done| |lia..].
    apply HasPrefix_spec. eexists. by rewrite string_app_assoc.
  - assert ((0 <? len (result +:+ written)) = true) as Hpos.
    { rewrite len_app. pose proof (len_nonneg result). apply Z.ltb_lt. lia. }
    specialize (IH (result +:+ written) false). rewrite Hpos in IH. apply IH. rewrite len_app. lia.
Qed.

Definition joined (ws : list (list Z)) : string := GoText.Join (encode_runes <$> ws) " ".

Lemma joined_cons w ws :
  joined (w :: ws) = encode_runes w +:+ match ws with [] => "" | _ => " " +:+ joined ws end.
Proof. destruct ws; [by rewrite string_app_nil_r|]. apply Json.Join_cons2. Qed.

Lemma encode_runes_app rs ss : encode_runes (rs ++ ss) = encode_runes rs +:+ encode_runes ss.
Proof. induction rs as [|r rs IH]; [done|]. cbn [app encode_runes foldr]. fold (encode_runes (rs ++ ss)) (encode_runes rs). by rewrite IH, string_app_assoc. Qed.

Lemma rest_of_words rs :
  rest_of rs false false = joined (words_from rs []) ∧
  rest_of rs true true = match words_from rs [] with [] => "" | ws => " " +:+ joined ws end ∧
  ∀ w, w ≠ [] → encode_runes w +:+ rest_of rs true false = joined (words_from rs w).
Proof.
  induction rs as [|r rs (IH1 & IH2 & IH3)]; cbn [rest_of words_from].
  { split_and!; [done..|]. intros w Hw. destruct w; [done|]. by rewrite joined_cons. }
  destruct (blank r).
  - split_and!; [done..|]. intros w Hw. destruct w as [|r' w]; [done|]. rewrite joined_cons, IH2. by destruct (words_from rs []).
  - assert (encode_rune r +:+ rest_of rs true false = joined (words_from rs [r])) as E.
    { rewrite <-IH3 by done. cbn. by rewrite string_app_nil_r. }
    assert (words_from rs [r] ≠ []) as Hne by by apply words_from_open.
    cbn [app]. rewrite E. split_and!; [done| |].
    + by destruct (words_from rs [r]).
    + intros w Hw. rewrite <-(IH3 (w ++ [r])) by (by destruct w). rewrite <-E, encode_runes_app.
      cbn [encode_runes foldr]. by rewrite string_app_nil_r, !string_app_assoc.
Qed.

(** The message of an event is shown with its words separated by one space, and
    without control characters, when that is at most 1024 bytes; otherwise it is cut
    before the first character that does not fit, at no less than 1020 bytes, and marked
    as cut. *)
Theorem boundedEventMessage_correct value :
  let '(message, truncated) := boundedEventMessage value in
  if len (collapsed value) <=? 1024 then message = collapsed value ∧ truncated = false
  else truncated = true ∧ HasPrefix (collapsed value) message = true ∧ 1020 ≤ len message ≤ 1024.
Proof.
  pose proof (bound_message_spec (runes value) "" false ltac:(done)) as H.
  cbv zeta in H. rewrite app_empty_l in H. change (0 <? len "") with false in H.
  rewrite (proj1 (rest_of_words (runes value))) in H. exact H.
Qed.

(** ** Lists that are read to the end *)

Section lists.
Context (token : string) (t : time).

(** The server answers with a page of a list: the token of the next page and the items. *)
Definition serves (o : outcome) (page : string * list RawMessage) : Prop :=
  heard o maxResponseBytes ≫= Unmarshal list_page = Some page.

(** Pages that follow one another: the last one and no other has no next page. *)
Fixpoint chained (pages : list (string * list RawMessage)) : Prop :=
  match pages with
  | [] => False
  | [(continue, _)] => continue = ""
  | (continue, _) :: pages => continue ≠ "" ∧ chained pages
  end.

(** The requests for pages that follow one another. *)
Fixpoint page_requests (path : string) (query : Values) (pages : list (string * list RawMessage)) : list Request :=
  match pages with
  | [] => []
  | (continue, _) :: pages =>
      Request.mk "GET" path (Some query) (headers token "application/json" "") "" ::
      page_requests path (<["continue" := continue]> query) pages
  end.

Fixpoint bytes_of (l : list RawMessage) : Z :=
  match l with [] => 0 | item :: l => len item + bytes_of l end.

Lemma bytes_of_nonneg l : 0 ≤ bytes_of l.
Proof. induction l as [|item l IH]; cbn; [done|]. pose proof (len_nonneg item). lia. Qed.

Lemma bytes_of_app l l' : bytes_of (l ++ l') = bytes_of l + bytes_of l'.
Proof. induction l as [|item l IH]; cbn; [done|]. rewrite IH. lia. Qed.

Lemma page_bytes_enough room n l : n + bytes_of l ≤ room → page_bytes room n l = Ok (n + bytes_of l).
Proof.
  revert n. induction l as [|item l IH]; intros n Hn; cbn [page_bytes bytes_of] in *.
  { by rewrite Z.add_0_r. }
 pose proof (bytes_of_nonneg l).
  rewrite (proj2 (Z.ltb_ge _ _)) by lia. rewrite IH by lia. f_equal. lia.
Qed.

Lemma run_list_pages n path query b current answers pages :
  Forall2 serves answers pages → chained pages → (length pages ≤ n)%nat →
  b.(items) + len_list (concat (pages.*2)) ≤ maxListItems →
  b.(bytes) + bytes_of (concat (pages.*2)) ≤ maxListBytes →
  ∃ b', run t (list_pages token n path query b current) answers =
    (page_requests path query pages, Some (Ok (current ++ concat (pages.*2), b'))).
Proof.
  intros Hs. revert n query b current.
  induction Hs as [|o [continue page] answers pages Ho Hs IH]; intros n query b current Hc Hn Hi Hb; [done|].
  destruct n as [|n]; [cbn in Hn; lia|]. cbn [list_pages]. cbn [fmap list_fmap concat] in Hi, Hb.
  rewrite (run_getJSON _ _ _ _ _ _ _ _ _ Ho).
  rewrite run_Done. unfold appendListItemsWithBudget. cbn [items bytes].
  change (concat ((continue, page) :: pages).*2) with (page ++ concat pages.*2) in *.
  rewrite bytes_of_app in Hb. unfold len_list in Hi. rewrite length_app in Hi.
  cbn [snd] in *. pose proof (bytes_of_nonneg (concat pages.*2)).
  rewrite (proj2 (Z.ltb_ge (maxListItems - b.(items)) (len_list page))) by (unfold len_list; lia).
  cbn [reject_if mbind result_bind].
  rewrite page_bytes_enough by lia. cbn [mbind result_bind].
  destruct pages as [|p pages].
  - cbn in Hc. subst continue. inversion Hs; subst. cbn. rewrite app_nil_r. by eexists.
  - destruct Hc as [Hne Hc]. rewrite bool_decide_eq_false_2 by done.
    edestruct (IH n (<["continue" := continue]> query)) as [b' ->]; [done|cbn in *; lia| | |].
    + cbn [items]. unfold len_list. lia.
    + cbn [bytes]. lia.
    + exists b'. by rewrite app_assoc.
Qed.

(** A list is read to its end: from a server that answers with pages that follow
    one another, at most 20 of them with at most 5000 items of 32 MB in all, every item
    of every page is returned, in order, by asking for each page once with the token
    the page before it gave. *)
Theorem listRaw_complete path query answers pages :
  Forall2 serves answers pages → chained pages → (length pages ≤ 20)%nat →
  len_list (concat (pages.*2)) ≤ maxListItems → bytes_of (concat (pages.*2)) ≤ maxListBytes →
  run t (listRaw token path query) answers =
    (page_requests path (<["limit" := listPageSize]> query) pages, Some (Ok (concat (pages.*2)))).
Proof.
  intros Hs Hc Hn Hi Hb. unfold listRaw, listRawWithBudget. rewrite run_or_return.
  destruct (run_list_pages 20 path (<["limit" := listPageSize]> query) newListBudget [] answers pages
    Hs Hc Hn Hi Hb) as [b' E].
  change (Z.to_nat (maxListPages - newListBudget.(Client.pages))) with 20%nat. rewrite E.
  cbn. by rewrite app_nil_r.
Qed.
End lists.

Definition anything {A} (_ : A) : Prop := True.

(** C29: The readers of the client only read: whatever the server answers, each makes a
    bounded number of requests, all of them GET requests without a body for a path whose
    segments are names that were validated, so that no name leads out of the resource
    that is meant; the review of the panel's own permissions is a POST to one fixed path
    that changes nothing of the cluster. *)
Theorem readers_only_read `{UnicodeTables} `{YAML} token :
  safe reading 41 (Probe token) anything ∧ safe reading 61 (Summary token) anything ∧
  safe reading 20 (Namespaces token) anything ∧ safe reading 20 (Nodes token) anything ∧
  (∀ name, safe reading 1 (NodeDetail_ token name) anything) ∧
  (∀ name limit, safe reading 20 (NodeEvents token name limit) anything) ∧
  (∀ namespace kind, safe reading 20 (Workloads token namespace kind) anything) ∧
  (∀ reference, safe reading 1 (WorkloadDetail_ token reference) anything) ∧
  (∀ reference limit, safe reading 20 (WorkloadEvents token reference limit) anything) ∧
  (∀ input, safe reading 1 (PodLogs_ token input) anything) ∧
  (∀ namespace eventType limit, safe reading 8 (Events token namespace eventType limit) anything) ∧
  (∀ namespace, safe reading 20 (ConfigMaps token namespace) anything) ∧
  (∀ namespace, safe reading 20 (Secrets token namespace) anything) ∧
  (∀ namespace, safe reviewing 10 (Capabilities token namespace) anything).
Proof.
  assert (∀ A P n (m : fetch (result A)) Q, safe P n m (if_ok Q) → safe P n m anything) as weaken.
  { intros A P n m Q Hm. by eapply safe_weaken; [exact Hm|..]. }
  split_and!; intros; eapply weaken; eauto using Probe_safe, Summary_safe, Namespaces_safe, Nodes_safe,
    NodeDetail_safe, NodeEvents_safe, Workloads_safe, WorkloadDetail_safe, WorkloadEvents_safe, PodLogs_safe,
    Events_safe, ConfigMaps_safe, Secrets_safe, Capabilities_safe.
Qed.

(** C30: Listing the workloads of a cluster ends, however many pages of each kind the
    server goes on to offer: all kinds together cost at most 20 requests and yield at
    most 5000 workloads, in the order of their namespaces, kinds and names, or an error. *)
Theorem Workloads_terminates `{UnicodeTables} token namespace kind :
  safe reading 20 (Workloads token namespace kind) (if_ok (λ workloads,
    len_list workloads ≤ maxListItems ∧ StronglySorted (not_after workload_less) workloads)).
Proof.
  unfold Workloads. apply safe_check. intros [] Hns%ValidateWorkloadList_Ok.
  apply (safe_or_return reading 20 0 _ _ (λ xs, len_list xs ≤ maxListItems)).
  - apply (list_kinds_within _ _ namespace newListBudget []); [done|apply newListBudget_within|done].
  - intros xs Hxs. cbn. split; [unfold len_list in *; by rewrite sort_Slice_length|].
    apply sort_Slice_Sorted, _.
Qed.

Definition example_page (continue : string) (names : list string) : outcome :=
  Answer 200 (Marshal (Object [("metadata", object [("continue", text continue)]);
    ("items", ("", Array (text <$> names)))])) false None.

Lemma listRaw_complete_witness :
  run 0 (listRaw "token" "/api/v1/nodes" ∅) [example_page "next" ["a"; "b"]; example_page "" ["c"]] =
    (page_requests "token" "/api/v1/nodes" {[ "limit" := listPageSize ]}
       [("next", [Json.Marshal (Str "a"); Json.Marshal (Str "b")]); ("", [Json.Marshal (Str "c")])],
     Some (Ok [Json.Marshal (Str "a"); Json.Marshal (Str "b"); Json.Marshal (Str "c")])).
Proof.
  eapply (listRaw_complete "token" 0 "/api/v1/nodes" ∅ _ [("next", [Json.Marshal (Str "a"); Json.Marshal (Str "b")]);
    ("", [Json.Marshal (Str "c")])]).
  - repeat constructor.
  - done.
  - simpl; lia.
  - done.
  - done.
Defined.
