(* ===== verification/ImageUpdate.v ===== *)
(** * Changing the image of a deployment (src/internal/kubernetes/client.go)

    What [UpdateWorkloadImage] and [PreviewWorkloadImage] send for given answers: they
    compare before they set. *)

From S2P Require Export ClientSafety.

Local Open Scope Z_scope.
Local Open Scope stdpp_scope.
Local Open Scope fetch_scope.

Import Json.

(** ** Changing the image of a deployment *)
Section image.
Context `{UnicodeTables} (token : string) (t : time).

Definition show_request (c : WorkloadImageChange) : Request :=
  Request.mk "GET" (workloadResourcePath c.(WorkloadImageChange.Reference)) None
    (headers token "application/json" "") "".

Definition patch_request (c : WorkloadImageChange) (dryRun : bool) : Request :=
  Request.mk "PATCH" (workloadResourcePath c.(WorkloadImageChange.Reference))
    (if dryRun then Some {[ "dryRun" := "All" ]} else None)
    (headers token "application/json" "application/strategic-merge-patch+json") (Marshal (image_patch c)).

(** The server answered, whole and in time, with a deployment whose container has the
    image; [version] also says at which version. *)
Definition shows (c : WorkloadImageChange) (image : string) (version : option string) (o : outcome) : Prop :=
  ∃ payload resource,
    heard o maxMutationBytes = Some payload ∧
    Unmarshal workloadDetailResource.decode payload = Some resource ∧
    containerImage resource.(workloadDetailResource.TemplateContainers) c.(WorkloadImageChange.Container) = Some image ∧
    from_option (λ v, resource.(workloadDetailResource.Metadata).(objectMetadata.ResourceVersion) = v) True version.

Definition shows_before (c : WorkloadImageChange) : outcome → Prop :=
  shows c c.(WorkloadImageChange.CurrentImage) (Some c.(WorkloadImageChange.ResourceVersion)).

Ltac await :=
  match goal with
  | |- context [run t (or_return (requestPayload token ?m ?p ?q ?a ?c ?b ?x false) ?k) ?ans] =>
      let err := fresh "err" in destruct (run_whole token t m p q a c b x k ans) as [err ->]; [done|]
  end.

(** What patching an image comes to: nothing, a look, or a look and a patch. *)
Lemma run_patchDeploymentImage c dryRun answers rs r :
  run t (patchDeploymentImage token c dryRun) answers = (rs, r) →
  (rs = [] ∧ ∃ e, r = Some (Err e)) ∨
  (rs = [show_request c] ∧ (∀ payload, r ≠ Some (Ok payload))) ∨
  (rs = [show_request c; patch_request c dryRun] ∧ ValidateWorkloadImageChange c = Ok tt ∧
   ∃ o rest, answers = o :: rest ∧ shows_before c o ∧
     ∀ payload, r = Some (Ok payload) → ∃ o' rest', rest = o' :: rest' ∧ heard o' maxMutationBytes = Some payload).
Proof.
  unfold patchDeploymentImage. rewrite run_Done.
  destruct (ValidateWorkloadImageChange c) as [[]|e] eqn:Hv; [|intros [= <- <-]; left; eauto].
  await. destruct answers as [|o rest]; [intros [= <- <-]; right; left; by split|].
  destruct (heard o maxMutationBytes) as [current|] eqn:Ho; [|intros [= <- <-]; right; left; by split].
  rewrite run_Done.
  destruct (Unmarshal _ current) as [resource|] eqn:Hres; [|intros [= <- <-]; right; left; by split].
  cbn [expect_ok]. rewrite run_Done. case_bool_decide as Hver; [|intros [= <- <-]; right; left; by split].
  cbn [negb reject_if]. rewrite run_Done. case_bool_decide as Himg; [|intros [= <- <-]; right; left; by split].
  cbn [negb reject_if]. await.
  assert (shows_before c o) as Hshow by (exists current, resource; done).
  intros Hrun. right; right. destruct rest as [|o' rest'].
  - injection Hrun as <- <-. split_and!; [done..|]. exists o, []. by split_and!.
  - destruct (heard o' maxMutationBytes) as [payload|] eqn:Ho'; cbn in Hrun; injection Hrun as <- <-;
      (split_and!; [done..|]); exists o, (o' :: rest'); (split_and!; [done..|]); [|done].
    intros p [= <-]. by exists o', rest'.
Qed.

(** What is done with the answer to the patch. *)
Lemma run_changed {A} c dryRun (f : string → result A) what answers rs r :
  run t (
    payload ←! patchDeploymentImage token c dryRun;
    image ←! Done (deploymentContainerImage payload c.(WorkloadImageChange.Container));
    (reject_if (negb (bool_decide (image = Some c.(WorkloadImageChange.Image)))) (upstream what)) ;!
    Done (f payload)) answers = (rs, r) →
  rs `prefix_of` [show_request c; patch_request c dryRun] ∧
  (patch_request c dryRun ∈ rs → ValidateWorkloadImageChange c = Ok tt ∧
     ∃ o rest, answers = o :: rest ∧ shows_before c o) ∧
  (∀ a, r = Some (Ok a) → rs = [show_request c; patch_request c dryRun] ∧
     ∃ o o' rest, answers = o :: o' :: rest ∧ shows c c.(WorkloadImageChange.Image) None o').
Proof.
  unfold or_return at 1. rewrite run_bind.
  destruct (run t (patchDeploymentImage token c dryRun) answers) as [rs1 r1] eqn:Hrun.
  apply run_patchDeploymentImage in Hrun as [[-> [e ->]]|[[-> Hr]|(-> & Hv & o & rest & -> & Ho & Hpayload)]].
  - cbn. intros [= <- <-]. split_and!; [by apply prefix_nil|by intros ?%elem_of_nil|done].
  - assert (patch_request c dryRun ∈ [show_request c] → False) as Hno by (intros ?%list_elem_of_singleton; done).
    assert ([show_request c] `prefix_of` [show_request c; patch_request c dryRun]) as Hp by by eexists [_].
    destruct r1 as [[payload|e]|]; [by destruct (Hr payload)| |]; cbn; intros [= <- <-]; split_and!; done.
  - assert (∀ b, r = b → (∀ a, b ≠ Some (Ok a)) →
      [show_request c; patch_request c dryRun] = rs → rs `prefix_of` [show_request c; patch_request c dryRun] ∧
      (patch_request c dryRun ∈ rs → ValidateWorkloadImageChange c = Ok tt ∧
        ∃ o0 rest0, o :: rest = o0 :: rest0 ∧ shows_before c o0) ∧
      (∀ a, r = Some (Ok a) → rs = [show_request c; patch_request c dryRun] ∧
        ∃ o0 o' rest0, o :: rest = o0 :: o' :: rest0 ∧ shows c c.(WorkloadImageChange.Image) None o')) as Hfail.
    { intros b -> Hb <-. split_and!; [done|eauto|]. intros a ->. by destruct (Hb a). }
    destruct r1 as [[payload|e]|]; cbn; [|intros [= <- <-]; by eapply Hfail..].
    destruct (Hpayload payload eq_refl) as (o' & rest' & -> & Ho').
    unfold deploymentContainerImage.
    destruct (Unmarshal _ payload) as [resource|] eqn:Hres; cbn; [|intros [= <- <-]; by eapply Hfail].
    unfold reject_if. case_bool_decide as Himg; cbn; [|intros [= <- <-]; by eapply Hfail].
    intros [= <- <-]. split_and!; [done|eauto|]. intros a _. split; [done|]. exists o, o', rest'.
    split; [done|]. by exists payload, resource.
Qed.
End image.

Lemma image_patch_depth c : depth (image_patch c) = 6%nat.
Proof. done. Qed.


(** ** An example *)

Definition example_change : WorkloadImageChange :=
  WorkloadImageChange.mk (WorkloadReference.mk " Deployment" "apps" "web") "7 " "app" "web:1" "web:2".

Definition example_web (version image : string) : outcome :=
  Answer 200 (Marshal (Object [("metadata", object [("name", text "web"); ("resourceVersion", text version)]);
    ("spec", object [("template", object [("spec", object [("containers", ("", Array [object
      [("name", text "app"); ("image", text image)]]))])])])])) false None.

Definition example_answers : list outcome := [example_web "7" "web:1"; example_web "8" "web:2"].

