(* ===== verification/Paging.v ===== *)
(** * Lists that are read page by page (src/internal/kubernetes)

    Most readers of the API share one loop: it asks for a page, counts its bytes,
    decodes its items, refuses items it has seen, and goes on with the token of the
    next page.  The loop and the two kinds of pages, metadata and tables, are defined
    here once, with what holds of every list that is read so. *)

From S2P Require Export Inventory ClientSafety.

Local Open Scope Z_scope.
Local Open Scope stdpp_scope.
Local Open Scope fetch_scope.
Local Open Scope json_scope.

Import Json.

Definition kubernetesPartialMetadataListAccept : string :=
  "application/json;as=PartialObjectMetadataList;g=meta.k8s.io;v=v1".

(** A token that the readers send back: [valid*Continue]. *)
Definition valid_continue (maxBytes : Z) (value : string) : bool :=
  negb (bool_decide (value = "")) && (len value <=? maxBytes) && clean value.

(** ** The loop *)

Module pager.
(** How the bytes are limited: [CheckRoom] gives up when none are left before a request,
    [CheckAfter] reads a whole answer and gives up when it was too long. *)
Inductive limit : Type := CheckRoom | NoCheck | CheckAfter.

Record t : Type := mk {
  query : Values;
  accept : string;
  maxPages : nat;
  maxListBytes : Z;
  maxPageBytes : Z;
  bytes : limit;
  (** The token of the next page is valid, and it may be refused when it repeats. *)
  validContinue : string → bool;
  refusesRepeated : bool;
  (** A list of so many items is not continued. *)
  full : option Z;
  (** The texts of the errors. *)
  byteLimit : string;
  pageLimit : string;
  badToken : string;
  repeatedToken : string;
  itemLimit : string;
}.

(** The limit of the next answer, when [room] bytes are left. *)
Definition answer_limit (p : t) (room : Z) : Z :=
  match p.(bytes) with CheckAfter => p.(maxPageBytes) | _ => Z.min room p.(maxPageBytes) end.

Definition no_room (p : t) (room : Z) : bool :=
  match p.(bytes) with CheckRoom => room <=? 0 | _ => false end.

Definition too_long (p : t) (room n : Z) : bool :=
  match p.(bytes) with CheckAfter => room <? n | _ => false end.

Definition is_full (p : t) (n : Z) : bool := match p.(full) with Some m => m <=? n | None => false end.
End pager.
Notation pager := pager.t.

Section pages.
Context {A : Type} (token : string) (p : pager).
(** What the answer to a request adds to the items, and the token of the next page. *)
Context (page : string → list A → result (string * list A)).

Fixpoint next_page (remaining : nat) (path : string) (query : Values) (totalBytes : Z) (seen : list string)
    (items : list A) : fetch (result (list A)) :=
  match remaining with
  | O => Done (Err (upstream p.(pager.pageLimit)))
  | S remaining =>
      let room := p.(pager.maxListBytes) - totalBytes in
      (reject_if (pager.no_room p room) (upstream p.(pager.byteLimit))) ;!
      '(payload, _) ←! getPayload token path (Some query) p.(pager.accept) (pager.answer_limit p room) false;
      (reject_if (pager.too_long p room (len payload)) (upstream p.(pager.byteLimit))) ;!
      '(continue, items) ←! Done (page payload items);
      if bool_decide (continue = "") then Done (Ok items)
      else
        (reject_if (negb (p.(pager.validContinue) continue)) (upstream p.(pager.badToken))) ;!
        (reject_if (p.(pager.refusesRepeated) && existsb (String.eqb continue) seen)
          (upstream p.(pager.repeatedToken))) ;!
        (reject_if (pager.is_full p (len_list items)) (upstream p.(pager.itemLimit))) ;!
        next_page remaining path (<["continue" := continue]> query) (totalBytes + len payload)
          (continue :: seen) items
  end.

Definition all_pages (path : string) : fetch (result (list A)) :=
  next_page p.(pager.maxPages) path p.(pager.query) 0 [] [].
End pages.

(** ** Pages *)

(** The items of a page, one after the other, each new. *)
Fixpoint new_items {A B} (decode : B → result A) (key : A → string) (duplicate : string)
    (sources : list B) (items : list A) : result (list A) :=
  match sources with
  | [] => Ok items
  | source :: sources =>
      item ← decode source;
      reject_if (existsb (λ i, String.eqb (key i) (key item)) items) (upstream duplicate) ;;
      new_items decode key duplicate sources (items ++ [item])
  end.

(** The same where items are not distinguished. *)
Fixpoint all_items {A B} (decode : B → result A) (sources : list B) (items : list A) : result (list A) :=
  match sources with
  | [] => Ok items
  | source :: sources => item ← decode source; all_items decode sources (items ++ [item])
  end.

Module partialObjectMetadataList.
Record t : Type := mk { APIVersion : string; Kind : string; Continue : string; Items : list RawMessage }.
#[global] Instance zero_t : Zero t := mk "" "" "" [].
Definition decode : decoder t := struct (λ old ms,
  apiVersion ← field "apiVersion" string_ old.(APIVersion) ms;
  kind ← field "kind" string_ old.(Kind) ms;
  continue ← field "metadata" (struct (field "continue" string_)) old.(Continue) ms;
  items ← field "items" (slice raw_message) old.(Items) ms;
  Some (mk apiVersion kind continue items)).
End partialObjectMetadataList.
Notation partialObjectMetadataList := partialObjectMetadataList.t.

(** The texts of the errors of a page. *)
Record page_texts : Type := mkTexts { undecoded : string; unsupported : string; tooMany : string }.

(** A page of objects in a list of some version and kind; [add] adds them to the items. *)
Definition objects_page {A} (apiVersion kind : string) (texts : page_texts) (maxItems : Z)
    (add : list RawMessage → list A → result (list A)) (payload : string) (items : list A) :
    result (string * list A) :=
  response ← expect_ok (upstream texts.(undecoded)) (Unmarshal partialObjectMetadataList.decode payload);
  reject_if (negb (bool_decide (response.(partialObjectMetadataList.APIVersion) = apiVersion)) ||
             negb (bool_decide (response.(partialObjectMetadataList.Kind) = kind)))
    (upstream texts.(unsupported)) ;;
  reject_if (maxItems - len_list items <? len_list response.(partialObjectMetadataList.Items))
    (upstream texts.(tooMany)) ;;
  items ← add response.(partialObjectMetadataList.Items) items;
  Ok (response.(partialObjectMetadataList.Continue), items).

(** A page of metadata. *)
Definition metadata_page {A} : page_texts → Z → (list RawMessage → list A → result (list A)) →
    string → list A → result (string * list A) :=
  objects_page "meta.k8s.io/v1" "PartialObjectMetadataList".

(** A page of a table: [columns] finds the columns, [add] adds the rows. *)
Definition rows_page {A C} (texts : page_texts) (maxItems : Z) (columns : list column → result C)
    (add : C → list kubernetesTableRow → list A → result (list A)) (payload : string) (items : list A) :
    result (string * list A) :=
  response ← expect_ok (upstream texts.(undecoded)) (Unmarshal kubernetesTable.decode payload);
  reject_if (negb (supported_table response)) (upstream texts.(unsupported)) ;;
  reject_if (maxItems - len_list items <? len_list response.(kubernetesTable.Rows)) (upstream texts.(tooMany)) ;;
  columns ← columns response.(kubernetesTable.ColumnDefinitions);
  items ← add columns response.(kubernetesTable.Rows) items;
  Ok (response.(kubernetesTable.Continue), items).

(** The texts of the readers, by what they call the resource and the answer. *)
Definition page_texts_of (what kind : string) : page_texts :=
  mkTexts ("decode " +:+ what +:+ " " +:+ kind) ("unsupported " +:+ what +:+ " " +:+ kind)
    (what +:+ " list exceeded safe item limit").

(** The pager that most readers use: pages of one limit, while there is room for bytes,
    each token once. *)
Definition strict_pager (what : string) (query : Values) (accept : string) (maxPages : nat)
    (maxListBytes maxPageBytes : Z) (validContinue : string → bool) : pager := {|
  pager.query := query; pager.accept := accept; pager.maxPages := maxPages;
  pager.maxListBytes := maxListBytes; pager.maxPageBytes := maxPageBytes; pager.bytes := pager.CheckRoom;
  pager.validContinue := validContinue; pager.refusesRepeated := true; pager.full := None;
  pager.byteLimit := what +:+ " list exceeded safe byte limit";
  pager.pageLimit := what +:+ " list exceeded safe page limit";
  pager.badToken := "invalid " +:+ what +:+ " continuation token";
  pager.repeatedToken := "repeated " +:+ what +:+ " continuation token";
  pager.itemLimit := "";
|}.

(** ** What the readers share *)

(** [utf8.ValidString]. *)
Fixpoint ValidString (s : string) : bool :=
  match s with
  | EmptyString => true
  | String c r0 =>
      if is_ascii c then ValidString r0 else
      match r0 with
      | EmptyString => false
      | String d r1 =>
          if lead2 c && is_cont d then ValidString r1 else
          match r1 with
          | EmptyString => false
          | String e r2 =>
              if lead3 c d && is_cont e then ValidString r2 else
              match r2 with
              | EmptyString => false
              | String f r3 => lead4 c d && is_cont e && is_cont f && ValidString r3
              end
          end
      end
  end.

(** [for _, a := range values]: each value is checked, and none is seen twice; [then_]
    is checked after that. *)
Fixpoint each_once {A} (key : A → string) (check : A → result unit) (duplicate : string)
    (then_ : A → result unit) (values : list A) (seen : gset string) : result (gset string) :=
  match values with
  | [] => Ok seen
  | a :: values =>
      check a ;;
      reject_if (bool_decide (key a ∈ seen)) (upstream duplicate) ;;
      then_ a ;;
      each_once key check duplicate then_ values ({[ key a ]} ∪ seen)
  end.

(** The same for strings that only have to be valid. *)
Definition distinct_values (valid : string → bool) (invalid duplicate : string) (values : list string) :
    result (gset string) :=
  each_once id (λ value, reject_if (negb (valid value)) (upstream invalid)) duplicate (λ _, Ok tt) values ∅.

(** The metadata of an object that is read alone, or in a list. *)
Module sourceMetadata.
Record t : Type := mk { Name : string; Namespace : string; Generation : Z; CreationTimestamp : time }.
#[global] Instance zero_t : Zero t := mk "" "" 0 time_zero.
Definition decode : decoder t := struct (λ old ms,
  name ← field "name" string_ old.(Name) ms;
  namespace ← field "namespace" string_ old.(Namespace) ms;
  generation ← field "generation" (int_ 64) old.(Generation) ms;
  creationTimestamp ← field "creationTimestamp" time_ old.(CreationTimestamp) ms;
  Some (mk name namespace generation creationTimestamp)).
(** The same where the struct of the code has no generation. *)
Definition decode_plain : decoder t := struct (λ old ms,
  name ← field "name" string_ old.(Name) ms;
  namespace ← field "namespace" string_ old.(Namespace) ms;
  creationTimestamp ← field "creationTimestamp" time_ old.(CreationTimestamp) ms;
  Some (mk name namespace old.(Generation) creationTimestamp)).
End sourceMetadata.
Notation sourceMetadata := sourceMetadata.t.

(** An item that is its metadata: [validate] its name, and [make] the item. *)
Definition named_item {A} (validate : string → result unit) (invalid : string) (make : string → time → A)
    (raw : RawMessage) : result A :=
  metadata ← decodePartialObjectMetadataForScope raw false;
  reject_if (negb (is_ok (validate metadata.(partialObjectMetadata.Name)))) (upstream invalid) ;;
  Ok (make metadata.(partialObjectMetadata.Name) metadata.(partialObjectMetadata.CreationTimestamp)).

(** A cluster-scoped object that is read alone is the one that was asked for. *)
Definition is_cluster_object (version kind expectedVersion expectedKind : string) (metadata : sourceMetadata)
    (expectedName : string) (validate : string → result unit) : bool :=
  bool_decide (version = expectedVersion) && bool_decide (kind = expectedKind) &&
  bool_decide (metadata.(sourceMetadata.Name) = expectedName) &&
  bool_decide (metadata.(sourceMetadata.Namespace) = "") &&
  negb (IsZero metadata.(sourceMetadata.CreationTimestamp)) &&
  is_ok (validate metadata.(sourceMetadata.Name)).

(** [for index, column := range columns]: the columns of a table by name, each once and
    of the type it must have. *)
Fixpoint required_columns (what : string) (required : list (string * string)) (index : Z)
    (columns : list column) (found : gmap string Z) : result (gmap string Z) :=
  match columns with
  | [] =>
      reject_if (negb (bool_decide (size found = length required)))
        (upstream ("missing " +:+ what +:+ " table column")) ;;
      Ok found
  | (name, type) :: columns =>
      reject_if (bool_decide (name = "") || bool_decide (type = "") ||
                 negb (validTableString name) || negb (validTableString type))
        (upstream ("invalid " +:+ what +:+ " table column")) ;;
      match (list_to_map required : gmap string string) !! name with
      | None => required_columns what required (index + 1) columns found
      | Some expectedType =>
          reject_if (negb (bool_decide (type = expectedType)))
            (upstream ("invalid " +:+ what +:+ " table column type")) ;;
          reject_if (bool_decide (is_Some (found !! name)))
            (upstream ("duplicate " +:+ what +:+ " table column")) ;;
          required_columns what required (index + 1) columns (<[name := index]> found)
      end
  end.

Definition tableColumns (what : string) (required : list (string * string)) (columns : list column) :
    result (gmap string Z) :=
  required_columns what required 0 columns ∅.

(** [columns[name]], 0 where the name is not there. *)
Definition column_of (columns : gmap string Z) (name : string) : Z := default 0 (columns !! name).

(** A sum over a list. *)
Definition sum_of {A} (cost : A → Z) (l : list A) : Z := foldr (λ a n, cost a + n) 0 l.

(** [items[i].Name < items[j].Name] *)
Definition by_name {A} (name : A → string) (a b : A) : bool := String.ltb (name a) (name b).

(** [items[i].Namespace < items[j].Namespace], and the names in one namespace. *)
Definition by_namespace {A} (namespace name : A → string) (a b : A) : bool :=
  if negb (bool_decide (namespace a = namespace b)) then String.ltb (namespace a) (namespace b)
  else String.ltb (name a) (name b).

(** The path of a collection, [all] or in the namespace that was asked for. *)
Definition scoped_path (namespace all group resource : string) : result string :=
  if bool_decide (namespace = "") then Ok all
  else ValidateNamespace namespace ;; Ok (group +:+ "/namespaces/" +:+ namespace +:+ "/" +:+ resource).

(** One object, by its name: the answer, decoded as that object. *)
Definition one_object {A} (token : string) (validate : string → result unit) (path : string) (maxBytes : Z)
    (decode : string → string → result A) (name : string) : fetch (result A) :=
  validate name ;!
  '(payload, _) ←! getPayload token (path +:+ "/" +:+ name) None "application/json" maxBytes false;
  Done (decode payload name).

(** ** What holds of every list that is read page by page *)

#[global] Instance sum_of_Proper {A} (cost : A → Z) : Proper ((≡ₚ) ==> (=)) (sum_of cost).
Proof. intros l l' H. unfold sum_of. induction H; cbn; lia. Qed.

Lemma sum_of_app {A} (cost : A → Z) l k : sum_of cost (l ++ k) = sum_of cost l + sum_of cost k.
Proof. unfold sum_of. induction l; cbn; lia. Qed.

(** The limits of a pager are sizes. *)
Definition sized (p : pager) : Prop := 0 ≤ p.(pager.maxListBytes) ∧ 0 ≤ p.(pager.maxPageBytes).

(** What is true of the items of a page is true of the list. *)
Definition keeps_items {A} (I : list A → Prop) (page : string → list A → result (string * list A)) : Prop :=
  ∀ payload items continue items', I items → page payload items = Ok (continue, items') → I items'.

Section bounded.
Context {A : Type} (token : string) (p : pager) (page : string → list A → result (string * list A)).
Context (I : list A → Prop) (Hp : sized p) (HI : keeps_items I page).

Lemma answer_limit_nonneg total :
  total ≤ p.(pager.maxListBytes) → 0 ≤ pager.answer_limit p (p.(pager.maxListBytes) - total).
Proof. destruct Hp. unfold pager.answer_limit. destruct (pager.bytes p); lia. Qed.

(** The bytes that were read stay below the limit of the list. *)
Lemma total_bounded total n :
  total ≤ p.(pager.maxListBytes) → n ≤ pager.answer_limit p (p.(pager.maxListBytes) - total) →
  pager.too_long p (p.(pager.maxListBytes) - total) n = false → total + n ≤ p.(pager.maxListBytes).
Proof.
  unfold pager.answer_limit, pager.too_long. destruct (pager.bytes p); [lia|lia|].
  rewrite Z.ltb_ge. lia.
Qed.

Lemma next_page_safe remaining path query total seen items :
  plain_path path → 0 ≤ total ≤ p.(pager.maxListBytes) → I items →
  safe reading remaining (next_page token p page remaining path query total seen items) (if_ok I).
Proof.
  intros Hpath. revert query total seen items.
  induction remaining as [|remaining IH]; intros query total seen items Ht Hi; [done|].
  cbn [next_page]. cbv zeta. apply safe_check. intros _ _.
  apply (safe_or_return reading 1 remaining _ _ _ _
    (getPayload_safe _ _ _ _ _ _ _ (answer_limit_nonneg _ (proj2 Ht)) (reading_get _ _ _ _ Hpath))).
  intros [payload b] Hl. cbn in Hl. apply safe_check. intros _ Hlong%reject_if_Ok.
  apply (safe_or_return reading 0 remaining _ _ (λ x, I x.2)).
  { apply safe_Done. destruct (page payload items) as [[c xs]|] eqn:E; [|done]. by eapply HI. }
  intros [c xs] Hxs. cbn in Hxs. case_bool_decide; [done|]. do 3 (apply safe_check; intros _ _).
  apply IH; [|done]. pose proof (total_bounded _ _ (proj2 Ht) Hl Hlong). pose proof (len_nonneg payload). lia.
Qed.

(** At most [maxPages] requests, which only read, and a list in which [I] holds. *)
Lemma all_pages_safe path :
  plain_path path → I [] → safe reading p.(pager.maxPages) (all_pages token p page path) (if_ok I).
Proof. intros Hpath Hn. apply next_page_safe; [done|destruct Hp; lia|done]. Qed.
End bounded.

(** A list of at most [maxItems] items, each decoded from something. *)
Definition bounded_list {A} (maxItems : Z) (decoded : A → Prop) (items : list A) : Prop :=
  len_list items ≤ maxItems ∧ Forall decoded items.

(** And no two of them with the same key. *)
Definition distinct_list {A} (maxItems : Z) (key : A → string) (decoded : A → Prop) (items : list A) : Prop :=
  bounded_list maxItems decoded items ∧ NoDup (key <$> items).

Lemma existsb_key {A} (key : A → string) (items : list A) item :
  existsb (λ i, String.eqb (key i) (key item)) items = false ↔ key item ∉ key <$> items.
Proof.
  rewrite list_elem_of_fmap. induction items as [|i items IH]; cbn; [set_solver|].
  rewrite orb_false_iff, IH, String.eqb_neq. set_solver.
Qed.

Section pages_keep.
Context {A B : Type} (decode : B → result A) (key : A → string) (duplicate : string).

Lemma new_items_spec sources items items' :
  new_items decode key duplicate sources items = Ok items' →
  ∃ more, items' = items ++ more ∧ Forall2 (λ b a, decode b = Ok a) sources more ∧
    (NoDup (key <$> items) → NoDup (key <$> items')).
Proof.
  revert items. induction sources as [|b sources IH]; intros items; cbn [new_items].
  { intros [= <-]. exists []. by rewrite app_nil_r. }
  intros (a & Ha & (u & Hd%reject_if_Ok & H)%bind_Ok)%bind_Ok. apply IH in H as (more & -> & Hm & Hn).
  exists (a :: more). rewrite <-app_assoc in Hn |- *. split_and!; [done|by constructor|].
  intros Hi. apply Hn. rewrite fmap_app. apply NoDup_app. split_and!; [done| |].
  - intros x Hx Ha'. apply list_elem_of_singleton in Ha'. subst x. by apply existsb_key in Hd.
  - apply NoDup_singleton.
Qed.

Lemma all_items_spec sources items items' :
  all_items decode sources items = Ok items' →
  ∃ more, items' = items ++ more ∧ Forall2 (λ b a, decode b = Ok a) sources more.
Proof.
  revert items. induction sources as [|b sources IH]; intros items; cbn [all_items].
  { intros [= <-]. exists []. by rewrite app_nil_r. }
  intros (a & Ha & H)%bind_Ok. apply IH in H as (more & -> & Hm).
  exists (a :: more). rewrite <-app_assoc. split; [done|by constructor].
Qed.
End pages_keep.

(** What adds the sources of a page keeps a property of the items while there is room. *)
Definition keeps_added {A B} (maxItems : Z) (I : list A → Prop) (add : list B → list A → result (list A)) : Prop :=
  ∀ sources items items', I items → len_list sources ≤ maxItems - len_list items →
    add sources items = Ok items' → I items'.

Lemma bounded_more {A B} maxItems (decode : B → result A) decoded sources items more :
  (∀ b a, decode b = Ok a → decoded a) → bounded_list maxItems decoded items →
  len_list sources ≤ maxItems - len_list items → Forall2 (λ b a, decode b = Ok a) sources more →
  bounded_list maxItems decoded (items ++ more).
Proof.
  intros Hd (Hl & Hf) Hroom Hm. split.
  - apply Forall2_length in Hm. unfold len_list in *. rewrite length_app. lia.
  - apply Forall_app. split; [done|]. clear -Hm Hd. induction Hm; constructor; eauto.
Qed.

Lemma new_items_keeps {A B} maxItems (decode : B → result A) key duplicate decoded :
  (∀ b a, decode b = Ok a → decoded a) →
  keeps_added maxItems (distinct_list maxItems key decoded) (new_items decode key duplicate).
Proof.
  intros Hd sources items items' (Hb & Hn) Hroom (more & -> & Hm & Hnd)%new_items_spec.
  split; [by eapply bounded_more|by apply Hnd].
Qed.

Lemma all_items_keeps {A B} maxItems (decode : B → result A) decoded :
  (∀ b a, decode b = Ok a → decoded a) →
  keeps_added maxItems (bounded_list maxItems decoded) (all_items decode).
Proof. intros Hd sources items items' Hb Hroom (more & -> & Hm)%all_items_spec. by eapply bounded_more. Qed.

Lemma objects_page_keeps {A} version kind texts maxItems (add : list RawMessage → list A → result (list A)) I :
  keeps_added maxItems I add → keeps_items I (objects_page version kind texts maxItems add).
Proof.
  intros Hadd payload items c items' Hi. unfold objects_page.
  intros (response & _ & (_ & _ & (? & Hroom%reject_if_Ok%Z.ltb_ge & (xs & Hx & [= <- <-])%bind_Ok)%bind_Ok)%bind_Ok)%bind_Ok.
  by eapply Hadd.
Qed.

Lemma rows_page_keeps {A C} texts maxItems (columns : list column → result C)
    (add : C → list kubernetesTableRow → list A → result (list A)) I :
  (∀ c, keeps_added maxItems I (add c)) → keeps_items I (rows_page texts maxItems columns add).
Proof.
  intros Hadd payload items c items' Hi. unfold rows_page.
  intros (response & _ & (_ & _ & (? & Hroom%reject_if_Ok%Z.ltb_ge & (cs & Hc & (xs & Hx & [= <- <-])%bind_Ok)%bind_Ok)%bind_Ok)%bind_Ok)%bind_Ok.
  by eapply Hadd.
Qed.

Lemma bounded_list_nil {A} maxItems (decoded : A → Prop) : 0 ≤ maxItems → bounded_list maxItems decoded [].
Proof. intros H. split; [done|constructor]. Qed.

Lemma distinct_list_nil {A} maxItems (key : A → string) decoded : 0 ≤ maxItems → distinct_list maxItems key decoded [].
Proof. intros H. split; [by apply bounded_list_nil|constructor]. Qed.

#[global] Instance bounded_list_Proper {A} maxItems (decoded : A → Prop) :
  Proper ((≡ₚ) ==> iff) (bounded_list maxItems decoded).
Proof. intros l l' Hl. unfold bounded_list, len_list. by rewrite Hl. Qed.

#[global] Instance distinct_list_Proper {A} maxItems (key : A → string) decoded :
  Proper ((≡ₚ) ==> iff) (distinct_list maxItems key decoded).
Proof. intros l l' Hl. unfold distinct_list. by rewrite Hl. Qed.

(** A list that was sorted: what holds of it in any order, and its order. *)
Definition sorted_list {A} (less : A → A → bool) (I : list A → Prop) (items : list A) : Prop :=
  I items ∧ StronglySorted (not_after less) items.

#[global] Instance by_name_strict {A} (name : A → string) : StrictWeak (by_name name).
Proof. apply (strict_weak_string name). Qed.

#[global] Instance by_namespace_strict {A} (namespace name : A → string) : StrictWeak (by_namespace namespace name).
Proof.
  apply (strict_weak_lex (λ a b, bool_decide (namespace a = namespace b)));
    [apply same_string|apply strict_weak_string..].
Qed.

(** A list that is read page by page and sorted. *)
Lemma sorted_pages_safe {A} token p (page : string → list A → result (string * list A)) path less I :
  sized p → keeps_items I page → StrictWeak less → Proper ((≡ₚ) ==> iff) I → I [] → plain_path path →
  safe reading p.(pager.maxPages)
    (items ←! all_pages token p page path; Done (Ok (sort_Slice less items)))
    (if_ok (sorted_list less I)).
Proof.
  intros Hp Hk Hw HI Hn Hpath. rewrite <-(Nat.add_0_r p.(pager.maxPages)). eapply safe_or_return.
  - by apply all_pages_safe.
  - intros items Hi. apply safe_Done. split; [by rewrite sort_Slice_Permutation|by apply sort_Slice_Sorted].
Qed.

(** Such a list of distinct items, ordered by their keys. *)
Definition listed {A} (maxItems : Z) (key : A → string) (decoded : A → Prop) : list A → Prop :=
  sorted_list (by_name key) (distinct_list maxItems key decoded).

Lemma listed_pages_safe {A} token p (page : string → list A → result (string * list A)) path maxItems key decoded :
  sized p → keeps_items (distinct_list maxItems key decoded) page → 0 ≤ maxItems → plainb path = true →
  safe reading p.(pager.maxPages)
    (items ←! all_pages token p page path; Done (Ok (sort_Slice (by_name key) items)))
    (if_ok (listed maxItems key decoded)).
Proof.
  intros Hp Hk Hm Hpath. apply sorted_pages_safe; [done..|apply _|apply _|by apply distinct_list_nil|by apply plainb_spec].
Qed.

(** One object costs one request, for a path that its name cannot leave. *)
Lemma one_object_safe {A} token validate path maxBytes (decode : string → string → result A) name Q :
  (∀ name, validate name = Ok tt → safe_segment name) → plain_path path → 0 ≤ maxBytes →
  (∀ payload a, len payload ≤ maxBytes → decode payload name = Ok a → Q a) →
  safe reading 1 (one_object token validate path maxBytes decode name) (if_ok Q).
Proof.
  intros Hv Hp Hm HQ. unfold one_object. apply safe_check. intros [] Hn%Hv.
  apply (safe_or_return reading 1 0 _ _ _ _
    (getPayload_safe _ _ _ _ _ _ _ Hm (reading_get _ _ _ _ (plain_under _ _ Hp Hn)))).
  intros [payload b] Hl. apply safe_Done. destruct (decode payload name) as [a|] eqn:E; [|done]. by eapply HQ.
Qed.

Lemma scoped_path_plain namespace all group resource path :
  plainb all = true → plainb group = true → safe_segment resource →
  scoped_path namespace all group resource = Ok path → plain_path path.
Proof.
  intros Ha%plainb_spec Hg%plainb_spec Hr. unfold scoped_path. case_bool_decide; [by intros [= <-]|].
  intros ([] & Hn%guard_Ok%negb_false_iff%validDNSLabel_safe & [= <-])%bind_Ok.
  apply plain_app; [done|]. apply (plain_app "/namespaces" ("/" +:+ namespace +:+ "/" +:+ resource)).
  - by apply plainb_spec.
  - apply (plain_under ("/" +:+ namespace)); [by apply plain_segment|done].
Qed.

(** What is read under the path of a collection. *)
Lemma scoped_safe {A} n namespace all group resource (k : string → fetch (result A)) Q :
  plainb all = true → plainb group = true → safe_segment resource →
  (∀ path, plain_path path → safe reading n (k path) (if_ok Q)) →
  safe reading n (path ←! Done (scoped_path namespace all group resource); k path) (if_ok Q).
Proof.
  intros Ha Hg Hr Hk. apply (safe_or_return reading 0 n _ _ plain_path); [|done].
  apply safe_Done. destruct (scoped_path _ _ _ _) as [path|] eqn:E; [|done].
  exact (scoped_path_plain _ _ _ _ _ Ha Hg Hr E).
Qed.

(** An item of the namespace that was asked for, if any was. *)
Definition in_scope (namespace found : string) : Prop := namespace = "" ∨ found = namespace.

Lemma scope_check namespace found e u :
  reject_if (negb (bool_decide (namespace = "")) && negb (bool_decide (found = namespace))) e = Ok u →
  in_scope namespace found.
Proof.
  rewrite reject_if_Ok, andb_false_iff, !negb_false_iff, !bool_decide_eq_true. by intros [?|?]; [left|right].
Qed.

Lemma named_item_spec {A} validate invalid (make : string → time → A) raw a :
  named_item validate invalid make raw = Ok a → ∃ name created, a = make name created ∧ validate name = Ok tt.
Proof.
  unfold named_item. intros (m & _ & (_ & Hv%reject_if_Ok & [= <-])%bind_Ok)%bind_Ok.
  do 2 eexists. split; [done|]. apply negb_false_iff in Hv. by destruct (validate _) as [[]|].
Qed.

Lemma is_cluster_object_name v k v' k' metadata name validate :
  is_cluster_object v k v' k' metadata name validate = true → metadata.(sourceMetadata.Name) = name ∧ is_ok (validate name) = true.
Proof.
  unfold is_cluster_object. rewrite !andb_true_iff, !bool_decide_eq_true. by intros [[[[[_ _] <-] _] _] ?].
Qed.

(** ** The newest of a list

    What the histories show: the items with the greatest keys, in descending order, and
    whether there are more. *)
Definition shown_newest {A} (key : A → Z) (maxResults : Z) (l shown older : list A) (truncated : bool) : Prop :=
  shown ++ older ≡ₚ l ∧
  StronglySorted (λ a b, key b < key a) shown ∧
  (∀ a b, a ∈ shown → b ∈ older → key b < key a) ∧
  len_list shown = Z.min maxResults (len_list l) ∧
  truncated = negb (bool_decide (older = [])).

Lemma sorted_descending {A} (key : A → Z) (less : A → A → bool) l :
  (∀ a b, less a b = (key b <? key a)) → NoDup (key <$> l) →
  StronglySorted (λ a b, key b < key a) (sort_Slice less l).
Proof.
  intros Hless Hn.
  assert (StrictWeak less) as Hw by (split; intros *; rewrite !Hless, ?Z.ltb_lt, ?Z.ltb_ge; lia).
  pose proof (sort_Slice_Sorted less l) as Hs. rewrite <-(sort_Slice_Permutation less l) in Hn. revert Hs Hn.
  induction (sort_Slice less l) as [|a xs IH]; intros Hs Hn; [constructor|].
  apply StronglySorted_inv in Hs as [Hs Ha]. cbn in Hn. apply NoDup_cons in Hn as [Hx Hn]. constructor; [by apply IH|].
  apply Forall_forall. intros x Hin. rewrite Forall_forall in Ha. specialize (Ha x Hin).
  unfold not_after in Ha. rewrite Hless in Ha. apply Z.ltb_ge in Ha.
  assert (key x ≠ key a); [|lia]. intros E. apply Hx. rewrite <-E. by apply list_elem_of_fmap_2.
Qed.

Lemma newest_shown {A} (key : A → Z) (less : A → A → bool) maxResults l :
  0 ≤ maxResults → (∀ a b, less a b = (key b <? key a)) → NoDup (key <$> l) →
  let s := sort_Slice less l in
  let truncated := maxResults <? len_list s in
  shown_newest key maxResults l (if truncated then take (Z.to_nat maxResults) s else s) (drop (Z.to_nat maxResults) s) truncated.
Proof.
  intros Hm Hless Hn. cbv zeta. pose proof (sorted_descending key less l Hless Hn) as Hs.
  pose proof (sort_Slice_Permutation less l) as Hp. pose proof (sort_Slice_length less l) as Hl.
  set (s := sort_Slice less l) in *.
  assert ((if maxResults <? len_list s then take (Z.to_nat maxResults) s else s) = take (Z.to_nat maxResults) s) as ->.
  { destruct (Z.ltb_spec maxResults (len_list s)); [done|]. rewrite take_ge; [done|]. unfold len_list in *. lia. }
  rewrite <-(take_drop (Z.to_nat maxResults) s) in Hs. apply StronglySorted_app in Hs as (Hc & Ht & _).
  unfold shown_newest, len_list in *.
  split_and!; [by rewrite take_drop|done|by intros a b; apply Hc| |].
  - rewrite length_take, Hl. lia.
  - destruct (Z.ltb_spec maxResults (Z.of_nat (length s))) as [H|H]; case_bool_decide as E; try done.
    + apply (f_equal length) in E. rewrite length_drop in E. cbn in E. lia.
    + exfalso. apply E. apply drop_ge. lia.
Qed.

(** ** Values that are seen once *)

Lemma reject_invalid_Ok (valid : bool) e u : reject_if (negb valid) e = Ok u → valid = true.
Proof. intros H%reject_if_Ok. by apply negb_false_iff. Qed.

Lemma each_once_Ok {A} (key : A → string) check duplicate then_ values seen seen' :
  each_once key check duplicate then_ values seen = Ok seen' →
  Forall (λ a, check a = Ok tt ∧ then_ a = Ok tt) values ∧ NoDup (key <$> values) ∧
  (∀ a, a ∈ values → key a ∉ seen) ∧ (∀ k, k ∈ seen' ↔ k ∈ key <$> values ∨ k ∈ seen).
Proof.
  revert seen. induction values as [|a values IH]; intros seen; cbn [each_once].
  { intros [= <-]. split_and!; [constructor|constructor|intros a Ha; by apply elem_of_nil in Ha|].
    intros k. rewrite elem_of_nil. tauto. }
  intros ([] & Hc & ([] & Hd%reject_if_Ok%bool_decide_eq_false & ([] & Ht & H%IH)%bind_Ok)%bind_Ok)%bind_Ok.
  destruct H as (Hf & Hn & Hs & He). rewrite fmap_cons. split_and!.
  - by constructor.
  - constructor; [|done]. intros (b & Hb & Hin)%list_elem_of_fmap. apply (Hs b Hin). rewrite Hb. set_solver.
  - intros b [->|Hb]%elem_of_cons; [done|]. specialize (Hs b Hb). set_solver.
  - intros k. rewrite He, elem_of_cons, elem_of_union, elem_of_singleton. tauto.
Qed.

Lemma distinct_values_Ok valid invalid duplicate values seen :
  distinct_values valid invalid duplicate values = Ok seen →
  Forall (λ v, valid v = true) values ∧ NoDup values ∧ (∀ v, v ∈ seen ↔ v ∈ values).
Proof.
  intros (Hf & Hn & _ & He)%each_once_Ok. rewrite list_fmap_id in Hn, He. split_and!.
  - eapply Forall_impl; [exact Hf|]. by intros v [Hv%reject_if_Ok%negb_false_iff _].
  - done.
  - intros v. rewrite He. set_solver.
Qed.
