(* ===== verification/VersionSkew.v ===== *)
(** * Versions of the nodes (src/internal/kubernetes/version_skew.go)

    How far the kubelets are behind the API server: the parser of versions, the
    policy, and the table of the nodes. *)

From S2P Require Export Paging.

Local Open Scope Z_scope.
Local Open Scope stdpp_scope.
Local Open Scope fetch_scope.
Local Open Scope json_scope.

Import Json.

Definition nodeVersionTablePageSize : string := "250".
Definition nodeVersionMaxTablePages : nat := 4.
Definition nodeVersionMaxTableItems : Z := 1000.
Definition nodeVersionMaxPageBytes : Z := 1024 * 1024.
Definition nodeVersionMaxTableBytes : Z := 2 * 1024 * 1024.
Definition nodeVersionMaxVersionResponseBytes : Z := 64 * 1024.
Definition nodeVersionMaxContinuationBytes : Z := 16 * 1024.
Definition nodeVersionMaxVersionBytes : Z := 128.
Definition nodeVersionMaxNumericPart : Z := 65535.

(** ** Versions *)

Module kubernetesComponentVersion.
Record t : Type := mk { Major : Z; Minor : Z; Patch : Z }.
End kubernetesComponentVersion.
Notation kubernetesComponentVersion := kubernetesComponentVersion.t.
Import kubernetesComponentVersion(Major, Minor, Patch).

(** [parseVersionNumber value start], with the rest of the value instead of an index:
    the number and what follows it. *)
Definition parseVersionNumber (value : string) : option (Z * string) :=
  let '(number, rest) := digits value in
  if bool_decide (number = "") || ((1 <? len number) && HasPrefix number "0") then None else
  parsed ← ParseUint number 16;
  if nodeVersionMaxNumericPart <? parsed then None else Some (parsed, rest).

Definition identifier_rune (character : Z) : bool :=
  ((97 <=? character) && (character <=? 122)) || ((65 <=? character) && (character <=? 90)) ||
  ((48 <=? character) && (character <=? 57)) || (character =? 45).

Definition validVersionIdentifiers (value : string) : bool :=
  negb (bool_decide (value = "")) &&
  forallb (λ identifier, negb (bool_decide (identifier = "")) && forallb identifier_rune (runes identifier))
    (GoText.Split value ".").

Definition validKubernetesVersionSuffix (value : string) : bool :=
  match value with
  | "" => true
  | String "+" build => validVersionIdentifiers build
  | String "-" rest =>
      let '(prerelease, build, hasBuild) := Cut rest "+" in
      validVersionIdentifiers prerelease && (negb hasBuild || validVersionIdentifiers build)
  | _ => false
  end.

(** A number and the dot after it. *)
Definition number_dot (value : string) : option (Z * string) :=
  '(n, rest) ← parseVersionNumber value;
  match rest with String "." rest => Some (n, rest) | _ => None end.

Definition parseKubernetesComponentVersion (value : string) : option kubernetesComponentVersion :=
  if (len value <? 6) || (nodeVersionMaxVersionBytes <? len value) then None else
  match value with
  | String "v" rest =>
      '(major, rest) ← number_dot rest;
      '(minor, rest) ← number_dot rest;
      '(patch, suffix) ← parseVersionNumber rest;
      if validKubernetesVersionSuffix suffix
      then Some (kubernetesComponentVersion.mk major minor patch) else None
  | _ => None
  end.

(** ** The policy *)

Definition maximum_minor_skew (kubelet : kubernetesComponentVersion) : Z :=
  if (kubelet.(Major) <? 1) || ((kubelet.(Major) =? 1) && (kubelet.(Minor) <? 25)) then 2 else 3.

Definition classifyNodeVersion (name kubeletVersionText : string)
    (apiServerVersion kubeletVersion : kubernetesComponentVersion) : KubernetesNodeVersionSkew :=
  if negb (apiServerVersion.(Major) =? kubeletVersion.(Major)) then
    KubernetesNodeVersionSkew.mk name kubeletVersionText NodeVersionMajorMismatch 0 0 false
  else
    let maximumMinorSkew := maximum_minor_skew kubeletVersion in
    let minorSkew := apiServerVersion.(Minor) - kubeletVersion.(Minor) in
    KubernetesNodeVersionSkew.mk name kubeletVersionText
      (if minorSkew <? 0 then NodeVersionNewerThanServer
       else if minorSkew =? 0 then NodeVersionSameMinor
       else if maximumMinorSkew <? minorSkew then NodeVersionOutsidePolicy
       else if minorSkew =? maximumMinorSkew then NodeVersionUpgradeBlocking
       else NodeVersionWithinPolicy)
      minorSkew maximumMinorSkew true.

(** ** The table of the nodes *)

Definition column_type (columns : list column) (index : Z) : string :=
  default "" (snd <$> columns !! Z.to_nat index).

Definition nodeVersionTableColumns (columns : list column) : result (Z * Z) :=
  reject_if (negb (forallb (λ column, validTableString column.1 && validTableString column.2) columns))
    (upstream "invalid Kubernetes node version table column") ;;
  nameColumn ← configurationTableColumn columns "Name";
  versionColumn ← configurationTableColumn columns "Version";
  reject_if (negb (bool_decide (column_type columns nameColumn = "string")) ||
             negb (bool_decide (column_type columns versionColumn = "string")))
    (upstream "invalid Kubernetes node version table column type") ;;
  Ok (nameColumn, versionColumn).

Definition nodeVersionStringCell (raw : RawMessage) (maxBytes : Z) : result string :=
  value ← expect_ok (upstream "invalid Kubernetes node version table cell") (Unmarshal string_ raw);
  reject_if (bool_decide (value = "") || (maxBytes <? len value) || negb (clean value))
    (upstream "invalid Kubernetes node version table cell") ;;
  Ok value.

Definition emptyTableRowObject (raw : RawMessage) : bool :=
  let trimmed := TrimSpace raw in bool_decide (trimmed = "") || bool_decide (trimmed = "null").

Definition decodeNodeVersionTableRow (row : kubernetesTableRow) (columnCount nameColumn versionColumn : Z)
    (apiServerVersion : kubernetesComponentVersion) : result KubernetesNodeVersionSkew :=
  let cells := len_list row.(kubernetesTableRow.Cells) in
  reject_if (negb (cells =? columnCount) || (cells =? 0) || (maxTableColumns <? cells) ||
             (cells <=? nameColumn) || (cells <=? versionColumn) ||
             negb (emptyTableRowObject row.(kubernetesTableRow.Object)))
    (upstream "invalid Kubernetes node version table row") ;;
  name ← match nodeVersionStringCell (cell row nameColumn) 253 with
         | Ok name => if is_ok (ValidateNodeName name) then Ok name
                      else Err (upstream "invalid Kubernetes node version name")
         | Err _ => Err (upstream "invalid Kubernetes node version name")
         end;
  kubeletVersionText ← nodeVersionStringCell (cell row versionColumn) nodeVersionMaxVersionBytes;
  kubeletVersion ← expect_ok (upstream "invalid Kubernetes Kubelet version")
    (parseKubernetesComponentVersion kubeletVersionText);
  Ok (classifyNodeVersion name kubeletVersionText apiServerVersion kubeletVersion).

Definition validNodeVersionContinuation : string → bool := valid_continue nodeVersionMaxContinuationBytes.

Definition node_version_pager : pager := {|
  pager.query := {[ "includeObject" := "None"; "limit" := nodeVersionTablePageSize ]};
  pager.accept := kubernetesTableAccept;
  pager.maxPages := nodeVersionMaxTablePages;
  pager.maxListBytes := nodeVersionMaxTableBytes;
  pager.maxPageBytes := nodeVersionMaxPageBytes;
  pager.bytes := pager.CheckRoom;
  pager.validContinue := validNodeVersionContinuation;
  pager.refusesRepeated := true;
  pager.full := Some nodeVersionMaxTableItems;
  pager.byteLimit := "Kubernetes node version table exceeded safe byte limit";
  pager.pageLimit := "Kubernetes node version table exceeded safe page limit";
  pager.badToken := "invalid Kubernetes node version continuation token";
  pager.repeatedToken := "repeated Kubernetes node version continuation token";
  pager.itemLimit := "Kubernetes node version table exceeded safe item limit";
|}.

Definition node_version_page (apiServerVersion : kubernetesComponentVersion) :
    string → list KubernetesNodeVersionSkew → result (string * list KubernetesNodeVersionSkew) :=
  rows_page (mkTexts "decode Kubernetes node version table" "unsupported Kubernetes node version table"
      "Kubernetes node version table exceeded safe item limit")
    nodeVersionMaxTableItems
    (λ columns, '(nameColumn, versionColumn) ← nodeVersionTableColumns columns;
       Ok (len_list columns, nameColumn, versionColumn))
    (λ '(columnCount, nameColumn, versionColumn), new_items
       (λ row, decodeNodeVersionTableRow row columnCount nameColumn versionColumn apiServerVersion)
       KubernetesNodeVersionSkew.Name "duplicate Kubernetes node version row").

Section node_versions.
Context (token : string).

Definition observedAPIServerVersion : fetch (result (string * kubernetesComponentVersion)) :=
  '(payload, _) ←! getPayload token "/version" None "application/json" nodeVersionMaxVersionResponseBytes false;
  gitVersion ←! Done (expect_ok (upstream "decode Kubernetes API Server version")
    (Unmarshal (struct (field "gitVersion" string_)) payload));
  version ←! Done (expect_ok (upstream "invalid Kubernetes API Server version")
    (parseKubernetesComponentVersion gitVersion));
  Done (Ok (gitVersion, version)).

Definition listNodeVersionSkewTable (apiServerVersion : kubernetesComponentVersion) :
    fetch (result (list KubernetesNodeVersionSkew)) :=
  items ←! all_pages token node_version_pager (node_version_page apiServerVersion) "/api/v1/nodes";
  Done (Ok (sort_Slice (by_name KubernetesNodeVersionSkew.Name) items)).

Definition NodeVersionSkew : fetch (result KubernetesNodeVersionSkewReport) :=
  '(apiServerVersion, parsedAPIServerVersion) ←! observedAPIServerVersion;
  nodes ←! listNodeVersionSkewTable parsedAPIServerVersion;
  Done (Ok (KubernetesNodeVersionSkewReport.mk apiServerVersion nodes)).
End node_versions.

(** ** The versions that are understood *)

Definition starts_with_digit (s : string) : bool := match s with String c _ => is_digit c | "" => false end.

Lemma digits_spec s d rest :
  digits s = (d, rest) ↔ s = d +:+ rest ∧ all_bytes is_digit d = true ∧ starts_with_digit rest = false.
Proof.
  revert d rest. induction s as [|c s IH]; intros d rest.
  - split; [by intros [= <- <-]|]. intros (H & _ & _). by destruct d, rest.
  - cbn [digits]. destruct (is_digit c) eqn:Hc.
    + destruct (digits s) as [d' r'] eqn:E. split.
      * intros [= <- <-]. destruct (proj1 (IH d' r') eq_refl) as (-> & ? & ?). rewrite app_cons. cbn. by rewrite Hc.
      * destruct d as [|c' d]; [intros (Hs & _ & Hr); rewrite app_empty_l in Hs; subst; cbn in Hr; congruence|]. rewrite app_cons.
        intros ([= <- Hs] & Hd & Hr). cbn in Hd. apply andb_true_iff in Hd as [_ Hd].
        assert ((d', r') = (d, rest)) as [= -> ->]; [|done]. by apply IH.
    + split; [intros [= <- <-]; by rewrite app_empty_l|]. intros (Hs & Hd & Hr).
      destruct d as [|c' d]; [by rewrite app_empty_l in Hs; subst|]. rewrite app_cons in Hs.
      injection Hs as -> _. cbn in Hd. by rewrite Hc in Hd.
Qed.

Lemma parseVersionNumber_spec value n rest :
  parseVersionNumber value = Some (n, rest) ↔
    value = FormatUint n +:+ rest ∧ 0 ≤ n ≤ nodeVersionMaxNumericPart ∧ starts_with_digit rest = false.
Proof.
  unfold parseVersionNumber, nodeVersionMaxNumericPart. split.
  - destruct (digits value) as [d r] eqn:E. apply digits_spec in E as (-> & Hd & Hr).
    destruct (bool_decide _ || _) eqn:Hc; [done|]. intros (m & Hm & H)%bind_Some.
    destruct (Z.ltb_spec 65535 m); [done|]. injection H as -> ->.
    apply ParseUint_Some in Hm as (Hne & _ & Hv & Hn). split_and!; [f_equal|lia|lia|done].
    destruct (FormatUint_spec n ltac:(lia)) as (_ & _ & Hf & _). eapply canonical_inj; [|apply canonical_FormatUint; lia|done..].
    unfold canonical. apply orb_false_iff in Hc as [-> ->]. done.
  - intros (-> & Hn & Hr). destruct (FormatUint_spec n ltac:(lia)) as (Hne & Hd & Hv & _).
    assert (digits (FormatUint n +:+ rest) = (FormatUint n, rest)) as -> by by apply digits_spec.
    pose proof (canonical_FormatUint n ltac:(lia)) as Hc. unfold canonical in Hc.
    rewrite <-negb_orb in Hc. apply negb_true_iff in Hc. rewrite Hc.
    rewrite ParseUint_FormatUint by lia. cbn. rewrite (proj2 (Z.ltb_ge _ _)) by lia. done.
Qed.

Lemma number_dot_spec value n rest :
  number_dot value = Some (n, rest) ↔
    value = FormatUint n +:+ "." +:+ rest ∧ 0 ≤ n ≤ nodeVersionMaxNumericPart.
Proof.
  unfold number_dot. split.
  - intros ([m r] & (-> & Hm & Hr)%parseVersionNumber_spec & H)%bind_Some.
    destruct r as [|[[] [] [] [] [] [] [] []] r]; try done. by injection H as -> ->.
  - intros [-> Hn]. rewrite (proj2 (parseVersionNumber_spec _ n ("." +:+ rest))); [done|]. done.
Qed.

Lemma validKubernetesVersionSuffix_start suffix :
  validKubernetesVersionSuffix suffix = true → starts_with_digit suffix = false.
Proof. by destruct suffix as [|[[] [] [] [] [] [] [] []] suffix]. Qed.

(** A version is what is printed of it, and a suffix. *)
Definition version_text (v : kubernetesComponentVersion) (suffix : string) : string :=
  "v" +:+ FormatUint v.(Major) +:+ "." +:+ FormatUint v.(Minor) +:+ "." +:+ FormatUint v.(Patch) +:+ suffix.

Definition version_bounds (v : kubernetesComponentVersion) : Prop :=
  0 ≤ v.(Major) ≤ nodeVersionMaxNumericPart ∧ 0 ≤ v.(Minor) ≤ nodeVersionMaxNumericPart ∧
  0 ≤ v.(Patch) ≤ nodeVersionMaxNumericPart.

Lemma version_text_len v suffix : version_bounds v → 6 ≤ len (version_text v suffix).
Proof.
  intros (H1 & H2 & H3). unfold version_text. rewrite !len_app.
  pose proof (len_FormatUint _ (proj1 H1)). pose proof (len_FormatUint _ (proj1 H2)).
  pose proof (len_FormatUint _ (proj1 H3)). pose proof (len_nonneg suffix).
  change (len "v") with 1. change (len ".") with 1. lia.
Qed.

(** C33: The versions that are understood are exactly the texts a version is printed as:
    "v", three numbers of 16 bits without leading zeros, and a suffix of a prerelease or
    a build or nothing, in at most 128 bytes; parsing undoes printing and two versions
    are never printed alike. *)
Theorem parseKubernetesComponentVersion_correct value v :
  parseKubernetesComponentVersion value = Some v ↔
    ∃ suffix, value = version_text v suffix ∧ version_bounds v ∧
      validKubernetesVersionSuffix suffix = true ∧ len value ≤ nodeVersionMaxVersionBytes.
Proof.
  unfold parseKubernetesComponentVersion. split.
  - destruct (_ || _) eqn:Hl; [done|]. apply orb_false_iff in Hl as [_ Hl%Z.ltb_ge].
    destruct value as [|[[] [] [] [] [] [] [] []] rest]; try done.
    intros ([major r1] & [-> H1]%number_dot_spec & ([minor r2] & [-> H2]%number_dot_spec &
      ([patch suffix] & (-> & H3 & _)%parseVersionNumber_spec & H)%bind_Some)%bind_Some)%bind_Some.
    destruct (validKubernetesVersionSuffix suffix) eqn:Hs; [|done]. injection H as <-.
    by exists suffix.
  - intros (suffix & -> & Hb & Hs & Hl). pose proof (version_text_len v suffix Hb).
    rewrite (proj2 (Z.ltb_ge _ _)), (proj2 (Z.ltb_ge _ _)) by lia. cbn [orb].
    destruct Hb as (H1 & H2 & H3). unfold version_text. rewrite app_cons, app_empty_l.
    rewrite (proj2 (number_dot_spec _ _ _)) by done. cbn.
    rewrite (proj2 (number_dot_spec _ _ _)) by done. cbn.
    rewrite (proj2 (parseVersionNumber_spec _ _ suffix)) by eauto using validKubernetesVersionSuffix_start. cbn.
    rewrite Hs. by destruct v.
Qed.

(** ** The policy, as Kubernetes states it

    A kubelet may be as new as the API server, and three minor versions older, two
    before 1.25. *)
Definition supported (apiServer kubelet : kubernetesComponentVersion) : Prop :=
  apiServer.(Major) = kubelet.(Major) ∧
  kubelet.(Minor) ≤ apiServer.(Minor) ≤ kubelet.(Minor) + maximum_minor_skew kubelet.

(** The API server after its next upgrade. *)
Definition next_minor (v : kubernetesComponentVersion) : kubernetesComponentVersion :=
  kubernetesComponentVersion.mk v.(Major) (v.(Minor) + 1) 0.

Lemma maximum_minor_skew_pos v : 2 ≤ maximum_minor_skew v ≤ 3.
Proof. unfold maximum_minor_skew. destruct (_ || _); lia. Qed.

(** A branch of the classification is the status it names, and no other. *)
Local Ltac policy_case :=
  split_and!; split; intros; try done; try (by left); try (by right);
  try (destruct_or?; discriminate); try (exfalso; lia); lia.

(** The status of a node follows from the version skew policy alone: a node is
    reported as blocking an upgrade exactly when the API server supports it now and will
    not after its next minor version, as within the policy (or of the same minor) exactly
    when it is supported before and after, and otherwise as newer than the server, outside
    of the policy or of another major version, whichever of these it is. *)
Theorem classifyNodeVersion_policy name kubeletVersionText apiServer kubelet :
  let status := (classifyNodeVersion name kubeletVersionText apiServer kubelet).(KubernetesNodeVersionSkew.Status) in
  (status = NodeVersionUpgradeBlocking ↔ supported apiServer kubelet ∧ ¬ supported (next_minor apiServer) kubelet) ∧
  (status = NodeVersionSameMinor ∨ status = NodeVersionWithinPolicy ↔
    supported apiServer kubelet ∧ supported (next_minor apiServer) kubelet) ∧
  (status = NodeVersionSameMinor ↔ apiServer.(Major) = kubelet.(Major) ∧ apiServer.(Minor) = kubelet.(Minor)) ∧
  (status = NodeVersionNewerThanServer ↔
    apiServer.(Major) = kubelet.(Major) ∧ apiServer.(Minor) < kubelet.(Minor)) ∧
  (status = NodeVersionOutsidePolicy ↔
    apiServer.(Major) = kubelet.(Major) ∧ kubelet.(Minor) + maximum_minor_skew kubelet < apiServer.(Minor)) ∧
  (status = NodeVersionMajorMismatch ↔ apiServer.(Major) ≠ kubelet.(Major)).
Proof.
  cbv zeta. unfold classifyNodeVersion, supported, next_minor. cbn [kubernetesComponentVersion.Major kubernetesComponentVersion.Minor].
  pose proof (maximum_minor_skew_pos kubelet).
  destruct (Z.eqb_spec (Major apiServer) (Major kubelet)); cbn [negb];
    [|cbn [KubernetesNodeVersionSkew.Status]; policy_case].
  cbv zeta. cbn [KubernetesNodeVersionSkew.Status].
  destruct (Z.ltb_spec (Minor apiServer - Minor kubelet) 0); [|destruct (Z.eqb_spec (Minor apiServer - Minor kubelet) 0);
    [|destruct (Z.ltb_spec (maximum_minor_skew kubelet) (Minor apiServer - Minor kubelet));
    [|destruct (Z.eqb_spec (Minor apiServer - Minor kubelet) (maximum_minor_skew kubelet))]]];
    policy_case.
Qed.

(** ** The report *)

(** What a row of the table is reported as. *)
Definition reported (apiServer : kubernetesComponentVersion) (node : KubernetesNodeVersionSkew) : Prop :=
  ∃ kubelet, parseKubernetesComponentVersion node.(KubernetesNodeVersionSkew.KubeletVersion) = Some kubelet ∧
    node = classifyNodeVersion node.(KubernetesNodeVersionSkew.Name)
      node.(KubernetesNodeVersionSkew.KubeletVersion) apiServer kubelet ∧
    is_ok (ValidateNodeName node.(KubernetesNodeVersionSkew.Name)) = true.

Lemma decodeNodeVersionTableRow_reported row n i j apiServer node :
  decodeNodeVersionTableRow row n i j apiServer = Ok node → reported apiServer node.
Proof.
  unfold decodeNodeVersionTableRow. intros (_ & _ & (name & Hname & (t & _ & (k & Hk & [= <-])%bind_Ok)%bind_Ok)%bind_Ok)%bind_Ok.
  unfold expect_ok in Hk. destruct (parseKubernetesComponentVersion t) as [k'|] eqn:Hp; [|done]. injection Hk as ->.
  assert (is_ok (ValidateNodeName name) = true).
  { destruct (nodeVersionStringCell _ _); [|done]. destruct (is_ok _) eqn:E; [|done]. by injection Hname as <-. }
  assert ((classifyNodeVersion name t apiServer k).(KubernetesNodeVersionSkew.Name) = name ∧
    (classifyNodeVersion name t apiServer k).(KubernetesNodeVersionSkew.KubeletVersion) = t) as [En Et].
  { unfold classifyNodeVersion. by destruct (negb _). }
  exists k. by rewrite En, Et.
Qed.

Lemma listNodeVersionSkewTable_safe token apiServer :
  safe reading 4 (listNodeVersionSkewTable token apiServer)
    (if_ok (listed 1000 KubernetesNodeVersionSkew.Name (reported apiServer))).
Proof.
  apply (listed_pages_safe token node_version_pager); [done| |done..].
  apply rows_page_keeps. intros [[n i] j]. apply new_items_keeps. intros row a.
  apply decodeNodeVersionTableRow_reported.
Qed.

(** The report on the versions of the nodes is bounded and consistent, whatever the
    server answers: it costs at most five requests, which only read, and holds at most
    1000 nodes in the order of their names, no name twice, each with a valid name, a
    version that is understood and the status that the policy gives for it and the
    API server's version that the report itself shows. *)
Theorem NodeVersionSkew_consistent token :
  safe reading 5 (NodeVersionSkew token) (if_ok (λ report, ∃ apiServer,
    parseKubernetesComponentVersion report.(KubernetesNodeVersionSkewReport.APIServerVersion) = Some apiServer ∧
    listed 1000 KubernetesNodeVersionSkew.Name (reported apiServer)
      report.(KubernetesNodeVersionSkewReport.Nodes))).
Proof.
  unfold NodeVersionSkew. eapply (safe_or_return reading 1 4 _ _ (λ x, parseKubernetesComponentVersion x.1 = Some x.2)).
  - unfold observedAPIServerVersion. eapply (safe_or_return reading 1 0 _ _ (λ _, True)).
    + eapply safe_weaken; [apply getPayload_safe; [done|by apply reading_get, plainb_spec]|done..|by intros []].
    + intros [payload b] _. destruct (Unmarshal _ payload) as [version|]; [|done]. cbn.
      by destruct (parseKubernetesComponentVersion version) eqn:E.
  - intros [text apiServer] H. cbn in H. eapply (safe_or_return reading 4 0); [apply listNodeVersionSkewTable_safe|].
    intros nodes Hn. apply safe_Done. cbn. eauto.
Qed.
