(* ===== verification/Metadata.v ===== *)
(** * Lists of metadata (src/internal/kubernetes)

    The readers that ask for the metadata of objects and nothing else: the Pod Security
    Admission labels of the namespaces (pod_security_admission.go), the revisions of a
    Helm release (helm_release_history.go), and the CSI drivers, priority classes and
    runtime classes with the reader of one of them (csi_driver.go, priority_class.go,
    runtime_class.go). *)

From S2P Require Import Decoding.
From S2P Require Export Paging.

Local Open Scope Z_scope.
Local Open Scope stdpp_scope.
Local Open Scope fetch_scope.
Local Open Scope json_scope.

Import Json.

(** ** Pod Security Admission (pod_security_admission.go) *)

Definition podSecurityAdmissionListPageSize : string := "250".
Definition maxPodSecurityAdmissionListPages : nat := 4.
Definition maxPodSecurityAdmissionListItems : Z := 1000.
Definition maxPodSecurityAdmissionPageBytes : Z := 2 * 1024 * 1024.
Definition maxPodSecurityAdmissionListBytes : Z := 4 * 1024 * 1024.
Definition maxPodSecurityAdmissionContinueBytes : Z := 16 * 1024.
Definition maxPodSecurityAdmissionLabelsPerNamespace : Z := 256.

Definition podSecurityAdmissionLabelPrefix : string := "pod-security.kubernetes.io/".
Definition podSecurityAdmissionEnforce : string := "enforce".
Definition podSecurityAdmissionAudit : string := "audit".
Definition podSecurityAdmissionWarn : string := "warn".

Module podSecurityAdmissionMetadata.
Record t : Type := mk { Name : string; Labels : gmap string RawMessage; CreationTimestamp : time }.
End podSecurityAdmissionMetadata.
Notation podSecurityAdmissionMetadata := podSecurityAdmissionMetadata.t.

Definition podSecurityAdmission_envelope : decoder (string * string * (string * string * gmap string RawMessage * time)) :=
  struct (field "apiVersion" string_ ⊗ field "kind" string_ ⊗
    field "metadata" (struct (field "name" string_ ⊗ field "namespace" string_ ⊗
      field "labels" (map_ raw_message) ⊗ field "creationTimestamp" time_))).

Definition decodePodSecurityAdmissionMetadata (raw : RawMessage) : result podSecurityAdmissionMetadata :=
  metadata_only raw "decode Kubernetes Pod Security Admission metadata"
    "unsafe Kubernetes Pod Security Admission metadata object" ;;
  '(apiVersion, kind, (name, namespace, labels, created)) ←
    expect_ok (upstream "unsupported Kubernetes Pod Security Admission metadata object")
      (Unmarshal podSecurityAdmission_envelope raw);
  reject_if (negb (bool_decide (apiVersion = "meta.k8s.io/v1")) ||
             negb (bool_decide (kind = "PartialObjectMetadata")))
    (upstream "unsupported Kubernetes Pod Security Admission metadata object") ;;
  reject_if (negb (is_ok (ValidateNamespace name)) || negb (bool_decide (namespace = "")) || IsZero created)
    (upstream "invalid Kubernetes Pod Security Admission namespace identity") ;;
  reject_if (maxPodSecurityAdmissionLabelsPerNamespace <? Z.of_nat (size labels))
    (upstream "Kubernetes Pod Security Admission metadata exceeded safe label limit") ;;
  Ok (podSecurityAdmissionMetadata.mk name labels created).

(** The value of a label: whether it is there, and its text unless it is none. *)
Definition podSecurityAdmissionLabel (labels : gmap string RawMessage) (key : string) : option (option string) :=
  Unmarshal string_ <$> labels !! key.

Definition validPodSecurityAdmissionLevel (value : string) : bool :=
  bool_decide (value = "privileged") || bool_decide (value = "baseline") || bool_decide (value = "restricted").

Definition validPodSecurityAdmissionVersion (value : string) : bool :=
  bool_decide (value = "latest") ||
  (negb ((len value <? 4) || (16 <? len value) || negb (HasPrefix value "v1.")) &&
   let minor := drop_bytes 3 value in
   negb ((1 <? len minor) && HasPrefix minor "0") && all_bytes is_digit minor).

Definition invalid_mode : KubernetesPodSecurityAdmissionMode :=
  KubernetesPodSecurityAdmissionMode.mk PodSecurityAdmissionModeInvalid "" "" false.

Definition projectPodSecurityAdmissionMode (labels : gmap string RawMessage) (mode : string) :
    KubernetesPodSecurityAdmissionMode :=
  let level := podSecurityAdmissionLabel labels (podSecurityAdmissionLabelPrefix +:+ mode) in
  let version := podSecurityAdmissionLabel labels (podSecurityAdmissionLabelPrefix +:+ mode +:+ "-version") in
  match level, version with
  | Some None, _ | _, Some None => invalid_mode
  | None, None => KubernetesPodSecurityAdmissionMode.mk PodSecurityAdmissionModeInherited "" "" false
  | None, Some (Some _) => invalid_mode
  | Some (Some level), None =>
      if negb (validPodSecurityAdmissionLevel level) then invalid_mode
      else KubernetesPodSecurityAdmissionMode.mk PodSecurityAdmissionModeConfigured level "latest" true
  | Some (Some level), Some (Some version) =>
      if negb (validPodSecurityAdmissionLevel level) then invalid_mode
      else if negb (validPodSecurityAdmissionVersion version) then invalid_mode
      else KubernetesPodSecurityAdmissionMode.mk PodSecurityAdmissionModeConfigured level version false
  end.

Definition projectPodSecurityAdmissionNamespace (metadata : podSecurityAdmissionMetadata) :
    KubernetesPodSecurityAdmissionNamespace :=
  let labels := metadata.(podSecurityAdmissionMetadata.Labels) in
  let enforce := projectPodSecurityAdmissionMode labels podSecurityAdmissionEnforce in
  let audit := projectPodSecurityAdmissionMode labels podSecurityAdmissionAudit in
  let warn := projectPodSecurityAdmissionMode labels podSecurityAdmissionWarn in
  KubernetesPodSecurityAdmissionNamespace.mk metadata.(podSecurityAdmissionMetadata.Name) enforce audit warn
    (len_list (filter (λ mode, mode.(KubernetesPodSecurityAdmissionMode.Status) = PodSecurityAdmissionModeInvalid)
      [enforce; audit; warn]))
    metadata.(podSecurityAdmissionMetadata.CreationTimestamp).

Definition validPodSecurityAdmissionContinuation : string → bool :=
  valid_continue maxPodSecurityAdmissionContinueBytes.

Definition pod_security_pager : pager := {|
  pager.query := {[ "limit" := podSecurityAdmissionListPageSize ]};
  pager.accept := kubernetesPartialMetadataListAccept;
  pager.maxPages := maxPodSecurityAdmissionListPages;
  pager.maxListBytes := maxPodSecurityAdmissionListBytes;
  pager.maxPageBytes := maxPodSecurityAdmissionPageBytes;
  pager.bytes := pager.CheckRoom;
  pager.validContinue := validPodSecurityAdmissionContinuation;
  pager.refusesRepeated := true;
  pager.full := Some maxPodSecurityAdmissionListItems;
  pager.byteLimit := "Kubernetes Pod Security Admission list exceeded safe byte limit";
  pager.pageLimit := "Kubernetes Pod Security Admission list exceeded safe page limit";
  pager.badToken := "invalid Kubernetes Pod Security Admission continuation token";
  pager.repeatedToken := "repeated Kubernetes Pod Security Admission continuation token";
  pager.itemLimit := "Kubernetes Pod Security Admission list exceeded safe item limit";
|}.

Definition pod_security_page :=
  metadata_page (page_texts_of "Kubernetes Pod Security Admission" "metadata list")
    maxPodSecurityAdmissionListItems
    (new_items (λ raw, projectPodSecurityAdmissionNamespace <$> decodePodSecurityAdmissionMetadata raw)
       KubernetesPodSecurityAdmissionNamespace.Name "duplicate Kubernetes Pod Security Admission namespace").

(** ** The revisions of a Helm release (helm_release_history.go) *)

Definition helmReleaseHistoryPageSize : string := "50".
Definition helmReleaseHistoryMaxPages : nat := 4.
Definition helmReleaseHistoryMaxItems : Z := 200.
Definition helmReleaseHistoryMaxResults : Z := 10.
Definition helmReleaseHistoryMaxContinueBytes : Z := 16 * 1024.
Definition helmReleaseHistoryMaxBytes : Z := 2 * 1024 * 1024.

Definition helmReleaseMetadata : decoder (string * string * (string * string * time * gmap string string)) :=
  struct (field "apiVersion" string_ ⊗ field "kind" string_ ⊗
    field "metadata" (struct (field "name" string_ ⊗ field "namespace" string_ ⊗
      field "creationTimestamp" time_ ⊗ field "labels" (map_ string_)))).

Definition validHelmReleaseStatus (status : string) : bool :=
  bool_decide (status ∈ ["unknown"; "deployed"; "uninstalled"; "superseded"; "failed"; "uninstalling";
    "pending-install"; "pending-upgrade"; "pending-rollback"]).

Definition label (labels : gmap string string) (name : string) : string := default "" (labels !! name).

Definition decodeHelmReleaseRevision (namespace releaseName : string) (raw : RawMessage) :
    result HelmReleaseRevision :=
  metadata_only raw "decode Helm release metadata" "unsafe Helm release metadata" ;;
  '(apiVersion, kind, (name, metadataNamespace, created, labels)) ←
    expect_ok (upstream "invalid Helm release metadata identity") (Unmarshal helmReleaseMetadata raw);
  reject_if (negb (bool_decide (apiVersion = "meta.k8s.io/v1")) ||
             negb (bool_decide (kind = "PartialObjectMetadata")) ||
             negb (bool_decide (metadataNamespace = namespace)) || IsZero created)
    (upstream "invalid Helm release metadata identity") ;;
  reject_if (negb (bool_decide (label labels "owner" = "helm")) ||
             negb (bool_decide (label labels "name" = releaseName)))
    (upstream "invalid Helm release metadata labels") ;;
  revision ← expect_ok (upstream "invalid Helm release revision") (ParseInt (label labels "version") 32);
  reject_if (revision <=? 0) (upstream "invalid Helm release revision") ;;
  reject_if (negb (bool_decide (name = "sh.helm.release.v1." +:+ releaseName +:+ ".v" +:+ FormatInt revision)))
    (upstream "invalid Helm release storage identity") ;;
  let status := label labels "status" in
  reject_if (negb (validHelmReleaseStatus status)) (upstream "invalid Helm release status") ;;
  Ok (HelmReleaseRevision.mk revision status created).

Definition revision_less (a b : HelmReleaseRevision) : bool :=
  b.(HelmReleaseRevision.Revision) <? a.(HelmReleaseRevision.Revision).

Definition boundedHelmReleaseHistory (namespace releaseName : string) (revisions : list HelmReleaseRevision) :
    HelmReleaseHistory :=
  let revisions := sort_Slice revision_less revisions in
  let truncated := helmReleaseHistoryMaxResults <? len_list revisions in
  HelmReleaseHistory.mk releaseName namespace
    (if truncated then take (Z.to_nat helmReleaseHistoryMaxResults) revisions else revisions) truncated.

Definition validHelmReleaseHistoryContinuation : string → bool := valid_continue helmReleaseHistoryMaxContinueBytes.

Definition helm_history_pager (releaseName : string) : pager := {|
  pager.query := {[ "limit" := helmReleaseHistoryPageSize;
                    "labelSelector" := "owner=helm,name=" +:+ releaseName ]};
  pager.accept := kubernetesPartialMetadataListAccept;
  pager.maxPages := helmReleaseHistoryMaxPages;
  pager.maxListBytes := helmReleaseHistoryMaxBytes;
  pager.maxPageBytes := helmReleaseHistoryMaxBytes;
  pager.bytes := pager.CheckRoom;
  pager.validContinue := validHelmReleaseHistoryContinuation;
  pager.refusesRepeated := true;
  pager.full := None;
  pager.byteLimit := "Helm release history exceeded safe byte limit";
  pager.pageLimit := "Helm release history exceeded safe page limit";
  pager.badToken := "invalid Helm release history continuation token";
  pager.repeatedToken := "repeated Helm release history continuation token";
  pager.itemLimit := "";
|}.

(** Revisions are distinguished by their number, which its decimal text stands for. *)
Definition revision_key (revision : HelmReleaseRevision) : string :=
  FormatInt revision.(HelmReleaseRevision.Revision).

Definition helm_history_page (namespace releaseName : string) :=
  metadata_page
    (mkTexts "decode Helm release metadata list" "unsupported Helm release metadata list"
      "Helm release history exceeded safe item limit")
    helmReleaseHistoryMaxItems
    (new_items (decodeHelmReleaseRevision namespace releaseName) revision_key
       "duplicate Helm release revision metadata").

(** ** CSI drivers (csi_driver.go) *)

Definition csiDriverCollectionPath : string := "/apis/storage.k8s.io/v1/csidrivers".
Definition csiDriverListPageSize : string := "250".
Definition csiDriverMaxListPages : nat := 4.
Definition csiDriverMaxListItems : Z := 1000.
Definition csiDriverMaxListBytes : Z := 4 * 1024 * 1024.
Definition csiDriverMaxDetailBytes : Z := 1024 * 1024.
Definition csiDriverMaxContinueBytes : Z := 16 * 1024.
Definition csiDriverMaxTokenRequests : Z := 32.

(** [UnmarshalJSON] of the structs that only count objects: any object, and nothing is kept. *)
Definition counted_object : decoder unit := λ old _ v, match v with Object _ => Some old | _ => None end.

Definition csiDriverTokenRequestSource : decoder unit := counted_object.

Module csiDriverSource.
Record t : Type := mk {
  APIVersion : string;
  Kind : string;
  Metadata : sourceMetadata;
  AttachRequired : option bool;
  PodInfoOnMount : option bool;
  StorageCapacity : option bool;
  RequiresRepublish : option bool;
  SELinuxMount : option bool;
  FSGroupPolicy : option string;
  VolumeLifecycleModes : list string;
  TokenRequests : list unit;
}.
#[global] Instance zero_t : Zero t := mk "" "" zero None None None None None None [] [].
Definition spec : fields t := λ old ms,
  attachRequired ← field "attachRequired" (pointer bool_) old.(AttachRequired) ms;
  podInfoOnMount ← field "podInfoOnMount" (pointer bool_) old.(PodInfoOnMount) ms;
  storageCapacity ← field "storageCapacity" (pointer bool_) old.(StorageCapacity) ms;
  requiresRepublish ← field "requiresRepublish" (pointer bool_) old.(RequiresRepublish) ms;
  seLinuxMount ← field "seLinuxMount" (pointer bool_) old.(SELinuxMount) ms;
  fsGroupPolicy ← field "fsGroupPolicy" (pointer string_) old.(FSGroupPolicy) ms;
  volumeLifecycleModes ← field "volumeLifecycleModes" (slice string_) old.(VolumeLifecycleModes) ms;
  tokenRequests ← field "tokenRequests" (slice csiDriverTokenRequestSource) old.(TokenRequests) ms;
  Some (mk old.(APIVersion) old.(Kind) old.(Metadata) attachRequired podInfoOnMount storageCapacity
          requiresRepublish seLinuxMount fsGroupPolicy volumeLifecycleModes tokenRequests).
Definition decode : decoder t := struct (λ old ms,
  apiVersion ← field "apiVersion" string_ old.(APIVersion) ms;
  kind ← field "kind" string_ old.(Kind) ms;
  metadata ← field "metadata" sourceMetadata.decode_plain old.(Metadata) ms;
  '(mk _ _ _ a p s r m f v k) ← field "spec" (struct spec) old ms;
  Some (mk apiVersion kind metadata a p s r m f v k)).
End csiDriverSource.
Notation csiDriverSource := csiDriverSource.t.

Definition normalizeCSIFSGroupPolicy (value : string) : result KubernetesCSIFSGroupPolicy :=
  if bool_decide (value = CSIFSGroupPolicyReadWriteOnceWithFSType) || bool_decide (value = CSIFSGroupPolicyFile) ||
     bool_decide (value = CSIFSGroupPolicyNone)
  then Ok value else Err (upstream "invalid Kubernetes CSIDriver FSGroupPolicy").

(** The loop over the modes that were read: the set of them, or an error. *)
Fixpoint seen_modes (values : list string) (seen : gset string) : result (gset string) :=
  match values with
  | [] => Ok seen
  | mode :: values =>
      reject_if (negb (bool_decide (mode = CSIVolumeLifecyclePersistent)) &&
                 negb (bool_decide (mode = CSIVolumeLifecycleEphemeral)))
        (upstream "invalid Kubernetes CSIDriver volume lifecycle mode") ;;
      reject_if (bool_decide (mode ∈ seen)) (upstream "duplicate Kubernetes CSIDriver volume lifecycle mode") ;;
      seen_modes values ({[ mode ]} ∪ seen)
  end.

Definition normalizeCSIVolumeLifecycleModes (values : list string) :
    result (list KubernetesCSIVolumeLifecycleMode) :=
  reject_if (bool_decide (values = []) || (2 <? len_list values))
    (upstream "invalid Kubernetes CSIDriver volume lifecycle modes") ;;
  seen ← seen_modes values ∅;
  Ok (filter (λ mode, mode ∈ seen) [CSIVolumeLifecyclePersistent; CSIVolumeLifecycleEphemeral]).

Definition decodeCSIDriver (payload expectedName : string) : result KubernetesCSIDriverDetail :=
  source ← expect_ok (upstream "decode Kubernetes CSIDriver detail") (Unmarshal csiDriverSource.decode payload);
  let metadata := source.(csiDriverSource.Metadata) in
  let invalid := upstream "invalid Kubernetes CSIDriver identity" in
  reject_if (negb (is_cluster_object source.(csiDriverSource.APIVersion) source.(csiDriverSource.Kind)
      "storage.k8s.io/v1" "CSIDriver" metadata expectedName ValidateCSIDriverName)) invalid ;;
  attachRequired ← expect_ok invalid source.(csiDriverSource.AttachRequired);
  podInfoOnMount ← expect_ok invalid source.(csiDriverSource.PodInfoOnMount);
  storageCapacity ← expect_ok invalid source.(csiDriverSource.StorageCapacity);
  requiresRepublish ← expect_ok invalid source.(csiDriverSource.RequiresRepublish);
  policy ← expect_ok invalid source.(csiDriverSource.FSGroupPolicy);
  fsGroupPolicy ← normalizeCSIFSGroupPolicy policy;
  volumeLifecycleModes ← normalizeCSIVolumeLifecycleModes source.(csiDriverSource.VolumeLifecycleModes);
  reject_if (csiDriverMaxTokenRequests <? len_list source.(csiDriverSource.TokenRequests))
    (upstream "Kubernetes CSIDriver token requests exceeded safe limit") ;;
  Ok (KubernetesCSIDriverDetail.mk
        (KubernetesCSIDriver.mk metadata.(sourceMetadata.Name) metadata.(sourceMetadata.CreationTimestamp))
        attachRequired podInfoOnMount storageCapacity requiresRepublish
        (default false source.(csiDriverSource.SELinuxMount)) fsGroupPolicy volumeLifecycleModes
        (len_list source.(csiDriverSource.TokenRequests))).

Definition validCSIDriverContinue : string → bool := valid_continue csiDriverMaxContinueBytes.

Definition csi_driver_pager : pager :=
  strict_pager "Kubernetes CSIDriver" {[ "limit" := csiDriverListPageSize ]} kubernetesPartialMetadataListAccept
    csiDriverMaxListPages csiDriverMaxListBytes csiDriverMaxListBytes validCSIDriverContinue.

Definition csi_driver_page :=
  metadata_page (page_texts_of "Kubernetes CSIDriver" "metadata list") csiDriverMaxListItems
    (new_items (named_item ValidateCSIDriverName "invalid Kubernetes CSIDriver metadata identity" KubernetesCSIDriver.mk)
       KubernetesCSIDriver.Name "duplicate Kubernetes CSIDriver metadata identity").

(** ** Priority classes (priority_class.go) *)

Definition priorityClassCollectionPath : string := "/apis/scheduling.k8s.io/v1/priorityclasses".
Definition priorityClassListPageSize : string := "250".
Definition priorityClassMaxListPages : nat := 4.
Definition priorityClassMaxListItems : Z := 1000.
Definition priorityClassMaxListBytes : Z := 4 * 1024 * 1024.
Definition priorityClassMaxDetailBytes : Z := 1024 * 1024.
Definition priorityClassMaxContinueBytes : Z := 16 * 1024.

Module priorityClassSource.
Record t : Type := mk {
  APIVersion : string;
  Kind : string;
  Metadata : sourceMetadata;
  Value : option Z;
  GlobalDefault : bool;
  PreemptionPolicy : option string;
}.
#[global] Instance zero_t : Zero t := mk "" "" zero None false None.
Definition decode : decoder t := struct (λ old ms,
  apiVersion ← field "apiVersion" string_ old.(APIVersion) ms;
  kind ← field "kind" string_ old.(Kind) ms;
  metadata ← field "metadata" sourceMetadata.decode_plain old.(Metadata) ms;
  value ← field "value" (pointer (int_ 32)) old.(Value) ms;
  globalDefault ← field "globalDefault" bool_ old.(GlobalDefault) ms;
  preemptionPolicy ← field "preemptionPolicy" (pointer string_) old.(PreemptionPolicy) ms;
  Some (mk apiVersion kind metadata value globalDefault preemptionPolicy)).
End priorityClassSource.
Notation priorityClassSource := priorityClassSource.t.

Definition decodePriorityClass (payload expectedName : string) : result KubernetesPriorityClassDetail :=
  source ← expect_ok (upstream "decode Kubernetes PriorityClass detail")
    (Unmarshal priorityClassSource.decode payload);
  let metadata := source.(priorityClassSource.Metadata) in
  let invalid := upstream "invalid Kubernetes PriorityClass identity" in
  reject_if (negb (is_cluster_object source.(priorityClassSource.APIVersion) source.(priorityClassSource.Kind)
      "scheduling.k8s.io/v1" "PriorityClass" metadata expectedName ValidatePriorityClassName)) invalid ;;
  value ← expect_ok invalid source.(priorityClassSource.Value);
  preemptionPolicy ←
    match source.(priorityClassSource.PreemptionPolicy) with
    | None => Ok PriorityClassPreemptLower
    | Some policy =>
        if bool_decide (policy = PriorityClassPreemptNever) then Ok PriorityClassPreemptNever
        else if bool_decide (policy = PriorityClassPreemptLower) then Ok PriorityClassPreemptLower
        else Err (upstream "invalid Kubernetes PriorityClass preemption policy")
    end;
  Ok (KubernetesPriorityClassDetail.mk
        (KubernetesPriorityClass.mk metadata.(sourceMetadata.Name) metadata.(sourceMetadata.CreationTimestamp))
        value source.(priorityClassSource.GlobalDefault) preemptionPolicy
        (bool_decide (source.(priorityClassSource.PreemptionPolicy) = None))).

Definition validPriorityClassContinue : string → bool := valid_continue priorityClassMaxContinueBytes.

Definition priority_class_pager : pager :=
  strict_pager "Kubernetes PriorityClass" {[ "limit" := priorityClassListPageSize ]}
    kubernetesPartialMetadataListAccept priorityClassMaxListPages priorityClassMaxListBytes priorityClassMaxListBytes
    validPriorityClassContinue.

Definition priority_class_page :=
  metadata_page (page_texts_of "Kubernetes PriorityClass" "metadata list") priorityClassMaxListItems
    (new_items (named_item ValidatePriorityClassName "invalid Kubernetes PriorityClass metadata identity" KubernetesPriorityClass.mk)
       KubernetesPriorityClass.Name "duplicate Kubernetes PriorityClass metadata identity").

(** ** Runtime classes (runtime_class.go) *)

Definition runtimeClassCollectionPath : string := "/apis/node.k8s.io/v1/runtimeclasses".
Definition runtimeClassListPageSize : string := "250".
Definition runtimeClassMaxListPages : nat := 4.
Definition runtimeClassMaxListItems : Z := 1000.
Definition runtimeClassMaxListBytes : Z := 4 * 1024 * 1024.
Definition runtimeClassMaxDetailBytes : Z := 1024 * 1024.
Definition runtimeClassMaxContinueBytes : Z := 16 * 1024.
Definition runtimeClassMaxScalarBytes : Z := 512.
Definition runtimeClassMaxOverheadResources : Z := 64.
Definition runtimeClassMaxNodeSelectors : Z := 256.
Definition runtimeClassMaxTolerations : Z := 256.

Definition runtimeClassTolerationSource : decoder unit := counted_object.

Module runtimeClassSource.
Record t : Type := mk {
  APIVersion : string;
  Kind : string;
  Metadata : sourceMetadata;
  Handler : string;
  (** [Overhead.PodFixed], and [Scheduling]: its node selector and tolerations. *)
  Overhead : option (gmap string string);
  Scheduling : option (gmap string string * list unit);
}.
#[global] Instance zero_t : Zero t := mk "" "" zero "" None None.
Definition decode : decoder t := struct (λ old ms,
  apiVersion ← field "apiVersion" string_ old.(APIVersion) ms;
  kind ← field "kind" string_ old.(Kind) ms;
  metadata ← field "metadata" sourceMetadata.decode_plain old.(Metadata) ms;
  handler ← field "handler" string_ old.(Handler) ms;
  overhead ← field "overhead" (pointer (struct (field "podFixed" (map_ string_)))) old.(Overhead) ms;
  scheduling ← field "scheduling" (pointer (struct (field "nodeSelector" (map_ string_) ⊗
    field "tolerations" (slice runtimeClassTolerationSource)))) old.(Scheduling) ms;
  Some (mk apiVersion kind metadata handler overhead scheduling)).
End runtimeClassSource.
Notation runtimeClassSource := runtimeClassSource.t.

Definition validRuntimeClassScalar (value : string) (allowEmpty : bool) : bool :=
  (allowEmpty || negb (bool_decide (value = ""))) && (len value <=? runtimeClassMaxScalarBytes) &&
  ValidString value && clean value.

(** Every entry of a map is valid: its name and its value. *)
Definition valid_entries (allowEmpty : bool) (values : gmap string string) : bool :=
  bool_decide (map_Forall (λ name value, validRuntimeClassScalar name false = true ∧
    validRuntimeClassScalar value allowEmpty = true) values).

Definition copyRuntimeClassQuantity (values : gmap string string) (name : string) : option string := values !! name.

Definition decodeRuntimeClass (payload expectedName : string) : result KubernetesRuntimeClassDetail :=
  source ← expect_ok (upstream "decode Kubernetes RuntimeClass detail")
    (Unmarshal runtimeClassSource.decode payload);
  let metadata := source.(runtimeClassSource.Metadata) in
  reject_if (negb (is_cluster_object source.(runtimeClassSource.APIVersion) source.(runtimeClassSource.Kind)
      "node.k8s.io/v1" "RuntimeClass" metadata expectedName ValidateRuntimeClassName &&
      is_ok (ValidateRuntimeClassHandler source.(runtimeClassSource.Handler))))
    (upstream "invalid Kubernetes RuntimeClass identity") ;;
  match source.(runtimeClassSource.Overhead) with
  | None => Ok tt
  | Some podFixed =>
      reject_if (runtimeClassMaxOverheadResources <? Z.of_nat (size podFixed))
        (upstream "Kubernetes RuntimeClass overhead exceeded safe limit") ;;
      reject_if (negb (valid_entries false podFixed)) (upstream "invalid Kubernetes RuntimeClass overhead")
  end ;;
  match source.(runtimeClassSource.Scheduling) with
  | None => Ok tt
  | Some (nodeSelector, tolerations) =>
      reject_if ((runtimeClassMaxNodeSelectors <? Z.of_nat (size nodeSelector)) ||
                 (runtimeClassMaxTolerations <? len_list tolerations))
        (upstream "Kubernetes RuntimeClass scheduling exceeded safe limit") ;;
      reject_if (negb (valid_entries true nodeSelector)) (upstream "invalid Kubernetes RuntimeClass node selector")
  end ;;
  let overhead := source.(runtimeClassSource.Overhead) in
  let scheduling := source.(runtimeClassSource.Scheduling) in
  Ok {|
    KubernetesRuntimeClassDetail.KubernetesRuntimeClass :=
      KubernetesRuntimeClass.mk metadata.(sourceMetadata.Name) metadata.(sourceMetadata.CreationTimestamp);
    KubernetesRuntimeClassDetail.Handler := source.(runtimeClassSource.Handler);
    KubernetesRuntimeClassDetail.OverheadConfigured := bool_decide (is_Some overhead);
    KubernetesRuntimeClassDetail.PodOverheadCPU := overhead ≫= λ p, copyRuntimeClassQuantity p "cpu";
    KubernetesRuntimeClassDetail.PodOverheadMemory := overhead ≫= λ p, copyRuntimeClassQuantity p "memory";
    KubernetesRuntimeClassDetail.OverheadResourceCount := from_option (λ p, Z.of_nat (size p)) 0 overhead;
    KubernetesRuntimeClassDetail.SchedulingConfigured := bool_decide (is_Some scheduling);
    KubernetesRuntimeClassDetail.NodeSelectorCount := from_option (λ s, Z.of_nat (size s.1)) 0 scheduling;
    KubernetesRuntimeClassDetail.TolerationCount := from_option (λ s, len_list s.2) 0 scheduling;
  |}.

Definition validRuntimeClassContinue : string → bool := valid_continue runtimeClassMaxContinueBytes.

Definition runtime_class_pager : pager :=
  strict_pager "Kubernetes RuntimeClass" {[ "limit" := runtimeClassListPageSize ]}
    kubernetesPartialMetadataListAccept runtimeClassMaxListPages runtimeClassMaxListBytes runtimeClassMaxListBytes
    validRuntimeClassContinue.

Definition runtime_class_page :=
  metadata_page (page_texts_of "Kubernetes RuntimeClass" "metadata list") runtimeClassMaxListItems
    (new_items (named_item ValidateRuntimeClassName "invalid Kubernetes RuntimeClass metadata identity" KubernetesRuntimeClass.mk)
       KubernetesRuntimeClass.Name "duplicate Kubernetes RuntimeClass metadata identity").

(** ** The methods of the client *)

Section metadata_readers.
Context (token : string).

Definition PodSecurityAdmissionNamespaces : fetch (result (list KubernetesPodSecurityAdmissionNamespace)) :=
  items ←! all_pages token pod_security_pager pod_security_page "/api/v1/namespaces";
  Done (Ok (sort_Slice (by_name KubernetesPodSecurityAdmissionNamespace.Name) items)).

Definition HelmReleaseHistory_ (namespace releaseName : string) : fetch (result HelmReleaseHistory) :=
  ValidateHelmReleaseReference namespace releaseName ;!
  revisions ←! all_pages token (helm_history_pager releaseName) (helm_history_page namespace releaseName)
    ("/api/v1/namespaces/" +:+ namespace +:+ "/secrets");
  Done (Ok (boundedHelmReleaseHistory namespace releaseName revisions)).

Definition CSIDrivers : fetch (result (list KubernetesCSIDriver)) :=
  items ←! all_pages token csi_driver_pager csi_driver_page csiDriverCollectionPath;
  Done (Ok (sort_Slice (by_name KubernetesCSIDriver.Name) items)).

Definition CSIDriver : string → fetch (result KubernetesCSIDriverDetail) :=
  one_object token ValidateCSIDriverName csiDriverCollectionPath csiDriverMaxDetailBytes decodeCSIDriver.

Definition PriorityClasses : fetch (result (list KubernetesPriorityClass)) :=
  items ←! all_pages token priority_class_pager priority_class_page priorityClassCollectionPath;
  Done (Ok (sort_Slice (by_name KubernetesPriorityClass.Name) items)).

Definition PriorityClass : string → fetch (result KubernetesPriorityClassDetail) :=
  one_object token ValidatePriorityClassName priorityClassCollectionPath priorityClassMaxDetailBytes decodePriorityClass.

Definition RuntimeClasses : fetch (result (list KubernetesRuntimeClass)) :=
  items ←! all_pages token runtime_class_pager runtime_class_page runtimeClassCollectionPath;
  Done (Ok (sort_Slice (by_name KubernetesRuntimeClass.Name) items)).

Definition RuntimeClass : string → fetch (result KubernetesRuntimeClassDetail) :=
  one_object token ValidateRuntimeClassName runtimeClassCollectionPath runtimeClassMaxDetailBytes decodeRuntimeClass.
End metadata_readers.

(** ** Pod Security Admission: what is shown *)

(** The six labels that the standard names. *)
Definition podSecurityAdmission_keys : list string :=
  (λ key, podSecurityAdmissionLabelPrefix +:+ key) <$>
    ["enforce"; "enforce-version"; "audit"; "audit-version"; "warn"; "warn-version"].

Definition standard_labels (labels : gmap string RawMessage) : gmap string RawMessage :=
  filter (λ label, label.1 ∈ podSecurityAdmission_keys) labels.

(** A mode that is shown: nothing, or one of three levels with the latest or a minor version. *)
Definition standard_mode (mode : KubernetesPodSecurityAdmissionMode) : Prop :=
  let '(KubernetesPodSecurityAdmissionMode.mk status level version defaulted) := mode in
  if bool_decide (status = PodSecurityAdmissionModeConfigured) then
    level ∈ ["privileged"; "baseline"; "restricted"] ∧
    (version = "latest" ∨ ∃ minor, 0 ≤ minor ∧ version = "v1." +:+ FormatUint minor)
  else status ∈ [PodSecurityAdmissionModeInherited; PodSecurityAdmissionModeInvalid] ∧
    level = "" ∧ version = "" ∧ defaulted = false.

Lemma validPodSecurityAdmissionLevel_spec level :
  validPodSecurityAdmissionLevel level = true → level ∈ ["privileged"; "baseline"; "restricted"].
Proof.
  unfold validPodSecurityAdmissionLevel. rewrite !orb_true_iff, !bool_decide_eq_true.
  intros [[-> | ->] | ->]; by repeat constructor.
Qed.

Lemma validPodSecurityAdmissionVersion_spec version :
  validPodSecurityAdmissionVersion version = true →
  version = "latest" ∨ ∃ minor, 0 ≤ minor ∧ version = "v1." +:+ FormatUint minor.
Proof.
  unfold validPodSecurityAdmissionVersion. rewrite orb_true_iff, bool_decide_eq_true. intros [H|H]; [by left|right].
  apply andb_true_iff in H as [H1 H2]. rewrite negb_true_iff, !orb_false_iff, negb_false_iff in H1.
  destruct H1 as [[Hl%Z.ltb_ge _] (minor & ->)%HasPrefix_spec].
  change (drop_bytes 3 ("v1." +:+ minor)) with (drop_bytes 0 minor) in H2.
  replace (drop_bytes 0 minor) with minor in H2 by by destruct minor.
  apply andb_true_iff in H2 as [Hc Hd]. pose proof (digits_from_total 0 minor Hd) as [n Hn].
  assert (canonical minor = true) as Hm.
  { unfold canonical. rewrite Hc, andb_true_r. apply negb_true_iff, bool_decide_eq_false. intros ->. by cbn in Hl. }
  pose proof (digits_from_bound 0 minor n ltac:(lia) Hn). exists n. split; [lia|].
  destruct (FormatUint_spec n ltac:(lia)) as (_ & _ & Hf & _). f_equal.
  eapply canonical_inj; [done|apply canonical_FormatUint; lia|done..].
Qed.

Lemma projectPodSecurityAdmissionMode_standard labels mode :
  standard_mode (projectPodSecurityAdmissionMode labels mode).
Proof.
  assert (standard_mode invalid_mode) as Hinvalid by (cbn; split_and!; [by repeat constructor|done..]).
  unfold projectPodSecurityAdmissionMode.
  destruct (podSecurityAdmissionLabel labels (podSecurityAdmissionLabelPrefix +:+ mode)) as [[level|]|],
    (podSecurityAdmissionLabel labels (podSecurityAdmissionLabelPrefix +:+ mode +:+ "-version")) as [[version|]|];
    try done.
  - destruct (validPodSecurityAdmissionLevel level) eqn:Hl; [|done].
    destruct (validPodSecurityAdmissionVersion version) eqn:Hv; [|done].
    split; [by apply validPodSecurityAdmissionLevel_spec|by apply validPodSecurityAdmissionVersion_spec].
  - destruct (validPodSecurityAdmissionLevel level) eqn:Hl; [|done].
    split; [by apply validPodSecurityAdmissionLevel_spec|by left].
  - cbn. split_and!; [by repeat constructor|done..].
Qed.

Lemma podSecurityAdmissionLabel_standard labels key :
  key ∈ podSecurityAdmission_keys →
  podSecurityAdmissionLabel (standard_labels labels) key = podSecurityAdmissionLabel labels key.
Proof.
  intros Hk. unfold podSecurityAdmissionLabel, standard_labels. unfold RawMessage in *. rewrite map_lookup_filter.
  destruct (labels !! key) as [raw|]; [|done]. cbn [mbind option_bind]. by rewrite option_guard_True.
Qed.

Lemma projectPodSecurityAdmissionMode_local labels mode :
  mode ∈ [podSecurityAdmissionEnforce; podSecurityAdmissionAudit; podSecurityAdmissionWarn] →
  projectPodSecurityAdmissionMode (standard_labels labels) mode = projectPodSecurityAdmissionMode labels mode.
Proof.
  intros Hm. unfold projectPodSecurityAdmissionMode.
  rewrite !podSecurityAdmissionLabel_standard; [done|..].
  all: apply list_elem_of_In in Hm; cbn in Hm; destruct_or! Hm; subst; by repeat constructor.
Qed.

(** Of the labels of a namespace only the six of the Pod Security Admission standard
    are shown, and of those only what is valid: what is projected does not depend on any
    other label, and each mode is inherited or invalid without a text, or configured
    with one of the three levels and "latest" or a minor version of Kubernetes 1. *)
Theorem projectPodSecurityAdmissionNamespace_shows name labels created :
  let project labels := projectPodSecurityAdmissionNamespace (podSecurityAdmissionMetadata.mk name labels created) in
  project labels = project (standard_labels labels) ∧
  standard_mode (project labels).(KubernetesPodSecurityAdmissionNamespace.Enforce) ∧
  standard_mode (project labels).(KubernetesPodSecurityAdmissionNamespace.Audit) ∧
  standard_mode (project labels).(KubernetesPodSecurityAdmissionNamespace.Warn).
Proof.
  cbv zeta. split_and!; [|apply projectPodSecurityAdmissionMode_standard..].
  unfold projectPodSecurityAdmissionNamespace. cbn [podSecurityAdmissionMetadata.Labels].
  rewrite !projectPodSecurityAdmissionMode_local; [done|by repeat constructor..].
Qed.

(** ** Helm release history: what is shown *)

Definition release_revision (r : HelmReleaseRevision) : Prop :=
  0 < r.(HelmReleaseRevision.Revision) < 2 ^ 31 ∧ validHelmReleaseStatus r.(HelmReleaseRevision.Status) = true.

Lemma decodeHelmReleaseRevision_spec namespace releaseName raw r :
  decodeHelmReleaseRevision namespace releaseName raw = Ok r → release_revision r.
Proof.
  unfold decodeHelmReleaseRevision. intros (_ & _ & ([[version kind] [[[name ns] created] labels]] & _ & H)%bind_Ok)%bind_Ok.
  cbv beta iota zeta in H.
  apply bind_Ok in H as (_ & _ & (_ & _ & (n & Hn & (? & Hp & (_ & _ & (? & Hs & [= <-])%bind_Ok)%bind_Ok)%bind_Ok)%bind_Ok)%bind_Ok).
  apply reject_if_Ok in Hp, Hs. apply Z.leb_gt in Hp. apply negb_false_iff in Hs. split; [|done]. cbn.
  unfold expect_ok in Hn. destruct (ParseInt (label labels "version") 32) as [m|] eqn:E; [|done]. injection Hn as ->.
  apply ParseInt_range in E; [|done]. unfold int_range in E. lia.
Qed.

Lemma HelmReleaseHistory_read token namespace releaseName :
  safe reading 4 (HelmReleaseHistory_ token namespace releaseName) (if_ok (λ history, ∃ revisions,
    distinct_list 200 revision_key release_revision revisions ∧
    history = boundedHelmReleaseHistory namespace releaseName revisions)).
Proof.
  unfold HelmReleaseHistory_. apply safe_check. intros [] Hv.
  unfold ValidateHelmReleaseReference in Hv. apply seq_Ok in Hv as [Hns _].
  apply guard_Ok, negb_false_iff in Hns.
  eapply (safe_or_return reading 4 0).
  - apply (all_pages_safe token (helm_history_pager releaseName) (helm_history_page namespace releaseName)
      (distinct_list 200 revision_key release_revision)); [done| | |by apply distinct_list_nil].
    + apply objects_page_keeps, new_items_keeps, decodeHelmReleaseRevision_spec.
    + by apply namespaced_path, safe_segmentb_spec.
  - intros revisions Hr. apply safe_Done. cbn. eauto.
Qed.

(** The history of a Helm release shows its latest revisions: for some list of
    distinct revisions, at most 200, each with a positive number and a known status, that
    four requests for the metadata of secrets may yield, it is their ten greatest in
    descending order (or all of them, when there are no more), and is marked as truncated
    exactly when there are more. *)
Theorem HelmReleaseHistory_latest token namespace releaseName :
  safe reading 4 (HelmReleaseHistory_ token namespace releaseName) (if_ok (λ history, ∃ revisions older,
    distinct_list 200 revision_key release_revision revisions ∧
    shown_newest HelmReleaseRevision.Revision 10 revisions history.(HelmReleaseHistory.Revisions) older
      history.(HelmReleaseHistory.Truncated))).
Proof.
  eapply safe_weaken; [apply HelmReleaseHistory_read|done..|]. intros [history|]; [|done].
  intros (revisions & Hb & ->). exists revisions. eexists. split; [done|].
  apply (newest_shown HelmReleaseRevision.Revision revision_less 10); [done..|].
  destruct Hb as [_ Hn]. unfold revision_key in Hn. apply (NoDup_fmap_1 FormatInt). rewrite <-list_fmap_compose. exact Hn.
Qed.

(** ** The lists and objects: bounds *)

(** A list of named objects: at most [maxItems], each name valid and once, in their order. *)
Definition named_list {A} (maxItems : Z) (name : A → string) (validate : string → result unit) : list A → Prop :=
  listed maxItems name (λ a, validate (name a) = Ok tt).

Lemma named_pages_safe {A} token p texts maxItems validate invalid (make : string → time → A) (name : A → string)
    duplicate path :
  sized p → 0 ≤ maxItems → plainb path = true → (∀ n c, name (make n c) = n) →
  safe reading p.(pager.maxPages)
    (items ←! all_pages token p
       (metadata_page texts maxItems (new_items (named_item validate invalid make) name duplicate)) path;
     Done (Ok (sort_Slice (by_name name) items)))
    (if_ok (named_list maxItems name validate)).
Proof.
  intros Hp Hm Hpath Hmake. apply listed_pages_safe; [done| |done..].
  apply objects_page_keeps, new_items_keeps. intros raw a (n & c & -> & Hn)%named_item_spec. by rewrite Hmake.
Qed.

Lemma PodSecurityAdmissionNamespaces_safe token :
  safe reading 4 (PodSecurityAdmissionNamespaces token)
    (if_ok (named_list 1000 KubernetesPodSecurityAdmissionNamespace.Name ValidateNamespace)).
Proof.
  unfold PodSecurityAdmissionNamespaces. apply (listed_pages_safe token pod_security_pager); [done| |done..].
  apply objects_page_keeps, new_items_keeps. intros raw a. unfold fmap, result_fmap.
  destruct (decodePodSecurityAdmissionMetadata raw) as [m|] eqn:E; [|done]. intros [= <-]. cbn.
  revert E. unfold decodePodSecurityAdmissionMetadata.
  intros (_ & _ & ([[v k] [[[name ns] labels] created]] & _ & H)%bind_Ok)%bind_Ok.
  cbv beta iota zeta in H. apply bind_Ok in H as (_ & _ & (? & Hv & (_ & _ & [= <-])%bind_Ok)%bind_Ok). cbn.
  apply reject_if_Ok in Hv. rewrite !orb_false_iff, negb_false_iff in Hv. destruct Hv as [[Hv _] _].
  by destruct (ValidateNamespace name) as [[]|].
Qed.

Lemma CSIDrivers_safe token :
  safe reading 4 (CSIDrivers token) (if_ok (named_list 1000 KubernetesCSIDriver.Name ValidateCSIDriverName)).
Proof. unfold CSIDrivers. by apply (named_pages_safe token csi_driver_pager). Qed.

Lemma PriorityClasses_safe token :
  safe reading 4 (PriorityClasses token)
    (if_ok (named_list 1000 KubernetesPriorityClass.Name ValidatePriorityClassName)).
Proof. unfold PriorityClasses. by apply (named_pages_safe token priority_class_pager). Qed.

Lemma RuntimeClasses_safe token :
  safe reading 4 (RuntimeClasses token)
    (if_ok (named_list 1000 KubernetesRuntimeClass.Name ValidateRuntimeClassName)).
Proof. unfold RuntimeClasses. by apply (named_pages_safe token runtime_class_pager). Qed.

(** What a detail holds was checked: the driver that was asked for, its modes in a fixed order. *)
Definition csi_driver_detail (name : string) (d : KubernetesCSIDriverDetail) : Prop :=
  d.(KubernetesCSIDriverDetail.KubernetesCSIDriver).(KubernetesCSIDriver.Name) = name ∧
  d.(KubernetesCSIDriverDetail.TokenRequestCount) ≤ 32 ∧
  d.(KubernetesCSIDriverDetail.FSGroupPolicy) ∈ ["ReadWriteOnceWithFSType"; "File"; "None"] ∧
  d.(KubernetesCSIDriverDetail.VolumeLifecycleModes) ∈
    [["Persistent"]; ["Ephemeral"]; ["Persistent"; "Ephemeral"]].

Lemma seen_modes_spec values seen seen' :
  seen_modes values seen = Ok seen' →
  seen' ≡ list_to_set values ∪ seen ∧ Forall (λ m, m = "Persistent" ∨ m = "Ephemeral") values.
Proof.
  revert seen. induction values as [|m values IH]; intros seen; cbn [seen_modes].
  { intros [= <-]. split; [set_solver|constructor]. }
  intros (? & Hm & (_ & _ & H)%bind_Ok)%bind_Ok. apply IH in H as [H1 H2]. split; [cbn; set_solver|].
  constructor; [|done]. apply reject_if_Ok, andb_false_iff in Hm.
  destruct Hm as [Hm|Hm]; apply negb_false_iff, bool_decide_eq_true in Hm; auto.
Qed.

Lemma normalizeCSIVolumeLifecycleModes_spec values modes :
  normalizeCSIVolumeLifecycleModes values = Ok modes →
  modes ∈ [["Persistent"]; ["Ephemeral"]; ["Persistent"; "Ephemeral"]].
Proof.
  unfold normalizeCSIVolumeLifecycleModes. intros (? & Hv & (seen & Hs & [= <-])%bind_Ok)%bind_Ok.
  apply reject_if_Ok in Hv. apply orb_false_iff in Hv as [Hne _]. apply bool_decide_eq_false in Hne.
  apply seen_modes_spec in Hs as [Hs Hf].
  destruct values as [|m values]; [done|]. apply Forall_cons in Hf as [Hm _].
  assert (m ∈ seen) as Hin by set_solver.
  rewrite !filter_cons, filter_nil.
  destruct Hm; subst; repeat case_decide; try done; by repeat constructor.
Qed.

Lemma decodeCSIDriver_spec payload name d : decodeCSIDriver payload name = Ok d → csi_driver_detail name d.
Proof.
  unfold decodeCSIDriver. intros (source & _ & (? & Hid & H)%bind_Ok)%bind_Ok.
  apply reject_if_Ok, negb_false_iff, is_cluster_object_name in Hid as [Hid _].
  apply bind_Ok in H as (? & _ & (? & _ & (? & _ & (? & _ & (policy & _ & (fs & Hfs & (modes & Hm &
    (? & Ht & [= <-])%bind_Ok)%bind_Ok)%bind_Ok)%bind_Ok)%bind_Ok)%bind_Ok)%bind_Ok).
  apply reject_if_Ok, Z.ltb_ge in Ht. split_and!; [done|done| |].
  - cbn. unfold normalizeCSIFSGroupPolicy in Hfs. destruct (_ || _) eqn:E; [|done]. injection Hfs as <-.
    rewrite !orb_true_iff, !bool_decide_eq_true in E. destruct E as [[-> | ->] | ->]; by repeat constructor.
  - by apply normalizeCSIVolumeLifecycleModes_spec in Hm.
Qed.

Lemma CSIDriver_safe token name : safe reading 1 (CSIDriver token name) (if_ok (csi_driver_detail name)).
Proof.
  unfold CSIDriver. apply one_object_safe; [|by apply plainb_spec|done|].
  - intros n Hn%guard_Ok%negb_false_iff. by apply validDNSSubdomain_safe.
  - intros payload d _. apply decodeCSIDriver_spec.
Qed.
