(* ===== verification/Storage.v ===== *)
(** * Storage (src/internal/kubernetes)

    The tables of claims, volumes and storage classes (storage.go), of attachments
    (volume_attachment.go), attributes classes (volume_attributes_class.go), capacities
    (csi_storage_capacity.go) and CSI nodes, with the reader of one node (csi_node.go). *)

From S2P Require Export Paging.

Local Open Scope Z_scope.
Local Open Scope stdpp_scope.
Local Open Scope fetch_scope.
Local Open Scope json_scope.

Import Json.

(** ** Cells (storage.go, volume_attachment.go, csi_node.go) *)

Definition cell_at (row : kubernetesTableRow) (index : Z) : option RawMessage :=
  if index <? 0 then None else row.(kubernetesTableRow.Cells) !! Z.to_nat index.

Definition storageStringCell (row : kubernetesTableRow) (index : Z) : result string :=
  raw ← expect_ok ErrUpstream (cell_at row index);
  if bool_decide (raw = "null") then Ok "" else
  value ← expect_ok ErrUpstream (Unmarshal string_ raw);
  reject_if (negb (validTableString value)) ErrUpstream ;; Ok value.

Definition storageBoolCell (row : kubernetesTableRow) (index : Z) : result bool :=
  raw ← expect_ok ErrUpstream (cell_at row index);
  if bool_decide (raw = "null") then Ok false else
  match Unmarshal bool_ raw with
  | Some value => Ok value
  | None =>
      text ← expect_ok ErrUpstream (Unmarshal string_ raw);
      reject_if (negb (validTableString text)) ErrUpstream ;;
      if bool_decide (text = "true") then Ok true
      else if bool_decide (text = "") || bool_decide (text = "false") || bool_decide (text = "<unset>") then Ok false
      else Err ErrUpstream
  end.

Definition volumeAttachmentBoolCell (row : kubernetesTableRow) (index : Z) : result bool :=
  raw ← expect_ok ErrUpstream (cell_at row index);
  let trimmed := TrimSpace raw in
  if bool_decide (trimmed = "true") then Ok true
  else if bool_decide (trimmed = "false") then Ok false else Err ErrUpstream.

Definition csiNodeIntegerCell (row : kubernetesTableRow) (index : Z) : result Z :=
  raw ← expect_ok ErrUpstream (cell_at row index);
  let value := TrimSpace raw in
  reject_if (bool_decide (value = "") || negb (all_bytes is_digit value)) ErrUpstream ;;
  expect_ok ErrUpstream (Atoi value).

(** [value, err := m; if err != nil || !valid(value) { return err }]: any failure is [err]. *)
Definition or_fail {A} (m : result A) (valid : A → bool) (err : error) : result A :=
  match m with
  | Ok a => if valid a then Ok a else Err err
  | Err _ => Err err
  end.

Definition anything_ok {A} (_ : A) : bool := true.

(** A row that has cells, and the metadata of its object. *)
Definition row_metadata (what : string) (row : kubernetesTableRow) (namespaced : bool) : result partialObjectMetadata :=
  let cells := len_list row.(kubernetesTableRow.Cells) in
  reject_if ((cells =? 0) || (maxTableColumns <? cells)) (upstream ("invalid " +:+ what +:+ " table row")) ;;
  decodePartialObjectMetadataForScope row.(kubernetesTableRow.Object) namespaced.

(** The name of a row is the name of its object, and valid. *)
Definition row_name (what : string) (row : kubernetesTableRow) (columns : gmap string Z)
    (metadata : partialObjectMetadata) (validate : string → result unit) : result string :=
  or_fail (storageStringCell row (column_of columns "Name"))
    (λ name, bool_decide (name = metadata.(partialObjectMetadata.Name)) && is_ok (validate name))
    (upstream ("invalid " +:+ what +:+ " identity")).

(** ** Claims, volumes and storage classes (storage.go) *)

Inductive storageTableKind : Type :=
  | storageTablePersistentVolumeClaim | storageTablePersistentVolume | storageTableStorageClass.

#[global] Instance storageTableKind_eq_dec : EqDecision storageTableKind.
Proof. solve_decision. Defined.

Module storageTableItem.
Record t : Type := mk {
  Namespace : string;
  Name : string;
  Status : string;
  Volume : string;
  Claim : string;
  Capacity : string;
  AccessModes : string;
  StorageClass : string;
  ReclaimPolicy : string;
  VolumeMode : string;
  Provisioner : string;
  VolumeBindingMode : string;
  AllowVolumeExpansion : bool;
  Default : bool;
  CreatedAt : time;
}.
End storageTableItem.
Notation storageTableItem := storageTableItem.t.

Definition storage_required (kind : storageTableKind) : list string :=
  "Name" ::
  match kind with
  | storageTablePersistentVolumeClaim =>
      ["Status"; "Volume"; "Capacity"; "Access Modes"; "StorageClass"; "VolumeMode"]
  | storageTablePersistentVolume =>
      ["Status"; "Claim"; "Capacity"; "Access Modes"; "StorageClass"; "Reclaim Policy"; "VolumeMode"]
  | storageTableStorageClass =>
      ["Provisioner"; "ReclaimPolicy"; "VolumeBindingMode"; "AllowVolumeExpansion"]
  end.

Fixpoint find_columns (columns : list column) (names : list string) (found : gmap string Z) :
    result (gmap string Z) :=
  match names with
  | [] => Ok found
  | name :: names =>
      index ← configurationTableColumn columns name;
      find_columns columns names (<[name := index]> found)
  end.

Definition storageColumns (columns : list column) (kind : storageTableKind) : result (gmap string Z) :=
  find_columns columns (storage_required kind) ∅.

Definition default_suffix : string := " (default)".

(** The name that is printed, and whether it is marked as the default class. *)
Definition storage_name (kind : storageTableKind) (printedName : string) : string * bool :=
  if bool_decide (kind = storageTableStorageClass) && HasSuffix printedName default_suffix
  then (TrimSuffix printedName default_suffix, true) else (printedName, false).

(** The cells of a row, by its kind. *)
Definition storage_cells (row : kubernetesTableRow) (columns : gmap string Z) (kind : storageTableKind)
    (namespace name : string) (isDefault : bool) (created : time) : result storageTableItem :=
  let text name := storageStringCell row (column_of columns name) in
  match kind with
  | storageTablePersistentVolumeClaim =>
      status ← text "Status"; volume ← text "Volume"; capacity ← text "Capacity";
      accessModes ← text "Access Modes"; storageClass ← text "StorageClass"; volumeMode ← text "VolumeMode";
      Ok (storageTableItem.mk namespace name status volume "" capacity accessModes storageClass "" volumeMode
            "" "" false isDefault created)
  | storageTablePersistentVolume =>
      status ← text "Status"; claim ← text "Claim"; capacity ← text "Capacity";
      accessModes ← text "Access Modes"; storageClass ← text "StorageClass";
      reclaimPolicy ← text "Reclaim Policy"; volumeMode ← text "VolumeMode";
      Ok (storageTableItem.mk namespace name status "" claim capacity accessModes storageClass reclaimPolicy
            volumeMode "" "" false isDefault created)
  | storageTableStorageClass =>
      provisioner ← text "Provisioner"; reclaimPolicy ← text "ReclaimPolicy";
      volumeBindingMode ← text "VolumeBindingMode";
      allowVolumeExpansion ← storageBoolCell row (column_of columns "AllowVolumeExpansion");
      Ok (storageTableItem.mk namespace name "" "" "" "" "" "" reclaimPolicy "" provisioner volumeBindingMode
            allowVolumeExpansion isDefault created)
  end.

Definition decodeStorageTableRow (row : kubernetesTableRow) (columns : gmap string Z) (kind : storageTableKind) :
    result storageTableItem :=
  metadata ← row_metadata "Kubernetes storage" row (bool_decide (kind = storageTablePersistentVolumeClaim));
  '(name, isDefault) ← or_fail (storage_name kind <$> storageStringCell row (column_of columns "Name"))
    (λ '(name, _), bool_decide (name = metadata.(partialObjectMetadata.Name)))
    (upstream "invalid Kubernetes storage table name");
  or_fail (storage_cells row columns kind metadata.(partialObjectMetadata.Namespace)
      metadata.(partialObjectMetadata.Name) isDefault metadata.(partialObjectMetadata.CreationTimestamp))
    anything_ok (upstream "invalid Kubernetes storage table cell").

(** A row in the namespace that was asked for. *)
Definition storage_row (expectedNamespace : string) (kind : storageTableKind) (columns : gmap string Z)
    (row : kubernetesTableRow) : result storageTableItem :=
  item ← decodeStorageTableRow row columns kind;
  reject_if (negb (bool_decide (expectedNamespace = "")) &&
             negb (bool_decide (item.(storageTableItem.Namespace) = expectedNamespace)))
    (upstream "Kubernetes storage table row exceeded namespace scope") ;;
  Ok item.

Definition storage_pager : pager := {|
  pager.query := {[ "includeObject" := "Metadata"; "limit" := listPageSize ]};
  pager.accept := kubernetesTableAccept;
  pager.maxPages := Z.to_nat maxListPages;
  pager.maxListBytes := maxListBytes;
  pager.maxPageBytes := maxResponseBytes;
  pager.bytes := pager.CheckAfter;
  pager.validContinue := anything_ok;
  pager.refusesRepeated := false;
  pager.full := None;
  pager.byteLimit := "Kubernetes storage table exceeded safe byte limit";
  pager.pageLimit := "Kubernetes storage table exceeded safe page limit";
  pager.badToken := ""; pager.repeatedToken := ""; pager.itemLimit := "";
|}.

Definition storage_page (expectedNamespace : string) (kind : storageTableKind) :=
  rows_page (mkTexts "decode Kubernetes storage table" "unsupported Kubernetes storage table response"
      "Kubernetes storage table exceeded safe item limit") maxListItems
    (λ columns, storageColumns columns kind)
    (λ columns, all_items (storage_row expectedNamespace kind columns)).

(** ** Volume attachments (volume_attachment.go) *)

Definition volumeAttachmentCollectionPath : string := "/apis/storage.k8s.io/v1/volumeattachments".
Definition volumeAttachmentListPageSize : string := "250".
Definition volumeAttachmentMaxListPages : nat := 4.
Definition volumeAttachmentMaxListItems : Z := 1000.
Definition volumeAttachmentMaxPageBytes : Z := 2 * 1024 * 1024.
Definition volumeAttachmentMaxListBytes : Z := 4 * 1024 * 1024.
Definition volumeAttachmentMaxContinueBytes : Z := 16 * 1024.

Definition volumeAttachmentColumns : list column → result (gmap string Z) :=
  tableColumns "Kubernetes VolumeAttachment"
    [("Name", "string"); ("Attacher", "string"); ("PV", "string"); ("Node", "string"); ("Attached", "boolean")].

Definition decodeVolumeAttachmentTableRow (columns : gmap string Z) (row : kubernetesTableRow) :
    result KubernetesVolumeAttachment :=
  let what := "Kubernetes VolumeAttachment" in
  metadata ← row_metadata what row false;
  name ← row_name what row columns metadata ValidateVolumeAttachmentName;
  attacher ← or_fail (storageStringCell row (column_of columns "Attacher"))
    (λ attacher, negb (bool_decide (attacher = "")))
    (upstream "invalid Kubernetes VolumeAttachment attacher");
  persistentVolume ← or_fail (storageStringCell row (column_of columns "PV"))
    (λ volume, bool_decide (volume = "") || is_ok (ValidatePersistentVolumeName volume))
    (upstream "invalid Kubernetes VolumeAttachment persistent volume");
  node ← or_fail (storageStringCell row (column_of columns "Node")) (λ node, is_ok (ValidateNodeName node))
    (upstream "invalid Kubernetes VolumeAttachment node");
  attached ← or_fail (volumeAttachmentBoolCell row (column_of columns "Attached")) anything_ok
    (upstream "invalid Kubernetes VolumeAttachment attached status");
  let status :=
    if bool_decide (is_Some metadata.(partialObjectMetadata.DeletionTimestamp)) then VolumeAttachmentDetaching
    else if (attached : bool) then VolumeAttachmentAttached else VolumeAttachmentAttaching in
  Ok (KubernetesVolumeAttachment.mk name attacher persistentVolume node status
        metadata.(partialObjectMetadata.CreationTimestamp)).

Definition validVolumeAttachmentContinue : string → bool := valid_continue volumeAttachmentMaxContinueBytes.

Definition volume_attachment_pager : pager :=
  strict_pager "Kubernetes VolumeAttachment" {[ "includeObject" := "Metadata"; "limit" := volumeAttachmentListPageSize ]}
    kubernetesTableAccept volumeAttachmentMaxListPages volumeAttachmentMaxListBytes volumeAttachmentMaxPageBytes
    validVolumeAttachmentContinue.

Definition volume_attachment_page :=
  rows_page (page_texts_of "Kubernetes VolumeAttachment" "table") volumeAttachmentMaxListItems
    volumeAttachmentColumns (λ columns, new_items (decodeVolumeAttachmentTableRow columns)
      KubernetesVolumeAttachment.Name "duplicate Kubernetes VolumeAttachment identity").

(** ** Attributes classes (volume_attributes_class.go) *)

Definition volumeAttributesClassCollectionPath : string := "/apis/storage.k8s.io/v1/volumeattributesclasses".
Definition volumeAttributesClassListPageSize : string := "250".
Definition volumeAttributesClassMaxListPages : nat := 4.
Definition volumeAttributesClassMaxListItems : Z := 1000.
Definition volumeAttributesClassMaxPageBytes : Z := 2 * 1024 * 1024.
Definition volumeAttributesClassMaxListBytes : Z := 4 * 1024 * 1024.
Definition volumeAttributesClassMaxContinueBytes : Z := 16 * 1024.

Definition volumeAttributesClassColumns : list column → result (gmap string Z) :=
  tableColumns "Kubernetes VolumeAttributesClass" [("Name", "string"); ("DriverName", "string")].

Definition decodeVolumeAttributesClassTableRow (columns : gmap string Z) (row : kubernetesTableRow) :
    result KubernetesVolumeAttributesClass :=
  let what := "Kubernetes VolumeAttributesClass" in
  metadata ← row_metadata what row false;
  name ← row_name what row columns metadata ValidateVolumeAttributesClassName;
  driverName ← or_fail (storageStringCell row (column_of columns "DriverName"))
    (λ driver, is_ok (ValidateCSIDriverName driver)) (upstream "invalid Kubernetes VolumeAttributesClass driver");
  Ok (KubernetesVolumeAttributesClass.mk name driverName metadata.(partialObjectMetadata.CreationTimestamp)).

Definition validVolumeAttributesClassContinue : string → bool := valid_continue volumeAttributesClassMaxContinueBytes.

Definition volume_attributes_class_pager : pager :=
  strict_pager "Kubernetes VolumeAttributesClass"
    {[ "includeObject" := "Metadata"; "limit" := volumeAttributesClassListPageSize ]}
    kubernetesTableAccept volumeAttributesClassMaxListPages volumeAttributesClassMaxListBytes
    volumeAttributesClassMaxPageBytes validVolumeAttributesClassContinue.

Definition volume_attributes_class_page :=
  rows_page (page_texts_of "Kubernetes VolumeAttributesClass" "table") volumeAttributesClassMaxListItems
    volumeAttributesClassColumns (λ columns, new_items (decodeVolumeAttributesClassTableRow columns)
      KubernetesVolumeAttributesClass.Name "duplicate Kubernetes VolumeAttributesClass identity").

(** ** Capacities (csi_storage_capacity.go) *)

(** Of k8s.io/apimachinery: the sign of a quantity and its canonical text, and the
    complaints about a qualified name. *)
Class Apimachinery : Type := {
  ParseQuantity : string → option (Z * string);
  IsQualifiedName : string → list string;
}.

Definition csiStorageCapacityCollectionPath : string := "/apis/storage.k8s.io/v1/csistoragecapacities".
Definition csiStorageCapacityListPageSize : string := "250".
Definition csiStorageCapacityMaxListPages : nat := 4.
Definition csiStorageCapacityMaxListItems : Z := 1000.
Definition csiStorageCapacityMaxPageBytes : Z := 2 * 1024 * 1024.
Definition csiStorageCapacityMaxListBytes : Z := 4 * 1024 * 1024.
Definition csiStorageCapacityMaxContinueBytes : Z := 16 * 1024.
Definition csiStorageCapacityMaxQuantityBytes : Z := 64.

Definition csiStorageCapacityColumns : list column → result (gmap string Z) :=
  tableColumns "Kubernetes CSIStorageCapacity"
    [("Name", "string"); ("StorageClassName", "string"); ("Capacity", "string")].

Section capacities.
Context `{Apimachinery}.

Definition normalizeCSIStorageCapacityQuantity (value : string) : result string :=
  if bool_decide (value = "<unset>") then Ok "" else
  let invalid := upstream "invalid Kubernetes CSIStorageCapacity capacity" in
  reject_if (bool_decide (value = "") || (csiStorageCapacityMaxQuantityBytes <? len value) || negb (clean value))
    invalid ;;
  '(sign, canonical) ← expect_ok invalid (ParseQuantity value);
  reject_if (sign <? 0) invalid ;;
  reject_if (bool_decide (canonical = "") || (csiStorageCapacityMaxQuantityBytes <? len canonical)) invalid ;;
  Ok canonical.

Definition decodeCSIStorageCapacityTableRow (columns : gmap string Z) (expectedNamespace : string)
    (row : kubernetesTableRow) : result KubernetesCSIStorageCapacity :=
  let what := "Kubernetes CSIStorageCapacity" in
  metadata ← row_metadata what row true;
  reject_if (negb (bool_decide (expectedNamespace = "")) &&
             negb (bool_decide (metadata.(partialObjectMetadata.Namespace) = expectedNamespace)))
    (upstream "Kubernetes CSIStorageCapacity row exceeded namespace scope") ;;
  name ← row_name what row columns metadata ValidateCSIStorageCapacityName;
  storageClass ← or_fail (storageStringCell row (column_of columns "StorageClassName"))
    (λ class, is_ok (ValidateStorageClassName class))
    (upstream "invalid Kubernetes CSIStorageCapacity storage class");
  capacityCell ← or_fail (storageStringCell row (column_of columns "Capacity")) anything_ok
    (upstream "invalid Kubernetes CSIStorageCapacity capacity");
  capacity ← normalizeCSIStorageCapacityQuantity capacityCell;
  Ok (KubernetesCSIStorageCapacity.mk metadata.(partialObjectMetadata.Namespace) name storageClass capacity
        metadata.(partialObjectMetadata.CreationTimestamp)).

(** The namespace and the name, with a byte between them that is in neither. *)
Definition capacity_identity (item : KubernetesCSIStorageCapacity) : string :=
  item.(KubernetesCSIStorageCapacity.Namespace) +:+ String "000" item.(KubernetesCSIStorageCapacity.Name).

Definition capacity_less (a b : KubernetesCSIStorageCapacity) : bool :=
  if negb (bool_decide (a.(KubernetesCSIStorageCapacity.Namespace) = b.(KubernetesCSIStorageCapacity.Namespace)))
  then String.ltb a.(KubernetesCSIStorageCapacity.Namespace) b.(KubernetesCSIStorageCapacity.Namespace)
  else if negb (bool_decide (a.(KubernetesCSIStorageCapacity.StorageClass) = b.(KubernetesCSIStorageCapacity.StorageClass)))
  then String.ltb a.(KubernetesCSIStorageCapacity.StorageClass) b.(KubernetesCSIStorageCapacity.StorageClass)
  else String.ltb a.(KubernetesCSIStorageCapacity.Name) b.(KubernetesCSIStorageCapacity.Name).

Definition validCSIStorageCapacityContinue : string → bool := valid_continue csiStorageCapacityMaxContinueBytes.

Definition csi_storage_capacity_pager : pager :=
  strict_pager "Kubernetes CSIStorageCapacity"
    {[ "includeObject" := "Metadata"; "limit" := csiStorageCapacityListPageSize ]}
    kubernetesTableAccept csiStorageCapacityMaxListPages csiStorageCapacityMaxListBytes
    csiStorageCapacityMaxPageBytes validCSIStorageCapacityContinue.

Definition csi_storage_capacity_page (namespace : string) :=
  rows_page (page_texts_of "Kubernetes CSIStorageCapacity" "table") csiStorageCapacityMaxListItems
    csiStorageCapacityColumns (λ columns, new_items (decodeCSIStorageCapacityTableRow columns namespace)
      capacity_identity "duplicate Kubernetes CSIStorageCapacity identity").
End capacities.

(** ** CSI nodes (csi_node.go) *)

Definition csiNodeCollectionPath : string := "/apis/storage.k8s.io/v1/csinodes".
Definition csiNodeListPageSize : string := "250".
Definition csiNodeMaxListPages : nat := 4.
Definition csiNodeMaxListItems : Z := 1000.
Definition csiNodeMaxPageBytes : Z := 2 * 1024 * 1024.
Definition csiNodeMaxListBytes : Z := 4 * 1024 * 1024.
Definition csiNodeMaxDetailBytes : Z := 1024 * 1024.
Definition csiNodeMaxContinueBytes : Z := 16 * 1024.
Definition csiNodeMaxDrivers : Z := 128.
Definition csiNodeMaxNodeIDBytes : Z := 192.
Definition csiNodeMaxTopologyKeysPerDriver : Z := 64.
Definition csiNodeMaxTopologyKeysTotal : Z := 4096.
Definition csiNodeMaxTopologyKeyBytes : Z := 317.

Definition csiNodeColumns : list column → result (gmap string Z) :=
  tableColumns "Kubernetes CSINode" [("Name", "string"); ("Drivers", "integer")].

Definition decodeCSINodeTableRow (columns : gmap string Z) (row : kubernetesTableRow) : result KubernetesCSINode :=
  let what := "Kubernetes CSINode" in
  metadata ← row_metadata what row false;
  name ← row_name what row columns metadata ValidateNodeName;
  driverCount ← or_fail (csiNodeIntegerCell row (column_of columns "Drivers"))
    (λ count, count <=? csiNodeMaxDrivers) (upstream "invalid Kubernetes CSINode driver count");
  Ok (KubernetesCSINode.mk name driverCount metadata.(partialObjectMetadata.CreationTimestamp)).

Definition validCSINodeContinue : string → bool := valid_continue csiNodeMaxContinueBytes.

Definition csi_node_pager : pager :=
  strict_pager "Kubernetes CSINode" {[ "includeObject" := "Metadata"; "limit" := csiNodeListPageSize ]}
    kubernetesTableAccept csiNodeMaxListPages csiNodeMaxListBytes csiNodeMaxPageBytes validCSINodeContinue.

Definition csi_node_page :=
  rows_page (page_texts_of "Kubernetes CSINode" "table") csiNodeMaxListItems csiNodeColumns
    (λ columns, new_items (decodeCSINodeTableRow columns) KubernetesCSINode.Name
       "duplicate Kubernetes CSINode identity").

(** The identifier of the node at the driver is checked and not kept. *)
Definition discardedCSINodeID : decoder bool := λ _ text v,
  if csiNodeMaxNodeIDBytes * 6 + 2 <? len text then None else
  match v with
  | Str nodeID =>
      if bool_decide (nodeID = "") || (csiNodeMaxNodeIDBytes <? len nodeID) || negb (clean nodeID)
      then None else Some true
  | _ => None
  end.

Section csi_nodes.
Context `{Apimachinery}.

Definition topology_key (v : value) : bool :=
  match v with
  | Str key => negb (bool_decide (key = "")) && (len key <=? csiNodeMaxTopologyKeyBytes) &&
      bool_decide (IsQualifiedName key = [])
  | _ => false
  end.

(** The keys of a driver are checked and counted. *)
Definition discardedCSINodeTopologyKeys : decoder Z := λ _ _ v,
  match v with
  | Null => Some 0
  | Array keys =>
      if (len_list keys <=? csiNodeMaxTopologyKeysPerDriver) && forallb (λ '(_, key), topology_key key) keys
      then Some (len_list keys) else None
  | _ => None
  end.

End csi_nodes.

Module csiNodeDriverSource.
Record t : Type := mk {
  Name : string;
  NodeID : bool;
  TopologyKeys : Z;
  (** [Allocatable.Count]. *)
  Allocatable : option (option Z);
}.
#[global] Instance zero_t : Zero t := mk "" false 0 None.
Definition decode `{Apimachinery} : decoder t := struct (λ old ms,
  name ← field "name" string_ old.(Name) ms;
  nodeID ← field "nodeID" discardedCSINodeID old.(NodeID) ms;
  topologyKeys ← field "topologyKeys" discardedCSINodeTopologyKeys old.(TopologyKeys) ms;
  allocatable ← field "allocatable" (pointer (struct (field "count" (pointer (int_ 32))))) old.(Allocatable) ms;
  Some (mk name nodeID topologyKeys allocatable)).
End csiNodeDriverSource.
Notation csiNodeDriverSource := csiNodeDriverSource.t.

(** The drivers, where they are given: [present] and the list. *)
Definition csiNodeDriverListSource `{Apimachinery} : decoder (option (list csiNodeDriverSource)) := λ _ _ v,
  match v with
  | Null => Some (Some [])
  | Array elements =>
      if csiNodeMaxDrivers <? len_list elements then None
      else Some <$> mapM (λ '(text, driver), csiNodeDriverSource.decode zero text driver) elements
  | _ => None
  end.

Module csiNodeSource.
Record t : Type := mk {
  APIVersion : string;
  Kind : string;
  Metadata : sourceMetadata;
  (** [Spec.Drivers]. *)
  Drivers : option (list csiNodeDriverSource);
}.
#[global] Instance zero_t : Zero t := mk "" "" zero None.
Definition decode `{Apimachinery} : decoder t := struct (λ old ms,
  apiVersion ← field "apiVersion" string_ old.(APIVersion) ms;
  kind ← field "kind" string_ old.(Kind) ms;
  metadata ← field "metadata" sourceMetadata.decode_plain old.(Metadata) ms;
  drivers ← field "spec" (struct (field "drivers" csiNodeDriverListSource)) old.(Drivers) ms;
  Some (mk apiVersion kind metadata drivers)).
End csiNodeSource.
Notation csiNodeSource := csiNodeSource.t.

(** The drivers one after the other, with the topology keys counted so far. *)
Fixpoint csi_node_drivers (sources : list csiNodeDriverSource) (seen : list string) (topologyKeyCount : Z) :
    result (list KubernetesCSINodeDriver) :=
  match sources with
  | [] => Ok []
  | csiNodeDriverSource.mk name nodeID topologyKeys allocatable :: sources =>
      reject_if (negb (is_ok (ValidateCSIDriverName name)) || negb nodeID)
        (upstream "invalid Kubernetes CSINode driver") ;;
      reject_if (bool_decide (name ∈ seen)) (upstream "duplicate Kubernetes CSINode driver") ;;
      let topologyKeyCount := topologyKeyCount + topologyKeys in
      reject_if (csiNodeMaxTopologyKeysTotal <? topologyKeyCount)
        (upstream "Kubernetes CSINode topology keys exceeded safe limit") ;;
      let allocatableCount := allocatable ≫= id in
      reject_if (from_option (λ count, count <? 0) false allocatableCount)
        (upstream "invalid Kubernetes CSINode allocatable count") ;;
      drivers ← csi_node_drivers sources (name :: seen) topologyKeyCount;
      Ok (KubernetesCSINodeDriver.mk name allocatableCount topologyKeys :: drivers)
  end.

Section csi_node.
Context `{Apimachinery}.

Definition decodeCSINode (payload expectedName : string) : result KubernetesCSINodeDetail :=
  source ← expect_ok (upstream "decode Kubernetes CSINode detail") (Unmarshal csiNodeSource.decode payload);
  let metadata := source.(csiNodeSource.Metadata) in
  let invalid := upstream "invalid Kubernetes CSINode identity" in
  reject_if (negb (is_cluster_object source.(csiNodeSource.APIVersion) source.(csiNodeSource.Kind)
      "storage.k8s.io/v1" "CSINode" metadata expectedName ValidateNodeName)) invalid ;;
  sources ← expect_ok invalid source.(csiNodeSource.Drivers);
  drivers ← csi_node_drivers sources [] 0;
  Ok (KubernetesCSINodeDetail.mk
        (KubernetesCSINode.mk metadata.(sourceMetadata.Name) (len_list drivers)
           metadata.(sourceMetadata.CreationTimestamp))
        (sort_Slice (by_name KubernetesCSINodeDriver.Name) drivers)).
End csi_node.

(** ** The methods of the client *)

Section storage_readers.
Context (token : string).

Definition listStorageTable (path expectedNamespace : string) (kind : storageTableKind) :
    fetch (result (list storageTableItem)) :=
  items ←! all_pages token storage_pager (storage_page expectedNamespace kind) path;
  Done (Ok (sort_Slice (by_namespace storageTableItem.Namespace storageTableItem.Name) items)).

Definition claim_of (item : storageTableItem) : KubernetesPersistentVolumeClaim :=
  let '(storageTableItem.mk namespace name status volume _ capacity modes class _ mode _ _ _ _ created) := item in
  KubernetesPersistentVolumeClaim.mk namespace name status volume capacity modes class mode created.

Definition volume_of (item : storageTableItem) : KubernetesPersistentVolume :=
  let '(storageTableItem.mk _ name status _ claim capacity modes class policy mode _ _ _ _ created) := item in
  KubernetesPersistentVolume.mk name status claim capacity modes class policy mode created.

Definition class_of (item : storageTableItem) : KubernetesStorageClass :=
  let '(storageTableItem.mk _ name _ _ _ _ _ _ policy _ provisioner binding expansion isDefault created) := item in
  KubernetesStorageClass.mk name provisioner policy binding expansion isDefault created.

Definition PersistentVolumeClaims (namespace : string) : fetch (result (list KubernetesPersistentVolumeClaim)) :=
  path ←! Done (scoped_path namespace "/api/v1/persistentvolumeclaims" "/api/v1" "persistentvolumeclaims");
  items ←! listStorageTable path namespace storageTablePersistentVolumeClaim;
  Done (Ok (claim_of <$> items)).

Definition PersistentVolumes : fetch (result (list KubernetesPersistentVolume)) :=
  items ←! listStorageTable "/api/v1/persistentvolumes" "" storageTablePersistentVolume;
  Done (Ok (volume_of <$> items)).

Definition StorageClasses : fetch (result (list KubernetesStorageClass)) :=
  items ←! listStorageTable "/apis/storage.k8s.io/v1/storageclasses" "" storageTableStorageClass;
  Done (Ok (class_of <$> items)).

Definition VolumeAttachments : fetch (result (list KubernetesVolumeAttachment)) :=
  items ←! all_pages token volume_attachment_pager volume_attachment_page volumeAttachmentCollectionPath;
  Done (Ok (sort_Slice (by_name KubernetesVolumeAttachment.Name) items)).

Definition VolumeAttributesClasses : fetch (result (list KubernetesVolumeAttributesClass)) :=
  items ←! all_pages token volume_attributes_class_pager volume_attributes_class_page
    volumeAttributesClassCollectionPath;
  Done (Ok (sort_Slice (by_name KubernetesVolumeAttributesClass.Name) items)).

Definition CSIStorageCapacities `{Apimachinery} (namespace : string) :
    fetch (result (list KubernetesCSIStorageCapacity)) :=
  path ←! Done (scoped_path namespace csiStorageCapacityCollectionPath "/apis/storage.k8s.io/v1" "csistoragecapacities");
  items ←! all_pages token csi_storage_capacity_pager (csi_storage_capacity_page namespace) path;
  Done (Ok (sort_Slice capacity_less items)).

Definition CSINodes : fetch (result (list KubernetesCSINode)) :=
  items ←! all_pages token csi_node_pager csi_node_page csiNodeCollectionPath;
  Done (Ok (sort_Slice (by_name KubernetesCSINode.Name) items)).

Definition CSINode `{Apimachinery} : string → fetch (result KubernetesCSINodeDetail) :=
  one_object token ValidateNodeName csiNodeCollectionPath csiNodeMaxDetailBytes decodeCSINode.
End storage_readers.

(** ** Columns *)

(** What [tableColumns] finds: every required column, once, with its type. *)
Definition columns_found (required : list (string * string)) (columns : list column) (found : gmap string Z) : Prop :=
  ∀ name type, (name, type) ∈ required →
    ∃ i, found !! name = Some (Z.of_nat i) ∧ columns !! i = Some (name, type) ∧
      ∀ j type', columns !! j = Some (name, type') → j = i.

(** What was found among the columns [before]: the required ones, and all of them. *)
Definition columns_seen (required : list (string * string)) (before : list column) (found : gmap string Z) : Prop :=
  (∀ name i, found !! name = Some i → ∃ type, (name, type) ∈ required ∧ 0 ≤ i ∧ before !! Z.to_nat i = Some (name, type)) ∧
  (∀ j name type, before !! j = Some (name, type) → is_Some ((list_to_map required : gmap string string) !! name) →
     found !! name = Some (Z.of_nat j)).

Lemma seen_found required before found :
  NoDup required.*1 → columns_seen required before found → size found = length required →
  columns_found required before found.
Proof.
  intros Hnd [Hfound Hbefore] Hsize name type Hin.
  assert (dom found = (list_to_set required.*1 : gset string)) as Hdom.
  { apply set_subseteq_size_eq.
    - intros n [i Hi]%elem_of_dom. apply Hfound in Hi as (t & Ht & _). apply elem_of_list_to_set.
      by apply (list_elem_of_fmap_2 fst _ (n, t)).
    - rewrite size_dom, Hsize, size_list_to_set, length_fmap by done. lia. }
  assert (is_Some (found !! name)) as [i Hi].
  { apply elem_of_dom. rewrite Hdom. apply elem_of_list_to_set. by apply (list_elem_of_fmap_2 fst _ (name, type)). }
  destruct (Hfound _ _ Hi) as (type' & Hin' & Hi0 & Hb).
  assert (type' = type) as -> by (apply elem_of_list_to_map_1 in Hin, Hin'; [congruence|done..]).
  exists (Z.to_nat i). rewrite Z2Nat.id by done. split_and!; [done..|].
  intros j type' Hj. assert (found !! name = Some (Z.of_nat j)) as E.
  { eapply Hbefore; [done|]. exists type. by apply elem_of_list_to_map_1. }
  rewrite Hi in E. injection E as ->. by rewrite Nat2Z.id.
Qed.

Lemma seen_skip required before found name type :
  columns_seen required before found → (list_to_map required : gmap string string) !! name = None →
  columns_seen required (before ++ [(name, type)]) found.
Proof.
  intros [Hfound Hbefore] E. split.
  - intros n i (t & ? & ? & Hb)%Hfound. exists t. split_and!; [done..|]. by apply lookup_app_l_Some.
  - intros j n t [Hj|[Hl Hj]]%lookup_app_Some [e He]; [by eapply Hbefore|].
    apply list_lookup_singleton_Some in Hj as [_ [= <- _]]. congruence.
Qed.

Lemma seen_add required before found name type :
  columns_seen required before found → (list_to_map required : gmap string string) !! name = Some type →
  found !! name = None →
  columns_seen required (before ++ [(name, type)]) (<[name := len_list before]> found).
Proof.
  intros [Hfound Hbefore] E Hd. split.
  - intros n i. rewrite lookup_insert. case_decide as Hn.
    + subst n. intros [= <-]. exists type. split_and!; [by apply elem_of_list_to_map_2|unfold len_list; lia|].
      unfold len_list. rewrite Nat2Z.id. by apply list_lookup_middle.
    + intros (t & ? & ? & Hb)%Hfound. exists t. split_and!; [done..|]. by apply lookup_app_l_Some.
  - intros j n t [Hj|[Hl Hj]]%lookup_app_Some Hr; rewrite lookup_insert; case_decide as Hn.
    + subst n. eapply Hbefore in Hj; [|by eexists]. congruence.
    + by eapply Hbefore.
    + apply list_lookup_singleton_Some in Hj as [Hj _]. unfold len_list, column in *. apply (f_equal Some). lia.
    + by apply list_lookup_singleton_Some in Hj as [_ [= <- _]].
Qed.

Lemma required_columns_spec what required columns before found found' :
  NoDup required.*1 → columns_seen required before found →
  required_columns what required (len_list before) columns found = Ok found' →
  columns_found required (before ++ columns) found'.
Proof.
  intros Hnd. revert before found.
  induction columns as [|[name type] columns IH]; intros before found Hs; cbn [required_columns].
  - intros (? & Hsize & [= <-])%bind_Ok. apply reject_if_Ok, negb_false_iff, bool_decide_eq_true in Hsize.
    rewrite app_nil_r. by apply seen_found.
  - intros (_ & _ & H)%bind_Ok.
    replace (len_list before + 1) with (len_list (before ++ [(name, type)])) in H
      by (unfold len_list; rewrite length_app; cbn; lia).
    change (before ++ (name, type) :: columns) with (before ++ [(name, type)] ++ columns). rewrite app_assoc.
    destruct ((list_to_map required : gmap string string) !! name) as [expected|] eqn:E.
    + apply bind_Ok in H as (? & Ht & (? & Hd & H)%bind_Ok).
      apply reject_if_Ok, negb_false_iff, bool_decide_eq_true in Ht. subst expected.
      apply reject_if_Ok, bool_decide_eq_false, eq_None_not_Some in Hd.
      revert H. by apply IH, seen_add.
    + revert H. by apply IH, seen_skip.
Qed.

Lemma tableColumns_spec what required columns found :
  NoDup required.*1 → tableColumns what required columns = Ok found → columns_found required columns found.
Proof.
  intros Hnd. apply (required_columns_spec what required columns [] ∅); [done|]. split; [done|].
  intros j name type Hj. by rewrite lookup_nil in Hj.
Qed.

(** ** What the lists and objects hold *)

Lemma or_fail_Ok {A} (m : result A) valid err a : or_fail m valid err = Ok a ↔ m = Ok a ∧ valid a = true.
Proof.
  unfold or_fail. destruct m as [b|]; [|split; [done|by intros []]]. destruct (valid b) eqn:E; split.
  - by intros [= <-].
  - by intros [[= <-] _].
  - done.
  - intros [[= <-] Ha]. congruence.
Qed.

Lemma row_name_Ok what row columns metadata validate name :
  row_name what row columns metadata validate = Ok name →
  name = metadata.(partialObjectMetadata.Name) ∧ validate name = Ok tt.
Proof.
  intros [_ [Hn Hv]%andb_true_iff]%or_fail_Ok. apply bool_decide_eq_true in Hn. split; [done|].
  by destruct (validate name) as [[]|].
Qed.

Lemma is_ok_unit (r : result unit) : is_ok r = true → r = Ok tt.
Proof. by destruct r as [[]|]. Qed.

Definition attachment (a : KubernetesVolumeAttachment) : Prop :=
  ValidateVolumeAttachmentName a.(KubernetesVolumeAttachment.Name) = Ok tt ∧
  a.(KubernetesVolumeAttachment.Attacher) ≠ "" ∧
  ValidateNodeName a.(KubernetesVolumeAttachment.Node) = Ok tt ∧
  a.(KubernetesVolumeAttachment.Status) ∈ ["attached"; "attaching"; "detaching"].

Lemma decodeVolumeAttachmentTableRow_spec columns row a :
  decodeVolumeAttachmentTableRow columns row = Ok a → attachment a.
Proof.
  unfold decodeVolumeAttachmentTableRow. cbv zeta.
  intros (m & _ & (name & [_ Hn]%row_name_Ok & (attacher & [_ Ha]%or_fail_Ok & (volume & _ &
    (node & [_ Hnode%is_ok_unit]%or_fail_Ok & (attached & _ & [= <-])%bind_Ok)%bind_Ok)%bind_Ok)%bind_Ok)%bind_Ok)%bind_Ok.
  apply negb_true_iff, bool_decide_eq_false in Ha. split_and!; [done..|].
  cbn. case_bool_decide; [by repeat constructor|]. destruct attached; by repeat constructor.
Qed.

Lemma VolumeAttachments_safe token :
  safe reading 4 (VolumeAttachments token) (if_ok (listed 1000 KubernetesVolumeAttachment.Name attachment)).
Proof.
  unfold VolumeAttachments. apply (listed_pages_safe token volume_attachment_pager); [done| |done..].
  apply rows_page_keeps. intros columns. apply new_items_keeps, decodeVolumeAttachmentTableRow_spec.
Qed.

Definition attributes_class (c : KubernetesVolumeAttributesClass) : Prop :=
  ValidateVolumeAttributesClassName c.(KubernetesVolumeAttributesClass.Name) = Ok tt ∧
  ValidateCSIDriverName c.(KubernetesVolumeAttributesClass.DriverName) = Ok tt.

Lemma decodeVolumeAttributesClassTableRow_spec columns row c :
  decodeVolumeAttributesClassTableRow columns row = Ok c → attributes_class c.
Proof.
  unfold decodeVolumeAttributesClassTableRow. cbv zeta.
  by intros (m & _ & (name & [_ Hn]%row_name_Ok & (driver & [_ Hd%is_ok_unit]%or_fail_Ok & [= <-])%bind_Ok)%bind_Ok)%bind_Ok.
Qed.

Lemma VolumeAttributesClasses_safe token :
  safe reading 4 (VolumeAttributesClasses token)
    (if_ok (listed 1000 KubernetesVolumeAttributesClass.Name attributes_class)).
Proof.
  unfold VolumeAttributesClasses. apply (listed_pages_safe token volume_attributes_class_pager); [done| |done..].
  apply rows_page_keeps. intros columns. apply new_items_keeps, decodeVolumeAttributesClassTableRow_spec.
Qed.

Definition csi_node (n : KubernetesCSINode) : Prop :=
  ValidateNodeName n.(KubernetesCSINode.Name) = Ok tt ∧ n.(KubernetesCSINode.DriverCount) ≤ 128.

Lemma decodeCSINodeTableRow_spec columns row n : decodeCSINodeTableRow columns row = Ok n → csi_node n.
Proof.
  unfold decodeCSINodeTableRow. cbv zeta.
  by intros (m & _ & (name & [_ Hn]%row_name_Ok & (count & [_ Hc%Z.leb_le]%or_fail_Ok & [= <-])%bind_Ok)%bind_Ok)%bind_Ok.
Qed.

Lemma CSINodes_safe token : safe reading 4 (CSINodes token) (if_ok (listed 1000 KubernetesCSINode.Name csi_node)).
Proof.
  unfold CSINodes. apply (listed_pages_safe token csi_node_pager); [done| |done..].
  apply rows_page_keeps. intros columns. apply new_items_keeps, decodeCSINodeTableRow_spec.
Qed.

Definition capacity_in (namespace : string) (c : KubernetesCSIStorageCapacity) : Prop :=
  in_scope namespace c.(KubernetesCSIStorageCapacity.Namespace) ∧
  ValidateCSIStorageCapacityName c.(KubernetesCSIStorageCapacity.Name) = Ok tt ∧
  ValidateStorageClassName c.(KubernetesCSIStorageCapacity.StorageClass) = Ok tt.

#[global] Instance capacity_less_strict : StrictWeak capacity_less.
Proof.
  apply (strict_weak_lex (λ a b, bool_decide
    (a.(KubernetesCSIStorageCapacity.Namespace) = b.(KubernetesCSIStorageCapacity.Namespace))));
    [apply same_string|apply strict_weak_string|].
  apply (strict_weak_lex (λ a b, bool_decide
    (a.(KubernetesCSIStorageCapacity.StorageClass) = b.(KubernetesCSIStorageCapacity.StorageClass))));
    [apply same_string|apply strict_weak_string..].
Qed.

Lemma decodeCSIStorageCapacityTableRow_spec `{Apimachinery} columns namespace row c :
  decodeCSIStorageCapacityTableRow columns namespace row = Ok c → capacity_in namespace c.
Proof.
  unfold decodeCSIStorageCapacityTableRow. cbv zeta.
  by intros (m & _ & (? & Hs%scope_check & (name & [_ Hn]%row_name_Ok & (class & [_ Hc%is_ok_unit]%or_fail_Ok &
    (cell & _ & (capacity & _ & [= <-])%bind_Ok)%bind_Ok)%bind_Ok)%bind_Ok)%bind_Ok)%bind_Ok.
Qed.

Lemma CSIStorageCapacities_safe `{Apimachinery} token namespace :
  safe reading 4 (CSIStorageCapacities token namespace)
    (if_ok (sorted_list capacity_less (distinct_list 1000 capacity_identity (capacity_in namespace)))).
Proof.
  unfold CSIStorageCapacities. apply scoped_safe; [done|done|by apply safe_segmentb_spec|]. intros path Hp.
  apply (sorted_pages_safe token csi_storage_capacity_pager); [done| |apply _..|by apply distinct_list_nil|done].
  apply rows_page_keeps. intros columns. apply new_items_keeps, decodeCSIStorageCapacityTableRow_spec.
Qed.

(** The rows of a storage table are in the scope that was asked for. *)
Definition storage_item (namespace : string) (i : storageTableItem) : Prop :=
  in_scope namespace i.(storageTableItem.Namespace).

Lemma listStorageTable_safe token path namespace kind :
  plain_path path →
  safe reading 20 (listStorageTable token path namespace kind)
    (if_ok (sorted_list (by_namespace storageTableItem.Namespace storageTableItem.Name)
       (bounded_list 5000 (storage_item namespace)))).
Proof.
  intros Hp. unfold listStorageTable.
  apply (sorted_pages_safe token storage_pager); [done| |apply _..|by apply bounded_list_nil|done].
  apply rows_page_keeps. intros columns. apply all_items_keeps. intros row i. unfold storage_row.
  by intros (item & _ & (? & Hs%scope_check & [= <-])%bind_Ok)%bind_Ok.
Qed.

Lemma claims_sorted namespace items :
  sorted_list (by_namespace storageTableItem.Namespace storageTableItem.Name)
    (bounded_list 5000 (storage_item namespace)) items →
  sorted_list (by_namespace KubernetesPersistentVolumeClaim.Namespace KubernetesPersistentVolumeClaim.Name)
    (bounded_list 5000 (λ c, in_scope namespace c.(KubernetesPersistentVolumeClaim.Namespace))) (claim_of <$> items).
Proof.
  intros [[Hl Hf] Hs]. split; [split|].
  - unfold len_list in *. by rewrite length_fmap.
  - apply Forall_fmap. eapply Forall_impl; [exact Hf|]. by intros [].
  - induction Hs as [|i items Hs IH Hi]; cbn; [constructor|]. apply Forall_cons in Hf as [_ Hf].
    constructor; [apply IH; [cbn in Hl; unfold len_list in *; cbn in Hl; lia|done]|].
    apply Forall_fmap. eapply Forall_impl; [exact Hi|]. by intros []; destruct i.
Qed.

Lemma PersistentVolumeClaims_safe token namespace :
  safe reading 20 (PersistentVolumeClaims token namespace)
    (if_ok (sorted_list (by_namespace KubernetesPersistentVolumeClaim.Namespace KubernetesPersistentVolumeClaim.Name)
       (bounded_list 5000 (λ c, in_scope namespace c.(KubernetesPersistentVolumeClaim.Namespace))))).
Proof.
  unfold PersistentVolumeClaims. apply scoped_safe; [done|done|by apply safe_segmentb_spec|]. intros path Hp.
  eapply (safe_or_return reading 20 0); [by apply listStorageTable_safe|].
  intros items Hi. by apply safe_Done, claims_sorted.
Qed.

Lemma PersistentVolumes_safe token :
  safe reading 20 (PersistentVolumes token) (if_ok (λ volumes, len_list volumes ≤ 5000)).
Proof.
  unfold PersistentVolumes. eapply (safe_or_return reading 20 0); [by apply listStorageTable_safe, plainb_spec|].
  intros items [[Hl _] _]. apply safe_Done. cbn. unfold len_list in *. by rewrite length_fmap.
Qed.

Lemma StorageClasses_safe token :
  safe reading 20 (StorageClasses token) (if_ok (λ classes, len_list classes ≤ 5000)).
Proof.
  unfold StorageClasses. eapply (safe_or_return reading 20 0); [by apply listStorageTable_safe, plainb_spec|].
  intros items [[Hl _] _]. apply safe_Done. cbn. unfold len_list in *. by rewrite length_fmap.
Qed.

(** ** One CSI node *)

Fixpoint topology_keys (drivers : list KubernetesCSINodeDriver) : Z :=
  match drivers with [] => 0 | d :: drivers => d.(KubernetesCSINodeDriver.TopologyKeyCount) + topology_keys drivers end.

#[global] Instance topology_keys_Proper : Proper ((≡ₚ) ==> (=)) topology_keys.
Proof. intros l l' H. induction H; cbn; lia. Qed.

(** What is shown of a node: the node that was asked for, each driver once. *)
Definition csi_node_detail (name : string) (d : KubernetesCSINodeDetail) : Prop :=
  let drivers := d.(KubernetesCSINodeDetail.Drivers) in
  d.(KubernetesCSINodeDetail.KubernetesCSINode).(KubernetesCSINode.Name) = name ∧
  d.(KubernetesCSINodeDetail.KubernetesCSINode).(KubernetesCSINode.DriverCount) = len_list drivers ∧
  NoDup (KubernetesCSINodeDriver.Name <$> drivers) ∧ topology_keys drivers ≤ 4096 ∧
  Forall (λ driver, ValidateCSIDriverName driver.(KubernetesCSINodeDriver.Name) = Ok tt ∧
    from_option (λ count, 0 ≤ count) True driver.(KubernetesCSINodeDriver.AllocatableCount)) drivers ∧
  StronglySorted (not_after (by_name KubernetesCSINodeDriver.Name)) drivers.

Lemma csi_node_drivers_spec sources seen n drivers :
  csi_node_drivers sources seen n = Ok drivers → n ≤ 4096 →
  (∀ x, x ∈ seen → x ∉ KubernetesCSINodeDriver.Name <$> drivers) ∧
  NoDup (KubernetesCSINodeDriver.Name <$> drivers) ∧ n + topology_keys drivers ≤ 4096 ∧
  Forall (λ driver, ValidateCSIDriverName driver.(KubernetesCSINodeDriver.Name) = Ok tt ∧
    from_option (λ count, 0 ≤ count) True driver.(KubernetesCSINodeDriver.AllocatableCount)) drivers.
Proof.
  revert seen n drivers. induction sources as [|[name nodeID keys allocatable] sources IH]; intros seen n drivers;
    cbn [csi_node_drivers].
  { intros [= <-] Hn. cbn. split_and!; [|constructor|lia|constructor]. intros x _. apply not_elem_of_nil. }
  intros (? & Hv & (? & Hd & H)%bind_Ok)%bind_Ok Hn. cbv zeta in H.
  apply bind_Ok in H as (? & Ht & (? & Ha & (rest & Hr & [= <-])%bind_Ok)%bind_Ok).
  apply reject_if_Ok, orb_false_iff in Hv as [Hv%negb_false_iff%is_ok_unit _].
  apply reject_if_Ok, bool_decide_eq_false in Hd. apply reject_if_Ok, Z.ltb_ge in Ht. apply reject_if_Ok in Ha.
  unfold csiNodeMaxTopologyKeysTotal in Ht. apply IH in Hr as (Hs & Hnd & Hk & Hf); [|done]. cbn. split_and!.
  - intros s Hin. apply not_elem_of_cons. split; [by intros ->|]. apply Hs. by right.
  - constructor; [|done]. apply Hs. by left.
  - lia.
  - constructor; [|done]. split; [done|]. cbn. destruct (allocatable ≫= id) as [count|]; [|done].
    cbn in *. by apply Z.ltb_ge in Ha.
Qed.

Lemma decodeCSINode_spec `{Apimachinery} payload name d : decodeCSINode payload name = Ok d → csi_node_detail name d.
Proof.
  unfold decodeCSINode. intros (source & _ & H1)%bind_Ok. cbv zeta in H1.
  apply bind_Ok in H1 as (? & Hid & (sources & _ & (drivers & Hd & [= <-])%bind_Ok)%bind_Ok).
  apply reject_if_Ok, negb_false_iff, is_cluster_object_name in Hid as [Hid _].
  apply csi_node_drivers_spec in Hd as (_ & Hn & Hk & Hf); [|done]. unfold csi_node_detail. cbn. split_and!; [done|..].
  - unfold len_list. by rewrite sort_Slice_length.
  - by rewrite sort_Slice_Permutation.
  - by rewrite sort_Slice_Permutation.
  - by rewrite sort_Slice_Permutation.
  - apply sort_Slice_Sorted, _.
Qed.

Lemma CSINode_safe `{Apimachinery} token name : safe reading 1 (CSINode token name) (if_ok (csi_node_detail name)).
Proof.
  unfold CSINode. apply one_object_safe; [|by apply plainb_spec|done|].
  - intros n Hn%guard_Ok%negb_false_iff. by apply validDNSSubdomain_safe.
  - intros payload d _. apply decodeCSINode_spec.
Qed.
