(* ===== verification/Governance.v ===== *)
(** * Governance of namespaces (src/internal/kubernetes)

    Resource quotas and limit ranges (governance.go), autoscalers and disruption budgets
    (availability.go): lists of whole objects, whose parts are projected within budgets
    that all objects of a list share. *)

From S2P Require Export Paging.

Local Open Scope Z_scope.
Local Open Scope stdpp_scope.
Local Open Scope fetch_scope.
Local Open Scope json_scope.

Import Json.

Definition governanceListPageSize : string := "250".
Definition maxGovernanceListPages : nat := 4.
Definition maxGovernanceListItems : Z := 1000.
Definition maxGovernancePageBytes : Z := 2 * 1024 * 1024.
Definition maxGovernanceListBytes : Z := 4 * 1024 * 1024.
Definition maxGovernanceContinueBytes : Z := 16 * 1024.
Definition maxGovernanceScalarBytes : Z := 512.
Definition maxQuotaResourcesPerObject : Z := 64.
Definition maxQuotaScopesPerObject : Z := 16.
Definition maxLimitConstraintsPerObject : Z := 128.
Definition maxGovernanceProjectedEntries : Z := 4096.
Definition maxGovernanceProjectedScopes : Z := 1024.

(** [governanceMetadata], and the map of a member whose value is not read. *)
Definition governanceMetadata : decoder sourceMetadata := sourceMetadata.decode.

Definition governanceScalar (value : string) (allowEmpty : bool) : result string :=
  reject_if ((negb allowEmpty && bool_decide (value = "")) || (maxGovernanceScalarBytes <? len value) ||
             negb (ValidString value) || negb (clean value)) ErrUpstream ;;
  Ok value.

(** [value, err := governanceScalar(...); if err != nil { return message }] *)
Definition scalar_or (message value : string) (allowEmpty : bool) : result string :=
  match governanceScalar value allowEmpty with Ok value => Ok value | Err _ => Err (upstream message) end.

Definition sortedGovernanceKeys (values : list (gmap string string)) : list string :=
  sort_Slice String.ltb (elements (⋃ (dom (D := gset string) <$> values))).

Definition validGovernanceContinue : string → bool := valid_continue maxGovernanceContinueBytes.

(** ** The list (governance.go) *)

Definition governance_pager : pager := {|
  pager.query := {[ "limit" := governanceListPageSize ]};
  pager.accept := "application/json";
  pager.maxPages := maxGovernanceListPages;
  pager.maxListBytes := maxGovernanceListBytes;
  pager.maxPageBytes := maxGovernancePageBytes;
  pager.bytes := pager.CheckAfter;
  pager.validContinue := validGovernanceContinue;
  pager.refusesRepeated := false;
  pager.full := None;
  pager.byteLimit := "Kubernetes governance list exceeded safe byte limit";
  pager.pageLimit := "Kubernetes governance list exceeded safe page limit";
  pager.badToken := "invalid Kubernetes governance continuation token";
  pager.repeatedToken := ""; pager.itemLimit := "";
|}.

(** The items of a page, as they are. *)
Definition governance_page (expectedAPIVersion expectedKind : string) :=
  objects_page expectedAPIVersion expectedKind (page_texts_of "Kubernetes governance" "list") maxGovernanceListItems
    (λ page (items : list RawMessage), Ok (items ++ page)).

(** The objects one after the other, with what is left of the budgets of the list. *)
Fixpoint decode_within {A S} (decode : RawMessage → S → result (A * S)) (items : list RawMessage) (remaining : S) :
    result (list A) :=
  match items with
  | [] => Ok []
  | item :: items =>
      '(object, remaining) ← decode item remaining;
      objects ← decode_within decode items remaining;
      Ok (object :: objects)
  end.

Section governance.
Context (token : string).

Definition listGovernanceRaw (path expectedAPIVersion expectedKind : string) : fetch (result (list RawMessage)) :=
  all_pages token governance_pager (governance_page expectedAPIVersion expectedKind) path.

(** A list of objects that share budgets, sorted. *)
Definition governed {A S} (path apiVersion kind : string) (decode : RawMessage → S → result (A * S)) (budgets : S)
    (less : A → A → bool) : fetch (result (list A)) :=
  items ←! listGovernanceRaw path apiVersion kind;
  objects ←! Done (decode_within decode items budgets);
  Done (Ok (sort_Slice less objects)).
End governance.

(** ** Identities *)

Definition validateGovernanceObjectIdentity (apiVersion kind expectedAPIVersion expectedKind : string)
    (metadata : sourceMetadata) : result unit :=
  reject_if (negb (bool_decide (apiVersion = expectedAPIVersion)) || negb (bool_decide (kind = expectedKind)) ||
             negb (validKubernetesMetadataString metadata.(sourceMetadata.Name)) ||
             IsZero metadata.(sourceMetadata.CreationTimestamp))
    (upstream "invalid Kubernetes governance object identity").

Definition validateGovernanceIdentity (apiVersion kind expectedAPIVersion expectedKind : string)
    (metadata : sourceMetadata) (expectedNamespace : string) : result unit :=
  validateGovernanceObjectIdentity apiVersion kind expectedAPIVersion expectedKind metadata ;;
  reject_if (negb (bool_decide (metadata.(sourceMetadata.Namespace) = expectedNamespace)) ||
             negb (is_ok (ValidateNamespace metadata.(sourceMetadata.Namespace))))
    (upstream "Kubernetes governance object exceeded namespace scope").

Definition validateGovernanceIdentityAnyNamespace (apiVersion kind expectedAPIVersion expectedKind : string)
    (metadata : sourceMetadata) : result unit :=
  validateGovernanceObjectIdentity apiVersion kind expectedAPIVersion expectedKind metadata ;;
  reject_if (negb (is_ok (ValidateNamespace metadata.(sourceMetadata.Namespace))))
    (upstream "Kubernetes governance object exceeded namespace scope").

(** ** Resource quotas *)

Module resourceQuotaSource.
Record t : Type := mk {
  APIVersion : string;
  Kind : string;
  Metadata : sourceMetadata;
  SpecHard : gmap string string;
  Scopes : list string;
  (** [Spec.ScopeSelector.MatchExpressions]. *)
  MatchExpressions : list RawMessage;
  StatusHard : gmap string string;
  Used : gmap string string;
}.
#[global] Instance zero_t : Zero t := mk "" "" zero ∅ [] [] ∅ ∅.
Definition spec : decoder (gmap string string * list string * list RawMessage) :=
  struct (field "hard" (map_ string_) ⊗ field "scopes" (slice string_) ⊗
    field "scopeSelector" (struct (field "matchExpressions" (slice raw_message)))).
Definition status : decoder (gmap string string * gmap string string) :=
  struct (field "hard" (map_ string_) ⊗ field "used" (map_ string_)).
Definition decode : decoder t := struct (λ old ms,
  apiVersion ← field "apiVersion" string_ old.(APIVersion) ms;
  kind ← field "kind" string_ old.(Kind) ms;
  metadata ← field "metadata" governanceMetadata old.(Metadata) ms;
  '(specHard, scopes, matchExpressions) ← field "spec" spec (old.(SpecHard), old.(Scopes), old.(MatchExpressions)) ms;
  '(statusHard, used) ← field "status" status (old.(StatusHard), old.(Used)) ms;
  Some (mk apiVersion kind metadata specHard scopes matchExpressions statusHard used)).
End resourceQuotaSource.
Notation resourceQuotaSource := resourceQuotaSource.t.

(** How many of [n] parts of an object are shown. *)
Definition projected (n perObject remaining : Z) : Z := Z.min n (Z.min perObject (Z.max 0 remaining)).

Definition quota_resource (specHard statusHard used : gmap string string) (key : string) :
    result KubernetesQuotaResource :=
  name ← scalar_or "invalid Kubernetes quota resource name" key false;
  hard ← scalar_or "invalid Kubernetes quota hard value" (default (default "" (specHard !! key)) (statusHard !! key)) true;
  usedValue ← scalar_or "invalid Kubernetes quota used value" (default "" (used !! key)) true;
  Ok (KubernetesQuotaResource.mk name hard usedValue (bool_decide (is_Some (statusHard !! key)))).

(** The resources, their number, whether some are left out, and what is left of the budget. *)
Definition projectQuotaResources (specHard statusHard used : gmap string string) (remaining : Z) :
    result (list KubernetesQuotaResource * Z * bool * Z) :=
  let keys := sortedGovernanceKeys [specHard; statusHard; used] in
  let limit := projected (len_list keys) maxQuotaResourcesPerObject remaining in
  resources ← mapM (quota_resource specHard statusHard used) (take (Z.to_nat limit) keys);
  Ok (resources, len_list keys, limit <? len_list keys, remaining - limit).

Definition projectQuotaScopes (scopes : list string) (remaining : Z) : result (list string * bool * Z) :=
  let sortedScopes := sort_Slice String.ltb scopes in
  let limit := projected (len_list sortedScopes) maxQuotaScopesPerObject remaining in
  values ← mapM (λ scope, scalar_or "invalid Kubernetes quota scope" scope false)
    (take (Z.to_nat limit) sortedScopes);
  Ok (values, limit <? len_list sortedScopes, remaining - limit).

Definition decodeResourceQuota (expectedNamespace : string) (raw : RawMessage) (remaining : Z * Z) :
    result (KubernetesResourceQuota * (Z * Z)) :=
  source ← expect_ok (upstream "decode Kubernetes ResourceQuota") (Unmarshal resourceQuotaSource.decode raw);
  let '(resourceQuotaSource.mk apiVersion kind metadata specHard scopes selector statusHard used) := source in
  validateGovernanceIdentity apiVersion kind "v1" "ResourceQuota" metadata expectedNamespace ;;
  '(resources, resourceCount, resourcesTruncated, remainingResources) ←
    projectQuotaResources specHard statusHard used remaining.1;
  '(projectedScopes, scopesTruncated, remainingScopes) ← projectQuotaScopes scopes remaining.2;
  Ok (KubernetesResourceQuota.mk metadata.(sourceMetadata.Namespace) metadata.(sourceMetadata.Name)
        projectedScopes (len_list scopes) scopesTruncated (len_list selector)
        resources resourceCount resourcesTruncated metadata.(sourceMetadata.CreationTimestamp),
      (remainingResources, remainingScopes)).

(** ** Limit ranges *)

Module limitRangeSource.
Record t : Type := mk {
  Type_ : string;
  DefaultRequest : gmap string string;
  Default : gmap string string;
  Min : gmap string string;
  Max : gmap string string;
  MaxLimitRequestRatio : gmap string string;
}.
#[global] Instance zero_t : Zero t := mk "" ∅ ∅ ∅ ∅ ∅.
Definition decode : decoder t := struct (λ old ms,
  type ← field "type" string_ old.(Type_) ms;
  defaultRequest ← field "defaultRequest" (map_ string_) old.(DefaultRequest) ms;
  default ← field "default" (map_ string_) old.(Default) ms;
  min ← field "min" (map_ string_) old.(Min) ms;
  max ← field "max" (map_ string_) old.(Max) ms;
  ratio ← field "maxLimitRequestRatio" (map_ string_) old.(MaxLimitRequestRatio) ms;
  Some (mk type defaultRequest default min max ratio)).
End limitRangeSource.
Notation limitRangeSource := limitRangeSource.t.

Definition limit_range_envelope : decoder (string * string * sourceMetadata * list limitRangeSource) :=
  struct (field "apiVersion" string_ ⊗ field "kind" string_ ⊗ field "metadata" governanceMetadata ⊗
    field "spec" (struct (field "limits" (slice limitRangeSource.decode)))).

Definition projectLimitRangeConstraint (source : limitRangeSource) (resource : string) :
    result KubernetesLimitRangeConstraint :=
  constraintType ← scalar_or "invalid Kubernetes limit range type" source.(limitRangeSource.Type_) false;
  resource ← scalar_or "invalid Kubernetes limit range resource" resource false;
  let value (values : gmap string string) :=
    scalar_or "invalid Kubernetes limit range value" (default "" (values !! resource)) true in
  defaultRequest ← value source.(limitRangeSource.DefaultRequest);
  default ← value source.(limitRangeSource.Default);
  min ← value source.(limitRangeSource.Min);
  max ← value source.(limitRangeSource.Max);
  ratio ← value source.(limitRangeSource.MaxLimitRequestRatio);
  Ok (KubernetesLimitRangeConstraint.mk constraintType resource defaultRequest default min max ratio).

(** The loop over the limits: the constraints that are shown, and how many there are. *)
Fixpoint project_limits (objectRemaining : Z) (limits : list limitRangeSource)
    (constraints : list KubernetesLimitRangeConstraint) (constraintCount : Z) :
    result (list KubernetesLimitRangeConstraint * Z) :=
  match limits with
  | [] => Ok (constraints, constraintCount)
  | limit :: limits =>
      let keys := sortedGovernanceKeys [limit.(limitRangeSource.DefaultRequest); limit.(limitRangeSource.Default);
        limit.(limitRangeSource.Min); limit.(limitRangeSource.Max); limit.(limitRangeSource.MaxLimitRequestRatio)] in
      let projectCount := Z.min (len_list keys) (objectRemaining - len_list constraints) in
      more ← mapM (projectLimitRangeConstraint limit) (take (Z.to_nat projectCount) keys);
      project_limits objectRemaining limits (constraints ++ more) (constraintCount + len_list keys)
  end.

Definition limit_less (a b : limitRangeSource) : bool :=
  String.ltb a.(limitRangeSource.Type_) b.(limitRangeSource.Type_).

Definition decodeLimitRange (expectedNamespace : string) (raw : RawMessage) (remaining : Z) :
    result (KubernetesLimitRange * Z) :=
  '(apiVersion, kind, metadata, limits) ←
    expect_ok (upstream "decode Kubernetes LimitRange") (Unmarshal limit_range_envelope raw);
  validateGovernanceIdentity apiVersion kind "v1" "LimitRange" metadata expectedNamespace ;;
  let objectRemaining := Z.min maxLimitConstraintsPerObject (Z.max 0 remaining) in
  '(constraints, constraintCount) ← project_limits objectRemaining (sort_SliceStable limit_less limits) [] 0;
  Ok (KubernetesLimitRange.mk metadata.(sourceMetadata.Namespace) metadata.(sourceMetadata.Name) constraints
        constraintCount (len_list constraints <? constraintCount) metadata.(sourceMetadata.CreationTimestamp),
      remaining - len_list constraints).

(** ** Availability (availability.go) *)

Definition maxAvailabilityConditionsPerObject : Z := 8.
Definition maxAvailabilityIntOrStringBytes : Z := 64.
Definition defaultHPAMinReplicas : Z := 1.
Definition defaultPDBUnhealthyPolicy : string := "IfHealthyBudget".

Module availabilityConditionSource.
Record t : Type := mk { Type_ : string; Status : string; Reason : string }.
#[global] Instance zero_t : Zero t := mk "" "" "".
Definition decode : decoder t := struct (λ old ms,
  type ← field "type" string_ old.(Type_) ms;
  status ← field "status" string_ old.(Status) ms;
  reason ← field "reason" string_ old.(Reason) ms;
  Some (mk type status reason)).
End availabilityConditionSource.
Notation availabilityConditionSource := availabilityConditionSource.t.

(** The labels and the expressions of a selector. *)
Definition availabilitySelectorSource : decoder (gmap string RawMessage * list RawMessage) :=
  struct (field "matchLabels" (map_ raw_message) ⊗ field "matchExpressions" (slice raw_message)).

Definition condition_less (a b : availabilityConditionSource) : bool :=
  if negb (bool_decide (a.(availabilityConditionSource.Type_) = b.(availabilityConditionSource.Type_)))
  then String.ltb a.(availabilityConditionSource.Type_) b.(availabilityConditionSource.Type_)
  else String.ltb a.(availabilityConditionSource.Reason) b.(availabilityConditionSource.Reason).

Definition validConditionStatus (status : string) : bool :=
  bool_decide (status = "True") || bool_decide (status = "False") || bool_decide (status = "Unknown").

Definition availability_condition (condition : availabilityConditionSource) : result KubernetesPolicyCondition :=
  type ← scalar_or "invalid Kubernetes availability condition" condition.(availabilityConditionSource.Type_) false;
  reject_if (negb (validConditionStatus condition.(availabilityConditionSource.Status)))
    (upstream "invalid Kubernetes availability condition") ;;
  reason ← scalar_or "invalid Kubernetes availability condition reason"
    condition.(availabilityConditionSource.Reason) true;
  Ok (KubernetesPolicyCondition.mk type condition.(availabilityConditionSource.Status) reason).

Definition projectAvailabilityConditions (source : list availabilityConditionSource) (remaining : Z) :
    result (list KubernetesPolicyCondition * bool * Z) :=
  let sorted := sort_SliceStable condition_less source in
  let limit := projected (len_list sorted) maxAvailabilityConditionsPerObject remaining in
  conditions ← mapM availability_condition (take (Z.to_nat limit) sorted);
  Ok (conditions, limit <? len_list sorted, remaining - limit).

Definition availabilityValuePresent (raw : RawMessage) : bool :=
  let trimmed := TrimSpace raw in negb (bool_decide (trimmed = "")) && negb (bool_decide (trimmed = "null")).

(** [json.Number]: the literal of a number, or the text of a string that is one. *)
Definition number_literal : decoder string := λ old _ v,
  match v with
  | Number literal => Some literal
  | Null => Some old
  | Str s => match number s with Some (_, "") => Some s | _ => None end
  | _ => None
  end.

Definition projectAvailabilityValue (raw : RawMessage) : result string :=
  let trimmed := TrimSpace raw in
  if bool_decide (trimmed = "") || bool_decide (trimmed = "null") then Ok "" else
  reject_if (maxAvailabilityIntOrStringBytes + 2 <? len trimmed) ErrUpstream ;;
  if HasPrefix trimmed (String quote "") then
    value ← expect_ok ErrUpstream (Unmarshal string_ trimmed);
    reject_if (maxAvailabilityIntOrStringBytes <? len value) ErrUpstream ;;
    governanceScalar value false
  else
    literal ← expect_ok ErrUpstream (Unmarshal number_literal trimmed);
    value ← expect_ok ErrUpstream (ParseInt literal 32);
    reject_if (value <? 0) ErrUpstream ;;
    Ok (FormatInt value).

Definition generationObserved (generation : Z) (observed : option Z) : bool :=
  (0 <? generation) && bool_decide (observed = Some generation).

(** [value, err := m; if err != nil { return message }] *)
Definition or_message {A} (message : string) (m : result A) : result A :=
  match m with Ok a => Ok a | Err _ => Err (upstream message) end.

(** ** Autoscalers *)

Module horizontalPodAutoscalerSource.
Record spec : Type := mkSpec {
  (** [ScaleTargetRef]. *)
  TargetAPIVersion : string;
  TargetKind : string;
  TargetName : string;
  MinReplicas : option Z;
  MaxReplicas : Z;
  Metrics : list RawMessage;
}.
Record status : Type := mkStatus {
  ObservedGeneration : option Z;
  CurrentReplicas : Z;
  DesiredReplicas : Z;
  CurrentMetrics : list RawMessage;
  LastScaleTime : option time;
  Conditions : list availabilityConditionSource;
}.
Record t : Type := mk { APIVersion : string; Kind : string; Metadata : sourceMetadata; Spec : spec; Status : status }.
#[global] Instance zero_t : Zero t :=
  mk "" "" zero (mkSpec "" "" "" None 0 []) (mkStatus None 0 0 [] None []).
Definition decode_spec : decoder spec := struct (λ old ms,
  '(version, kind, name) ← field "scaleTargetRef"
    (struct (field "apiVersion" string_ ⊗ field "kind" string_ ⊗ field "name" string_))
    (old.(TargetAPIVersion), old.(TargetKind), old.(TargetName)) ms;
  minReplicas ← field "minReplicas" (pointer (int_ 32)) old.(MinReplicas) ms;
  maxReplicas ← field "maxReplicas" (int_ 32) old.(MaxReplicas) ms;
  metrics ← field "metrics" (slice raw_message) old.(Metrics) ms;
  Some (mkSpec version kind name minReplicas maxReplicas metrics)).
Definition decode_status : decoder status := struct (λ old ms,
  observedGeneration ← field "observedGeneration" (pointer (int_ 64)) old.(ObservedGeneration) ms;
  currentReplicas ← field "currentReplicas" (int_ 32) old.(CurrentReplicas) ms;
  desiredReplicas ← field "desiredReplicas" (int_ 32) old.(DesiredReplicas) ms;
  currentMetrics ← field "currentMetrics" (slice raw_message) old.(CurrentMetrics) ms;
  lastScaleTime ← field "lastScaleTime" (pointer time_) old.(LastScaleTime) ms;
  conditions ← field "conditions" (slice availabilityConditionSource.decode) old.(Conditions) ms;
  Some (mkStatus observedGeneration currentReplicas desiredReplicas currentMetrics lastScaleTime conditions)).
Definition decode : decoder t := struct (λ old ms,
  apiVersion ← field "apiVersion" string_ old.(APIVersion) ms;
  kind ← field "kind" string_ old.(Kind) ms;
  metadata ← field "metadata" governanceMetadata old.(Metadata) ms;
  spec ← field "spec" decode_spec old.(Spec) ms;
  status ← field "status" decode_status old.(Status) ms;
  Some (mk apiVersion kind metadata spec status)).
End horizontalPodAutoscalerSource.
Notation horizontalPodAutoscalerSource := horizontalPodAutoscalerSource.t.

Definition decodeHorizontalPodAutoscaler (expectedNamespace : string) (raw : RawMessage) (remaining : Z) :
    result (KubernetesHorizontalPodAutoscaler * Z) :=
  source ← expect_ok (upstream "decode Kubernetes HorizontalPodAutoscaler")
    (Unmarshal horizontalPodAutoscalerSource.decode raw);
  let '(horizontalPodAutoscalerSource.mk apiVersion kind metadata spec status) := source in
  let '(horizontalPodAutoscalerSource.mkSpec version target name minimum maxReplicas metrics) := spec in
  let '(horizontalPodAutoscalerSource.mkStatus observed current desired currentMetrics lastScaleTime conditions) := status in
  validateGovernanceIdentity apiVersion kind "autoscaling/v2" "HorizontalPodAutoscaler" metadata expectedNamespace ;;
  targetAPIVersion ← scalar_or "invalid Kubernetes autoscaler target api version" version true;
  targetKind ← scalar_or "invalid Kubernetes autoscaler target" target false;
  reject_if (negb (validKubernetesMetadataString name)) (upstream "invalid Kubernetes autoscaler target") ;;
  let minReplicas := default defaultHPAMinReplicas minimum in
  reject_if ((minReplicas <? 0) || (maxReplicas <=? 0) || (maxReplicas <? minReplicas) || (current <? 0) || (desired <? 0))
    (upstream "invalid Kubernetes autoscaler replica count") ;;
  reject_if (bool_decide (lastScaleTime = Some time_zero)) (upstream "invalid Kubernetes autoscaler scale time") ;;
  '(shown, truncated, remaining) ← projectAvailabilityConditions conditions remaining;
  Ok (KubernetesHorizontalPodAutoscaler.mk metadata.(sourceMetadata.Namespace) metadata.(sourceMetadata.Name)
        targetAPIVersion targetKind name minReplicas (bool_decide (minimum = None)) maxReplicas current desired
        (len_list metrics) (len_list currentMetrics)
        (generationObserved metadata.(sourceMetadata.Generation) observed)
        shown (len_list conditions) truncated lastScaleTime metadata.(sourceMetadata.CreationTimestamp),
      remaining).

(** ** Disruption budgets *)

Module podDisruptionBudgetSource.
Record spec : Type := mkSpec {
  Selector : option (gmap string RawMessage * list RawMessage);
  MinAvailable : RawMessage;
  MaxUnavailable : RawMessage;
  UnhealthyPodEvictionPolicy : string;
}.
Record status : Type := mkStatus {
  ObservedGeneration : option Z;
  CurrentHealthy : Z;
  DesiredHealthy : Z;
  DisruptionsAllowed : Z;
  ExpectedPods : Z;
  Conditions : list availabilityConditionSource;
}.
Record t : Type := mk { APIVersion : string; Kind : string; Metadata : sourceMetadata; Spec : spec; Status : status }.
#[global] Instance zero_t : Zero t := mk "" "" zero (mkSpec None "" "" "") (mkStatus None 0 0 0 0 []).
Definition decode_spec : decoder spec := struct (λ old ms,
  selector ← field "selector" (pointer availabilitySelectorSource) old.(Selector) ms;
  minAvailable ← field "minAvailable" raw_message old.(MinAvailable) ms;
  maxUnavailable ← field "maxUnavailable" raw_message old.(MaxUnavailable) ms;
  policy ← field "unhealthyPodEvictionPolicy" string_ old.(UnhealthyPodEvictionPolicy) ms;
  Some (mkSpec selector minAvailable maxUnavailable policy)).
Definition decode_status : decoder status := struct (λ old ms,
  observedGeneration ← field "observedGeneration" (pointer (int_ 64)) old.(ObservedGeneration) ms;
  currentHealthy ← field "currentHealthy" (int_ 32) old.(CurrentHealthy) ms;
  desiredHealthy ← field "desiredHealthy" (int_ 32) old.(DesiredHealthy) ms;
  disruptionsAllowed ← field "disruptionsAllowed" (int_ 32) old.(DisruptionsAllowed) ms;
  expectedPods ← field "expectedPods" (int_ 32) old.(ExpectedPods) ms;
  conditions ← field "conditions" (slice availabilityConditionSource.decode) old.(Conditions) ms;
  Some (mkStatus observedGeneration currentHealthy desiredHealthy disruptionsAllowed expectedPods conditions)).
Definition decode : decoder t := struct (λ old ms,
  apiVersion ← field "apiVersion" string_ old.(APIVersion) ms;
  kind ← field "kind" string_ old.(Kind) ms;
  metadata ← field "metadata" governanceMetadata old.(Metadata) ms;
  spec ← field "spec" decode_spec old.(Spec) ms;
  status ← field "status" decode_status old.(Status) ms;
  Some (mk apiVersion kind metadata spec status)).
End podDisruptionBudgetSource.
Notation podDisruptionBudgetSource := podDisruptionBudgetSource.t.

Definition disruptionBudgetStatus (observed : bool) (expectedPods disruptionsAllowed : Z) :
    KubernetesDisruptionBudgetStatus :=
  if negb observed then DisruptionBudgetUnobserved
  else if expectedPods =? 0 then DisruptionBudgetInactive
  else if disruptionsAllowed =? 0 then DisruptionBudgetBlocked else DisruptionBudgetAvailable.

(** How many labels and expressions a selector has, and what it selects. *)
Definition selector_counts (selector : option (gmap string RawMessage * list RawMessage)) : Z * Z :=
  from_option (λ '(labels, expressions), (Z.of_nat (size labels), len_list expressions)) (0, 0) selector.

Definition selector_mode (selector : option (gmap string RawMessage * list RawMessage)) : KubernetesSelectorMode :=
  match selector with
  | None => KubernetesSelectorNone
  | Some _ =>
      let '(labels, expressions) := selector_counts selector in
      if (0 <? labels) || (0 <? expressions) then KubernetesSelectorFiltered else KubernetesSelectorAll
  end.

(** [expectedNamespace] is [None] for all namespaces. *)
Definition decodePodDisruptionBudget (expectedNamespace : option string) (raw : RawMessage) (remaining : Z) :
    result (KubernetesPodDisruptionBudget * Z) :=
  source ← expect_ok (upstream "decode Kubernetes PodDisruptionBudget")
    (Unmarshal podDisruptionBudgetSource.decode raw);
  let '(podDisruptionBudgetSource.mk apiVersion kind metadata spec status) := source in
  let '(podDisruptionBudgetSource.mkSpec selector minimum maximum policy) := spec in
  let '(podDisruptionBudgetSource.mkStatus observedGeneration current desired allowed expected conditions) := status in
  match expectedNamespace with
  | None => validateGovernanceIdentityAnyNamespace apiVersion kind "policy/v1" "PodDisruptionBudget" metadata
  | Some namespace =>
      validateGovernanceIdentity apiVersion kind "policy/v1" "PodDisruptionBudget" metadata namespace
  end ;;
  reject_if (availabilityValuePresent minimum && availabilityValuePresent maximum)
    (upstream "Kubernetes disruption budget has mutually exclusive availability fields") ;;
  minAvailable ← or_message "invalid Kubernetes disruption budget minAvailable" (projectAvailabilityValue minimum);
  maxUnavailable ← or_message "invalid Kubernetes disruption budget maxUnavailable" (projectAvailabilityValue maximum);
  reject_if ((current <? 0) || (desired <? 0) || (allowed <? 0) || (expected <? 0))
    (upstream "invalid Kubernetes disruption budget status count") ;;
  let policyDefaulted := bool_decide (policy = "") in
  policy ← scalar_or "invalid Kubernetes disruption budget unhealthy pod policy"
    (if policyDefaulted then defaultPDBUnhealthyPolicy else policy) false;
  '(shown, truncated, remaining) ← projectAvailabilityConditions conditions remaining;
  let observed := generationObserved metadata.(sourceMetadata.Generation) observedGeneration in
  Ok (KubernetesPodDisruptionBudget.mk metadata.(sourceMetadata.Namespace) metadata.(sourceMetadata.Name)
        (selector_mode selector) (selector_counts selector).1 (selector_counts selector).2 minAvailable maxUnavailable
        current desired allowed expected observed (disruptionBudgetStatus observed expected allowed)
        policy policyDefaulted shown (len_list conditions) truncated metadata.(sourceMetadata.CreationTimestamp),
      remaining).

(** ** The methods of the client *)

Section governance_readers.
Context (token : string).

Definition ResourceQuotas (namespace : string) : fetch (result (list KubernetesResourceQuota)) :=
  ValidateNamespace namespace ;!
  governed token ("/api/v1/namespaces/" +:+ namespace +:+ "/resourcequotas") "v1" "ResourceQuotaList"
    (decodeResourceQuota namespace) (maxGovernanceProjectedEntries, maxGovernanceProjectedScopes)
    (by_name KubernetesResourceQuota.Name).

Definition LimitRanges (namespace : string) : fetch (result (list KubernetesLimitRange)) :=
  ValidateNamespace namespace ;!
  governed token ("/api/v1/namespaces/" +:+ namespace +:+ "/limitranges") "v1" "LimitRangeList"
    (decodeLimitRange namespace) maxGovernanceProjectedEntries (by_name KubernetesLimitRange.Name).

Definition HorizontalPodAutoscalers (namespace : string) : fetch (result (list KubernetesHorizontalPodAutoscaler)) :=
  ValidateNamespace namespace ;!
  governed token ("/apis/autoscaling/v2/namespaces/" +:+ namespace +:+ "/horizontalpodautoscalers")
    "autoscaling/v2" "HorizontalPodAutoscalerList" (decodeHorizontalPodAutoscaler namespace)
    maxGovernanceProjectedEntries (by_name KubernetesHorizontalPodAutoscaler.Name).

Definition listPodDisruptionBudgets (path : string) (expectedNamespace : option string) :
    fetch (result (list KubernetesPodDisruptionBudget)) :=
  governed token path "policy/v1" "PodDisruptionBudgetList" (decodePodDisruptionBudget expectedNamespace)
    maxGovernanceProjectedEntries
    (by_namespace KubernetesPodDisruptionBudget.Namespace KubernetesPodDisruptionBudget.Name).

Definition PodDisruptionBudgets (namespace : string) : fetch (result (list KubernetesPodDisruptionBudget)) :=
  ValidateNamespace namespace ;!
  listPodDisruptionBudgets ("/apis/policy/v1/namespaces/" +:+ namespace +:+ "/poddisruptionbudgets") (Some namespace).

Definition DisruptionBudgets : fetch (result (list KubernetesPodDisruptionBudget)) :=
  listPodDisruptionBudgets "/apis/policy/v1/poddisruptionbudgets" None.
End governance_readers.

(** ** Budgets *)

Lemma mapM_Ok {A B} (f : A → result B) l k : mapM f l = Ok k → Forall2 (λ a b, f a = Ok b) l k.
Proof.
  revert k. induction l as [|a l IH]; intros k; cbn; [intros [= <-]; constructor|].
  intros (b & Hb & (k' & Hk & [= <-])%bind_Ok)%bind_Ok. constructor; [done|by apply IH].
Qed.

Lemma mapM_length {A B} (f : A → result B) l k : mapM f l = Ok k → length k = length l.
Proof. intros H%mapM_Ok%Forall2_length. done. Qed.

(** What one object takes from a budget is what the list loses. *)
Definition spends {A S} (decode : RawMessage → S → result (A * S)) (left : S → Z) (cost : A → Z) : Prop :=
  ∀ raw s a s', decode raw s = Ok (a, s') → left s' = left s - cost a ∧ 0 ≤ cost a ≤ Z.max 0 (left s).

Lemma decode_within_budget {A S} (decode : RawMessage → S → result (A * S)) left cost items s objects :
  spends decode left cost → 0 ≤ left s → decode_within decode items s = Ok objects → sum_of cost objects ≤ left s.
Proof.
  intros Hd. revert s objects. induction items as [|item items IH]; intros s objects Hs; cbn [decode_within].
  { intros [= <-]. done. }
  intros ([a s'] & Ha & (rest & Hr & [= <-])%bind_Ok)%bind_Ok. apply Hd in Ha as [Hl Hc]. cbn.
  apply IH in Hr; [|lia]. fold (sum_of cost rest) in *. lia.
Qed.

Lemma decode_within_Forall {A S} (decode : RawMessage → S → result (A * S)) (P : A → Prop) items s objects :
  (∀ raw s a s', decode raw s = Ok (a, s') → P a) → decode_within decode items s = Ok objects → Forall P objects.
Proof.
  intros Hd. revert s objects. induction items as [|item items IH]; intros s objects; cbn [decode_within].
  { intros [= <-]. constructor. }
  intros ([a s'] & Ha & (rest & Hr & [= <-])%bind_Ok)%bind_Ok. constructor; [by eapply Hd|by eapply IH].
Qed.

Lemma decode_within_length {A S} (decode : RawMessage → S → result (A * S)) items s objects :
  decode_within decode items s = Ok objects → length objects = length items.
Proof.
  revert s objects. induction items as [|item items IH]; intros s objects; cbn [decode_within].
  { by intros [= <-]. }
  intros ([a s'] & Ha & (rest & Hr & [= <-])%bind_Ok)%bind_Ok. cbn. f_equal. by eapply IH.
Qed.

Lemma listGovernanceRaw_safe token path version kind :
  plain_path path →
  safe reading 4 (listGovernanceRaw token path version kind) (if_ok (λ items, len_list items ≤ 1000)).
Proof.
  intros Hp. unfold listGovernanceRaw.
  apply (all_pages_safe token governance_pager _ (λ items, len_list items ≤ 1000)); [done| |done..].
  apply (objects_page_keeps _ _ _ maxGovernanceListItems). intros sources items items' _ Hroom [= <-].
  unfold maxGovernanceListItems in Hroom. unfold len_list in *. rewrite length_app. lia.
Qed.

(** A list whose objects share budgets: what holds of each, and of what is shown in all. *)
Lemma governed_safe {A S} token path version kind (decode : RawMessage → S → result (A * S)) budgets less P :
  plain_path path → StrictWeak less →
  (∀ raw s a s', decode raw s = Ok (a, s') → P a) →
  safe reading 4 (governed token path version kind decode budgets less) (if_ok (λ objects,
    sorted_list less (bounded_list 1000 P) objects ∧
    ∀ left cost, spends decode left cost → 0 ≤ left budgets → sum_of cost objects ≤ left budgets)).
Proof.
  intros Hp Hw HP. unfold governed. eapply (safe_or_return reading 4 0); [by apply listGovernanceRaw_safe|].
  intros items Hi. eapply (safe_or_return reading 0 0 _ _ (λ objects, decode_within decode items budgets = Ok objects)).
  { apply safe_Done. by destruct (decode_within decode items budgets). }
  intros objects Ho. apply safe_Done. cbn. split; [split; [split|]|].
  - apply decode_within_length in Ho. unfold len_list in *. by rewrite sort_Slice_length, Ho.
  - rewrite sort_Slice_Permutation. by eapply decode_within_Forall.
  - by apply sort_Slice_Sorted.
  - intros left cost Hs Hb. rewrite sort_Slice_Permutation. by eapply decode_within_budget.
Qed.

Lemma governance_path namespace group resource :
  ValidateNamespace namespace = Ok tt → plainb group = true → safe_segment resource →
  plain_path (group +:+ "/namespaces/" +:+ namespace +:+ "/" +:+ resource).
Proof.
  intros Hn Hg Hr. eapply (scoped_path_plain namespace "/api" group resource); [done..|]. unfold scoped_path.
  rewrite Hn. case_bool_decide as E; [subst; done|done].
Qed.

(** ** Quotas *)

Lemma projected_bounds n perObject remaining :
  0 ≤ n → 0 ≤ perObject → 0 ≤ projected n perObject remaining ≤ n ∧
  projected n perObject remaining ≤ perObject ∧ projected n perObject remaining ≤ Z.max 0 remaining.
Proof. unfold projected. lia. Qed.

Lemma take_projected {A} (l : list A) perObject remaining :
  0 ≤ perObject →
  len_list (take (Z.to_nat (projected (len_list l) perObject remaining)) l) = projected (len_list l) perObject remaining.
Proof.
  intros Hp. pose proof (projected_bounds (len_list l) perObject remaining) as Hb.
  unfold len_list in *. rewrite length_take. lia.
Qed.

(** What is shown of the parts of an object: the first ones, and whether there are more. *)
Definition shown_part {A} (shown : list A) (count : Z) (truncated : bool) (perObject : Z) : Prop :=
  len_list shown ≤ count ∧ len_list shown ≤ perObject ∧ truncated = (len_list shown <? count).

Lemma shown_mapM {A B} (f : A → result B) l perObject remaining shown :
  0 ≤ perObject → mapM f (take (Z.to_nat (projected (len_list l) perObject remaining)) l) = Ok shown →
  len_list shown = projected (len_list l) perObject remaining ∧
  shown_part shown (len_list l) (projected (len_list l) perObject remaining <? len_list l) perObject.
Proof.
  intros Hp Hm%mapM_length. pose proof (take_projected l perObject remaining Hp) as Ht.
  pose proof (projected_bounds (len_list l) perObject remaining) as Hb.
  assert (len_list shown = projected (len_list l) perObject remaining) as E.
  { unfold len_list in *. by rewrite Hm. }
  split; [done|]. unfold shown_part. rewrite E. unfold len_list in *. lia.
Qed.

Lemma sortedGovernanceKeys_NoDup values : NoDup (sortedGovernanceKeys values).
Proof. unfold sortedGovernanceKeys. rewrite sort_Slice_Permutation. apply NoDup_elements. Qed.

Lemma sortedGovernanceKeys_spec values key :
  key ∈ sortedGovernanceKeys values ↔ ∃ m, m ∈ values ∧ is_Some (m !! key).
Proof.
  unfold sortedGovernanceKeys. rewrite sort_Slice_elem, elem_of_elements, elem_of_union_list. split.
  - intros (X & (m & -> & Hm)%list_elem_of_fmap & Hk). exists m. by rewrite <-elem_of_dom.
  - intros (m & Hm & Hk). exists (dom m). split; [by apply list_elem_of_fmap_2|by apply elem_of_dom].
Qed.

Definition quota_shown (namespace : string) (q : KubernetesResourceQuota) : Prop :=
  q.(KubernetesResourceQuota.Namespace) = namespace ∧
  shown_part q.(KubernetesResourceQuota.Resources) q.(KubernetesResourceQuota.ResourceCount)
    q.(KubernetesResourceQuota.ResourcesTruncated) 64 ∧
  shown_part q.(KubernetesResourceQuota.Scopes) q.(KubernetesResourceQuota.ScopeCount)
    q.(KubernetesResourceQuota.ScopesTruncated) 16 ∧
  NoDup (KubernetesQuotaResource.Name <$> q.(KubernetesResourceQuota.Resources)).

Lemma scalar_or_Ok message value allowEmpty value' : scalar_or message value allowEmpty = Ok value' → value' = value.
Proof.
  unfold scalar_or, governanceScalar. destruct (_ || _); [done|]. cbn. by intros [= <-].
Qed.

Lemma quota_resources_names specHard statusHard used keys resources :
  mapM (quota_resource specHard statusHard used) keys = Ok resources →
  KubernetesQuotaResource.Name <$> resources = keys.
Proof.
  intros H%mapM_Ok. induction H as [|key r keys resources Hr H IH]; cbn; [done|]. f_equal; [|done].
  revert Hr. unfold quota_resource. by intros (name & ->%scalar_or_Ok & (? & _ & (? & _ & [= <-])%bind_Ok)%bind_Ok)%bind_Ok.
Qed.

Lemma decodeResourceQuota_Ok namespace raw s q s' :
  decodeResourceQuota namespace raw s = Ok (q, s') →
  quota_shown namespace q ∧
  s'.1 = s.1 - len_list q.(KubernetesResourceQuota.Resources) ∧
  len_list q.(KubernetesResourceQuota.Resources) ≤ Z.max 0 s.1 ∧
  s'.2 = s.2 - len_list q.(KubernetesResourceQuota.Scopes) ∧
  len_list q.(KubernetesResourceQuota.Scopes) ≤ Z.max 0 s.2.
Proof.
  unfold decodeResourceQuota. intros ([version kind metadata hard scopes selector status used] & _ & H)%bind_Ok.
  apply bind_Ok in H as (? & Hid & ([[[resources count] truncated] left] & Hr &
    ([[values truncated'] left'] & Hs & [= <- <-])%bind_Ok)%bind_Ok).
  apply bind_Ok in Hid as (_ & _ & [Hns%negb_false_iff%bool_decide_eq_true _]%reject_if_Ok%orb_false_iff).
  unfold projectQuotaResources in Hr. cbv zeta in Hr. apply bind_Ok in Hr as (rs & Hm & [= <- <- <- <-]).
  unfold projectQuotaScopes in Hs. cbv zeta in Hs. apply bind_Ok in Hs as (vs & Hv & [= <- <- <-]).
  assert (NoDup (KubernetesQuotaResource.Name <$> rs)) as Hnd.
  { rewrite (quota_resources_names _ _ _ _ _ Hm). eapply sublist_NoDup, sublist_take.
    apply sortedGovernanceKeys_NoDup. }
  apply shown_mapM in Hm as [Lm Sm]; [|done]. apply shown_mapM in Hv as [Lv Sv]; [|done].
  assert (len_list (sort_Slice String.ltb scopes) = len_list scopes) as Es
    by (unfold len_list; by rewrite sort_Slice_length). rewrite Es in *.
  cbn -[shown_part]. rewrite Lm, Lv. unfold quota_shown. cbn -[shown_part]. split; [done|].
  pose proof (projected_bounds (len_list (sortedGovernanceKeys [hard; status; used])) maxQuotaResourcesPerObject s.1).
  pose proof (projected_bounds (len_list scopes) maxQuotaScopesPerObject s.2).
  unfold maxQuotaResourcesPerObject, maxQuotaScopesPerObject, len_list in *. lia.
Qed.

(** The resource quotas of a namespace are shown within budgets that all of them
    share, whatever the server answers: at most four requests, 1000 quotas of this
    namespace in the order of their names, 4096 resources and 1024 scopes in all, of each
    quota at most 64 resources of distinct names and 16 scopes, with the number there
    really are, and marked as truncated exactly when fewer are shown. *)
Theorem ResourceQuotas_bounded token namespace :
  safe reading 4 (ResourceQuotas token namespace) (if_ok (λ quotas,
    sorted_list (by_name KubernetesResourceQuota.Name) (bounded_list 1000 (quota_shown namespace)) quotas ∧
    sum_of (λ q, len_list q.(KubernetesResourceQuota.Resources)) quotas ≤ 4096 ∧
    sum_of (λ q, len_list q.(KubernetesResourceQuota.Scopes)) quotas ≤ 1024)).
Proof.
  unfold ResourceQuotas. apply safe_check. intros [] Hn.
  eapply safe_more; [apply (governed_safe _ _ _ _ _ _ _ (quota_shown namespace))|done|].
  - by apply (governance_path namespace "/api/v1"); [..|by apply safe_segmentb_spec].
  - apply _.
  - intros raw s q s' Hq. by apply decodeResourceQuota_Ok in Hq as [Hq _].
  - intros quotas [Hs Hb]. cbn beta. split_and!; [done|apply (Hb fst)|apply (Hb snd)]; try done.
    + intros raw s q s' (_ & H1 & H2 & _)%decodeResourceQuota_Ok. split; [done|]. unfold len_list in *. lia.
    + intros raw s q s' (_ & _ & _ & H1 & H2)%decodeResourceQuota_Ok. split; [done|]. unfold len_list in *. lia.
Qed.

(** ** Limit ranges *)

Lemma project_limits_spec objectRemaining limits constraints count constraints' count' :
  0 ≤ objectRemaining → len_list constraints = Z.min objectRemaining count →
  project_limits objectRemaining limits constraints count = Ok (constraints', count') →
  len_list constraints' = Z.min objectRemaining count'.
Proof.
  intros Ho. revert constraints count. induction limits as [|limit limits IH]; intros constraints count Hl; cbn [project_limits].
  { by intros [= <- <-]. }
  cbv zeta. set (keys := sortedGovernanceKeys _). intros (more & Hm%mapM_length & H)%bind_Ok.
  eapply IH; [|exact H]. unfold len_list in *. rewrite length_take in Hm. rewrite length_app, Hm. lia.
Qed.

Definition limit_range_shown (namespace : string) (r : KubernetesLimitRange) : Prop :=
  r.(KubernetesLimitRange.Namespace) = namespace ∧
  shown_part r.(KubernetesLimitRange.Constraints) r.(KubernetesLimitRange.ConstraintCount)
    r.(KubernetesLimitRange.ConstraintsTruncated) 128.

Lemma decodeLimitRange_Ok namespace raw s r s' :
  decodeLimitRange namespace raw s = Ok (r, s') →
  limit_range_shown namespace r ∧ s' = s - len_list r.(KubernetesLimitRange.Constraints) ∧
  len_list r.(KubernetesLimitRange.Constraints) ≤ Z.max 0 s.
Proof.
  unfold decodeLimitRange. intros ([[[version kind] metadata] limits] & _ & H)%bind_Ok. cbv zeta in H.
  apply bind_Ok in H as (? & Hid & ([constraints count] & Hp & [= <- <-])%bind_Ok).
  apply bind_Ok in Hid as (_ & _ & [Hns%negb_false_iff%bool_decide_eq_true _]%reject_if_Ok%orb_false_iff).
  unfold maxLimitConstraintsPerObject in *. apply project_limits_spec in Hp; [|lia|rewrite Z.min_r; [done|lia]].
  unfold limit_range_shown, shown_part. cbn -[Z.ltb]. split_and!; [done|lia..].
Qed.

(** ** Autoscalers and disruption budgets *)

Lemma projectAvailabilityConditions_Ok source s conditions truncated s' :
  projectAvailabilityConditions source s = Ok (conditions, truncated, s') →
  shown_part conditions (len_list source) truncated 8 ∧ s' = s - len_list conditions ∧
  len_list conditions ≤ Z.max 0 s.
Proof.
  unfold projectAvailabilityConditions. cbv zeta. intros (cs & Hm & [= <- <- <-])%bind_Ok.
  apply shown_mapM in Hm as [Lm Sm]; [|done].
  assert (len_list (sort_SliceStable condition_less source) = len_list source) as Es
    by (unfold len_list; by rewrite sort_SliceStable_length). rewrite Es in *.
  pose proof (projected_bounds (len_list source) maxAvailabilityConditionsPerObject s).
  split_and!; [done|lia|]. unfold maxAvailabilityConditionsPerObject, len_list in *. lia.
Qed.

Definition autoscaler_shown (namespace : string) (a : KubernetesHorizontalPodAutoscaler) : Prop :=
  a.(KubernetesHorizontalPodAutoscaler.Namespace) = namespace ∧
  0 ≤ a.(KubernetesHorizontalPodAutoscaler.MinReplicas) ≤ a.(KubernetesHorizontalPodAutoscaler.MaxReplicas) ∧
  0 < a.(KubernetesHorizontalPodAutoscaler.MaxReplicas) ∧
  shown_part a.(KubernetesHorizontalPodAutoscaler.Conditions) a.(KubernetesHorizontalPodAutoscaler.ConditionCount)
    a.(KubernetesHorizontalPodAutoscaler.ConditionsTruncated) 8.

Lemma decodeHorizontalPodAutoscaler_Ok namespace raw s a s' :
  decodeHorizontalPodAutoscaler namespace raw s = Ok (a, s') →
  autoscaler_shown namespace a ∧ s' = s - len_list a.(KubernetesHorizontalPodAutoscaler.Conditions) ∧
  len_list a.(KubernetesHorizontalPodAutoscaler.Conditions) ≤ Z.max 0 s.
Proof.
  unfold decodeHorizontalPodAutoscaler.
  intros ([version kind metadata [tv tk tn minimum maxReplicas ms] [og cr dr cm ls conditions]] & _ & H)%bind_Ok.
  apply bind_Ok in H as (? & Hid & (v & _ & (k & _ & (_ & _ & H)%bind_Ok)%bind_Ok)%bind_Ok).
  apply bind_Ok in Hid as (_ & _ & [Hns%negb_false_iff%bool_decide_eq_true _]%reject_if_Ok%orb_false_iff).
  cbv zeta in H. apply bind_Ok in H as (? & Hr & (_ & _ & ([[shown truncated] left] & Hc & [= <- <-])%bind_Ok)%bind_Ok).
  apply reject_if_Ok in Hr. rewrite !orb_false_iff, !Z.ltb_ge, Z.leb_gt in Hr.
  apply projectAvailabilityConditions_Ok in Hc as (Sc & Hl & Hm). unfold autoscaler_shown. cbn -[shown_part].
  destruct Hr as [[[[? ?] ?] ?] ?]. split_and!; [done|lia|lia|lia|done..].
Qed.

Definition budget_shown (namespace : option string) (b : KubernetesPodDisruptionBudget) : Prop :=
  from_option (λ namespace, b.(KubernetesPodDisruptionBudget.Namespace) = namespace) True namespace ∧
  ValidateNamespace b.(KubernetesPodDisruptionBudget.Namespace) = Ok tt ∧
  (b.(KubernetesPodDisruptionBudget.MinAvailable) = "" ∨ b.(KubernetesPodDisruptionBudget.MaxUnavailable) = "") ∧
  shown_part b.(KubernetesPodDisruptionBudget.Conditions) b.(KubernetesPodDisruptionBudget.ConditionCount)
    b.(KubernetesPodDisruptionBudget.ConditionsTruncated) 8.

Lemma absent_value raw value :
  availabilityValuePresent raw = false → projectAvailabilityValue raw = Ok value → value = "".
Proof.
  unfold availabilityValuePresent, projectAvailabilityValue. cbv zeta.
  rewrite andb_false_iff, !negb_false_iff. intros [->| ->]; rewrite ?orb_true_r; by intros [= <-].
Qed.

Lemma or_message_Ok {A} message (m : result A) a : or_message message m = Ok a → m = Ok a.
Proof. by destruct m. Qed.

Lemma identity_Ok namespace version kind version' kind' metadata :
  match namespace with
  | None => validateGovernanceIdentityAnyNamespace version kind version' kind' metadata
  | Some namespace => validateGovernanceIdentity version kind version' kind' metadata namespace
  end = Ok tt →
  from_option (λ namespace, metadata.(sourceMetadata.Namespace) = namespace) True namespace ∧
  ValidateNamespace metadata.(sourceMetadata.Namespace) = Ok tt.
Proof.
  assert (∀ r : result unit, negb (is_ok r) = false → r = Ok tt) as Hok by by intros [[]|].
  destruct namespace as [namespace|]; cbn.
  - intros (_ & _ & [Hns%negb_false_iff%bool_decide_eq_true Hv]%reject_if_Ok%orb_false_iff)%bind_Ok. auto.
  - intros (_ & _ & Hv%reject_if_Ok)%bind_Ok. auto.
Qed.

Lemma decodePodDisruptionBudget_Ok namespace raw s b s' :
  decodePodDisruptionBudget namespace raw s = Ok (b, s') →
  budget_shown namespace b ∧ s' = s - len_list b.(KubernetesPodDisruptionBudget.Conditions) ∧
  len_list b.(KubernetesPodDisruptionBudget.Conditions) ≤ Z.max 0 s.
Proof.
  unfold decodePodDisruptionBudget.
  intros ([version kind metadata [selector minimum maximum policy] [og cu de al ex conditions]] & _ & H)%bind_Ok.
  apply bind_Ok in H as ([] & [Hns Hv]%identity_Ok & (? & Hx & (lo & Hlo%or_message_Ok & (hi & Hhi%or_message_Ok &
    (_ & _ & H)%bind_Ok)%bind_Ok)%bind_Ok)%bind_Ok).
  cbv zeta in H. apply bind_Ok in H as (p & _ & ([[shown truncated] left] & Hc & [= <- <-])%bind_Ok).
  apply projectAvailabilityConditions_Ok in Hc as (Sc & Hl & Hm). unfold budget_shown. cbn -[shown_part].
  apply reject_if_Ok, andb_false_iff in Hx. split_and!; [done|done| |done..].
  destruct Hx as [Hx|Hx]; [left; by apply (absent_value minimum)|right; by apply (absent_value maximum)].
Qed.

(** The same for the lists of the other readers: what is shown in all is within the budget
    that all objects share. *)
Lemma LimitRanges_bounded token namespace :
  safe reading 4 (LimitRanges token namespace) (if_ok (λ ranges,
    sorted_list (by_name KubernetesLimitRange.Name) (bounded_list 1000 (limit_range_shown namespace)) ranges ∧
    sum_of (λ r, len_list r.(KubernetesLimitRange.Constraints)) ranges ≤ 4096)).
Proof.
  unfold LimitRanges. apply safe_check. intros [] Hn.
  eapply safe_more; [apply (governed_safe _ _ _ _ _ _ _ (limit_range_shown namespace))|done|].
  - by apply (governance_path namespace "/api/v1"); [..|by apply safe_segmentb_spec].
  - apply _.
  - intros raw s r s' Hr. by apply decodeLimitRange_Ok in Hr as [Hr _].
  - intros ranges [Hs Hb]. cbn beta. split; [done|]. apply (Hb id); [|done].
    intros raw s r s' (_ & H1 & H2)%decodeLimitRange_Ok. split; [done|]. unfold len_list, id in *. lia.
Qed.

Lemma HorizontalPodAutoscalers_bounded token namespace :
  safe reading 4 (HorizontalPodAutoscalers token namespace) (if_ok (λ autoscalers,
    sorted_list (by_name KubernetesHorizontalPodAutoscaler.Name) (bounded_list 1000 (autoscaler_shown namespace)) autoscalers ∧
    sum_of (λ a, len_list a.(KubernetesHorizontalPodAutoscaler.Conditions)) autoscalers ≤ 4096)).
Proof.
  unfold HorizontalPodAutoscalers. apply safe_check. intros [] Hn.
  eapply safe_more; [apply (governed_safe _ _ _ _ _ _ _ (autoscaler_shown namespace))|done|].
  - by apply (governance_path namespace "/apis/autoscaling/v2"); [..|by apply safe_segmentb_spec].
  - apply _.
  - intros raw s r s' Hr. by apply decodeHorizontalPodAutoscaler_Ok in Hr as [Hr _].
  - intros autoscalers [Hs Hb]. cbn beta. split; [done|]. apply (Hb id); [|done].
    intros raw s r s' (_ & H1 & H2)%decodeHorizontalPodAutoscaler_Ok. split; [done|]. unfold len_list, id in *. lia.
Qed.

Lemma listPodDisruptionBudgets_bounded token path namespace :
  plain_path path →
  safe reading 4 (listPodDisruptionBudgets token path namespace) (if_ok (λ budgets,
    sorted_list (by_namespace KubernetesPodDisruptionBudget.Namespace KubernetesPodDisruptionBudget.Name)
      (bounded_list 1000 (budget_shown namespace)) budgets ∧
    sum_of (λ b, len_list b.(KubernetesPodDisruptionBudget.Conditions)) budgets ≤ 4096)).
Proof.
  intros Hp. unfold listPodDisruptionBudgets.
  eapply safe_more; [apply (governed_safe _ _ _ _ _ _ _ (budget_shown namespace))|done|].
  - done.
  - apply _.
  - intros raw s r s' Hr. by apply decodePodDisruptionBudget_Ok in Hr as [Hr _].
  - intros budgets [Hs Hb]. cbn beta. split; [done|]. apply (Hb id); [|done].
    intros raw s r s' (_ & H1 & H2)%decodePodDisruptionBudget_Ok. split; [done|]. unfold len_list, id in *. lia.
Qed.
