(* ===== verification/Network.v ===== *)
(** * Networking (src/internal/kubernetes)

    Services and ingresses (network.go), endpoint slices (endpoint_slice.go) and network
    policies (network_policy.go). *)

From S2P Require Export Governance.

Local Open Scope Z_scope.
Local Open Scope stdpp_scope.
Local Open Scope fetch_scope.
Local Open Scope json_scope.

Import Json.

(** ** Services and ingresses (network.go) *)

(** The values that are shown, and how many were counted. *)
Definition appendBoundedNetworkValue (limit : Z) (values : list string * Z) (raw : string) : list string * Z :=
  let '(values, count) := values in
  let value := TrimSpace raw in
  if bool_decide (value = "") then (values, count)
  else if bool_decide (value ∈ values) then (values, count)
  else if len_list values <? limit then (values ++ [value], count + 1) else (values, count + 1).

(** Many values, one after the other. *)
Definition append_values (limit : Z) (values : list string * Z) (raws : list string) : list string * Z :=
  foldl (appendBoundedNetworkValue limit) values raws.

Module loadBalancerAddress.
Record t : Type := mk { IP : string; Hostname : string }.
#[global] Instance zero_t : Zero t := mk "" "".
Definition decode : decoder t := struct (λ old ms,
  ip ← field "ip" string_ old.(IP) ms; hostname ← field "hostname" string_ old.(Hostname) ms;
  Some (mk ip hostname)).
(** The two values that are shown of an address. *)
Definition values (a : t) : list string := [a.(IP); a.(Hostname)].
End loadBalancerAddress.
Notation loadBalancerAddress := loadBalancerAddress.t.

Definition load_balancer : decoder (list loadBalancerAddress) :=
  struct (field "loadBalancer" (struct (field "ingress" (slice loadBalancerAddress.decode)))).

Module servicePortSource.
Record t : Type := mk { Name : string; Protocol : string; Port : Z; TargetPort : RawMessage; NodePort : Z }.
#[global] Instance zero_t : Zero t := mk "" "" 0 "" 0.
Definition decode : decoder t := struct (λ old ms,
  name ← field "name" string_ old.(Name) ms;
  protocol ← field "protocol" string_ old.(Protocol) ms;
  port ← field "port" (int_ 32) old.(Port) ms;
  targetPort ← field "targetPort" raw_message old.(TargetPort) ms;
  nodePort ← field "nodePort" (int_ 32) old.(NodePort) ms;
  Some (mk name protocol port targetPort nodePort)).
End servicePortSource.
Notation servicePortSource := servicePortSource.t.

Module serviceSource.
Record t : Type := mk {
  Metadata : objectMetadata;
  Type_ : string;
  ClusterIP : string;
  ExternalName : string;
  ExternalIPs : list string;
  Ports : list servicePortSource;
  (** [Status.LoadBalancer.Ingress]. *)
  Ingress : list loadBalancerAddress;
}.
#[global] Instance zero_t : Zero t := mk zero "" "" "" [] [] [].
Definition spec : decoder (string * string * string * list string * list servicePortSource) :=
  struct (field "type" string_ ⊗ field "clusterIP" string_ ⊗ field "externalName" string_ ⊗
    field "externalIPs" (slice string_) ⊗ field "ports" (slice servicePortSource.decode)).
Definition decode : decoder t := struct (λ old ms,
  metadata ← field "metadata" objectMetadata.decode old.(Metadata) ms;
  '(type, clusterIP, externalName, externalIPs, ports) ← field "spec" spec
    (old.(Type_), old.(ClusterIP), old.(ExternalName), old.(ExternalIPs), old.(Ports)) ms;
  ingress ← field "status" load_balancer old.(Ingress) ms;
  Some (mk metadata type clusterIP externalName externalIPs ports ingress)).
End serviceSource.
Notation serviceSource := serviceSource.t.

Definition decodeServiceTargetPort (raw : RawMessage) : result string :=
  if bool_decide (raw = "") || bool_decide (raw = "null") then Ok "" else
  match Unmarshal string_ raw with
  | Some named => Ok named
  | None =>
      match Unmarshal (int_ 32) raw with
      | Some numbered => Ok (FormatInt numbered)
      | None => Err (upstream "decode service target port")
      end
  end.

Definition service_port (port : servicePortSource) : result ServicePort :=
  targetPort ← decodeServiceTargetPort port.(servicePortSource.TargetPort);
  let protocol := port.(servicePortSource.Protocol) in
  Ok (ServicePort.mk port.(servicePortSource.Name) (if bool_decide (protocol = "") then "TCP" else protocol)
        port.(servicePortSource.Port) targetPort port.(servicePortSource.NodePort)).

Definition decodeService (item : RawMessage) : result KubernetesService :=
  resource ← expect_ok (upstream "decode service") (Unmarshal serviceSource.decode item);
  let '(serviceSource.mk metadata type clusterIP externalName externalIPs sources ingress) := resource in
  let '(addresses, addressCount) :=
    append_values MaxNetworkAddresses
      (append_values MaxNetworkAddresses ([], 0) externalIPs)
      (concat (loadBalancerAddress.values <$> ingress)) in
  ports ← mapM service_port (take (Z.to_nat MaxServicePorts) sources);
  Ok (KubernetesService.mk metadata.(objectMetadata.Namespace) metadata.(objectMetadata.Name)
        (if bool_decide (type = "") then "ClusterIP" else type) clusterIP externalName addresses addressCount
        ports (len_list sources) metadata.(objectMetadata.CreationTimestamp)).

Module ingressSource.
Record t : Type := mk {
  Metadata : objectMetadata;
  IngressClassName : string;
  TLS : list RawMessage;
  (** Of a rule: its host, and the paths of its HTTP part. *)
  Rules : list (string * option (list RawMessage));
  Ingress : list loadBalancerAddress;
}.
#[global] Instance zero_t : Zero t := mk zero "" [] [] [].
Definition rule : decoder (string * option (list RawMessage)) :=
  struct (field "host" string_ ⊗ field "http" (pointer (struct (field "paths" (slice raw_message))))).
Definition spec : decoder (string * list RawMessage * list (string * option (list RawMessage))) :=
  struct (field "ingressClassName" string_ ⊗ field "tls" (slice raw_message) ⊗ field "rules" (slice rule)).
Definition decode : decoder t := struct (λ old ms,
  metadata ← field "metadata" objectMetadata.decode old.(Metadata) ms;
  '(className, tls, rules) ← field "spec" spec (old.(IngressClassName), old.(TLS), old.(Rules)) ms;
  ingress ← field "status" load_balancer old.(Ingress) ms;
  Some (mk metadata className tls rules ingress)).
End ingressSource.
Notation ingressSource := ingressSource.t.

Definition ingress_host (rule : string * option (list RawMessage)) : string :=
  if bool_decide (TrimSpace rule.1 = "") then "*" else rule.1.

Definition decodeIngress (item : RawMessage) : result KubernetesIngress :=
  resource ← expect_ok (upstream "decode ingress") (Unmarshal ingressSource.decode item);
  let '(ingressSource.mk metadata className tls rules ingress) := resource in
  let '(hosts, hostCount) := append_values MaxIngressHosts ([], 0) (ingress_host <$> rules) in
  let '(addresses, addressCount) :=
    append_values MaxNetworkAddresses ([], 0) (concat (loadBalancerAddress.values <$> ingress)) in
  Ok (KubernetesIngress.mk metadata.(objectMetadata.Namespace) metadata.(objectMetadata.Name) className
        hosts hostCount addresses addressCount (0 <? len_list tls) (len_list rules)
        (sum_of (λ rule, from_option len_list 0 rule.2) rules) metadata.(objectMetadata.CreationTimestamp)).

(** ** Endpoint slices (endpoint_slice.go) *)

Definition endpointSliceServiceNameLabel : string := "kubernetes.io/service-name".
Definition maxEndpointSliceEndpointsPerObject : Z := 1000.
Definition maxEndpointSlicePortsPerObject : Z := 100.
Definition maxEndpointSliceNestedEntries : Z := 16 * 1024.

(** The conditions of an endpoint: ready, serving and terminating. *)
Module endpointSliceEndpointSource.
Record t : Type := mk { Ready : option bool; Serving : option bool; Terminating : option bool }.
#[global] Instance zero_t : Zero t := mk None None None.
Definition conditions : decoder t := struct (λ old ms,
  ready ← field "ready" (pointer bool_) old.(Ready) ms;
  serving ← field "serving" (pointer bool_) old.(Serving) ms;
  terminating ← field "terminating" (pointer bool_) old.(Terminating) ms;
  Some (mk ready serving terminating)).
Definition decode : decoder t := struct (field "conditions" conditions).
End endpointSliceEndpointSource.
Notation endpointSliceEndpointSource := endpointSliceEndpointSource.t.

Module endpointSliceMetadataSource.
Record t : Type := mk { Name : string; Namespace : string; CreationTimestamp : time; Labels : gmap string string }.
#[global] Instance zero_t : Zero t := mk "" "" time_zero ∅.
Definition decode : decoder t := struct (λ old ms,
  name ← field "name" string_ old.(Name) ms;
  namespace ← field "namespace" string_ old.(Namespace) ms;
  creationTimestamp ← field "creationTimestamp" time_ old.(CreationTimestamp) ms;
  labels ← field "labels" (map_ string_) old.(Labels) ms;
  Some (mk name namespace creationTimestamp labels)).
End endpointSliceMetadataSource.
Notation endpointSliceMetadataSource := endpointSliceMetadataSource.t.

(** [struct{}]: an object, of which nothing is read. *)
Definition empty_struct : decoder unit := struct (λ old _, Some old).

Definition endpoint_slice_source : decoder (string * string * endpointSliceMetadataSource * string *
    list endpointSliceEndpointSource * list unit) :=
  struct (field "apiVersion" string_ ⊗ field "kind" string_ ⊗
    field "metadata" endpointSliceMetadataSource.decode ⊗ field "addressType" string_ ⊗
    field "endpoints" (slice endpointSliceEndpointSource.decode) ⊗ field "ports" (slice empty_struct)).

Definition validEndpointSliceAddressType (value : string) : bool :=
  bool_decide (value = "IPv4") || bool_decide (value = "IPv6") || bool_decide (value = "FQDN").

Definition validateEndpointSliceIdentity (apiVersion kind : string) (metadata : endpointSliceMetadataSource)
    (expectedNamespace serviceName addressType : string) : result unit :=
  reject_if (negb (bool_decide (apiVersion = "discovery.k8s.io/v1")) || negb (bool_decide (kind = "EndpointSlice")) ||
             negb (validKubernetesMetadataString metadata.(endpointSliceMetadataSource.Name)) ||
             IsZero metadata.(endpointSliceMetadataSource.CreationTimestamp) ||
             negb (is_ok (ValidateNamespace metadata.(endpointSliceMetadataSource.Namespace))) ||
             negb (is_ok (ValidateNamespace serviceName)) || negb (validEndpointSliceAddressType addressType))
    (upstream "invalid Kubernetes EndpointSlice object identity") ;;
  reject_if (negb (bool_decide (expectedNamespace = "")) &&
             negb (bool_decide (metadata.(endpointSliceMetadataSource.Namespace) = expectedNamespace)))
    (upstream "Kubernetes EndpointSlice object exceeded namespace scope").

(** How many endpoints satisfy a condition. *)
Definition count_endpoints (f : endpointSliceEndpointSource → bool) (l : list endpointSliceEndpointSource) : Z :=
  sum_of (λ e, if f e then 1 else 0) l.

(** A condition that is not given holds, or does not. *)
Definition condition_or (missing : bool) (condition : option bool) : bool := default missing condition.
Definition unset (condition : option bool) : bool := bool_decide (condition = None).

Definition decodeEndpointSlice (expectedNamespace : string) (raw : RawMessage) (remaining : Z) :
    result (KubernetesEndpointSlice * Z) :=
  '(apiVersion, kind, metadata, addressType, endpoints, ports) ←
    expect_ok (upstream "decode Kubernetes EndpointSlice") (Unmarshal endpoint_slice_source raw);
  let serviceName := default "" (metadata.(endpointSliceMetadataSource.Labels) !! endpointSliceServiceNameLabel) in
  validateEndpointSliceIdentity apiVersion kind metadata expectedNamespace serviceName addressType ;;
  reject_if ((maxEndpointSliceEndpointsPerObject <? len_list endpoints) ||
             (maxEndpointSlicePortsPerObject <? len_list ports))
    (upstream "Kubernetes EndpointSlice exceeded safe entry limit") ;;
  let nestedEntries := len_list endpoints + len_list ports in
  reject_if (remaining <? nestedEntries)
    (upstream "Kubernetes EndpointSlice request exceeded safe nested entry limit") ;;
  Ok ({|
    KubernetesEndpointSlice.Namespace := metadata.(endpointSliceMetadataSource.Namespace);
    KubernetesEndpointSlice.Name := metadata.(endpointSliceMetadataSource.Name);
    KubernetesEndpointSlice.ServiceName := serviceName;
    KubernetesEndpointSlice.AddressType := addressType;
    KubernetesEndpointSlice.EndpointCount := len_list endpoints;
    KubernetesEndpointSlice.ReadyEndpointCount :=
      count_endpoints (λ e, condition_or true e.(endpointSliceEndpointSource.Ready)) endpoints;
    KubernetesEndpointSlice.ReadyDefaultedCount :=
      count_endpoints (λ e, unset e.(endpointSliceEndpointSource.Ready)) endpoints;
    KubernetesEndpointSlice.ServingEndpointCount :=
      count_endpoints (λ e, condition_or true e.(endpointSliceEndpointSource.Serving)) endpoints;
    KubernetesEndpointSlice.ServingDefaultedCount :=
      count_endpoints (λ e, unset e.(endpointSliceEndpointSource.Serving)) endpoints;
    KubernetesEndpointSlice.TerminatingEndpointCount :=
      count_endpoints (λ e, condition_or false e.(endpointSliceEndpointSource.Terminating)) endpoints;
    KubernetesEndpointSlice.TerminatingDefaultedCount :=
      count_endpoints (λ e, unset e.(endpointSliceEndpointSource.Terminating)) endpoints;
    KubernetesEndpointSlice.PortCount := len_list ports;
    KubernetesEndpointSlice.CreatedAt := metadata.(endpointSliceMetadataSource.CreationTimestamp);
  |}, remaining - nestedEntries).

(** ** Network policies (network_policy.go) *)

Definition maxNetworkPolicySelectorEntries : Z := 128.
Definition maxNetworkPolicyRulesPerDirection : Z := 128.
Definition maxNetworkPolicyRulePeers : Z := 128.
Definition maxNetworkPolicyRulePorts : Z := 128.
Definition maxNetworkPolicyNestedEntries : Z := 16 * 1024.

(** The peers and the ports of a rule. *)
Definition rule : Type := list RawMessage * list RawMessage.

Definition networkPolicyIngressRuleSource : decoder rule :=
  struct (field "from" (slice raw_message) ⊗ field "ports" (slice raw_message)).
Definition networkPolicyEgressRuleSource : decoder rule :=
  struct (field "to" (slice raw_message) ⊗ field "ports" (slice raw_message)).

Module networkPolicySource.
Record t : Type := mk {
  APIVersion : string;
  Kind : string;
  Metadata : sourceMetadata;
  PodSelector : option (gmap string RawMessage * list RawMessage);
  PolicyTypes : list string;
  Ingress : list rule;
  Egress : list rule;
}.
#[global] Instance zero_t : Zero t := mk "" "" zero None [] [] [].
Definition spec : decoder (option (gmap string RawMessage * list RawMessage) * list string * list rule * list rule) :=
  struct (field "podSelector" (pointer availabilitySelectorSource) ⊗ field "policyTypes" (slice string_) ⊗
    field "ingress" (slice networkPolicyIngressRuleSource) ⊗ field "egress" (slice networkPolicyEgressRuleSource)).
Definition decode : decoder t := struct (λ old ms,
  apiVersion ← field "apiVersion" string_ old.(APIVersion) ms;
  kind ← field "kind" string_ old.(Kind) ms;
  metadata ← field "metadata" governanceMetadata old.(Metadata) ms;
  '(selector, types, ingress, egress) ← field "spec" spec
    (old.(PodSelector), old.(PolicyTypes), old.(Ingress), old.(Egress)) ms;
  Some (mk apiVersion kind metadata selector types ingress egress)).
End networkPolicySource.
Notation networkPolicySource := networkPolicySource.t.

Definition validateNetworkPolicyIdentity (apiVersion kind : string) (metadata : sourceMetadata)
    (expectedNamespace : string) : result unit :=
  reject_if (negb (bool_decide (apiVersion = "networking.k8s.io/v1")) || negb (bool_decide (kind = "NetworkPolicy")) ||
             negb (validKubernetesMetadataString metadata.(sourceMetadata.Name)) ||
             IsZero metadata.(sourceMetadata.CreationTimestamp) ||
             negb (is_ok (ValidateNamespace metadata.(sourceMetadata.Namespace))))
    (upstream "invalid Kubernetes NetworkPolicy object identity") ;;
  reject_if (negb (bool_decide (expectedNamespace = "")) &&
             negb (bool_decide (metadata.(sourceMetadata.Namespace) = expectedNamespace)))
    (upstream "Kubernetes NetworkPolicy object exceeded namespace scope").

(** The peers and ports of the rules of a direction, with their sum added to [total]. *)
Fixpoint count_entries (tooMany : string) (rules : list rule) (peers ports total : Z) : result (Z * Z * Z) :=
  match rules with
  | [] => Ok (peers, ports, total)
  | (rulePeers, rulePorts) :: rules =>
      reject_if ((maxNetworkPolicyRulePeers <? len_list rulePeers) || (maxNetworkPolicyRulePorts <? len_list rulePorts))
        (upstream tooMany) ;;
      count_entries tooMany rules (peers + len_list rulePeers) (ports + len_list rulePorts)
        (total + (len_list rulePeers + len_list rulePorts))
  end.

Definition countNetworkPolicyIngressEntries (rules : list rule) (total : Z) : result (Z * Z * Z) :=
  count_entries "Kubernetes NetworkPolicy ingress rule exceeded safe entry limit" rules 0 0 total.

Definition countNetworkPolicyEgressEntries (rules : list rule) (total : Z) : result (Z * Z * Z) :=
  count_entries "Kubernetes NetworkPolicy egress rule exceeded safe entry limit" rules 0 0 total.

(** Which of the two directions the types name. *)
Fixpoint policy_directions (source : list string) (ingress egress : bool) : result (bool * bool) :=
  match source with
  | [] => Ok (ingress, egress)
  | policyType :: source =>
      if bool_decide (policyType = "Ingress") then
        reject_if ingress (upstream "duplicate Kubernetes NetworkPolicy policy type") ;;
        policy_directions source true egress
      else if bool_decide (policyType = "Egress") then
        reject_if egress (upstream "duplicate Kubernetes NetworkPolicy policy type") ;;
        policy_directions source ingress true
      else Err (upstream "unsupported Kubernetes NetworkPolicy policy type")
  end.

Definition networkPolicyTypes (source : list string) (hasEgressRules : bool) : result (list string * bool) :=
  if bool_decide (source = []) then Ok ("Ingress" :: (if hasEgressRules then ["Egress"] else []), true) else
  reject_if (2 <? len_list source) (upstream "invalid Kubernetes NetworkPolicy policy types") ;;
  '(ingress, egress) ← policy_directions source false false;
  Ok ((if (ingress : bool) then ["Ingress"] else []) ++ (if (egress : bool) then ["Egress"] else []), false).

Definition decodeNetworkPolicy (expectedNamespace : string) (raw : RawMessage) (remaining : Z) :
    result (KubernetesNetworkPolicy * Z) :=
  source ← expect_ok (upstream "decode Kubernetes NetworkPolicy") (Unmarshal networkPolicySource.decode raw);
  let '(networkPolicySource.mk apiVersion kind metadata selector types ingress egress) := source in
  validateNetworkPolicyIdentity apiVersion kind metadata expectedNamespace ;;
  let '(selectorLabelCount, selectorExpressionCount) := selector_counts selector in
  reject_if (maxNetworkPolicySelectorEntries <? selectorLabelCount + selectorExpressionCount)
    (upstream "Kubernetes NetworkPolicy selector exceeded safe entry limit") ;;
  reject_if ((maxNetworkPolicyRulesPerDirection <? len_list ingress) ||
             (maxNetworkPolicyRulesPerDirection <? len_list egress))
    (upstream "Kubernetes NetworkPolicy rules exceeded safe entry limit") ;;
  let nestedEntries := selectorLabelCount + selectorExpressionCount + len_list ingress + len_list egress in
  '(ingressPeers, ingressPorts, nestedEntries) ← countNetworkPolicyIngressEntries ingress nestedEntries;
  '(egressPeers, egressPorts, nestedEntries) ← countNetworkPolicyEgressEntries egress nestedEntries;
  reject_if (remaining <? nestedEntries)
    (upstream "Kubernetes NetworkPolicy request exceeded safe nested entry limit") ;;
  '(policyTypes, defaulted) ← networkPolicyTypes types (0 <? len_list egress);
  let selectorMode :=
    if (0 <? selectorLabelCount) || (0 <? selectorExpressionCount) then KubernetesSelectorFiltered
    else KubernetesSelectorAll in
  Ok (KubernetesNetworkPolicy.mk metadata.(sourceMetadata.Namespace) metadata.(sourceMetadata.Name)
        selectorMode selectorLabelCount selectorExpressionCount policyTypes defaulted
        (len_list ingress) ingressPeers ingressPorts (len_list egress) egressPeers egressPorts
        metadata.(sourceMetadata.CreationTimestamp),
      remaining - nestedEntries).

(** ** The methods of the client *)

Section network_readers.
Context (token : string).

Definition Services (namespace : string) : fetch (result (list KubernetesService)) :=
  path ←! Done (scoped_path namespace "/api/v1/services" "/api/v1" "services");
  items ←! listRaw token path ∅;
  services ←! Done (decode_all decodeService items);
  Done (Ok (sort_Slice (by_namespace KubernetesService.Namespace KubernetesService.Name) services)).

Definition Ingresses (namespace : string) : fetch (result (list KubernetesIngress)) :=
  path ←! Done (scoped_path namespace "/apis/networking.k8s.io/v1/ingresses" "/apis/networking.k8s.io/v1" "ingresses");
  items ←! listRaw token path ∅;
  ingresses ←! Done (decode_all decodeIngress items);
  Done (Ok (sort_Slice (by_namespace KubernetesIngress.Namespace KubernetesIngress.Name) ingresses)).

Definition EndpointSlices (namespace : string) : fetch (result (list KubernetesEndpointSlice)) :=
  path ←! Done (scoped_path namespace "/apis/discovery.k8s.io/v1/endpointslices" "/apis/discovery.k8s.io/v1"
    "endpointslices");
  governed token path "discovery.k8s.io/v1" "EndpointSliceList" (decodeEndpointSlice namespace)
    maxEndpointSliceNestedEntries (by_namespace KubernetesEndpointSlice.Namespace KubernetesEndpointSlice.Name).

Definition NetworkPolicies (namespace : string) : fetch (result (list KubernetesNetworkPolicy)) :=
  path ←! Done (scoped_path namespace "/apis/networking.k8s.io/v1/networkpolicies" "/apis/networking.k8s.io/v1"
    "networkpolicies");
  governed token path "networking.k8s.io/v1" "NetworkPolicyList" (decodeNetworkPolicy namespace)
    maxNetworkPolicyNestedEntries (by_namespace KubernetesNetworkPolicy.Namespace KubernetesNetworkPolicy.Name).
End network_readers.

(** ** Values that are shown once *)

(** The values that are not blank, and their first occurrences. *)
Definition network_values (raws : list string) : list string := filter (λ v, v ≠ "") (TrimSpace <$> raws).

Definition first_occurrences (values : list string) : list string :=
  foldl (λ seen v, if bool_decide (v ∈ seen) then seen else seen ++ [v]) [] values.

Lemma first_occurrences_NoDup values : NoDup (first_occurrences values).
Proof.
  induction values as [|v values IH] using rev_ind; [constructor|].
  unfold first_occurrences in *. rewrite foldl_snoc. cbv beta. case_bool_decide as Hv; [done|].
  apply NoDup_app. split_and!; [done| |apply NoDup_singleton]. by intros x Hx ->%list_elem_of_singleton.
Qed.

Lemma first_occurrences_elem values v : v ∈ first_occurrences values ↔ v ∈ values.
Proof.
  induction values as [|w values IH] using rev_ind; [done|].
  unfold first_occurrences in *. rewrite foldl_snoc. cbv beta. rewrite elem_of_app, list_elem_of_singleton.
  case_bool_decide as Hv.
  - rewrite IH in *. naive_solver.
  - by rewrite elem_of_app, list_elem_of_singleton, IH.
Qed.

(** One more value, not blank. *)
Definition add_value (limit : Z) (values : list string * Z) (value : string) : list string * Z :=
  let '(values, count) := values in
  if bool_decide (value ∈ values) then (values, count)
  else if len_list values <? limit then (values ++ [value], count + 1) else (values, count + 1).

Lemma append_values_add limit values raws :
  append_values limit values raws = foldl (add_value limit) values (network_values raws).
Proof.
  revert values. induction raws as [|raw raws IH]; intros [shown count]; [done|].
  cbn [append_values foldl]. unfold append_values in IH. rewrite IH. unfold network_values. rewrite fmap_cons. unfold appendBoundedNetworkValue.
  case_bool_decide as Hb; cbv zeta.
  - by rewrite filter_cons_False by (intros H; by apply H).
  - by rewrite filter_cons_True.
Qed.

(** How many of [values] are not shown, each as often as it occurs. *)
Definition missed (shown values : list string) : Z := sum_of (λ v, if bool_decide (v ∈ shown) then 0 else 1) values.

Lemma missed_app shown values values' : missed shown (values ++ values') = missed shown values + missed shown values'.
Proof. unfold missed, sum_of. induction values as [|v values IH]; cbn; [done|]. rewrite IH. lia. Qed.

Lemma missed_none shown values : (∀ v, v ∈ values → v ∈ shown) → missed shown values = 0.
Proof.
  unfold missed, sum_of. induction values as [|v values IH]; intros Hv; [done|]. cbn.
  rewrite bool_decide_eq_true_2 by (apply Hv; by left). rewrite IH; [done|]. intros w Hw. apply Hv. by right.
Qed.

Lemma missed_bounds shown values : 0 ≤ missed shown values ≤ len_list values.
Proof.
  unfold missed, sum_of, len_list. induction values as [|v values IH]; cbn [foldr length]; [done|].
  case_bool_decide; lia.
Qed.

Lemma add_values_shows limit values :
  let shown := take (Z.to_nat limit) (first_occurrences values) in
  foldl (add_value limit) ([], 0) values = (shown, len_list shown + missed shown values).
Proof.
  cbv zeta. induction values as [|v values IH] using rev_ind; [cbn; by rewrite take_nil|].
  rewrite foldl_snoc, IH. set (F := first_occurrences values) in *.
  assert (first_occurrences (values ++ [v]) = if bool_decide (v ∈ F) then F else F ++ [v]) as ->
    by (unfold first_occurrences; by rewrite foldl_snoc).
  rewrite missed_app. unfold add_value. case_bool_decide as Hs.
  { assert (v ∈ F) as HF by (apply elem_of_take in Hs as (i & Hi & _); by eapply list_elem_of_lookup_2). rewrite (bool_decide_eq_true_2 _ HF).
    f_equal. rewrite (missed_none _ [v]); [lia|]. by intros w ->%list_elem_of_singleton. }
  unfold len_list at 1. rewrite length_take. destruct (Z.ltb_spec (Z.of_nat (Nat.min (Z.to_nat limit) (length F))) limit) as [H|H].
  - assert (take (Z.to_nat limit) F = F) as E by (apply take_ge; lia). rewrite E in *.
    rewrite (bool_decide_eq_false_2 _ Hs). rewrite (take_ge (F ++ [v])) by (rewrite length_app; cbn; lia).
    rewrite (missed_none F), (missed_none _ values), (missed_none _ [v]).
    + f_equal. unfold len_list. rewrite length_app. cbn. lia.
    + intros w ->%list_elem_of_singleton. apply elem_of_app. right. by left.
    + intros w Hw. apply elem_of_app. left. by apply first_occurrences_elem.
    + intros w Hw. by apply first_occurrences_elem.
  - assert (take (Z.to_nat limit) (if bool_decide (v ∈ F) then F else F ++ [v]) = take (Z.to_nat limit) F) as ->.
    { case_bool_decide; [done|]. rewrite take_app_le; [done|lia]. }
    f_equal. unfold missed at 3, sum_of. cbn. rewrite (bool_decide_eq_false_2 _ Hs). lia.
Qed.

(** Of the addresses and the hosts that the server reports, the first distinct values are
    shown, without the blank ones and without white space at their ends, up to the limit; the
    number that is given with them adds the values that are not shown, and is the number of
    distinct values whenever all of them are shown. *)
Theorem appendBoundedNetworkValue_shows limit raws :
  let values := network_values raws in
  let '(shown, count) := append_values limit ([], 0) raws in
  shown = take (Z.to_nat limit) (first_occurrences values) ∧
  NoDup (first_occurrences values) ∧ (∀ v, v ∈ first_occurrences values ↔ v ∈ values) ∧
  count = len_list shown + missed shown values ∧
  (len_list (first_occurrences values) <= limit → count = len_list (first_occurrences values)).
Proof.
  cbv zeta. rewrite append_values_add, add_values_shows. set (values := network_values raws).
  split_and!; [done|apply first_occurrences_NoDup|intros v; apply first_occurrences_elem|done|].
  intros Hl. rewrite take_ge by (unfold len_list in Hl; lia). rewrite missed_none; [lia|].
  intros v Hv. by apply first_occurrences_elem.
Qed.

(** Beyond the limit a value counts as often as it is reported: of 33 hosts one of which is
    reported twice, 34 are counted. *)
Example repeated_hosts_counted_twice :
  let raws := (FormatInt <$> seqZ 0 32) ++ ["a.example"; "a.example"] in
  len_list (first_occurrences (network_values raws)) = 33 ∧ (append_values MaxIngressHosts ([], 0) raws).2 = 34.
Proof. by vm_compute. Qed.

(** ** Budgets of nested entries *)

Definition slice_shown (namespace : string) (s : KubernetesEndpointSlice) : Prop :=
  in_scope namespace s.(KubernetesEndpointSlice.Namespace) ∧
  ValidateNamespace s.(KubernetesEndpointSlice.ServiceName) = Ok tt ∧
  0 ≤ s.(KubernetesEndpointSlice.ReadyEndpointCount) ≤ s.(KubernetesEndpointSlice.EndpointCount) ∧
  0 ≤ s.(KubernetesEndpointSlice.ServingEndpointCount) ≤ s.(KubernetesEndpointSlice.EndpointCount) ∧
  0 ≤ s.(KubernetesEndpointSlice.TerminatingEndpointCount) ≤ s.(KubernetesEndpointSlice.EndpointCount) ∧
  (* An endpoint whose readiness is not given is ready; one that does not say so does not end. *)
  s.(KubernetesEndpointSlice.ReadyDefaultedCount) ≤ s.(KubernetesEndpointSlice.ReadyEndpointCount) ∧
  s.(KubernetesEndpointSlice.TerminatingEndpointCount) + s.(KubernetesEndpointSlice.TerminatingDefaultedCount)
    ≤ s.(KubernetesEndpointSlice.EndpointCount) ∧
  s.(KubernetesEndpointSlice.EndpointCount) ≤ 1000 ∧ 0 ≤ s.(KubernetesEndpointSlice.PortCount) ≤ 100.

Definition slice_entries (s : KubernetesEndpointSlice) : Z :=
  s.(KubernetesEndpointSlice.EndpointCount) + s.(KubernetesEndpointSlice.PortCount).

Lemma count_endpoints_le (f g : endpointSliceEndpointSource → bool) l :
  (∀ e, f e = true → g e = true) → 0 ≤ count_endpoints f l ≤ count_endpoints g l ∧ count_endpoints g l ≤ len_list l.
Proof.
  intros Hfg. unfold count_endpoints, sum_of, len_list. induction l as [|e l IH]; [done|].
  cbn [foldr length]. specialize (Hfg e). destruct (f e); [rewrite Hfg by done|destruct (g e)]; lia.
Qed.

Lemma count_endpoints_disjoint (f g : endpointSliceEndpointSource → bool) l :
  (∀ e, f e = true → g e = false) → count_endpoints f l + count_endpoints g l ≤ len_list l.
Proof.
  intros Hfg. unfold count_endpoints, sum_of, len_list. induction l as [|e l IH]; [done|].
  cbn [foldr length]. specialize (Hfg e). destruct (f e); [rewrite Hfg by done|destruct (g e)]; lia.
Qed.

Lemma ok_tt (r : result unit) : negb (is_ok r) = false → r = Ok tt.
Proof. by destruct r as [[]|]. Qed.

Lemma decodeEndpointSlice_Ok namespace raw s slice s' :
  decodeEndpointSlice namespace raw s = Ok (slice, s') →
  slice_shown namespace slice ∧ s' = s - slice_entries slice ∧ 0 ≤ slice_entries slice ≤ s.
Proof.
  unfold decodeEndpointSlice. intros ([[[[[version kind] metadata] type] endpoints] ports] & _ & H)%bind_Ok.
  cbv zeta in H. apply bind_Ok in H as (? & Hid & (? & [He%Z.ltb_ge Hp%Z.ltb_ge]%reject_if_Ok%orb_false_iff &
    (? & Hr%reject_if_Ok%Z.ltb_ge & [= <- <-])%bind_Ok)%bind_Ok).
  apply bind_Ok in Hid as (? & Hid & Hns%scope_check).
  apply reject_if_Ok in Hid. rewrite !orb_false_iff in Hid. destruct Hid as [[_ Hsvc%ok_tt] _].
  unfold slice_shown, slice_entries. cbn -[count_endpoints].
  unfold maxEndpointSliceEndpointsPerObject, maxEndpointSlicePortsPerObject in *.
  pose proof (λ f, proj1 (count_endpoints_le f (λ _, true) endpoints ltac:(done))) as Hn.
  pose proof (count_endpoints_le (λ _, true) (λ _, true) endpoints ltac:(done)) as [_ Hall].
  assert (0 ≤ len_list ports ∧ 0 ≤ len_list endpoints) by (unfold len_list; lia).
  pose proof (Hn (λ e, condition_or true e.(endpointSliceEndpointSource.Ready))).
  pose proof (Hn (λ e, condition_or true e.(endpointSliceEndpointSource.Serving))).
  pose proof (Hn (λ e, condition_or false e.(endpointSliceEndpointSource.Terminating))).
  split_and!; try done; try lia.
  - apply (count_endpoints_le (λ e, unset e.(endpointSliceEndpointSource.Ready))). intros [[]? ?]; done.
  - apply count_endpoints_disjoint. by intros [? ? [[]|]].
Qed.

Definition policy_entries (p : KubernetesNetworkPolicy) : Z :=
  p.(KubernetesNetworkPolicy.PodSelectorLabelCount) + p.(KubernetesNetworkPolicy.PodSelectorExpressionCount) +
  p.(KubernetesNetworkPolicy.IngressRuleCount) + p.(KubernetesNetworkPolicy.EgressRuleCount) +
  (p.(KubernetesNetworkPolicy.IngressPeerCount) + p.(KubernetesNetworkPolicy.IngressPortCount)) +
  (p.(KubernetesNetworkPolicy.EgressPeerCount) + p.(KubernetesNetworkPolicy.EgressPortCount)).

(** The parts of each policy are limited, and its directions are given once each. *)
Definition policy_shown (namespace : string) (p : KubernetesNetworkPolicy) : Prop :=
  in_scope namespace p.(KubernetesNetworkPolicy.Namespace) ∧
  NoDup p.(KubernetesNetworkPolicy.PolicyTypes) ∧ p.(KubernetesNetworkPolicy.PolicyTypes) ≠ [] ∧
  p.(KubernetesNetworkPolicy.PolicyTypes) ⊆ ["Ingress"; "Egress"] ∧
  p.(KubernetesNetworkPolicy.PodSelectorLabelCount) + p.(KubernetesNetworkPolicy.PodSelectorExpressionCount) ≤ 128 ∧
  p.(KubernetesNetworkPolicy.IngressRuleCount) ≤ 128 ∧ p.(KubernetesNetworkPolicy.EgressRuleCount) ≤ 128 ∧
  p.(KubernetesNetworkPolicy.IngressPeerCount) ≤ 128 * p.(KubernetesNetworkPolicy.IngressRuleCount) ∧
  p.(KubernetesNetworkPolicy.EgressPeerCount) ≤ 128 * p.(KubernetesNetworkPolicy.EgressRuleCount).

Lemma count_entries_Ok tooMany rules peers ports total peers' ports' total' :
  count_entries tooMany rules peers ports total = Ok (peers', ports', total') →
  total' = total + (peers' - peers) + (ports' - ports) ∧
  peers ≤ peers' ≤ peers + 128 * len_list rules ∧ ports ≤ ports' ≤ ports + 128 * len_list rules.
Proof.
  revert peers ports total. induction rules as [|[rp rq] rules IH]; intros peers ports total; cbn [count_entries].
  { intros [= <- <- <-]. unfold len_list. cbn. lia. }
  intros (? & [H1%Z.ltb_ge H2%Z.ltb_ge]%reject_if_Ok%orb_false_iff & H%IH)%bind_Ok.
  unfold maxNetworkPolicyRulePeers, maxNetworkPolicyRulePorts, len_list in *. cbn [length]. lia.
Qed.

Lemma policy_directions_some source ingress egress directions :
  policy_directions source ingress egress = Ok directions →
  ingress = true ∨ egress = true ∨ source ≠ [] → directions.1 = true ∨ directions.2 = true.
Proof.
  revert ingress egress. induction source as [|t source IH]; intros ingress egress; cbn [policy_directions].
  { intros [= <-]. naive_solver. }
  case_bool_decide; [|case_bool_decide; [|done]]; intros (? & _ & Hd)%bind_Ok _; eapply IH; eauto.
Qed.

Lemma networkPolicyTypes_Ok source hasEgress types defaulted :
  networkPolicyTypes source hasEgress = Ok (types, defaulted) →
  NoDup types ∧ types ≠ [] ∧ types ⊆ ["Ingress"; "Egress"].
Proof.
  assert (∀ a b : bool, a = true ∨ b = true →
    let types := (if a then ["Ingress"] else []) ++ (if b then ["Egress"] else []) in
    NoDup types ∧ types ≠ [] ∧ types ⊆ ["Ingress"; "Egress"]) as Hab.
  { intros a b Hab. destruct a, b; cbn; (destruct Hab; [|]; try done).
    all: split_and!; [repeat constructor; set_solver|done|set_solver]. }
  unfold networkPolicyTypes. case_bool_decide as Hs.
  - intros [= <- <-]. apply (Hab true hasEgress). by left.
  - intros (? & _ & ([a b] & H & [= <- <-])%bind_Ok)%bind_Ok. apply Hab.
    apply policy_directions_some in H; [done|]. by right; right.
Qed.

Lemma decodeNetworkPolicy_Ok namespace raw s policy s' :
  decodeNetworkPolicy namespace raw s = Ok (policy, s') →
  policy_shown namespace policy ∧ s' = s - policy_entries policy ∧ 0 ≤ policy_entries policy ≤ s.
Proof.
  unfold decodeNetworkPolicy. intros ([version kind metadata selector types ingress egress] & _ & H)%bind_Ok.
  apply bind_Ok in H as (? & Hid & H). apply bind_Ok in Hid as (? & _ & Hns%scope_check).
  destruct (selector_counts selector) as [labels expressions] eqn:Esel. cbv zeta in H.
  assert (0 ≤ labels ∧ 0 ≤ expressions) as [Hl0 He0].
  { destruct selector as [[ls es]|]; cbn in Esel; injection Esel as <- <-; unfold len_list; lia. }
  apply bind_Ok in H as (? & Hsel%reject_if_Ok%Z.ltb_ge & (? & [Hi%Z.ltb_ge He%Z.ltb_ge]%reject_if_Ok%orb_false_iff &
    ([[ip iq] n1] & Hin%count_entries_Ok & ([[ep eq] n2] & Heg%count_entries_Ok & (? & Hr%reject_if_Ok%Z.ltb_ge &
    ([shown defaulted] & Ht%networkPolicyTypes_Ok & [= <- <-])%bind_Ok)%bind_Ok)%bind_Ok)%bind_Ok)%bind_Ok).
  unfold policy_shown, policy_entries. cbn.
  unfold maxNetworkPolicySelectorEntries, maxNetworkPolicyRulesPerDirection in *.
  assert (0 ≤ len_list ingress ∧ 0 ≤ len_list egress) by (unfold len_list; lia).
  destruct Ht as (? & ? & ?). split_and!; try done; lia.
Qed.

(** ** The lists *)

(** A list over one namespace or all of them, sorted by namespace and name. *)
Definition namespaced {A} (namespace name : A → string) (I : list A → Prop) : list A → Prop :=
  sorted_list (by_namespace namespace name) I.

Lemma network_governed token namespace all group resource {A} version kind
    (decode : RawMessage → Z → result (A * Z)) entries shown ns name :
  plainb all = true → plainb group = true → safe_segment resource →
  (∀ raw s a s', decode raw s = Ok (a, s') → shown a ∧ s' = s - entries a ∧ 0 ≤ entries a ≤ s) →
  safe reading 4
    (path ←! Done (scoped_path namespace all group resource);
     governed token path version kind decode (16 * 1024) (by_namespace ns name))
    (if_ok (λ l, namespaced ns name (bounded_list 1000 shown) l ∧ sum_of entries l ≤ 16384)).
Proof.
  intros Ha Hg Hr Hd. apply scoped_safe; [done..|]. intros path Hp.
  eapply safe_more; [apply (governed_safe _ _ _ _ _ _ _ shown)|done|].
  - done.
  - apply _.
  - intros raw s a s' H%Hd. apply H.
  - intros l [Hl Hb]. split; [done|]. apply (Hb id); [|done].
    intros raw s a s' (_ & -> & H)%Hd. unfold id. lia.
Qed.

Lemma EndpointSlices_safe token namespace :
  safe reading 4 (EndpointSlices token namespace) (if_ok (λ slices,
    namespaced KubernetesEndpointSlice.Namespace KubernetesEndpointSlice.Name
      (bounded_list 1000 (slice_shown namespace)) slices ∧ sum_of slice_entries slices ≤ 16384)).
Proof.
  unfold EndpointSlices. apply network_governed; [done|done|by apply safe_segmentb_spec|].
  intros raw s slice s'. apply decodeEndpointSlice_Ok.
Qed.

Lemma NetworkPolicies_safe token namespace :
  safe reading 4 (NetworkPolicies token namespace) (if_ok (λ policies,
    namespaced KubernetesNetworkPolicy.Namespace KubernetesNetworkPolicy.Name
      (bounded_list 1000 (policy_shown namespace)) policies ∧ sum_of policy_entries policies ≤ 16384)).
Proof.
  unfold NetworkPolicies. apply network_governed; [done|done|by apply safe_segmentb_spec|].
  intros raw s policy s'. apply decodeNetworkPolicy_Ok.
Qed.

(** *** Services and ingresses *)

Lemma append_values_first limit raws shown count :
  0 ≤ limit → append_values limit ([], 0) raws = (shown, count) →
  NoDup shown ∧ len_list shown ≤ limit ∧ len_list shown ≤ count ∧ "" ∉ shown.
Proof.
  intros Hl. rewrite append_values_add, add_values_shows. intros [= <- <-].
  set (values := network_values raws). split_and!.
  - eapply sublist_NoDup, sublist_take. apply first_occurrences_NoDup.
  - unfold len_list. rewrite length_take. lia.
  - pose proof (proj1 (missed_bounds (take (Z.to_nat limit) (first_occurrences values)) values)). lia.
  - intros (i & Hi & _)%elem_of_take. apply list_elem_of_lookup_2, (first_occurrences_elem values) in Hi.
    apply list_elem_of_filter in Hi as [Hi _]. done.
Qed.

Definition service_shown (s : KubernetesService) : Prop :=
  NoDup s.(KubernetesService.ExternalAddresses) ∧ len_list s.(KubernetesService.ExternalAddresses) ≤ 32 ∧
  len_list s.(KubernetesService.ExternalAddresses) ≤ s.(KubernetesService.AddressCount) ∧
  len_list s.(KubernetesService.Ports) = Z.min 64 s.(KubernetesService.PortCount) ∧
  s.(KubernetesService.Type_) ≠ "" ∧ Forall (λ p, p.(ServicePort.Protocol) ≠ "") s.(KubernetesService.Ports).

Definition ingress_shown (i : KubernetesIngress) : Prop :=
  NoDup i.(KubernetesIngress.Hosts) ∧ len_list i.(KubernetesIngress.Hosts) ≤ 32 ∧
  len_list i.(KubernetesIngress.Hosts) ≤ i.(KubernetesIngress.HostCount) ∧
  NoDup i.(KubernetesIngress.Addresses) ∧ len_list i.(KubernetesIngress.Addresses) ≤ 32 ∧
  len_list i.(KubernetesIngress.Addresses) ≤ i.(KubernetesIngress.AddressCount) ∧
  (0 < i.(KubernetesIngress.RuleCount) → i.(KubernetesIngress.Hosts) ≠ []).

Lemma service_port_Ok source port : service_port source = Ok port → port.(ServicePort.Protocol) ≠ "".
Proof.
  unfold service_port. intros (? & _ & [= <-])%bind_Ok. cbn. by case_bool_decide.
Qed.

Lemma decodeService_Ok raw s : decodeService raw = Ok s → service_shown s.
Proof.
  unfold decodeService. intros ([metadata type ip name ips sources ingress] & _ & H)%bind_Ok.
  cbv zeta in H. unfold append_values in H. rewrite <-foldl_app in H.
  change (foldl (appendBoundedNetworkValue ?l) ?i) with (append_values l i) in H.
  destruct (append_values _ _ _) as [addresses count] eqn:Ea.
  apply bind_Ok in H as (ports & Hm%mapM_Ok & [= <-]). unfold service_shown. cbn.
  apply append_values_first in Ea as (? & ? & ? & _); [|done]. unfold MaxNetworkAddresses, MaxServicePorts in *.
  split_and!; [done..| |by case_bool_decide|].
  - apply Forall2_length in Hm. unfold len_list. rewrite <-Hm, length_take. lia.
  - clear -Hm. induction Hm; constructor; [by eapply service_port_Ok|done].
Qed.

Lemma first_value_shown limit raws shown count raw :
  0 < limit → raw ∈ raws → TrimSpace raw ≠ "" → append_values limit ([], 0) raws = (shown, count) → shown ≠ [].
Proof.
  intros Hl Hr Hn. rewrite append_values_add, add_values_shows. intros [= <- _].
  assert (TrimSpace raw ∈ first_occurrences (network_values raws)) as Hv.
  { apply first_occurrences_elem, list_elem_of_filter. split; [done|]. by apply list_elem_of_fmap_2. }
  intros E. apply (f_equal length) in E. rewrite length_take in E. destruct (first_occurrences _); [by apply elem_of_nil in Hv|].
  cbn in E. lia.
Qed.

Lemma ingress_host_shown rule : TrimSpace (ingress_host rule) ≠ "".
Proof. unfold ingress_host. case_bool_decide; [by vm_compute|done]. Qed.

Lemma decodeIngress_Ok raw i : decodeIngress raw = Ok i → ingress_shown i.
Proof.
  unfold decodeIngress. intros ([metadata class tls rules ingress] & _ & H)%bind_Ok.
  destruct (append_values MaxIngressHosts _ _) as [hosts hostCount] eqn:Eh.
  destruct (append_values MaxNetworkAddresses _ _) as [addresses count] eqn:Ea.
  injection H as <-. unfold ingress_shown. cbn.
  apply append_values_first in Ea as (? & ? & ? & _); [|done].
  pose proof Eh as (? & ? & ? & _)%append_values_first; [|done].
  unfold MaxNetworkAddresses, MaxIngressHosts in *. split_and!; [done..|]. intros Hr.
  destruct rules as [|rule rules]; [done|].
  eapply (first_value_shown 32 _ _ _ (ingress_host rule)); [done| |apply ingress_host_shown|exact Eh]. by left.
Qed.

Lemma decode_all_Forall {A} (f : RawMessage → result A) (P : A → Prop) l xs :
  (∀ raw a, f raw = Ok a → P a) → decode_all f l = Ok xs → Forall P xs.
Proof.
  intros Hf. revert xs. induction l as [|a l IH]; intros xs; cbn; [intros [= <-]; constructor|].
  intros (x & Hx & (ys & Hy & [= <-])%bind_Ok)%bind_Ok. constructor; [by eapply Hf|by apply IH].
Qed.

Lemma network_listed token namespace all group resource {A} (decode : RawMessage → result A) (P : A → Prop) ns name :
  plainb all = true → plainb group = true → safe_segment resource → (∀ raw a, decode raw = Ok a → P a) →
  safe reading 20
    (path ←! Done (scoped_path namespace all group resource);
     items ←! listRaw token path ∅;
     decoded ←! Done (decode_all decode items);
     Done (Ok (sort_Slice (by_namespace ns name) decoded)))
    (if_ok (namespaced ns name (bounded_list maxListItems P))).
Proof.
  intros Ha Hg Hr Hd. apply scoped_safe; [done..|]. intros path Hp.
  apply (safe_or_return reading 20 0 _ _ _ _ (listRaw_safe token path ∅ Hp)). intros xs Hxs. cbn.
  destruct (decode_all decode xs) as [ys|] eqn:Hys; [|done]. cbn. pose proof Hys as Hl%decode_all_length.
  split; [|apply sort_Slice_Sorted, _]. rewrite sort_Slice_Permutation. split.
  - unfold len_list in *. by rewrite Hl.
  - by eapply decode_all_Forall.
Qed.

Lemma Services_safe token namespace :
  safe reading 20 (Services token namespace)
    (if_ok (namespaced KubernetesService.Namespace KubernetesService.Name (bounded_list maxListItems service_shown))).
Proof. apply network_listed; [done|done|by apply safe_segmentb_spec|apply decodeService_Ok]. Qed.

Lemma Ingresses_safe token namespace :
  safe reading 20 (Ingresses token namespace)
    (if_ok (namespaced KubernetesIngress.Namespace KubernetesIngress.Name (bounded_list maxListItems ingress_shown))).
Proof. apply network_listed; [done|done|by apply safe_segmentb_spec|apply decodeIngress_Ok]. Qed.
