(* ===== verification/Access.v ===== *)
(** * Access control of a cluster (src/internal/kubernetes)

    Service accounts, roles and bindings (access.go), the review of what a service account
    may do (access_review.go), and certificate signing requests
    (certificate_signing_request.go). *)

From S2P Require Export Paging.

Local Open Scope Z_scope.
Local Open Scope stdpp_scope.
Local Open Scope fetch_scope.
Local Open Scope json_scope.

Import Json.

(** ** Roles and bindings (access.go) *)

Definition accessListPageSize : string := "250".
Definition accessMaxListPages : nat := 8.
Definition accessMaxListItems : Z := 2000.
Definition accessMaxListBytes : Z := 16 * 1024 * 1024.
Definition maxAccessDetailBytes : Z := 2 * 1024 * 1024.
Definition maxAccessContinueBytes : Z := 16 * 1024.
Definition maxAccessRules : Z := 128.
Definition maxAccessSubjects : Z := 128.
Definition maxAccessRuleValues : Z := 64.
Definition maxAccessStringBytes : Z := 512.

Module accessResourceSpec.
Record t : Type := mk { apiVersion : string; kind : string; resource : string; namespaced : bool }.
End accessResourceSpec.
Notation accessResourceSpec := accessResourceSpec.t.

Definition rbac_version : string := "rbac.authorization.k8s.io/v1".

Definition accessSpec (kind : KubernetesAccessResourceKind) : result accessResourceSpec :=
  if bool_decide (kind = AccessResourceServiceAccounts) then
    Ok (accessResourceSpec.mk "v1" "ServiceAccount" "serviceaccounts" true)
  else if bool_decide (kind = AccessResourceRoles) then
    Ok (accessResourceSpec.mk rbac_version "Role" "roles" true)
  else if bool_decide (kind = AccessResourceRoleBindings) then
    Ok (accessResourceSpec.mk rbac_version "RoleBinding" "rolebindings" true)
  else if bool_decide (kind = AccessResourceClusterRoles) then
    Ok (accessResourceSpec.mk rbac_version "ClusterRole" "clusterroles" false)
  else if bool_decide (kind = AccessResourceClusterRoleBindings) then
    Ok (accessResourceSpec.mk rbac_version "ClusterRoleBinding" "clusterrolebindings" false)
  else Err (Invalid "kind" "must be a supported access resource kind").

Definition accessCollectionPath (spec : accessResourceSpec) (namespace : string) : string :=
  let prefix :=
    if bool_decide (spec.(accessResourceSpec.apiVersion) = "v1") then "/api/v1"
    else "/apis/rbac.authorization.k8s.io/v1" in
  if spec.(accessResourceSpec.namespaced)
  then prefix +:+ "/namespaces/" +:+ namespace +:+ "/" +:+ spec.(accessResourceSpec.resource)
  else prefix +:+ "/" +:+ spec.(accessResourceSpec.resource).

Definition validAccessContinue : string → bool := valid_continue maxAccessContinueBytes.

(** An item of a list, in the namespace that was asked for. *)
Definition access_item (spec : accessResourceSpec) (namespace : string) (raw : RawMessage) :
    result KubernetesAccessResource :=
  metadata ← decodePartialObjectMetadataForScope raw spec.(accessResourceSpec.namespaced);
  reject_if (spec.(accessResourceSpec.namespaced) &&
             negb (bool_decide (metadata.(partialObjectMetadata.Namespace) = namespace)))
    (upstream "Kubernetes access metadata exceeded namespace scope") ;;
  Ok (KubernetesAccessResource.mk spec.(accessResourceSpec.kind) metadata.(partialObjectMetadata.Namespace)
        metadata.(partialObjectMetadata.Name) metadata.(partialObjectMetadata.CreationTimestamp)).

Definition access_pager : pager := {|
  pager.query := {[ "limit" := accessListPageSize ]};
  pager.accept := kubernetesPartialMetadataListAccept;
  pager.maxPages := accessMaxListPages;
  pager.maxListBytes := accessMaxListBytes;
  pager.maxPageBytes := maxResponseBytes;
  pager.bytes := pager.CheckAfter;
  pager.validContinue := validAccessContinue;
  pager.refusesRepeated := false;
  pager.full := None;
  pager.byteLimit := "Kubernetes access list exceeded safe byte limit";
  pager.pageLimit := "Kubernetes access list exceeded safe page limit";
  pager.badToken := "invalid Kubernetes access continuation token";
  pager.repeatedToken := ""; pager.itemLimit := "";
|}.

Definition access_page (spec : accessResourceSpec) (namespace : string) :=
  metadata_page (page_texts_of "Kubernetes access" "metadata list") accessMaxListItems
    (all_items (access_item spec namespace)).

(** *** Details *)

(** Values that are shown of a list: the first ones, and whether there are more. *)
Definition boundedAccessStrings (values : list string) : result (list string * bool) :=
  shown ← mapM (λ value,
      reject_if ((maxAccessStringBytes <? len value) || negb (clean value))
        (upstream "invalid Kubernetes access rule value") ;;
      Ok value)
    (take (Z.to_nat maxAccessRuleValues) values);
  Ok (shown, maxAccessRuleValues <? len_list values).

Definition access_rule_source : decoder (list string * list string * list string * list string * list string) :=
  struct (field "apiGroups" (slice string_) ⊗ field "resources" (slice string_) ⊗
    field "resourceNames" (slice string_) ⊗ field "verbs" (slice string_) ⊗
    field "nonResourceURLs" (slice string_)).

Definition decodeAccessRule (raw : RawMessage) : result (KubernetesRoleRule * bool) :=
  '(apiGroups, resources, resourceNames, verbs, urls) ←
    expect_ok (upstream "decode Kubernetes access rule") (Unmarshal access_rule_source raw);
  '(apiGroups, t1) ← boundedAccessStrings apiGroups;
  '(resources, t2) ← boundedAccessStrings resources;
  '(resourceNames, t3) ← boundedAccessStrings resourceNames;
  '(verbs, t4) ← boundedAccessStrings verbs;
  '(urls, t5) ← boundedAccessStrings urls;
  Ok (KubernetesRoleRule.mk apiGroups resources resourceNames verbs urls, t1 || t2 || t3 || t4 || t5).

(** The rules that are shown, their number, and whether anything of them is left out. *)
Definition decodeAccessRules (rawRules : list RawMessage) : result (list KubernetesRoleRule * Z * bool) :=
  rules ← mapM decodeAccessRule (take (Z.to_nat maxAccessRules) rawRules);
  Ok (rules.*1, len_list rawRules, (maxAccessRules <? len_list rawRules) || existsb snd rules).

Definition role_reference_source : decoder (string * string * string) :=
  struct (field "apiGroup" string_ ⊗ field "kind" string_ ⊗ field "name" string_).

Definition decodeAccessRoleReference (raw : RawMessage) (bindingKind : KubernetesAccessResourceKind)
    (bindingNamespace : string) : result KubernetesRoleReference :=
  let invalid := upstream "invalid Kubernetes role reference" in
  reject_if (bool_decide (raw = "") || bool_decide (raw = "null")) invalid ;;
  '(apiGroup, kind, name) ← expect_ok invalid (Unmarshal role_reference_source raw);
  reject_if (negb (bool_decide (apiGroup = "rbac.authorization.k8s.io"))) invalid ;;
  reference ←
    (if bool_decide (kind = "Role") then
       reject_if (negb (bool_decide (bindingKind = AccessResourceRoleBindings)))
         (upstream "invalid Kubernetes role reference scope") ;;
       Ok (KubernetesAccessResourceReference.mk AccessResourceRoles bindingNamespace name)
     else if bool_decide (kind = "ClusterRole") then
       Ok (KubernetesAccessResourceReference.mk AccessResourceClusterRoles "" name)
     else Err (upstream "invalid Kubernetes role reference kind"));
  reject_if (negb (is_ok (ValidateAccessResourceReference reference)))
    (upstream "invalid Kubernetes role reference name") ;;
  Ok (KubernetesRoleReference.mk kind name).

Definition validAccessSubjectName (value : string) : bool :=
  negb (bool_decide (value = "")) && (len value <=? maxAccessStringBytes) && clean value.

Definition access_subject_source : decoder (string * string * string * string) :=
  struct (field "apiGroup" string_ ⊗ field "kind" string_ ⊗ field "namespace" string_ ⊗ field "name" string_).

Definition decodeAccessSubject (bindingNamespace : string) (raw : RawMessage) : result KubernetesAccessSubject :=
  let invalid := upstream "invalid Kubernetes access subject" in
  '(apiGroup, kind, namespace, name) ← expect_ok invalid (Unmarshal access_subject_source raw);
  reject_if (negb (validAccessSubjectName name)) invalid ;;
  if bool_decide (kind = "ServiceAccount") then
    reject_if (negb (bool_decide (apiGroup = "")))
      (upstream "invalid Kubernetes service account subject group") ;;
    let namespace := if bool_decide (namespace = "") then bindingNamespace else namespace in
    reject_if (negb (is_ok (ValidateAccessResourceReference
        (KubernetesAccessResourceReference.mk AccessResourceServiceAccounts namespace name))))
      (upstream "invalid Kubernetes service account subject") ;;
    Ok (KubernetesAccessSubject.mk kind namespace name)
  else if bool_decide (kind = "User") || bool_decide (kind = "Group") then
    reject_if (negb (bool_decide (apiGroup = "rbac.authorization.k8s.io")))
      (upstream "invalid Kubernetes identity subject") ;;
    Ok (KubernetesAccessSubject.mk kind "" name)
  else Err (upstream "invalid Kubernetes access subject kind").

Definition decodeAccessSubjects (rawSubjects : list RawMessage) (bindingNamespace : string) :
    result (list KubernetesAccessSubject * Z * bool) :=
  subjects ← mapM (decodeAccessSubject bindingNamespace) (take (Z.to_nat maxAccessSubjects) rawSubjects);
  Ok (subjects, len_list rawSubjects, maxAccessSubjects <? len_list rawSubjects).

Module accessDetailSource.
Record t : Type := mk {
  APIVersion : string;
  Kind : string;
  Metadata : sourceMetadata;
  Rules : list RawMessage;
  RoleRef : RawMessage;
  Subjects : list RawMessage;
  AutomountServiceAccountToken : option bool;
  Secrets : list RawMessage;
  ImagePullSecrets : list RawMessage;
}.
#[global] Instance zero_t : Zero t := mk "" "" zero [] "" [] None [] [].
Definition decode : decoder t := struct (λ old ms,
  apiVersion ← field "apiVersion" string_ old.(APIVersion) ms;
  kind ← field "kind" string_ old.(Kind) ms;
  metadata ← field "metadata" sourceMetadata.decode_plain old.(Metadata) ms;
  rules ← field "rules" (slice raw_message) old.(Rules) ms;
  roleRef ← field "roleRef" raw_message old.(RoleRef) ms;
  subjects ← field "subjects" (slice raw_message) old.(Subjects) ms;
  automount ← field "automountServiceAccountToken" (pointer bool_) old.(AutomountServiceAccountToken) ms;
  secrets ← field "secrets" (slice raw_message) old.(Secrets) ms;
  imagePullSecrets ← field "imagePullSecrets" (slice raw_message) old.(ImagePullSecrets) ms;
  Some (mk apiVersion kind metadata rules roleRef subjects automount secrets imagePullSecrets)).
End accessDetailSource.
Notation accessDetailSource := accessDetailSource.t.

Definition decodeAccessResourceDetail (payload : string) (reference : KubernetesAccessResourceReference)
    (spec : accessResourceSpec) : result KubernetesAccessResourceDetail :=
  let '(KubernetesAccessResourceReference.mk referenceKind namespace name) := reference in
  source ← expect_ok (upstream "decode Kubernetes access detail") (Unmarshal accessDetailSource.decode payload);
  let '(accessDetailSource.mk apiVersion kind metadata rawRules rawRoleRef rawSubjects automount secrets
          imagePullSecrets) := source in
  reject_if (negb (bool_decide (apiVersion = spec.(accessResourceSpec.apiVersion))) ||
             negb (bool_decide (kind = spec.(accessResourceSpec.kind))) ||
             negb (bool_decide (metadata.(sourceMetadata.Name) = name)) ||
             negb (bool_decide (metadata.(sourceMetadata.Namespace) = namespace)) ||
             negb (validKubernetesMetadataString metadata.(sourceMetadata.Name)) ||
             IsZero metadata.(sourceMetadata.CreationTimestamp))
    (upstream "invalid Kubernetes access detail identity") ;;
  (if spec.(accessResourceSpec.namespaced)
   then reject_if (negb (is_ok (ValidateNamespace metadata.(sourceMetadata.Namespace))))
          (upstream "invalid Kubernetes access detail namespace")
   else reject_if (negb (bool_decide (metadata.(sourceMetadata.Namespace) = "")))
          (upstream "cluster-scoped Kubernetes access detail contains a namespace")) ;;
  let resource := KubernetesAccessResource.mk spec.(accessResourceSpec.kind) namespace name
    metadata.(sourceMetadata.CreationTimestamp) in
  let detail := KubernetesAccessResourceDetail.mk resource in
  if bool_decide (referenceKind = AccessResourceServiceAccounts) then
    Ok (detail None [] 0 false [] 0 false automount (len_list secrets) (len_list imagePullSecrets))
  else if bool_decide (referenceKind ∈ [AccessResourceRoles; AccessResourceClusterRoles]) then
    '(rules, count, truncated) ← decodeAccessRules rawRules;
    Ok (detail None rules count truncated [] 0 false None 0 0)
  else if bool_decide (referenceKind ∈ [AccessResourceRoleBindings; AccessResourceClusterRoleBindings]) then
    roleRef ← decodeAccessRoleReference rawRoleRef referenceKind namespace;
    '(subjects, count, truncated) ← decodeAccessSubjects rawSubjects namespace;
    Ok (detail (Some roleRef) [] 0 false subjects count truncated None 0 0)
  else Err (upstream "unsupported Kubernetes access detail kind").

(** ** What a service account may do (access_review.go) *)

Definition subject_access_review (input : KubernetesServiceAccountAccessReviewInput) : value :=
  let '(KubernetesServiceAccountAccessReviewInput.mk
          (KubernetesServiceAccountReference.mk namespace name)
          (KubernetesResourceAttributes.mk group resource subresource verb inNamespace resourceName)) := input in
  Object [("apiVersion", text "authorization.k8s.io/v1"); ("kind", text "SubjectAccessReview");
    ("spec", object [
      ("user", text ("system:serviceaccount:" +:+ namespace +:+ ":" +:+ name));
      ("groups", ("", Array [("", Str "system:serviceaccounts");
        ("", Str ("system:serviceaccounts:" +:+ namespace)); ("", Str "system:authenticated")]));
      ("resourceAttributes", object
        (omitempty "group" group ++ [("resource", text resource)] ++ omitempty "subresource" subresource ++
         [("verb", text verb)] ++ omitempty "namespace" inNamespace ++ omitempty "name" resourceName))])].

Definition subject_review_answer : decoder (string * string * (option bool * bool)) :=
  struct (field "apiVersion" string_ ⊗ field "kind" string_ ⊗
    field "status" (struct (field "allowed" (pointer bool_) ⊗ field "denied" bool_))).

(** What the answer says: nothing that contradicts itself. *)
Definition subject_review_state (payload : string) : result KubernetesCapabilityState :=
  let invalid := upstream "decode Kubernetes service account access review" in
  '(apiVersion, kind, (allowed, denied)) ← expect_ok invalid (Unmarshal subject_review_answer payload);
  reject_if (negb (bool_decide (apiVersion = "authorization.k8s.io/v1")) ||
             negb (bool_decide (kind = "SubjectAccessReview"))) invalid ;;
  match allowed with
  | None => Err invalid
  | Some true => if (denied : bool) then Err invalid else Ok KubernetesCapabilityAllowed
  | Some false => Ok (if (denied : bool) then KubernetesCapabilityDenied else KubernetesCapabilityIndeterminate)
  end.

Definition ReviewServiceAccountAccess (token : string) (input : KubernetesServiceAccountAccessReviewInput) :
    fetch (result KubernetesCapabilityState) :=
  ValidateServiceAccountAccessReviewInput input ;!
  '(payload, _) ←! requestPayload token "POST" "/apis/authorization.k8s.io/v1/subjectaccessreviews" None
    "application/json" "application/json" (Marshal (subject_access_review input)) maxCapabilityReviewBytes false;
  Done (subject_review_state payload).

(** ** Certificate signing requests (certificate_signing_request.go) *)

(** [unicode.IsPrint]: a table, of which the program's behaviour on ASCII is fixed. *)
Class UnicodePrint := {
  IsPrint : Z → bool;
  IsPrint_ascii r : 0 ≤ r < 128 → IsPrint r = (32 <=? r) && (r <=? 126);
}.

#[export] Program Instance ascii_print : UnicodePrint := { IsPrint r := (32 <=? r) && (r <=? 126) }.
Next Obligation. done. Qed.

Definition certificateSigningRequestCollectionPath : string := "/apis/certificates.k8s.io/v1/certificatesigningrequests".
Definition certificateSigningRequestListPageSize : string := "250".
Definition certificateSigningRequestMaxListPages : nat := 4.
Definition certificateSigningRequestMaxListItems : Z := 1000.
Definition certificateSigningRequestMaxListBytes : Z := 4 * 1024 * 1024.
Definition certificateSigningRequestMaxDetailBytes : Z := 2 * 1024 * 1024.
Definition certificateSigningRequestMaxContinueBytes : Z := 16 * 1024.
Definition certificateSigningRequestMaxSignerBytes : Z := 512.
Definition certificateSigningRequestMaxSignerPathBytes : Z := 253.
Definition certificateSigningRequestMaxRequesterBytes : Z := 256.
Definition certificateSigningRequestMaxUsages : Z := 32.
Definition certificateSigningRequestMaxConditions : Z := 32.
Definition certificateSigningRequestMaxConditionTypeBytes : Z := 128.
Definition certificateSigningRequestMaxConditionReasonBytes : Z := 256.

Definition certificateSigningRequestUsages : list string :=
  ["signing"; "digital signature"; "content commitment"; "key encipherment"; "key agreement";
   "data encipherment"; "cert sign"; "crl sign"; "encipher only"; "decipher only"; "any";
   "server auth"; "client auth"; "code signing"; "email protection"; "s/mime"; "ipsec end system";
   "ipsec tunnel"; "ipsec user"; "timestamping"; "ocsp signing"; "microsoft sgc"; "netscape sgc"].

Module certificateSigningRequestConditionSource.
Record t : Type := mk {
  Type_ : string;
  Status : string;
  Reason : string;
  LastUpdateTime : option time;
  LastTransitionTime : option time;
}.
#[global] Instance zero_t : Zero t := mk "" "" "" None None.
Definition decode : decoder t := struct (λ old ms,
  type ← field "type" string_ old.(Type_) ms;
  status ← field "status" string_ old.(Status) ms;
  reason ← field "reason" string_ old.(Reason) ms;
  lastUpdateTime ← field "lastUpdateTime" (pointer time_) old.(LastUpdateTime) ms;
  lastTransitionTime ← field "lastTransitionTime" (pointer time_) old.(LastTransitionTime) ms;
  Some (mk type status reason lastUpdateTime lastTransitionTime)).
End certificateSigningRequestConditionSource.
Notation certificateSigningRequestConditionSource := certificateSigningRequestConditionSource.t.

(** [UnmarshalJSON] of the certificate: a string, of which only whether it is empty is kept. *)
Definition certificateSigningRequestCertificateSource : decoder bool :=
  λ _ _ v, match v with Str s => Some (negb (bool_decide (s = ""))) | _ => None end.

Module certificateSigningRequestSource.
Record t : Type := mk {
  APIVersion : string;
  Kind : string;
  Metadata : sourceMetadata;
  SignerName : string;
  ExpirationSeconds : option Z;
  Usages : list string;
  Username : string;
  Certificate : bool;
  Conditions : list certificateSigningRequestConditionSource;
}.
#[global] Instance zero_t : Zero t := mk "" "" zero "" None [] "" false [].
Definition spec : decoder (string * option Z * list string * string) :=
  struct (field "signerName" string_ ⊗ field "expirationSeconds" (pointer (int_ 32)) ⊗
    field "usages" (slice string_) ⊗ field "username" string_).
Definition status : decoder (bool * list certificateSigningRequestConditionSource) :=
  struct (field "certificate" certificateSigningRequestCertificateSource ⊗
    field "conditions" (slice certificateSigningRequestConditionSource.decode)).
Definition decode : decoder t := struct (λ old ms,
  apiVersion ← field "apiVersion" string_ old.(APIVersion) ms;
  kind ← field "kind" string_ old.(Kind) ms;
  metadata ← field "metadata" sourceMetadata.decode_plain old.(Metadata) ms;
  '(signer, expiration, usages, username) ← field "spec" spec
    (old.(SignerName), old.(ExpirationSeconds), old.(Usages), old.(Username)) ms;
  '(certificate, conditions) ← field "status" status (old.(Certificate), old.(Conditions)) ms;
  Some (mk apiVersion kind metadata signer expiration usages username certificate conditions)).
End certificateSigningRequestSource.
Notation certificateSigningRequestSource := certificateSigningRequestSource.t.

Definition is_alphanumeric (c : ascii) : bool := is_lower c || is_upper c || is_digit c.

(** A signer path: the loop over its characters, which are bytes once it succeeds. *)
Definition signer_path (path : string) : bool :=
  let ends_alphanumeric s := match s with String c _ => is_alphanumeric c | EmptyString => false end in
  all_bytes (λ c, is_alphanumeric c || bool_decide (c ∈ ["-"; "_"; "."]%char)) path &&
  ends_alphanumeric path && ends_alphanumeric (string_rev path).

Definition validCertificateSigningRequestSignerName (value : string) : bool :=
  if bool_decide (value = "") || (certificateSigningRequestMaxSignerBytes <? len value) || negb (clean value)
  then false else
  let '(prefix, signerPath, found) := Cut value "/" in
  if negb found || Contains signerPath "/" || negb (is_ok (ValidateAdmissionPolicyResourceName prefix)) ||
     (len signerPath =? 0) || (certificateSigningRequestMaxSignerPathBytes <? len signerPath)
  then false else signer_path signerPath.

Section certificates.
Context `{UnicodePrint}.

Definition validCertificateSigningRequestText (value : string) (maxBytes : Z) (required : bool) : bool :=
  if bool_decide (value = "") then negb required else
  (len value <=? maxBytes) && ValidString value && bool_decide (value = TrimSpace value) &&
  negb (has_rune (λ r, negb (IsPrint r)) value).

Definition decodeCertificateSigningRequestUsages (source : list string) : result (list string) :=
  reject_if (bool_decide (source = []) || (certificateSigningRequestMaxUsages <? len_list source))
    (upstream "Kubernetes CSR usages exceeded safe limit") ;;
  distinct_values (λ usage, bool_decide (usage ∈ certificateSigningRequestUsages))
    "invalid Kubernetes CSR usage" "duplicate Kubernetes CSR usage" source ;;
  Ok (sort_Slice String.ltb source).

Definition csr_known (type : string) : bool :=
  bool_decide (type = "Approved") || bool_decide (type = "Denied") || bool_decide (type = "Failed").

(** What is required of a condition, before and after it is new. *)
Definition check_csr_condition (c : certificateSigningRequestConditionSource) : result unit :=
  let '(certificateSigningRequestConditionSource.mk type status reason updated changed) := c in
  reject_if (negb (validCertificateSigningRequestText type certificateSigningRequestMaxConditionTypeBytes true) ||
             negb (validCertificateSigningRequestText reason certificateSigningRequestMaxConditionReasonBytes false) ||
             (negb (bool_decide (status = "True")) && negb (bool_decide (status = "False")) &&
              negb (bool_decide (status = "Unknown"))) ||
             from_option IsZero false updated || from_option IsZero false changed)
    (upstream "invalid Kubernetes CSR condition").

Definition check_csr_known (c : certificateSigningRequestConditionSource) : result unit :=
  reject_if (csr_known c.(certificateSigningRequestConditionSource.Type_) &&
             negb (bool_decide (c.(certificateSigningRequestConditionSource.Status) = "True")))
    (upstream "invalid Kubernetes CSR known condition status").

Definition csr_condition (c : certificateSigningRequestConditionSource) : KubernetesCertificateSigningRequestCondition :=
  let '(certificateSigningRequestConditionSource.mk type status reason updated changed) := c in
  KubernetesCertificateSigningRequestCondition.mk type status reason updated changed.

(** One of the conditions is of a type. *)
Definition has_condition (type : string) (source : list certificateSigningRequestConditionSource) : bool :=
  existsb (λ c, bool_decide (c.(certificateSigningRequestConditionSource.Type_) = type)) source.

(** The conditions in order, and whether the request is approved, denied, and failed. *)
Definition decodeCertificateSigningRequestConditions (source : list certificateSigningRequestConditionSource) :
    result (list KubernetesCertificateSigningRequestCondition * bool * bool * bool) :=
  reject_if (certificateSigningRequestMaxConditions <? len_list source)
    (upstream "Kubernetes CSR conditions exceeded safe limit") ;;
  each_once certificateSigningRequestConditionSource.Type_ check_csr_condition
    "duplicate Kubernetes CSR condition" check_csr_known source ∅ ;;
  Ok (sort_Slice (by_name KubernetesCertificateSigningRequestCondition.Type_) (csr_condition <$> source),
      has_condition "Approved" source, has_condition "Denied" source, has_condition "Failed" source).

Definition csr_state (denied failed certificateIssued approved : bool) : KubernetesCertificateSigningRequestState :=
  if denied then CertificateSigningRequestDenied
  else if failed then CertificateSigningRequestFailed
  else if certificateIssued then CertificateSigningRequestIssued
  else if approved then CertificateSigningRequestApproved
  else CertificateSigningRequestPending.

Definition decodeCertificateSigningRequest (payload expectedName : string) :
    result KubernetesCertificateSigningRequestDetail :=
  source ← expect_ok (upstream "decode Kubernetes CSR detail") (Unmarshal certificateSigningRequestSource.decode payload);
  let '(certificateSigningRequestSource.mk apiVersion kind metadata signer expiration usages username certificateIssued
          conditionSources) := source in
  reject_if (negb (is_cluster_object apiVersion kind "certificates.k8s.io/v1" "CertificateSigningRequest" metadata
      expectedName ValidateCertificateSigningRequestName))
    (upstream "invalid Kubernetes CSR identity") ;;
  reject_if (negb (validCertificateSigningRequestSignerName signer)) (upstream "invalid Kubernetes CSR signer") ;;
  reject_if (negb (validCertificateSigningRequestText username certificateSigningRequestMaxRequesterBytes true))
    (upstream "invalid Kubernetes CSR requester") ;;
  reject_if (from_option (λ e, e <? 600) false expiration)
    (upstream "invalid Kubernetes CSR requested expiration") ;;
  usages ← decodeCertificateSigningRequestUsages usages;
  '(conditions, approved, denied, failed) ← decodeCertificateSigningRequestConditions conditionSources;
  reject_if (approved && denied) (upstream "conflicting Kubernetes CSR approval conditions") ;;
  reject_if (certificateIssued && (negb approved || denied || failed))
    (upstream "invalid Kubernetes CSR issued state") ;;
  Ok (KubernetesCertificateSigningRequestDetail.mk
        (KubernetesCertificateSigningRequest.mk metadata.(sourceMetadata.Name) metadata.(sourceMetadata.CreationTimestamp))
        username signer expiration usages (csr_state denied failed certificateIssued approved)
        certificateIssued conditions (len_list conditionSources)).
End certificates.

Definition validCertificateSigningRequestContinue : string → bool := valid_continue certificateSigningRequestMaxContinueBytes.

Definition csr_pager : pager :=
  strict_pager "Kubernetes CSR" {[ "limit" := certificateSigningRequestListPageSize ]} kubernetesPartialMetadataListAccept
    certificateSigningRequestMaxListPages certificateSigningRequestMaxListBytes certificateSigningRequestMaxListBytes
    validCertificateSigningRequestContinue.

Definition csr_page :=
  metadata_page (page_texts_of "Kubernetes CSR" "metadata list") certificateSigningRequestMaxListItems
    (new_items (named_item ValidateCertificateSigningRequestName "invalid Kubernetes CSR metadata identity"
        KubernetesCertificateSigningRequest.mk)
       KubernetesCertificateSigningRequest.Name "duplicate Kubernetes CSR metadata identity").

(** ** The methods of the client *)

Section access_readers.
Context (token : string).

Definition AccessResources (kind : KubernetesAccessResourceKind) (namespace : string) :
    fetch (result (list KubernetesAccessResource)) :=
  ValidateAccessResourceScope kind namespace ;!
  spec ←! Done (accessSpec kind);
  items ←! all_pages token access_pager (access_page spec namespace) (accessCollectionPath spec namespace);
  Done (Ok (sort_Slice (by_namespace KubernetesAccessResource.Namespace KubernetesAccessResource.Name) items)).

Definition AccessResourceDetail (reference : KubernetesAccessResourceReference) :
    fetch (result KubernetesAccessResourceDetail) :=
  ValidateAccessResourceReference reference ;!
  spec ←! Done (accessSpec reference.(KubernetesAccessResourceReference.Kind));
  '(payload, _) ←! getPayload token
    (accessCollectionPath spec reference.(KubernetesAccessResourceReference.Namespace) +:+ "/" +:+
     reference.(KubernetesAccessResourceReference.Name)) None "application/json" maxAccessDetailBytes false;
  Done (decodeAccessResourceDetail payload reference spec).

Definition CertificateSigningRequests : fetch (result (list KubernetesCertificateSigningRequest)) :=
  items ←! all_pages token csr_pager csr_page certificateSigningRequestCollectionPath;
  Done (Ok (sort_Slice (by_name KubernetesCertificateSigningRequest.Name) items)).

Definition CertificateSigningRequest `{UnicodePrint} (name : string) :
    fetch (result KubernetesCertificateSigningRequestDetail) :=
  one_object token ValidateCertificateSigningRequestName certificateSigningRequestCollectionPath
    certificateSigningRequestMaxDetailBytes decodeCertificateSigningRequest name.
End access_readers.

(** ** The review asks what was asked *)

Lemma to_valid_ascii s : all_bytes is_ascii s = true → to_valid s = s.
Proof. induction s as [|c s IH]; cbn; [done|]. intros [-> Hs]%andb_true_iff. by rewrite IH. Qed.

Lemma safe_segment_ascii s : safe_segment s → all_bytes is_ascii s = true.
Proof. intros (_ & _ & _ & Hs). eapply all_bytes_weaken, Hs. byte_implies. Qed.

Lemma optional_ascii value (valid : string → bool) e u :
  (∀ s, valid s = true → all_bytes is_ascii s = true) →
  reject_if (negb (bool_decide (value = "")) && negb (valid value)) e = Ok u → all_bytes is_ascii value = true.
Proof.
  intros Hv H%reject_if_Ok. apply andb_false_iff in H as [H|H]; apply negb_false_iff in H; [|by apply Hv].
  apply bool_decide_eq_true in H. by subst.
Qed.

Lemma omitempty_printable name value :
  to_valid name = name → to_valid value = value →
  foldr (λ m P, (to_valid m.1 = m.1 ∧ printable m.2.2) ∧ P) True (omitempty name value).
Proof. intros Hn Hv. unfold omitempty. by case_bool_decide. Qed.

Lemma foldr_and_app {A} (P : A → Prop) (l k : list A) :
  foldr (λ a Q, P a ∧ Q) True l → foldr (λ a Q, P a ∧ Q) True k → foldr (λ a Q, P a ∧ Q) True (l ++ k).
Proof. intros Hl Hk. induction l as [|a l IH]; cbn in *; [done|]. by destruct Hl; split; [|apply IH]. Qed.

(** A review that is valid can be written, unless the name of a resource is no text. *)
Lemma subject_access_review_printable input :
  ValidateServiceAccountAccessReviewInput input = Ok tt →
  let name := input.(KubernetesServiceAccountAccessReviewInput.ResourceAttributes).(KubernetesResourceAttributes.Name) in
  to_valid name = name → printable (subject_access_review input).
Proof.
  destruct input as [[namespace name] [group resource subresource verb inNamespace resourceName]].
  unfold ValidateServiceAccountAccessReviewInput. cbn zeta. cbn [KubernetesServiceAccountAccessReviewInput.ServiceAccount
    KubernetesServiceAccountAccessReviewInput.ResourceAttributes KubernetesServiceAccountReference.Namespace
    KubernetesServiceAccountReference.Name KubernetesResourceAttributes.Group KubernetesResourceAttributes.Resource
    KubernetesResourceAttributes.Subresource KubernetesResourceAttributes.Verb KubernetesResourceAttributes.Namespace
    KubernetesResourceAttributes.Name].
  intros (? & Hns%reject_invalid_Ok & (? & Hn%reject_invalid_Ok & (? & Hg & (? & Hr%reject_invalid_Ok & (? & Hs &
    (? & Hv%reject_invalid_Ok & (? & Hin & _)%bind_Ok)%bind_Ok)%bind_Ok)%bind_Ok)%bind_Ok)%bind_Ok)%bind_Ok Hname.
  assert (∀ s, validDNSLabel s = true → all_bytes is_ascii s = true) as HL
    by (intros s H%validDNSLabel_safe; by apply safe_segment_ascii).
  assert (∀ s, validDNSSubdomain s = true → all_bytes is_ascii s = true) as HD
    by (intros s H%validDNSSubdomain_safe; by apply safe_segment_ascii).
  apply HL in Hns, Hr. apply HD in Hn. apply (optional_ascii _ _ _ _ HD) in Hg.
  apply (optional_ascii _ _ _ _ HL) in Hs. apply (optional_ascii _ _ _ _ HL) in Hin.
  assert (all_bytes is_ascii verb = true) as Hverb.
  { unfold validAccessReviewVerb in Hv. apply bool_decide_eq_true, list_elem_of_In in Hv. cbn in Hv.
    destruct_or! Hv; by subst. }
  assert (to_valid ("system:serviceaccount:" +:+ namespace +:+ ":" +:+ name) =
    "system:serviceaccount:" +:+ namespace +:+ ":" +:+ name) as Hu.
  { apply to_valid_ascii. rewrite !all_bytes_app, Hns, Hn. done. }
  assert (to_valid ("system:serviceaccounts:" +:+ namespace) = "system:serviceaccounts:" +:+ namespace) as Hgr.
  { apply to_valid_ascii. by rewrite all_bytes_app, Hns. }
  unfold subject_access_review. cbn [printable foldr fst snd text object]. split_and!; try done; try by apply to_valid_ascii.
  repeat (apply foldr_and_app); try (by apply omitempty_printable; [|by apply to_valid_ascii]).
  - cbn. split_and!; [done| |done]. by apply to_valid_ascii.
  - cbn. split_and!; [done| |done]. by apply to_valid_ascii.
  - by apply omitempty_printable.
Qed.

Lemma subject_access_review_depth input : (depth (subject_access_review input) ≤ 4)%nat.
Proof.
  destruct input as [[namespace name] [group resource subresource verb inNamespace resourceName]].
  unfold subject_access_review, omitempty. repeat case_bool_decide; cbn; lia.
Qed.

(** The answer said so, and did not contradict itself. *)
Definition review_says (payload : string) (state : KubernetesCapabilityState) : Prop :=
  ∃ allowed denied,
    Unmarshal subject_review_answer payload =
      Some ("authorization.k8s.io/v1", "SubjectAccessReview", (Some allowed, denied)) ∧
    allowed && denied = false ∧
    state = (if allowed then KubernetesCapabilityAllowed else if denied then KubernetesCapabilityDenied
             else KubernetesCapabilityIndeterminate).

Lemma subject_review_state_says payload state : subject_review_state payload = Ok state → review_says payload state.
Proof.
  unfold subject_review_state. destruct (Unmarshal subject_review_answer payload) as [[[v k] [allowed denied]]|] eqn:E; [|done].
  cbn. intros (? & Hid & H)%bind_Ok. apply reject_if_Ok in Hid.
  apply orb_false_iff in Hid as [Hv%negb_false_iff%bool_decide_eq_true Hk%negb_false_iff%bool_decide_eq_true]. subst v k.
  destruct allowed as [allowed|]; [|done]. exists allowed, denied. split; [done|].
  destruct allowed, denied; try done; by injection H as <-.
Qed.


Definition example_review : KubernetesServiceAccountAccessReviewInput :=
  KubernetesServiceAccountAccessReviewInput.mk (KubernetesServiceAccountReference.mk "ops" "deployer")
    (KubernetesResourceAttributes.mk "apps" "deployments" "" "patch" "shop" "web").

Definition example_review_answer : outcome :=
  Answer 201 (Marshal (Object [("apiVersion", text "authorization.k8s.io/v1"); ("kind", text "SubjectAccessReview");
    ("status", object [("allowed", ("", Bool true))])])) false None.


(** ** The state of a signing request *)

(** A condition of the request was true. *)
Definition was (type : string) (d : KubernetesCertificateSigningRequestDetail) : Prop :=
  ∃ c, c ∈ d.(KubernetesCertificateSigningRequestDetail.Conditions) ∧
    c.(KubernetesCertificateSigningRequestCondition.Type_) = type ∧
    c.(KubernetesCertificateSigningRequestCondition.Status) = "True".

Lemma has_condition_spec type source :
  has_condition type source = true ↔ type ∈ certificateSigningRequestConditionSource.Type_ <$> source.
Proof.
  unfold has_condition. rewrite existsb_exists, list_elem_of_fmap. setoid_rewrite bool_decide_eq_true.
  setoid_rewrite <-list_elem_of_In. naive_solver.
Qed.

Lemma csr_condition_type c :
  (csr_condition c).(KubernetesCertificateSigningRequestCondition.Type_) = c.(certificateSigningRequestConditionSource.Type_).
Proof. by destruct c. Qed.

Lemma known_condition_true type source conditions :
  csr_known type = true → Forall (λ c, check_csr_known c = Ok tt) source →
  conditions ≡ₚ csr_condition <$> source →
  has_condition type source = true ↔
    ∃ c, c ∈ conditions ∧ c.(KubernetesCertificateSigningRequestCondition.Type_) = type ∧
      c.(KubernetesCertificateSigningRequestCondition.Status) = "True".
Proof.
  intros Hk Hf Hp. rewrite has_condition_spec. setoid_rewrite Hp. setoid_rewrite list_elem_of_fmap. split.
  - intros (c & -> & Hc). exists (csr_condition c). rewrite csr_condition_type. split_and!; [eauto|done|].
    rewrite Forall_forall in Hf. apply Hf, reject_if_Ok in Hc. rewrite Hk in Hc. cbn in Hc.
    apply negb_false_iff, bool_decide_eq_true in Hc. by destruct c.
  - intros (? & (c & -> & Hc) & <- & _). exists c. by rewrite csr_condition_type.
Qed.

Section certificates_correct.
Context `{UnicodePrint}.

Lemma decodeCertificateSigningRequestConditions_Ok source conditions approved denied failed :
  decodeCertificateSigningRequestConditions source = Ok (conditions, approved, denied, failed) →
  len_list conditions ≤ 32 ∧ len_list source = len_list conditions ∧
  NoDup (KubernetesCertificateSigningRequestCondition.Type_ <$> conditions) ∧
  StronglySorted (not_after (by_name KubernetesCertificateSigningRequestCondition.Type_)) conditions ∧
  (∀ type b, (type, b) ∈ [("Approved", approved); ("Denied", denied); ("Failed", failed)] →
     (b = true ↔ ∃ c, c ∈ conditions ∧ c.(KubernetesCertificateSigningRequestCondition.Type_) = type ∧
        c.(KubernetesCertificateSigningRequestCondition.Status) = "True")).
Proof.
  unfold decodeCertificateSigningRequestConditions.
  intros (? & Hl%reject_if_Ok%Z.ltb_ge & (seen & (Hf & Hn & _ & _)%each_once_Ok & [= <- <- <- <-])%bind_Ok)%bind_Ok.
  pose proof (sort_Slice_Permutation (by_name KubernetesCertificateSigningRequestCondition.Type_) (csr_condition <$> source)) as Hp.
  assert (len_list (sort_Slice (by_name KubernetesCertificateSigningRequestCondition.Type_) (csr_condition <$> source)) = len_list source) as El
    by (unfold len_list; by rewrite Hp, length_fmap).
  assert (KubernetesCertificateSigningRequestCondition.Type_ <$> (csr_condition <$> source) =
    certificateSigningRequestConditionSource.Type_ <$> source) as Et.
  { rewrite <-list_fmap_compose. apply list_fmap_ext. intros i c _. apply csr_condition_type. }
  unfold certificateSigningRequestMaxConditions in Hl. split_and!; [lia|done| |apply sort_Slice_Sorted, _|].
  - by rewrite Hp, Et.
  - intros type b Hb.
    assert (csr_known type = true ∧ b = has_condition type source) as [Hk ->]
      by (apply list_elem_of_In in Hb; cbn in Hb; destruct_or! Hb; simplify_eq; done).
    apply known_condition_true; [done| |done]. eapply Forall_impl; [exact Hf|]. by intros c [_ ?].
Qed.

Lemma decodeCertificateSigningRequest_of payload name detail :
  decodeCertificateSigningRequest payload name = Ok detail →
  detail.(KubernetesCertificateSigningRequestDetail.KubernetesCertificateSigningRequest).(KubernetesCertificateSigningRequest.Name) = name.
Proof.
  unfold decodeCertificateSigningRequest. intros ([v k metadata signer expiration usages user issued source] & _ & Hd)%bind_Ok.
  apply bind_Ok in Hd as (? & [Hid _]%reject_invalid_Ok%is_cluster_object_name & (? & _ & (? & _ & (? & _ & (shown & _ &
    ([[[? ?] ?] ?] & _ & (? & _ & (? & _ & [= <-])%bind_Ok)%bind_Ok)%bind_Ok)%bind_Ok)%bind_Ok)%bind_Ok)%bind_Ok).
  exact Hid.
Qed.

End certificates_correct.

Definition example_csr : string := Marshal (Object [("apiVersion", text "certificates.k8s.io/v1");
  ("kind", text "CertificateSigningRequest");
  ("metadata", object [("name", text "node-1"); ("creationTimestamp", text "2025-06-01T08:30:00Z")]);
  ("spec", object [("signerName", text "kubernetes.io/kubelet-serving"); ("username", text "system:node:node-1");
    ("usages", ("", Array [("", Str "server auth"); ("", Str "digital signature")]))]);
  ("status", object [("certificate", text "TFMwdA==");
    ("conditions", ("", Array [object [("type", text "Approved"); ("status", text "True"); ("reason", text "AutoApproved")]]))])]).


(** ** Details: what is shown of a role and a binding *)

Lemma mapM_each {A B} (f : A → result B) (P : B → Prop) l k :
  (∀ a b, f a = Ok b → P b) → mapM f l = Ok k → Forall P k ∧ length k = length l.
Proof.
  intros Hf. revert k. induction l as [|a l IH]; intros k; cbn; [intros [= <-]; by split; [constructor|]|].
  intros (b & Hb & (k' & Hk & [= <-])%bind_Ok)%bind_Ok. apply IH in Hk as [Hk Hl]. cbn.
  split; [constructor; [by eapply Hf|done]|by f_equal].
Qed.

Definition shown_strings (values : list string) : Prop :=
  len_list values ≤ 64 ∧ Forall (λ v, len v ≤ 512 ∧ clean v = true) values.

Lemma boundedAccessStrings_Ok values shown truncated :
  boundedAccessStrings values = Ok (shown, truncated) →
  shown_strings shown ∧ shown = take 64 values ∧ (truncated = false ↔ shown = values).
Proof.
  unfold boundedAccessStrings. intros (k & Hk & [= <- <-])%bind_Ok.
  assert (∀ l k, mapM (λ value, reject_if ((maxAccessStringBytes <? len value) || negb (clean value))
    (upstream "invalid Kubernetes access rule value") ;; Ok value) l = Ok k →
    k = l ∧ Forall (λ v, len v ≤ 512 ∧ clean v = true) k) as Hid.
  { clear. induction l as [|v l IH]; intros k; cbn; [intros [= <-]; by split; [|constructor]|].
    intros (w & (? & [Hl%Z.ltb_ge Hc%negb_false_iff]%reject_if_Ok%orb_false_iff & [= <-])%bind_Ok &
      (k' & [-> Hf]%IH & [= <-])%bind_Ok)%bind_Ok. split; [done|by constructor]. }
  apply Hid in Hk as [-> Hf]. unfold maxAccessRuleValues. change (Z.to_nat 64) with 64%nat in *.
  split_and!; [split; [unfold len_list; rewrite length_take; lia|done]|done|].
  rewrite Z.ltb_ge. unfold len_list. split.
  - intros H. apply take_ge. lia.
  - intros E. apply (f_equal length) in E. rewrite length_take in E. lia.
Qed.

Definition shown_rule (r : KubernetesRoleRule) : Prop :=
  shown_strings r.(KubernetesRoleRule.APIGroups) ∧ shown_strings r.(KubernetesRoleRule.Resources) ∧
  shown_strings r.(KubernetesRoleRule.ResourceNames) ∧ shown_strings r.(KubernetesRoleRule.Verbs) ∧
  shown_strings r.(KubernetesRoleRule.NonResourceURLs).

(** What a rule says, whole. *)
Definition rule_values (r : KubernetesRoleRule) : list string * list string * list string * list string * list string :=
  (r.(KubernetesRoleRule.APIGroups), r.(KubernetesRoleRule.Resources), r.(KubernetesRoleRule.ResourceNames),
   r.(KubernetesRoleRule.Verbs), r.(KubernetesRoleRule.NonResourceURLs)).

Lemma decodeAccessRule_Ok raw rule truncated :
  decodeAccessRule raw = Ok (rule, truncated) →
  shown_rule rule ∧ (truncated = false ↔ Unmarshal access_rule_source raw = Some (rule_values rule)).
Proof.
  unfold decodeAccessRule. destruct (Unmarshal access_rule_source raw) as [[[[[g r] n] v] u]|]; [|done]. cbn.
  intros ([g' t1] & (S1 & E1 & T1)%boundedAccessStrings_Ok & ([r' t2] & (S2 & E2 & T2)%boundedAccessStrings_Ok &
    ([n' t3] & (S3 & E3 & T3)%boundedAccessStrings_Ok & ([v' t4] & (S4 & E4 & T4)%boundedAccessStrings_Ok &
    ([u' t5] & (S5 & E5 & T5)%boundedAccessStrings_Ok & [= <- <-])%bind_Ok)%bind_Ok)%bind_Ok)%bind_Ok)%bind_Ok.
  split; [by split_and!|]. unfold rule_values. cbn. rewrite !orb_false_iff, T1, T2, T3, T4, T5.
  split; [by intros [[[[-> ->] ->] ->] ->]|by intros [= -> -> -> -> ->]].
Qed.

(** Nothing is left out of the rules that are shown. *)
Definition all_rules (raws : list RawMessage) (rules : list KubernetesRoleRule) : Prop :=
  Forall2 (λ raw rule, Unmarshal access_rule_source raw = Some (rule_values rule)) raws rules.

Lemma decodeAccessRules_Ok raws rules count truncated :
  decodeAccessRules raws = Ok (rules, count, truncated) →
  count = len_list raws ∧ len_list rules = Z.min 128 count ∧ Forall shown_rule rules ∧
  (truncated = false ↔ all_rules raws rules).
Proof.
  unfold decodeAccessRules, maxAccessRules. change (Z.to_nat 128) with 128%nat. intros (k & Hk & [= <- <- <-])%bind_Ok.
  assert (∀ l k, mapM decodeAccessRule l = Ok k → Forall shown_rule k.*1 ∧ length k = length l ∧
    (existsb snd k = false ↔ all_rules l k.*1)) as Hl.
  { clear. unfold all_rules. induction l as [|raw l IH]; intros k; cbn; [intros [= <-]; by split_and!; [constructor|..]|].
    intros ([rule t] & [Hs Ht]%decodeAccessRule_Ok & (k' & (Hf & Hl & Hx)%IH & [= <-])%bind_Ok)%bind_Ok. cbn.
    split_and!; [by constructor|by f_equal|]. rewrite orb_false_iff, Ht, Hx. by rewrite Forall2_cons. }
  apply Hl in Hk as (Hf & Hlen & Hx). rewrite length_take in Hlen. split_and!; [done| |done|].
  - unfold len_list. rewrite length_fmap, Hlen. lia.
  - rewrite orb_false_iff, Hx, Z.ltb_ge. unfold all_rules, len_list. split.
    + intros [H HF]. rewrite take_ge in HF by lia. done.
    + intros HF. pose proof (Forall2_length _ _ _ HF) as E. rewrite length_fmap in E.
      assert (length raws ≤ 128)%nat as Hle by (unfold RawMessage in *; lia). rewrite take_ge by done. split; [lia|done].
Qed.

(** A subject is valid, and a service account is one of a namespace. *)
Definition shown_subject (s : KubernetesAccessSubject) : Prop :=
  validAccessSubjectName s.(KubernetesAccessSubject.Name) = true ∧
  (s.(KubernetesAccessSubject.Kind) = "ServiceAccount" ∧
     ValidateAccessResourceReference (KubernetesAccessResourceReference.mk AccessResourceServiceAccounts
       s.(KubernetesAccessSubject.Namespace) s.(KubernetesAccessSubject.Name)) = Ok tt ∨
   s.(KubernetesAccessSubject.Kind) ∈ ["User"; "Group"] ∧ s.(KubernetesAccessSubject.Namespace) = "").

Lemma is_ok_tt (r : result unit) : is_ok r = true → r = Ok tt.
Proof. by destruct r as [[]|]. Qed.

Lemma decodeAccessSubject_Ok namespace raw s : decodeAccessSubject namespace raw = Ok s → shown_subject s.
Proof.
  unfold decodeAccessSubject. cbv zeta. intros ([[[group kind] ns] name] & _ & H)%bind_Ok.
  apply bind_Ok in H as (? & Hn%reject_invalid_Ok & H). revert H. case_bool_decide as Hk.
  - intros (? & _ & (? & Hv%reject_invalid_Ok%is_ok_tt & [= <-])%bind_Ok)%bind_Ok. split; [done|]. by left.
  - destruct (bool_decide (kind = "User") || _) eqn:Hu; [|done].
    intros (? & _ & [= <-])%bind_Ok. split; [done|]. right. split; [|done]. cbn.
    apply orb_true_iff in Hu. rewrite !bool_decide_eq_true in Hu. destruct Hu as [-> | ->]; by repeat constructor.
Qed.

(** A role is referred to by a binding of its namespace only. *)
Definition shown_role (kind : KubernetesAccessResourceKind) (r : KubernetesRoleReference) : Prop :=
  r.(KubernetesRoleReference.Kind) = "ClusterRole" ∨
  r.(KubernetesRoleReference.Kind) = "Role" ∧ kind = AccessResourceRoleBindings.

Lemma decodeAccessRoleReference_Ok raw kind namespace r :
  decodeAccessRoleReference raw kind namespace = Ok r →
  shown_role kind r ∧ validRBACResourceName r.(KubernetesRoleReference.Name) = true.
Proof.
  unfold decodeAccessRoleReference. cbv zeta. intros (? & _ & ([[group k] name] & _ & H)%bind_Ok)%bind_Ok.
  apply bind_Ok in H as (? & _ & (reference & Hr & (? & Hv%reject_invalid_Ok%is_ok_tt & [= <-])%bind_Ok)%bind_Ok).
  revert Hr Hv. unfold ValidateAccessResourceReference. case_bool_decide as E1.
  - intros (? & Hk%reject_if_Ok%negb_false_iff%bool_decide_eq_true & [= <-])%bind_Ok.
    intros (? & _ & Hn%reject_invalid_Ok)%bind_Ok. split; [by right|done].
  - case_bool_decide as E2; [|done]. intros [= <-]. intros (? & _ & Hn%reject_invalid_Ok)%bind_Ok. split; [by left|done].
Qed.

(** A subject that is shown is the one the binding names. *)
Lemma decodeAccessSubjects_Ok raws namespace subjects count truncated :
  decodeAccessSubjects raws namespace = Ok (subjects, count, truncated) →
  count = len_list raws ∧ len_list subjects = Z.min 128 count ∧ Forall shown_subject subjects ∧
  (truncated = false ↔ len_list subjects = count).
Proof.
  unfold decodeAccessSubjects, maxAccessSubjects. change (Z.to_nat 128) with 128%nat.
  intros (k & Hk & [= <- <- <-])%bind_Ok.
  apply (mapM_each _ shown_subject) in Hk as [Hf Hl]; [|apply decodeAccessSubject_Ok].
  rewrite length_take in Hl. unfold len_list, RawMessage in *. rewrite Hl, Z.ltb_ge. split_and!; [done|lia|done|lia].
Qed.

(** A kind that is not one of the list. *)
Ltac not_listed := let H := fresh in intros H%list_elem_of_In; cbn in H; destruct_or! H; discriminate.

(** A detail is of the resource that was asked for. *)
Lemma decodeAccessResourceDetail_of payload reference spec detail :
  decodeAccessResourceDetail payload reference spec = Ok detail →
  detail.(KubernetesAccessResourceDetail.KubernetesAccessResource).(KubernetesAccessResource.Name) =
    reference.(KubernetesAccessResourceReference.Name) ∧
  detail.(KubernetesAccessResourceDetail.KubernetesAccessResource).(KubernetesAccessResource.Namespace) =
    reference.(KubernetesAccessResourceReference.Namespace).
Proof.
  destruct reference as [kind namespace name]. unfold decodeAccessResourceDetail.
  intros ([version k metadata rawRules rawRoleRef rawSubjects automount secrets pullSecrets] & _ & Hd)%bind_Ok.
  apply bind_Ok in Hd as (? & _ & (? & _ & Hd)%bind_Ok). revert Hd.
  case_bool_decide; [by intros [= <-]|]. case_bool_decide; [by intros ([[? ?] ?] & _ & [= <-])%bind_Ok|].
  case_bool_decide; [|done]. by intros (? & _ & ([[? ?] ?] & _ & [= <-])%bind_Ok)%bind_Ok.
Qed.

(** What is shown of a role or a binding is what was asked for, bounded, and does not
    hide anything unannounced: the detail is of the resource that was asked for; a role
    shows its first 128 rules, of each list in a rule the first 64 values, and unless it
    is marked as truncated it shows every rule with every value; a binding shows its first
    128 subjects, each a user, a group or a service account of a namespace, and refers to a
    role only if it is not a cluster's; and no part is shown of a resource that has none. *)
Theorem decodeAccessResourceDetail_shows payload reference spec detail :
  decodeAccessResourceDetail payload reference spec = Ok detail →
  let kind := reference.(KubernetesAccessResourceReference.Kind) in
  let resource := detail.(KubernetesAccessResourceDetail.KubernetesAccessResource) in
  let rules := detail.(KubernetesAccessResourceDetail.Rules) in
  let subjects := detail.(KubernetesAccessResourceDetail.Subjects) in
  resource.(KubernetesAccessResource.Name) = reference.(KubernetesAccessResourceReference.Name) ∧
  resource.(KubernetesAccessResource.Namespace) = reference.(KubernetesAccessResourceReference.Namespace) ∧
  Forall shown_rule rules ∧ len_list rules = Z.min 128 detail.(KubernetesAccessResourceDetail.RuleCount) ∧
  Forall shown_subject subjects ∧ len_list subjects = Z.min 128 detail.(KubernetesAccessResourceDetail.SubjectCount) ∧
  (kind ∈ [AccessResourceRoles; AccessResourceClusterRoles] →
     ∃ source, Unmarshal accessDetailSource.decode payload = Some source ∧
       detail.(KubernetesAccessResourceDetail.RuleCount) = len_list source.(accessDetailSource.Rules) ∧
       (detail.(KubernetesAccessResourceDetail.RulesTruncated) = false ↔
          all_rules source.(accessDetailSource.Rules) rules)) ∧
  (kind ∈ [AccessResourceRoleBindings; AccessResourceClusterRoleBindings] ↔
     is_Some detail.(KubernetesAccessResourceDetail.RoleRef)) ∧
  (∀ role, detail.(KubernetesAccessResourceDetail.RoleRef) = Some role → shown_role kind role) ∧
  (detail.(KubernetesAccessResourceDetail.SubjectsTruncated) = false ↔
     len_list subjects = detail.(KubernetesAccessResourceDetail.SubjectCount)).
Proof.
  destruct reference as [kind namespace name]. unfold decodeAccessResourceDetail.
  intros ([version k metadata rawRules rawRoleRef rawSubjects automount secrets pullSecrets] & Hsource & Hd)%bind_Ok.
  apply bind_Ok in Hd as (? & _ & (? & _ & Hd)%bind_Ok). unfold expect_ok in Hsource.
  destruct (Unmarshal accessDetailSource.decode payload) as [source|] eqn:Es; [|done]. injection Hsource as ->.
  cbn [KubernetesAccessResourceReference.Kind KubernetesAccessResourceReference.Namespace
    KubernetesAccessResourceReference.Name]. revert Hd.
  case_bool_decide as K1; [|case_bool_decide as K2; [|case_bool_decide as K3; [|done]]].
  - intros [= <-]. cbn. subst kind. split_and!; try done.
    + not_listed.
    + split; [not_listed|by intros []].
  - apply list_elem_of_In in K2. intros ([[rules count] truncated] & (Hc & Hl & Hf & Ht)%decodeAccessRules_Ok & [= <-])%bind_Ok.
    cbn. split_and!; try done; [by intros _; eexists|].
    split; [|by intros []]. cbn in K2. destruct_or! K2; subst kind; not_listed.
  - intros (role & [Hr _]%decodeAccessRoleReference_Ok & ([[subjects count] truncated] &
      (Hc & Hl & Hf & Ht)%decodeAccessSubjects_Ok & [= <-])%bind_Ok)%bind_Ok.
    cbn. split_and!; try done. by intros role' [= <-].
Qed.

Definition example_binding : string := Marshal (Object [("apiVersion", text "rbac.authorization.k8s.io/v1");
  ("kind", text "RoleBinding");
  ("metadata", object [("name", text "deployers"); ("namespace", text "shop"); ("creationTimestamp", text "2025-06-01T08:30:00Z")]);
  ("roleRef", object [("apiGroup", text "rbac.authorization.k8s.io"); ("kind", text "Role"); ("name", text "deployer")]);
  ("subjects", ("", Array [object [("kind", text "ServiceAccount"); ("name", text "ci")];
    object [("apiGroup", text "rbac.authorization.k8s.io"); ("kind", text "Group"); ("name", text "developers")]]))]).

Lemma decodeAccessResourceDetail_shows_witness :
  ∃ detail, decodeAccessResourceDetail example_binding
      (KubernetesAccessResourceReference.mk AccessResourceRoleBindings "shop" "deployers")
      (accessResourceSpec.mk rbac_version "RoleBinding" "rolebindings" true) = Ok detail ∧
    len_list detail.(KubernetesAccessResourceDetail.Subjects) = 2 ∧
    (∀ role, detail.(KubernetesAccessResourceDetail.RoleRef) = Some role → shown_role AccessResourceRoleBindings role).
Proof.
  eexists. assert (decodeAccessResourceDetail example_binding
    (KubernetesAccessResourceReference.mk AccessResourceRoleBindings "shop" "deployers")
    (accessResourceSpec.mk rbac_version "RoleBinding" "rolebindings" true) = Ok _) as E by (vm_compute; reflexivity).
  split; [exact E|]. split; [reflexivity|].
  destruct (decodeAccessResourceDetail_shows _ _ _ _ E) as (_ & _ & _ & _ & _ & _ & _ & _ & Hr & _). exact Hr.
Defined.

(** ** The readers *)

(** A request for one object in a collection: its name is one segment, which the client
    escapes. *)
Definition reading_under (collection : string) (r : Request) : Prop :=
  r.(Request.Method) = "GET" ∧ ∃ name, r.(Request.Path) = collection +:+ "/" +:+ name ∧
    name ≠ "" ∧ name ≠ "." ∧ name ≠ ".." ∧ ContainsAny name "/%" = false.

Lemma validRBACResourceName_segment name :
  validRBACResourceName name = true → name ≠ "" ∧ name ≠ "." ∧ name ≠ ".." ∧ ContainsAny name "/%" = false.
Proof.
  unfold validRBACResourceName. rewrite !andb_true_iff, !negb_true_iff, !bool_decide_eq_false. tauto.
Qed.

Lemma accessSpec_Ok kind namespace :
  ValidateAccessResourceScope kind namespace = Ok tt →
  ∃ spec, accessSpec kind = Ok spec ∧ plain_path (accessCollectionPath spec namespace) ∧
    (spec.(accessResourceSpec.namespaced) = true ∧ ValidateNamespace namespace = Ok tt ∨
     spec.(accessResourceSpec.namespaced) = false ∧ namespace = "").
Proof.
  unfold ValidateAccessResourceScope. case_bool_decide as K1.
  - intros Hn. pose proof Hn as Hs%guard_Ok%negb_false_iff%validDNSLabel_safe.
    assert (∀ spec, spec.(accessResourceSpec.namespaced) = true →
      safe_segment spec.(accessResourceSpec.resource) → plain_path (accessCollectionPath spec namespace)) as Hp.
    { intros spec E Hr. unfold accessCollectionPath. rewrite E.
      apply plain_app; [by case_bool_decide; apply plainb_spec|].
      apply (plain_app "/namespaces" ("/" +:+ namespace +:+ "/" +:+ _)); [by apply plainb_spec|].
      apply (plain_under ("/" +:+ namespace)); [by apply plain_segment|done]. }
    apply list_elem_of_In in K1. cbn in K1. destruct_or! K1; try done; subst kind; eexists.
    all: split_and!; [reflexivity|apply Hp; [done|by apply safe_segmentb_spec]|by left].
  - case_bool_decide as K2; [|done]. intros Hn%guard_Ok%negb_false_iff%bool_decide_eq_true. subst namespace.
    apply list_elem_of_In in K2. cbn in K2. destruct_or! K2; try done; subst kind; eexists.
    all: split_and!; [reflexivity|by apply plainb_spec|by right].
Qed.

(** An item of the list is of the scope that was asked for. *)
Definition access_in (namespace : string) (a : KubernetesAccessResource) : Prop :=
  a.(KubernetesAccessResource.Namespace) = namespace ∧
  validKubernetesMetadataString a.(KubernetesAccessResource.Name) = true.

Lemma metadata_scope raw namespaced m :
  decodePartialObjectMetadataForScope raw namespaced = Ok m →
  validKubernetesMetadataString m.(partialObjectMetadata.Name) = true ∧
  (namespaced = false → m.(partialObjectMetadata.Namespace) = "").
Proof.
  unfold decodePartialObjectMetadataForScope. intros (? & _ & ([[v k] [[[name ns] created] deleted]] & _ & H)%bind_Ok)%bind_Ok.
  cbv beta iota zeta in H. apply bind_Ok in H as (? & _ & (? & Hv & (? & Hs & [= <-])%bind_Ok)%bind_Ok). cbn.
  apply reject_if_Ok in Hv. rewrite !orb_false_iff, negb_false_iff in Hv. split; [apply Hv|]. intros ->.
  by apply reject_if_Ok, negb_false_iff, bool_decide_eq_true in Hs.
Qed.

Lemma AccessResources_safe token kind namespace :
  safe reading 8 (AccessResources token kind namespace)
    (if_ok (sorted_list (by_namespace KubernetesAccessResource.Namespace KubernetesAccessResource.Name)
       (bounded_list 2000 (access_in namespace)))).
Proof.
  unfold AccessResources. apply safe_check. intros [] (spec & Es & Hp & Hs)%accessSpec_Ok. rewrite Es.
  change (8%nat) with (0 + 8)%nat. eapply (safe_or_return reading 0 8 _ _ (.= spec)); [by apply safe_Done|].
  intros ? ->. apply (sorted_pages_safe token access_pager); [done| |apply _..|by apply bounded_list_nil|done].
  apply objects_page_keeps, all_items_keeps. intros raw a. unfold access_item.
  intros (m & [Hname Hscope]%metadata_scope & (? & Hns%reject_if_Ok & [= <-])%bind_Ok)%bind_Ok. split; [|done]. cbn.
  destruct Hs as [[E _]|[E ->]]; rewrite E in *; cbn in Hns; [|by apply Hscope].
  by apply negb_false_iff, bool_decide_eq_true in Hns.
Qed.

Lemma AccessResourceDetail_safe token reference :
  safe (reading_under (from_option (λ spec, accessCollectionPath spec reference.(KubernetesAccessResourceReference.Namespace)) ""
      (match accessSpec reference.(KubernetesAccessResourceReference.Kind) with Ok spec => Some spec | Err _ => None end))) 1
    (AccessResourceDetail token reference) (if_ok (λ detail,
      detail.(KubernetesAccessResourceDetail.KubernetesAccessResource).(KubernetesAccessResource.Name) =
        reference.(KubernetesAccessResourceReference.Name))).
Proof.
  unfold AccessResourceDetail. apply safe_check. intros [] Hv.
  unfold ValidateAccessResourceReference in Hv. apply bind_Ok in Hv as ([] & (spec & Es & Hp & _)%accessSpec_Ok & Hn%reject_invalid_Ok).
  rewrite Es. cbn [from_option]. eapply (safe_or_return _ 0 1 _ _ (.= spec)); [by apply safe_Done|]. intros ? ->.
  eapply (safe_or_return _ 1 0 _ _ (λ _, True)).
  - eapply safe_more; [apply getPayload_safe; [done|]|done|done]. split; [done|]. eexists. split; [done|].
    revert Hn. case_bool_decide.
    + intros (H1 & H2 & H3 & Hb)%validDNSSubdomain_safe. split_and!; [done..|].
      apply negb_false_iff. eapply all_bytes_weaken, Hb. byte_implies.
    + apply validRBACResourceName_segment.
  - intros [payload b] _. apply safe_Done.
    destruct (decodeAccessResourceDetail payload reference spec) as [detail|] eqn:E; [|done].
    by apply decodeAccessResourceDetail_of in E as [? _].
Qed.

Lemma CertificateSigningRequests_safe token :
  safe reading 4 (CertificateSigningRequests token)
    (if_ok (listed 1000 KubernetesCertificateSigningRequest.Name
       (λ r, ValidateCertificateSigningRequestName r.(KubernetesCertificateSigningRequest.Name) = Ok tt))).
Proof.
  unfold CertificateSigningRequests. apply (listed_pages_safe token csr_pager); [done| |done..].
  apply objects_page_keeps, new_items_keeps. by intros raw a (n & c & -> & Hn)%named_item_spec.
Qed.

Lemma CertificateSigningRequest_safe `{UnicodePrint} token name :
  safe reading 1 (CertificateSigningRequest token name) (if_ok (λ d,
    d.(KubernetesCertificateSigningRequestDetail.KubernetesCertificateSigningRequest).(KubernetesCertificateSigningRequest.Name) = name)).
Proof.
  unfold CertificateSigningRequest. apply one_object_safe; [|by apply plainb_spec|done|].
  - intros n Hn%guard_Ok%negb_false_iff. by apply validDNSSubdomain_safe.
  - intros payload d _ Hd%decodeCertificateSigningRequest_of. exact Hd.
Qed.
