(* ===== verification/Extensions.v ===== *)
(** * Extensions of the API (src/internal/kubernetes)

    Definitions of custom resources (custom_resource_definition.go) and the services
    that serve the API (api_service.go). *)

From S2P Require Export Paging.

Local Open Scope Z_scope.
Local Open Scope stdpp_scope.
Local Open Scope fetch_scope.
Local Open Scope json_scope.

Import Json.

(** ** Shared by both *)

(** A text of the API that is shown: no longer than [maxBytes], and there if it must be. *)
Definition valid_text (maxBytes : Z) (value : string) (required : bool) : bool :=
  if bool_decide (value = "") then negb required else (len value <=? maxBytes) && clean value.

Definition condition_status (status : string) : bool :=
  bool_decide (status = "True") || bool_decide (status = "False") || bool_decide (status = "Unknown").

(** The first [maxItems] items, and whether there are more: the loops that append to a
    result while [index < limit]. *)
Definition first_of {A} (maxItems : Z) (source : list A) : list A * bool :=
  (take (Z.to_nat maxItems) source, maxItems <? len_list source).

(** ** Custom resource definitions (custom_resource_definition.go) *)

Definition customResourceDefinitionCollectionPath : string := "/apis/apiextensions.k8s.io/v1/customresourcedefinitions".
Definition customResourceDefinitionListPageSize : string := "250".
Definition customResourceDefinitionMaxListPages : nat := 8.
Definition customResourceDefinitionMaxListItems : Z := 2000.
Definition customResourceDefinitionMaxListBytes : Z := 16 * 1024 * 1024.
Definition customResourceDefinitionMaxDetailBytes : Z := 2 * 1024 * 1024.
Definition customResourceDefinitionMaxContinueBytes : Z := 16 * 1024.
Definition maxCustomResourceDefinitionVersions : Z := 64.
Definition maxCustomResourceDefinitionNames : Z := 32.
Definition maxCustomResourceDefinitionConditions : Z := 32.
Definition maxCustomResourceDefinitionNestedEntries : Z := 256.
Definition maxCustomResourceDefinitionTextBytes : Z := 256.

Module customResourceDefinitionVersionSource.
Record t : Type := mk { Name : string; Served : bool; Storage : bool; Deprecated : bool }.
#[global] Instance zero_t : Zero t := mk "" false false false.
Definition decode : decoder t := struct (λ old ms,
  name ← field "name" string_ old.(Name) ms;
  served ← field "served" bool_ old.(Served) ms;
  storage ← field "storage" bool_ old.(Storage) ms;
  deprecated ← field "deprecated" bool_ old.(Deprecated) ms;
  Some (mk name served storage deprecated)).
End customResourceDefinitionVersionSource.
Notation customResourceDefinitionVersionSource := customResourceDefinitionVersionSource.t.

Module customResourceDefinitionConditionSource.
Record t : Type := mk {
  Type_ : string;
  Status : string;
  Reason : string;
  ObservedGeneration : Z;
  LastTransitionTime : time;
}.
#[global] Instance zero_t : Zero t := mk "" "" "" 0 time_zero.
Definition decode : decoder t := struct (λ old ms,
  type ← field "type" string_ old.(Type_) ms;
  status ← field "status" string_ old.(Status) ms;
  reason ← field "reason" string_ old.(Reason) ms;
  observedGeneration ← field "observedGeneration" (int_ 64) old.(ObservedGeneration) ms;
  lastTransitionTime ← field "lastTransitionTime" time_ old.(LastTransitionTime) ms;
  Some (mk type status reason observedGeneration lastTransitionTime)).
End customResourceDefinitionConditionSource.
Notation customResourceDefinitionConditionSource := customResourceDefinitionConditionSource.t.

Module customResourceDefinitionSource.
(** [Spec.Names] *)
Record names : Type := mkNames {
  Plural : string;
  Singular : string;
  Kind_ : string;
  ListKind : string;
  ShortNames : list string;
  Categories : list string;
}.
#[global] Instance zero_names : Zero names := mkNames "" "" "" "" [] [].
Definition decode_names : decoder names := struct (λ old ms,
  plural ← field "plural" string_ old.(Plural) ms;
  singular ← field "singular" string_ old.(Singular) ms;
  kind ← field "kind" string_ old.(Kind_) ms;
  listKind ← field "listKind" string_ old.(ListKind) ms;
  shortNames ← field "shortNames" (slice string_) old.(ShortNames) ms;
  categories ← field "categories" (slice string_) old.(Categories) ms;
  Some (mkNames plural singular kind listKind shortNames categories)).

(** [Spec], its conversion by its strategy. *)
Record spec : Type := mkSpec {
  Group : string;
  Scope : string;
  Names : names;
  Versions : list customResourceDefinitionVersionSource;
  Conversion : option string;
}.
#[global] Instance zero_spec : Zero spec := mkSpec "" "" zero [] None.
Definition decode_spec : decoder spec := struct (λ old ms,
  group ← field "group" string_ old.(Group) ms;
  scope ← field "scope" string_ old.(Scope) ms;
  names ← field "names" decode_names old.(Names) ms;
  versions ← field "versions" (slice customResourceDefinitionVersionSource.decode) old.(Versions) ms;
  conversion ← field "conversion" (pointer (struct (field "strategy" string_))) old.(Conversion) ms;
  Some (mkSpec group scope names versions conversion)).

(** [Status] *)
Record status : Type := mkStatus {
  ObservedGeneration : Z;
  StoredVersions : list string;
  Conditions : list customResourceDefinitionConditionSource;
}.
#[global] Instance zero_status : Zero status := mkStatus 0 [] [].
Definition decode_status : decoder status := struct (λ old ms,
  observedGeneration ← field "observedGeneration" (int_ 64) old.(ObservedGeneration) ms;
  storedVersions ← field "storedVersions" (slice string_) old.(StoredVersions) ms;
  conditions ← field "conditions" (slice customResourceDefinitionConditionSource.decode) old.(Conditions) ms;
  Some (mkStatus observedGeneration storedVersions conditions)).

Record t : Type := mk {
  APIVersion : string;
  Kind : string;
  Metadata : sourceMetadata;
  Spec : spec;
  Status : status;
}.
#[global] Instance zero_t : Zero t := mk "" "" zero zero zero.
Definition decode : decoder t := struct (λ old ms,
  apiVersion ← field "apiVersion" string_ old.(APIVersion) ms;
  kind ← field "kind" string_ old.(Kind) ms;
  metadata ← field "metadata" sourceMetadata.decode old.(Metadata) ms;
  spec ← field "spec" decode_spec old.(Spec) ms;
  status ← field "status" decode_status old.(Status) ms;
  Some (mk apiVersion kind metadata spec status)).
End customResourceDefinitionSource.
Notation customResourceDefinitionSource := customResourceDefinitionSource.t.

Definition validCustomResourceDefinitionContinue : string → bool := valid_continue customResourceDefinitionMaxContinueBytes.

Definition validCustomResourceDefinitionLowerIdentifier (value : string) : bool := is_ok (ValidateNamespace value).

Definition is_ascii_letter (c : ascii) : bool := is_lower c || is_upper c.

(** The loop over the characters of a kind, which are bytes once it succeeds. *)
Definition kind_characters (value : string) : bool :=
  match value with
  | String c rest => is_ascii_letter c && all_bytes (λ c, is_ascii_letter c || is_digit c) rest
  | EmptyString => true
  end.

Definition validCustomResourceDefinitionKind (value : string) : bool :=
  if bool_decide (value = "") || (128 <? len value) || negb (bool_decide (value = TrimSpace value)) then false
  else kind_characters value.

Definition validCustomResourceDefinitionText : string → bool → bool := valid_text maxCustomResourceDefinitionTextBytes.

Definition splitCustomResourceDefinitionName (name : string) : result (string * string) :=
  ValidateCustomResourceDefinitionName name ;;
  let '(resource, group, _) := Cut name "." in Ok (resource, group).

Definition crd_item (raw : RawMessage) : result KubernetesCustomResourceDefinition :=
  metadata ← decodePartialObjectMetadataForScope raw false;
  match splitCustomResourceDefinitionName metadata.(partialObjectMetadata.Name) with
  | Err _ => Err (upstream "invalid Kubernetes CRD metadata identity")
  | Ok (resource, group) =>
      Ok (KubernetesCustomResourceDefinition.mk metadata.(partialObjectMetadata.Name) resource group
            metadata.(partialObjectMetadata.CreationTimestamp))
  end.

Definition crd_pager : pager := {|
  pager.query := {[ "limit" := customResourceDefinitionListPageSize ]};
  pager.accept := kubernetesPartialMetadataListAccept;
  pager.maxPages := customResourceDefinitionMaxListPages;
  pager.maxListBytes := customResourceDefinitionMaxListBytes;
  pager.maxPageBytes := maxResponseBytes;
  pager.bytes := pager.CheckAfter;
  pager.validContinue := validCustomResourceDefinitionContinue;
  pager.refusesRepeated := false;
  pager.full := None;
  pager.byteLimit := "Kubernetes CRD list exceeded safe byte limit";
  pager.pageLimit := "Kubernetes CRD list exceeded safe page limit";
  pager.badToken := "invalid Kubernetes CRD continuation token";
  pager.repeatedToken := ""; pager.itemLimit := "";
|}.

Definition crd_page :=
  metadata_page (page_texts_of "Kubernetes CRD" "metadata list") customResourceDefinitionMaxListItems (all_items crd_item).

(** *** A definition *)

Definition validateCustomResourceDefinitionIdentity (source : customResourceDefinitionSource) (expectedName : string) :
    result (string * string) :=
  let '(customResourceDefinitionSource.mk apiVersion kind metadata spec _) := source in
  let invalid := upstream "invalid Kubernetes CRD detail identity" in
  match splitCustomResourceDefinitionName metadata.(sourceMetadata.Name) with
  | Err _ => Err invalid
  | Ok (resource, group) =>
      reject_if (negb (bool_decide (apiVersion = "apiextensions.k8s.io/v1")) ||
                 negb (bool_decide (kind = "CustomResourceDefinition")) ||
                 negb (bool_decide (metadata.(sourceMetadata.Name) = expectedName)) ||
                 negb (bool_decide (metadata.(sourceMetadata.Namespace) = "")) ||
                 (metadata.(sourceMetadata.Generation) <? 1) ||
                 IsZero metadata.(sourceMetadata.CreationTimestamp) ||
                 negb (bool_decide (spec.(customResourceDefinitionSource.Group) = group)) ||
                 negb (bool_decide (spec.(customResourceDefinitionSource.Names).(customResourceDefinitionSource.Plural) = resource)) ||
                 negb (validCustomResourceDefinitionKind spec.(customResourceDefinitionSource.Names).(customResourceDefinitionSource.Kind_)) ||
                 (negb (bool_decide (spec.(customResourceDefinitionSource.Scope) = "Cluster")) &&
                  negb (bool_decide (spec.(customResourceDefinitionSource.Scope) = "Namespaced"))))
        invalid ;;
      Ok (resource, group)
  end.

Definition crd_version (version : customResourceDefinitionVersionSource) : KubernetesCustomResourceDefinitionVersion :=
  let '(customResourceDefinitionVersionSource.mk name served storage deprecated) := version in
  KubernetesCustomResourceDefinitionVersion.mk name served storage deprecated.

(** The versions that are shown, whether there are more, and the names of all. *)
Definition decodeCustomResourceDefinitionVersions (source : list customResourceDefinitionVersionSource) :
    result (list KubernetesCustomResourceDefinitionVersion * bool * gset string) :=
  reject_if (bool_decide (source = [])) (upstream "Kubernetes CRD has no versions") ;;
  versionNames ← each_once customResourceDefinitionVersionSource.Name
    (λ version, reject_if (negb (validCustomResourceDefinitionLowerIdentifier
         version.(customResourceDefinitionVersionSource.Name))) (upstream "invalid Kubernetes CRD version"))
    "duplicate Kubernetes CRD version" (λ _, Ok tt) source ∅;
  let storageCount := len_list (filter (λ version, version.(customResourceDefinitionVersionSource.Storage) = true) source) in
  reject_if (negb (storageCount =? 1)) (upstream "invalid Kubernetes CRD storage version") ;;
  let '(versions, truncated) := first_of maxCustomResourceDefinitionVersions source in
  Ok (crd_version <$> versions, truncated, versionNames).

Definition boundedCustomResourceDefinitionNames (values : list string) : result (list string * bool) :=
  distinct_values validCustomResourceDefinitionLowerIdentifier "invalid Kubernetes CRD resource name"
    "duplicate Kubernetes CRD resource name" values ;;
  Ok (first_of maxCustomResourceDefinitionNames values).

Definition boundedCustomResourceDefinitionStoredVersions (values : list string) (versionNames : gset string) :
    result (list string * bool) :=
  each_once id
    (λ value,
      reject_if (negb (validCustomResourceDefinitionLowerIdentifier value)) (upstream "invalid Kubernetes CRD stored version") ;;
      reject_if (negb (bool_decide (value ∈ versionNames))) (upstream "unknown Kubernetes CRD stored version"))
    "duplicate Kubernetes CRD stored version" (λ _, Ok tt) values ∅ ;;
  Ok (first_of maxCustomResourceDefinitionNames values).

Definition check_crd_condition (generation : Z) (c : customResourceDefinitionConditionSource) : result unit :=
  let '(customResourceDefinitionConditionSource.mk type status reason observed changed) := c in
  reject_if (negb (validCustomResourceDefinitionText type true) || negb (validCustomResourceDefinitionText reason false) ||
             negb (condition_status status) || (observed <? 0) || (generation <? observed) || IsZero changed)
    (upstream "invalid Kubernetes CRD condition").

Definition crd_condition (c : customResourceDefinitionConditionSource) : KubernetesCustomResourceDefinitionCondition :=
  let '(customResourceDefinitionConditionSource.mk type status reason observed changed) := c in
  KubernetesCustomResourceDefinitionCondition.mk type status reason observed changed.

Definition decodeCustomResourceDefinitionConditions (source : list customResourceDefinitionConditionSource)
    (generation : Z) : result (list KubernetesCustomResourceDefinitionCondition * bool) :=
  each_once customResourceDefinitionConditionSource.Type_ (check_crd_condition generation)
    "duplicate Kubernetes CRD condition" (λ _, Ok tt) source ∅ ;;
  let '(conditions, truncated) := first_of maxCustomResourceDefinitionConditions source in
  Ok (crd_condition <$> conditions, truncated).

Section crd.
Context `{UnicodeTables}.

Definition decodeCustomResourceDefinition (payload expectedName : string) :
    result KubernetesCustomResourceDefinitionDetail :=
  source ← expect_ok (upstream "decode Kubernetes CRD detail") (Unmarshal customResourceDefinitionSource.decode payload);
  '(resource, group) ← validateCustomResourceDefinitionIdentity source expectedName;
  let '(customResourceDefinitionSource.mk _ _ metadata spec status) := source in
  let '(customResourceDefinitionSource.mkSpec _ scope names versionSources conversion) := spec in
  let '(customResourceDefinitionSource.mkNames _ singular kind listKind shortNameSources categorySources) := names in
  let '(customResourceDefinitionSource.mkStatus observedGeneration storedSources conditionSources) := status in
  let nestedEntries := len_list versionSources + len_list shortNameSources + len_list categorySources +
    len_list storedSources + len_list conditionSources in
  reject_if (maxCustomResourceDefinitionNestedEntries <? nestedEntries)
    (upstream "Kubernetes CRD detail exceeded safe nested entry limit") ;;
  '(shortNames, shortNamesTruncated) ← boundedCustomResourceDefinitionNames shortNameSources;
  '(categories, categoriesTruncated) ← boundedCustomResourceDefinitionNames categorySources;
  '(versions, versionsTruncated, versionNames) ← decodeCustomResourceDefinitionVersions versionSources;
  '(storedVersions, storedVersionsTruncated) ← boundedCustomResourceDefinitionStoredVersions storedSources versionNames;
  '(conditions, conditionsTruncated) ←
    decodeCustomResourceDefinitionConditions conditionSources metadata.(sourceMetadata.Generation);
  let strategy := default "" conversion in
  let conversionStrategyDefaulted := bool_decide (strategy = "") in
  let conversionStrategy := if conversionStrategyDefaulted then "None" else strategy in
  reject_if (negb (bool_decide (conversionStrategy = "None")) && negb (bool_decide (conversionStrategy = "Webhook")))
    (upstream "invalid Kubernetes CRD conversion strategy") ;;
  let singular := if bool_decide (singular = "") then ToLower kind else singular in
  let listKind := if bool_decide (listKind = "") then kind +:+ "List" else listKind in
  reject_if (negb (validCustomResourceDefinitionLowerIdentifier singular) || negb (validCustomResourceDefinitionKind listKind))
    (upstream "invalid Kubernetes CRD names") ;;
  reject_if ((observedGeneration <? 0) || (metadata.(sourceMetadata.Generation) <? observedGeneration))
    (upstream "invalid Kubernetes CRD observed generation") ;;
  Ok (KubernetesCustomResourceDefinitionDetail.mk
        (KubernetesCustomResourceDefinition.mk metadata.(sourceMetadata.Name) resource group
          metadata.(sourceMetadata.CreationTimestamp))
        scope singular kind listKind shortNames (len_list shortNameSources) shortNamesTruncated
        categories (len_list categorySources) categoriesTruncated
        versions (len_list versionSources) versionsTruncated
        storedVersions (len_list storedSources) storedVersionsTruncated
        conversionStrategy conversionStrategyDefaulted metadata.(sourceMetadata.Generation) observedGeneration
        conditions (len_list conditionSources) conditionsTruncated).
End crd.

(** ** API services (api_service.go) *)

Definition apiServiceCollectionPath : string := "/apis/apiregistration.k8s.io/v1/apiservices".
Definition apiServiceListPageSize : string := "250".
Definition apiServiceMaxListPages : nat := 4.
Definition apiServiceMaxListItems : Z := 1000.
Definition apiServiceMaxListBytes : Z := 4 * 1024 * 1024.
Definition apiServiceMaxContinueBytes : Z := 16 * 1024.
Definition maxAPIServiceConditions : Z := 32.
Definition apiServiceMaxTotalConditions : Z := 4096.
Definition maxAPIServiceTextBytes : Z := 256.
Definition defaultAPIServicePort : Z := 443.
Definition maxAPIServicePort : Z := 65535.
Definition maxAPIServiceVersionPriority : Z := 1000.

Module apiServiceConditionSource.
Record t : Type := mk { Type_ : string; Status : string; Reason : string; LastTransitionTime : option time }.
#[global] Instance zero_t : Zero t := mk "" "" "" None.
Definition decode : decoder t := struct (λ old ms,
  type ← field "type" string_ old.(Type_) ms;
  status ← field "status" string_ old.(Status) ms;
  reason ← field "reason" string_ old.(Reason) ms;
  lastTransitionTime ← field "lastTransitionTime" (pointer time_) old.(LastTransitionTime) ms;
  Some (mk type status reason lastTransitionTime)).
End apiServiceConditionSource.
Notation apiServiceConditionSource := apiServiceConditionSource.t.

Module apiServiceSource.
(** [Spec.Service]: its namespace, its name and its port. *)
Definition service : decoder (string * string * option Z) :=
  struct (field "namespace" string_ ⊗ field "name" string_ ⊗ field "port" (pointer (int_ 32))).

Record spec : Type := mkSpec {
  Group : string;
  Version : string;
  GroupPriorityMinimum : Z;
  VersionPriority : Z;
  Service : option (string * string * option Z);
  InsecureSkipTLSVerify : bool;
}.
#[global] Instance zero_spec : Zero spec := mkSpec "" "" 0 0 None false.
Definition decode_spec : decoder spec := struct (λ old ms,
  group ← field "group" string_ old.(Group) ms;
  version ← field "version" string_ old.(Version) ms;
  groupPriorityMinimum ← field "groupPriorityMinimum" (int_ 32) old.(GroupPriorityMinimum) ms;
  versionPriority ← field "versionPriority" (int_ 32) old.(VersionPriority) ms;
  service ← field "service" (pointer service) old.(Service) ms;
  insecure ← field "insecureSkipTLSVerify" bool_ old.(InsecureSkipTLSVerify) ms;
  Some (mkSpec group version groupPriorityMinimum versionPriority service insecure)).

Record t : Type := mk {
  APIVersion : string;
  Kind : string;
  Metadata : sourceMetadata;
  Spec : spec;
  Conditions : list apiServiceConditionSource;
}.
#[global] Instance zero_t : Zero t := mk "" "" zero zero [].
Definition decode : decoder t := struct (λ old ms,
  apiVersion ← field "apiVersion" string_ old.(APIVersion) ms;
  kind ← field "kind" string_ old.(Kind) ms;
  metadata ← field "metadata" sourceMetadata.decode_plain old.(Metadata) ms;
  spec ← field "spec" decode_spec old.(Spec) ms;
  conditions ← field "status" (struct (field "conditions" (slice apiServiceConditionSource.decode))) old.(Conditions) ms;
  Some (mk apiVersion kind metadata spec conditions)).
End apiServiceSource.
Notation apiServiceSource := apiServiceSource.t.

Module apiServiceListSource.
Record t : Type := mk { APIVersion : string; Kind : string; Continue : string; Items : list apiServiceSource }.
#[global] Instance zero_t : Zero t := mk "" "" "" [].
Definition decode : decoder t := struct (λ old ms,
  apiVersion ← field "apiVersion" string_ old.(APIVersion) ms;
  kind ← field "kind" string_ old.(Kind) ms;
  continue ← field "metadata" (struct (field "continue" string_)) old.(Continue) ms;
  items ← field "items" (slice apiServiceSource.decode) old.(Items) ms;
  Some (mk apiVersion kind continue items)).
End apiServiceListSource.
Notation apiServiceListSource := apiServiceListSource.t.

Definition validAPIServiceContinue : string → bool := valid_continue apiServiceMaxContinueBytes.

Definition validAPIServiceText : string → bool → bool := valid_text maxAPIServiceTextBytes.

Definition splitAPIServiceName (name : string) : result (string * string) :=
  ValidateAPIServiceName name ;;
  let '(version, group, _) := Cut name "." in Ok (version, group).

Definition check_api_service_condition (c : apiServiceConditionSource) : result unit :=
  let '(apiServiceConditionSource.mk type status reason changed) := c in
  reject_if (negb (validAPIServiceText type true) || negb (validAPIServiceText reason false) ||
             negb (condition_status status) || from_option IsZero false changed)
    (upstream "invalid Kubernetes APIService condition").

(** The service behind it: its namespace, name and port, and whether the port is the default. *)
Definition api_service_target (service : option (string * string * option Z)) :
    result (string * string * Z * bool) :=
  match service with
  | None => Ok ("", "", 0, false)
  | Some (namespace, name, port) =>
      reject_if (negb (is_ok (ValidateNamespace namespace))) (upstream "invalid Kubernetes APIService service namespace") ;;
      reject_if (negb (is_ok (ValidateNamespace name))) (upstream "invalid Kubernetes APIService service name") ;;
      match port with
      | None => Ok (namespace, name, defaultAPIServicePort, true)
      | Some port =>
          reject_if ((port <? 1) || (maxAPIServicePort <? port)) (upstream "invalid Kubernetes APIService service port") ;;
          Ok (namespace, name, port, false)
      end
  end.

(** The condition that says whether it is available: there is at most one. *)
Definition availability (conditions : list apiServiceConditionSource) : bool * string * string * option time :=
  match find (λ c, bool_decide (c.(apiServiceConditionSource.Type_) = "Available")) conditions with
  | None => (false, "", "", None)
  | Some (apiServiceConditionSource.mk _ status reason changed) => (true, status, reason, changed)
  end.

Definition decodeAPIService (source : apiServiceSource) : result KubernetesAPIService :=
  let '(apiServiceSource.mk apiVersion kind metadata spec conditions) := source in
  let invalid := upstream "invalid Kubernetes APIService identity" in
  match splitAPIServiceName metadata.(sourceMetadata.Name) with
  | Err _ => Err invalid
  | Ok (version, group) =>
      reject_if (negb (bool_decide (apiVersion = "apiregistration.k8s.io/v1")) || negb (bool_decide (kind = "APIService")) ||
                 negb (bool_decide (metadata.(sourceMetadata.Namespace) = "")) ||
                 IsZero metadata.(sourceMetadata.CreationTimestamp) ||
                 negb (bool_decide (spec.(apiServiceSource.Group) = group)) ||
                 negb (bool_decide (spec.(apiServiceSource.Version) = version)) ||
                 (spec.(apiServiceSource.GroupPriorityMinimum) <? 1) || (spec.(apiServiceSource.VersionPriority) <? 1) ||
                 (maxAPIServiceVersionPriority <? spec.(apiServiceSource.VersionPriority)))
        invalid ;;
      reject_if (maxAPIServiceConditions <? len_list conditions)
        (upstream "Kubernetes APIService exceeded safe condition limit") ;;
      '(serviceNamespace, serviceName, servicePort, servicePortDefaulted) ←
        api_service_target spec.(apiServiceSource.Service);
      each_once apiServiceConditionSource.Type_ check_api_service_condition
        "duplicate Kubernetes APIService condition" (λ _, Ok tt) conditions ∅ ;;
      let '(observed, status, reason, changed) := availability conditions in
      Ok (KubernetesAPIService.mk metadata.(sourceMetadata.Name) group version
            (bool_decide (spec.(apiServiceSource.Service) = None)) serviceNamespace serviceName servicePort
            servicePortDefaulted observed status reason changed (len_list conditions)
            spec.(apiServiceSource.InsecureSkipTLSVerify) spec.(apiServiceSource.GroupPriorityMinimum)
            spec.(apiServiceSource.VersionPriority) metadata.(sourceMetadata.CreationTimestamp))
  end.

(** The items of a page, each new; [totalConditions] is what the items have together. *)
Fixpoint add_api_services (sources : list apiServiceSource) (items : list KubernetesAPIService) :
    result (list KubernetesAPIService) :=
  match sources with
  | [] => Ok items
  | source :: sources =>
      let totalConditions := sum_of KubernetesAPIService.ConditionCount items + len_list source.(apiServiceSource.Conditions) in
      reject_if (apiServiceMaxTotalConditions <? totalConditions)
        (upstream "Kubernetes APIService list exceeded safe condition limit") ;;
      item ← decodeAPIService source;
      reject_if (existsb (λ i, String.eqb i.(KubernetesAPIService.Name) item.(KubernetesAPIService.Name)) items)
        (upstream "duplicate Kubernetes APIService") ;;
      add_api_services sources (items ++ [item])
  end.

Definition api_service_pager : pager := {|
  pager.query := {[ "limit" := apiServiceListPageSize ]};
  pager.accept := "application/json";
  pager.maxPages := apiServiceMaxListPages;
  pager.maxListBytes := apiServiceMaxListBytes;
  pager.maxPageBytes := apiServiceMaxListBytes;
  pager.bytes := pager.CheckRoom;
  pager.validContinue := validAPIServiceContinue;
  pager.refusesRepeated := false;
  pager.full := None;
  pager.byteLimit := "Kubernetes APIService list exceeded safe byte limit";
  pager.pageLimit := "Kubernetes APIService list exceeded safe page limit";
  pager.badToken := "invalid Kubernetes APIService continuation token";
  pager.repeatedToken := ""; pager.itemLimit := "";
|}.

Definition api_service_page (payload : string) (items : list KubernetesAPIService) :
    result (string * list KubernetesAPIService) :=
  response ← expect_ok (upstream "decode Kubernetes APIService list") (Unmarshal apiServiceListSource.decode payload);
  let '(apiServiceListSource.mk apiVersion kind continue sources) := response in
  reject_if (negb (bool_decide (apiVersion = "apiregistration.k8s.io/v1")) || negb (bool_decide (kind = "APIServiceList")))
    (upstream "unsupported Kubernetes APIService list") ;;
  reject_if (apiServiceMaxListItems - len_list items <? len_list sources)
    (upstream "Kubernetes APIService list exceeded safe item limit") ;;
  items ← add_api_services sources items;
  Ok (continue, items).

(** By group, version and name. *)
Definition api_service_less (a b : KubernetesAPIService) : bool :=
  if negb (bool_decide (a.(KubernetesAPIService.Group) = b.(KubernetesAPIService.Group)))
  then String.ltb a.(KubernetesAPIService.Group) b.(KubernetesAPIService.Group)
  else if negb (bool_decide (a.(KubernetesAPIService.Version) = b.(KubernetesAPIService.Version)))
  then String.ltb a.(KubernetesAPIService.Version) b.(KubernetesAPIService.Version)
  else String.ltb a.(KubernetesAPIService.Name) b.(KubernetesAPIService.Name).

(** ** The methods of the client *)

Section extension_readers.
Context (token : string).

Definition CustomResourceDefinitions : fetch (result (list KubernetesCustomResourceDefinition)) :=
  items ←! all_pages token crd_pager crd_page customResourceDefinitionCollectionPath;
  Done (Ok (sort_Slice (by_namespace KubernetesCustomResourceDefinition.Group
    KubernetesCustomResourceDefinition.Resource) items)).

Definition CustomResourceDefinition `{UnicodeTables} (name : string) :
    fetch (result KubernetesCustomResourceDefinitionDetail) :=
  one_object token ValidateCustomResourceDefinitionName customResourceDefinitionCollectionPath
    customResourceDefinitionMaxDetailBytes decodeCustomResourceDefinition name.

Definition APIServices : fetch (result (list KubernetesAPIService)) :=
  items ←! all_pages token api_service_pager api_service_page apiServiceCollectionPath;
  Done (Ok (sort_Slice api_service_less items)).
End extension_readers.

(** ** Lists that are shown in part *)

(** [shown] is the first of [count] items, and it is known whether there are more. *)
Definition shown_first {A} (maxItems count : Z) (shown : list A) (truncated : bool) : Prop :=
  len_list shown = Z.min maxItems count ∧ (truncated = true ↔ maxItems < count).

Lemma first_of_spec {A} maxItems (source shown : list A) truncated :
  0 ≤ maxItems → first_of maxItems source = (shown, truncated) →
  shown = take (Z.to_nat maxItems) source ∧ shown_first maxItems (len_list source) shown truncated ∧
  (truncated = false → shown = source).
Proof.
  intros Hm [= <- <-]. unfold shown_first, len_list. rewrite length_take, Z.ltb_lt, Z.ltb_ge. split_and!; [done|lia|done|].
  intros H. apply take_ge. lia.
Qed.

Lemma shown_first_fmap {A B} (f : A → B) maxItems count shown truncated :
  shown_first maxItems count shown truncated → shown_first maxItems count (f <$> shown) truncated.
Proof. unfold shown_first, len_list. by rewrite length_fmap. Qed.

Lemma NoDup_take {A} n (l : list A) : NoDup l → NoDup (take n l).
Proof. rewrite <-(take_drop n l) at 1. by intros (H & _ & _)%NoDup_app. Qed.

(** ** Custom resource definitions: what a detail says *)

Lemma lower_identifiers_distinct values shown truncated :
  boundedCustomResourceDefinitionNames values = Ok (shown, truncated) →
  NoDup shown ∧ shown_first 32 (len_list values) shown truncated.
Proof.
  unfold boundedCustomResourceDefinitionNames. intros (? & (_ & Hn & _)%distinct_values_Ok & H)%bind_Ok.
  assert (first_of maxCustomResourceDefinitionNames values = (shown, truncated)) as E by congruence. clear H.
  apply (first_of_spec 32) in E as (-> & Hs & _); [|done]. split; [by apply NoDup_take|done].
Qed.

(** How many of the versions are the one that is stored. *)
Definition stored_count (versions : list KubernetesCustomResourceDefinitionVersion) : Z :=
  len_list (filter (λ v, v.(KubernetesCustomResourceDefinitionVersion.Storage) = true) versions).

Lemma stored_count_source (source : list customResourceDefinitionVersionSource) :
  stored_count (crd_version <$> source) =
    len_list (filter (λ v, v.(customResourceDefinitionVersionSource.Storage) = true) source).
Proof.
  unfold stored_count, len_list. induction source as [|[n s st d] source IH]; [done|]. cbn [fmap list_fmap].
  rewrite !filter_cons. destruct st; cbn; repeat case_decide; cbn in *; try done; lia.
Qed.

Lemma decodeCustomResourceDefinitionVersions_Ok source versions truncated names :
  decodeCustomResourceDefinitionVersions source = Ok (versions, truncated, names) →
  1 ≤ len_list source ∧ shown_first 64 (len_list source) versions truncated ∧
  NoDup (KubernetesCustomResourceDefinitionVersion.Name <$> versions) ∧
  stored_count versions ≤ 1 ∧ (truncated = false → stored_count versions = 1) ∧
  (truncated = false → ∀ name, name ∈ names ↔ name ∈ KubernetesCustomResourceDefinitionVersion.Name <$> versions).
Proof.
  unfold decodeCustomResourceDefinitionVersions.
  intros (? & Hne%reject_if_Ok%bool_decide_eq_false & (names' & (_ & Hn & _ & He)%each_once_Ok & H)%bind_Ok)%bind_Ok.
  cbv zeta in H. apply bind_Ok in H as (? & Hc%reject_invalid_Ok%Z.eqb_eq & H).
  destruct (first_of maxCustomResourceDefinitionVersions source) as [shown t] eqn:E. injection H as <- -> ->.
  apply (first_of_spec 64) in E as (-> & Hs & Hall); [|done]. rewrite stored_count_source.
  assert (∀ l, KubernetesCustomResourceDefinitionVersion.Name <$> (crd_version <$> l) =
    customResourceDefinitionVersionSource.Name <$> l) as Hname
    by (intros l; rewrite <-list_fmap_compose; apply list_fmap_ext; by intros ? [] _).
  split_and!.
  - destruct source; [done|]. unfold len_list. cbn. lia.
  - by apply shown_first_fmap.
  - rewrite Hname, fmap_take. by apply NoDup_take.
  - rewrite <-Hc. unfold len_list. rewrite <-(take_drop (Z.to_nat 64) source) at 2. rewrite filter_app, length_app. lia.
  - intros Ht. rewrite Hall by done. by rewrite stored_count_source in * || done.
  - intros Ht name. rewrite He, Hall by done. rewrite Hname. set_solver.
Qed.

Lemma stored_versions_known values names shown truncated :
  boundedCustomResourceDefinitionStoredVersions values names = Ok (shown, truncated) →
  NoDup shown ∧ shown_first 32 (len_list values) shown truncated ∧ Forall (λ v, v ∈ names) shown.
Proof.
  unfold boundedCustomResourceDefinitionStoredVersions. intros (? & (Hf & Hn & _)%each_once_Ok & H)%bind_Ok.
  assert (first_of maxCustomResourceDefinitionNames values = (shown, truncated)) as E by congruence. clear H.
  apply (first_of_spec 32) in E as (-> & Hs & _); [|done]. rewrite list_fmap_id in Hn.
  split_and!; [by apply NoDup_take|done|]. apply Forall_take. eapply Forall_impl; [exact Hf|].
  intros v [(? & _ & Hv%reject_invalid_Ok%bool_decide_eq_true)%bind_Ok _]. done.
Qed.

Lemma crd_conditions_observed source generation shown truncated :
  decodeCustomResourceDefinitionConditions source generation = Ok (shown, truncated) →
  NoDup (KubernetesCustomResourceDefinitionCondition.Type_ <$> shown) ∧ shown_first 32 (len_list source) shown truncated ∧
  Forall (λ c, 0 ≤ c.(KubernetesCustomResourceDefinitionCondition.ObservedGeneration) ≤ generation) shown.
Proof.
  unfold decodeCustomResourceDefinitionConditions. intros (? & (Hf & Hn & _)%each_once_Ok & H)%bind_Ok.
  destruct (first_of maxCustomResourceDefinitionConditions source) as [k t] eqn:E. injection H as <- ->.
  apply (first_of_spec 32) in E as (-> & Hs & _); [|done]. split_and!.
  - rewrite <-list_fmap_compose.
    rewrite (list_fmap_ext _ customResourceDefinitionConditionSource.Type_) by (by intros ? [] _).
    rewrite fmap_take. by apply NoDup_take.
  - by apply shown_first_fmap.
  - apply Forall_fmap, Forall_take. eapply Forall_impl; [exact Hf|]. intros [type status reason observed changed] [Hc _].
    cbn in *. apply reject_if_Ok in Hc. rewrite !orb_false_iff, !Z.ltb_ge in Hc. lia.
Qed.

Lemma split_name_Ok name resource group :
  splitCustomResourceDefinitionName name = Ok (resource, group) → name = resource +:+ "." +:+ group.
Proof.
  unfold splitCustomResourceDefinitionName, ValidateCustomResourceDefinitionName.
  destruct (Cut name ".") as [[r g] found] eqn:E. intros ([] & H%reject_if_Ok & [= -> ->])%bind_Ok.
  rewrite !orb_false_iff, !negb_false_iff in H. destruct H as [[[-> _] _] _]. by apply Cut_found in E as [_ ->].
Qed.

(** The first of a list are shown, each once, and whether there are more. *)
Definition shown_distinct {A} (key : A → string) (maxItems count : Z) (shown : list A) (truncated : bool) : Prop :=
  NoDup (key <$> shown) ∧ shown_first maxItems count shown truncated.

Lemma shown_distinct_id maxItems count (shown : list string) truncated :
  NoDup shown → shown_first maxItems count shown truncated → shown_distinct id maxItems count shown truncated.
Proof. intros H1 H2. split; [by rewrite list_fmap_id|done]. Qed.

Section crd_correct.
Context `{UnicodeTables}.

(** What is shown of a custom resource definition is coherent: it is the one that was
    asked for, named by its resource and its group; its names, versions, stored versions
    and conditions are each shown once, the first of them, and whether there are more is
    said; at most one version is the stored one, and exactly one when all are shown; what
    is stored is then a version it has; its strategy is one of two, and generations that
    were observed are none of the future. *)
Theorem decodeCustomResourceDefinition_consistent payload name d :
  decodeCustomResourceDefinition payload name = Ok d →
  let crd := d.(KubernetesCustomResourceDefinitionDetail.KubernetesCustomResourceDefinition) in
  let versions := d.(KubernetesCustomResourceDefinitionDetail.Versions) in
  let names := KubernetesCustomResourceDefinitionVersion.Name <$> versions in
  let generation := d.(KubernetesCustomResourceDefinitionDetail.Generation) in
  crd.(KubernetesCustomResourceDefinition.Name) = name ∧
  name = crd.(KubernetesCustomResourceDefinition.Resource) +:+ "." +:+ crd.(KubernetesCustomResourceDefinition.Group) ∧
  shown_distinct id 32 d.(KubernetesCustomResourceDefinitionDetail.ShortNameCount)
    d.(KubernetesCustomResourceDefinitionDetail.ShortNames) d.(KubernetesCustomResourceDefinitionDetail.ShortNamesTruncated) ∧
  shown_distinct id 32 d.(KubernetesCustomResourceDefinitionDetail.CategoryCount)
    d.(KubernetesCustomResourceDefinitionDetail.Categories) d.(KubernetesCustomResourceDefinitionDetail.CategoriesTruncated) ∧
  shown_distinct KubernetesCustomResourceDefinitionVersion.Name 64 d.(KubernetesCustomResourceDefinitionDetail.VersionCount)
    versions d.(KubernetesCustomResourceDefinitionDetail.VersionsTruncated) ∧
  shown_distinct id 32 d.(KubernetesCustomResourceDefinitionDetail.StoredVersionCount)
    d.(KubernetesCustomResourceDefinitionDetail.StoredVersions) d.(KubernetesCustomResourceDefinitionDetail.StoredVersionsTruncated) ∧
  shown_distinct KubernetesCustomResourceDefinitionCondition.Type_ 32 d.(KubernetesCustomResourceDefinitionDetail.ConditionCount)
    d.(KubernetesCustomResourceDefinitionDetail.Conditions) d.(KubernetesCustomResourceDefinitionDetail.ConditionsTruncated) ∧
  1 ≤ d.(KubernetesCustomResourceDefinitionDetail.VersionCount) ∧ stored_count versions ≤ 1 ∧
  (d.(KubernetesCustomResourceDefinitionDetail.VersionsTruncated) = false →
     stored_count versions = 1 ∧ Forall (λ v, v ∈ names) d.(KubernetesCustomResourceDefinitionDetail.StoredVersions)) ∧
  d.(KubernetesCustomResourceDefinitionDetail.ConversionStrategy) ∈ ["None"; "Webhook"] ∧
  1 ≤ generation ∧ 0 ≤ d.(KubernetesCustomResourceDefinitionDetail.ObservedGeneration) ≤ generation ∧
  Forall (λ c, 0 ≤ c.(KubernetesCustomResourceDefinitionCondition.ObservedGeneration) ≤ generation)
    d.(KubernetesCustomResourceDefinitionDetail.Conditions).
Proof.
  unfold decodeCustomResourceDefinition. intros (source & _ & ([resource group] & Hid & Hd)%bind_Ok)%bind_Ok.
  destruct source as [v k metadata [grp scope [plural singular kind listKind shortNames categories] versions conversion]
    [observed stored conditions]].
  cbv beta iota zeta in Hd. apply bind_Ok in Hd as (? & _ & ([sn snt] & [Hsn Hsns]%lower_identifiers_distinct &
    ([ca cat] & [Hca Hcas]%lower_identifiers_distinct & ([[vs vst] vn] & Hv%decodeCustomResourceDefinitionVersions_Ok &
    ([sv svt] & (Hsv & Hsvs & Hk)%stored_versions_known & ([cs cst] & (Hcs & Hcss & Ho)%crd_conditions_observed &
    (? & Hst%reject_if_Ok & (? & _ & (? & Hg%reject_if_Ok & [= <-])%bind_Ok)%bind_Ok)%bind_Ok)
    %bind_Ok)%bind_Ok)%bind_Ok)%bind_Ok)%bind_Ok).
  destruct Hv as (H1 & Hvs & Hvn & Hle & Heq & Hin).
  assert (metadata.(sourceMetadata.Name) = name ∧ metadata.(sourceMetadata.Name) = resource +:+ "." +:+ group ∧
    1 ≤ metadata.(sourceMetadata.Generation)) as (<- & E & Hgen).
  { revert Hid. unfold validateCustomResourceDefinitionIdentity.
    destruct (splitCustomResourceDefinitionName _) as [[r g]|] eqn:Es; [|done].
    intros (? & Hi%reject_if_Ok & [= -> ->])%bind_Ok. rewrite !orb_false_iff, !negb_false_iff, !bool_decide_eq_true, Z.ltb_ge in Hi.
    apply split_name_Ok in Es. naive_solver. }
  cbn. split_and!; try done; try by apply shown_distinct_id.
  - intros Ht. split; [by apply Heq|]. eapply Forall_impl; [exact Hk|]. intros v'. by rewrite Hin.
  - apply andb_false_iff in Hst. rewrite !negb_false_iff, !bool_decide_eq_true in Hst. destruct Hst as [-> | ->]; set_solver.
  - apply orb_false_iff in Hg. rewrite !Z.ltb_ge in Hg. lia.
  - apply orb_false_iff in Hg. rewrite !Z.ltb_ge in Hg. lia.
Qed.
End crd_correct.

Definition example_crd : string := Marshal (Object [("apiVersion", text "apiextensions.k8s.io/v1");
  ("kind", text "CustomResourceDefinition");
  ("metadata", object [("name", text "widgets.example.com"); ("generation", ("", Number "3"));
    ("creationTimestamp", text "2025-06-01T08:30:00Z")]);
  ("spec", object [("group", text "example.com"); ("scope", text "Namespaced");
    ("names", object [("plural", text "widgets"); ("kind", text "Widget")]);
    ("versions", ("", Array [object [("name", text "v1"); ("served", ("", Bool true)); ("storage", ("", Bool true))];
      object [("name", text "v1beta1"); ("served", ("", Bool true)); ("storage", ("", Bool false))]]))]);
  ("status", object [("observedGeneration", ("", Number "3")); ("storedVersions", ("", Array [("", Str "v1")]))])]).

Lemma decodeCustomResourceDefinition_consistent_witness :
  ∃ d, decodeCustomResourceDefinition example_crd "widgets.example.com" = Ok d ∧
    d.(KubernetesCustomResourceDefinitionDetail.Singular) = "widget" ∧
    stored_count d.(KubernetesCustomResourceDefinitionDetail.Versions) ≤ 1.
Proof.
  eexists. assert (decodeCustomResourceDefinition example_crd "widgets.example.com" = Ok _) as E by (vm_compute; reflexivity).
  split; [exact E|]. split; [vm_compute; reflexivity|].
  destruct (decodeCustomResourceDefinition_consistent _ _ _ E) as (_ & _ & _ & _ & _ & _ & _ & _ & Hs & _). exact Hs.
Defined.

(** ** API services: what an item says *)

(** The condition that reports the availability, if any: all there is to say of it. *)
Lemma availability_spec conditions observed status reason changed :
  NoDup (apiServiceConditionSource.Type_ <$> conditions) →
  availability conditions = (observed, status, reason, changed) →
  (observed = false ∧ status = "" ∧ "Available" ∉ apiServiceConditionSource.Type_ <$> conditions) ∨
  (observed = true ∧ ∀ c, c ∈ conditions → c.(apiServiceConditionSource.Type_) = "Available" →
     c = apiServiceConditionSource.mk "Available" status reason changed).
Proof.
  unfold availability. intros Hn. destruct (find _ conditions) as [[ty st re ch]|] eqn:E.
  - intros [= <- -> -> ->]. right. split; [done|]. apply find_some in E as [Hin%list_elem_of_In Ht%bool_decide_eq_true].
    cbn in Ht. subst ty. intros c Hc Ht. apply list_elem_of_lookup in Hin as [i Hi], Hc as [j Hj].
    assert (i = j) as -> by (eapply (NoDup_lookup _ _ _ "Available" Hn); rewrite list_lookup_fmap, ?Hi, ?Hj; cbn; congruence).
    congruence.
  - intros [= <- <- <- <-]. left. split_and!; [done..|]. intros (c & Ht & Hc)%list_elem_of_fmap.
    apply (find_none _ _ E) in Hc as Hf || (apply list_elem_of_In in Hc; apply (find_none _ _ E) in Hc as Hf).
    by apply bool_decide_eq_false in Hf.
Qed.

(** What is shown of an API service is what its source says: its name is its version
    and its group; it is local exactly when no service is behind it, and otherwise the
    service is a valid one, at its own port or at 443 where it names none; whether it is
    available is known exactly when a condition of that type is there, and is then what
    this condition says; priorities and the number of conditions keep their limits. *)
Theorem decodeAPIService_shows source item :
  decodeAPIService source = Ok item →
  let spec := source.(apiServiceSource.Spec) in
  let conditions := source.(apiServiceSource.Conditions) in
  item.(KubernetesAPIService.Name) = source.(apiServiceSource.Metadata).(sourceMetadata.Name) ∧
  item.(KubernetesAPIService.Name) = item.(KubernetesAPIService.Version) +:+ "." +:+ item.(KubernetesAPIService.Group) ∧
  (item.(KubernetesAPIService.Local) = true ↔ spec.(apiServiceSource.Service) = None) ∧
  (∀ namespace name port, spec.(apiServiceSource.Service) = Some (namespace, name, port) →
     ValidateNamespace namespace = Ok tt ∧ ValidateNamespace name = Ok tt ∧
     item.(KubernetesAPIService.ServiceNamespace) = namespace ∧ item.(KubernetesAPIService.ServiceName) = name ∧
     item.(KubernetesAPIService.ServicePort) = default 443 port ∧ 1 ≤ item.(KubernetesAPIService.ServicePort) ≤ 65535 ∧
     (item.(KubernetesAPIService.ServicePortDefaulted) = true ↔ port = None)) ∧
  (item.(KubernetesAPIService.AvailabilityObserved) = true ↔
     "Available" ∈ apiServiceConditionSource.Type_ <$> conditions) ∧
  (∀ c, c ∈ conditions → c.(apiServiceConditionSource.Type_) = "Available" →
     c.(apiServiceConditionSource.Status) = item.(KubernetesAPIService.AvailabilityStatus) ∧
     c.(apiServiceConditionSource.Reason) = item.(KubernetesAPIService.AvailabilityReason)) ∧
  item.(KubernetesAPIService.ConditionCount) = len_list conditions ∧ len_list conditions ≤ 32 ∧
  1 ≤ item.(KubernetesAPIService.GroupPriorityMinimum) ∧ 1 ≤ item.(KubernetesAPIService.VersionPriority) ≤ 1000.
Proof.
  destruct source as [v k metadata spec conditions]. unfold decodeAPIService. cbn.
  destruct (splitAPIServiceName _) as [[version group]|] eqn:Es; [|done].
  intros (? & Hid%reject_if_Ok & (? & Hl%reject_if_Ok%Z.ltb_ge & ([[[ns nm] port] defaulted] & Ht &
    (? & (_ & Hn & _)%each_once_Ok & H)%bind_Ok)%bind_Ok)%bind_Ok)%bind_Ok.
  destruct (availability conditions) as [[[observed status] reason] changed] eqn:Ea. injection H as <-. cbn.
  rewrite !orb_false_iff, !Z.ltb_ge in Hid.
  assert (metadata.(sourceMetadata.Name) = version +:+ "." +:+ group) as Hname.
  { revert Es. unfold splitAPIServiceName, ValidateAPIServiceName.
    destruct (Cut _ ".") as [[r g] found] eqn:E. intros ([] & H%reject_if_Ok & [= -> ->])%bind_Ok.
    rewrite !orb_false_iff, !negb_false_iff in H. destruct H as [[[-> _] _] _]. by apply Cut_found in E as [_ ->]. }
  pose proof (availability_spec _ _ _ _ _ Hn Ea) as Hav. unfold maxAPIServiceConditions, maxAPIServiceVersionPriority in *.
  split_and!; try done; try tauto.
  - by rewrite bool_decide_eq_true.
  - intros namespace name port' E. rewrite E in Ht. cbn in Ht.
    apply bind_Ok in Ht as (? & H1%reject_invalid_Ok & (? & H2%reject_invalid_Ok & Ht)%bind_Ok).
    assert (∀ s, is_ok (ValidateNamespace s) = true → ValidateNamespace s = Ok tt) as Hok
      by (intros s; destruct (ValidateNamespace s) as [[]|]; done).
    destruct port' as [p|].
    + apply bind_Ok in Ht as (? & Hp%reject_if_Ok & [= <- <- <- <-]). unfold maxAPIServicePort in Hp.
      apply orb_false_iff in Hp. rewrite !Z.ltb_ge in Hp. split_and!; try by apply Hok. all: done || lia.
    + injection Ht as <- <- <- <-. split_and!; try by apply Hok. all: done || (unfold defaultAPIServicePort; lia).
  - destruct Hav as [(-> & _ & Hno)|[-> Hyes]]; [done|]. split; [|done]. intros _. revert Ea. unfold availability.
    destruct (find _ conditions) as [c|] eqn:E; [|by intros [=]]. intros _.
    apply find_some in E as [Hin%list_elem_of_In Ht'%bool_decide_eq_true]. apply list_elem_of_fmap. by exists c.
  - destruct Hav as [(_ & _ & Hno)|[_ Hyes]]; intros c Hc Htype.
    + exfalso. apply Hno, list_elem_of_fmap. by exists c.
    + by rewrite (Hyes c Hc Htype).
Qed.

Definition example_api_service : apiServiceSource :=
  apiServiceSource.mk "apiregistration.k8s.io/v1" "APIService"
    (sourceMetadata.mk "v1beta1.metrics.k8s.io" "" 0 1000000000)
    (apiServiceSource.mkSpec "metrics.k8s.io" "v1beta1" 100 100 (Some ("kube-system", "metrics-server", None)) false)
    [apiServiceConditionSource.mk "Available" "False" "MissingEndpoints" None].

Lemma decodeAPIService_shows_witness :
  ∃ item, decodeAPIService example_api_service = Ok item ∧ item.(KubernetesAPIService.ServicePort) = 443 ∧
    item.(KubernetesAPIService.AvailabilityObserved) = true ∧ item.(KubernetesAPIService.AvailabilityStatus) = "False".
Proof.
  eexists. assert (decodeAPIService example_api_service = Ok _) as E by (vm_compute; reflexivity).
  split; [exact E|]. destruct (decodeAPIService_shows _ _ E) as (_ & _ & _ & Hs & Ho & _).
  destruct (Hs _ _ _ eq_refl) as (_ & _ & _ & _ & Hp & _). split; [exact Hp|]. split; [|reflexivity].
  apply Ho. constructor.
Defined.

(** ** The lists and objects: bounds *)

#[global] Instance api_service_less_strict : StrictWeak api_service_less.
Proof.
  apply (strict_weak_lex (λ a b, bool_decide (a.(KubernetesAPIService.Group) = b.(KubernetesAPIService.Group))));
    [apply same_string|apply strict_weak_string|].
  apply (strict_weak_lex (λ a b, bool_decide (a.(KubernetesAPIService.Version) = b.(KubernetesAPIService.Version))));
    [apply same_string|apply strict_weak_string..].
Qed.

(** The conditions of all services of a list together. *)
Definition within_conditions (items : list KubernetesAPIService) : Prop :=
  sum_of KubernetesAPIService.ConditionCount items ≤ 4096.

#[global] Instance within_conditions_Proper : Proper ((≡ₚ) ==> iff) within_conditions.
Proof. intros l l' Hl. unfold within_conditions. by rewrite Hl. Qed.

Lemma decodeAPIService_count source item :
  decodeAPIService source = Ok item →
  item.(KubernetesAPIService.ConditionCount) = len_list source.(apiServiceSource.Conditions).
Proof.
  destruct source as [v k metadata spec conditions]. unfold decodeAPIService. cbn.
  destruct (splitAPIServiceName _) as [[version group]|]; [|done].
  intros (? & _ & (? & _ & ([[[? ?] ?] ?] & _ & (? & _ & H)%bind_Ok)%bind_Ok)%bind_Ok)%bind_Ok.
  destruct (availability conditions) as [[[? ?] ?] ?]. by injection H as <-.
Qed.

Definition services_list (items : list KubernetesAPIService) : Prop :=
  distinct_list 1000 KubernetesAPIService.Name (λ _, True) items ∧ within_conditions items.

Lemma add_api_services_keeps : keeps_added 1000 services_list add_api_services.
Proof.
  intros sources. induction sources as [|source sources IH]; intros items items' Hi Hroom; cbn [add_api_services].
  { by intros [= <-]. }
  intros (? & Hc%reject_if_Ok%Z.ltb_ge & (item & Hd & (? & Hdup%reject_if_Ok & H)%bind_Ok)%bind_Ok)%bind_Ok.
  destruct Hi as [[[Hl Hf] Hn] Hw]. eapply IH; [| |exact H].
  - split; [split; [split|]|].
    + unfold len_list in *. cbn in Hroom. rewrite length_app. cbn. lia.
    + apply Forall_true. done.
    + rewrite fmap_app. apply NoDup_app. split_and!; [done| |apply NoDup_singleton].
      intros key Hx Ha%list_elem_of_singleton. subst key. by apply existsb_key in Hdup.
    + unfold within_conditions. rewrite sum_of_app. apply decodeAPIService_count in Hd. cbn. rewrite Hd.
      unfold apiServiceMaxTotalConditions in Hc. lia.
  - unfold len_list in *. cbn in Hroom. rewrite length_app. cbn. lia.
Qed.

#[global] Instance services_list_Proper : Proper ((≡ₚ) ==> iff) services_list.
Proof. intros l l' Hl. unfold services_list. by rewrite Hl. Qed.

Lemma APIServices_safe token :
  safe reading 4 (APIServices token) (if_ok (sorted_list api_service_less services_list)).
Proof.
  unfold APIServices. apply (sorted_pages_safe token api_service_pager); [done| |apply _..| |by apply plainb_spec].
  - intros payload items continue items' Hi. unfold api_service_page.
    intros ([version kind c sources] & _ & H)%bind_Ok. cbn in H.
    apply bind_Ok in H as (? & _ & (? & Hroom%reject_if_Ok%Z.ltb_ge & (xs & Hx & [= <- <-])%bind_Ok)%bind_Ok).
    by eapply add_api_services_keeps.
  - split; [by apply distinct_list_nil|]. by unfold within_conditions.
Qed.

(** A definition of a list is named by its resource and its group. *)
Definition crd_named (d : KubernetesCustomResourceDefinition) : Prop :=
  d.(KubernetesCustomResourceDefinition.Name) =
    d.(KubernetesCustomResourceDefinition.Resource) +:+ "." +:+ d.(KubernetesCustomResourceDefinition.Group).

Lemma CustomResourceDefinitions_safe token :
  safe reading 8 (CustomResourceDefinitions token)
    (if_ok (sorted_list (by_namespace KubernetesCustomResourceDefinition.Group KubernetesCustomResourceDefinition.Resource)
       (bounded_list 2000 crd_named))).
Proof.
  unfold CustomResourceDefinitions.
  apply (sorted_pages_safe token crd_pager); [done| |apply _..|by apply bounded_list_nil|by apply plainb_spec].
  apply objects_page_keeps, all_items_keeps. intros raw a. unfold crd_item. intros (m & _ & H)%bind_Ok.
  destruct (splitCustomResourceDefinitionName _) as [[r g]|] eqn:E; [|done]. injection H as <-.
  by apply split_name_Ok in E.
Qed.

Lemma CustomResourceDefinition_safe `{UnicodeTables} token name :
  safe reading 1 (CustomResourceDefinition token name) (if_ok (λ _, True)).
Proof.
  unfold CustomResourceDefinition. apply one_object_safe; [|by apply plainb_spec|done|done].
  intros n Hn. apply (name_validators_safe ValidateCustomResourceDefinitionName); [|done].
  by do 2 right; left.
Qed.
