(* ===== verification/Admission.v ===== *)
(** * Admission control of a cluster (src/internal/kubernetes)

    Configurations of admission webhooks (admission_webhook.go), and validating admission
    policies with their bindings (admission_policy.go): what they match is summarised by
    counts, within limits on every nested list. *)

From S2P Require Export Network Base64.

Local Open Scope Z_scope.
Local Open Scope stdpp_scope.
Local Open Scope fetch_scope.
Local Open Scope json_scope.

Import Json.

(** ** Bytes in JSON *)

Definition uint8_ : decoder Z := λ old _ v,
  match v with Number n => ParseUint n 8 | Null => Some old | _ => None end.

(** A [[]byte]: a string of base64, or an array of bytes. *)
Definition bytes_ : decoder (list Z) := λ old t v,
  match v with
  | Str s => StdDecodeString s
  | Null => Some []
  | Array elements => slice uint8_ old t v
  | _ => None
  end.

(** ** Shared by webhooks and policies *)

(** A policy that may be left out, and what it is then. *)
Definition policy (source : option string) (whenAbsent : string) (allowed : list string) (invalid : string) :
    result (string * bool) :=
  let value := default whenAbsent source in
  reject_if (negb (bool_decide (value ∈ allowed))) (upstream invalid) ;;
  Ok (value, bool_decide (source = None)).

Definition valid_scope (scope : option string) : bool :=
  match scope with None => true | Some s => bool_decide (s ∈ ["Cluster"; "Namespaced"; "*"]) end.

Module admissionSelector.
(** The selectors of both files: their labels and their expressions. *)
Record t : Type := mk { MatchLabels : gmap string RawMessage; MatchExpressions : list unit }.
#[global] Instance zero_t : Zero t := mk ∅ [].
Definition decode : decoder t := struct (λ old ms,
  labels ← field "matchLabels" (map_ raw_message) old.(MatchLabels) ms;
  expressions ← field "matchExpressions" (slice empty_struct) old.(MatchExpressions) ms;
  Some (mk labels expressions)).
Definition labels (s : t) : Z := Z.of_nat (size s.(MatchLabels)).
Definition expressions (s : t) : Z := len_list s.(MatchExpressions).
End admissionSelector.
Notation admissionSelector := admissionSelector.t.

(** A target in the cluster: its namespace, its name, its path and its port. *)
Definition service_source : decoder (string * string * string * option Z) :=
  struct (field "namespace" string_ ⊗ field "name" string_ ⊗ field "path" string_ ⊗ field "port" (pointer (int_ 32))).

(** ** Webhooks (admission_webhook.go) *)

Definition validatingAdmissionWebhookCollectionPath : string :=
  "/apis/admissionregistration.k8s.io/v1/validatingwebhookconfigurations".
Definition mutatingAdmissionWebhookCollectionPath : string :=
  "/apis/admissionregistration.k8s.io/v1/mutatingwebhookconfigurations".
Definition admissionWebhookListPageSize : string := "250".
Definition admissionWebhookMaxListPages : nat := 4.
Definition admissionWebhookMaxListItems : Z := 1000.
Definition admissionWebhookMaxListBytes : Z := 4 * 1024 * 1024.
Definition admissionWebhookMaxDetailBytes : Z := 2 * 1024 * 1024.
Definition admissionWebhookMaxContinueBytes : Z := 16 * 1024.
Definition maxAdmissionWebhooks : Z := 64.
Definition maxAdmissionWebhookRules : Z := 128.
Definition maxAdmissionWebhookRuleValues : Z := 128.
Definition maxAdmissionWebhookMatchConditions : Z := 64.
Definition maxAdmissionWebhookReviewVersions : Z := 32.
Definition maxAdmissionWebhookSelectorEntries : Z := 128.
Definition maxAdmissionWebhookNestedEntries : Z := 8192.
Definition maxAdmissionWebhookTextBytes : Z := 1024.
Definition defaultAdmissionWebhookServicePort : Z := 443.
Definition defaultAdmissionWebhookTimeout : Z := 10.

Module admissionWebhookRuleSource.
Record t : Type := mk {
  Operations : list string;
  APIGroups : list string;
  APIVersions : list string;
  Resources : list string;
  Scope : option string;
}.
#[global] Instance zero_t : Zero t := mk [] [] [] [] None.
Definition decode : decoder t := struct (λ old ms,
  operations ← field "operations" (slice string_) old.(Operations) ms;
  apiGroups ← field "apiGroups" (slice string_) old.(APIGroups) ms;
  apiVersions ← field "apiVersions" (slice string_) old.(APIVersions) ms;
  resources ← field "resources" (slice string_) old.(Resources) ms;
  scope ← field "scope" (pointer string_) old.(Scope) ms;
  Some (mk operations apiGroups apiVersions resources scope)).
(** How many values a rule has. *)
Definition values (r : t) : Z :=
  len_list r.(Operations) + len_list r.(APIGroups) + len_list r.(APIVersions) + len_list r.(Resources).
End admissionWebhookRuleSource.
Notation admissionWebhookRuleSource := admissionWebhookRuleSource.t.

Module admissionWebhookSource.
Record t : Type := mk {
  Name : string;
  Service : option (string * string * string * option Z);
  URL : option string;
  CABundle : list Z;
  Rules : list admissionWebhookRuleSource;
  FailurePolicy : option string;
  MatchPolicy : option string;
  NamespaceSelector : admissionSelector;
  ObjectSelector : admissionSelector;
  SideEffects : option string;
  TimeoutSeconds : option Z;
  AdmissionReviewVersions : list string;
  MatchConditions : list unit;
  ReinvocationPolicy : option string;
}.
#[global] Instance zero_t : Zero t := mk "" None None [] [] None None zero zero None None [] [] None.
Definition client_config : decoder (option (string * string * string * option Z) * option string * list Z) :=
  struct (field "service" (pointer service_source) ⊗ field "url" (pointer string_) ⊗ field "caBundle" bytes_).
Definition decode : decoder t := struct (λ old ms,
  name ← field "name" string_ old.(Name) ms;
  '(service, url, caBundle) ← field "clientConfig" client_config (old.(Service), old.(URL), old.(CABundle)) ms;
  rules ← field "rules" (slice admissionWebhookRuleSource.decode) old.(Rules) ms;
  failurePolicy ← field "failurePolicy" (pointer string_) old.(FailurePolicy) ms;
  matchPolicy ← field "matchPolicy" (pointer string_) old.(MatchPolicy) ms;
  namespaceSelector ← field "namespaceSelector" admissionSelector.decode old.(NamespaceSelector) ms;
  objectSelector ← field "objectSelector" admissionSelector.decode old.(ObjectSelector) ms;
  sideEffects ← field "sideEffects" (pointer string_) old.(SideEffects) ms;
  timeoutSeconds ← field "timeoutSeconds" (pointer (int_ 32)) old.(TimeoutSeconds) ms;
  reviewVersions ← field "admissionReviewVersions" (slice string_) old.(AdmissionReviewVersions) ms;
  matchConditions ← field "matchConditions" (slice empty_struct) old.(MatchConditions) ms;
  reinvocationPolicy ← field "reinvocationPolicy" (pointer string_) old.(ReinvocationPolicy) ms;
  Some (mk name service url caBundle rules failurePolicy matchPolicy namespaceSelector objectSelector sideEffects
          timeoutSeconds reviewVersions matchConditions reinvocationPolicy)).
(** The entries of its lists, apart from the values of its rules. *)
Definition entries (w : t) : Z :=
  len_list w.(Rules) + len_list w.(MatchConditions) + len_list w.(AdmissionReviewVersions) +
  admissionSelector.labels w.(NamespaceSelector) + admissionSelector.expressions w.(NamespaceSelector) +
  admissionSelector.labels w.(ObjectSelector) + admissionSelector.expressions w.(ObjectSelector).
End admissionWebhookSource.
Notation admissionWebhookSource := admissionWebhookSource.t.

Module admissionWebhookConfigurationSource.
Record t : Type := mk {
  APIVersion : string;
  Kind : string;
  Metadata : sourceMetadata;
  Webhooks : list admissionWebhookSource;
}.
#[global] Instance zero_t : Zero t := mk "" "" zero [].
Definition decode : decoder t := struct (λ old ms,
  apiVersion ← field "apiVersion" string_ old.(APIVersion) ms;
  kind ← field "kind" string_ old.(Kind) ms;
  metadata ← field "metadata" sourceMetadata.decode old.(Metadata) ms;
  webhooks ← field "webhooks" (slice admissionWebhookSource.decode) old.(Webhooks) ms;
  Some (mk apiVersion kind metadata webhooks)).
End admissionWebhookConfigurationSource.
Notation admissionWebhookConfigurationSource := admissionWebhookConfigurationSource.t.

(** The kind of the objects, and the path of their collection. *)
Definition admissionWebhookSpec (kind : KubernetesAdmissionWebhookConfigurationKind) : result (string * string) :=
  if bool_decide (kind = AdmissionWebhookConfigurationValidating) then
    Ok ("ValidatingWebhookConfiguration", validatingAdmissionWebhookCollectionPath)
  else if bool_decide (kind = AdmissionWebhookConfigurationMutating) then
    Ok ("MutatingWebhookConfiguration", mutatingAdmissionWebhookCollectionPath)
  else Err (Invalid "kind" "must be validating or mutating").

Definition check_rule_limits (rule : admissionWebhookRuleSource) : result unit :=
  let '(admissionWebhookRuleSource.mk operations apiGroups apiVersions resources _) := rule in
  reject_if ((maxAdmissionWebhookRuleValues <? len_list operations) || (maxAdmissionWebhookRuleValues <? len_list apiGroups) ||
             (maxAdmissionWebhookRuleValues <? len_list apiVersions) || (maxAdmissionWebhookRuleValues <? len_list resources))
    (upstream "Kubernetes admission webhook rule exceeded safe value limit").

(** The loop over the webhooks: [total] is what was counted so far. *)
Fixpoint nested_entries (webhooks : list admissionWebhookSource) (total : Z) : result unit :=
  match webhooks with
  | [] => Ok tt
  | webhook :: webhooks =>
      let namespaces := webhook.(admissionWebhookSource.NamespaceSelector) in
      let objects := webhook.(admissionWebhookSource.ObjectSelector) in
      reject_if ((maxAdmissionWebhookRules <? len_list webhook.(admissionWebhookSource.Rules)) ||
                 (maxAdmissionWebhookMatchConditions <? len_list webhook.(admissionWebhookSource.MatchConditions)) ||
                 (maxAdmissionWebhookReviewVersions <? len_list webhook.(admissionWebhookSource.AdmissionReviewVersions)) ||
                 (maxAdmissionWebhookSelectorEntries <? admissionSelector.labels namespaces) ||
                 (maxAdmissionWebhookSelectorEntries <? admissionSelector.expressions namespaces) ||
                 (maxAdmissionWebhookSelectorEntries <? admissionSelector.labels objects) ||
                 (maxAdmissionWebhookSelectorEntries <? admissionSelector.expressions objects))
        (upstream "Kubernetes admission webhook detail exceeded safe nested field limit") ;;
      mapM check_rule_limits webhook.(admissionWebhookSource.Rules) ;;
      let total := total + admissionWebhookSource.entries webhook +
        sum_of admissionWebhookRuleSource.values webhook.(admissionWebhookSource.Rules) in
      reject_if (maxAdmissionWebhookNestedEntries <? total)
        (upstream "Kubernetes admission webhook detail exceeded safe nested entry limit") ;;
      nested_entries webhooks total
  end.

Definition validateAdmissionWebhookNestedEntries (webhooks : list admissionWebhookSource) : result unit :=
  nested_entries webhooks (len_list webhooks).

Definition validAdmissionWebhookVersion (value : string) : bool :=
  if bool_decide (value = "") || (64 <? len value) then false
  else all_bytes (λ c, is_lower c || is_digit c) value.

Definition validAdmissionWebhookRuleValues (values : list string) : bool :=
  is_ok (distinct_values (λ value, (len value <=? maxAdmissionWebhookTextBytes) && clean value) "" "" values).

Definition validateAdmissionWebhookOperations (operations : list string) : result unit :=
  distinct_values (λ operation, bool_decide (operation ∈ ["CREATE"; "UPDATE"; "DELETE"; "CONNECT"; "*"]))
    "invalid Kubernetes admission webhook operation" "duplicate Kubernetes admission webhook operation" operations ;;
  Ok tt.

Definition validateAdmissionReviewVersions (versions : list string) : result unit :=
  reject_if (bool_decide (versions = []) || (maxAdmissionWebhookReviewVersions <? len_list versions))
    (upstream "invalid Kubernetes admission webhook review versions") ;;
  distinct_values validAdmissionWebhookVersion "invalid Kubernetes admission webhook review version"
    "duplicate Kubernetes admission webhook review version" versions ;;
  Ok tt.

Definition check_webhook_rule (rule : admissionWebhookRuleSource) : result unit :=
  let '(admissionWebhookRuleSource.mk operations apiGroups apiVersions resources scope) := rule in
  reject_if (bool_decide (operations = []) || bool_decide (apiGroups = []) || bool_decide (apiVersions = []) ||
             bool_decide (resources = []))
    (upstream "incomplete Kubernetes admission webhook rule") ;;
  reject_if (negb (valid_scope scope)) (upstream "invalid Kubernetes admission webhook rule scope") ;;
  validateAdmissionWebhookOperations operations ;;
  reject_if (negb (forallb validAdmissionWebhookRuleValues [apiGroups; apiVersions; resources]))
    (upstream "invalid Kubernetes admission webhook rule value").

(** The values of all rules, list by list. *)
Definition summarizeAdmissionWebhookRules (rules : list admissionWebhookRuleSource) : result (Z * Z * Z * Z) :=
  mapM check_webhook_rule rules ;;
  Ok (sum_of (λ r, len_list r.(admissionWebhookRuleSource.Operations)) rules,
      sum_of (λ r, len_list r.(admissionWebhookRuleSource.APIGroups)) rules,
      sum_of (λ r, len_list r.(admissionWebhookRuleSource.APIVersions)) rules,
      sum_of (λ r, len_list r.(admissionWebhookRuleSource.Resources)) rules).

(** What is shown of the policies of a webhook. *)
Definition decodeAdmissionWebhookPolicies (source : admissionWebhookSource)
    (kind : KubernetesAdmissionWebhookConfigurationKind) :
    result ((string * bool) * (string * bool) * string * (Z * bool) * (string * bool)) :=
  failurePolicy ← policy source.(admissionWebhookSource.FailurePolicy) "Fail" ["Fail"; "Ignore"]
    "invalid Kubernetes admission webhook failure policy";
  matchPolicy ← policy source.(admissionWebhookSource.MatchPolicy) "Equivalent" ["Equivalent"; "Exact"]
    "invalid Kubernetes admission webhook match policy";
  sideEffects ← expect_ok (upstream "missing Kubernetes admission webhook side effects")
    source.(admissionWebhookSource.SideEffects);
  reject_if (negb (bool_decide (sideEffects ∈ ["None"; "NoneOnDryRun"; "Some"; "Unknown"])))
    (upstream "invalid Kubernetes admission webhook side effects") ;;
  let timeout := default defaultAdmissionWebhookTimeout source.(admissionWebhookSource.TimeoutSeconds) in
  let timeoutDefaulted := bool_decide (source.(admissionWebhookSource.TimeoutSeconds) = None) in
  reject_if ((timeout <? 1) || (30 <? timeout)) (upstream "invalid Kubernetes admission webhook timeout") ;;
  reinvocation ←
    (if bool_decide (kind = AdmissionWebhookConfigurationValidating) then
       reject_if (negb (bool_decide (source.(admissionWebhookSource.ReinvocationPolicy) = None)))
         (upstream "validating Kubernetes admission webhook contains a reinvocation policy") ;;
       Ok ("", false)
     else policy source.(admissionWebhookSource.ReinvocationPolicy) "Never" ["Never"; "IfNeeded"]
            "invalid Kubernetes admission webhook reinvocation policy");
  Ok (failurePolicy, matchPolicy, sideEffects, (timeout, timeoutDefaulted), reinvocation).

Section webhooks.
Context `{URLParser}.

(** The target of a webhook: its type, and the service with its port. *)
Definition decodeAdmissionWebhookTarget (source : admissionWebhookSource) : result (string * string * string * Z * bool) :=
  match source.(admissionWebhookSource.Service), source.(admissionWebhookSource.URL) with
  | None, None | Some _, Some _ => Err (upstream "invalid Kubernetes admission webhook client target")
  | None, Some raw =>
      let invalid := upstream "invalid Kubernetes admission webhook URL target" in
      parsed ← expect_ok invalid (ParseRequestURI raw);
      reject_if ((maxAdmissionWebhookTextBytes <? len raw) || negb (bool_decide (raw = TrimSpace raw)) ||
                 negb (bool_decide (parsed.(URL.Scheme) = "https")) || bool_decide (parsed.(URL.Host) = "") ||
                 parsed.(URL.HasUser) || negb (bool_decide (parsed.(URL.RawQuery) = "")) ||
                 negb (bool_decide (parsed.(URL.Fragment) = "")) || has_rune IsControl raw)
        invalid ;;
      Ok ("url", "", "", 0, false)
  | Some (namespace, name, path, port), None =>
      reject_if (negb (is_ok (ValidateNamespace namespace)) || negb (is_ok (ValidateNamespace name)) ||
                 (negb (bool_decide (path = "")) &&
                  ((maxAdmissionWebhookTextBytes <? len path) || negb (HasPrefix path "/") || negb (clean path))))
        (upstream "invalid Kubernetes admission webhook service target") ;;
      reject_if (from_option (λ p, (p <? 1) || (65535 <? p)) false port)
        (upstream "invalid Kubernetes admission webhook service port") ;;
      Ok ("service", namespace, name, default defaultAdmissionWebhookServicePort port, bool_decide (port = None))
  end.

Definition decodeAdmissionWebhook (kind : KubernetesAdmissionWebhookConfigurationKind) (source : admissionWebhookSource) :
    result KubernetesAdmissionWebhook :=
  reject_if (negb (is_ok (ValidateAdmissionWebhookConfigurationName source.(admissionWebhookSource.Name))))
    (upstream "invalid Kubernetes admission webhook name") ;;
  '(target, serviceNamespace, serviceName, servicePort, servicePortDefaulted) ← decodeAdmissionWebhookTarget source;
  '((failurePolicy, failureDefaulted), (matchPolicy, matchDefaulted), sideEffects, (timeout, timeoutDefaulted),
    (reinvocation, reinvocationDefaulted)) ← decodeAdmissionWebhookPolicies source kind;
  validateAdmissionReviewVersions source.(admissionWebhookSource.AdmissionReviewVersions) ;;
  '(operations, apiGroups, apiVersions, resources) ← summarizeAdmissionWebhookRules source.(admissionWebhookSource.Rules);
  Ok (KubernetesAdmissionWebhook.mk source.(admissionWebhookSource.Name) target serviceNamespace serviceName servicePort
        servicePortDefaulted (negb (bool_decide (source.(admissionWebhookSource.CABundle) = []))) failurePolicy failureDefaulted
        matchPolicy matchDefaulted sideEffects timeout timeoutDefaulted reinvocation reinvocationDefaulted
        source.(admissionWebhookSource.AdmissionReviewVersions) (len_list source.(admissionWebhookSource.Rules))
        operations apiGroups apiVersions resources
        (admissionSelector.labels source.(admissionWebhookSource.NamespaceSelector))
        (admissionSelector.expressions source.(admissionWebhookSource.NamespaceSelector))
        (admissionSelector.labels source.(admissionWebhookSource.ObjectSelector))
        (admissionSelector.expressions source.(admissionWebhookSource.ObjectSelector))
        (len_list source.(admissionWebhookSource.MatchConditions))).

(** The loop over the webhooks: a name that was seen is refused before the webhook is decoded. *)
Fixpoint decode_webhooks (kind : KubernetesAdmissionWebhookConfigurationKind) (sources : list admissionWebhookSource)
    (webhooks : list KubernetesAdmissionWebhook) : result (list KubernetesAdmissionWebhook) :=
  match sources with
  | [] => Ok webhooks
  | source :: sources =>
      reject_if (bool_decide (source.(admissionWebhookSource.Name) ∈ KubernetesAdmissionWebhook.Name <$> webhooks))
        (upstream "duplicate Kubernetes admission webhook") ;;
      webhook ← decodeAdmissionWebhook kind source;
      decode_webhooks kind sources (webhooks ++ [webhook])
  end.

Definition decodeAdmissionWebhookConfiguration (payload : string) (kind : KubernetesAdmissionWebhookConfigurationKind)
    (expectedName : string) : result KubernetesAdmissionWebhookConfigurationDetail :=
  '(objectKind, _) ← admissionWebhookSpec kind;
  source ← expect_ok (upstream "decode Kubernetes admission webhook detail")
    (Unmarshal admissionWebhookConfigurationSource.decode payload);
  let '(admissionWebhookConfigurationSource.mk apiVersion kind' metadata sources) := source in
  reject_if (negb (is_cluster_object apiVersion kind' "admissionregistration.k8s.io/v1" objectKind metadata expectedName
               ValidateAdmissionWebhookConfigurationName) || (metadata.(sourceMetadata.Generation) <? 1))
    (upstream "invalid Kubernetes admission webhook detail identity") ;;
  reject_if (bool_decide (sources = []) || (maxAdmissionWebhooks <? len_list sources))
    (upstream "Kubernetes admission webhook detail exceeded safe webhook limit") ;;
  validateAdmissionWebhookNestedEntries sources ;;
  webhooks ← decode_webhooks kind sources [];
  Ok (KubernetesAdmissionWebhookConfigurationDetail.mk
        (KubernetesAdmissionWebhookConfiguration.mk kind metadata.(sourceMetadata.Name) metadata.(sourceMetadata.CreationTimestamp))
        metadata.(sourceMetadata.Generation) webhooks (len_list sources)).
End webhooks.

Definition validAdmissionWebhookContinue : string → bool := valid_continue admissionWebhookMaxContinueBytes.

Definition webhook_pager : pager := {|
  pager.query := {[ "limit" := admissionWebhookListPageSize ]};
  pager.accept := kubernetesPartialMetadataListAccept;
  pager.maxPages := admissionWebhookMaxListPages;
  pager.maxListBytes := admissionWebhookMaxListBytes;
  pager.maxPageBytes := admissionWebhookMaxListBytes;
  pager.bytes := pager.NoCheck;
  pager.validContinue := validAdmissionWebhookContinue;
  pager.refusesRepeated := false;
  pager.full := None;
  pager.byteLimit := "";
  pager.pageLimit := "Kubernetes admission webhook list exceeded safe page limit";
  pager.badToken := "invalid Kubernetes admission webhook continuation token";
  pager.repeatedToken := ""; pager.itemLimit := "";
|}.

Definition webhook_page (kind : KubernetesAdmissionWebhookConfigurationKind) :=
  metadata_page (page_texts_of "Kubernetes admission webhook" "metadata list") admissionWebhookMaxListItems
    (new_items (named_item ValidateAdmissionWebhookConfigurationName "invalid Kubernetes admission webhook metadata identity"
        (KubernetesAdmissionWebhookConfiguration.mk kind))
       KubernetesAdmissionWebhookConfiguration.Name "duplicate Kubernetes admission webhook metadata").

(** ** Policies and their bindings (admission_policy.go) *)

Definition validatingAdmissionPolicyCollectionPath : string :=
  "/apis/admissionregistration.k8s.io/v1/validatingadmissionpolicies".
Definition validatingAdmissionPolicyBindingCollectionPath : string :=
  "/apis/admissionregistration.k8s.io/v1/validatingadmissionpolicybindings".
Definition admissionPolicyListPageSize : string := "250".
Definition admissionPolicyMaxListPages : nat := 4.
Definition admissionPolicyMaxListItems : Z := 1000.
Definition admissionPolicyMaxListBytes : Z := 4 * 1024 * 1024.
Definition admissionPolicyMaxDetailBytes : Z := 2 * 1024 * 1024.
Definition admissionPolicyMaxContinueBytes : Z := 16 * 1024.
Definition maxAdmissionPolicyRules : Z := 128.
Definition maxAdmissionPolicyRuleValues : Z := 128.
Definition maxAdmissionPolicyValidations : Z := 128.
Definition maxAdmissionPolicyAuditAnnotations : Z := 128.
Definition maxAdmissionPolicyMatchConditions : Z := 64.
Definition maxAdmissionPolicyVariables : Z := 128.
Definition maxAdmissionPolicyExpressionWarnings : Z := 128.
Definition maxAdmissionPolicyConditions : Z := 32.
Definition maxAdmissionPolicySelectorEntries : Z := 128.
Definition maxAdmissionPolicyNestedEntries : Z := 8192.
Definition maxAdmissionPolicyTextBytes : Z := 1024.

Module admissionPolicyRuleSource.
Record t : Type := mk {
  Operations : list string;
  APIGroups : list string;
  APIVersions : list string;
  Resources : list string;
  ResourceNames : list RawMessage;
  Scope : option string;
}.
#[global] Instance zero_t : Zero t := mk [] [] [] [] [] None.
Definition decode : decoder t := struct (λ old ms,
  operations ← field "operations" (slice string_) old.(Operations) ms;
  apiGroups ← field "apiGroups" (slice string_) old.(APIGroups) ms;
  apiVersions ← field "apiVersions" (slice string_) old.(APIVersions) ms;
  resources ← field "resources" (slice string_) old.(Resources) ms;
  resourceNames ← field "resourceNames" (slice raw_message) old.(ResourceNames) ms;
  scope ← field "scope" (pointer string_) old.(Scope) ms;
  Some (mk operations apiGroups apiVersions resources resourceNames scope)).
End admissionPolicyRuleSource.
Notation admissionPolicyRuleSource := admissionPolicyRuleSource.t.

Module admissionPolicyMatchResourcesSource.
Record t : Type := mk {
  NamespaceSelector : option admissionSelector;
  ObjectSelector : option admissionSelector;
  ResourceRules : list admissionPolicyRuleSource;
  ExcludeResourceRules : list admissionPolicyRuleSource;
  MatchPolicy : option string;
}.
#[global] Instance zero_t : Zero t := mk None None [] [] None.
Definition decode : decoder t := struct (λ old ms,
  namespaceSelector ← field "namespaceSelector" (pointer admissionSelector.decode) old.(NamespaceSelector) ms;
  objectSelector ← field "objectSelector" (pointer admissionSelector.decode) old.(ObjectSelector) ms;
  resourceRules ← field "resourceRules" (slice admissionPolicyRuleSource.decode) old.(ResourceRules) ms;
  excludeResourceRules ← field "excludeResourceRules" (slice admissionPolicyRuleSource.decode) old.(ExcludeResourceRules) ms;
  matchPolicy ← field "matchPolicy" (pointer string_) old.(MatchPolicy) ms;
  Some (mk namespaceSelector objectSelector resourceRules excludeResourceRules matchPolicy)).
End admissionPolicyMatchResourcesSource.
Notation admissionPolicyMatchResourcesSource := admissionPolicyMatchResourcesSource.t.

Module admissionPolicyParamRefSource.
Record t : Type := mk {
  Name : string;
  Namespace : string;
  Selector : option admissionSelector;
  ParameterNotFoundAction : option string;
}.
#[global] Instance zero_t : Zero t := mk "" "" None None.
Definition decode : decoder t := struct (λ old ms,
  name ← field "name" string_ old.(Name) ms;
  namespace ← field "namespace" string_ old.(Namespace) ms;
  selector ← field "selector" (pointer admissionSelector.decode) old.(Selector) ms;
  action ← field "parameterNotFoundAction" (pointer string_) old.(ParameterNotFoundAction) ms;
  Some (mk name namespace selector action)).
End admissionPolicyParamRefSource.
Notation admissionPolicyParamRefSource := admissionPolicyParamRefSource.t.

Module validatingAdmissionPolicySource.
(** [Spec] *)
Record spec : Type := mkSpec {
  ParamKind : option (string * string);
  MatchConstraints : option admissionPolicyMatchResourcesSource;
  Validations : list unit;
  FailurePolicy : option string;
  AuditAnnotations : list unit;
  MatchConditions : list unit;
  Variables : list unit;
}.
#[global] Instance zero_spec : Zero spec := mkSpec None None [] None [] [] [].
Definition decode_spec : decoder spec := struct (λ old ms,
  paramKind ← field "paramKind" (pointer (struct (field "apiVersion" string_ ⊗ field "kind" string_))) old.(ParamKind) ms;
  matchConstraints ← field "matchConstraints" (pointer admissionPolicyMatchResourcesSource.decode) old.(MatchConstraints) ms;
  validations ← field "validations" (slice empty_struct) old.(Validations) ms;
  failurePolicy ← field "failurePolicy" (pointer string_) old.(FailurePolicy) ms;
  auditAnnotations ← field "auditAnnotations" (slice empty_struct) old.(AuditAnnotations) ms;
  matchConditions ← field "matchConditions" (slice empty_struct) old.(MatchConditions) ms;
  variables ← field "variables" (slice empty_struct) old.(Variables) ms;
  Some (mkSpec paramKind matchConstraints validations failurePolicy auditAnnotations matchConditions variables)).

(** [Status]: the generation that was observed, the warnings of the type check, and the conditions. *)
Definition status : decoder (Z * option (list unit) * list unit) :=
  struct (field "observedGeneration" (int_ 64) ⊗
    field "typeChecking" (pointer (struct (field "expressionWarnings" (slice empty_struct)))) ⊗
    field "conditions" (slice empty_struct)).

Record t : Type := mk {
  APIVersion : string;
  Kind : string;
  Metadata : sourceMetadata;
  Spec : spec;
  ObservedGeneration : Z;
  ExpressionWarnings : option (list unit);
  Conditions : list unit;
}.
#[global] Instance zero_t : Zero t := mk "" "" zero zero 0 None [].
Definition decode : decoder t := struct (λ old ms,
  apiVersion ← field "apiVersion" string_ old.(APIVersion) ms;
  kind ← field "kind" string_ old.(Kind) ms;
  metadata ← field "metadata" sourceMetadata.decode old.(Metadata) ms;
  spec ← field "spec" decode_spec old.(Spec) ms;
  '(observed, warnings, conditions) ← field "status" status (old.(ObservedGeneration), old.(ExpressionWarnings), old.(Conditions)) ms;
  Some (mk apiVersion kind metadata spec observed warnings conditions)).
End validatingAdmissionPolicySource.
Notation validatingAdmissionPolicySource := validatingAdmissionPolicySource.t.

Module validatingAdmissionPolicyBindingSource.
Record t : Type := mk {
  APIVersion : string;
  Kind : string;
  Metadata : sourceMetadata;
  PolicyName : string;
  ParamRef : option admissionPolicyParamRefSource;
  MatchResources : option admissionPolicyMatchResourcesSource;
  ValidationActions : list string;
}.
#[global] Instance zero_t : Zero t := mk "" "" zero "" None None [].
Definition spec : decoder (string * option admissionPolicyParamRefSource * option admissionPolicyMatchResourcesSource * list string) :=
  struct (field "policyName" string_ ⊗ field "paramRef" (pointer admissionPolicyParamRefSource.decode) ⊗
    field "matchResources" (pointer admissionPolicyMatchResourcesSource.decode) ⊗
    field "validationActions" (slice string_)).
Definition decode : decoder t := struct (λ old ms,
  apiVersion ← field "apiVersion" string_ old.(APIVersion) ms;
  kind ← field "kind" string_ old.(Kind) ms;
  metadata ← field "metadata" sourceMetadata.decode old.(Metadata) ms;
  '(policyName, paramRef, matchResources, actions) ← field "spec" spec
    (old.(PolicyName), old.(ParamRef), old.(MatchResources), old.(ValidationActions)) ms;
  Some (mk apiVersion kind metadata policyName paramRef matchResources actions)).
End validatingAdmissionPolicyBindingSource.
Notation validatingAdmissionPolicyBindingSource := validatingAdmissionPolicyBindingSource.t.

Module admissionPolicyResourceSpec.
Record t : Type := mk { kind : KubernetesAdmissionPolicyResourceKind; objectKind : string; collectionPath : string }.
End admissionPolicyResourceSpec.
Notation admissionPolicyResourceSpec := admissionPolicyResourceSpec.t.

Definition admissionPolicySpec (kind : KubernetesAdmissionPolicyResourceKind) : admissionPolicyResourceSpec :=
  if bool_decide (kind = AdmissionPolicyResourceBinding) then
    admissionPolicyResourceSpec.mk kind "ValidatingAdmissionPolicyBinding" validatingAdmissionPolicyBindingCollectionPath
  else admissionPolicyResourceSpec.mk AdmissionPolicyResourcePolicy "ValidatingAdmissionPolicy"
         validatingAdmissionPolicyCollectionPath.

Definition validateAdmissionPolicyIdentity (apiVersion kind : string) (metadata : sourceMetadata)
    (spec : admissionPolicyResourceSpec) (expectedName : string) : result unit :=
  reject_if (negb (is_cluster_object apiVersion kind "admissionregistration.k8s.io/v1"
               spec.(admissionPolicyResourceSpec.objectKind) metadata expectedName ValidateAdmissionPolicyResourceName) ||
             (metadata.(sourceMetadata.Generation) <? 1))
    (upstream "invalid Kubernetes admission policy resource identity").

(** The labels and the expressions of a selector. *)
Definition summarizeAdmissionPolicySelector (source : admissionSelector) : result (Z * Z) :=
  reject_if ((maxAdmissionPolicySelectorEntries <? admissionSelector.labels source) ||
             (maxAdmissionPolicySelectorEntries <? admissionSelector.expressions source))
    (upstream "Kubernetes admission policy selector exceeded safe entry limit") ;;
  Ok (admissionSelector.labels source, admissionSelector.expressions source).

(** A selector that may be left out. *)
Definition optional_selector (source : option admissionSelector) : result (Z * Z) :=
  from_option summarizeAdmissionPolicySelector (Ok (0, 0)) source.

Definition containsString (values : list string) (expected : string) : bool := existsb (String.eqb expected) values.

Definition containsEmptyString (values : list string) : bool := containsString values "".

(** One list of a rule; only the groups may hold an empty text. *)
Definition valid_policy_values (emptyAllowed : bool) (values : list string) : bool :=
  validAdmissionWebhookRuleValues values && (emptyAllowed || negb (containsEmptyString values)) &&
  negb (containsString values "*" && negb (len_list values =? 1)).

(** The values a rule adds to the summary, list by list, and its entries. *)
Definition summarizeAdmissionPolicyRule (rule : admissionPolicyRuleSource) : result (Z * Z * Z * Z * Z) :=
  let '(admissionPolicyRuleSource.mk operations apiGroups apiVersions resources resourceNames scope) := rule in
  reject_if (existsb (λ values, bool_decide (values = []) || (maxAdmissionPolicyRuleValues <? len_list values))
               [operations; apiGroups; apiVersions; resources] || (maxAdmissionPolicyRuleValues <? len_list resourceNames))
    (upstream "invalid Kubernetes admission policy resource rule") ;;
  reject_if (negb (is_ok (validateAdmissionWebhookOperations operations)))
    (upstream "invalid Kubernetes admission policy operation") ;;
  reject_if (negb (valid_policy_values true apiGroups && valid_policy_values false apiVersions &&
                   valid_policy_values false resources))
    (upstream "invalid Kubernetes admission policy rule value") ;;
  reject_if (negb (valid_scope scope)) (upstream "invalid Kubernetes admission policy rule scope") ;;
  Ok (len_list operations, len_list apiGroups, len_list apiVersions, len_list resources,
      len_list operations + len_list apiGroups + len_list apiVersions + len_list resources + len_list resourceNames).

(** The loop over the rules: what is counted so far, and the entries. *)
Fixpoint summarize_policy_rules (rules : list admissionPolicyRuleSource) (operations apiGroups apiVersions resources entries : Z) :
    result (Z * Z * Z * Z * Z) :=
  match rules with
  | [] => Ok (operations, apiGroups, apiVersions, resources, entries)
  | rule :: rules =>
      '(o, g, v, r, e) ← summarizeAdmissionPolicyRule rule;
      reject_if (maxAdmissionPolicyNestedEntries <? entries + e)
        (upstream "Kubernetes admission policy match exceeded safe nested entry limit") ;;
      summarize_policy_rules rules (operations + o) (apiGroups + g) (apiVersions + v) (resources + r) (entries + e)
  end.

(** What a policy or a binding matches, and how many entries say so. *)
Definition summarizeAdmissionPolicyMatch (source : option admissionPolicyMatchResourcesSource) (required : bool) :
    result (KubernetesAdmissionMatchSummary * Z) :=
  match source with
  | None =>
      if required then Err (upstream "missing Kubernetes admission policy match constraints")
      else Ok (KubernetesAdmissionMatchSummary.mk false "" false 0 0 0 0 0 0 0 0 0 0, 0)
  | Some (admissionPolicyMatchResourcesSource.mk namespaceSelector objectSelector rules excluded matchPolicy) =>
      reject_if ((maxAdmissionPolicyRules <? len_list rules) || (maxAdmissionPolicyRules <? len_list excluded) ||
                 (required && bool_decide (rules = [])))
        (upstream "Kubernetes admission policy match rules exceeded safe limit") ;;
      '(matchPolicy, matchPolicyDefaulted) ← policy matchPolicy "Equivalent" ["Equivalent"; "Exact"]
        "invalid Kubernetes admission policy match policy";
      '(namespaceLabels, namespaceExpressions) ← optional_selector namespaceSelector;
      '(objectLabels, objectExpressions) ← optional_selector objectSelector;
      '(operations, apiGroups, apiVersions, resources, entries) ← summarize_policy_rules (rules ++ excluded) 0 0 0 0
        (len_list rules + len_list excluded + (namespaceLabels + namespaceExpressions) + (objectLabels + objectExpressions));
      Ok (KubernetesAdmissionMatchSummary.mk true matchPolicy matchPolicyDefaulted (len_list rules) (len_list excluded)
            operations apiGroups apiVersions resources namespaceLabels namespaceExpressions objectLabels objectExpressions,
          entries)
  end.

Definition canonicalAdmissionPolicyActions (actions : list string) : result (list string) :=
  reject_if (bool_decide (actions = []) || (3 <? len_list actions))
    (upstream "invalid Kubernetes admission policy binding actions") ;;
  seen ← distinct_values (λ action, bool_decide (action ∈ ["Deny"; "Warn"; "Audit"]))
    "invalid Kubernetes admission policy binding action" "duplicate Kubernetes admission policy binding action" actions;
  reject_if (bool_decide ("Deny" ∈ seen) && bool_decide ("Warn" ∈ seen))
    (upstream "conflicting Kubernetes admission policy binding actions") ;;
  Ok (filter (λ action, action ∈ seen) ["Deny"; "Warn"; "Audit"]).

(** How a binding refers to its parameters: the mode, the namespace, what to do when they
    are missing, and the entries of the selector. *)
Definition decodeAdmissionPolicyParamRef (source : admissionPolicyParamRefSource) : result (string * string * string * Z * Z) :=
  let '(admissionPolicyParamRefSource.mk name namespace selector action) := source in
  let hasName := negb (bool_decide (name = "")) in
  let hasSelector := negb (bool_decide (selector = None)) in
  let invalid := upstream "invalid Kubernetes admission policy binding parameter reference" in
  reject_if (Bool.eqb hasName hasSelector || (hasName && negb (is_ok (ValidateAdmissionPolicyResourceName name))) ||
             (negb (bool_decide (namespace = "")) && negb (is_ok (ValidateNamespace namespace)))) invalid ;;
  action ← expect_ok invalid action;
  reject_if (negb (bool_decide (action = "Allow")) && negb (bool_decide (action = "Deny"))) invalid ;;
  if hasName then Ok ("name", namespace, action, 0, 0)
  else '(labels, expressions) ← optional_selector selector;
       Ok ("selector", namespace, action, labels, expressions).

Definition validAdmissionPolicyAPIVersion (value : string) : bool :=
  if bool_decide (value = "") || (maxAdmissionPolicyTextBytes <? len value) || negb (clean value) then false else
  let '(group, version, hasGroup) := Cut value "/" in
  if negb hasGroup then validAdmissionWebhookVersion value
  else negb (bool_decide (group = "")) && negb (bool_decide (version = "")) && negb (Contains version "/") &&
       is_ok (ValidateAPIServiceName (version +:+ "." +:+ group)).

Definition validAdmissionPolicyKind (value : string) : bool :=
  if bool_decide (value = "") || (63 <? len value) then false else
  match value with
  | String c rest => (is_upper c || is_lower c) && all_bytes (λ c, is_upper c || is_lower c || is_digit c) rest
  | EmptyString => true
  end.

Definition decodeValidatingAdmissionPolicy (payload expectedName : string) : result KubernetesValidatingAdmissionPolicyDetail :=
  source ← expect_ok (upstream "decode Kubernetes validating admission policy")
    (Unmarshal validatingAdmissionPolicySource.decode payload);
  let '(validatingAdmissionPolicySource.mk apiVersion kind metadata spec observedGeneration typeChecking conditions) := source in
  let '(validatingAdmissionPolicySource.mkSpec paramKind matchConstraints validations failurePolicy auditAnnotations
          matchConditions variables) := spec in
  let warnings := default [] typeChecking in
  validateAdmissionPolicyIdentity apiVersion kind metadata (admissionPolicySpec AdmissionPolicyResourcePolicy) expectedName ;;
  reject_if ((maxAdmissionPolicyValidations <? len_list validations) ||
             (maxAdmissionPolicyAuditAnnotations <? len_list auditAnnotations) ||
             (maxAdmissionPolicyMatchConditions <? len_list matchConditions) ||
             (maxAdmissionPolicyVariables <? len_list variables) || (maxAdmissionPolicyConditions <? len_list conditions) ||
             (maxAdmissionPolicyExpressionWarnings <? len_list warnings) ||
             (bool_decide (validations = []) && bool_decide (auditAnnotations = [])))
    (upstream "Kubernetes admission policy exceeded safe field limit") ;;
  '(summary, matchEntries) ← summarizeAdmissionPolicyMatch matchConstraints true;
  let nestedEntries := matchEntries + len_list validations + len_list auditAnnotations + len_list matchConditions +
    len_list variables + len_list conditions + len_list warnings in
  reject_if (maxAdmissionPolicyNestedEntries <? nestedEntries)
    (upstream "Kubernetes admission policy exceeded safe nested entry limit") ;;
  reject_if ((observedGeneration <? 0) || (metadata.(sourceMetadata.Generation) <? observedGeneration))
    (upstream "invalid Kubernetes admission policy observed generation") ;;
  '(failurePolicy, failurePolicyDefaulted) ← policy failurePolicy "Fail" ["Fail"; "Ignore"]
    "invalid Kubernetes admission policy failure policy";
  (match paramKind with
   | None => Ok tt
   | Some (version, kind) =>
       reject_if (negb (validAdmissionPolicyAPIVersion version) || negb (validAdmissionPolicyKind kind))
         (upstream "invalid Kubernetes admission policy parameter kind")
   end) ;;
  let '(paramAPIVersion, paramKindName) := default ("", "") paramKind in
  Ok (KubernetesValidatingAdmissionPolicyDetail.mk
        (KubernetesAdmissionPolicyResource.mk AdmissionPolicyResourcePolicy expectedName metadata.(sourceMetadata.CreationTimestamp))
        metadata.(sourceMetadata.Generation) failurePolicy failurePolicyDefaulted
        (negb (bool_decide (paramKind = None))) paramAPIVersion paramKindName summary
        (len_list validations) (len_list auditAnnotations) (len_list matchConditions) (len_list variables)
        observedGeneration (negb (bool_decide (typeChecking = None))) (len_list warnings) (len_list conditions)).

Definition decodeValidatingAdmissionPolicyBinding (payload expectedName : string) :
    result KubernetesValidatingAdmissionPolicyBindingDetail :=
  source ← expect_ok (upstream "decode Kubernetes validating admission policy binding")
    (Unmarshal validatingAdmissionPolicyBindingSource.decode payload);
  let '(validatingAdmissionPolicyBindingSource.mk apiVersion kind metadata policyName paramRef matchResources actions) := source in
  validateAdmissionPolicyIdentity apiVersion kind metadata (admissionPolicySpec AdmissionPolicyResourceBinding) expectedName ;;
  reject_if (negb (is_ok (ValidateAdmissionPolicyResourceName policyName)))
    (upstream "invalid Kubernetes admission policy binding policy reference") ;;
  actions ← canonicalAdmissionPolicyActions actions;
  '(summary, matchEntries) ← summarizeAdmissionPolicyMatch matchResources false;
  '(mode, paramNamespace, action, labels, expressions) ←
    from_option decodeAdmissionPolicyParamRef (Ok ("", "", "", 0, 0)) paramRef;
  let nestedEntries := matchEntries + (labels + expressions) in
  reject_if (maxAdmissionPolicyNestedEntries <? nestedEntries)
    (upstream "Kubernetes admission policy binding exceeded safe nested entry limit") ;;
  Ok (KubernetesValidatingAdmissionPolicyBindingDetail.mk
        (KubernetesAdmissionPolicyResource.mk AdmissionPolicyResourceBinding expectedName metadata.(sourceMetadata.CreationTimestamp))
        metadata.(sourceMetadata.Generation) policyName actions (negb (bool_decide (paramRef = None))) mode paramNamespace
        action labels expressions summary).

Definition validAdmissionPolicyContinue : string → bool := valid_continue admissionPolicyMaxContinueBytes.

Definition policy_pager : pager := {|
  pager.query := {[ "limit" := admissionPolicyListPageSize ]};
  pager.accept := kubernetesPartialMetadataListAccept;
  pager.maxPages := admissionPolicyMaxListPages;
  pager.maxListBytes := admissionPolicyMaxListBytes;
  pager.maxPageBytes := admissionPolicyMaxListBytes;
  pager.bytes := pager.CheckRoom;
  pager.validContinue := validAdmissionPolicyContinue;
  pager.refusesRepeated := false;
  pager.full := None;
  pager.byteLimit := "Kubernetes admission policy metadata exceeded safe byte limit";
  pager.pageLimit := "Kubernetes admission policy metadata exceeded safe page limit";
  pager.badToken := "invalid Kubernetes admission policy continuation token";
  pager.repeatedToken := ""; pager.itemLimit := "";
|}.

Definition policy_page (kind : KubernetesAdmissionPolicyResourceKind) :=
  metadata_page (mkTexts "decode Kubernetes admission policy metadata list" "unsupported Kubernetes admission policy metadata list"
      "Kubernetes admission policy metadata exceeded safe item limit") admissionPolicyMaxListItems
    (new_items (named_item ValidateAdmissionPolicyResourceName "invalid Kubernetes admission policy metadata identity"
        (KubernetesAdmissionPolicyResource.mk kind))
       KubernetesAdmissionPolicyResource.Name "duplicate Kubernetes admission policy metadata").

(** ** The methods of the client *)

Section admission_readers.
Context (token : string).

Definition AdmissionWebhookConfigurations (kind : KubernetesAdmissionWebhookConfigurationKind) :
    fetch (result (list KubernetesAdmissionWebhookConfiguration)) :=
  ValidateAdmissionWebhookConfigurationKind kind ;!
  '(_, collectionPath) ←! Done (admissionWebhookSpec kind);
  items ←! all_pages token webhook_pager (webhook_page kind) collectionPath;
  Done (Ok (sort_Slice (by_name KubernetesAdmissionWebhookConfiguration.Name) items)).

Definition AdmissionWebhookConfiguration `{URLParser} (kind : KubernetesAdmissionWebhookConfigurationKind) (name : string) :
    fetch (result KubernetesAdmissionWebhookConfigurationDetail) :=
  ValidateAdmissionWebhookConfigurationKind kind ;!
  ValidateAdmissionWebhookConfigurationName name ;!
  '(_, collectionPath) ←! Done (admissionWebhookSpec kind);
  '(payload, _) ←! getPayload token (collectionPath +:+ "/" +:+ name) None "application/json"
    admissionWebhookMaxDetailBytes false;
  Done (decodeAdmissionWebhookConfiguration payload kind name).

Definition listAdmissionPolicyResources (spec : admissionPolicyResourceSpec) :
    fetch (result (list KubernetesAdmissionPolicyResource)) :=
  items ←! all_pages token policy_pager (policy_page spec.(admissionPolicyResourceSpec.kind))
    spec.(admissionPolicyResourceSpec.collectionPath);
  Done (Ok (sort_Slice (by_name KubernetesAdmissionPolicyResource.Name) items)).

Definition ValidatingAdmissionPolicies : fetch (result (list KubernetesAdmissionPolicyResource)) :=
  listAdmissionPolicyResources (admissionPolicySpec AdmissionPolicyResourcePolicy).

Definition ValidatingAdmissionPolicyBindings : fetch (result (list KubernetesAdmissionPolicyResource)) :=
  listAdmissionPolicyResources (admissionPolicySpec AdmissionPolicyResourceBinding).

Definition ValidatingAdmissionPolicy (name : string) : fetch (result KubernetesValidatingAdmissionPolicyDetail) :=
  one_object token ValidateAdmissionPolicyResourceName validatingAdmissionPolicyCollectionPath
    admissionPolicyMaxDetailBytes decodeValidatingAdmissionPolicy name.

Definition ValidatingAdmissionPolicyBinding (name : string) : fetch (result KubernetesValidatingAdmissionPolicyBindingDetail) :=
  one_object token ValidateAdmissionPolicyResourceName validatingAdmissionPolicyBindingCollectionPath
    admissionPolicyMaxDetailBytes decodeValidatingAdmissionPolicyBinding name.
End admission_readers.

(** ** The actions of a binding *)

(** Values that are valid and distinct are accepted. *)
Lemma distinct_values_complete valid invalid duplicate values :
  Forall (λ v, valid v = true) values → NoDup values →
  ∃ seen, distinct_values valid invalid duplicate values = Ok seen.
Proof.
  unfold distinct_values. intros Hf Hn. assert (∀ v, v ∈ values → v ∉ (∅ : gset string)) as Hs by set_solver.
  revert Hs. generalize (∅ : gset string) as seen. induction values as [|v values IH]; intros seen Hs; [by eexists|].
  apply Forall_cons in Hf as [Hv Hf]. apply NoDup_cons in Hn as [Hin Hn]. cbn [each_once id]. rewrite Hv. cbn.
  rewrite bool_decide_eq_false_2 by (apply Hs; by left). apply IH; [done..|].
  intros w Hw [->%elem_of_singleton|?]%elem_of_union; [done|]. by eapply Hs; [right|].
Qed.

Lemma filter_agree {A} (P Q : A → Prop) `{∀ a, Decision (P a), ∀ a, Decision (Q a)} (l : list A) :
  (∀ a, a ∈ l → P a ↔ Q a) → filter P l = filter Q l.
Proof.
  induction l as [|a l IH]; intros Hl; [done|]. rewrite !filter_cons.
  rewrite IH by (intros b Hb; apply Hl; by right). destruct (Hl a) as [H1 H2]; [by left|].
  repeat case_decide; tauto.
Qed.

(** A part of a list without repetitions, in its order, is found again in it. *)
Lemma filter_sublist {A} `{EqDecision A} (l k : list A) : l `sublist_of` k → NoDup k → filter (λ a, a ∈ l) k = l.
Proof.
  induction 1 as [|a l k Hl IH|a l k Hl IH]; [done|..]; intros [Ha Hn]%NoDup_cons; rewrite filter_cons.
  - rewrite decide_True by by left. f_equal. rewrite (filter_agree _ (λ b, b ∈ l)); [by apply IH|].
    intros b Hb. rewrite elem_of_cons. split; [|by right]. by intros [->|?].
  - rewrite decide_False; [by apply IH|]. intros H. apply Ha. eapply sublist_subseteq; [exact Hl|done].
Qed.

Lemma policy_actions_distinct : NoDup ["Deny"; "Warn"; "Audit"].
Proof. by apply (bool_decide_unpack _). Qed.

Lemma policy_actions_sorted actions :
  NoDup actions → actions ⊆ ["Deny"; "Warn"; "Audit"] →
  filter (λ action, action ∈ actions) ["Deny"; "Warn"; "Audit"] ≡ₚ actions.
Proof.
  intros Hn Hs. apply NoDup_Permutation; [apply NoDup_filter, policy_actions_distinct|done|].
  intros a. rewrite list_elem_of_filter. split; [by intros [? _]|]. intros Ha. split; [done|by apply Hs].
Qed.

(** The actions of a binding are shown in one order, whatever theirs was: they are
    accepted exactly when there is one at least, each is one of three and named once, and
    nothing is both denied and warned of; what is shown is then a permutation of them, in
    the order deny, warn, audit. *)
Theorem canonicalAdmissionPolicyActions_correct actions ordered :
  canonicalAdmissionPolicyActions actions = Ok ordered ↔
  actions ≠ [] ∧ NoDup actions ∧ actions ⊆ ["Deny"; "Warn"; "Audit"] ∧ ¬ ("Deny" ∈ actions ∧ "Warn" ∈ actions) ∧
  ordered ≡ₚ actions ∧ ordered `sublist_of` ["Deny"; "Warn"; "Audit"].
Proof.
  unfold canonicalAdmissionPolicyActions. split.
  - intros (? & [Hne%bool_decide_eq_false _]%reject_if_Ok%orb_false_iff & (seen & (Hf & Hn & He)%distinct_values_Ok &
      (? & Hx%reject_if_Ok%andb_false_iff & [= <-])%bind_Ok)%bind_Ok)%bind_Ok.
    assert (actions ⊆ ["Deny"; "Warn"; "Audit"]) as Hs.
    { intros a Ha. rewrite Forall_forall in Hf. by apply Hf, bool_decide_eq_true in Ha. }
    rewrite !bool_decide_eq_false, !He in Hx. change (base.filter (λ action, action ∈ seen) ?l) with (filter (λ a, a ∈ seen) l).
    split_and!; [done..|tauto| |apply sublist_filter].
    rewrite (filter_agree _ (λ a, a ∈ actions)); [by apply policy_actions_sorted|]. intros a _. apply He.
  - intros (Hne & Hn & Hs & Hx & Hp & Hsub).
    assert (length actions ≤ 3)%nat as Hl by (rewrite <-Hp; by apply sublist_length in Hsub).
    rewrite bool_decide_eq_false_2 by done. rewrite (proj2 (Z.ltb_ge 3 (len_list actions))) by (unfold len_list; lia). cbn [orb reject_if].
    edestruct (distinct_values_complete (λ action, bool_decide (action ∈ ["Deny"; "Warn"; "Audit"]))) as [seen Hd];
      [|exact Hn|].
    { apply Forall_forall. intros a Ha. by apply bool_decide_eq_true, Hs. }
    erewrite Hd. pose proof Hd as (_ & _ & He)%distinct_values_Ok. cbn.
    rewrite (proj2 (andb_false_iff _ _)).
    2: { rewrite !bool_decide_eq_false, !He. destruct (decide ("Deny" ∈ actions)); tauto. }
    change (Ok (filter (λ a, a ∈ seen) ["Deny"; "Warn"; "Audit"]) = Ok ordered). f_equal. etrans; [|exact (filter_sublist _ _ Hsub policy_actions_distinct)].
    apply filter_agree. intros a _. by rewrite He, Hp.
Qed.

(** ** What a policy or a binding matches *)

Module rule_counts.
Import admissionPolicyRuleSource.
Definition operations (r : t) : Z := len_list r.(Operations).
Definition apiGroups (r : t) : Z := len_list r.(APIGroups).
Definition apiVersions (r : t) : Z := len_list r.(APIVersions).
Definition resources (r : t) : Z := len_list r.(Resources).
Definition entries (r : t) : Z :=
  operations r + apiGroups r + apiVersions r + resources r + len_list r.(ResourceNames).
End rule_counts.

(** Nothing in the lists of a rule is missing or repeated. *)
Definition full_rule (r : admissionPolicyRuleSource) : Prop :=
  Forall (λ values, values ≠ [] ∧ NoDup values) [r.(admissionPolicyRuleSource.Operations);
    r.(admissionPolicyRuleSource.APIGroups); r.(admissionPolicyRuleSource.APIVersions); r.(admissionPolicyRuleSource.Resources)].

Lemma rule_values_distinct values : validAdmissionWebhookRuleValues values = true → NoDup values.
Proof.
  unfold validAdmissionWebhookRuleValues. destruct (distinct_values _ _ _ _) as [seen|] eqn:E; [|done].
  by apply distinct_values_Ok in E as (_ & Hn & _).
Qed.

Lemma operations_distinct operations :
  is_ok (validateAdmissionWebhookOperations operations) = true → NoDup operations.
Proof.
  unfold validateAdmissionWebhookOperations. destruct (distinct_values _ _ _ _) as [seen|] eqn:E; [|done].
  by apply distinct_values_Ok in E as (_ & Hn & _).
Qed.

Lemma summarizeAdmissionPolicyRule_Ok rule o g v r e :
  summarizeAdmissionPolicyRule rule = Ok (o, g, v, r, e) →
  full_rule rule ∧ (o, g, v, r, e) = (rule_counts.operations rule, rule_counts.apiGroups rule, rule_counts.apiVersions rule,
    rule_counts.resources rule, rule_counts.entries rule).
Proof.
  destruct rule as [operations apiGroups apiVersions resources names scope]. unfold summarizeAdmissionPolicyRule.
  intros (? & Hl%reject_if_Ok & (? & Ho%reject_invalid_Ok%operations_distinct & (? & Hv%reject_invalid_Ok & (? & _ & [= <- <- <- <- <-])
    %bind_Ok)%bind_Ok)%bind_Ok)%bind_Ok.
  split; [|done]. cbn in Hl. rewrite !orb_false_iff, !bool_decide_eq_false in Hl.
  unfold valid_policy_values in Hv. rewrite !andb_true_iff in Hv. unfold full_rule. cbn.
  destruct Hv as [[[[Hg _] _] [[Hv _] _]] [[Hr _] _]]. apply rule_values_distinct in Hg, Hv, Hr.
  rewrite !Forall_cons. naive_solver.
Qed.

Lemma summarize_policy_rules_Ok rules o g v r e o' g' v' r' e' :
  summarize_policy_rules rules o g v r e = Ok (o', g', v', r', e') →
  Forall full_rule rules ∧ o' = o + sum_of rule_counts.operations rules ∧ g' = g + sum_of rule_counts.apiGroups rules ∧
  v' = v + sum_of rule_counts.apiVersions rules ∧ r' = r + sum_of rule_counts.resources rules ∧
  e' = e + sum_of rule_counts.entries rules ∧ (rules ≠ [] → e' ≤ 8192).
Proof.
  revert o g v r e. induction rules as [|rule rules IH]; intros o g v r e; cbn [summarize_policy_rules].
  { intros [= <- <- <- <- <-]. unfold sum_of. cbn. split_and!; try lia; [constructor|done]. }
  intros ([[[[o1 g1] v1] r1] e1] & [Hf [= -> -> -> -> ->]]%summarizeAdmissionPolicyRule_Ok & (? & Hm%reject_if_Ok%Z.ltb_ge & H)%bind_Ok)%bind_Ok.
  apply IH in H as (Hfs & -> & -> & -> & -> & -> & Hle). unfold maxAdmissionPolicyNestedEntries, sum_of in *. cbn.
  split_and!; try lia; [by constructor|]. intros _. destruct rules; [cbn in *; lia|]. specialize (Hle ltac:(done)). lia.
Qed.

Lemma policy_Ok source absent allowed invalid value defaulted :
  policy source absent allowed invalid = Ok (value, defaulted) →
  value = default absent source ∧ value ∈ allowed ∧ (defaulted = true ↔ source = None).
Proof.
  unfold policy. intros (? & Hv%reject_invalid_Ok%bool_decide_eq_true & [= <- <-])%bind_Ok.
  by rewrite bool_decide_eq_true.
Qed.

Lemma optional_selector_Ok source labels expressions :
  optional_selector source = Ok (labels, expressions) →
  labels = from_option admissionSelector.labels 0 source ∧ expressions = from_option admissionSelector.expressions 0 source ∧
  labels ≤ 128 ∧ expressions ≤ 128.
Proof.
  destruct source as [s|]; cbn; [|by intros [= <- <-]]. unfold summarizeAdmissionPolicySelector, maxAdmissionPolicySelectorEntries.
  intros (? & Hl%reject_if_Ok & [= <- <-])%bind_Ok. apply orb_false_iff in Hl. rewrite !Z.ltb_ge in Hl. done.
Qed.

(** The summary of what a policy or a binding matches counts all of it: every rule,
    applied or excluded, and in them every operation, group, version and resource, none
    of which is missing from a rule or repeated in it; every label and expression of the
    selectors; and the entries are their total with the names of resources, at most 8192
    when there are rules. A policy cannot be without rules, and what is left out is shown
    as not configured. *)
Theorem summarizeAdmissionPolicyMatch_counts source required summary entries :
  summarizeAdmissionPolicyMatch source required = Ok (summary, entries) →
  match source with
  | None => required = false ∧ summary.(KubernetesAdmissionMatchSummary.Configured) = false ∧ entries = 0
  | Some m =>
      let rules := m.(admissionPolicyMatchResourcesSource.ResourceRules) ++ m.(admissionPolicyMatchResourcesSource.ExcludeResourceRules) in
      summary.(KubernetesAdmissionMatchSummary.Configured) = true ∧
      (required = true → 1 ≤ summary.(KubernetesAdmissionMatchSummary.ResourceRuleCount)) ∧
      summary.(KubernetesAdmissionMatchSummary.ResourceRuleCount) = len_list m.(admissionPolicyMatchResourcesSource.ResourceRules) ∧
      summary.(KubernetesAdmissionMatchSummary.ExcludeResourceRuleCount) = len_list m.(admissionPolicyMatchResourcesSource.ExcludeResourceRules) ∧
      summary.(KubernetesAdmissionMatchSummary.OperationCount) = sum_of rule_counts.operations rules ∧
      summary.(KubernetesAdmissionMatchSummary.APIGroupCount) = sum_of rule_counts.apiGroups rules ∧
      summary.(KubernetesAdmissionMatchSummary.APIVersionCount) = sum_of rule_counts.apiVersions rules ∧
      summary.(KubernetesAdmissionMatchSummary.ResourceCount) = sum_of rule_counts.resources rules ∧
      summary.(KubernetesAdmissionMatchSummary.NamespaceSelectorLabelCount) =
        from_option admissionSelector.labels 0 m.(admissionPolicyMatchResourcesSource.NamespaceSelector) ∧
      summary.(KubernetesAdmissionMatchSummary.NamespaceSelectorExpressionCount) =
        from_option admissionSelector.expressions 0 m.(admissionPolicyMatchResourcesSource.NamespaceSelector) ∧
      summary.(KubernetesAdmissionMatchSummary.ObjectSelectorLabelCount) =
        from_option admissionSelector.labels 0 m.(admissionPolicyMatchResourcesSource.ObjectSelector) ∧
      summary.(KubernetesAdmissionMatchSummary.ObjectSelectorExpressionCount) =
        from_option admissionSelector.expressions 0 m.(admissionPolicyMatchResourcesSource.ObjectSelector) ∧
      entries = len_list rules + sum_of rule_counts.entries rules +
        summary.(KubernetesAdmissionMatchSummary.NamespaceSelectorLabelCount) +
        summary.(KubernetesAdmissionMatchSummary.NamespaceSelectorExpressionCount) +
        summary.(KubernetesAdmissionMatchSummary.ObjectSelectorLabelCount) +
        summary.(KubernetesAdmissionMatchSummary.ObjectSelectorExpressionCount) ∧
      (rules ≠ [] → entries ≤ 8192) ∧ Forall full_rule rules ∧
      summary.(KubernetesAdmissionMatchSummary.MatchPolicy) ∈ ["Equivalent"; "Exact"] ∧
      (summary.(KubernetesAdmissionMatchSummary.MatchPolicyDefaulted) = true ↔ m.(admissionPolicyMatchResourcesSource.MatchPolicy) = None)
  end.
Proof.
  destruct source as [[ns os rules excluded mp]|]; [|by destruct required; [|intros [= <- <-]]].
  unfold summarizeAdmissionPolicyMatch.
  intros (? & Hl%reject_if_Ok & ([policy' defaulted] & (_ & Hp & Hd)%policy_Ok & ([nl ne] & (-> & -> & _)%optional_selector_Ok &
    ([ol oe] & (-> & -> & _)%optional_selector_Ok & ([[[[o g] v] r] e] & Hr & [= <- <-])%bind_Ok)%bind_Ok)%bind_Ok)%bind_Ok)%bind_Ok.
  apply summarize_policy_rules_Ok in Hr as (Hf & -> & -> & -> & -> & -> & Hle). cbn -[sum_of].
  apply orb_false_iff in Hl as [_ Hreq]. unfold len_list in *. rewrite length_app.
  split_and!; try done; try lia.
  intros ->. cbn in Hreq. apply bool_decide_eq_false in Hreq. destruct rules; [done|]. cbn. lia.
Qed.

Definition example_match : admissionPolicyMatchResourcesSource :=
  admissionPolicyMatchResourcesSource.mk (Some (admissionSelector.mk {[ "team" := "web" ]} [])) None
    [admissionPolicyRuleSource.mk ["CREATE"; "UPDATE"] ["apps"] ["v1"] ["deployments"; "statefulsets"] [] (Some "Namespaced")]
    [admissionPolicyRuleSource.mk ["*"] [""] ["v1"] ["pods"] [] None] None.

Lemma summarizeAdmissionPolicyMatch_counts_witness :
  ∃ summary entries, summarizeAdmissionPolicyMatch (Some example_match) true = Ok (summary, entries) ∧
    summary.(KubernetesAdmissionMatchSummary.OperationCount) = 3 ∧ entries = 13 ∧ entries ≤ 8192.
Proof.
  do 2 eexists. assert (summarizeAdmissionPolicyMatch (Some example_match) true = Ok (_, _)) as E by (vm_compute; reflexivity).
  split; [exact E|]. split; [reflexivity|]. split; [reflexivity|].
  destruct (summarizeAdmissionPolicyMatch_counts _ _ _ _ E) as (_ & _ & _ & _ & _ & _ & _ & _ & _ & _ & _ & _ & _ & Hle & _).
  apply Hle. discriminate.
Defined.

(** ** Webhooks: what a configuration says *)

(** What is shown of a webhook was checked, and what it leaves out is shown as its default. *)
Definition shown_webhook (kind : KubernetesAdmissionWebhookConfigurationKind) (w : KubernetesAdmissionWebhook) : Prop :=
  ValidateAdmissionWebhookConfigurationName w.(KubernetesAdmissionWebhook.Name) = Ok tt ∧
  (w.(KubernetesAdmissionWebhook.TargetType) = "url" ∨
   w.(KubernetesAdmissionWebhook.TargetType) = "service" ∧
   ValidateNamespace w.(KubernetesAdmissionWebhook.ServiceNamespace) = Ok tt ∧
   ValidateNamespace w.(KubernetesAdmissionWebhook.ServiceName) = Ok tt ∧
   1 ≤ w.(KubernetesAdmissionWebhook.ServicePort) ≤ 65535 ∧
   (w.(KubernetesAdmissionWebhook.ServicePortDefaulted) = true → w.(KubernetesAdmissionWebhook.ServicePort) = 443)) ∧
  w.(KubernetesAdmissionWebhook.FailurePolicy) ∈ ["Fail"; "Ignore"] ∧
  (w.(KubernetesAdmissionWebhook.FailurePolicyDefaulted) = true → w.(KubernetesAdmissionWebhook.FailurePolicy) = "Fail") ∧
  w.(KubernetesAdmissionWebhook.MatchPolicy) ∈ ["Equivalent"; "Exact"] ∧
  (w.(KubernetesAdmissionWebhook.MatchPolicyDefaulted) = true → w.(KubernetesAdmissionWebhook.MatchPolicy) = "Equivalent") ∧
  w.(KubernetesAdmissionWebhook.SideEffects) ∈ ["None"; "NoneOnDryRun"; "Some"; "Unknown"] ∧
  1 ≤ w.(KubernetesAdmissionWebhook.TimeoutSeconds) ≤ 30 ∧
  (w.(KubernetesAdmissionWebhook.TimeoutSecondsDefaulted) = true → w.(KubernetesAdmissionWebhook.TimeoutSeconds) = 10) ∧
  (if bool_decide (kind = AdmissionWebhookConfigurationValidating)
   then w.(KubernetesAdmissionWebhook.ReinvocationPolicy) = ""
   else w.(KubernetesAdmissionWebhook.ReinvocationPolicy) ∈ ["Never"; "IfNeeded"]) ∧
  w.(KubernetesAdmissionWebhook.AdmissionReviewVersions) ≠ [] ∧ NoDup w.(KubernetesAdmissionWebhook.AdmissionReviewVersions).

(** How many entries of a webhook are counted. *)
Definition webhook_entries (w : KubernetesAdmissionWebhook) : Z :=
  w.(KubernetesAdmissionWebhook.RuleCount) + w.(KubernetesAdmissionWebhook.OperationCount) +
  w.(KubernetesAdmissionWebhook.APIGroupCount) + w.(KubernetesAdmissionWebhook.APIVersionCount) +
  w.(KubernetesAdmissionWebhook.ResourceCount) + w.(KubernetesAdmissionWebhook.NamespaceSelectorLabelCount) +
  w.(KubernetesAdmissionWebhook.NamespaceSelectorExpressionCount) + w.(KubernetesAdmissionWebhook.ObjectSelectorLabelCount) +
  w.(KubernetesAdmissionWebhook.ObjectSelectorExpressionCount) + w.(KubernetesAdmissionWebhook.MatchConditionCount) +
  len_list w.(KubernetesAdmissionWebhook.AdmissionReviewVersions).

(** The same of its source. *)
Definition source_entries (w : admissionWebhookSource) : Z :=
  admissionWebhookSource.entries w + sum_of admissionWebhookRuleSource.values w.(admissionWebhookSource.Rules).

Lemma nested_entries_Ok webhooks total u :
  nested_entries webhooks total = Ok u → webhooks ≠ [] → total + sum_of source_entries webhooks ≤ 8192.
Proof.
  revert total. induction webhooks as [|w webhooks IH]; intros total; [done|]. cbn [nested_entries]. cbv zeta.
  intros (? & _ & (? & _ & (? & Hm%reject_if_Ok%Z.ltb_ge & H)%bind_Ok)%bind_Ok)%bind_Ok _.
  unfold maxAdmissionWebhookNestedEntries in Hm. unfold sum_of at 1. cbn. fold (sum_of source_entries webhooks).
  change (source_entries w) with (admissionWebhookSource.entries w + sum_of admissionWebhookRuleSource.values w.(admissionWebhookSource.Rules)).
  destruct webhooks as [|w' webhooks]; [cbn; lia|]. specialize (IH _ H ltac:(done)). lia.
Qed.

Lemma sum_of_split {A} (f g : A → Z) l : sum_of (λ a, f a + g a) l = sum_of f l + sum_of g l.
Proof. unfold sum_of. induction l; cbn; lia. Qed.

Lemma is_ok_Ok (r : result unit) : is_ok r = true → r = Ok tt.
Proof. by destruct r as [[]|]. Qed.

Lemma policy_default source absent allowed invalid value defaulted :
  policy source absent allowed invalid = Ok (value, defaulted) →
  value ∈ allowed ∧ (defaulted = true → value = absent).
Proof. intros (-> & Hv & Hd)%policy_Ok. split; [done|]. by intros ->%Hd. Qed.

Section webhooks_correct.
Context {parser : URLParser}.

Lemma decodeAdmissionWebhookTarget_Ok source target namespace name port defaulted :
  decodeAdmissionWebhookTarget source = Ok (target, namespace, name, port, defaulted) →
  target = "url" ∨ target = "service" ∧ ValidateNamespace namespace = Ok tt ∧ ValidateNamespace name = Ok tt ∧
    1 ≤ port ≤ 65535 ∧ (defaulted = true → port = 443).
Proof.
  unfold decodeAdmissionWebhookTarget.
  destruct (admissionWebhookSource.Service source) as [[[[ns nm] path] p]|], (admissionWebhookSource.URL source) as [raw|]; try done.
  - intros (? & Hv%reject_if_Ok & (? & Hp%reject_if_Ok & [= <- <- <- <- <-])%bind_Ok)%bind_Ok. right.
    rewrite !orb_false_iff, !negb_false_iff in Hv. destruct Hv as [[Hn%is_ok_Ok Hm%is_ok_Ok] _]. split_and!; try done.
    + destruct p as [p|]; cbn in *; [|by unfold defaultAdmissionWebhookServicePort].
      apply orb_false_iff in Hp. rewrite !Z.ltb_ge in Hp. lia.
    + destruct p as [p|]; cbn in *; [|by unfold defaultAdmissionWebhookServicePort].
      apply orb_false_iff in Hp. rewrite !Z.ltb_ge in Hp. lia.
    + by intros ->%bool_decide_eq_true.
  - intros (? & _ & (? & _ & [= <- <- <- <- <-])%bind_Ok)%bind_Ok. by left.
Qed.

Lemma decodeAdmissionWebhook_Ok kind source w :
  decodeAdmissionWebhook kind source = Ok w →
  shown_webhook kind w ∧ w.(KubernetesAdmissionWebhook.Name) = source.(admissionWebhookSource.Name) ∧
  webhook_entries w = source_entries source.
Proof.
  unfold decodeAdmissionWebhook.
  intros (? & Hname%reject_invalid_Ok%is_ok_Ok & ([[[[target ns] nm] port] pd] & Ht%decodeAdmissionWebhookTarget_Ok & H)%bind_Ok)%bind_Ok.
  apply bind_Ok in H as ([[[[[fp fd] [mp md]] se] [timeout td]] [rp rd]] & Hp & (? & Hr & ([[[o g] v] r] & Hs & [= <-])%bind_Ok)%bind_Ok).
  unfold validateAdmissionReviewVersions in Hr.
  apply bind_Ok in Hr as (? & [Hne%bool_decide_eq_false _]%reject_if_Ok%orb_false_iff & (? & (_ & Hnd & _)%distinct_values_Ok & _)%bind_Ok).
  unfold decodeAdmissionWebhookPolicies in Hp.
  apply bind_Ok in Hp as ([? ?] & Hf%policy_default & ([? ?] & Hm%policy_default & (? & _ & (? & Hse%reject_invalid_Ok%bool_decide_eq_true & Hp)
    %bind_Ok)%bind_Ok)%bind_Ok).
  apply bind_Ok in Hp as (? & Hto%reject_if_Ok & ([? ?] & Hre & [= <- <- <- <- <- <- <- <- <-])%bind_Ok).
  apply orb_false_iff in Hto. rewrite !Z.ltb_ge in Hto.
  unfold summarizeAdmissionWebhookRules in Hs. apply bind_Ok in Hs as (? & _ & [= <- <- <- <-]).
  split; [|split; [done|]].
  - unfold shown_webhook. cbn. split_and!; try done; try tauto; try lia.
    + by intros ->%bool_decide_eq_true.
    + case_bool_decide; [by apply bind_Ok in Hre as (? & _ & [= <- <-])|]. by apply policy_default in Hre as [? _].
  - unfold webhook_entries, source_entries, admissionWebhookSource.entries, admissionWebhookRuleSource.values. cbn -[sum_of].
    rewrite !sum_of_split. lia.
Qed.

Lemma decode_webhooks_Ok kind sources webhooks webhooks' :
  decode_webhooks kind sources webhooks = Ok webhooks' →
  Forall (shown_webhook kind) webhooks → NoDup (KubernetesAdmissionWebhook.Name <$> webhooks) →
  Forall (shown_webhook kind) webhooks' ∧ NoDup (KubernetesAdmissionWebhook.Name <$> webhooks') ∧
  len_list webhooks' = len_list webhooks + len_list sources ∧
  sum_of webhook_entries webhooks' = sum_of webhook_entries webhooks + sum_of source_entries sources.
Proof.
  revert webhooks. induction sources as [|source sources IH]; intros webhooks; cbn [decode_webhooks].
  { intros [= <-] Hf Hnd. split_and!; try done; unfold len_list, sum_of; cbn; lia. }
  intros (? & Hd%reject_if_Ok%bool_decide_eq_false & (w & (Hw & Hn & He)%decodeAdmissionWebhook_Ok & H)%bind_Ok)%bind_Ok Hf Hnd.
  apply IH in H as (Hf' & Hnd' & Hl & Hs).
  - split_and!; [done|done| |].
    + rewrite Hl. unfold len_list. rewrite length_app. cbn. lia.
    + rewrite Hs, sum_of_app. change (sum_of webhook_entries [w]) with (webhook_entries w + 0).
      change (sum_of source_entries (source :: sources)) with (source_entries source + sum_of source_entries sources). lia.
  - apply Forall_app. split; [done|by constructor].
  - rewrite fmap_app. apply NoDup_app. split_and!; [done| |apply NoDup_singleton].
    intros key Hx Ha%list_elem_of_singleton. subst key. by rewrite Hn in Hx.
Qed.

(** C36: What is shown of a configuration of webhooks is complete and checked: it is the one
    that was asked for, with all of its webhooks, between 1 and 64 and each by a name of
    its own; the target of each is an address or a service with a port, its policies are
    among those that exist and are the default ones where they are marked so, a webhook
    that validates is not reinvoked; and all its counts together keep the limit of 8192
    entries. *)
Theorem decodeAdmissionWebhookConfiguration_shows payload kind name d :
  decodeAdmissionWebhookConfiguration payload kind name = Ok d →
  let configuration := d.(KubernetesAdmissionWebhookConfigurationDetail.KubernetesAdmissionWebhookConfiguration) in
  let webhooks := d.(KubernetesAdmissionWebhookConfigurationDetail.Webhooks) in
  configuration.(KubernetesAdmissionWebhookConfiguration.Name) = name ∧
  configuration.(KubernetesAdmissionWebhookConfiguration.Kind) = kind ∧
  d.(KubernetesAdmissionWebhookConfigurationDetail.WebhookCount) = len_list webhooks ∧ 1 ≤ len_list webhooks ≤ 64 ∧
  NoDup (KubernetesAdmissionWebhook.Name <$> webhooks) ∧ Forall (shown_webhook kind) webhooks ∧
  len_list webhooks + sum_of webhook_entries webhooks ≤ 8192.
Proof.
  unfold decodeAdmissionWebhookConfiguration. intros ([objectKind ?] & _ & ([v k metadata sources] & _ & Hd)%bind_Ok)%bind_Ok.
  cbv beta iota zeta in Hd. apply bind_Ok in Hd as (? & Hid%reject_if_Ok & (? & Hl%reject_if_Ok & (? & He & (webhooks & Hw & [= <-])
    %bind_Ok)%bind_Ok)%bind_Ok).
  apply orb_false_iff in Hid as [[Hname _]%negb_false_iff%is_cluster_object_name _].
  apply orb_false_iff in Hl as [Hne%bool_decide_eq_false Hl%Z.ltb_ge]. unfold maxAdmissionWebhooks in Hl.
  apply (nested_entries_Ok _ _ _) in He; [|done].
  apply decode_webhooks_Ok in Hw as (Hf & Hn & Hlen & Hs); [|constructor|constructor].
  change (sum_of webhook_entries []) with 0 in Hs. change (len_list []) with 0 in Hlen.
  assert (1 ≤ len_list sources) by (destruct sources; [done|]; unfold len_list; cbn; lia).
  cbn -[sum_of]. split_and!; try done; lia.
Qed.
End webhooks_correct.

#[local] Instance plain_urls : URLParser := {| ParseRequestURI := plain_url; ParseURL := plain_url |}.

Definition example_webhooks : string := Marshal (Object [("apiVersion", text "admissionregistration.k8s.io/v1");
  ("kind", text "ValidatingWebhookConfiguration");
  ("metadata", object [("name", text "policies"); ("generation", ("", Number "2"));
    ("creationTimestamp", text "2025-06-01T08:30:00Z")]);
  ("webhooks", ("", Array [object [("name", text "images.example.com");
    ("clientConfig", object [("service", object [("namespace", text "guard"); ("name", text "hook")]); ("caBundle", text "TFMwdA==")]);
    ("rules", ("", Array [object [("operations", ("", Array [("", Str "CREATE")])); ("apiGroups", ("", Array [("", Str "")]));
      ("apiVersions", ("", Array [("", Str "v1")])); ("resources", ("", Array [("", Str "pods")]))]]));
    ("sideEffects", text "None"); ("admissionReviewVersions", ("", Array [("", Str "v1")]))]]))]).

Lemma decodeAdmissionWebhookConfiguration_shows_witness :
  ∃ d, decodeAdmissionWebhookConfiguration example_webhooks AdmissionWebhookConfigurationValidating "policies" = Ok d ∧
    KubernetesAdmissionWebhook.ServicePort <$> d.(KubernetesAdmissionWebhookConfigurationDetail.Webhooks) = [443] ∧
    Forall (shown_webhook AdmissionWebhookConfigurationValidating) d.(KubernetesAdmissionWebhookConfigurationDetail.Webhooks).
Proof.
  eexists. assert (decodeAdmissionWebhookConfiguration example_webhooks AdmissionWebhookConfigurationValidating "policies" = Ok _)
    as E by (vm_compute; reflexivity).
  split; [exact E|]. split; [reflexivity|].
  destruct (decodeAdmissionWebhookConfiguration_shows _ _ _ _ E) as (_ & _ & _ & _ & _ & Hf & _). exact Hf.
Defined.

(** [url.ParseRequestURI] does not look for a fragment, so a parser of its kind reports
    none, and the check of the fragment refuses nothing: what follows a number sign stays
    in the address that is accepted. *)
Lemma fragment_never_refused {parser : URLParser} raw allowPath u :
  (∀ raw u, ParseRequestURI raw = Some u → u.(URL.Fragment) = "") →
  validateHTTPSURL raw allowPath = Ok u ↔
  ParseRequestURI (TrimSpace raw) = Some u ∧ u.(URL.Scheme) = "https" ∧ u.(URL.Host) ≠ "" ∧ u.(URL.HasUser) = false ∧
  u.(URL.RawQuery) = "" ∧ (allowPath = true ∨ u.(URL.Path) = "" ∨ u.(URL.Path) = "/").
Proof.
  intros Hf. rewrite validateHTTPSURL_Ok. split; [naive_solver|].
  intros (Hp & ? & ? & ? & ? & ?). split_and!; try done. by eapply Hf.
Qed.

(** ** Policies and bindings: what a detail says *)

Lemma validateAdmissionPolicyIdentity_Ok apiVersion kind metadata spec name u :
  validateAdmissionPolicyIdentity apiVersion kind metadata spec name = Ok u →
  ValidateAdmissionPolicyResourceName name = Ok tt ∧ 1 ≤ metadata.(sourceMetadata.Generation).
Proof.
  unfold validateAdmissionPolicyIdentity. intros H%reject_if_Ok%orb_false_iff.
  destruct H as [[_ Hn%is_ok_Ok]%negb_false_iff%is_cluster_object_name Hg%Z.ltb_ge]. done.
Qed.

(** A policy that is shown does something, and its state is not of the future. *)
Lemma decodeValidatingAdmissionPolicy_Ok payload name d :
  decodeValidatingAdmissionPolicy payload name = Ok d →
  ValidateAdmissionPolicyResourceName name = Ok tt ∧
  d.(KubernetesValidatingAdmissionPolicyDetail.KubernetesAdmissionPolicyResource).(KubernetesAdmissionPolicyResource.Name) = name ∧
  1 ≤ d.(KubernetesValidatingAdmissionPolicyDetail.ValidationCount) + d.(KubernetesValidatingAdmissionPolicyDetail.AuditAnnotationCount) ∧
  0 ≤ d.(KubernetesValidatingAdmissionPolicyDetail.ObservedGeneration) ≤ d.(KubernetesValidatingAdmissionPolicyDetail.Generation) ∧
  d.(KubernetesValidatingAdmissionPolicyDetail.FailurePolicy) ∈ ["Fail"; "Ignore"].
Proof.
  unfold decodeValidatingAdmissionPolicy.
  intros ([v k metadata [pk mc vals fp ann conds vars] og tc cs] & _ & Hd)%bind_Ok. cbv zeta in Hd.
  apply bind_Ok in Hd as (? & [Hn _]%validateAdmissionPolicyIdentity_Ok & (? & Hl%reject_if_Ok & Hd)%bind_Ok).
  apply bind_Ok in Hd as ([summary entries] & _ & (? & _ & (? & Hg%reject_if_Ok & ([fp' fd] & Hp%policy_default & (? & _ & H)%bind_Ok)%bind_Ok)%bind_Ok)%bind_Ok).
  destruct (default ("", "") pk) as [pv pkn]. injection H as <-. cbn.
  apply orb_false_iff in Hg. rewrite !Z.ltb_ge in Hg. apply orb_false_iff in Hl as [_ Hl].
  split_and!; try done; try tauto; try lia. apply andb_false_iff in Hl. rewrite !bool_decide_eq_false in Hl.
  unfold len_list. destruct vals, ann; cbn; try lia. by destruct Hl.
Qed.

(** ** The lists and objects: bounds *)

Lemma AdmissionWebhookConfigurations_safe token kind :
  safe reading 4 (AdmissionWebhookConfigurations token kind)
    (if_ok (listed 1000 KubernetesAdmissionWebhookConfiguration.Name (λ c,
       c.(KubernetesAdmissionWebhookConfiguration.Kind) = kind ∧
       ValidateAdmissionWebhookConfigurationName c.(KubernetesAdmissionWebhookConfiguration.Name) = Ok tt))).
Proof.
  unfold AdmissionWebhookConfigurations. apply safe_check. intros _ _. change (4%nat) with (0 + 4)%nat.
  eapply (safe_or_return reading 0 4 _ _ (λ p, plainb p.2 = true)).
  { apply safe_Done. unfold admissionWebhookSpec. by repeat case_bool_decide. }
  intros [o path] Hpath. apply (listed_pages_safe token webhook_pager); [done| |done..].
  apply objects_page_keeps, new_items_keeps. by intros raw a (n & c & -> & Hn)%named_item_spec.
Qed.

Lemma AdmissionWebhookConfiguration_safe {parser : URLParser} token kind name :
  safe reading 1 (AdmissionWebhookConfiguration token kind name) (if_ok (λ _, True)).
Proof.
  unfold AdmissionWebhookConfiguration. apply safe_check. intros _ _. apply safe_check.
  intros [] Hn%guard_Ok%negb_false_iff%validDNSSubdomain_safe. change (1%nat) with (0 + 1)%nat.
  eapply (safe_or_return reading 0 1 _ _ (λ p, plainb p.2 = true)).
  { apply safe_Done. unfold admissionWebhookSpec. by repeat case_bool_decide. }
  intros [o path] Hpath%plainb_spec. change (1%nat) with (1 + 0)%nat.
  eapply (safe_or_return reading 1 0).
  - apply getPayload_safe; [done|]. by apply reading_get, plain_under.
  - intros [payload b] _. apply safe_Done. by destruct (decodeAdmissionWebhookConfiguration _ _ _).
Qed.

Lemma listAdmissionPolicyResources_safe token kind :
  safe reading 4 (listAdmissionPolicyResources token (admissionPolicySpec kind))
    (if_ok (listed 1000 KubernetesAdmissionPolicyResource.Name (λ c,
       c.(KubernetesAdmissionPolicyResource.Kind) = (admissionPolicySpec kind).(admissionPolicyResourceSpec.kind) ∧
       ValidateAdmissionPolicyResourceName c.(KubernetesAdmissionPolicyResource.Name) = Ok tt))).
Proof.
  unfold listAdmissionPolicyResources. apply (listed_pages_safe token policy_pager); [done| |done|].
  - apply objects_page_keeps, new_items_keeps. by intros raw a (n & c & -> & Hn)%named_item_spec.
  - unfold admissionPolicySpec. by case_bool_decide.
Qed.

Lemma admission_object_safe {A} token path (decode : string → string → result A) name :
  plainb path = true →
  safe reading 1 (one_object token ValidateAdmissionPolicyResourceName path admissionPolicyMaxDetailBytes decode name)
    (if_ok (λ _, True)).
Proof.
  intros Hp%plainb_spec. apply one_object_safe; [|done|done|done].
  intros n Hn%guard_Ok%negb_false_iff. by apply validDNSSubdomain_safe.
Qed.
