(* ===== verification/Diagnostics.v ===== *)
(** * Diagnostics of an API server (src/internal/kubernetes)

    What is read of the server itself: its readiness, as the text of its checks
    (api_server_readiness.go), the certificate of its endpoint (endpoint_certificate.go),
    and the deprecated APIs that were asked for, as the text of its metrics
    (deprecated_api.go). *)

From S2P Require Export Paging VersionSkew.

Local Open Scope Z_scope.
Local Open Scope stdpp_scope.
Local Open Scope fetch_scope.

(** ** Lines of a text

    [bufio.Scanner] with its buffer of [maxBytes + 1] bytes: a line, without the line feed
    that ends it and a carriage return before that; one of more than [maxBytes] bytes does
    not fit and ends the scan with an error. An empty last line is none. *)

Definition newline : ascii := "010".
Definition carriage_return : string := String "013" "".

Definition raw_lines (payload : string) : list string :=
  let parts := GoText.Split payload newline in
  match reverse parts with
  | EmptyString :: rest => reverse rest
  | _ => parts
  end.

Definition drop_cr (line : string) : string := TrimSuffix line carriage_return.

(** [for scanner.Scan() { step }] with the error of the scanner after it. *)
Fixpoint scan_lines {S} (maxBytes : Z) (scanError : error) (step : string → S → result S) (lines : list string) (s : S) :
    result S :=
  match lines with
  | [] => Ok s
  | line :: lines =>
      if maxBytes <? len line then Err scanError
      else s ← step (drop_cr line) s; scan_lines maxBytes scanError step lines s
  end.

(** ** Readiness (api_server_readiness.go) *)

Definition apiServerReadinessMaxResponseBytes : Z := 64 * 1024.
Definition apiServerReadinessMaxLineBytes : Z := 8 * 1024.
Definition apiServerReadinessMaxChecks : Z := 256.
Definition apiServerReadinessMaxNameBytes : Z := 253.

Definition apiServerReadinessStatusError (statusCode : Z) : result unit :=
  if (statusCode =? 200) || (statusCode =? 500) then Ok tt
  else Err (if statusCode =? 401 then Errorf "Kubernetes authentication rejected: " ErrUnauthorized
            else if statusCode =? 403 then Errorf "Kubernetes authorization rejected: " ErrForbidden
            else if statusCode =? 404 then Errorf "Kubernetes resource unavailable: " ErrNotFound
            else Errorf ("Kubernetes returned HTTP " +:+ FormatInt statusCode +:+ ": ") ErrUpstream).

(** Whether the line is the summary, and what it says. *)
Definition apiServerReadinessSummary (line : string) : option bool :=
  if bool_decide (line = "readyz check passed") || bool_decide (line = "healthz check passed") then Some true
  else if bool_decide (line = "readyz check failed") || bool_decide (line = "healthz check failed") then Some false
  else None.

Definition check_byte (c : ascii) : bool :=
  is_lower c || is_upper c || is_digit c || bool_decide (c ∈ ["."; "_"; "-"; "/"; ":"]%char).

Definition validAPIServerReadinessCheckName (name : string) : bool :=
  if bool_decide (name = "") || (apiServerReadinessMaxNameBytes <? len name) then false
  else all_bytes check_byte name &&
       forallb (λ segment, negb (bool_decide (segment ∈ [""; "."; ".."]))) (GoText.Split name "/").

Definition parseAPIServerReadinessCheck (line : string) : option KubernetesAPIServerReadinessCheck :=
  if HasPrefix line "[+]" && HasSuffix line " ok" then
    let name := TrimSuffix (TrimPrefix line "[+]") " ok" in
    if validAPIServerReadinessCheckName name
    then Some (KubernetesAPIServerReadinessCheck.mk name APIServerReadinessCheckPassed) else None
  else if negb (HasPrefix line "[-]") then None
  else
    let remainder := TrimPrefix line "[-]" in
    match Index remainder " failed" with
    | None | Some O => None
    | Some n =>
        let name := take_bytes n remainder in
        let detail := drop_bytes (n + 7) remainder in
        if (negb (bool_decide (detail = "")) && negb (HasPrefix detail ":")) || negb (validAPIServerReadinessCheckName name)
        then None else Some (KubernetesAPIServerReadinessCheck.mk name APIServerReadinessCheckFailed)
    end.

(** One line: the checks so far, and the summary when it was found. *)
Definition readiness_line (line : string) (state : list KubernetesAPIServerReadinessCheck * option bool) :
    result (list KubernetesAPIServerReadinessCheck * option bool) :=
  let '(checks, summary) := state in
  let line := drop_cr line in
  match apiServerReadinessSummary line with
  | Some ready =>
      reject_if (bool_decide (is_Some summary)) (upstream "duplicate Kubernetes readiness summary") ;;
      Ok (checks, Some ready)
  | None =>
      check ← expect_ok (upstream "invalid Kubernetes readiness output") (parseAPIServerReadinessCheck line);
      reject_if (apiServerReadinessMaxChecks <=? len_list checks) (upstream "Kubernetes readiness checks exceeded safe limit") ;;
      reject_if (bool_decide (check.(KubernetesAPIServerReadinessCheck.Name) ∈ KubernetesAPIServerReadinessCheck.Name <$> checks))
        (upstream "duplicate Kubernetes readiness check") ;;
      Ok (checks ++ [check], summary)
  end.

Definition passed (check : KubernetesAPIServerReadinessCheck) : bool :=
  bool_decide (check.(KubernetesAPIServerReadinessCheck.Status) = APIServerReadinessCheckPassed).

Definition count_checks (f : KubernetesAPIServerReadinessCheck → bool) (checks : list KubernetesAPIServerReadinessCheck) : Z :=
  len_list (List.filter f checks).

Definition parseAPIServerReadiness (payload : string) (statusCode : Z) (observedAt : time) :
    result KubernetesAPIServerReadiness :=
  reject_if (negb (statusCode =? 200) && negb (statusCode =? 500)) (upstream "unsupported Kubernetes readiness status") ;;
  '(checks, summary) ← scan_lines apiServerReadinessMaxLineBytes (upstream "scan Kubernetes readiness output")
    readiness_line (raw_lines payload) ([], None);
  let passedChecks := count_checks passed checks in
  let failedChecks := count_checks (λ c, negb (passed c)) checks in
  let ready := statusCode =? 200 in
  reject_if (bool_decide (checks = []) || negb (bool_decide (summary = Some ready)) ||
             (ready && negb (failedChecks =? 0)) || (negb ready && (failedChecks =? 0)))
    (upstream "inconsistent Kubernetes readiness output") ;;
  Ok (KubernetesAPIServerReadiness.mk observedAt ready passedChecks failedChecks checks).

(** ** The certificate of the endpoint (endpoint_certificate.go) *)

Definition endpointCertificateMaxResponseBytes : Z := 64 * 1024.
Definition endpointCertificateExpiringWindow : duration := 30 * 24 * 3600 * second.
Definition endpointCertificateCriticalWindow : duration := 7 * 24 * 3600 * second.

Definition verifiedEndpointCertificateLeaf (state : option ConnectionState) : option Certificate :=
  match state with
  | Some (ConnectionState.mk true (Some leaf :: _) chains) =>
      if existsb (λ chain, match chain with
                           | Some c :: _ => bool_decide (c.(Certificate.Raw) = leaf.(Certificate.Raw))
                           | _ => false
                           end) chains
      then Some leaf else None
  | _ => None
  end.

Definition projectEndpointCertificate (certificate : Certificate) (observedAt : time) : KubernetesEndpointCertificate :=
  let remaining := Sub certificate.(Certificate.NotAfter) observedAt in
  let whole := Z.quot remaining second in
  let remainingSeconds := if (0 <? remaining) && negb (Z.rem remaining second =? 0) then whole + 1 else whole in
  let status :=
    if endpointCertificateExpiringWindow <? remaining then EndpointCertificateValid
    else if endpointCertificateCriticalWindow <? remaining then EndpointCertificateExpiring
    else if 0 <? remaining then EndpointCertificateCritical
    else EndpointCertificateExpired in
  KubernetesEndpointCertificate.mk observedAt certificate.(Certificate.NotBefore) certificate.(Certificate.NotAfter)
    remainingSeconds status.

Definition endpointCertificateStatusError (statusCode : Z) : result unit := status_error statusCode.

Section probes.
Context (token : string).

(** The query is the name [verbose] without a value. *)
Definition APIServerReadiness : fetch (result KubernetesAPIServerReadiness) :=
  o ← do (Request.mk "GET" "/readyz" (Some {[ "verbose" := "" ]}) (headers token "text/plain" "") "");
  match o with
  | Unsent err => Done (Err (Errorf "create Kubernetes request: " err))
  | Failed err => Done (Err (exchange_error err))
  | Answer status body broken _ =>
      apiServerReadinessStatusError status ;!
      '(payload, _) ←! Done (limited_payload apiServerReadinessMaxResponseBytes false body broken);
      t ← now;
      Done (parseAPIServerReadiness payload status t)
  end.

Definition EndpointCertificate : fetch (result KubernetesEndpointCertificate) :=
  o ← do (Request.mk "GET" "/version" None (headers token "application/json" "") "");
  match o with
  | Unsent err => Done (Err (Errorf "create Kubernetes request: " err))
  | Failed err => Done (Err (exchange_error err))
  | Answer status body broken tls =>
      endpointCertificateStatusError status ;!
      leaf ←! Done (expect_ok (upstream "Kubernetes endpoint certificate unavailable") (verifiedEndpointCertificateLeaf tls));
      observedAt ← now;
      limited_payload endpointCertificateMaxResponseBytes false body broken ;!
      Done (Ok (projectEndpointCertificate leaf observedAt))
  end.
End probes.

(** ** Deprecated APIs (deprecated_api.go)

    The parsers of the code move a position over the line; here they take what is left of
    the line and return what follows. *)

Definition deprecatedAPIMetricName : string := "apiserver_requested_deprecated_apis".
Definition deprecatedAPIMetricsAccept : string := "text/plain;version=0.0.4".
Definition deprecatedAPIMaxResponseBytes : Z := 8 * 1024 * 1024.
Definition deprecatedAPIMaxLineBytes : Z := 64 * 1024.
Definition deprecatedAPIMaxSamples : Z := 512.
Definition deprecatedAPIMaxLabelBytes : Z := 253.
Definition deprecatedAPIMetricLabelCount : nat := 5.
Definition deprecatedAPIMaxValueBytes : Z := 32.

Definition quote : ascii := "034".
Definition backslash : ascii := "092".
Definition tab : ascii := "009".
Definition is_space_or_tab (c : ascii) : bool := bool_decide (c = " "%char) || bool_decide (c = tab).
Definition blanks : string := String " " (String tab "").

Definition isLowerAlphaNumeric (c : ascii) : bool := is_lower c || is_digit c.
Definition isPrometheusMetricNameCharacter (c : ascii) : bool :=
  is_lower c || is_upper c || is_digit c || bool_decide (c ∈ ["_"; ":"]%char).
Definition isPrometheusLabelNameCharacter (c : ascii) (first : bool) : bool :=
  is_lower c || is_upper c || bool_decide (c = "_"%char) || (negb first && is_digit c).

Definition deprecated_labels : list string := ["group"; "version"; "resource"; "subresource"; "removed_release"].
Definition isDeprecatedAPIMetricLabel (name : string) : bool := bool_decide (name ∈ deprecated_labels).

Fixpoint skipPrometheusSpaces (rest : string) : string :=
  match rest with
  | String c r => if is_space_or_tab c then skipPrometheusSpaces r else rest
  | EmptyString => EmptyString
  end.

(** The name of a label, up to the first character that is none of a name. *)
Fixpoint label_name (first : bool) (rest : string) : string * string :=
  match rest with
  | String c r =>
      if isPrometheusLabelNameCharacter c first
      then let '(name, after) := label_name false r in (String c name, after) else ("", rest)
  | EmptyString => ("", "")
  end.

(** What an escaped character stands for. *)
Definition unescaped (c : ascii) : option ascii :=
  if bool_decide (c = backslash) || bool_decide (c = quote) then Some c
  else if bool_decide (c = "n"%char) then Some newline else None.

(** [value.WriteByte(c)], where the value has [length] bytes and [next] reads the others. *)
Definition write_byte (c : ascii) (length : Z) (next : result (string * string)) : result (string * string) :=
  reject_if (deprecatedAPIMaxLabelBytes <=? length) (upstream "Kubernetes deprecated API metric label exceeded safe limit") ;;
  '(value, after) ← next;
  Ok (String c value, after).

(** The value of a label after its first quote. *)
Fixpoint label_value (rest : string) (length : Z) : result (string * string) :=
  match rest with
  | EmptyString => Err (upstream "unterminated Kubernetes deprecated API metric label")
  | String character rest =>
      if bool_decide (character = quote) then Ok ("", rest)
      else if bool_decide (character = backslash) then
        match rest with
        | EmptyString => Err (upstream "invalid Kubernetes deprecated API metric escape")
        | String escaped rest =>
            match unescaped escaped with
            | None => Err (upstream "invalid Kubernetes deprecated API metric escape")
            | Some character => write_byte character length (label_value rest (length + 1))
            end
        end
      else write_byte character length (label_value rest (length + 1))
  end.

Definition parsePrometheusLabelValue (rest : string) : result (string * string) :=
  match rest with
  | String c rest =>
      if bool_decide (c = quote) then label_value rest 0
      else Err (upstream "invalid Kubernetes deprecated API metric label value")
  | EmptyString => Err (upstream "invalid Kubernetes deprecated API metric label value")
  end.

(** One label, from its name to the character that follows it; [next] reads the others. *)
Definition label_step (next : string → gmap string string → result (gmap string string * string))
    (rest : string) (labels : gmap string string) : result (gmap string string * string) :=
  let rest := skipPrometheusSpaces rest in
  reject_if (bool_decide (rest = "") || HasPrefix rest "}") (upstream "invalid Kubernetes deprecated API metric label set") ;;
  let '(name, rest) := label_name true rest in
  let rest := skipPrometheusSpaces rest in
  reject_if (bool_decide (name = "") || negb (HasPrefix rest "=")) (upstream "invalid Kubernetes deprecated API metric label") ;;
  reject_if (negb (isDeprecatedAPIMetricLabel name)) (upstream "unexpected Kubernetes deprecated API metric label") ;;
  reject_if (bool_decide (is_Some (labels !! name))) (upstream "duplicate Kubernetes deprecated API metric label") ;;
  '(value, rest) ← parsePrometheusLabelValue (skipPrometheusSpaces (drop_bytes 1 rest));
  let labels := <[name := value]> labels in
  match skipPrometheusSpaces rest with
  | EmptyString => Err (upstream "unterminated Kubernetes deprecated API metric")
  | String c rest =>
      let invalid := upstream "invalid Kubernetes deprecated API metric label separator" in
      if bool_decide (c = "}"%char) then Ok (labels, rest)
      else if bool_decide (c = ","%char) then
        let rest := skipPrometheusSpaces rest in
        reject_if (bool_decide (rest = "") || HasPrefix rest "}") invalid ;;
        next rest labels
      else Err invalid
  end.

(** The loop over the labels. Each is one of five and new, so that [fuel] need not be more
    than six. *)
Fixpoint label_set (fuel : nat) (rest : string) (labels : gmap string string) : result (gmap string string * string) :=
  match fuel with
  | O => Err (upstream "out of fuel")
  | S fuel => label_step (label_set fuel) rest labels
  end.

Definition parseDeprecatedAPILabelSet (rest : string) : result (gmap string string * string) :=
  match rest with
  | String "{" rest => label_set (S deprecatedAPIMetricLabelCount) rest ∅
  | _ => Err (upstream "invalid Kubernetes deprecated API metric label set")
  end.

Definition parseDeprecatedAPIRemovedRelease (value : string) : option (Z * Z) :=
  '(major, rest) ← number_dot value;
  '(minor, rest) ← parseVersionNumber rest;
  if bool_decide (rest = "") then Some (major, minor) else None.

Definition validDeprecatedAPIResourceName (value : string) (allowEmpty : bool) : bool :=
  if bool_decide (value = "") then allowEmpty else
  if 63 <? len value then false else
  let ends_well s := match s with String c _ => isLowerAlphaNumeric c | EmptyString => false end in
  ends_well value && ends_well (string_rev value) &&
  all_bytes (λ c, isLowerAlphaNumeric c || bool_decide (c = "-"%char)) value.

(** A sign at the start of a number: whether it is a minus, and what follows. *)
Definition sign (value : string) : bool * string :=
  match value with
  | String "+" rest => (false, rest)
  | String "-" rest => (true, rest)
  | _ => (false, value)
  end.

(** The exponent of a number, 0 where there is none. *)
Definition exponent (rest : string) : option Z :=
  match rest with
  | EmptyString => Some 0
  | String c rest =>
      if bool_decide (c = "e"%char) || bool_decide (c = "E"%char) then
        let '(negative, rest) := sign rest in
        let '(number, rest) := Json.digits rest in
        if bool_decide (number = "") || negb (bool_decide (rest = "")) then None
        else n ← digits_from 0 number; Some (if negative : bool then - n else n)
      else None
  end.

(** The comparison of [big.Rat] with one: [mantissa] times the power of ten of [exponent].
    A mantissa of at most 32 digits is no greater power. *)
Definition is_one (mantissa exponent : Z) : bool :=
  (exponent <=? 0) && (- deprecatedAPIMaxValueBytes <=? exponent) && (mantissa =? 10 ^ (- exponent)).

Definition validDeprecatedAPIMetricValue (value : string) : bool :=
  if bool_decide (value = "") || (deprecatedAPIMaxValueBytes <? len value) then false else
  let '(negative, rest) := sign value in
  let '(whole, rest) := Json.digits rest in
  let '(fraction, rest) := match rest with String "." rest => Json.digits rest | _ => ("", rest) end in
  if bool_decide (whole +:+ fraction = "") then false else
  match exponent rest, digits_from 0 (whole +:+ fraction) with
  | Some e, Some mantissa => negb negative && is_one mantissa (e - len fraction)
  | _, _ => false
  end.

(** A line of the metrics: [None] where it is about something else. *)
Definition parseDeprecatedAPIMetricLine (line : string) : result (option KubernetesDeprecatedAPIRequest) :=
  if negb (HasPrefix line deprecatedAPIMetricName) then
    if HasPrefix (TrimLeft line blanks) deprecatedAPIMetricName
    then Err (upstream "invalid Kubernetes deprecated API metric") else Ok None
  else
    let rest := TrimPrefix line deprecatedAPIMetricName in
    if match rest with String c _ => isPrometheusMetricNameCharacter c | EmptyString => false end then Ok None
    else
      '(labels, next) ← parseDeprecatedAPILabelSet rest;
      reject_if (negb match next with String c _ => is_space_or_tab c | EmptyString => false end ||
                 negb (validDeprecatedAPIMetricValue (Trim next blanks)))
        (upstream "invalid Kubernetes deprecated API metric value") ;;
      let label name := default "" (labels !! name) in
      let item := KubernetesDeprecatedAPIRequest.mk (label "group") (label "version") (label "resource") (label "subresource")
        (label "removed_release") in
      reject_if (negb (bool_decide (size labels = deprecatedAPIMetricLabelCount)) ||
                 negb (is_ok (ValidateAPIServiceName (label "version" +:+ "." +:+ label "group"))) ||
                 negb (validDeprecatedAPIResourceName (label "resource") false) ||
                 negb (validDeprecatedAPIResourceName (label "subresource") true))
        (upstream "invalid Kubernetes deprecated API metric labels") ;;
      reject_if (bool_decide (parseDeprecatedAPIRemovedRelease (label "removed_release") = None))
        (upstream "invalid Kubernetes deprecated API removal release") ;;
      Ok (Some item).

#[global] Instance request_eq_dec : EqDecision KubernetesDeprecatedAPIRequest.
Proof. solve_decision. Defined.

(** One line of the text: the requests so far. A request is the key by which it is
    compared. *)
Definition metric_line (line : string) (items : list KubernetesDeprecatedAPIRequest) :
    result (list KubernetesDeprecatedAPIRequest) :=
  relevant ← parseDeprecatedAPIMetricLine (drop_cr line);
  match relevant with
  | None => Ok items
  | Some item =>
      reject_if (deprecatedAPIMaxSamples <=? len_list items)
        (upstream "Kubernetes deprecated API metrics exceeded safe sample limit") ;;
      reject_if (bool_decide (item ∈ items)) (upstream "duplicate Kubernetes deprecated API metric") ;;
      Ok (items ++ [item])
  end.

Definition parseDeprecatedAPIMetrics (payload : string) : result (list KubernetesDeprecatedAPIRequest) :=
  scan_lines deprecatedAPIMaxLineBytes (upstream "scan Kubernetes deprecated API metrics") metric_line (raw_lines payload) [].

(** [parseDeprecatedAPIRemovedRelease(item.RemovedRelease)] of an item that was parsed. *)
Definition removed_release (item : KubernetesDeprecatedAPIRequest) : Z * Z :=
  default (0, 0) (parseDeprecatedAPIRemovedRelease item.(KubernetesDeprecatedAPIRequest.RemovedRelease)).

Definition request_less (a b : KubernetesDeprecatedAPIRequest) : bool :=
  if negb ((removed_release a).1 =? (removed_release b).1) then (removed_release a).1 <? (removed_release b).1
  else if negb ((removed_release a).2 =? (removed_release b).2) then (removed_release a).2 <? (removed_release b).2
  else if negb (bool_decide (a.(KubernetesDeprecatedAPIRequest.Group) = b.(KubernetesDeprecatedAPIRequest.Group)))
  then String.ltb a.(KubernetesDeprecatedAPIRequest.Group) b.(KubernetesDeprecatedAPIRequest.Group)
  else if negb (bool_decide (a.(KubernetesDeprecatedAPIRequest.Version) = b.(KubernetesDeprecatedAPIRequest.Version)))
  then String.ltb a.(KubernetesDeprecatedAPIRequest.Version) b.(KubernetesDeprecatedAPIRequest.Version)
  else if negb (bool_decide (a.(KubernetesDeprecatedAPIRequest.Resource) = b.(KubernetesDeprecatedAPIRequest.Resource)))
  then String.ltb a.(KubernetesDeprecatedAPIRequest.Resource) b.(KubernetesDeprecatedAPIRequest.Resource)
  else String.ltb a.(KubernetesDeprecatedAPIRequest.Subresource) b.(KubernetesDeprecatedAPIRequest.Subresource).

Definition DeprecatedAPIRequests (token : string) : fetch (result (list KubernetesDeprecatedAPIRequest)) :=
  '(payload, _) ←! getPayload token "/metrics" None deprecatedAPIMetricsAccept deprecatedAPIMaxResponseBytes false;
  items ←! Done (parseDeprecatedAPIMetrics payload);
  Done (Ok (sort_Slice request_less items)).

(** ** What is read of the readiness *)

Lemma readiness_line_keeps line checks summary checks' summary' :
  readiness_line line (checks, summary) = Ok (checks', summary') →
  NoDup (KubernetesAPIServerReadinessCheck.Name <$> checks) → len_list checks ≤ 256 →
  NoDup (KubernetesAPIServerReadinessCheck.Name <$> checks') ∧ len_list checks' ≤ 256.
Proof.
  unfold readiness_line. destruct (apiServerReadinessSummary _) as [ready|].
  { by intros (? & _ & [= <- <-])%bind_Ok. }
  intros (check & _ & (? & Hl%reject_if_Ok%Z.leb_gt & (? & Hd%reject_if_Ok%bool_decide_eq_false & [= <- <-])%bind_Ok)%bind_Ok)%bind_Ok Hn _.
  split; [|unfold apiServerReadinessMaxChecks, len_list in *; rewrite length_app; cbn; lia].
  rewrite fmap_app. apply NoDup_app. split_and!; [done| |apply NoDup_singleton].
  intros key Hx Ha%list_elem_of_singleton. by subst key.
Qed.

(** What every step of a scan keeps. *)
Lemma scan_lines_keeps {S} maxBytes e (step : string → S → result S) (I : S → Prop) lines s s' :
  (∀ line s s', I s → step line s = Ok s' → I s') → I s → scan_lines maxBytes e step lines s = Ok s' → I s'.
Proof.
  intros Hstep. revert s. induction lines as [|line lines IH]; intros s Hs; cbn; [by intros [= <-]|].
  destruct (maxBytes <? len line); [done|]. intros (s1 & H1 & H)%bind_Ok. by eapply IH, H; eapply Hstep.
Qed.

Lemma scan_lines_checks lines checks summary :
  scan_lines apiServerReadinessMaxLineBytes (upstream "scan Kubernetes readiness output") readiness_line lines ([], None) =
    Ok (checks, summary) →
  NoDup (KubernetesAPIServerReadinessCheck.Name <$> checks) ∧ len_list checks ≤ 256.
Proof.
  apply (scan_lines_keeps _ _ _ (λ s, NoDup (KubernetesAPIServerReadinessCheck.Name <$> s.1) ∧ len_list s.1 ≤ 256)).
  - intros line [c s] [c' s'] [Hn Hl] H. by eapply readiness_line_keeps.
  - split; [constructor|done].
Qed.

Lemma count_both (f : KubernetesAPIServerReadinessCheck → bool) checks :
  count_checks f checks + count_checks (λ c, negb (f c)) checks = len_list checks.
Proof. unfold count_checks, len_list. induction checks as [|c checks IH]; cbn; [done|]. destruct (f c); cbn; lia. Qed.

Lemma count_none (f : KubernetesAPIServerReadinessCheck → bool) checks :
  count_checks f checks = 0 ↔ ∀ c, c ∈ checks → f c = false.
Proof.
  unfold count_checks, len_list. induction checks as [|c checks IH]; cbn.
  { split; [|done]. intros _ c Hc. by apply elem_of_nil in Hc. }
  destruct (f c) eqn:E.
  - cbn. split; [lia|]. intros H. rewrite (H c) in E by by left. done.
  - rewrite IH. split; intros H; [by intros d [->|?]%elem_of_cons; [|apply H]|]. intros d Hd. apply H. by right.
Qed.


(** *** The report of a server reads back *)

Definition print_check (c : KubernetesAPIServerReadinessCheck) : string :=
  let '(KubernetesAPIServerReadinessCheck.mk name status) := c in
  if bool_decide (status = APIServerReadinessCheckPassed) then "[+]" +:+ name +:+ " ok"
  else "[-]" +:+ name +:+ " failed: reason withheld".

Definition print_lines (lines : list string) : string := foldr (λ line text, line +:+ String newline text) "" lines.

Definition print_readiness (checks : list KubernetesAPIServerReadinessCheck) : string :=
  print_lines ((print_check <$> checks) ++
    [if forallb passed checks then "readyz check passed" else "readyz check failed"]).

Lemma raw_lines_print lines :
  Forall (λ line, newline ∉ GoText.bytes line) lines → raw_lines (print_lines lines) = lines.
Proof.
  intros Hl. unfold raw_lines.
  assert (GoText.Split (print_lines lines) newline = lines ++ [""]) as ->.
  { induction Hl as [|line lines Hline Hl IH]; [done|]. cbn [print_lines foldr]. rewrite Split_app by done. cbn. f_equal. exact IH. }
  rewrite reverse_app. change (reverse [""]) with [""]. cbn [app]. by rewrite reverse_involutive.
Qed.

Lemma drop_cr_none line : HasSuffix line carriage_return = false → drop_cr line = line.
Proof.
  unfold HasSuffix, drop_cr, TrimSuffix, TrimPrefix, HasPrefix. intros H%bool_decide_eq_false.
  destruct (strip_prefix _ _) as [r|] eqn:E; [exfalso; apply H; by eexists|]. apply string_rev_involutive.
Qed.

(** A name of a check is short, and has neither a space nor a control character in it. *)
Lemma check_name_bytes name :
  validAPIServerReadinessCheckName name = true →
  name ≠ "" ∧ len name ≤ 253 ∧ all_bytes check_byte name = true.
Proof.
  unfold validAPIServerReadinessCheckName. destruct (bool_decide _ || _) eqn:E; [done|].
  apply orb_false_iff in E as [Hne%bool_decide_eq_false Hl%Z.ltb_ge]. by intros [? _]%andb_true_iff.
Qed.

Definition printed_check (c : KubernetesAPIServerReadinessCheck) : Prop :=
  validAPIServerReadinessCheckName c.(KubernetesAPIServerReadinessCheck.Name) = true ∧
  c.(KubernetesAPIServerReadinessCheck.Status) ∈ [APIServerReadinessCheckPassed; APIServerReadinessCheckFailed].

Lemma byte_not_in f s c : all_bytes f s = true → f c = false → c ∉ GoText.bytes s.
Proof. rewrite all_bytes_spec. intros Hs Hc Hin%Hs. congruence. Qed.

(** A line without control characters is one line, and nothing is trimmed off its end. *)
Definition plain_byte (c : ascii) : bool := 32 <=? byte c.

Lemma plain_line line : all_bytes plain_byte line = true → newline ∉ GoText.bytes line ∧ drop_cr line = line.
Proof.
  intros Hl. split; [by eapply byte_not_in|]. apply drop_cr_none, not_true_iff_false. intros (r & ->)%HasSuffix_spec.
  rewrite all_bytes_app in Hl. by apply andb_true_iff in Hl as [_ ?].
Qed.

(** The first space of a text is where it is expected. *)
Lemma Index_after_name name rest :
  all_bytes check_byte name = true → HasPrefix rest " failed" = true →
  Index (name +:+ rest) " failed" = Some (String.length name).
Proof.
  intros Hn Hr. induction name as [|c name IH].
  - rewrite app_empty_l. destruct rest; [done|]. cbn [Index]. by rewrite Hr.
  - cbn in Hn. apply andb_true_iff in Hn as [Hc Hn]. rewrite app_cons. cbn [Index].
    assert (HasPrefix (String c (name +:+ rest)) " failed" = false) as ->.
    { unfold HasPrefix. apply bool_decide_eq_false_2. cbn [strip_prefix]. rewrite bool_decide_eq_false_2; [by intros [? ?]|].
      intros <-. by vm_compute in Hc. }
    by rewrite IH.
Qed.

Lemma take_drop_bytes_app s t : take_bytes (String.length s) (s +:+ t) = s ∧ ∀ n, drop_bytes (String.length s + n) (s +:+ t) = drop_bytes n t.
Proof.
  induction s as [|c s [IH1 IH2]]; [split; [by destruct t|done]|]. rewrite app_cons. cbn. rewrite IH1. by split.
Qed.

Lemma parse_print_check c :
  printed_check c → apiServerReadinessSummary (print_check c) = None ∧ parseAPIServerReadinessCheck (print_check c) = Some c.
Proof.
  destruct c as [name status]. intros [Hname Hstatus]. cbn in Hname, Hstatus.
  pose proof (check_name_bytes _ Hname) as (Hne & Hl & Hb). unfold print_check, parseAPIServerReadinessCheck.
  case_bool_decide as Hs.
  - subst status. split; [done|]. rewrite (proj2 (HasPrefix_spec _ "[+]")) by by eexists.
    rewrite (proj2 (HasSuffix_spec _ " ok")).
    2: { exists ("[+]" +:+ name). by rewrite string_app_assoc. }
    cbn [andb]. rewrite TrimPrefix_app, TrimSuffix_app, Hname. done.
  - split; [done|]. cbn [andb].
    assert (HasPrefix ("[-]" +:+ name +:+ " failed: reason withheld") "[+]" = false) as -> by done. cbn [andb].
    rewrite (proj2 (HasPrefix_spec _ "[-]")) by by eexists. cbn [negb]. rewrite TrimPrefix_app.
    rewrite Index_after_name by done. destruct (String.length name) as [|n] eqn:En; [by destruct name|].
    rewrite <-En. destruct (take_drop_bytes_app name " failed: reason withheld") as [-> ->].
    change (drop_bytes 7 " failed: reason withheld") with ": reason withheld". rewrite Hname. cbn.
    do 2 f_equal. apply list_elem_of_In in Hstatus. cbn in Hstatus. destruct_or! Hstatus; done.
Qed.

Lemma print_check_plain c : printed_check c → all_bytes plain_byte (print_check c) = true ∧ len (print_check c) ≤ 8192.
Proof.
  destruct c as [name status]. intros [(Hne & Hl & Hb)%check_name_bytes _]. cbn in Hl, Hb.
  assert (all_bytes plain_byte name = true) as Hp by (eapply all_bytes_weaken, Hb; byte_implies).
  unfold print_check. case_bool_decide; rewrite !all_bytes_app, Hp, !len_app; (split; [done|]); unfold len in *; cbn; lia.
Qed.

Lemma readiness_scan checks acc summary :
  Forall printed_check checks → NoDup (KubernetesAPIServerReadinessCheck.Name <$> acc ++ checks) →
  len_list (acc ++ checks) ≤ 256 →
  scan_lines apiServerReadinessMaxLineBytes (upstream "scan Kubernetes readiness output") readiness_line
    ((print_check <$> checks) ++ [if summary : bool then "readyz check passed" else "readyz check failed"]) (acc, None) =
  Ok (acc ++ checks, Some summary).
Proof.
  intros Hf. revert acc. induction Hf as [|c checks Hc Hf IH]; intros acc Hn Hl.
  { rewrite app_nil_r. by destruct summary. }
  cbn [fmap list_fmap app scan_lines]. destruct (print_check_plain _ Hc) as [Hp Hlen].
  rewrite (proj2 (Z.ltb_ge _ _)) by (unfold apiServerReadinessMaxLineBytes; lia).
  destruct (plain_line _ Hp) as [_ Hcr]. rewrite Hcr.
  assert (readiness_line (print_check c) (acc, None) = Ok (acc ++ [c], None)) as ->.
  { unfold readiness_line. rewrite Hcr. destruct (parse_print_check _ Hc) as [-> ->]. cbn.
    rewrite (proj2 (Z.leb_gt _ _)).
    2: { unfold apiServerReadinessMaxChecks, len_list in *. rewrite length_app in Hl. cbn in Hl. lia. }
    rewrite bool_decide_eq_false_2; [done|].
    rewrite fmap_app in Hn. apply NoDup_app in Hn as (_ & Hd & _). intros Hin. apply (Hd _ Hin). cbn. by left. }
  specialize (IH (acc ++ [c])). rewrite <-app_assoc in IH. by apply IH.
Qed.

(** The report of a server reads back: what is shown for the text in which a server
    reports its checks, any of at most 256 by different valid names, is these checks, in
    their order, each passed or failed as reported, and the server is ready exactly when
    none failed. *)
Theorem readiness_roundtrip checks t :
  checks ≠ [] → len_list checks ≤ 256 → Forall printed_check checks →
  NoDup (KubernetesAPIServerReadinessCheck.Name <$> checks) →
  let ready := forallb passed checks in
  parseAPIServerReadiness (print_readiness checks) (if ready then 200 else 500) t =
    Ok (KubernetesAPIServerReadiness.mk t ready (count_checks passed checks)
          (count_checks (λ c, negb (passed c)) checks) checks).
Proof.
  intros Hne Hl Hf Hn. cbv zeta. unfold parseAPIServerReadiness, print_readiness. rewrite raw_lines_print.
  2: { apply Forall_app. split; [|constructor; [|done]].
       - apply Forall_fmap. eapply Forall_impl; [exact Hf|]. intros c [Hp _]%print_check_plain. by apply plain_line in Hp as [? _].
       - apply plain_line. by destruct (forallb passed checks). }
  rewrite (readiness_scan checks [] (forallb passed checks)) by done. cbn [app].
  assert (count_checks (λ c, negb (passed c)) checks = 0 ↔ forallb passed checks = true) as Hz.
  { rewrite count_none, forallb_forall. setoid_rewrite negb_false_iff. by setoid_rewrite list_elem_of_In. }
  destruct (forallb passed checks) eqn:Er; cbn.
  - rewrite bool_decide_eq_false_2 by done. rewrite (proj2 Hz) by done. done.
  - rewrite bool_decide_eq_false_2 by done. destruct (Z.eqb_spec (count_checks (λ c, negb (passed c)) checks) 0) as [E|E]; [|done].
    by apply Hz in E.
Qed.

Definition example_checks : list KubernetesAPIServerReadinessCheck :=
  [KubernetesAPIServerReadinessCheck.mk "ping" APIServerReadinessCheckPassed;
   KubernetesAPIServerReadinessCheck.mk "etcd-readiness" APIServerReadinessCheckFailed;
   KubernetesAPIServerReadinessCheck.mk "poststarthook/start-kube-apiserver" APIServerReadinessCheckPassed].

Lemma readiness_roundtrip_witness :
  parseAPIServerReadiness (print_readiness example_checks) 500 1000 =
    Ok (KubernetesAPIServerReadiness.mk 1000 false 2 1 example_checks).
Proof.
  apply (readiness_roundtrip example_checks 1000); [discriminate|vm_compute; discriminate| |].
  - repeat constructor; vm_compute; reflexivity.
  - apply (bool_decide_unpack _). vm_compute. reflexivity.
Defined.


(** ** What is shown of a certificate *)

(** Seconds are rounded up while the certificate is valid, and towards zero after that. *)
Lemma seconds_bounds n : 0 ≤ n → Z.quot n second * second ≤ n < Z.quot n second * second + second.
Proof.
  intros Hn. unfold second. rewrite Z.quot_div_nonneg by lia. pose proof (Z.mod_pos_bound n 1000000000 ltac:(lia)).
  pose proof (Z.div_mod n 1000000000 ltac:(lia)). lia.
Qed.

(** The time that is left, where it is not beyond the range of a duration. *)
Definition remaining (leaf : Certificate) (observedAt : time) : Z := leaf.(Certificate.NotAfter) - observedAt.


Definition example_leaf : Certificate := Certificate.mk "leaf" 0 (100 * 86400 * second).


(** Only a certificate that heads a verified chain of a completed handshake is shown. *)
Lemma verifiedEndpointCertificateLeaf_Some state leaf :
  verifiedEndpointCertificateLeaf state = Some leaf ↔
  ∃ peers chains, state = Some (ConnectionState.mk true (Some leaf :: peers) chains) ∧
    ∃ c chain, (Some c :: chain) ∈ chains ∧ c.(Certificate.Raw) = leaf.(Certificate.Raw).
Proof.
  unfold verifiedEndpointCertificateLeaf. split.
  - destruct state as [[[] [|[l|] peers] chains]|]; try done. destruct (existsb _ chains) eqn:E; [|done]. intros [= ->].
    exists peers, chains. split; [done|]. apply existsb_exists in E as ([|[c|] chain] & Hin & Hc); try done.
    exists c, chain. apply bool_decide_eq_true in Hc. split; [by apply list_elem_of_In|done].
  - intros (peers & chains & -> & c & chain & Hin & Hc). rewrite (proj2 (existsb_exists _ _)); [done|].
    exists (Some c :: chain). split; [by apply list_elem_of_In|by apply bool_decide_eq_true_2].
Qed.

(** ** The probes read once *)

Lemma limited_payload_bounded maxBytes body broken payload b :
  0 ≤ maxBytes → limited_payload maxBytes false body broken = Ok (payload, b) → len payload ≤ maxBytes.
Proof.
  intros Hm. unfold limited_payload. destruct (read_limited _ _ _) as [p|]; [|done].
  destruct (Z.ltb_spec maxBytes (len p)); [done|]. by intros [= <- _].
Qed.

Lemma APIServerReadiness_safe token :
  safe (λ r, r.(Request.Method) = "GET" ∧ r.(Request.Path) = "/readyz") 1 (APIServerReadiness token)
    (if_ok (λ r, ∃ payload status t, len payload ≤ 65536 ∧ parseAPIServerReadiness payload status t = Ok r)).
Proof.
  split; [done|]. intros [err|err|status body broken tls]; [done..|].
  cbn. destruct (apiServerReadinessStatusError status) as [[]|]; [|done]. cbn.
  destruct (limited_payload apiServerReadinessMaxResponseBytes false body broken) as [[payload b]|] eqn:Hp; [|done].
  cbn. intros t. destruct (parseAPIServerReadiness payload status t) as [r|] eqn:E; [|done].
  exists payload, status, t. split; [|done]. by apply limited_payload_bounded in Hp.
Qed.

Lemma EndpointCertificate_safe token :
  safe (λ r, r.(Request.Method) = "GET" ∧ r.(Request.Path) = "/version") 1 (EndpointCertificate token)
    (if_ok (λ shown, ∃ state leaf t, verifiedEndpointCertificateLeaf state = Some leaf ∧ shown = projectEndpointCertificate leaf t)).
Proof.
  split; [done|]. intros [err|err|status body broken tls]; [done..|].
  cbn. destruct (endpointCertificateStatusError status) as [[]|]; [|done]. cbn.
  destruct (verifiedEndpointCertificateLeaf tls) as [leaf|] eqn:Hl; [|done]. cbn. intros t.
  destruct (limited_payload _ _ _ _) as [?|]; [|done]. by exists tls, leaf, t.
Qed.

(** ** The fuel of the loop over labels *)

Lemma label_names_distinct : NoDup deprecated_labels.
Proof. by apply (bool_decide_unpack _). Qed.

(** Labels that are known, each of which can be there once. *)
Definition known_labels (labels : gmap string string) : Prop := ∀ n, is_Some (labels !! n) → n ∈ deprecated_labels.

(** Five labels are all there are. *)
Lemma all_labels_taken labels name :
  known_labels labels → (5 ≤ size labels)%nat → name ∈ deprecated_labels → is_Some (labels !! name).
Proof.
  intros Hsub Hsize Hname. apply elem_of_dom.
  assert (dom labels ≡ (list_to_set deprecated_labels : gset string)) as ->; [|by apply elem_of_list_to_set].
  apply set_subseteq_size_equiv.
  - intros n Hn%elem_of_dom. apply elem_of_list_to_set. by apply Hsub.
  - rewrite size_list_to_set by apply label_names_distinct. rewrite size_dom. done.
Qed.

Lemma known_labels_insert labels name value :
  known_labels labels → name ∈ deprecated_labels → known_labels (<[name := value]> labels).
Proof. intros Hk Hn n. destruct (decide (n = name)) as [->|Hne]; [done|]. rewrite lookup_insert_ne by done. apply Hk. Qed.

(** With one more round the loop does the same, once there are rounds for all labels that
    are left: the text alone ends it. *)
Lemma label_set_enough fuel rest labels :
  known_labels labels → (6 ≤ fuel + size labels)%nat → label_set (S fuel) rest labels = label_set fuel rest labels.
Proof.
  revert rest labels. induction fuel as [|fuel IH]; intros rest labels Hk Hsize.
  { pose proof (all_labels_taken labels) as Hall.
    assert (∀ n, n ∈ dom labels → n ∈ (list_to_set deprecated_labels : gset string)) as Hsub
      by (intros n Hn%elem_of_dom; apply elem_of_list_to_set, Hk, Hn).
    apply subseteq_size in Hsub. rewrite size_dom, size_list_to_set in Hsub by apply label_names_distinct. cbn in Hsub. lia. }
  change (label_step (label_set (S fuel)) rest labels = label_step (label_set fuel) rest labels). unfold label_step.
  destruct (reject_if (bool_decide (skipPrometheusSpaces rest = "") || _) _); [|done]. cbn [mbind result_bind].
  destruct (label_name true _) as [name rest1].
  destruct (reject_if (bool_decide (name = "") || _) _); [|done]. cbn [mbind result_bind].
  unfold isDeprecatedAPIMetricLabel.
  destruct (bool_decide (name ∈ deprecated_labels)) eqn:Hin; [|done]. apply bool_decide_eq_true in Hin.
  cbn [negb reject_if mbind result_bind].
  destruct (bool_decide (is_Some (labels !! name))) eqn:Hs; [done|]. apply bool_decide_eq_false in Hs.
  cbn [reject_if mbind result_bind].
  destruct (parsePrometheusLabelValue _) as [[value rest2]|]; [|done]. cbn [mbind result_bind].
  destruct (skipPrometheusSpaces rest2) as [|c rest3]; [done|]. case_bool_decide; [done|]. case_bool_decide; [|done].
  destruct (reject_if _ _); [|done]. cbn [mbind result_bind]. apply IH; [by apply known_labels_insert|].
  rewrite map_size_insert_None by by apply eq_None_not_Some. lia.
Qed.

(** ** Metrics read back *)

(** A value as it is written between quotes. *)
Fixpoint escape_label (value : string) : string :=
  match value with
  | EmptyString => ""
  | String c value =>
      if bool_decide (c = backslash) || bool_decide (c = quote) then String backslash (String c (escape_label value))
      else if bool_decide (c = newline) then String backslash (String "n" (escape_label value))
      else String c (escape_label value)
  end.

Definition label_text (name value rest : string) : string :=
  name +:+ String "=" (String quote (escape_label value +:+ String quote rest)).

(** A request as the server writes it, its labels in the order of their names. *)
Definition print_request (item : KubernetesDeprecatedAPIRequest) : string :=
  deprecatedAPIMetricName +:+ String "{"
    (label_text "group" item.(KubernetesDeprecatedAPIRequest.Group) (String ","
    (label_text "removed_release" item.(KubernetesDeprecatedAPIRequest.RemovedRelease) (String ","
    (label_text "resource" item.(KubernetesDeprecatedAPIRequest.Resource) (String ","
    (label_text "subresource" item.(KubernetesDeprecatedAPIRequest.Subresource) (String ","
    (label_text "version" item.(KubernetesDeprecatedAPIRequest.Version) "} 1"))))))))).

Definition texts (item : KubernetesDeprecatedAPIRequest) : list string :=
  [item.(KubernetesDeprecatedAPIRequest.Group); item.(KubernetesDeprecatedAPIRequest.Version);
   item.(KubernetesDeprecatedAPIRequest.Resource); item.(KubernetesDeprecatedAPIRequest.Subresource);
   item.(KubernetesDeprecatedAPIRequest.RemovedRelease)].

(** What the labels of a request have to be. *)
Definition readable (item : KubernetesDeprecatedAPIRequest) : Prop :=
  is_ok (ValidateAPIServiceName (item.(KubernetesDeprecatedAPIRequest.Version) +:+ "." +:+
    item.(KubernetesDeprecatedAPIRequest.Group))) = true ∧
  validDeprecatedAPIResourceName item.(KubernetesDeprecatedAPIRequest.Resource) false = true ∧
  validDeprecatedAPIResourceName item.(KubernetesDeprecatedAPIRequest.Subresource) true = true ∧
  parseDeprecatedAPIRemovedRelease item.(KubernetesDeprecatedAPIRequest.RemovedRelease) ≠ None ∧
  Forall (λ text, len text ≤ 253) (texts item).

Lemma len_cons c s : len (String c s) = 1 + len s.
Proof. unfold len. cbn. lia. Qed.

Lemma label_value_escape value rest length :
  0 ≤ length → length + len value ≤ 253 →
  label_value (escape_label value +:+ String quote rest) length = Ok (value, rest).
Proof.
  revert length. induction value as [|c value IH]; intros length H0 H; [done|]. rewrite len_cons in H.
  assert (write_byte c length (label_value (escape_label value +:+ String quote rest) (length + 1)) = Ok (String c value, rest)) as Hw.
  { unfold write_byte. rewrite (proj2 (Z.leb_gt _ _)).
    2: { unfold deprecatedAPIMaxLabelBytes. pose proof (len_nonneg value). lia. }
    cbn. rewrite IH by lia. done. }
  cbn [escape_label]. destruct (decide (c = backslash)) as [->|Hb]; [exact Hw|].
  destruct (decide (c = quote)) as [->|Hq]; [exact Hw|]. rewrite !bool_decide_eq_false_2 by done. cbn [orb].
  destruct (decide (c = newline)) as [->|Hn]; [exact Hw|]. rewrite bool_decide_eq_false_2 by done.
  rewrite app_cons. cbn [label_value]. rewrite !bool_decide_eq_false_2 by done. exact Hw.
Qed.

Lemma label_name_text name value rest :
  name ∈ deprecated_labels → label_name true (label_text name value rest) =
    (name, String "=" (String quote (escape_label value +:+ String quote rest))) ∧
  skipPrometheusSpaces (label_text name value rest) = label_text name value rest ∧
  HasPrefix (label_text name value rest) "}" = false ∧ name ≠ "" ∧ label_text name value rest ≠ "".
Proof. intros Hn%list_elem_of_In. cbn in Hn. destruct_or! Hn; try done; subst; done. Qed.

(** One label is read to the text that follows its value. *)
Lemma label_step_text next name value rest labels :
  name ∈ deprecated_labels → labels !! name = None → len value ≤ 253 →
  label_step next (label_text name value rest) labels =
    let labels := <[name := value]> labels in
    match skipPrometheusSpaces rest with
    | EmptyString => Err (upstream "unterminated Kubernetes deprecated API metric")
    | String c rest =>
        let invalid := upstream "invalid Kubernetes deprecated API metric label separator" in
        if bool_decide (c = "}"%char) then Ok (labels, rest)
        else if bool_decide (c = ","%char) then
          let rest := skipPrometheusSpaces rest in
          reject_if (bool_decide (rest = "") || HasPrefix rest "}") invalid ;;
          next rest labels
        else Err invalid
    end.
Proof.
  intros Hn Hl Hv. unfold label_step. destruct (label_name_text name value rest Hn) as (Hname & Hs & Hp & Hne & Ht).
  cbv zeta. rewrite Hs, Hp, Hname, (bool_decide_eq_false_2 _ Ht). cbn [orb reject_if mbind result_bind].
  rewrite (bool_decide_eq_false_2 _ Hne). cbn [skipPrometheusSpaces]. change (is_space_or_tab "=") with false. cbn [orb].
  match goal with |- context [HasPrefix (String "=" ?r) "="] => change (HasPrefix (String "=" r) "=") with true end.
  cbn [negb reject_if mbind result_bind]. unfold isDeprecatedAPIMetricLabel. rewrite (bool_decide_eq_true_2 _ Hn). cbn [negb reject_if].
  rewrite Hl. cbn [bool_decide decide_rel is_Some_dec reject_if mbind result_bind].
  change (drop_bytes 1 (String "=" ?r)) with r. cbn [drop_bytes skipPrometheusSpaces]. change (is_space_or_tab quote) with false. cbn.
  rewrite label_value_escape by lia. done.
Qed.

Lemma label_set_step fuel name value next labels :
  name ∈ deprecated_labels → labels !! name = None → len value ≤ 253 →
  skipPrometheusSpaces next = next → HasPrefix next "}" = false → next ≠ "" →
  label_set (S fuel) (label_text name value (String "," next)) labels = label_set fuel next (<[name := value]> labels).
Proof.
  intros Hn Hl Hv Hs Hp Hne. cbn [label_set]. rewrite label_step_text by done.
  change (skipPrometheusSpaces (String "," next)) with (String "," next). cbv iota zeta beta.
  change (bool_decide (","%char = "}"%char)) with false. change (bool_decide (","%char = ","%char)) with true. cbv iota.
  by rewrite Hs, Hp, (bool_decide_eq_false_2 _ Hne).
Qed.

Lemma label_set_last fuel name value rest labels :
  name ∈ deprecated_labels → labels !! name = None → len value ≤ 253 →
  label_set (S fuel) (label_text name value (String "}" rest)) labels = Ok (<[name := value]> labels, rest).
Proof. intros Hn Hl Hv. cbn [label_set]. by rewrite label_step_text. Qed.

Lemma known_label name : bool_decide (name ∈ deprecated_labels) = true → name ∈ deprecated_labels.
Proof. apply bool_decide_eq_true. Qed.

(** The line of a request is read as the request. *)
Lemma parse_print_request item : readable item → parseDeprecatedAPIMetricLine (print_request item) = Ok (Some item).
Proof.
  destruct item as [group version resource subresource release]. unfold readable, texts, print_request.
  cbn [KubernetesDeprecatedAPIRequest.Group KubernetesDeprecatedAPIRequest.Version KubernetesDeprecatedAPIRequest.Resource
    KubernetesDeprecatedAPIRequest.Subresource KubernetesDeprecatedAPIRequest.RemovedRelease].
  rewrite !Forall_cons. intros (Hv & Hr & Hs & Hm & Hg & Hlv & Hlr & Hls & Hlm & _).
  set (set_text := label_text "group" _ _). unfold parseDeprecatedAPIMetricLine.
  rewrite (proj2 (HasPrefix_spec _ deprecatedAPIMetricName)) by by eexists. cbn [negb]. rewrite TrimPrefix_app.
  change (isPrometheusMetricNameCharacter "{") with false. cbn [parseDeprecatedAPILabelSet].
  unfold deprecatedAPIMetricLabelCount, set_text. clear set_text.
  rewrite label_set_step; try done; try (by apply known_label).
  rewrite label_set_step; try done; try (by apply known_label).
  rewrite label_set_step; try done; try (by apply known_label).
  rewrite label_set_step; try done; try (by apply known_label).
  rewrite label_set_last; try done; try (by apply known_label).
  cbn [mbind result_bind]. match goal with |- context [reject_if ?b (upstream "invalid Kubernetes deprecated API metric value")] => change b with false end. cbn [reject_if mbind result_bind].
  set (labels := <["version" := version]> _).
  assert (size labels = 5%nat) as Hsize by (unfold labels; by rewrite !map_size_insert_None).
  rewrite Hsize. cbn [bool_decide decide_rel negb orb].
  assert (labels !! "group" = Some group ∧ labels !! "version" = Some version ∧ labels !! "resource" = Some resource ∧
    labels !! "subresource" = Some subresource ∧ labels !! "removed_release" = Some release) as (-> & -> & -> & -> & ->).
  { unfold labels. split_and!; by repeat (rewrite lookup_insert_eq || rewrite lookup_insert_ne by discriminate). }
  cbv beta zeta. cbn [default from_option id]. rewrite Hv, Hr, Hs. cbn. by rewrite bool_decide_eq_false_2.
Qed.

(** Other lines of the text: comments and other metrics. *)
Definition other_line (line : string) : Prop :=
  newline ∉ GoText.bytes line ∧ drop_cr (drop_cr line) = drop_cr line ∧ len line ≤ 65536 ∧
  HasPrefix (TrimLeft (drop_cr line) blanks) deprecatedAPIMetricName = false.

Lemma parse_other_line line : HasPrefix (TrimLeft line blanks) deprecatedAPIMetricName = false →
  parseDeprecatedAPIMetricLine line = Ok None.
Proof.
  intros H. unfold parseDeprecatedAPIMetricLine. rewrite H. destruct (HasPrefix line deprecatedAPIMetricName) eqn:Hp; [|done].
  apply HasPrefix_spec in Hp as [r ->]. exfalso. revert H. apply not_false_iff_true, HasPrefix_spec. by exists r.
Qed.

(** The text of metrics that has requests among its lines. *)
Definition print_metrics (entries : list (string + KubernetesDeprecatedAPIRequest)) : string :=
  print_lines ((λ entry, match entry with inl line => line | inr item => print_request item end) <$> entries).

Definition requests_of (entries : list (string + KubernetesDeprecatedAPIRequest)) : list KubernetesDeprecatedAPIRequest :=
  omap (λ entry, match entry with inl _ => None | inr item => Some item end) entries.

Definition printed_entry (entry : string + KubernetesDeprecatedAPIRequest) : Prop :=
  match entry with inl line => other_line line | inr item => readable item end.

Lemma label_text_app name value rest : label_text name value rest = label_text name value "" +:+ rest.
Proof. unfold label_text. by rewrite !string_app_assoc, !app_cons, !string_app_assoc, app_cons. Qed.

Definition no_newline (c : ascii) : bool := negb (bool_decide (c = newline)).

Lemma escape_label_line value : all_bytes no_newline (escape_label value) = true ∧ len (escape_label value) ≤ 2 * len value.
Proof.
  induction value as [|c value [IH1 IH2]]; [done|]. rewrite len_cons. cbn [escape_label].
  destruct (bool_decide (c = backslash) || _) eqn:E.
  - rewrite !len_cons. cbn [all_bytes]. rewrite IH1. split; [|lia]. apply orb_true_iff in E. rewrite !bool_decide_eq_true in E.
    by destruct E as [-> | ->].
  - clear E. case_bool_decide as Hn; rewrite !len_cons; cbn [all_bytes]; rewrite IH1; (split; [|lia]); [done|].
    unfold no_newline. by rewrite bool_decide_eq_false_2.
Qed.

(** One line of at most [n] bytes, with a digit at its end. *)
Definition one_line (n : Z) (s : string) : Prop := all_bytes no_newline s = true ∧ len s ≤ n ∧ ∃ r, s = r +:+ "1".

Lemma one_line_app n m s t : all_bytes no_newline s = true → len s ≤ m → one_line n t → one_line (m + n) (s +:+ t).
Proof.
  intros Hs Hm (Ht & Hn & r & ->). unfold one_line. rewrite all_bytes_app, Hs, Ht, len_app.
  split_and!; [done|lia|]. exists (s +:+ r). by rewrite string_app_assoc.
Qed.

Lemma label_text_line name value rest n :
  name ∈ deprecated_labels → len value ≤ 253 → one_line n rest → one_line (600 + n) (label_text name value rest).
Proof.
  intros Hn Hv Hr. rewrite label_text_app. destruct (escape_label_line value) as [He Hel]. apply one_line_app; [| |done].
  - unfold label_text. rewrite all_bytes_app. cbn [all_bytes]. rewrite all_bytes_app, He.
    apply list_elem_of_In in Hn. cbn in Hn. by destruct_or! Hn; subst.
  - unfold label_text. rewrite len_app, !len_cons, len_app, len_cons. change (len "") with 0.
    apply list_elem_of_In in Hn. cbn in Hn. destruct_or! Hn; try done; subst; unfold len in *; cbn; lia.
Qed.

Lemma print_request_line item : readable item → one_line 3100 (print_request item).
Proof.
  intros (_ & _ & _ & _ & Ht). unfold texts in Ht. rewrite !Forall_cons in Ht. destruct Ht as (Hg & Hv & Hr & Hs & Hm & _).
  unfold print_request. apply (one_line_app 3050 50); [done|vm_compute; discriminate|].
  apply (one_line_app 3040 10 "{"); [done|vm_compute; discriminate|].
  assert (∀ n t, one_line n t → one_line (1 + n) (String "," t)) as Hc by (intros n t; by apply (one_line_app n 1 ",")).
  assert (one_line 3 "} 1") as H0 by (split_and!; [done|vm_compute; discriminate|by exists "} "]).
  assert (∀ n m s, one_line n s → n ≤ m → one_line m s) as Hw by (intros n m s (? & ? & ?) ?; split_and!; [done|lia|done]).
  eapply Hw. 1: { repeat first [apply label_text_line; [by apply known_label|done|] | apply Hc | exact H0]. } done.
Qed.

Lemma one_line_plain n s : one_line n s → newline ∉ GoText.bytes s ∧ drop_cr s = s ∧ len s ≤ n.
Proof.
  intros (Hb & Hn & r & ->). split_and!; [by apply (byte_not_in no_newline)| |done].
  apply drop_cr_none, not_true_iff_false. intros (q & H)%HasSuffix_spec.
  apply (f_equal string_rev) in H. by rewrite !string_rev_app in H.
Qed.

Lemma metrics_scan entries items :
  Forall printed_entry entries → NoDup (items ++ requests_of entries) → len_list (items ++ requests_of entries) ≤ 512 →
  scan_lines deprecatedAPIMaxLineBytes (upstream "scan Kubernetes deprecated API metrics") metric_line
    ((λ entry, match entry with inl line => line | inr item => print_request item end) <$> entries) items =
  Ok (items ++ requests_of entries).
Proof.
  intros Hf. revert items. induction Hf as [|entry entries He Hf IH]; intros items Hn Hl; [by rewrite app_nil_r|].
  cbn [fmap list_fmap scan_lines]. unfold deprecatedAPIMaxLineBytes. destruct entry as [line|item].
  - destruct He as (_ & Hcr & Hlen & Ho). rewrite (proj2 (Z.ltb_ge _ _)) by lia.
    assert (metric_line (drop_cr line) items = Ok items) as ->; [|by apply IH].
    unfold metric_line. by rewrite Hcr, parse_other_line.
  - destruct (one_line_plain _ _ (print_request_line _ He)) as (_ & Hcr & Hlen). rewrite (proj2 (Z.ltb_ge _ _)) by lia.
    change (requests_of (inr item :: entries)) with ([item] ++ requests_of entries) in *.
    assert (metric_line (drop_cr (print_request item)) items = Ok (items ++ [item])) as ->.
    { unfold metric_line. rewrite !Hcr, parse_print_request by done. cbn [mbind result_bind].
      rewrite (proj2 (Z.leb_gt _ _)), bool_decide_eq_false_2; [done| |].
      - apply NoDup_app in Hn as (_ & Hd & _). intros Hin. apply (Hd _ Hin). by left.
      - unfold deprecatedAPIMaxSamples, len_list in *. rewrite !length_app in Hl. cbn in Hl. lia. }
    cbn [mbind result_bind]. rewrite app_assoc in *. by apply IH.
Qed.


Definition example_metrics : list (string + KubernetesDeprecatedAPIRequest) :=
  [inl "# TYPE apiserver_requested_deprecated_apis gauge";
   inr (KubernetesDeprecatedAPIRequest.mk "policy" "v1beta1" "podsecuritypolicies" "" "1.25");
   inl "apiserver_request_total 7";
   inr (KubernetesDeprecatedAPIRequest.mk "batch" "v1beta1" "cronjobs" "status" "1.25")].


(** ** The order, and the read *)

Lemma strict_weak_number {A} (key : A → Z) : StrictWeak (λ x y, key x <? key y).
Proof. split; intros *; rewrite ?Z.ltb_lt, ?Z.ltb_ge; lia. Qed.

Lemma same_number {A} (key : A → Z) (x y : A) : (key x =? key y) = true ↔ (key x <? key y) = false ∧ (key y <? key x) = false.
Proof. rewrite Z.eqb_eq, !Z.ltb_ge. lia. Qed.

#[global] Instance request_less_strict : StrictWeak request_less.
Proof.
  apply (strict_weak_lex (λ a b, (removed_release a).1 =? (removed_release b).1));
    [apply (same_number (λ a, (removed_release a).1))|apply (strict_weak_number (λ a, (removed_release a).1))|].
  apply (strict_weak_lex (λ a b, (removed_release a).2 =? (removed_release b).2));
    [apply (same_number (λ a, (removed_release a).2))|apply (strict_weak_number (λ a, (removed_release a).2))|].
  apply (strict_weak_lex (λ a b, bool_decide (a.(KubernetesDeprecatedAPIRequest.Group) = b.(KubernetesDeprecatedAPIRequest.Group))));
    [apply same_string|apply strict_weak_string|].
  apply (strict_weak_lex (λ a b, bool_decide (a.(KubernetesDeprecatedAPIRequest.Version) = b.(KubernetesDeprecatedAPIRequest.Version))));
    [apply same_string|apply strict_weak_string|].
  apply (strict_weak_lex (λ a b, bool_decide (a.(KubernetesDeprecatedAPIRequest.Resource) = b.(KubernetesDeprecatedAPIRequest.Resource))));
    [apply same_string|apply strict_weak_string..].
Qed.

(** What is read is different requests, at most 512, ordered by the release that removes
    them. *)
Lemma metric_line_keeps line items items' :
  NoDup items ∧ len_list items ≤ 512 → metric_line line items = Ok items' → NoDup items' ∧ len_list items' ≤ 512.
Proof.
  intros [Hn Hl]. unfold metric_line. intros ([item|] & _ & H)%bind_Ok; [|by injection H as <-].
  apply bind_Ok in H as (? & Hm%reject_if_Ok & H). apply bind_Ok in H as (? & Hi%reject_if_Ok & [= <-]).
  apply Z.leb_gt in Hm. apply bool_decide_eq_false in Hi. unfold deprecatedAPIMaxSamples, len_list in *. split.
  - apply NoDup_app. split_and!; [done| |apply NoDup_singleton]. intros y Hy Heq%list_elem_of_singleton. by subst y.
  - rewrite length_app. cbn. lia.
Qed.

Lemma DeprecatedAPIRequests_safe token :
  safe (λ r, r.(Request.Method) = "GET" ∧ r.(Request.Path) = "/metrics") 1 (DeprecatedAPIRequests token)
    (if_ok (λ items, StronglySorted (not_after request_less) items ∧ NoDup items ∧ len_list items ≤ 512)).
Proof.
  unfold DeprecatedAPIRequests. eapply (safe_or_return _ 1 0); [by apply getPayload_safe|].
  intros [payload b] _. destruct (parseDeprecatedAPIMetrics payload) as [items|] eqn:E; [|done].
  unfold parseDeprecatedAPIMetrics in E.
  pose proof (scan_lines_keeps _ _ _ (λ items, NoDup items ∧ len_list items ≤ 512) _ _ _
    (λ line s s' H, metric_line_keeps line s s' H) ltac:(split; [constructor|done]) E) as [Hn Hl].
  pose proof (sort_Slice_Permutation request_less items) as Hp. apply (safe_Done _ 0). cbn. split_and!.
  - apply sort_Slice_Sorted, _.
  - by rewrite Hp.
  - unfold len_list in *. by rewrite Hp.
Qed.
