(* ===== verification/Revisions.v ===== *)
(** * The revisions of a deployment (src/internal/kubernetes/deployment_revision_history.go)

    The revision of a deployment and those of the replica sets it controls, read as
    metadata: the latest are shown, the greatest first. *)

From S2P Require Import Decoding.
From S2P Require Export Paging.

Local Open Scope Z_scope.
Local Open Scope stdpp_scope.
Local Open Scope fetch_scope.
Local Open Scope json_scope.

Import Json.

Definition kubernetesPartialMetadataAccept : string :=
  "application/json;as=PartialObjectMetadata;g=meta.k8s.io;v=v1".

Definition deploymentRevisionAnnotation : string := "deployment.kubernetes.io/revision".
Definition deploymentRevisionPageSize : string := "250".
Definition deploymentRevisionMaxPages : nat := 4.
Definition deploymentRevisionMaxItems : Z := 1000.
Definition deploymentRevisionMaxResults : Z := 20.
Definition deploymentRevisionMaxOwnerReferences : Z := 16.
Definition deploymentRevisionMaxAnnotations : Z := 256.
Definition deploymentRevisionMaxContinueBytes : Z := 16 * 1024.
Definition deploymentRevisionMaxUIDBytes : Z := 128.
Definition deploymentRevisionMaxObjectBytes : Z := 256 * 1024.
Definition deploymentRevisionMaxPageBytes : Z := 2 * 1024 * 1024.
Definition deploymentRevisionMaxListBytes : Z := 4 * 1024 * 1024.

Module owner.
Record t : Type := mk { APIVersion : string; Kind : string; Name : string; UID : string; Controller : option bool }.
#[global] Instance zero_t : Zero t := mk "" "" "" "" None.
Definition decode : decoder t := struct (λ old ms,
  apiVersion ← field "apiVersion" string_ old.(APIVersion) ms;
  kind ← field "kind" string_ old.(Kind) ms;
  name ← field "name" string_ old.(Name) ms;
  uid ← field "uid" string_ old.(UID) ms;
  controller ← field "controller" (pointer bool_) old.(Controller) ms;
  Some (mk apiVersion kind name uid controller)).
End owner.
Notation owner := owner.t.

Module deploymentRevisionMetadataEnvelope.
Record t : Type := mk {
  APIVersion : string;
  Kind : string;
  Name : string;
  Namespace : string;
  UID : string;
  CreationTimestamp : time;
  Annotations : gmap string string;
  OwnerReferences : list owner;
}.
#[global] Instance zero_t : Zero t := mk "" "" "" "" "" time_zero ∅ [].
Definition metadata : fields (string * string * string * time * gmap string string * list owner) :=
  field "name" string_ ⊗ field "namespace" string_ ⊗ field "uid" string_ ⊗ field "creationTimestamp" time_ ⊗
  field "annotations" (map_ string_) ⊗ field "ownerReferences" (slice owner.decode).
Definition decode : decoder t := struct (λ old ms,
  apiVersion ← field "apiVersion" string_ old.(APIVersion) ms;
  kind ← field "kind" string_ old.(Kind) ms;
  '(name, namespace, uid, created, annotations, owners) ← field "metadata" (struct metadata)
    (old.(Name), old.(Namespace), old.(UID), old.(CreationTimestamp), old.(Annotations), old.(OwnerReferences)) ms;
  Some (mk apiVersion kind name namespace uid created annotations owners)).
End deploymentRevisionMetadataEnvelope.
Notation deploymentRevisionMetadataEnvelope := deploymentRevisionMetadataEnvelope.t.

Definition validDeploymentRevisionUID : string → bool := valid_continue deploymentRevisionMaxUIDBytes.
Definition validDeploymentRevisionContinuation : string → bool := valid_continue deploymentRevisionMaxContinueBytes.

Definition validDeploymentRevisionOwner (apiVersion kind name uid : string) : bool :=
  valid_continue 64 apiVersion && valid_continue 64 kind && validKubernetesMetadataString name &&
  validDeploymentRevisionUID uid.

Definition canonicalDeploymentRevision (value : string) : result Z :=
  let invalid := upstream "invalid Deployment revision" in
  reject_if (bool_decide (value = "") || (10 <? len value) || HasPrefix value "0") invalid ;;
  reject_if (negb (all_bytes is_digit value)) invalid ;;
  match ParseInt value 32 with
  | None => Err invalid
  | Some parsed =>
      reject_if ((parsed <=? 0) || negb (bool_decide (FormatInt parsed = value))) invalid ;;
      Ok parsed
  end.

Definition optionalDeploymentRevision (annotations : gmap string string) : result Z :=
  match annotations !! deploymentRevisionAnnotation with
  | None => Ok 0
  | Some value => canonicalDeploymentRevision value
  end.

Definition decodeStrictDeploymentRevisionMetadata (raw : RawMessage) : result deploymentRevisionMetadataEnvelope :=
  metadata_only raw "decode Deployment revision metadata" "unsafe Deployment revision metadata" ;;
  let unsupported := upstream "unsupported Deployment revision metadata" in
  metadata ← expect_ok unsupported (Unmarshal deploymentRevisionMetadataEnvelope.decode raw);
  reject_if (negb (bool_decide (metadata.(deploymentRevisionMetadataEnvelope.APIVersion) = "meta.k8s.io/v1")) ||
             negb (bool_decide (metadata.(deploymentRevisionMetadataEnvelope.Kind) = "PartialObjectMetadata"))) unsupported ;;
  reject_if ((deploymentRevisionMaxOwnerReferences <? len_list metadata.(deploymentRevisionMetadataEnvelope.OwnerReferences)) ||
             (deploymentRevisionMaxAnnotations <? Z.of_nat (size metadata.(deploymentRevisionMetadataEnvelope.Annotations))))
    (upstream "Deployment revision metadata exceeded safe field limit") ;;
  Ok metadata.

Definition decodeDeploymentRevisionMetadata (raw : RawMessage) (reference : WorkloadReference) :
    result deploymentRevisionMetadataEnvelope :=
  metadata ← decodeStrictDeploymentRevisionMetadata raw;
  reject_if (negb (bool_decide (metadata.(deploymentRevisionMetadataEnvelope.Name) = reference.(WorkloadReference.Name))) ||
             negb (bool_decide (metadata.(deploymentRevisionMetadataEnvelope.Namespace) = reference.(WorkloadReference.Namespace))) ||
             negb (validDeploymentRevisionUID metadata.(deploymentRevisionMetadataEnvelope.UID)) ||
             IsZero metadata.(deploymentRevisionMetadataEnvelope.CreationTimestamp))
    (upstream "invalid Deployment revision identity") ;;
  Ok metadata.

Definition controls (o : owner) : bool := default false o.(owner.Controller).

(** The loop over the owners that control the object: how many they are, and whether
    [isOwner] holds of the last. *)
Fixpoint controllers (isOwner : owner → bool) (owners : list owner) (controllerCount : Z) (owned : bool) : result (Z * bool) :=
  match owners with
  | [] => Ok (controllerCount, owned)
  | o :: owners =>
      if controls o then
        reject_if (negb (validDeploymentRevisionOwner o.(owner.APIVersion) o.(owner.Kind) o.(owner.Name) o.(owner.UID)))
          (upstream "invalid ReplicaSet controller owner") ;;
        controllers isOwner owners (controllerCount + 1) (isOwner o)
      else controllers isOwner owners controllerCount owned
  end.

Definition is_deployment (reference : WorkloadReference) (deploymentUID : string) (o : owner) : bool :=
  bool_decide (o.(owner.APIVersion) = "apps/v1") && bool_decide (o.(owner.Kind) = "Deployment") &&
  bool_decide (o.(owner.Name) = reference.(WorkloadReference.Name)) && bool_decide (o.(owner.UID) = deploymentUID).

(** What a replica set is for the history: the results [owned], [assigned] and the
    revision of the code. *)
Inductive replica_set : Type :=
  | NotOwned
  | Unassigned
  | Assigned (revision : DeploymentRevision).

Section revisions.
Context `{UnicodeTables}.

Definition decodeDeploymentReplicaSetRevision (reference : WorkloadReference) (deploymentUID : string) (currentRevision : Z)
    (raw : RawMessage) : result replica_set :=
  metadata ← decodeStrictDeploymentRevisionMetadata raw;
  let name := metadata.(deploymentRevisionMetadataEnvelope.Name) in
  reject_if (negb (bool_decide (metadata.(deploymentRevisionMetadataEnvelope.Namespace) = reference.(WorkloadReference.Namespace))) ||
             negb (is_ok (ValidateWorkloadReference
               (WorkloadReference.mk "deployment" reference.(WorkloadReference.Namespace) name))) ||
             negb (validDeploymentRevisionUID metadata.(deploymentRevisionMetadataEnvelope.UID)) ||
             IsZero metadata.(deploymentRevisionMetadataEnvelope.CreationTimestamp))
    (upstream "invalid ReplicaSet revision identity") ;;
  '(controllerCount, owned) ← controllers (is_deployment reference deploymentUID)
    metadata.(deploymentRevisionMetadataEnvelope.OwnerReferences) 0 false;
  reject_if (1 <? controllerCount) (upstream "multiple ReplicaSet controller owners") ;;
  if negb owned then Ok NotOwned else
  match metadata.(deploymentRevisionMetadataEnvelope.Annotations) !! deploymentRevisionAnnotation with
  | None => Ok Unassigned
  | Some revisionValue =>
      revision ← canonicalDeploymentRevision revisionValue;
      Ok (Assigned (DeploymentRevision.mk revision name metadata.(deploymentRevisionMetadataEnvelope.CreationTimestamp)
        ((0 <? currentRevision) && (revision =? currentRevision))))
  end.

(** The revisions among the replica sets so far. *)
Definition assigned (items : list replica_set) : list DeploymentRevision :=
  omap (λ item, match item with Assigned revision => Some revision | _ => None end) items.

Definition is_unassigned (item : replica_set) : bool := match item with Unassigned => true | _ => false end.

(** The replica sets of a page, one after the other, each assigned revision once. *)
Fixpoint add_replica_sets (decode : RawMessage → result replica_set) (sources : list RawMessage) (items : list replica_set) :
    result (list replica_set) :=
  match sources with
  | [] => Ok items
  | raw :: sources =>
      item ← decode raw;
      reject_if (match item with
                 | Assigned revision => existsb (λ r, r.(DeploymentRevision.Revision) =? revision.(DeploymentRevision.Revision)) (assigned items)
                 | _ => false
                 end) (upstream "duplicate Deployment revision metadata") ;;
      add_replica_sets decode sources (items ++ [item])
  end.

Definition deployment_revision_pager : pager := {|
  pager.query := {[ "limit" := deploymentRevisionPageSize ]};
  pager.accept := kubernetesPartialMetadataListAccept;
  pager.maxPages := deploymentRevisionMaxPages;
  pager.maxListBytes := deploymentRevisionMaxListBytes;
  pager.maxPageBytes := deploymentRevisionMaxPageBytes;
  pager.bytes := pager.CheckRoom;
  pager.validContinue := validDeploymentRevisionContinuation;
  pager.refusesRepeated := true;
  pager.full := None;
  pager.byteLimit := "Deployment revision history exceeded safe byte limit";
  pager.pageLimit := "Deployment revision history exceeded safe page limit";
  pager.badToken := "invalid Deployment revision continuation token";
  pager.repeatedToken := "repeated Deployment revision continuation token";
  pager.itemLimit := "";
|}.

Definition deployment_revision_page (reference : WorkloadReference) (deploymentUID : string) (currentRevision : Z) :=
  metadata_page
    (mkTexts "decode Deployment revision metadata list" "unsupported Deployment revision metadata list"
      "Deployment revision history exceeded safe item limit")
    deploymentRevisionMaxItems
    (add_replica_sets (decodeDeploymentReplicaSetRevision reference deploymentUID currentRevision)).

Definition deployment_revision_less (a b : DeploymentRevision) : bool :=
  b.(DeploymentRevision.Revision) <? a.(DeploymentRevision.Revision).

Definition boundedDeploymentRevisionHistory (reference : WorkloadReference) (currentRevision unassigned : Z)
    (revisions : list DeploymentRevision) : DeploymentRevisionHistory :=
  let revisions := sort_Slice deployment_revision_less revisions in
  let truncated := deploymentRevisionMaxResults <? len_list revisions in
  DeploymentRevisionHistory.mk reference.(WorkloadReference.Namespace) reference.(WorkloadReference.Name) currentRevision unassigned
    (if truncated then take (Z.to_nat deploymentRevisionMaxResults) revisions else revisions) truncated.

(** The namespace and the name are their own [url.PathEscape] once they are validated. *)
Definition DeploymentRevisionHistory_ (token : string) (reference : WorkloadReference) :
    fetch (result DeploymentRevisionHistory) :=
  let reference := lower_kind reference in
  ValidateDeploymentReference reference ;!
  let collectionPath := "/apis/apps/v1/namespaces/" +:+ reference.(WorkloadReference.Namespace) in
  let deploymentPath := collectionPath +:+ "/deployments/" +:+ reference.(WorkloadReference.Name) in
  '(payload, _) ←! getPayload token deploymentPath None kubernetesPartialMetadataAccept deploymentRevisionMaxObjectBytes false;
  deployment ←! Done (decodeDeploymentRevisionMetadata payload reference);
  currentRevision ←! Done (optionalDeploymentRevision deployment.(deploymentRevisionMetadataEnvelope.Annotations));
  items ←! all_pages token deployment_revision_pager
    (deployment_revision_page reference deployment.(deploymentRevisionMetadataEnvelope.UID) currentRevision)
    (collectionPath +:+ "/replicasets");
  Done (Ok (boundedDeploymentRevisionHistory reference currentRevision (len_list (List.filter is_unassigned items)) (assigned items))).
End revisions.

(** ** Revisions are numbers in their only form *)

Lemma FormatUint_len n : 0 ≤ n < 10 ^ 10 → len (FormatUint n) ≤ 10.
Proof.
  intros Hn. destruct (FormatUint_spec n ltac:(lia)) as (_ & _ & Hd & _).
  destruct (canonical_bound _ _ (canonical_FormatUint n ltac:(lia)) Hd) as [[-> _]|[_ [Hb _]]]; [lia|].
  destruct (Z.le_gt_cases (len (FormatUint n)) 10) as [|Hgt]; [done|].
  assert (10 ^ 10 ≤ 10 ^ (len (FormatUint n) - 1)) by (apply Z.pow_le_mono_r; lia). lia.
Qed.

Lemma canonicalDeploymentRevision_spec value n :
  canonicalDeploymentRevision value = Ok n ↔ 1 ≤ n < 2 ^ 31 ∧ value = FormatInt n.
Proof.
  unfold canonicalDeploymentRevision. cbv zeta. split.
  - intros (_ & _ & (_ & _ & H)%bind_Ok)%bind_Ok. destruct (ParseInt value 32) as [m|] eqn:Hm; [|done].
    apply bind_Ok in H as (? & Hr%reject_if_Ok & [= ->]). apply orb_false_iff in Hr as [Hp%Z.leb_gt Hf%negb_false_iff%bool_decide_eq_true].
    apply ParseInt_range in Hm; [|done]. unfold int_range in Hm. split; [lia|done].
  - intros [Hn ->]. assert (FormatInt n = FormatUint n) as ->.
    { unfold FormatInt. by destruct (Z.ltb_spec n 0); [lia|]. }
    destruct (FormatUint_spec n ltac:(lia)) as (Hne & Hd & Hv & Hz).
    pose proof (FormatUint_len n ltac:(lia)) as Hl.
    rewrite bool_decide_eq_false_2 by done. rewrite (proj2 (Z.ltb_ge _ _)) by done. rewrite HasPrefix_zero.
    destruct (FormatUint n) as [|c d] eqn:E; [done|].
    rewrite bool_decide_eq_false_2 by (intros ->; by apply (Hz ltac:(lia) d)). cbn [orb reject_if mbind result_bind].
    rewrite Hd. cbn [negb reject_if mbind result_bind]. rewrite ParseInt_digits, <-E, ParseUint_FormatUint by (done || lia).
    cbn [mbind option_bind]. rewrite (proj2 (Z.ltb_lt _ _)) by lia. rewrite (proj2 (Z.leb_gt _ _)) by lia.
    rewrite bool_decide_eq_true_2; [done|]. unfold FormatInt. by destruct (Z.ltb_spec n 0); [lia|].
Qed.

(** ** Which replica sets are a deployment's *)

Lemma controllers_spec isOwner owners count owned count' owned' :
  controllers isOwner owners count owned = Ok (count', owned') →
  count' = count + len_list (List.filter controls owners) ∧
  owned' = match last (List.filter controls owners) with Some o => isOwner o | None => owned end.
Proof.
  revert count owned. induction owners as [|o owners IH]; intros count owned; cbn [controllers List.filter].
  { intros [= <- <-]. unfold len_list. cbn. split; [lia|done]. }
  destruct (controls o); [|by apply IH]. intros (? & _ & [-> ->]%IH)%bind_Ok. unfold len_list. cbn [length]. split; [lia|].
  rewrite last_cons. by destruct (last _).
Qed.

Definition controlled_by (reference : WorkloadReference) (deploymentUID : string) (metadata : deploymentRevisionMetadataEnvelope) : Prop :=
  ∃ o, List.filter controls metadata.(deploymentRevisionMetadataEnvelope.OwnerReferences) = [o] ∧
    is_deployment reference deploymentUID o = true.

(** The revision that the metadata of a replica set stands for. *)
Definition is_revision (reference : WorkloadReference) (uid : string) (current : Z) (metadata : deploymentRevisionMetadataEnvelope)
    (r : DeploymentRevision) : Prop :=
  controlled_by reference uid metadata ∧
  metadata.(deploymentRevisionMetadataEnvelope.Namespace) = reference.(WorkloadReference.Namespace) ∧
  ∃ n, 1 ≤ n < 2 ^ 31 ∧
    metadata.(deploymentRevisionMetadataEnvelope.Annotations) !! deploymentRevisionAnnotation = Some (FormatInt n) ∧
    r = DeploymentRevision.mk n metadata.(deploymentRevisionMetadataEnvelope.Name)
      metadata.(deploymentRevisionMetadataEnvelope.CreationTimestamp) (bool_decide (n = current)).

Section replica_sets.
Context `{UnicodeTables}.

(** A replica set is counted for a deployment exactly when its one controlling owner is
    this deployment, by version, kind, name and identifier; it is a revision exactly when
    it has the annotation with a number from 1 to 2147483647 in its only decimal form, and
    it is the current one exactly when its number is the deployment's. *)
Lemma decodeDeploymentReplicaSetRevision_owned reference uid current raw item :
  decodeDeploymentReplicaSetRevision reference uid current raw = Ok item →
  ∃ metadata, decodeStrictDeploymentRevisionMetadata raw = Ok metadata ∧
    (item ≠ NotOwned ↔ controlled_by reference uid metadata) ∧
    (item = Unassigned ↔ controlled_by reference uid metadata ∧
      metadata.(deploymentRevisionMetadataEnvelope.Annotations) !! deploymentRevisionAnnotation = None) ∧
    (∀ r, item = Assigned r ↔ is_revision reference uid current metadata r).
Proof.
  unfold decodeDeploymentReplicaSetRevision. intros (metadata & Hm & H0)%bind_Ok. cbv zeta in H0.
  apply bind_Ok in H0 as (? & Hi%reject_if_Ok & ([count owned] & Hc%controllers_spec & (? & Hone%reject_if_Ok & H0)%bind_Ok)%bind_Ok).
  destruct Hc as [-> ->]. rewrite Z.add_0_l in Hone. apply Z.ltb_ge in Hone.
  assert (match last (List.filter controls metadata.(deploymentRevisionMetadataEnvelope.OwnerReferences)) with
          | Some o => is_deployment reference uid o | None => false end = true ↔ controlled_by reference uid metadata) as Ho.
  { unfold controlled_by, len_list in *.
    destruct (List.filter controls _) as [|o [|o' l]]; cbn in *; [|naive_solver|lia].
    split; [done|]. by intros (o & ? & _). }
  set (owned := match last (List.filter controls metadata.(deploymentRevisionMetadataEnvelope.OwnerReferences)) with
    Some o => is_deployment reference uid o | None => false end) in *. clearbody owned.
  apply orb_false_iff in Hi as [[[Hns%negb_false_iff%bool_decide_eq_true _]%orb_false_iff _]%orb_false_iff _].
  exists metadata. split; [done|]. unfold is_revision.
  destruct owned; cbn [negb] in H0.
  2: { injection H0 as <-. assert (¬ controlled_by reference uid metadata) as Hn by (intros ?%Ho; done). naive_solver. }
  assert (controlled_by reference uid metadata) as Hown by by apply Ho.
  destruct (_ !! deploymentRevisionAnnotation) as [value|] eqn:Ea; [|injection H0 as <-; naive_solver].
  apply bind_Ok in H0 as (n & Hr & [= <-]). pose proof Hr as [Hn ->]%canonicalDeploymentRevision_spec.
  assert ((0 <? current) && (n =? current) = bool_decide (n = current)) as ->.
  { case_bool_decide; destruct (Z.ltb_spec 0 current), (Z.eqb_spec n current); cbn; congruence || lia. }
  split_and!; [naive_solver|naive_solver|]. intros r. split; [intros [= <-]; split_and!; [done..|]; by exists n|].
  intros (_ & _ & m & Hm' & Hv & ->). injection Hv as Hv.
  assert (canonicalDeploymentRevision (FormatInt n) = Ok m) as Hr' by by apply canonicalDeploymentRevision_spec.
  rewrite Hr in Hr'. by injection Hr' as ->.
Qed.
End replica_sets.

(** ** What is shown *)

Section history.
Context `{UnicodeTables}.

(** A revision of the deployment, by the metadata of some replica set. *)
Definition deployment_revision (reference : WorkloadReference) (uid : string) (current : Z) (r : DeploymentRevision) : Prop :=
  ∃ metadata, is_revision reference uid current metadata r.

Definition replica_sets (reference : WorkloadReference) (uid : string) (current : Z) (items : list replica_set) : Prop :=
  len_list items ≤ 1000 ∧ Forall (deployment_revision reference uid current) (assigned items) ∧
  NoDup (DeploymentRevision.Revision <$> assigned items).

Lemma assigned_app items items' : assigned (items ++ items') = assigned items ++ assigned items'.
Proof. unfold assigned. by rewrite omap_app. Qed.

Lemma existsb_revision n revisions :
  existsb (λ r, r.(DeploymentRevision.Revision) =? n) revisions = false → n ∉ DeploymentRevision.Revision <$> revisions.
Proof.
  intros He (r & -> & Hr)%list_elem_of_fmap. rewrite <-not_true_iff_false in He. apply He, existsb_exists.
  exists r. split; [by apply list_elem_of_In|apply Z.eqb_refl].
Qed.

Lemma add_replica_sets_keeps reference uid current :
  keeps_added 1000 (replica_sets reference uid current) (add_replica_sets (decodeDeploymentReplicaSetRevision reference uid current)).
Proof.
  intros sources. induction sources as [|raw sources IH]; intros items items' Hi Hroom; cbn [add_replica_sets].
  { by intros [= <-]. }
  intros (item & Hd & (? & Hdup%reject_if_Ok & H0)%bind_Ok)%bind_Ok. destruct Hi as (Hl & Hf & Hn).
  assert (len_list (items ++ [item]) = len_list items + 1) as Hlen by (unfold len_list; rewrite length_app; cbn; lia).
  assert (len_list (raw :: sources) = len_list sources + 1) as Hsrc by (unfold len_list; cbn; lia).
  assert (0 ≤ len_list sources) by (unfold len_list; lia).
  refine (IH (items ++ [item]) items' _ _ H0); [|lia].
  split; [lia|]. rewrite assigned_app.
  destruct item as [| |r]; cbn [assigned omap list_omap]; rewrite ?app_nil_r; [done..|].
  apply decodeDeploymentReplicaSetRevision_owned in Hd as (metadata & _ & _ & _ & Hr). pose proof (proj1 (Hr r) eq_refl). clear Hr.
  split; [apply Forall_app; split; [done|]; constructor; [by exists metadata|done]|].
  rewrite fmap_app. apply NoDup_app. split_and!; [done| |apply NoDup_singleton].
  intros n Hin Heq%list_elem_of_singleton. subst n. by apply existsb_revision in Hdup.
Qed.

Lemma unassigned_count items :
  0 ≤ len_list (List.filter is_unassigned items) ∧
  len_list (List.filter is_unassigned items) + len_list (assigned items) ≤ len_list items.
Proof. unfold len_list, assigned. induction items as [|[| |r] items IH]; cbn in *; lia. Qed.

End history.
