(* ===== verification/Governor.v ===== *)
(** * Admission of operations under resource pressure
    (src/internal/resourceguard/governor.go)

    The governor limits how many operations run at once, by the pressure its
    sampler reports.  Ratios and watermarks are IEEE binary64 values; the
    governor's mutable state is the count of active operations together with the
    [sync.Once] of every release function it has handed out. *)

From S2P Require Export Prelude.
From Stdlib Require Import SpecFloat.

Local Open Scope Z_scope.
Local Open Scope stdpp_scope.

(** ** float64 *)

Notation float64 := spec_float (only parsing).

(** [x < y], [x <= y], [x >= y]: false when an operand is NaN. *)
Definition flt (x y : float64) : bool := SFltb x y.
Definition fle (x y : float64) : bool := SFleb x y.

Definition float_zero : float64 := S754_zero false.
Definition float_one : float64 := S754_finite false 4503599627370496 (-52).
(** The float64 constants [0.80] and [0.95]. *)
Definition DefaultHighWatermark : float64 := S754_finite false 7205759403792794 (-53).
Definition DefaultCriticalWatermark : float64 := S754_finite false 8556839292003942 (-53).

(** [float64(n)], products and quotients. *)
Definition float_of (n : Z) : float64 := binary_normalize 53 1024 n 0 false.
Definition float_mul (x y : float64) : float64 := SFmul 53 1024 x y.
Definition float_div (x y : float64) : float64 := SFdiv 53 1024 x y.

Definition IsNaN (x : float64) : bool := match x with S754_nan => true | _ => false end.
Definition IsInf (x : float64) : bool := match x with S754_infinity _ => true | _ => false end.

(** The builtin [max] on float64: NaN if an operand is, and [+0] over [-0]. *)
Definition float_max (x y : float64) : float64 :=
  match x, y with
  | S754_nan, _ | _, S754_nan => S754_nan
  | S754_zero s1, S754_zero s2 => S754_zero (s1 && s2)
  | _, _ => if flt x y then y else x
  end.

Lemma default_watermarks :
  DefaultHighWatermark = SFdiv 53 1024 (S754_finite false 4 0) (S754_finite false 5 0) ∧
  DefaultCriticalWatermark = SFdiv 53 1024 (S754_finite false 19 0) (S754_finite false 20 0).
Proof. by vm_compute. Qed.

Lemma fle_spec x y :
  fle x y = true ↔
  match x, y with
  | S754_nan, _ | _, S754_nan => False
  | S754_infinity true, _ | _, S754_infinity false => True
  | S754_infinity false, _ | _, S754_infinity true => False
  | S754_finite s _ _, S754_zero _ => s = true
  | S754_zero _, S754_finite s _ _ => s = false
  | S754_zero _, S754_zero _ => True
  | S754_finite true _ _, S754_finite false _ _ => True
  | S754_finite false _ _, S754_finite true _ _ => False
  | S754_finite false m1 e1, S754_finite false m2 e2 => e1 < e2 ∨ e1 = e2 ∧ (m1 <= m2)%positive
  | S754_finite true m1 e1, S754_finite true m2 e2 => e2 < e1 ∨ e1 = e2 ∧ (m2 <= m1)%positive
  end.
Proof.
  unfold fle, SFleb, SFcompare.
  destruct x as [?|[]| |[] m1 e1], y as [?|[]| |[] m2 e2]; try naive_solver.
  all: change (Pos.compare_cont Eq m1 m2) with (Pos.compare m1 m2).
  all: destruct (Z.compare_spec e1 e2), (Pos.compare_spec m1 m2); simpl; split; intros; (done || lia).
Qed.

#[local] Ltac fle_cases :=
  rewrite !fle_spec;
  repeat match goal with
  | x : spec_float |- _ => destruct x as [?|[]| |[] ? ?]
  end; try naive_solver; try lia.

Lemma fle_trans x y z : fle x y = true → fle y z = true → fle x z = true.
Proof. fle_cases. Qed.

Lemma flt_fle x y : flt x y = true → fle x y = true.
Proof.
  unfold flt, fle, SFltb, SFleb. by destruct (SFcompare x y) as [[]|].
Qed.

Lemma flt_false x y : IsNaN x = false → IsNaN y = false → flt x y = false → fle y x = true.
Proof.
  rewrite fle_spec. unfold flt, SFltb, SFcompare.
  destruct x as [?|[]| |[] m1 e1], y as [?|[]| |[] m2 e2]; try naive_solver.
  all: change (Pos.compare_cont Eq m1 m2) with (Pos.compare m1 m2).
  all: destruct (Z.compare_spec e1 e2), (Pos.compare_spec m1 m2); simpl; intros; (done || lia).
Qed.

Lemma fle_refl x : IsNaN x = false → fle x x = true.
Proof. intros. destruct x as [?|[]| |[] m1 e1]; try done; apply fle_spec; lia. Qed.

Lemma float_max_ge x y :
  IsNaN x = false → IsNaN y = false →
  fle x (float_max x y) = true ∧ fle y (float_max x y) = true.
Proof.
  intros Hx Hy. unfold float_max.
  destruct x as [?|?| |? ? ?], y as [?|?| |? ? ?]; try done; destruct (flt _ _) eqn:E;
    eauto using flt_fle, fle_refl, flt_false.
Qed.

Lemma float_max_lub x y z :
  fle x z = true → fle y z = true → fle (float_max x y) z = true.
Proof.
  intros Hx Hy. unfold float_max.
  destruct x as [?|?| |? ? ?], y as [?|?| |? ? ?]; try done; destruct (flt _ _); try done.
Qed.

(** ** The governor *)

Module Governor.

Definition Pressure := string.
Definition PressureUnknown : Pressure := "unknown".
Definition PressureNormal : Pressure := "normal".
Definition PressureConstrained : Pressure := "constrained".
Definition PressureCritical : Pressure := "critical".

Record Sample : Type := mkSample { MemoryRatio : option float64; LoadRatio : option float64 }.

Record Snapshot : Type := mkSnapshot {
  Adaptive : bool;
  SnapshotPressure : Pressure;
  SnapshotMemoryRatio : option float64;
  SnapshotLoadRatio : option float64;
  ActiveOperations : Z;
  OperationLimit : Z;
  MaximumOperations : Z;
  SampledAt : time;
}.

Record Config : Type := mkConfig {
  Enabled : bool;
  MaxConcurrent : Z;
  HighWatermark : float64;
  CriticalWatermark : float64;
  RetryInterval : duration;
}.

(** [releases] has one entry for every release function handed out, in order:
    whether its [sync.Once] has fired. *)
Record t : Type := mk {
  enabled : bool;
  maxConcurrent : Z;
  highWatermark : float64;
  criticalWatermark : float64;
  retryInterval : duration;
  active : Z;
  releases : list bool;
}.

Definition with_active (g : t) (active : Z) (releases : list bool) : t :=
  mk g.(enabled) g.(maxConcurrent) g.(highWatermark) g.(criticalWatermark)
    g.(retryInterval) active releases.

Definition New (config : Config) : result t :=
  reject_if (config.(MaxConcurrent) <? 1)
    (NewError "maximum concurrent operations must be positive") ;;
  reject_if (fle config.(HighWatermark) float_zero || fle float_one config.(HighWatermark))
    (NewError "high watermark must be between zero and one") ;;
  reject_if (fle config.(CriticalWatermark) config.(HighWatermark) ||
             flt float_one config.(CriticalWatermark))
    (NewError "critical watermark must be above the high watermark and at most one") ;;
  let retry := if config.(RetryInterval) <=? 0 then 2 * second else config.(RetryInterval) in
  Ok (mk config.(Enabled) config.(MaxConcurrent) config.(HighWatermark)
        config.(CriticalWatermark) retry 0 []).

Definition safeRatio (value : option float64) : option float64 :=
  match value with
  | None => None
  | Some v => if IsNaN v || IsInf v || flt v float_zero then None else Some v
  end.

Definition maximumRatio (left right : option float64) : float64 * bool :=
  match left, right with
  | None, None => (float_zero, false)
  | None, Some r => (r, true)
  | Some l, None => (l, true)
  | Some l, Some r => (float_max l r, true)
  end.

Definition capacity (g : t) (memoryRatio loadRatio : option float64) : Pressure * Z :=
  if negb g.(enabled) then (PressureNormal, g.(maxConcurrent))
  else
    let '(maximum, available) := maximumRatio memoryRatio loadRatio in
    if negb available then (PressureUnknown, g.(maxConcurrent))
    else if fle g.(criticalWatermark) maximum then (PressureCritical, 0)
    else if fle g.(highWatermark) maximum then
      (PressureConstrained, Z.max 1 (Z.quot (wrap_int (g.(maxConcurrent) + 1)) 2))
    else (PressureNormal, g.(maxConcurrent)).

Definition snapshotLocked (g : t) (sample : Sample) (now : time) : Snapshot :=
  let memoryRatio := safeRatio sample.(MemoryRatio) in
  let loadRatio := safeRatio sample.(LoadRatio) in
  let '(pressure, limit) := capacity g memoryRatio loadRatio in
  mkSnapshot g.(enabled) pressure memoryRatio loadRatio g.(active) limit g.(maxConcurrent) now.

Definition with_ActiveOperations (s : Snapshot) (n : Z) : Snapshot :=
  mkSnapshot s.(Adaptive) s.(SnapshotPressure) s.(SnapshotMemoryRatio) s.(SnapshotLoadRatio)
    n s.(OperationLimit) s.(MaximumOperations) s.(SampledAt).

(** The third component is the index of the release function, when there is one. *)
Definition TryAcquire (g : t) (sample : Sample) (now : time) : t * Snapshot * option nat :=
  let snapshot := snapshotLocked g sample now in
  if snapshot.(OperationLimit) <=? g.(active) then (g, snapshot, None)
  else
    let g' := with_active g (wrap_int (g.(active) + 1)) (g.(releases) ++ [false]) in
    (g', with_ActiveOperations snapshot g'.(active), Some (length g.(releases))).

(** Calling the release function of index [i]; a function that was never handed
    out cannot be called, so an unknown index changes nothing. *)
Definition release (g : t) (i : nat) : t :=
  match g.(releases) !! i with
  | Some false =>
      with_active g (if 0 <? g.(active) then g.(active) - 1 else g.(active))
        (<[i := true]> g.(releases))
  | _ => g
  end.

(** What happens around one failed attempt of [Acquire]: the sample and clock it
    reads, the calls other goroutines make while it waits, and the branch its
    [select] takes ([Some err] when the context is done). *)
Inductive call : Type :=
  | Try (sample : Sample) (now : time)
  | Release (i : nat).

Definition step (g : t) (c : call) : t :=
  match c with
  | Try sample now => (TryAcquire g sample now).1.1
  | Release i => release g i
  end.

Record attempt : Type := mkAttempt {
  attempt_sample : Sample;
  attempt_now : time;
  meanwhile : list call;
  done : option error;
}.

(** [Acquire] along a sequence of attempts; [None] while it is still waiting at
    the end of the sequence. *)
Fixpoint Acquire (attempts : list attempt) (g : t) : t * option (result (Snapshot * nat)) :=
  match attempts with
  | [] => (g, None)
  | a :: attempts =>
      match TryAcquire g a.(attempt_sample) a.(attempt_now) with
      | (g', snapshot, Some r) => (g', Some (Ok (snapshot, r)))
      | (g', _, None) =>
          let g'' := foldl step g' a.(meanwhile) in
          match a.(done) with
          | Some err => (g'', Some (Err err))
          | None => Acquire attempts g''
          end
      end
  end.

(** ** Properties *)

(** The release functions that have not been called yet. *)
Definition outstanding (g : t) : Z := Z.of_nat (count_occ Bool.bool_dec g.(releases) false).

Record wf (g : t) : Prop := {
  wf_max : 1 ≤ g.(maxConcurrent) ≤ max_int64;
  wf_active : g.(active) = outstanding g;
  wf_bound : g.(active) ≤ g.(maxConcurrent);
}.

Lemma half_limit m : 1 ≤ m ≤ max_int64 → 1 ≤ Z.max 1 (Z.quot (wrap_int (m + 1)) 2) ≤ m.
Proof.
  intros Hm. destruct (decide (m = max_int64)) as [->|]; [by vm_compute|].
  rewrite wrap_int_id by (unfold min_int64; lia).
  pose proof (Z.quot_lt (m + 1) 2). pose proof (Z.quot_div_nonneg (m + 1) 2).
  assert (Z.quot (m + 1) 2 ≤ m); [|lia].
  rewrite Z.quot_div_nonneg by lia. apply Z.div_le_upper_bound; lia.
Qed.

Lemma capacity_range g mr lr :
  1 ≤ g.(maxConcurrent) ≤ max_int64 → 0 ≤ (capacity g mr lr).2 ≤ g.(maxConcurrent).
Proof.
  intros Hm. pose proof (half_limit _ Hm). unfold capacity.
  destruct (negb _), (maximumRatio mr lr) as [m []]; simpl; try lia.
  destruct (fle _ _); [simpl; lia|]. destruct (fle _ _); simpl; lia.
Qed.

Lemma snapshotLocked_limit g sample now :
  (snapshotLocked g sample now).(OperationLimit) =
  (capacity g (safeRatio sample.(MemoryRatio)) (safeRatio sample.(LoadRatio))).2.
Proof. unfold snapshotLocked. by destruct (capacity _ _ _). Qed.

Lemma count_occ_insert_true i l :
  l !! i = Some false →
  S (count_occ Bool.bool_dec (<[i:=true]> l) false) = count_occ Bool.bool_dec l false.
Proof.
  revert i. induction l as [|b l IH]; intros [|i]; simpl; try done; [by intros [= ->]|].
  intros Hi. destruct (Bool.bool_dec b false); simpl; rewrite <-(IH i Hi); lia.
Qed.

Lemma wf_New config g : config.(MaxConcurrent) ≤ max_int64 → New config = Ok g → wf g.
Proof.
  unfold New. intros Hmax. rewrite !bind_Ok. intros ([] & Hg & Hrest).
  apply reject_if_Ok, Z.ltb_ge in Hg.
  rewrite bind_Ok in Hrest. destruct Hrest as ([] & _ & Hrest).
  rewrite bind_Ok in Hrest. destruct Hrest as ([] & _ & [= <-]).
  split; simpl; [lia|done|lia].
Qed.

Lemma TryAcquire_wf g sample now :
  wf g → wf (TryAcquire g sample now).1.1.
Proof.
  intros [Hm Ha Hb]. unfold TryAcquire. rewrite snapshotLocked_limit.
  pose proof (capacity_range g (safeRatio (MemoryRatio sample)) (safeRatio (LoadRatio sample)) Hm).
  destruct (_ <=? _) eqn:E; [by split|]. apply Z.leb_gt in E.
  assert (wrap_int (active g + 1) = active g + 1) as Hw.
  { apply wrap_int_id. unfold outstanding in Ha. unfold min_int64. lia. }
  split; simpl; [done| |lia]. unfold outstanding in *. simpl.
  rewrite Hw, count_occ_app. simpl. lia.
Qed.

Lemma release_wf g i : wf g → wf (release g i).
Proof.
  intros [Hm Ha Hb]. unfold release. destruct (_ !! i) as [[]|] eqn:E; try by split.
  apply count_occ_insert_true in E. unfold outstanding in Ha. rewrite <-E in Ha.
  rewrite (proj2 (Z.ltb_lt 0 (active g))) by lia.
  split; simpl; [done| |lia]. unfold outstanding. simpl. lia.
Qed.

Lemma step_wf g c : wf g → wf (step g c).
Proof. destruct c; [apply TryAcquire_wf|apply release_wf]. Qed.

Lemma steps_wf cs g : wf g → wf (foldl step g cs).
Proof. revert g. induction cs as [|c cs IH]; [done|]. intros g Hg. by apply IH, step_wf. Qed.

Lemma governor_step_config g c :
  (step g c).(maxConcurrent) = g.(maxConcurrent).
Proof.
  destruct c; simpl; [unfold TryAcquire|unfold release]; repeat case_match; by simplify_eq/=.
Qed.

Lemma governor_steps_config cs g : (foldl step g cs).(maxConcurrent) = g.(maxConcurrent).
Proof.
  revert g. induction cs as [|c cs IH]; intros g; [done|]. simpl. by rewrite IH, governor_step_config.
Qed.

Lemma maximumRatio_mono m m' l l' :
  fle m m' = true → fle l l' = true → fle (float_max m l) (float_max m' l') = true.
Proof.
  assert (∀ x y, fle x y = true → IsNaN y = false) as Hnan.
  { intros x y. rewrite fle_spec. by destruct x as [?|[]| |[] ? ?], y as [?|[]| |[] ? ?]. }
  intros Hm Hl. destruct (float_max_ge m' l'); [by eapply Hnan..|].
  apply float_max_lub; by eapply fle_trans.
Qed.

(** In every state a governor reaches from [New] by admissions and calls of
    release functions, in any interleaving and however often each release
    function is called, the active count is exactly the number of admissions not
    yet released and lies between zero and the configured maximum. *)
Theorem governor_invariant config g calls :
  config.(MaxConcurrent) ≤ max_int64 → New config = Ok g →
  let g' := foldl step g calls in
  g'.(active) = outstanding g' ∧ 0 ≤ g'.(active) ≤ config.(MaxConcurrent).
Proof.
  intros Hmax Hg. destruct (steps_wf calls g) as [_ Ha Hb]; [by eapply wf_New|].
  rewrite governor_steps_config in Hb. cbn zeta. rewrite Ha in *.
  assert (maxConcurrent g = MaxConcurrent config) as <-.
  { revert Hg. unfold New. repeat (destruct (reject_if _ _); simpl; try done). by intros [= <-]. }
  unfold outstanding in *. split; lia.
Qed.

(** Pressure only ever lowers the admission limit: when both ratios grow,
    the limit does not, whatever the watermarks (NaN included), and it stays
    between zero and the configured maximum. *)
Theorem capacity_antitone g m m' l l' :
  1 ≤ g.(maxConcurrent) ≤ max_int64 → fle m m' = true → fle l l' = true →
  0 ≤ (capacity g (Some m') (Some l')).2 ≤ (capacity g (Some m) (Some l)).2 ∧
  (capacity g (Some m) (Some l)).2 ≤ g.(maxConcurrent).
Proof.
  intros Hmax Hm Hl. pose proof (maximumRatio_mono _ _ _ _ Hm Hl) as Hle.
  split; [|by apply capacity_range]. split; [by apply capacity_range|].
  pose proof (half_limit _ Hmax) as Hhalf. unfold capacity; simpl.
  destruct (negb (enabled g)); simpl; [lia|].
  assert (∀ w, fle w (float_max m l) = true → fle w (float_max m' l') = true) as Hw.
  { intros w Hw. by eapply fle_trans. }
  destruct (fle (criticalWatermark g) (float_max m l)) eqn:E1.
  { by rewrite (Hw _ E1). }
  destruct (fle (criticalWatermark g) (float_max m' l')); simpl.
  { by destruct (fle (highWatermark g) (float_max m l)); simpl; lia. }
  destruct (fle (highWatermark g) (float_max m l)) eqn:E2.
  { by rewrite (Hw _ E2). }
  destruct (fle (highWatermark g) (float_max m' l')); simpl; lia.
Qed.

(** [TryAcquire] admits exactly when the active count is below the limit it
    computes; then it counts one more and hands out a fresh release function,
    and releasing (once or twice) restores the count.  An idle governor refuses
    only under critical pressure. *)
Theorem TryAcquire_correct g sample now :
  wf g →
  let '(g', snapshot, r) := TryAcquire g sample now in
  (is_Some r ↔ g.(active) < snapshot.(OperationLimit)) ∧
  (r = None → g' = g) ∧
  (∀ i, r = Some i →
    g'.(active) = g.(active) + 1 ∧ snapshot.(ActiveOperations) = g'.(active) ∧
    g.(releases) !! i = None ∧
    (release g' i).(active) = g.(active) ∧ release (release g' i) i = release g' i) ∧
  (g.(active) = 0 → r = None → snapshot.(SnapshotPressure) = PressureCritical).
Proof.
  intros [Hm Ha Hb]. unfold TryAcquire. rewrite snapshotLocked_limit.
  pose proof (capacity_range g (safeRatio (MemoryRatio sample)) (safeRatio (LoadRatio sample)) Hm).
  destruct (_ <=? _) eqn:E.
  - apply Z.leb_le in E. rewrite snapshotLocked_limit. split_and!; try done.
    + split; [by intros [? ?]|lia].
    + intros Hz _. rewrite Hz in E. revert E. unfold snapshotLocked, capacity.
      pose proof (half_limit _ Hm).
      destruct (negb _), (maximumRatio (safeRatio sample.(MemoryRatio))
        (safeRatio sample.(LoadRatio))) as [x []]; simpl; try lia.
      destruct (fle (criticalWatermark g) x); simpl; [done|].
      destruct (fle (highWatermark g) x); simpl; lia.
  - apply Z.leb_gt in E. simpl. rewrite snapshotLocked_limit.
    rewrite wrap_int_id by (unfold outstanding, min_int64 in *; lia).
    assert (0 ≤ active g) by (unfold outstanding in Ha; lia).
    split_and!; try done.
    intros i [= <-]. unfold release; simpl. rewrite list_lookup_middle by done. simpl.
    rewrite (proj2 (Z.ltb_lt 0 (active g + 1))) by lia.
    rewrite list_lookup_insert_eq by (rewrite length_app; simpl; lia).
    split_and!; try done; [apply lookup_ge_None_2; lia|lia].
Qed.

(** ** Examples *)

Definition example_config : Config :=
  mkConfig true 8 DefaultHighWatermark DefaultCriticalWatermark 0.

Definition example_governor : t :=
  mk true 8 DefaultHighWatermark DefaultCriticalWatermark (2 * second) 0 [].

(** One half, and seven eighths. *)
Definition half : float64 := S754_finite false 4503599627370496 (-53).
Definition seven_eighths : float64 := S754_finite false 7881299347898368 (-53).

Example New_example : New example_config = Ok example_governor.
Proof. by vm_compute. Qed.

(** [New] lets a NaN watermark through, and such a governor never refuses for pressure. *)
Example New_accepts_NaN :
  is_ok (New (mkConfig true 8 S754_nan S754_nan 0)) = true ∧
  (capacity (mk true 8 S754_nan S754_nan second 0 []) (Some float_one) (Some float_one)) =
    (PressureNormal, 8).
Proof. by vm_compute. Qed.

Lemma governor_invariant_witness :
  let calls := [Try (mkSample (Some half) None) 1; Try (mkSample (Some seven_eighths) None) 2;
                Release 0; Release 0] in
  (foldl step example_governor calls).(active) = 1 ∧
  0 ≤ (foldl step example_governor calls).(active) ≤ 8.
Proof.
  intros calls. split; [by vm_compute|].
  apply (governor_invariant example_config example_governor calls); by vm_compute.
Defined.

Lemma capacity_antitone_witness :
  0 ≤ (capacity example_governor (Some seven_eighths) (Some half)).2 ≤
      (capacity example_governor (Some half) (Some half)).2.
Proof. apply (capacity_antitone example_governor half seven_eighths half half); by vm_compute. Defined.

Lemma TryAcquire_correct_witness :
  let '(g', _, r) := TryAcquire example_governor (mkSample (Some half) None) 1 in
  r = Some 0%nat ∧ (r = None → g' = example_governor).
Proof.
  split; [by vm_compute|].
  apply (TryAcquire_correct example_governor (mkSample (Some half) None) 1).
  split; by vm_compute.
Defined.

End Governor.
