(* ===== verification/Sampler.v ===== *)
(** * What the governors sample (src/internal/resourceguard/sampler.go)

    The memory and the load of the machine, read from the files of the kernel.  Opening
    and reading a file is the operating system's, and the numbers of the runtime are
    parameters. *)

From S2P Require Export GoNum Governor.
From Stdlib Require Import SpecFloat.

Local Open Scope Z_scope.
Local Open Scope stdpp_scope.

(** ** strconv.ParseFloat *)

(** The mantissa in a base: its digits as one number, how many of them are behind the
    point, whether there are any, and the rest. *)
Definition digit_in (base : Z) (c : ascii) : option Z :=
  if is_digit c then Some (digit_value c)
  else if (base =? 16) && in_range "a" "f" (lower_byte c) then Some (byte (lower_byte c) - byte "a" + 10)
  else None.

Fixpoint read_mantissa (base : Z) (s : string) (mantissa fraction : Z) (sawdot sawdigits : bool) : Z * Z * bool * string :=
  match s with
  | String c rest =>
      if bool_decide (c = "_"%char) then read_mantissa base rest mantissa fraction sawdot sawdigits
      else if bool_decide (c = "."%char) then
        if sawdot then (mantissa, fraction, sawdigits, s) else read_mantissa base rest mantissa fraction true sawdigits
      else match digit_in base c with
           | Some d => read_mantissa base rest (mantissa * base + d) (if sawdot then fraction + 1 else fraction) sawdot true
           | None => (mantissa, fraction, sawdigits, s)
           end
  | EmptyString => (mantissa, fraction, sawdigits, s)
  end.

(** The digits of an exponent; it stops growing at 10000. *)
Fixpoint read_exponent (s : string) (e : Z) : Z * string :=
  match s with
  | String c rest =>
      if bool_decide (c = "_"%char) then read_exponent rest e
      else if is_digit c then read_exponent rest (if e <? 10000 then e * 10 + digit_value c else e)
      else (e, s)
  | EmptyString => (e, s)
  end.

Definition sign_of (s : string) : bool * string :=
  match s with
  | String "-" rest => (true, rest)
  | String "+" rest => (false, rest)
  | _ => (false, s)
  end.

Definition exponent_of (s : string) : option (Z * string) :=
  let '(negative, rest) := sign_of s in
  match rest with
  | String c _ => if is_digit c then let '(e, rest) := read_exponent rest 0 in Some (if negative then - e else e, rest) else None
  | EmptyString => None
  end.

(** [underscoreOK]: underscores stand between digits, or behind the prefix of a base. *)
Fixpoint underscores_from (hex : bool) (saw : ascii) (s : string) : bool :=
  match s with
  | EmptyString => negb (bool_decide (saw = "_"%char))
  | String c rest =>
      if is_digit c || (hex && in_range "a" "f" (lower_byte c)) then underscores_from hex "0"%char rest
      else if bool_decide (c = "_"%char) then bool_decide (saw = "0"%char) && underscores_from hex "_"%char rest
      else negb (bool_decide (saw = "_"%char)) && underscores_from hex "!"%char rest
  end.

Definition underscoreOK (s : string) : bool :=
  let '(_, s) := sign_of s in
  match s with
  | String "0" (String p rest) =>
      if bool_decide (lower_byte p ∈ ["b"; "o"; "x"]%char) then underscores_from (bool_decide (lower_byte p = "x"%char)) "0"%char rest
      else underscores_from false "^"%char s
  | _ => underscores_from false "^"%char s
  end.

(** [mantissa * base ^ e], rounded to the nearest float: decimal numbers are a product or
    a quotient, hexadecimal ones a shift. *)
Definition scaled (negative : bool) (base mantissa e : Z) : float64 :=
  match mantissa with
  | Zpos m =>
      if base =? 16 then binary_round 53 1024 negative m e
      else if 0 <=? e then binary_round 53 1024 negative (Z.to_pos (mantissa * 10 ^ e)) 0
      else SFdiv 53 1024 (S754_finite negative m 0) (S754_finite false (Z.to_pos (10 ^ (- e))) 0)
  | _ => S754_zero negative
  end.

(** [None] for a text that is no number, and for a number that is too big. *)
Definition ParseFloat (s : string) : option float64 :=
  let '(negative, rest) := sign_of s in
  let name := lower_string rest in
  if bool_decide (name ∈ ["inf"; "infinity"]) then Some (S754_infinity negative)
  else if bool_decide (lower_string s = "nan") then Some S754_nan
  else
  let '(base, rest) :=
    match rest with
    | String "0" (String p (String c r)) => if bool_decide (lower_byte p = "x"%char) then (16, String c r) else (10, rest)
    | _ => (10, rest)
    end in
  let '(mantissa, fraction, sawdigits, rest) := read_mantissa base rest 0 0 false false in
  if negb sawdigits then None else
  exponent ← (match rest with
              | String c r => if bool_decide (lower_byte c = if base =? 16 then "p"%char else "e"%char) then exponent_of r
                              else if base =? 16 then None else Some (0, rest)
              | EmptyString => if base =? 16 then None else Some (0, rest)
              end);
  let '(e, rest) := exponent in
  if negb (bool_decide (rest = "")) || (has_byte "_" s && negb (underscoreOK s)) then None else
  let x := scaled negative base mantissa (if base =? 16 then e - 4 * fraction else e - fraction) in
  if IsInf x then None else Some x.

Example ParseFloat_examples :
  ParseFloat "0.80" = Some DefaultHighWatermark ∧ ParseFloat "1.50" = Some (S754_finite false 6755399441055744 (-52)) ∧
  ParseFloat "-0" = Some (S754_zero true) ∧ ParseFloat "1e400" = None ∧ ParseFloat "0x1p-1" = Some (S754_finite false 4503599627370496 (-53)) ∧
  ParseFloat "1_0.5" = ParseFloat "10.5" ∧ ParseFloat "1__0" = None ∧ ParseFloat "1e" = None ∧ ParseFloat "." = None ∧
  ParseFloat "4.9e-324" = Some (S754_finite false 1 (-1074)) ∧ ParseFloat "9007199254740993" = ParseFloat "9007199254740992".
Proof. by vm_compute. Qed.

(** ** The sampler *)

Module systemSampler.

(** What the sampler asks: a file, the number of processors, and the memory of the
    process; [processMemory] may be nil. *)
Record t : Type := mk {
  readFile : string → result string;
  cpuCount : Z;
  processMemory : option (option (Z * Z));
}.

Definition divide (numerator denominator : Z) : option float64 :=
  if denominator =? 0 then None else Some (float_div (float_of numerator) (float_of denominator)).

Section sampler.
Context (s : t).

Definition readUint (path : string) : option Z :=
  match s.(readFile) path with
  | Err _ => None
  | Ok payload => ParseUint (TrimSpace payload) 64
  end.

(** A pair of files: the memory in use and its limit, when there is one. *)
Definition cgroup_pair (paths : string * string) : option float64 :=
  match readUint paths.1, s.(readFile) paths.2 with
  | Some used, Ok limitPayload =>
      if String.eqb (TrimSpace limitPayload) "max" then None else
      match ParseUint (TrimSpace limitPayload) 64 with
      | Some limit => if (limit =? 0) || (2 ^ 60 <? limit) then None else divide used limit
      | None => None
      end
  | _, _ => None
  end.

(** The loop over the pairs ends with the first that has a limit. *)
Fixpoint cgroup_pairs (pairs : list (string * string)) : option float64 :=
  match pairs with
  | [] => None
  | paths :: pairs => match cgroup_pair paths with Some ratio => Some ratio | None => cgroup_pairs pairs end
  end.

Definition cgroupMemoryRatio : option float64 := cgroup_pairs [
  ("/sys/fs/cgroup/memory.current", "/sys/fs/cgroup/memory.max");
  ("/sys/fs/cgroup/memory/memory.usage_in_bytes", "/sys/fs/cgroup/memory/memory.limit_in_bytes")].

(** The lines of [/proc/meminfo]; a later line replaces an earlier one. *)
Definition meminfo_line (values : gmap string Z) (line : string) : gmap string Z :=
  match Fields line with
  | name :: number :: _ =>
      let key := TrimSuffix name ":" in
      if bool_decide (key ∈ ["MemTotal"; "MemAvailable"]) then
        match ParseUint number 64 with Some value => <[key := value]> values | None => values end
      else values
  | _ => values
  end.

Definition procMemoryRatio : option float64 :=
  match s.(readFile) "/proc/meminfo" with
  | Err _ => None
  | Ok payload =>
      let values := foldl meminfo_line ∅ (GoText.Split payload (ascii_of_Z 10)) in
      match values !! "MemTotal", values !! "MemAvailable" with
      | Some total, Some available =>
          if (total =? 0) || (total <? available) then None else divide (total - available) total
      | _, _ => None
      end
  end.

Definition procLoadRatio : option float64 :=
  match s.(readFile) "/proc/loadavg" with
  | Err _ => None
  | Ok payload =>
      match Fields payload with
      | [] => None
      | field :: _ =>
          if s.(cpuCount) <? 1 then None else
          match ParseFloat field with
          | None => None
          | Some load =>
              if IsNaN load || IsInf load || flt load float_zero then None
              else Some (float_div load (float_of s.(cpuCount)))
          end
      end
  end.

Definition Sample : Governor.Sample :=
  let memoryRatio := match cgroupMemoryRatio with Some ratio => Some ratio | None => procMemoryRatio end in
  let memoryRatio :=
    match memoryRatio, s.(processMemory) with
    | None, Some (Some (used, limit)) => divide used limit
    | _, _ => memoryRatio
    end in
  Governor.mkSample memoryRatio procLoadRatio.
End sampler.

Definition maxMetricFileBytes : Z := 64 * 1024.

(** [readSmallFile], of what opening a file gives: its content, and whether reading it
    breaks off. *)
Definition readSmallFile (opened : result (string * bool)) : result string :=
  match opened with
  | Err err => Err err
  | Ok (content, broken) =>
      if (len content <=? maxMetricFileBytes) && broken then Err (NewError "read")
      else if maxMetricFileBytes <? len content then Err (NewError "metric file exceeds size limit")
      else Ok content
  end.

(** [processMemoryUsage], of the samples of the runtime: [None] for one of another kind. *)
Definition processMemoryUsage (total released limit : option Z) : option (Z * Z) :=
  match total, released, limit with
  | Some total, Some released, Some limit =>
      if (total <? released) || (limit =? 0) || (2 ^ 60 <? limit) then None else Some (total - released, limit)
  | _, _, _ => None
  end.
End systemSampler.

(** ** Rounding *)

(** A shift of the record is one of its mantissa. *)
Lemma shr_1_m r : 0 ≤ shr_m r → shr_m (shr_1 r) = shr_m r / 2.
Proof. destruct r as [[|[p|p|]|p] b c]; simpl; intros; try done; try lia; Z.to_euclidean_division_equations; lia. Qed.

Lemma iter_shr_m p r : 0 ≤ shr_m r → shr_m (iter_pos shr_1 p r) = shr_m r / 2 ^ Zpos p.
Proof.
  revert r. induction p as [p IH|p IH|]; intros r Hr; simpl iter_pos; [| |by rewrite shr_1_m].
  all: assert (0 < 2 ^ Zpos p) as Hp by (apply Z.pow_pos_nonneg; lia).
  - assert (0 ≤ shr_m (shr_1 r)) as H1 by (rewrite shr_1_m by done; by apply Z.div_pos).
    rewrite IH; [|rewrite IH by done; apply Z.div_pos; lia]. rewrite IH, shr_1_m by done.
    rewrite !Z.div_div by lia. f_equal. rewrite (Pos2Z.inj_xI p), Z.pow_add_r, Z.pow_mul_r by lia.
    change (2 ^ 2) with (2 * 2). rewrite Z.pow_mul_l. lia.
  - rewrite IH; [|rewrite IH by done; apply Z.div_pos; lia]. rewrite IH by done.
    rewrite Z.div_div by lia. f_equal. rewrite (Pos2Z.inj_xO p), Z.pow_mul_r by lia.
    change (2 ^ 2) with (2 * 2). by rewrite Z.pow_mul_l.
Qed.

Lemma shr_record_of_loc_m m l : shr_m (shr_record_of_loc m l) = m.
Proof. by destruct l as [|[]]. Qed.

(** [shr_fexp] divides by a power of two; the exponent becomes that of the format. *)
Lemma shr_fexp_spec m e l (r : shr_record) e' : 0 ≤ m → shr_fexp 53 1024 m e l = (r, e') →
  let n := Z.max 0 (fexp 53 1024 (Zdigits2 m + e) - e) in shr_m r = m / 2 ^ n ∧ e' = e + n.
Proof.
  intros Hm. unfold shr_fexp, shr. destruct (fexp 53 1024 (Zdigits2 m + e) - e) as [|p|p] eqn:E; intros [= <- <-].
  - rewrite shr_record_of_loc_m. simpl. rewrite Z.div_1_r. lia.
  - rewrite iter_shr_m; rewrite shr_record_of_loc_m; [|done].
    rewrite (Z.max_r 0) by lia. done.
  - rewrite shr_record_of_loc_m. simpl. rewrite Z.div_1_r. lia.
Qed.

Lemma Zdigits2_size p : Zdigits2 (Zpos p) = Zpos (Pos.size p).
Proof. done. Qed.

Lemma Zdigits2_bounds m : 0 < m → 2 ^ (Zdigits2 m - 1) ≤ m < 2 ^ Zdigits2 m.
Proof.
  intros Hm. destruct m as [|p|p]; [done| |done]. rewrite Zdigits2_size.
  pose proof (Pos.size_gt p) as Hgt. pose proof (Pos.size_le p) as Hle.
  assert (Zpos (2 ^ Pos.size p) = 2 ^ Zpos (Pos.size p)) as E by by rewrite Pos2Z.inj_pow.
  assert (2 ^ Zpos (Pos.size p) = 2 * 2 ^ (Zpos (Pos.size p) - 1)) as E2.
  { rewrite <-Z.pow_succ_r by lia. f_equal. lia. }
  apply Pos2Z.pos_lt_pos in Hgt. apply Pos2Z.pos_le_pos in Hle. lia.
Qed.

Lemma round_nearest_even_ge m l : m ≤ round_nearest_even m l.
Proof. unfold round_nearest_even. destruct l as [|[]]; try destruct (Z.even m); lia. Qed.

Definition not_negative (x : float64) : Prop := IsNaN x = false ∧ flt x float_zero = false.

(** Rounding a number that is not negative. *)
Lemma binary_round_aux_not_negative m e l : 0 ≤ m → not_negative (binary_round_aux 53 1024 false m e l).
Proof.
  intros Hm. unfold binary_round_aux. destruct (shr_fexp _ _ m e l) as [r e'] eqn:E1.
  apply shr_fexp_spec in E1 as [Hr _]; [|done].
  assert (0 ≤ shr_m r) as Hr0 by (rewrite Hr; apply Z.div_pos; [done|apply Z.pow_pos_nonneg; lia]).
  destruct (shr_fexp _ _ (round_nearest_even _ _) e' _) as [r' e''] eqn:E2.
  pose proof (round_nearest_even_ge (shr_m r) (loc_of_shr_record r)).
  apply shr_fexp_spec in E2 as [Hr' _]; [|lia].
  assert (0 ≤ shr_m r') as Hr1 by (rewrite Hr'; apply Z.div_pos; [lia|apply Z.pow_pos_nonneg; lia]).
  destruct (shr_m r') as [|p|p]; [done| |lia]. by destruct (e'' <=? 1024 - 53).
Qed.

Lemma SFdiv_core_not_negative m1 e1 m2 e2 mz ez lz : 0 ≤ m1 → 0 < m2 → SFdiv_core_binary 53 1024 m1 e1 m2 e2 = (mz, ez, lz) → 0 ≤ mz.
Proof.
  intros Hm1 Hm2. unfold SFdiv_core_binary.
  match goal with |- context [Z.div_eucl ?x m2] => set (m' := x) end.
  assert (0 ≤ m') as Hm'.
  { subst m'. destruct (_ - _ - _); [done| |done]. by apply Z.shiftl_nonneg. }
  pose proof (Z_div_mod m' m2 ltac:(lia)) as Hdiv. destruct (Z.div_eucl m' m2) as [q r]. intros [= <- _ _].
  destruct Hdiv as [Hq Hr]. nia.
Qed.

(** A float above zero, an infinite one included. *)
Definition above_zero (x : float64) : Prop := match x with S754_finite false _ _ | S754_infinity false => True | _ => False end.

Lemma float_div_not_negative x y : not_negative x → IsInf x = false → above_zero y → not_negative (float_div x y).
Proof.
  unfold float_div, SFdiv. intros [Hn Hx] Hi Hy.
  destruct x as [[]|[]| |[] mx ex], y as [|[]| |[] my ey]; try done.
  destruct (SFdiv_core_binary _ _ _ _ _ _) as [[mz ez] lz] eqn:E. apply binary_round_aux_not_negative.
  by eapply SFdiv_core_not_negative; [| |exact E].
Qed.

(** A shift by no more than the digits beyond the precision leaves something. *)
Lemma shr_fexp_positive m e l r e' : 0 < m → -1000 ≤ e → shr_fexp 53 1024 m e l = (r, e') → 0 < shr_m r ∧ -1000 ≤ e'.
Proof.
  intros Hm He E. apply shr_fexp_spec in E as [-> ->]; [|lia]. split; [|lia].
  pose proof (Zdigits2_bounds m Hm) as [Hlo _]. unfold fexp, SpecFloat.emin.
  set (d := Zdigits2 m) in *. set (n := Z.max 0 _).
  apply Z.div_str_pos. split; [apply Z.pow_pos_nonneg; lia|].
  destruct (decide (n = 0)) as [->|Hn]; [simpl; lia|].
  assert (n ≤ d - 1) as Hnd by (subst n; lia).
  etrans; [apply Z.pow_le_mono_r; [done|exact Hnd]|exact Hlo].
Qed.

Lemma binary_round_aux_positive m e l : 0 < m → -1000 ≤ e → above_zero (binary_round_aux 53 1024 false m e l).
Proof.
  intros Hm He. unfold binary_round_aux. destruct (shr_fexp _ _ m e l) as [r e'] eqn:E1.
  apply shr_fexp_positive in E1 as [Hr He']; [|done..].
  destruct (shr_fexp _ _ (round_nearest_even _ _) e' _) as [r' e''] eqn:E2.
  pose proof (round_nearest_even_ge (shr_m r) (loc_of_shr_record r)).
  apply shr_fexp_positive in E2 as [Hr' _]; [|lia|done].
  destruct (shr_m r') as [|p|p]; [lia| |lia]. by destruct (e'' <=? 1024 - 53).
Qed.

Lemma float_of_positive n : 0 < n → above_zero (float_of n).
Proof.
  intros Hn. destruct n as [|p|p]; [done| |done]. unfold float_of, binary_normalize, binary_round.
  destruct (shl_align _ _ _) as [mz ez] eqn:E. apply binary_round_aux_positive; [done|].
  unfold shl_align in E. unfold fexp, SpecFloat.emin in E.
  match type of E with match ?x with _ => _ end = _ => destruct x eqn:Ex; injection E as <- <- end; lia.
Qed.

Lemma float_of_not_negative n : 0 ≤ n → not_negative (float_of n).
Proof.
  intros Hn. destruct (decide (n = 0)) as [->|]; [done|].
  pose proof (float_of_positive n ltac:(lia)) as Hp. by destruct (float_of n) as [|[]| |[] m e].
Qed.

Lemma Zdigits2_le m k : 0 ≤ k → 0 ≤ m < 2 ^ k → Zdigits2 m ≤ k.
Proof.
  intros Hk Hm. destruct (decide (m = 0)) as [->|]; [done|]. pose proof (Zdigits2_bounds m ltac:(lia)) as [Hlo _].
  destruct (Z.lt_ge_cases k (Zdigits2 m)); [|done]. exfalso.
  pose proof (Z.pow_le_mono_r 2 k (Zdigits2 m - 1)). lia.
Qed.

(** A number of a hundred bits is far from the largest float. *)
Lemma binary_round_aux_finite m e l : 0 ≤ m < 2 ^ 100 → -1000 ≤ e ≤ 100 → IsInf (binary_round_aux 53 1024 false m e l) = false.
Proof.
  intros Hm He. unfold binary_round_aux. destruct (shr_fexp _ _ m e l) as [r e'] eqn:E1.
  apply shr_fexp_spec in E1 as [Hr Hr']; [|lia]. set (n1 := Z.max 0 _) in *.
  destruct (shr_fexp _ _ (round_nearest_even _ _) e' _) as [r' e''] eqn:E2.
  pose proof (Zdigits2_le m 100 ltac:(done) Hm) as Hd.
  assert (0 ≤ shr_m r ≤ m) as Hrm.
  { rewrite Hr. assert (0 < 2 ^ n1) by (apply Z.pow_pos_nonneg; lia). split; [by apply Z.div_pos; lia|].
    apply Z.div_le_upper_bound; [lia|]. nia. }
  assert (0 ≤ round_nearest_even (shr_m r) (loc_of_shr_record r) ≤ m + 1) as Hrnd.
  { unfold round_nearest_even. destruct (loc_of_shr_record r) as [|[]]; try destruct (Z.even _); lia. }
  pose proof (Zdigits2_le (round_nearest_even (shr_m r) (loc_of_shr_record r)) 101 ltac:(done)) as Hd'.
  apply shr_fexp_spec in E2 as [_ Hr'']; [|lia]. rewrite Hr'' in *. clear Hr Hr''.
  assert (2 ^ 101 = 2 * 2 ^ 100) as Hpow by done.
  unfold fexp, SpecFloat.emin in *.
  destruct (shr_m r') as [|p|p]; [done| |done]. rewrite (proj2 (Z.leb_le _ _)) by lia. done.
Qed.

Lemma float_of_finite n : 0 ≤ n < 2 ^ 64 → IsInf (float_of n) = false.
Proof.
  intros Hn. destruct n as [|p|p]; [done| |lia]. unfold float_of, binary_normalize, binary_round.
  pose proof (Zdigits2_le (Zpos p) 64 ltac:(done) Hn) as Hd. pose proof (Zdigits2_bounds (Zpos p) ltac:(done)) as Hb.
  change (Zpos (digits2_pos p)) with (Zdigits2 (Zpos p)). set (d := Zdigits2 (Zpos p)) in *.
  assert (1 ≤ d) as H1 by (subst d; rewrite Zdigits2_size; lia).
  unfold shl_align, fexp, SpecFloat.emin. destruct (_ - 0) as [|q|q] eqn:E; apply binary_round_aux_finite; try lia.
  assert (Zpos (Pos.iter xO p q) = Zpos p * 2 ^ Zpos q) as ->.
  { clear. induction q as [|q IH] using Pos.peano_ind; [rewrite Z.pow_1_r; simpl; lia|].
    rewrite Pos.iter_succ, Pos2Z.inj_succ, Z.pow_succ_r, Pos2Z.inj_xO by lia. lia. }
  assert (Zpos q = 53 - d) as -> by lia.
  assert (2 ^ d * 2 ^ (53 - d) = 2 ^ 53) as Hp by (rewrite <-Z.pow_add_r by lia; f_equal; lia).
  assert (0 < 2 ^ (53 - d)) by (apply Z.pow_pos_nonneg; lia). nia.
Qed.

(** ** What is sampled *)

(** Where a memory ratio may come from. *)
Inductive memory_source (s : systemSampler.t) : Z → Z → Prop :=
  | from_cgroup used_path limit_path used limit payload :
      (used_path, limit_path) ∈ [("/sys/fs/cgroup/memory.current", "/sys/fs/cgroup/memory.max");
        ("/sys/fs/cgroup/memory/memory.usage_in_bytes", "/sys/fs/cgroup/memory/memory.limit_in_bytes")] →
      systemSampler.readUint s used_path = Some used → s.(systemSampler.readFile) limit_path = Ok payload →
      ParseUint (TrimSpace payload) 64 = Some limit → limit ≤ 2 ^ 60 → memory_source s used limit
  | from_meminfo payload values available total :
      s.(systemSampler.readFile) "/proc/meminfo" = Ok payload →
      values = foldl systemSampler.meminfo_line ∅ (GoText.Split payload (ascii_of_Z 10)) →
      values !! "MemTotal" = Some total → values !! "MemAvailable" = Some available → available ≤ total →
      memory_source s (total - available) total
  | from_process used limit : s.(systemSampler.processMemory) = Some (Some (used, limit)) → memory_source s used limit.

Definition uint64 (n : Z) : Prop := 0 ≤ n < 2 ^ 64.

Lemma ParseUint_uint64 text n : ParseUint text 64 = Some n → uint64 n.
Proof.
  unfold ParseUint. case_bool_decide; [done|]. destruct (digits_from 0 text) as [m|] eqn:E; [|done]. cbn.
  destruct (Z.ltb_spec m (2 ^ 64)); [|done]. intros [= <-]. split; [|done].
  by apply digits_from_bound in E as [? _].
Qed.

Lemma divide_not_negative used limit r : uint64 used → uint64 limit → systemSampler.divide used limit = Some r →
  not_negative r ∧ 0 < limit ∧ r = float_div (float_of used) (float_of limit).
Proof.
  intros Hu Hl. unfold systemSampler.divide. destruct (Z.eqb_spec limit 0); [done|]. intros [= <-]. unfold uint64 in *.
  split; [|split; [lia|done]]. apply float_div_not_negative; [apply float_of_not_negative; lia|by apply float_of_finite|apply float_of_positive; lia].
Qed.

Lemma meminfo_uint64 lines values : map_Forall (λ _, uint64) values → map_Forall (λ _, uint64) (foldl systemSampler.meminfo_line values lines).
Proof.
  revert values. induction lines as [|line lines IH]; intros values Hv; [done|]. apply IH. unfold systemSampler.meminfo_line.
  destruct (Fields line) as [|name [|number rest]]; try done. case_bool_decide; [|done].
  destruct (ParseUint number 64) as [value|] eqn:E; [|done]. apply map_Forall_insert_2; [by eapply ParseUint_uint64|done].
Qed.

Lemma cgroup_pairs_source s pairs r : systemSampler.cgroup_pairs s pairs = Some r → ∃ paths, paths ∈ pairs ∧ systemSampler.cgroup_pair s paths = Some r.
Proof.
  induction pairs as [|paths pairs IH]; [done|]. cbn. destruct (systemSampler.cgroup_pair s paths) as [r'|] eqn:E.
  - intros [= <-]. exists paths. split; [by left|done].
  - intros (paths' & Hin & Hr)%IH. exists paths'. split; [by right|done].
Qed.

(** A ratio with its source. *)
Definition sourced (s : systemSampler.t) (r : float64) : Prop :=
  not_negative r ∧ ∃ used limit, memory_source s used limit ∧ 0 < limit ∧ r = float_div (float_of used) (float_of limit).

Lemma cgroup_sourced s r : systemSampler.cgroupMemoryRatio s = Some r → sourced s r.
Proof.
  intros ([used_path limit_path] & Hin & Hr)%cgroup_pairs_source. unfold systemSampler.cgroup_pair in Hr. cbn [fst snd] in Hr.
  destruct (systemSampler.readUint s used_path) as [used|] eqn:Hu; [|done].
  destruct (s.(systemSampler.readFile) limit_path) as [payload|] eqn:Hp; [|done]. destruct (String.eqb _ _); [done|].
  destruct (ParseUint _ 64) as [limit|] eqn:Hl; [|done].
  destruct (_ || _) eqn:Hbad; [done|]. apply orb_false_iff in Hbad as [_ Hmax%Z.ltb_ge].
  assert (uint64 used) as Hu64.
  { unfold systemSampler.readUint in Hu. destruct (s.(systemSampler.readFile) used_path); [by eapply ParseUint_uint64|done]. }
  apply divide_not_negative in Hr as (Hn & Hpos & ->); [|done|by eapply ParseUint_uint64].
  split; [done|]. exists used, limit. split_and!; [by eapply from_cgroup|done|done].
Qed.

Lemma proc_sourced s r : systemSampler.procMemoryRatio s = Some r → sourced s r.
Proof.
  unfold systemSampler.procMemoryRatio. destruct (s.(systemSampler.readFile) "/proc/meminfo") as [payload|] eqn:Hp; [|done].
  cbv zeta. set (values := foldl _ _ _). assert (map_Forall (λ _, uint64) values) as Hv by by apply meminfo_uint64, map_Forall_empty.
  destruct (values !! "MemTotal") as [total|] eqn:Ht; [|done]. destruct (values !! "MemAvailable") as [available|] eqn:Ha; [|done].
  destruct (_ || _) eqn:Hbad; [done|]. apply orb_false_iff in Hbad as [_ Hle%Z.ltb_ge].
  pose proof (Hv _ _ Ht) as Ht64. pose proof (Hv _ _ Ha) as Ha64.
  intros (Hn & Hpos & ->)%divide_not_negative; [|unfold uint64 in *; lia|done].
  split; [done|]. exists (total - available), total. split_and!; [by eapply from_meminfo|done|done].
Qed.

(** C23: What the governors are given to compare is always a number that can be compared:
    a memory ratio is no NaN and not negative, it is the quotient of what a cgroup, the
    kernel or the process reports to be in use and of its limit, which is not zero; a
    load is no NaN and not negative either and is shared by at least one processor; and a
    machine of which nothing can be read gives no ratio, under which a governor admits
    as many operations as it may at most. *)
Theorem Sample_comparable s :
  (∀ used limit, s.(systemSampler.processMemory) = Some (Some (used, limit)) → uint64 used ∧ uint64 limit) →
  (∀ r, (systemSampler.Sample s).(Governor.MemoryRatio) = Some r → sourced s r) ∧
  (∀ r, (systemSampler.Sample s).(Governor.LoadRatio) = Some r → not_negative r ∧ 1 ≤ s.(systemSampler.cpuCount)) ∧
  ((∀ path, is_ok (s.(systemSampler.readFile) path) = false) → from_option id None s.(systemSampler.processMemory) = None →
   ∀ g now, (Governor.snapshotLocked g (systemSampler.Sample s) now).(Governor.OperationLimit) = g.(Governor.maxConcurrent)).
Proof.
  intros Hprocess. split_and!.
  - intros r. unfold systemSampler.Sample. cbn [Governor.MemoryRatio]. destruct (systemSampler.cgroupMemoryRatio s) as [r'|] eqn:Ec; [intros [= <-]; by apply cgroup_sourced|].
    destruct (systemSampler.procMemoryRatio s) as [r'|] eqn:Ep; [intros [= <-]; by apply proc_sourced|].
    destruct (s.(systemSampler.processMemory)) as [[[used limit]|]|] eqn:Em; [|done..].
    destruct (Hprocess used limit eq_refl). intros (Hn & Hpos & ->)%divide_not_negative; [|done..].
    split; [done|]. exists used, limit. split_and!; [by apply from_process|done|done].
  - intros r. unfold systemSampler.Sample. cbn [Governor.LoadRatio]. unfold systemSampler.procLoadRatio. destruct (s.(systemSampler.readFile) _) as [payload|]; [|done].
    destruct (Fields payload) as [|field rest]; [done|]. destruct (Z.ltb_spec s.(systemSampler.cpuCount) 1) as [|Hc]; [done|].
    destruct (ParseFloat field) as [load|]; [|done]. destruct (_ || _) eqn:Hbad; [done|].
    apply orb_false_iff in Hbad as [[Hnan Hinf]%orb_false_iff Hneg]. intros [= <-]. split; [|done].
    apply float_div_not_negative; [done|done|apply float_of_positive; lia].
  - intros Hread Hp g now. assert (∀ path, ∃ err, s.(systemSampler.readFile) path = Err err) as Herr.
    { intros path. specialize (Hread path). destruct (s.(systemSampler.readFile) path) as [|err]; [done|by exists err]. }
    assert (systemSampler.Sample s = Governor.mkSample None None) as ->.
    { unfold systemSampler.Sample, systemSampler.procLoadRatio, systemSampler.procMemoryRatio, systemSampler.cgroupMemoryRatio.
      cbn. unfold systemSampler.cgroup_pair, systemSampler.readUint. cbn.
      destruct (Herr "/sys/fs/cgroup/memory.current") as [? ->], (Herr "/sys/fs/cgroup/memory/memory.usage_in_bytes") as [? ->],
        (Herr "/proc/meminfo") as [? ->], (Herr "/proc/loadavg") as [? ->].
      by destruct (s.(systemSampler.processMemory)) as [[[]|]|]. }
    rewrite Governor.snapshotLocked_limit. unfold Governor.capacity. cbn. by destruct (negb _).
Qed.

(** ** An example *)

Definition example_sampler : systemSampler.t := systemSampler.mk
  (λ path,
    if String.eqb path "/sys/fs/cgroup/memory.current" then Ok ("840" +:+ String (ascii_of_Z 10) "")
    else if String.eqb path "/sys/fs/cgroup/memory.max" then Ok ("1000" +:+ String (ascii_of_Z 10) "")
    else if String.eqb path "/proc/loadavg" then Ok "1.50 1.20 1.00 2/100 99"
    else Err (NewError "missing")) 2 (Some (Some (0, 1))).

Example example_sampled : systemSampler.Sample example_sampler =
  Governor.mkSample (Some (float_div (float_of 84) (float_of 100))) (Some (float_div (float_of 3) (float_of 4))).
Proof. by vm_compute. Qed.

Lemma Sample_comparable_witness :
  ∃ r, (systemSampler.Sample example_sampler).(Governor.MemoryRatio) = Some r ∧ sourced example_sampler r.
Proof.
  destruct (Sample_comparable example_sampler) as (Hm & _); [intros used limit [= <- <-]; split; by vm_compute|].
  exists (float_div (float_of 84) (float_of 100)). split; [by vm_compute|]. apply Hm. by vm_compute.
Defined.
