(* ===== verification/GatewayCache.v ===== *)
(** * The cache of Kubernetes gateways (src/internal/platform/gateway_cache.go)

    One gateway per cluster, built at most once at a time, shared by concurrent
    requests, and retired by expiry, eviction, invalidation or closing.  The mutex
    makes each critical section of the source atomic, so a call of [Get] is a
    machine whose phases are the stretches between two unlockings.  A pointer to a
    pending build outlives its map entry, so pending builds live in a store
    ([heap]) and are named by their index.  Where the source ranges over a map,
    the order is that of [map_to_list]; no property depends on it. *)

From S2P Require Export Governor.

Local Open Scope Z_scope.
Local Open Scope stdpp_scope.

Module GatewayCache.
Section cache.
(** Gateways are opaque values; fingerprints are compared for equality. *)
Context {gateway fingerprint : Type} `{EqDecision fingerprint}.

Definition defaultGatewayCacheSize : Z := 8.
Definition maximumGatewayCacheSize : Z := 64.
Definition defaultGatewayCacheTTL : duration := 10 * minute.
Definition minimumGatewayCacheTTL : duration := minute.
Definition maximumGatewayCacheTTL : duration := hour.

Record Entry : Type := mkEntry {
  entry_fingerprint : fingerprint;
  entry_gateway : gateway;
  lastUsed : time;
}.

(** [outcome] is [None] until [done] is closed, then the error field. *)
Record Build : Type := mkBuild {
  build_fingerprint : fingerprint;
  outcome : option (option error);
}.

Record t : Type := mk {
  entries : gmap string Entry;
  builds : gmap string nat;
  generations : gmap string Z;
  maximum : Z;
  capacity : Z;
  ttl : duration;
  closed : bool;
  heap : list Build;
}.

Definition set_entries (c : t) (es : gmap string Entry) : t :=
  mk es c.(builds) c.(generations) c.(maximum) c.(capacity) c.(ttl) c.(closed) c.(heap).
Definition set_builds (c : t) (bs : gmap string nat) (h : list Build) : t :=
  mk c.(entries) bs c.(generations) c.(maximum) c.(capacity) c.(ttl) c.(closed) h.
Definition set_capacity (c : t) (n : Z) : t :=
  mk c.(entries) c.(builds) c.(generations) c.(maximum) n c.(ttl) c.(closed) c.(heap).

Definition newGatewayCache (maximum : Z) (ttl : duration) : result t :=
  reject_if ((maximum <? 1) || (maximumGatewayCacheSize <? maximum))
    (NewError "Kubernetes client cache size must be between 1 and 64") ;;
  reject_if ((ttl <? minimumGatewayCacheTTL) || (maximumGatewayCacheTTL <? ttl))
    (NewError "Kubernetes client cache TTL must be between 1m and 1h") ;;
  Ok (mk ∅ ∅ ∅ maximum maximum ttl false []).

Definition gateways (es : gmap string Entry) : list gateway :=
  (λ p, p.2.(entry_gateway)) <$> map_to_list es.

(** ** Expiry and eviction *)

Definition fresh (ttl : duration) (now : time) (e : Entry) : bool :=
  Before now (Add e.(lastUsed) ttl).

Definition expireLocked (c : t) (now : time) : t * list gateway :=
  (set_entries c (filter (λ p, fresh c.(ttl) now p.2 = true) c.(entries)),
   gateways (filter (λ p, fresh c.(ttl) now p.2 = false) c.(entries))).

(** The inner loop of [evictLocked]: the candidate so far, and the next entry. *)
Definition older (candidate : option (string * time)) (p : string * Entry) : option (string * time) :=
  let '(clusterID, entry) := p in
  match candidate with
  | None => Some (clusterID, entry.(lastUsed))
  | Some (oldestID, oldestTime) =>
      if Before entry.(lastUsed) oldestTime ||
         (TimeEqual entry.(lastUsed) oldestTime && String.ltb clusterID oldestID)
      then Some (clusterID, entry.(lastUsed)) else candidate
  end.

Definition oldest (es : gmap string Entry) : option (string * time) :=
  foldl older None (map_to_list es).

(** The outer loop; every turn deletes an entry, so [size es] turns suffice. *)
Fixpoint evict (fuel : nat) (capacity : Z) (es : gmap string Entry) (retired : list gateway) :
    gmap string Entry * list gateway :=
  match fuel with
  | O => (es, retired)
  | S fuel =>
      if capacity <? Z.of_nat (size es) then
        match oldest es with
        | None => (es, retired)
        | Some (oldestID, _) =>
            match es !! oldestID with
            | Some e => evict fuel capacity (delete oldestID es) (retired ++ [e.(entry_gateway)])
            | None => (es, retired)
            end
        end
      else (es, retired)
  end.

Definition evictLocked (c : t) : t * list gateway :=
  let '(es, retired) := evict (size c.(entries)) c.(capacity) c.(entries) [] in
  (set_entries c es, retired).

Definition adaptiveGatewayCacheCapacity (maximum : Z) (snapshot : Governor.Snapshot) : Z :=
  if negb snapshot.(Governor.Adaptive) then maximum
  else if bool_decide (snapshot.(Governor.SnapshotPressure) = Governor.PressureConstrained)
  then Z.max 1 (Z.quot (wrap_int (maximum + 1)) 2)
  else if bool_decide (snapshot.(Governor.SnapshotPressure) = Governor.PressureCritical)
  then 1
  else maximum.

(** ** The critical sections of [Get] *)

Inductive entered : Type :=
  | Return (r : result gateway)
  | WaitFor (pending : nat)
  | StartBuild (generation : Z) (pending : nat).

(** One turn of the loop up to the first unlocking. *)
Definition get_enter (c : t) (now : time) (clusterID : string) (fp : fingerprint) :
    t * list gateway * entered :=
  if c.(closed) then (c, [], Return (Err ErrInvalidState))
  else
    let '(c, retired) := expireLocked c now in
    let miss c retired :=
      match c.(builds) !! clusterID with
      | Some pending => (c, retired, WaitFor pending)
      | None =>
          let generation := default 0 (c.(generations) !! clusterID) in
          let pending := length c.(heap) in
          (set_builds c (<[clusterID := pending]> c.(builds)) (c.(heap) ++ [mkBuild fp None]),
           retired, StartBuild generation pending)
      end in
    match c.(entries) !! clusterID with
    | Some entry =>
        if bool_decide (entry.(entry_fingerprint) = fp) then
          let entry := mkEntry entry.(entry_fingerprint) entry.(entry_gateway) now in
          (set_entries c (<[clusterID := entry]> c.(entries)), retired,
           Return (Ok entry.(entry_gateway)))
        else
          miss (set_entries c (delete clusterID c.(entries)))
               (retired ++ [entry.(entry_gateway)])
    | None => miss c retired
    end.

(** The critical section after [build] has returned. *)
Definition get_finish (c : t) (now : time) (clusterID : string) (fp : fingerprint)
    (generation : Z) (pending : nat) (built : option gateway) (buildErr : option error) :
    t * list gateway * result gateway :=
  let c := set_builds c (delete clusterID c.(builds)) c.(heap) in
  let '(c, retired, r) :=
    match buildErr, built with
    | Some err, _ => (c, option_list built, Err err)
    | None, None => (c, [], Err (NewError "Kubernetes gateway builder returned no gateway"))
    | None, Some g =>
        if c.(closed) || negb (default 0 (c.(generations) !! clusterID) =? generation)
        then (c, [g], Err ErrInvalidState)
        else
          let retired := entry_gateway <$> option_list (c.(entries) !! clusterID) in
          let c := set_entries c (<[clusterID := mkEntry fp g now]> c.(entries)) in
          let '(c, evicted) := evictLocked c in
          (c, retired ++ evicted, Ok g)
    end in
  let err := match r with Ok _ => None | Err e => Some e end in
  (set_builds c c.(builds) (<[pending := mkBuild fp (Some err)]> c.(heap)), retired, r).

(** What a waiter does once [pending.done] is closed: [Some err] to return it,
    [None] to go round the loop again. *)
Definition wake (b : Build) (fp : fingerprint) : option (option error) :=
  match b.(outcome) with
  | None => None
  | Some err => Some (if bool_decide (b.(build_fingerprint) = fp) then err else None)
  end.

(** ** The other operations *)

Definition Invalidate (c : t) (clusterID : string) : t * list gateway :=
  (mk (delete clusterID c.(entries)) c.(builds)
      (<[clusterID := wrap_uint64 (default 0 (c.(generations) !! clusterID) + 1)]> c.(generations))
      c.(maximum) c.(capacity) c.(ttl) c.(closed) c.(heap),
   entry_gateway <$> option_list (c.(entries) !! clusterID)).

Definition Reconcile (c : t) (snapshot : Governor.Snapshot) (now : time) : t * list gateway :=
  if c.(closed) then (c, [])
  else
    let c := set_capacity c (adaptiveGatewayCacheCapacity c.(maximum) snapshot) in
    let '(c, expired) := expireLocked c now in
    let '(c, evicted) := evictLocked c in
    (c, expired ++ evicted).

Definition Close (c : t) : t * list gateway :=
  if c.(closed) then (c, [])
  else (mk ∅ c.(builds) c.(generations) c.(maximum) c.(capacity) c.(ttl) true c.(heap),
        gateways c.(entries)).

Record CacheSnapshot : Type := mkCacheSnapshot {
  Entries : Z; Capacity : Z; Maximum : Z; Building : Z }.

Definition Snapshot (c : t) : CacheSnapshot :=
  mkCacheSnapshot (Z.of_nat (size c.(entries))) c.(capacity) c.(maximum)
    (Z.of_nat (size c.(builds))).

(** ** Concurrent callers

    A world is a cache with the threads inside [Get].  [ever_built] records every
    gateway a build returned, with the request it was built for, and [ever_retired]
    the gateways whose idle connections were closed. *)

Inductive phase : Type :=
  | Entering
  | Waiting (pending : nat)
  | Building_ (generation : Z) (pending : nat)
  | Returned (r : result gateway).

Record thread : Type := mkThread {
  thread_cluster : string;
  thread_fingerprint : fingerprint;
  thread_phase : phase;
}.

Record world : Type := mkWorld {
  cache : t;
  threads : gmap nat thread;
  ever_built : list (string * fingerprint * gateway);
  ever_retired : list gateway;
}.

Definition init (c : t) : world := mkWorld c ∅ [] [].

Inductive action : Type :=
  (** a new call of [Get]; [Some err] when its context is already done *)
  | Call (tid : nat) (clusterID : string) (fp : fingerprint) (ctxErr : option error)
  | Enter (tid : nat) (now : time)
  | Wake (tid : nat)
  | Cancel (tid : nat) (ctxErr : error)
  | Finish (tid : nat) (now : time) (built : option gateway) (buildErr : option error)
  | DoInvalidate (clusterID : string)
  | DoReconcile (snapshot : Governor.Snapshot) (now : time)
  | DoClose.

Definition set_phase (w : world) (tid : nat) (th : thread) (p : phase) : gmap nat thread :=
  <[tid := mkThread th.(thread_cluster) th.(thread_fingerprint) p]> w.(threads).

(** One action; [None] when the action is not possible in this world. *)
Definition exec (w : world) (a : action) : option world :=
  match a with
  | Call tid clusterID fp ctxErr =>
      match w.(threads) !! tid with
      | Some _ => None
      | None =>
          let p := match ctxErr with Some e => Returned (Err e) | None => Entering end in
          Some (mkWorld w.(cache) (<[tid := mkThread clusterID fp p]> w.(threads))
                  w.(ever_built) w.(ever_retired))
      end
  | Enter tid now =>
      th ← w.(threads) !! tid;
      match th.(thread_phase) with
      | Entering =>
          let '(c, retired, e) :=
            get_enter w.(cache) now th.(thread_cluster) th.(thread_fingerprint) in
          let p := match e with
                   | Return r => Returned r
                   | WaitFor pending => Waiting pending
                   | StartBuild generation pending => Building_ generation pending
                   end in
          Some (mkWorld c (set_phase w tid th p) w.(ever_built) (w.(ever_retired) ++ retired))
      | _ => None
      end
  | Wake tid =>
      th ← w.(threads) !! tid;
      match th.(thread_phase) with
      | Waiting pending =>
          b ← w.(cache).(heap) !! pending;
          err ← wake b th.(thread_fingerprint);
          let p := match err with Some e => Returned (Err e) | None => Entering end in
          Some (mkWorld w.(cache) (set_phase w tid th p) w.(ever_built) w.(ever_retired))
      | _ => None
      end
  | Cancel tid ctxErr =>
      th ← w.(threads) !! tid;
      match th.(thread_phase) with
      | Waiting _ =>
          Some (mkWorld w.(cache) (set_phase w tid th (Returned (Err ctxErr)))
                  w.(ever_built) w.(ever_retired))
      | _ => None
      end
  | Finish tid now built buildErr =>
      th ← w.(threads) !! tid;
      match th.(thread_phase) with
      | Building_ generation pending =>
          let '(c, retired, r) :=
            get_finish w.(cache) now th.(thread_cluster) th.(thread_fingerprint)
              generation pending built buildErr in
          Some (mkWorld c (set_phase w tid th (Returned r))
                  (w.(ever_built) ++
                   ((λ g, (th.(thread_cluster), th.(thread_fingerprint), g)) <$> option_list built))
                  (w.(ever_retired) ++ retired))
      | _ => None
      end
  | DoInvalidate clusterID =>
      let '(c, retired) := Invalidate w.(cache) clusterID in
      Some (mkWorld c w.(threads) w.(ever_built) (w.(ever_retired) ++ retired))
  | DoReconcile snapshot now =>
      let '(c, retired) := Reconcile w.(cache) snapshot now in
      Some (mkWorld c w.(threads) w.(ever_built) (w.(ever_retired) ++ retired))
  | DoClose =>
      let '(c, retired) := Close w.(cache) in
      Some (mkWorld c w.(threads) w.(ever_built) (w.(ever_retired) ++ retired))
  end.

Fixpoint run (w : world) (actions : list action) : option world :=
  match actions with
  | [] => Some w
  | a :: actions => exec w a ≫= λ w', run w' actions
  end.

(** A property of the initial world that every action preserves holds in every
    world the actions lead to. *)
Lemma run_invariant (I : world → Prop) :
  (∀ w a w', I w → exec w a = Some w' → I w') →
  ∀ actions w w', I w → run w actions = Some w' → I w'.
Proof.
  intros Hstep actions. induction actions as [|a actions IH]; intros w w' Hw; simpl.
  { by intros [= <-]. }
  rewrite bind_Some. intros (w1 & H1 & H2). by eapply IH, H2; eapply Hstep.
Qed.

(** ** Lemmas on expiry and eviction *)

Lemma gateways_Permutation es es' : es = es' → gateways es ≡ₚ gateways es'.
Proof. by intros ->. Qed.

Lemma gateways_delete es k e :
  es !! k = Some e → gateways es ≡ₚ e.(entry_gateway) :: gateways (delete k es).
Proof. intros Hk. unfold gateways. by rewrite <-(map_to_list_delete _ _ _ Hk). Qed.

Lemma gateways_insert es k e :
  es !! k = None → gateways (<[k:=e]> es) ≡ₚ e.(entry_gateway) :: gateways es.
Proof. intros Hk. unfold gateways. by rewrite map_to_list_insert. Qed.

Lemma gateways_take es k :
  gateways es ≡ₚ (entry_gateway <$> option_list (es !! k)) ++ gateways (delete k es).
Proof.
  destruct (es !! k) as [e|] eqn:Hk; simpl; [by apply gateways_delete|].
  by rewrite delete_id.
Qed.

Lemma gateways_filter (P : string * Entry → bool) es :
  gateways es ≡ₚ gateways (filter (λ p, P p = true) es) ++ gateways (filter (λ p, P p = false) es).
Proof.
  induction es as [|k e es Hk _ IH] using map_first_key_ind.
  { by rewrite !map_filter_empty. }
  assert (∀ b, filter (λ p, P p = b) es !! k = None) as Hnone.
  { intros b. apply map_lookup_filter_None. by left. }
  rewrite gateways_insert, IH, !map_filter_insert, !delete_id by done.
  destruct (P (k, e)) eqn:E; repeat case_decide; try congruence;
    rewrite gateways_insert by done; [done|]. by rewrite Permutation_middle.
Qed.

(** [a] was used no later than [b], ties broken by the cluster's identifier. *)
Definition used_before (a b : string * time) : Prop :=
  a.2 < b.2 ∨ a.2 = b.2 ∧ String.le a.1 b.1.

Lemma used_before_refl a : used_before a a.
Proof. right. by split. Qed.

Lemma used_before_trans a b c : used_before a b → used_before b c → used_before a c.
Proof.
  intros [?|[? Hab]] [?|[? Hbc]]; try (left; lia).
  right. split; [lia|]. by trans b.1.
Qed.

Definition use (p : string * Entry) : string * time := (p.1, p.2.(lastUsed)).

Lemma older_spec a p :
  ∃ b, older a p = Some b ∧ used_before b (use p) ∧
    (b = use p ∨ a = Some b) ∧ (∀ x, a = Some x → used_before b x).
Proof.
  destruct p as [k e], a as [[k0 t0]|]; simpl; unfold use; simpl.
  2:{ eexists. split_and!; eauto using used_before_refl. done. }
  destruct (_ || _) eqn:E.
  - eexists. split_and!; eauto using used_before_refl. intros x [= <-].
    apply orb_true_iff in E as [E|[E1 E2]%andb_true_iff].
    + apply Before_spec in E. by left.
    + right. apply Z.eqb_eq in E1. split; [done|]. apply String_ltb_false.
      rewrite String_ltb_true in E2. apply String_ltb_false.
      by destruct (total String.le k k0).
  - eexists. split_and!; [done| |by right|by intros x [= <-]; apply used_before_refl].
    apply orb_false_iff in E as [E1 E2]. unfold Before in E1.
    apply Z.ltb_ge in E1. apply andb_false_iff in E2 as [E2|E2].
    + unfold TimeEqual in E2. left. simpl. lia.
    + apply String_ltb_false in E2. unfold used_before. simpl.
      destruct (decide (t0 = lastUsed e)); [by right|left; lia].
Qed.

Lemma foldl_older_spec l a b :
  foldl older a l = Some b →
  (a = Some b ∨ ∃ p, p ∈ l ∧ b = use p) ∧ (∀ p, p ∈ l → used_before b (use p)) ∧
  (∀ x, a = Some x → used_before b x).
Proof.
  revert a. induction l as [|p l IH]; intros a; simpl.
  { intros ->. split_and!; [by left|set_solver|intros x [= <-]; apply used_before_refl]. }
  destruct (older_spec a p) as (c & -> & Hcp & Hc & Hca). intros Hb.
  destruct (IH _ Hb) as (Hin & Hall & Hbc). specialize (Hbc c eq_refl). split_and!.
  - destruct Hin as [[= ->]|(q & ? & ->)]; [|right; exists q; split; [by right|done]].
    destruct Hc as [->|Hc]; [right; exists p; split; [by left|done]|by left].
  - intros q [->|Hq]%elem_of_cons; [by eapply used_before_trans|by apply Hall].
  - intros x Hx. by eapply used_before_trans, Hca.
Qed.

Lemma oldest_Some es k t :
  oldest es = Some (k, t) →
  (∃ e, es !! k = Some e) ∧
  (∀ k' e e', es !! k = Some e → es !! k' = Some e' → used_before (use (k, e)) (use (k', e'))).
Proof.
  unfold oldest. intros ([?|([k0 e] & Hin & Hkt)] & Hall & _)%foldl_older_spec; [done|].
  apply elem_of_map_to_list in Hin. unfold use in Hkt. simpl in Hkt. injection Hkt as -> ->.
  split; [eauto|]. intros k' e1 e' Hk Hk'. simplify_eq.
  apply (Hall (k', e')). by apply elem_of_map_to_list.
Qed.

Lemma oldest_None es : oldest es = None → es = ∅.
Proof.
  unfold oldest. destruct (map_to_list es) as [|p l] eqn:E; [by apply map_to_list_empty_iff in E|].
  simpl. destruct (older_spec None p) as (b & -> & _).
  assert (∀ l b, foldl older (Some b) l ≠ None) as Hne; [|by intros ?%Hne].
  clear. intros l. induction l as [|p l IH]; intros b; simpl; [done|].
  destruct (older_spec (Some b) p) as (? & -> & _). apply IH.
Qed.

(** Eviction keeps the most recently used entries, drops no more than it must,
    and retires the gateway of every entry it drops. *)
Lemma evict_spec fuel n es retired es' retired' :
  (size es ≤ fuel)%nat → 0 ≤ n → evict fuel n es retired = (es', retired') →
  es' ⊆ es ∧ Z.of_nat (size es') = Z.min n (Z.of_nat (size es)) ∧
  retired' ++ gateways es' ≡ₚ retired ++ gateways es ∧
  (∀ k e k' e', es' !! k = Some e → es !! k' = Some e' → es' !! k' = None →
    used_before (use (k', e')) (use (k, e))).
Proof.
  revert es retired. induction fuel as [|fuel IH]; intros es retired Hsize Hn; simpl.
  { intros [= <- <-]. assert (size es = 0%nat) as H0 by lia. split_and!; [done|lia|done|].
    intros ???? _. congruence. }
  destruct (n <? Z.of_nat (size es)) eqn:Hc.
  2:{ intros [= <- <-]. apply Z.ltb_ge in Hc. split_and!; [done|lia|done|congruence]. }
  apply Z.ltb_lt in Hc. destruct (oldest es) as [[k t]|] eqn:Ho.
  2:{ apply oldest_None in Ho as ->. rewrite map_size_empty in Hc. lia. }
  apply oldest_Some in Ho as [[e He] Hmin]. rewrite He. intros Hev.
  pose proof (map_size_delete k es) as Hd. rewrite He in Hd. simpl in Hd.
  apply IH in Hev as (Hsub & Hsz & Hperm & Hlru); [|lia..].
  split_and!.
  - etrans; [exact Hsub|apply delete_subseteq].
  - lia.
  - rewrite Hperm, (gateways_delete es k e He), <-app_assoc. done.
  - intros k1 e1 k2 e2 Hk1 Hk2 Hn2.
    assert (es !! k1 = Some e1) as Hk1'.
    { eapply lookup_weaken in Hk1; [|exact Hsub]. by apply lookup_delete_Some in Hk1 as [??]. }
    destruct (decide (k2 = k)) as [->|Hne]; [simplify_eq; by eapply Hmin|].
    eapply Hlru; [done|by rewrite lookup_delete_ne|done].
Qed.

(** ** Trimming the entries

    [trims es es' retired]: the entries [es'] are entries of [es] (used more
    recently at most), and the gateways that left are exactly [retired]. *)
Definition trims (es es' : gmap string Entry) (retired : list gateway) : Prop :=
  (∀ k e', es' !! k = Some e' → ∃ e, es !! k = Some e ∧
    e'.(entry_fingerprint) = e.(entry_fingerprint) ∧ e'.(entry_gateway) = e.(entry_gateway)) ∧
  gateways es ≡ₚ gateways es' ++ retired.

Lemma trims_refl es : trims es es [].
Proof. split; [eauto|by rewrite app_nil_r]. Qed.

Lemma trims_trans es1 es2 es3 r1 r2 :
  trims es1 es2 r1 → trims es2 es3 r2 → trims es1 es3 (r1 ++ r2).
Proof.
  intros [Hs1 Hp1] [Hs2 Hp2]. split.
  - intros k e3 (e2 & He2 & -> & ->)%Hs2. by apply Hs1.
  - by rewrite Hp1, Hp2, <-app_assoc, (Permutation_app_comm r2 r1).
Qed.

Lemma trims_subset es es' retired :
  es' ⊆ es → gateways es ≡ₚ gateways es' ++ retired → trims es es' retired.
Proof. intros Hsub Hp. split; [|done]. intros k e ?. exists e. split; [by eapply lookup_weaken|done]. Qed.

Lemma trims_expire c now :
  trims c.(entries) (expireLocked c now).1.(entries) (expireLocked c now).2.
Proof.
  apply trims_subset; [apply map_filter_subseteq|].
  apply (gateways_filter (λ p, fresh c.(ttl) now p.2)).
Qed.

Lemma trims_delete es k :
  trims es (delete k es) (entry_gateway <$> option_list (es !! k)).
Proof.
  apply trims_subset; [apply delete_subseteq|].
  by rewrite (gateways_take es k), Permutation_app_comm.
Qed.

Lemma trims_touch es k e now :
  es !! k = Some e →
  trims es (<[k := mkEntry e.(entry_fingerprint) e.(entry_gateway) now]> es) [].
Proof.
  intros Hk. split.
  - intros k' e' [[<- <-]|[? ?]]%lookup_insert_Some; eauto.
  - rewrite app_nil_r, (gateways_delete es k e Hk), <-insert_delete_eq.
    by rewrite gateways_insert by apply lookup_delete_eq.
Qed.

Lemma trims_evict c :
  0 ≤ c.(capacity) →
  trims c.(entries) (evictLocked c).1.(entries) (evictLocked c).2.
Proof.
  intros Hc. unfold evictLocked. destruct (evict _ _ _ _) as [es r] eqn:E; simpl.
  apply evict_spec in E as (Hsub & _ & Hp & _); [|lia..].
  apply trims_subset; [done|]. by rewrite Permutation_app_comm, Hp.
Qed.

Lemma trims_clear es : trims es ∅ (gateways es).
Proof. split; [by intros ?? ?%lookup_empty_Some|done]. Qed.

Lemma length_gateways es : length (gateways es) = size es.
Proof. unfold gateways. by rewrite length_fmap, length_map_to_list. Qed.

Lemma trims_size es es' r : trims es es' r → (size es' ≤ size es)%nat.
Proof. intros [_ Hp%Permutation_length]. rewrite length_app, !length_gateways in Hp. lia. Qed.

Lemma trims_None es es' r k : trims es es' r → es !! k = None → es' !! k = None.
Proof.
  intros [Hs _] Hk. apply eq_None_not_Some. intros [e' (e & ? & _)%Hs]. congruence.
Qed.

(** ** The invariant of the cache *)

Record cache_ok (c : t) : Prop := {
  ok_capacity : 1 ≤ c.(capacity) ≤ c.(maximum);
  ok_maximum : c.(maximum) ≤ maximumGatewayCacheSize;
  ok_size : Z.of_nat (size c.(entries)) ≤ c.(capacity);
  ok_closed : c.(closed) = true → c.(entries) = ∅;
  ok_exclusive : ∀ k, is_Some (c.(entries) !! k) → c.(builds) !! k = None;
}.

(** A change of the cache that only trims its entries keeps the invariant. *)
Lemma cache_ok_trims c c' r :
  cache_ok c → trims c.(entries) c'.(entries) r →
  c'.(capacity) = c.(capacity) → c'.(maximum) = c.(maximum) →
  (c'.(closed) = true → c.(closed) = true ∨ c'.(entries) = ∅) →
  (∀ k, is_Some (c'.(entries) !! k) → c.(builds) !! k = None → c'.(builds) !! k = None) →
  cache_ok c'.
Proof.
  intros [] Ht Hcap Hmax Hcl Hb. pose proof (trims_size _ _ _ Ht).
  split; rewrite ?Hcap, ?Hmax; try done; [lia| |].
  - intros [Hc|Hc]%Hcl; [|done]. apply map_empty. intros k.
    eapply trims_None; [done|]. by rewrite ok_closed0.
  - intros k Hk. apply Hb; [done|]. apply ok_exclusive0.
    destruct Hk as [e' He']. apply Ht in He' as (e & -> & _). eauto.
Qed.

Lemma newGatewayCache_ok n d c : newGatewayCache n d = Ok c → cache_ok c.
Proof.
  unfold newGatewayCache. rewrite !bind_Ok. intros ([] & Hn & Hrest).
  rewrite bind_Ok in Hrest. destruct Hrest as ([] & _ & [= <-]).
  rewrite reject_if_Ok, orb_false_iff, !Z.ltb_ge in Hn.
  split; simpl; rewrite ?map_size_empty; try done; lia.
Qed.

Lemma adaptive_range n s :
  1 ≤ n ≤ maximumGatewayCacheSize → 1 ≤ adaptiveGatewayCacheCapacity n s ≤ n.
Proof.
  intros Hn. unfold adaptiveGatewayCacheCapacity, maximumGatewayCacheSize in *.
  pose proof (Governor.half_limit n). unfold max_int64 in *.
  repeat case_match; lia.
Qed.

(** The parts of a cache an entry-trimming step leaves alone. *)
Definition same_control (c c' : t) : Prop :=
  c'.(generations) = c.(generations) ∧ c'.(maximum) = c.(maximum) ∧
  c'.(capacity) = c.(capacity) ∧ c'.(ttl) = c.(ttl) ∧ c'.(closed) = c.(closed).

(** The outcome of the first critical section of [Get], against the cache it found. *)
Definition entered_ok (c c' : t) (now : time) (clusterID : string) (fp : fingerprint)
    (e : entered) : Prop :=
  match e with
  | Return (Ok g) => c'.(builds) = c.(builds) ∧ c'.(heap) = c.(heap) ∧
      ∃ en, c.(entries) !! clusterID = Some en ∧ en.(entry_fingerprint) = fp ∧
        en.(entry_gateway) = g ∧ fresh c.(ttl) now en = true
  | Return (Err err) => c' = c ∧ err = ErrInvalidState ∧ c.(closed) = true
  | WaitFor p => c'.(builds) = c.(builds) ∧ c'.(heap) = c.(heap) ∧ c.(builds) !! clusterID = Some p
  | StartBuild generation p =>
      c.(closed) = false ∧ c.(builds) !! clusterID = None ∧ p = length c.(heap) ∧
      generation = default 0 (c.(generations) !! clusterID) ∧
      c'.(builds) = <[clusterID := p]> c.(builds) ∧ c'.(heap) = c.(heap) ++ [mkBuild fp None]
  end.

(** The miss path, from a cache [c0] whose entry for the cluster is gone. *)
Lemma get_miss_spec c es r now clusterID fp :
  cache_ok c → c.(closed) = false → trims c.(entries) es r → es !! clusterID = None →
  let '(c', r', e) :=
    match c.(builds) !! clusterID with
    | Some pending => (set_entries c es, r, WaitFor pending)
    | None =>
        (set_builds (set_entries c es) (<[clusterID := length c.(heap)]> c.(builds))
           (c.(heap) ++ [mkBuild fp None]),
         r, StartBuild (default 0 (c.(generations) !! clusterID)) (length c.(heap)))
    end in
  cache_ok c' ∧ trims c.(entries) c'.(entries) r' ∧ same_control c c' ∧
  entered_ok c c' now clusterID fp e.
Proof.
  intros Hok Hcl Ht Hnone. destruct (builds c !! clusterID) as [p|] eqn:Hb.
  - split_and!; try done. eapply cache_ok_trims; try done. by left.
  - split_and!; try done. eapply cache_ok_trims; try done; [by left|].
    intros k [e He] Hk. simpl in *. rewrite lookup_insert_ne; [done|]. congruence.
Qed.

Lemma get_enter_spec c now clusterID fp c' r e :
  cache_ok c → get_enter c now clusterID fp = (c', r, e) →
  cache_ok c' ∧ trims c.(entries) c'.(entries) r ∧ same_control c c' ∧
  entered_ok c c' now clusterID fp e.
Proof.
  intros Hok. unfold get_enter. destruct (closed c) eqn:Hcl.
  { intros [= <- <- <-]. split_and!; try done. apply trims_refl. }
  destruct (expireLocked c now) as [c1 r1] eqn:Hexp.
  pose proof (trims_expire c now) as Ht. rewrite Hexp in Ht. simpl in Ht.
  assert (c1 = set_entries c (entries c1)) as Hc1 by (unfold expireLocked in Hexp; by simplify_eq).
  destruct (entries c1 !! clusterID) as [en|] eqn:Hen.
  - case_bool_decide as Hfp.
    + intros [= <- <- <-].
      assert (trims (entries c) (<[clusterID:=mkEntry (entry_fingerprint en) (entry_gateway en) now]>
        (entries c1)) r1) as Ht'.
      { rewrite <-(app_nil_r r1). eapply trims_trans; [done|]. by apply trims_touch. }
      rewrite Hc1. simpl. split_and!; try done.
      * eapply cache_ok_trims; try done. by left.
      * exists en. split_and!; try done; unfold expireLocked in Hexp; injection Hexp as <- _;
          by apply map_lookup_filter_Some in Hen as [??].
    + assert (trims (entries c) (delete clusterID (entries c1)) (r1 ++ [entry_gateway en])) as Ht'.
      { eapply trims_trans; [done|]. pose proof (trims_delete (entries c1) clusterID) as Hd.
        by rewrite Hen in Hd. }
      pose proof (get_miss_spec c _ _ now clusterID fp Hok Hcl Ht' (lookup_delete_eq _ _)) as Hm.
      rewrite Hc1 in *. simpl in *. destruct (builds c !! clusterID); intros [= <- <- <-]; exact Hm.
  - pose proof (get_miss_spec c _ _ now clusterID fp Hok Hcl Ht Hen) as Hm.
    rewrite Hc1 in *. simpl in *. destruct (builds c !! clusterID); intros [= <- <- <-]; exact Hm.
Qed.

(** The error a build leaves behind for its waiters. *)
Definition result_err {A} (r : result A) : option error :=
  match r with Ok _ => None | Err e => Some e end.

Record finished_ok (c c' : t) (clusterID : string) (fp : fingerprint) (generation : Z)
    (pending : nat) (built : option gateway) (buildErr : option error)
    (retired : list gateway) (r : result gateway) : Prop := {
  fin_ok : cache_ok c';
  fin_gateways :
    gateways c.(entries) ++ option_list built ≡ₚ gateways c'.(entries) ++ retired;
  fin_entries : ∀ k e', c'.(entries) !! k = Some e' →
    c.(entries) !! k = Some e' ∨
    k = clusterID ∧ e'.(entry_fingerprint) = fp ∧ built = Some e'.(entry_gateway);
  fin_control : same_control c c';
  fin_builds : c'.(builds) = delete clusterID c.(builds);
  fin_heap : c'.(heap) = <[pending := mkBuild fp (Some (result_err r))]> c.(heap);
  fin_result : r = match buildErr, built with
    | Some e, _ => Err e
    | None, None => Err (NewError "Kubernetes gateway builder returned no gateway")
    | None, Some g =>
        if c.(closed) || negb (default 0 (c.(generations) !! clusterID) =? generation)
        then Err ErrInvalidState else Ok g
    end;
  fin_unstored : is_ok r = false → c'.(entries) = c.(entries);
}.

Lemma cache_ok_unbuild c k h : cache_ok c → cache_ok (set_builds c (delete k c.(builds)) h).
Proof.
  intros Hok. eapply cache_ok_trims; [done|apply trims_refl|done..|by left|].
  intros k' _. simpl. intros Hk. by apply lookup_delete_None; right.
Qed.

(** Storing a gateway and evicting down to the capacity. *)
Lemma store_evict_spec c k fp g now :
  cache_ok c → c.(closed) = false → c.(entries) !! k = None → c.(builds) !! k = None →
  let '(c', evicted) := evictLocked (set_entries c (<[k := mkEntry fp g now]> c.(entries))) in
  cache_ok c' ∧ same_control c c' ∧ c'.(builds) = c.(builds) ∧ c'.(heap) = c.(heap) ∧
  gateways c.(entries) ++ [g] ≡ₚ gateways c'.(entries) ++ evicted ∧
  c'.(entries) ⊆ <[k := mkEntry fp g now]> c.(entries).
Proof.
  intros Hok Hcl Hk Hb. pose proof (ok_capacity _ Hok).
  unfold evictLocked. simpl. destruct (evict _ _ _ _) as [es r] eqn:E.
  apply evict_spec in E as (Hsub & Hsz & Hp & _); [|lia..]. simpl in *.
  split_and!; try done.
  - split; simpl; [done|by apply ok_maximum|lia|congruence|].
    intros k' [e He]. eapply lookup_weaken in He; [|exact Hsub].
    apply lookup_insert_Some in He as [[<- _]|[_ He]]; [done|].
    apply (ok_exclusive _ Hok). eauto.
  - rewrite gateways_insert in Hp by done. simpl in Hp.
    by rewrite (Permutation_app_comm (gateways es)), Hp, Permutation_app_comm.
Qed.

Lemma get_finish_spec c now clusterID fp generation p built buildErr c' r res :
  cache_ok c → c.(builds) !! clusterID = Some p →
  get_finish c now clusterID fp generation p built buildErr = (c', r, res) →
  finished_ok c c' clusterID fp generation p built buildErr r res.
Proof.
  intros Hok Hb. assert (entries c !! clusterID = None) as Hnone.
  { apply eq_None_not_Some. intros Hs%(ok_exclusive _ Hok). congruence. }
  assert (∀ h, cache_ok (set_builds c (delete clusterID (builds c)) h)) as Hok1.
  { intros h. by apply cache_ok_unbuild. }
  unfold get_finish. destruct buildErr as [err|], built as [g|]; simpl.
  1, 2, 4: intros [= <- <- <-]; split; simpl; try done; [apply Hok1|intros; by left].
  destruct (closed c) eqn:Hcl; simpl.
  { intros [= <- <- <-]. split; simpl; try done; [apply Hok1|intros; by left|]. by rewrite Hcl. }
  destruct (negb _) eqn:Hgen.
  { intros [= <- <- <-]. split; simpl; try done; [apply Hok1|intros; by left|]. by rewrite Hcl, Hgen. }
  pose proof (store_evict_spec (set_builds c (delete clusterID (builds c)) (heap c))
    clusterID fp g now (Hok1 _) Hcl Hnone (lookup_delete_eq _ _)) as Hst.
  simpl in Hst. destruct (evictLocked _) as [c2 ev]. rewrite Hnone. simpl.
  destruct Hst as (Hok2 & (?&?&?&?&?) & Hbs & Hh & Hp & Hsub).
  intros [= <- <- <-]. split; simpl; try done.
  - eapply cache_ok_trims; [exact Hok2|apply trims_refl|done..|by left|by intros; simpl].
  - intros k e' He. eapply lookup_weaken in He; [|exact Hsub].
    apply lookup_insert_Some in He as [[<- <-]|[_ He]]; [right|left]; done.
  - by rewrite Hh.
  - by rewrite Hcl, Hgen.
Qed.

(** ** The invariant of a world *)

Definition is_building (th : thread) : bool :=
  match th.(thread_phase) with Building_ _ _ => true | _ => false end.

Record world_ok (w : world) : Prop := {
  w_cache : cache_ok w.(cache);
  (** every gateway built is cached or retired, exactly once *)
  w_conserved : snd <$> w.(ever_built) ≡ₚ gateways w.(cache).(entries) ++ w.(ever_retired);
  (** cached and returned gateways were built for the request's cluster and fingerprint *)
  w_entries k e : w.(cache).(entries) !! k = Some e →
    (k, e.(entry_fingerprint), e.(entry_gateway)) ∈ w.(ever_built);
  w_returned tid k fp g : w.(threads) !! tid = Some (mkThread k fp (Returned (Ok g))) →
    (k, fp, g) ∈ w.(ever_built);
  (** the pending builds are those of the building threads, one for each cluster *)
  w_building tid k fp generation p :
    w.(threads) !! tid = Some (mkThread k fp (Building_ generation p)) →
    w.(cache).(builds) !! k = Some p ∧ w.(cache).(heap) !! p = Some (mkBuild fp None);
  w_single tid1 tid2 k fp1 fp2 n1 n2 p1 p2 :
    w.(threads) !! tid1 = Some (mkThread k fp1 (Building_ n1 p1)) →
    w.(threads) !! tid2 = Some (mkThread k fp2 (Building_ n2 p2)) → tid1 = tid2;
  w_builds k p : w.(cache).(builds) !! k = Some p →
    ∃ tid fp n, w.(threads) !! tid = Some (mkThread k fp (Building_ n p));
  w_inj k1 k2 p : w.(cache).(builds) !! k1 = Some p → w.(cache).(builds) !! k2 = Some p → k1 = k2;
  w_pending p b : w.(cache).(heap) !! p = Some b → b.(outcome) = None →
    ∃ tid k n, w.(threads) !! tid = Some (mkThread k b.(build_fingerprint) (Building_ n p));
  (** a waiter's pending build exists *)
  w_waiting tid k fp p : w.(threads) !! tid = Some (mkThread k fp (Waiting p)) →
    is_Some (w.(cache).(heap) !! p);
}.

Lemma world_ok_init c :
  cache_ok c → c.(entries) = ∅ → c.(builds) = ∅ → c.(heap) = [] → world_ok (init c).
Proof.
  intros Hok He Hb Hh. split; simpl; rewrite ?He, ?Hb, ?Hh; try done.
Qed.

(** Steps that change one thread outside a build. *)
Lemma world_ok_thread w tid k fp p :
  world_ok w →
  (∀ th, w.(threads) !! tid = Some th → is_building th = false) →
  match p with
  | Entering | Returned (Err _) => True
  | Waiting pending => is_Some (w.(cache).(heap) !! pending)
  | Returned (Ok g) => (k, fp, g) ∈ w.(ever_built)
  | Building_ _ _ => False
  end →
  world_ok (mkWorld w.(cache) (<[tid := mkThread k fp p]> w.(threads))
              w.(ever_built) w.(ever_retired)).
Proof.
  intros Hok Hold Hp.
  assert (∀ tid' k' fp' n p',
    <[tid := mkThread k fp p]> (threads w) !! tid' = Some (mkThread k' fp' (Building_ n p')) ↔
    threads w !! tid' = Some (mkThread k' fp' (Building_ n p'))) as Hb.
  { intros tid' k' fp' n p'. destruct (decide (tid' = tid)) as [->|].
    - rewrite lookup_insert_eq. split; [by intros [= _ _ ->]|].
      intros Hth%Hold. done.
    - by rewrite lookup_insert_ne. }
  destruct Hok. split; simpl; try done.
  - intros tid' k' fp' g [[_ [= -> -> ->]]|[_ ?]]%lookup_insert_Some; [done|by eapply w_returned0].
  - setoid_rewrite Hb. done.
  - setoid_rewrite Hb. done.
  - setoid_rewrite Hb. done.
  - setoid_rewrite Hb. done.
  - intros tid' k' fp' p' [[_ [= -> -> ->]]|[_ ?]]%lookup_insert_Some; [done|by eapply w_waiting0].
Qed.

(** Steps that only trim the entries. *)
Lemma world_ok_trims w c r :
  world_ok w → cache_ok c → trims w.(cache).(entries) c.(entries) r →
  c.(builds) = w.(cache).(builds) → c.(heap) = w.(cache).(heap) →
  world_ok (mkWorld c w.(threads) w.(ever_built) (w.(ever_retired) ++ r)).
Proof.
  intros [] Hok Ht Hb Hh. split; simpl; rewrite ?Hb, ?Hh; try done.
  - destruct Ht as [_ Hp]. rewrite w_conserved0, Hp, <-app_assoc. f_equiv.
    by rewrite Permutation_app_comm.
  - intros k e He. apply Ht in He as (e0 & He0 & -> & ->). by apply w_entries0.
Qed.

Definition only_trims (c c' : t) (r : list gateway) : Prop :=
  cache_ok c' ∧ trims c.(entries) c'.(entries) r ∧ c'.(builds) = c.(builds) ∧ c'.(heap) = c.(heap).

Lemma Invalidate_ok c k : cache_ok c → let '(c', r) := Invalidate c k in only_trims c c' r.
Proof.
  intros Hok. split_and!; try done; [|apply trims_delete].
  eapply cache_ok_trims; [done|apply trims_delete|done..|by left|done].
Qed.

Lemma Close_ok c : cache_ok c → let '(c', r) := Close c in only_trims c c' r.
Proof.
  intros Hok. unfold Close. destruct (closed c) eqn:Hcl; (split_and!; try done).
  - apply trims_refl.
  - eapply cache_ok_trims; [done|apply trims_clear|done..|by right|done].
Qed.

Lemma Reconcile_ok c s now :
  cache_ok c → let '(c', r) := Reconcile c s now in
  only_trims c c' r ∧
  (c.(closed) = false → c'.(capacity) = adaptiveGatewayCacheCapacity c.(maximum) s).
Proof.
  intros Hok. unfold Reconcile. destruct (closed c) eqn:Hcl.
  { split; [|done]. split_and!; try done. apply trims_refl. }
  pose proof (ok_capacity _ Hok). pose proof (ok_maximum _ Hok).
  pose proof (adaptive_range c.(maximum) s ltac:(lia)) as Hcap.
  destruct (expireLocked _ now) as [c1 r1] eqn:E1.
  pose proof (trims_expire (set_capacity c (adaptiveGatewayCacheCapacity (maximum c) s)) now) as Ht1.
  rewrite E1 in Ht1. unfold expireLocked in E1. injection E1 as <- _. simpl in Ht1.
  unfold evictLocked. simpl. destruct (evict _ _ _ _) as [es r2] eqn:E2.
  apply evict_spec in E2 as (Hsub & Hsz & Hp & _); [|lia..].
  assert (trims (entries c) es (r1 ++ r2)) as Ht.
  { eapply trims_trans; [exact Ht1|]. apply trims_subset; [done|].
    by rewrite (Permutation_app_comm (gateways es)), Hp. }
  split; [|done]. split_and!; try done. split; simpl; try done; [lia|congruence|].
  intros k [e He]. apply (ok_exclusive _ Hok). apply Ht in He as (e0 & -> & _). eauto.
Qed.

(** A thread starts a build. *)
Lemma world_ok_start w c r tid k fp generation :
  world_ok w → cache_ok c → trims w.(cache).(entries) c.(entries) r →
  w.(threads) !! tid = Some (mkThread k fp Entering) →
  w.(cache).(builds) !! k = None →
  c.(builds) = <[k := length w.(cache).(heap)]> w.(cache).(builds) →
  c.(heap) = w.(cache).(heap) ++ [mkBuild fp None] →
  world_ok (mkWorld c
    (<[tid := mkThread k fp (Building_ generation (length w.(cache).(heap)))]> w.(threads))
    w.(ever_built) (w.(ever_retired) ++ r)).
Proof.
  intros [] Hok Ht Htid Hnone Hb Hh.
  assert (∀ k' p, builds (cache w) !! k' = Some p → (p < length (heap (cache w)))%nat) as Hlt.
  { intros k' p Hk'. destruct (w_builds0 _ _ Hk') as (tid' & fp' & n & Hth).
    apply w_building0 in Hth as [_ Hp]. by apply lookup_lt_Some in Hp. }
  split; simpl; rewrite ?Hb, ?Hh; try done.
  - destruct Ht as [_ Hp]. rewrite w_conserved0, Hp, <-app_assoc. f_equiv.
    by rewrite Permutation_app_comm.
  - intros k' e He. apply Ht in He as (e0 & He0 & -> & ->). by apply w_entries0.
  - intros tid' k' fp' g [[_ ?]|[_ ?]]%lookup_insert_Some; [done|by eapply w_returned0].
  - intros tid' k' fp' n p [[<- [= <- <- <- <-]]|[Hne Hth]]%lookup_insert_Some.
    + rewrite lookup_insert_eq. split; [done|]. by apply list_lookup_middle.
    + apply w_building0 in Hth as [Hk' Hp]. split.
      * rewrite lookup_insert_ne; [done|]. intros <-. congruence.
      * by apply lookup_app_l_Some.
  - intros t1 t2 k' fp1 fp2 n1 n2 p1 p2
      [[<- [= <- <- <- <-]]|[_ H1]]%lookup_insert_Some [[<- [= <- <- <-]]|[_ H2]]%lookup_insert_Some;
      [done| | |by eapply w_single0].
    + apply w_building0 in H2 as [? _]. congruence.
    + apply w_building0 in H1 as [? _]. congruence.
  - intros k' p [[<- <-]|[Hne Hk']]%lookup_insert_Some.
    + exists tid, fp, generation. by rewrite lookup_insert_eq.
    + destruct (w_builds0 _ _ Hk') as (tid' & fp' & n & Hth). exists tid', fp', n.
      rewrite lookup_insert_ne; [done|]. intros <-. congruence.
  - intros k1 k2 p [[<- <-]|[? H1]]%lookup_insert_Some [[<- Hp]|[? H2]]%lookup_insert_Some;
      [done| | |by eapply w_inj0].
    + apply Hlt in H2. lia.
    + subst p. apply Hlt in H1. lia.
  - intros p b [Hp|[Hge Hp]]%lookup_app_Some Hout.
    + destruct (w_pending0 _ _ Hp Hout) as (tid' & k' & n & Hth). exists tid', k', n.
      rewrite lookup_insert_ne; [done|]. intros <-. congruence.
    + apply list_lookup_singleton_Some in Hp as [Hp <-]. exists tid, k, generation. simpl.
      rewrite lookup_insert_eq. do 3 f_equal. lia.
  - intros tid' k' fp' p [[_ ?]|[_ Hth]]%lookup_insert_Some; [done|].
    apply w_waiting0 in Hth as [b Hb']. exists b. by apply lookup_app_l_Some.
Qed.

(** A thread finishes its build. *)
Lemma world_ok_finish w c tid k fp generation p built buildErr r res :
  world_ok w →
  w.(threads) !! tid = Some (mkThread k fp (Building_ generation p)) →
  finished_ok w.(cache) c k fp generation p built buildErr r res →
  world_ok (mkWorld c (<[tid := mkThread k fp (Returned res)]> w.(threads))
    (w.(ever_built) ++ ((λ g, (k, fp, g)) <$> option_list built)) (w.(ever_retired) ++ r)).
Proof.
  intros [] Htid [Hok Hgw Hen _ Hb Hh Hres _].
  destruct (w_building0 _ _ _ _ _ Htid) as [Hk Hp].
  assert (∀ tid' k' fp' n' p',
    threads w !! tid' = Some (mkThread k' fp' (Building_ n' p')) → tid' ≠ tid → k' ≠ k ∧ p' ≠ p)
    as Hother.
  { intros tid' k' fp' n' p' Hth Hne.
    assert (k' ≠ k) as Hkk by (intros ->; apply Hne; by eapply w_single0).
    split; [done|]. intros ->. apply w_building0 in Hth as [Hk' _]. by eapply Hkk, w_inj0. }
  split; simpl; rewrite ?Hb, ?Hh; try done.
  - rewrite fmap_app, w_conserved0, <-list_fmap_compose.
    assert (snd ∘ (λ g, (k, fp, g)) <$> option_list built = option_list built) as -> by by destruct built.
    rewrite (Permutation_app_comm (ever_retired w)), !app_assoc, <-Hgw, <-!app_assoc. f_equiv.
    apply Permutation_app_comm.
  - intros k' e [He|(-> & <- & ->)]%Hen; apply elem_of_app; [left; by apply w_entries0|right].
    by left.
  - intros tid' k' fp' g [[<- [= <- <- ->]]|[_ Hth]]%lookup_insert_Some;
      apply elem_of_app; [right|left; by eapply w_returned0].
    destruct buildErr, built; try done. destruct (_ || _); [done|]. injection Hres as ->. by left.
  - intros tid' k' fp' n' p' [[_ ?]|[Hne Hth]]%lookup_insert_Some; [done|].
    destruct (Hother _ _ _ _ _ Hth) as [? ?]; [done|]. apply w_building0 in Hth as [? ?].
    rewrite lookup_delete_ne by done. by rewrite list_lookup_insert_ne.
  - intros t1 t2 k' fp1 fp2 n1 n2 p1 p2 [[_ ?]|[_ H1]]%lookup_insert_Some
      [[_ ?]|[_ H2]]%lookup_insert_Some; [done..|]. by eapply w_single0.
  - intros k' p' [Hne Hk']%lookup_delete_Some.
    destruct (w_builds0 _ _ Hk') as (tid' & fp' & n' & Hth). exists tid', fp', n'.
    rewrite lookup_insert_ne; [done|]. intros <-. simplify_eq.
  - intros k1 k2 p' [_ H1]%lookup_delete_Some [_ H2]%lookup_delete_Some. by eapply w_inj0.
  - intros p' b Hb' Hout. destruct (decide (p' = p)) as [->|Hne].
    { rewrite list_lookup_insert_eq in Hb' by (by eapply lookup_lt_Some). by injection Hb' as <-. }
    rewrite list_lookup_insert_ne in Hb' by done.
    destruct (w_pending0 _ _ Hb' Hout) as (tid' & k' & n' & Hth). exists tid', k', n'.
    rewrite lookup_insert_ne; [done|]. intros <-. simplify_eq.
  - intros tid' k' fp' p' [[_ ?]|[_ Hth]]%lookup_insert_Some; [done|].
    apply w_waiting0 in Hth as Hs. destruct (decide (p' = p)) as [->|Hne].
    + rewrite list_lookup_insert_eq by (by eapply lookup_lt_Some). done.
    + by rewrite list_lookup_insert_ne.
Qed.

Lemma thread_eta th k fp p :
  th.(thread_cluster) = k → th.(thread_fingerprint) = fp → th.(thread_phase) = p →
  th = mkThread k fp p.
Proof. by destruct th; simpl; intros <- <- <-. Qed.

Lemma exec_ok_enter w tid now w' : world_ok w → exec w (Enter tid now) = Some w' → world_ok w'.
Proof.
  intros Hok. simpl. destruct (threads w !! tid) as [[k fp p]|] eqn:Htid; [|done].
  destruct p; try done. simpl.
  destruct (get_enter _ _ _ _) as [[c r] e] eqn:E. intros [= <-].
  apply get_enter_spec in E as (Hc & Ht & _ & He); [|by apply w_cache].
  unfold set_phase; simpl. destruct e as [[g|err]|pending|n pending]; simpl in He.
  - destruct He as (Hb & Hh & en & Hen & <- & <- & _).
    apply (world_ok_thread (mkWorld c (threads w) (ever_built w) (ever_retired w ++ r))).
    + by apply world_ok_trims.
    + intros th. simpl. rewrite Htid. by intros [= <-].
    + by apply (w_entries _ Hok).
  - destruct He as (-> & -> & Hcl).
    apply (world_ok_thread (mkWorld (cache w) (threads w) (ever_built w) (ever_retired w ++ r))).
    + by apply world_ok_trims.
    + intros th. simpl. rewrite Htid. by intros [= <-].
    + done.
  - destruct He as (Hb & Hh & Hp).
    apply (world_ok_thread (mkWorld c (threads w) (ever_built w) (ever_retired w ++ r))).
    + by apply world_ok_trims.
    + intros th. simpl. rewrite Htid. by intros [= <-].
    + simpl. rewrite Hh. destruct (w_builds _ Hok _ _ Hp) as (tid' & fp' & n & Hth).
      apply (w_building _ Hok) in Hth as [_ ->]. eauto.
  - destruct He as (_ & Hn & -> & _ & Hb & Hh). by apply world_ok_start.
Qed.

Lemma exec_ok w a w' : world_ok w → exec w a = Some w' → world_ok w'.
Proof.
  intros Hok. destruct a as [tid k fp e|tid now|tid|tid e|tid now built err|k|s now|].
  - simpl. destruct (threads w !! tid) eqn:Htid; [done|]. intros [= <-].
    apply world_ok_thread; [done|by rewrite Htid|by destruct e].
  - by apply exec_ok_enter.
  - simpl. destruct (threads w !! tid) as [[k fp p]|] eqn:Htid; [|done]. destruct p; try done.
    simpl. destruct (heap (cache w) !! pending) as [b|]; [|done]. simpl.
    destruct (wake b fp) as [err|]; [|done]. simpl. intros [= <-]. unfold set_phase; simpl.
    apply world_ok_thread; [done| |by destruct err].
    rewrite Htid. by intros th [= <-].
  - simpl. destruct (threads w !! tid) as [[k fp p]|] eqn:Htid; [|done]. destruct p; try done.
    simpl. intros [= <-]. apply world_ok_thread; [done| |done]. rewrite Htid. by intros th [= <-].
  - simpl. destruct (threads w !! tid) as [[k fp p]|] eqn:Htid; [|done].
    destruct p as [| |n p|]; try done. simpl.
    destruct (get_finish _ _ _ _ _ _ _ _) as [[c r] res] eqn:E. intros [= <-].
    eapply world_ok_finish; [done..|]. eapply get_finish_spec; [by apply w_cache| |done].
    by apply (w_building _ Hok) in Htid as [? _].
  - pose proof (Invalidate_ok (cache w) k (w_cache _ Hok)) as H. cbn [exec].
    destruct (Invalidate _ _). destruct H as (? & ? & ? & ?). intros [= <-]. by apply world_ok_trims.
  - pose proof (Reconcile_ok (cache w) s now (w_cache _ Hok)) as H. cbn [exec].
    destruct (Reconcile _ _ _). destruct H as ((? & ? & ? & ?) & _). intros [= <-].
    by apply world_ok_trims.
  - pose proof (Close_ok (cache w) (w_cache _ Hok)) as H. cbn [exec].
    destruct (Close _). destruct H as (? & ? & ? & ?). intros [= <-]. by apply world_ok_trims.
Qed.

Lemma run_ok n d c actions w :
  newGatewayCache n d = Ok c → run (init c) actions = Some w → world_ok w.
Proof.
  intros Hc. apply (run_invariant world_ok exec_ok).
  apply world_ok_init; [by eapply newGatewayCache_ok|..]; revert Hc; unfold newGatewayCache;
    repeat (destruct (reject_if _ _); simpl; try done); by intros [= <-].
Qed.

(** ** Generations *)

Definition generation_of (c : t) (k : string) : Z := default 0 (c.(generations) !! k).

Definition is_finish (tid : nat) (a : action) : bool :=
  match a with Finish tid' _ _ _ => bool_decide (tid' = tid) | _ => false end.

Definition is_invalidate (k : string) (a : action) : bool :=
  match a with DoInvalidate k' => bool_decide (k' = k) | _ => false end.

Definition invalidations (k : string) (actions : list action) : Z :=
  Z.of_nat (length (List.filter (is_invalidate k) actions)).

(** A building thread goes on building until it finishes. *)
Lemma exec_building w a w' tid k fp n p :
  exec w a = Some w' → is_finish tid a = false →
  w.(threads) !! tid = Some (mkThread k fp (Building_ n p)) →
  w'.(threads) !! tid = Some (mkThread k fp (Building_ n p)).
Proof.
  intros Ha Hf Htid. assert (∀ tid' th, threads w !! tid' = Some th → is_building th = false →
    tid' ≠ tid) as Hne by (intros tid' th Hth Hb ->; naive_solver).
  destruct a as [tid' k' fp' e|tid' now|tid'|tid' e|tid' now built err|k'|s now|]; cbn [exec] in Ha;
    try (destruct (Invalidate _ _) || destruct (Reconcile _ _ _) || destruct (Close _));
    try by simplify_eq.
  - destruct (threads w !! tid') eqn:E; [done|]. injection Ha as <-. simpl.
    rewrite lookup_insert_ne; [done|]. intros <-. congruence.
  - destruct (threads w !! tid') as [[k1 fp1 []]|] eqn:E; try done. simpl in Ha.
    destruct (get_enter _ _ _ _) as [[c r] e]. injection Ha as <-. unfold set_phase; simpl.
    by rewrite lookup_insert_ne by by eapply Hne.
  - destruct (threads w !! tid') as [[k1 fp1 []]|] eqn:E; try done. simpl in Ha.
    destruct (heap (cache w) !! pending) as [b|]; [|done]. simpl in Ha.
    destruct (wake b _); [|done]. injection Ha as <-. unfold set_phase; simpl.
    by rewrite lookup_insert_ne by by eapply Hne.
  - destruct (threads w !! tid') as [[k1 fp1 []]|] eqn:E; try done. simpl in Ha.
    injection Ha as <-. unfold set_phase; simpl. by rewrite lookup_insert_ne by by eapply Hne.
  - simpl in Hf. apply bool_decide_eq_false in Hf.
    destruct (threads w !! tid') as [[k1 fp1 []]|] eqn:E; try done. simpl in Ha.
    destruct (get_finish _ _ _ _ _ _ _ _) as [[c r] res]. injection Ha as <-. unfold set_phase; simpl.
    by rewrite lookup_insert_ne.
Qed.

Lemma exec_generation w a w' k :
  world_ok w → exec w a = Some w' →
  generation_of w'.(cache) k =
    if is_invalidate k a then wrap_uint64 (generation_of w.(cache) k + 1)
    else generation_of w.(cache) k.
Proof.
  intros Hok Ha. unfold generation_of.
  destruct a as [tid' k' fp' e|tid' now|tid'|tid' e|tid' now built err|k'|s now|]; cbn [exec] in Ha.
  - destruct (threads w !! tid'); [done|]. by injection Ha as <-.
  - destruct (threads w !! tid') as [[k1 fp1 []]|] eqn:E; try done. simpl in Ha.
    destruct (get_enter _ _ _ _) as [[c r] e] eqn:Ee. injection Ha as <-. simpl.
    apply get_enter_spec in Ee as (_ & _ & (-> & _) & _); [done|by apply w_cache].
  - destruct (threads w !! tid') as [[k1 fp1 []]|] eqn:E; try done. simpl in Ha.
    destruct (heap (cache w) !! pending) as [b|]; [|done]. simpl in Ha.
    destruct (wake b _); [|done]. by injection Ha as <-.
  - destruct (threads w !! tid') as [[k1 fp1 []]|] eqn:E; try done. simpl in Ha.
    by injection Ha as <-.
  - destruct (threads w !! tid') as [[k1 fp1 []]|] eqn:E; try done. simpl in Ha.
    destruct (get_finish _ _ _ _ _ _ _ _) as [[c r] res] eqn:Ee. injection Ha as <-. simpl.
    apply get_finish_spec in Ee; [|by apply w_cache|by apply (w_building _ Hok) in E as [??]].
    simpl. by destruct (fin_control _ _ _ _ _ _ _ _ _ _ Ee) as [-> _].
  - simpl in Ha. injection Ha as <-. simpl. case_bool_decide as Hk.
    + subst. by rewrite lookup_insert_eq.
    + by rewrite lookup_insert_ne.
  - unfold Reconcile, evictLocked, expireLocked in Ha. destruct (closed (cache w)).
    + by injection Ha as <-.
    + simpl in Ha. destruct (evict _ _ _ _). by injection Ha as <-.
  - unfold Close in Ha. destruct (closed (cache w)); by injection Ha as <-.
Qed.

Lemma run_building tid k fp n p actions w w' :
  world_ok w → run w actions = Some w' → forallb (λ a, negb (is_finish tid a)) actions = true →
  w.(threads) !! tid = Some (mkThread k fp (Building_ n p)) →
  0 ≤ generation_of w.(cache) k < 2 ^ 64 →
  world_ok w' ∧ w'.(threads) !! tid = Some (mkThread k fp (Building_ n p)) ∧
  generation_of w'.(cache) k =
    wrap_uint64 (generation_of w.(cache) k + invalidations k actions).
Proof.
  revert w. induction actions as [|a actions IH]; intros w Hok; simpl.
  { intros [= <-] _ ? ?. split_and!; try done. unfold wrap_uint64, invalidations. simpl.
    by rewrite Z.add_0_r, Z.mod_small. }
  rewrite bind_Some. intros (w1 & H1 & H2) [Ha%negb_true_iff Has]%andb_true_iff Htid Hg.
  pose proof (exec_ok _ _ _ Hok H1) as Hok1.
  pose proof (exec_generation _ _ _ k Hok H1) as Hgen.
  assert (0 ≤ generation_of (cache w1) k < 2 ^ 64) as Hg1.
  { rewrite Hgen. destruct (is_invalidate k a); [|done]. by apply Z.mod_pos_bound. }
  destruct (IH w1 Hok1 H2 Has (exec_building _ _ _ _ _ _ _ _ H1 Ha Htid) Hg1) as (? & ? & Hw').
  split_and!; try done. rewrite Hw', Hgen. unfold invalidations, wrap_uint64. simpl.
  destruct (is_invalidate k a); simpl; [|done].
  rewrite Zplus_mod_idemp_l. f_equal. lia.
Qed.

(** ** Properties *)

(** In every reachable world of concurrent calls the cache holds at most its
    current capacity, which lies between one and the configured maximum of at
    most 64; a closed cache is empty; a cluster with a pending build has no entry,
    and at most one thread builds a gateway for a given cluster. *)
Theorem cache_bounded_single_flight n d c actions w :
  newGatewayCache n d = Ok c → run (init c) actions = Some w →
  Z.of_nat (size w.(cache).(entries)) ≤ w.(cache).(capacity) ∧
  1 ≤ w.(cache).(capacity) ≤ w.(cache).(maximum) ∧ w.(cache).(maximum) ≤ 64 ∧
  (w.(cache).(closed) = true → w.(cache).(entries) = ∅) ∧
  (∀ k, is_Some (w.(cache).(entries) !! k) → w.(cache).(builds) !! k = None) ∧
  (∀ tid1 tid2 k fp1 fp2 n1 n2 p1 p2,
    w.(threads) !! tid1 = Some (mkThread k fp1 (Building_ n1 p1)) →
    w.(threads) !! tid2 = Some (mkThread k fp2 (Building_ n2 p2)) → tid1 = tid2).
Proof.
  intros Hc Hw. destruct (run_ok _ _ _ _ _ Hc Hw) as [[] ? ? ? ? ? ? ? ? ?].
  split_and!; try done; lia.
Qed.

(** No gateway is leaked or closed twice: in every reachable world, each
    gateway a build ever returned (even one returned with an error) is either
    cached or has been retired, exactly once. *)
Theorem gateways_conserved n d c actions w :
  newGatewayCache n d = Ok c → run (init c) actions = Some w →
  snd <$> w.(ever_built) ≡ₚ gateways w.(cache).(entries) ++ w.(ever_retired).
Proof. intros Hc Hw. by apply w_conserved, (run_ok _ _ _ _ _ Hc Hw). Qed.

(** A call of [Get] only ever returns a gateway that was built for the very
    cluster and credential fingerprint it asked for. *)
Theorem Get_fingerprint_sound n d c actions w tid k fp g :
  newGatewayCache n d = Ok c → run (init c) actions = Some w →
  w.(threads) !! tid = Some (mkThread k fp (Returned (Ok g))) → (k, fp, g) ∈ w.(ever_built).
Proof. intros Hc Hw. by apply w_returned, (run_ok _ _ _ _ _ Hc Hw). Qed.

(** C31: a build that was overtaken by an invalidation of its cluster is never
    served or stored: when between 1 and [2^64 - 1] invalidations of the cluster
    happen while a thread builds, finishing that build successfully returns
    [ErrInvalidState], leaves the entries alone and retires the gateway. *)
Theorem invalidated_build_discarded n d c before w0 tid now1 w1 k fp generation p
    during w2 now2 g w3 :
  newGatewayCache n d = Ok c → run (init c) before = Some w0 →
  exec w0 (Enter tid now1) = Some w1 →
  w1.(threads) !! tid = Some (mkThread k fp (Building_ generation p)) →
  0 ≤ generation_of w1.(cache) k < 2 ^ 64 →
  run w1 during = Some w2 → forallb (λ a, negb (is_finish tid a)) during = true →
  1 ≤ invalidations k during < 2 ^ 64 →
  exec w2 (Finish tid now2 (Some g) None) = Some w3 →
  w3.(threads) !! tid = Some (mkThread k fp (Returned (Err ErrInvalidState))) ∧
  w3.(cache).(entries) = w2.(cache).(entries) ∧
  w3.(ever_retired) = w2.(ever_retired) ++ [g].
Proof.
  intros Hc Hw0 He Htid Hgen Hw1 Hnf Hinv Hw3.
  pose proof (run_ok _ _ _ _ _ Hc Hw0) as Hok0. pose proof (exec_ok _ _ _ Hok0 He) as Hok1.
  destruct (run_building _ _ _ _ _ _ _ _ Hok1 Hw1 Hnf Htid Hgen) as (Hok2 & Htid2 & Hg2).
  assert (generation = generation_of (cache w1) k) as ->.
  { cbn [exec] in He. destruct (threads w0 !! tid) as [[k0 fp0 ph]|] eqn:E; [|done].
    destruct ph; try done. simpl in He. destruct (get_enter _ _ _ _) as [[c1 r] e] eqn:Ee.
    injection He as <-. apply get_enter_spec in Ee as (_ & _ & (Hgs & _) & Hent);
      [|by apply w_cache].
    unfold set_phase in Htid. simpl in *. rewrite lookup_insert_eq in Htid.
    injection Htid as -> -> Hph. destruct e as [|?|? ?]; try done. injection Hph as -> ->.
    unfold generation_of. rewrite Hgs. by destruct Hent as (_ & _ & _ & -> & _). }
  simpl in Hw3. rewrite Htid2 in Hw3. simpl in Hw3.
  assert (default 0 (generations (cache w2) !! k) =? generation_of (cache w1) k = false) as Hne.
  { apply Z.eqb_neq. fold (generation_of (cache w2) k). rewrite Hg2. unfold wrap_uint64.
    intros Heq. rewrite <-(Z.mod_small (generation_of (cache w1) k) (2 ^ 64)) in Heq at 2 by done.
    apply Z.cong_iff_0 in Heq. rewrite Z.add_simpl_l in Heq.
    rewrite Z.mod_small in Heq; lia. }
  unfold get_finish in Hw3. simpl in Hw3. rewrite Hne, orb_true_r in Hw3. simpl in Hw3.
  injection Hw3 as <-. unfold set_phase. simpl. by rewrite lookup_insert_eq.
Qed.

(** Eviction is least-recently-used and exact: it leaves the entries within
    the capacity, drops only as many as it must, drops the ones used earliest
    (ties broken by cluster identifier), and retires exactly the gateways of the
    dropped entries. *)
Theorem evictLocked_lru c :
  0 ≤ c.(capacity) →
  let '(c', retired) := evictLocked c in
  c'.(entries) ⊆ c.(entries) ∧
  Z.of_nat (size c'.(entries)) = Z.min c.(capacity) (Z.of_nat (size c.(entries))) ∧
  gateways c.(entries) ≡ₚ retired ++ gateways c'.(entries) ∧
  (∀ k e k' e', c'.(entries) !! k = Some e →
    c.(entries) !! k' = Some e' → c'.(entries) !! k' = None →
    used_before (k', e'.(lastUsed)) (k, e.(lastUsed))).
Proof.
  intros Hc. unfold evictLocked. destruct (evict _ _ _ _) as [es r] eqn:E. simpl.
  apply evict_spec in E as (Hsub & Hsz & Hp & Hlru); [|lia..].
  split_and!; [done|done|by rewrite Hp|exact Hlru].
Qed.

(** No wake-up is lost: a thread waiting for another thread's build can
    always go on, either because that build is done or because the building
    thread is still there to finish it. *)
Theorem waiter_progress n d c actions w tid k fp p :
  newGatewayCache n d = Ok c → run (init c) actions = Some w →
  w.(threads) !! tid = Some (mkThread k fp (Waiting p)) →
  is_Some (exec w (Wake tid)) ∨
  ∃ tid' k' fp' generation,
    w.(threads) !! tid' = Some (mkThread k' fp' (Building_ generation p)) ∧
    ∀ now built err, is_Some (exec w (Finish tid' now built err)).
Proof.
  intros Hc Hw Htid. pose proof (run_ok _ _ _ _ _ Hc Hw) as Hok.
  destruct (w_waiting _ Hok _ _ _ _ Htid) as [b Hb].
  destruct (outcome b) as [err|] eqn:Hout.
  - left. simpl. rewrite Htid. simpl. rewrite Hb. simpl. unfold wake. rewrite Hout. simpl. eauto.
  - right. destruct (w_pending _ Hok _ _ Hb Hout) as (tid' & k' & n' & Hth).
    exists tid', k', (build_fingerprint b), n'. split; [done|].
    intros now built err. simpl. rewrite Hth. simpl. destruct (get_finish _ _ _ _ _ _ _ _) as [[??]?]. eauto.
Qed.
End cache.

(** ** Example runs: fingerprints and gateways as strings *)

Definition example_cache : @t string string := mk ∅ ∅ ∅ 2 2 (10 * minute) false [].

(** Two requests for one cluster; the second waits for the first one's build, and
    the cluster is invalidated meanwhile. *)
Definition example_before : list (@action string string) :=
  [Call 1 "cl_a" "fp" None; Call 2 "cl_a" "fp" None].
Definition example_during : list (@action string string) := [Enter 2 11; DoInvalidate "cl_a"].

Definition example_world (actions : list (@action string string)) : @world string string :=
  default (init example_cache) (run (init example_cache) actions).

Example newGatewayCache_example : newGatewayCache 2 (10 * minute) = Ok example_cache.
Proof. by vm_compute. Qed.

Lemma cache_bounded_single_flight_witness :
  let w := example_world (example_before ++ [Enter 1 10]) in
  size w.(cache).(builds) = 1%nat ∧ Z.of_nat (size w.(cache).(entries)) ≤ w.(cache).(capacity).
Proof.
  intros w. split; [by vm_compute|].
  apply (cache_bounded_single_flight 2 (10 * minute) example_cache
    (example_before ++ [Enter 1 10]) w); by vm_compute.
Defined.

Lemma gateways_conserved_witness :
  let w := example_world (example_before ++ [Enter 1 10; Finish 1 12 (Some "gw") None]) in
  w.(ever_built) = [("cl_a", "fp", "gw")] ∧
  snd <$> w.(ever_built) ≡ₚ gateways w.(cache).(entries) ++ w.(ever_retired).
Proof.
  intros w. split; [by vm_compute|].
  apply (gateways_conserved 2 (10 * minute) example_cache
    (example_before ++ [Enter 1 10; Finish 1 12 (Some "gw") None]) w); by vm_compute.
Defined.

Lemma Get_fingerprint_sound_witness :
  let w := example_world (example_before ++
    [Enter 1 10; Enter 2 11; Finish 1 12 (Some "gw") None; Wake 2; Enter 2 13]) in
  ("cl_a", "fp", "gw") ∈ w.(ever_built).
Proof.
  intros w. apply (Get_fingerprint_sound 2 (10 * minute) example_cache (example_before ++
    [Enter 1 10; Enter 2 11; Finish 1 12 (Some "gw") None; Wake 2; Enter 2 13]) w 2%nat);
    by vm_compute.
Defined.

Lemma invalidated_build_discarded_witness :
  let w1 := example_world (example_before ++ [Enter 1 10]) in
  let w2 := example_world (example_before ++ Enter 1 10 :: example_during) in
  let w3 := example_world
    (example_before ++ Enter 1 10 :: example_during ++ [Finish 1 12 (Some "gw") None]) in
  w3.(cache).(entries) = w2.(cache).(entries).
Proof.
  intros w1 w2 w3.
  apply (invalidated_build_discarded 2 (10 * minute) example_cache example_before
    (example_world example_before) 1%nat 10 w1 "cl_a" "fp" 0 0%nat example_during w2 12 "gw" w3);
    by vm_compute.
Defined.

Lemma evictLocked_lru_witness :
  let c : @t string string :=
    mk {[ "a" := mkEntry "f" "ga" 3; "b" := mkEntry "f" "gb" 1; "c" := mkEntry "f" "gc" 2 ]}
       ∅ ∅ 2 2 minute false [] in
  (evictLocked c).2 = ["gb"] ∧ (evictLocked c).1.(entries) ⊆ c.(entries).
Proof. intros c. split; [by vm_compute|]. apply (evictLocked_lru c). by vm_compute. Defined.

Lemma waiter_progress_witness :
  let w := example_world (example_before ++ [Enter 1 10; Enter 2 11]) in
  is_Some (exec w (Wake 2)) ∨
  ∃ tid' k' fp' generation,
    w.(threads) !! tid' = Some (mkThread k' fp' (Building_ generation 0)) ∧
    ∀ now built err, is_Some (exec w (Finish tid' now built err)).
Proof.
  intros w. apply (waiter_progress 2 (10 * minute) example_cache
    (example_before ++ [Enter 1 10; Enter 2 11]) w 2%nat "cl_a" "fp" 0%nat); by vm_compute.
Defined.
End GatewayCache.
