(* ===== verification/Session.v ===== *)
(** * Sessions (src/internal/auth/session.go)

    The in-memory session table of the single administrator.  Tokens are kept by
    their SHA-256 digest; expired sessions are dropped lazily, at a login or when
    they are presented.  Each method holds the mutex while it touches the table,
    so a concurrent history is a sequence of calls. *)

From S2P Require Export Encoding.

Local Open Scope Z_scope.
Local Open Scope stdpp_scope.

(** [PasswordVerifier.Verify]: whether the password matches, or an error. *)
Class PasswordVerifier := Verify : string → string → result bool.

Module Principal.
Record t : Type := mk { Username : string; Role : string; ExpiresAt : time }.
#[global] Instance eq_dec : EqDecision t.
Proof. solve_decision. Defined.
End Principal.
Notation Principal := Principal.t.

Module SessionManager.
Section session.
Context `{PasswordVerifier}.

Notation digest := (list Z) (only parsing).

Record t : Type := mk {
  username : string;
  passwordHash : string;
  ttl : duration;
  sessions : gmap digest Principal;
}.

Definition with_sessions (m : t) (ss : gmap digest Principal) : t :=
  mk m.(username) m.(passwordHash) m.(ttl) ss.

Definition NewSessionManager (username passwordHash : string) (ttl : duration) : result t :=
  reject_if (bool_decide (TrimSpace username = "")) (NewError "admin username must not be empty") ;;
  reject_if (negb (HasPrefix passwordHash "$argon2id$"))
    (NewError "admin password hash must use Argon2id") ;;
  reject_if ((ttl <=? 0) || (24 * hour <? ttl))
    (NewError "session TTL must be between zero and 24 hours") ;;
  Ok (mk username passwordHash ttl ∅).

Definition unexpired (now : time) (p : Principal) : bool := Before now p.(Principal.ExpiresAt).

Definition removeExpiredLocked (m : t) (now : time) : t :=
  with_sessions m (filter (λ p, unexpired now p.2 = true) m.(sessions)).

(** [now] is the clock at the creation of the principal, [swept] at the sweep;
    [random] is the outcome of reading 32 random bytes. *)
Definition Login (m : t) (user password : string) (random : result (list Z)) (now swept : time) :
    t * result (string * Principal) :=
  match Verify m.(passwordHash) password with
  | Err e => (m, Err (Errorf "verify configured password hash: " e))
  | Ok matched =>
      if negb (bool_decide (user = m.(username))) || negb matched then (m, Err ErrUnauthorized)
      else
        match random with
        | Err e => (m, Err (Errorf "create session token: " e))
        | Ok rawToken =>
            let token := RawURLEncode rawToken in
            let principal := Principal.mk m.(username) "system-admin" (Add now m.(ttl)) in
            let m := removeExpiredLocked m swept in
            (with_sessions m (<[SHA256.Sum256 token := principal]> m.(sessions)),
             Ok (token, principal))
        end
  end.

Definition Authenticate (m : t) (token : string) (now : time) : t * result Principal :=
  if bool_decide (token = "") then (m, Err ErrUnauthorized)
  else
    let d := SHA256.Sum256 token in
    match m.(sessions) !! d with
    | None => (m, Err ErrUnauthorized)
    | Some principal =>
        if negb (unexpired now principal)
        then (with_sessions m (delete d m.(sessions)), Err ErrUnauthorized)
        else (m, Ok principal)
    end.

Definition Logout (m : t) (token : string) : t :=
  with_sessions m (delete (SHA256.Sum256 token) m.(sessions)).

(** ** Histories *)

Inductive call : Type :=
  | CLogin (user password : string) (random : result (list Z)) (now swept : time)
  | CAuthenticate (token : string) (now : time)
  | CLogout (token : string).

Definition step (m : t) (c : call) : t :=
  match c with
  | CLogin user password random now swept => (Login m user password random now swept).1
  | CAuthenticate token now => (Authenticate m token now).1
  | CLogout token => Logout m token
  end.

(** The clock readings of a call that can drop sessions. *)
Definition sweeps (c : call) : list time :=
  match c with
  | CLogin _ _ _ _ swept => [swept]
  | CAuthenticate _ now => [now]
  | CLogout _ => []
  end.

(** ** The specification: a table that never expires

    What a token's last successful login granted, if no logout came after it. *)
Definition issue (m : t) (c : call) (granted : gmap digest Principal) : gmap digest Principal :=
  match c with
  | CLogin user password random now swept =>
      match (Login m user password random now swept).2 with
      | Ok (token, principal) => <[SHA256.Sum256 token := principal]> granted
      | Err _ => granted
      end
  | CAuthenticate _ _ => granted
  | CLogout token => delete (SHA256.Sum256 token) granted
  end.

Definition grants (m : t) (calls : list call) : gmap digest Principal :=
  foldl (λ granted c, issue m c granted) ∅ calls.

(** The table holds every unexpired grant, and nothing but grants. *)
Definition sound (now : time) (ss granted : gmap digest Principal) : Prop :=
  ∀ d, ss !! d = granted !! d ∨
    ss !! d = None ∧ ∃ p, granted !! d = Some p ∧ unexpired now p = false.

Lemma unexpired_later now later p :
  now ≤ later → unexpired now p = false → unexpired later p = false.
Proof. unfold unexpired, Before. lia. Qed.

Lemma sound_insert now ss granted d p :
  sound now ss granted → sound now (<[d := p]> ss) (<[d := p]> granted).
Proof.
  intros Hs d'. destruct (decide (d = d')) as [->|Hne].
  - left. by rewrite !lookup_insert_eq.
  - rewrite !lookup_insert_ne by done. apply Hs.
Qed.

Lemma sound_delete now ss granted d :
  sound now ss granted → sound now (delete d ss) (delete d granted).
Proof.
  intros Hs d'. destruct (decide (d = d')) as [->|Hne].
  - left. by rewrite !lookup_delete_eq.
  - rewrite !lookup_delete_ne by done. apply Hs.
Qed.

Lemma sound_expire now swept ss granted :
  swept ≤ now → sound now ss granted →
  sound now (filter (λ p, unexpired swept p.2 = true) ss) granted.
Proof.
  intros Hle Hs d. destruct (filter _ ss !! d) as [p|] eqn:E.
  - apply map_lookup_filter_Some in E as [E _]. rewrite <-E. left.
    destruct (Hs d) as [|[? _]]; congruence.
  - apply map_lookup_filter_None in E.
    destruct (Hs d) as [Hd|[_ Hd]]; [|by right].
    destruct (granted !! d) as [p|] eqn:Hg; [|by left]. right. split; [done|].
    exists p. split; [done|]. destruct E as [E|E]; [congruence|].
    apply (unexpired_later swept); [done|]. apply not_true_is_false. by apply E.
Qed.

Lemma sound_drop now ss granted d p :
  ss !! d = Some p → unexpired now p = false → sound now ss granted →
  sound now (delete d ss) granted.
Proof.
  intros Hd Hp Hs d'. destruct (decide (d = d')) as [->|Hne].
  - right. split; [apply lookup_delete_eq|]. exists p. split; [|done].
    destruct (Hs d') as [|[? _]]; congruence.
  - rewrite lookup_delete_ne by done. apply Hs.
Qed.

Definition same_config (m m' : t) : Prop :=
  m'.(username) = m.(username) ∧ m'.(passwordHash) = m.(passwordHash) ∧ m'.(ttl) = m.(ttl).

Lemma session_step_config m c : same_config m (step m c).
Proof.
  destruct c; simpl; unfold Login, Authenticate; repeat case_match; by simplify_eq/=.
Qed.

(** A login's answer depends on the configuration alone. *)
Lemma Login_answer m m' u p r now swept :
  same_config m m' → (Login m' u p r now swept).2 = (Login m u p r now swept).2.
Proof.
  intros (Hu & Hh & Ht). unfold Login. rewrite Hu, Hh, Ht. by repeat case_match; simplify_eq/=.
Qed.

Lemma Login_sessions m u p r now swept :
  (Login m u p r now swept).1.(sessions) =
  match (Login m u p r now swept).2 with
  | Ok (token, principal) =>
      <[SHA256.Sum256 token := principal]> (removeExpiredLocked m swept).(sessions)
  | Err _ => m.(sessions)
  end.
Proof. unfold Login. by repeat case_match; simplify_eq/=. Qed.

Lemma step_sound m0 m c now granted :
  same_config m0 m → Forall (λ t, t ≤ now) (sweeps c) →
  sound now m.(sessions) granted → sound now (step m c).(sessions) (issue m0 c granted).
Proof.
  intros Hcfg Ht Hs. destruct c as [u p r t1 t2|token t1|token]; simpl.
  - rewrite Login_sessions, <-(Login_answer _ _ u p r t1 t2 Hcfg).
    destruct (Login m u p r t1 t2).2 as [[token principal]|]; [|done].
    apply sound_insert, sound_expire; [by inversion Ht|done].
  - unfold Authenticate. case_bool_decide; [done|].
    destruct (sessions m !! _) as [p|] eqn:E; [|done].
    destruct (unexpired t1 p) eqn:Ep; simpl; [done|].
    eapply sound_drop; [done| |done]. eapply unexpired_later; [|done]. by inversion Ht.
  - by apply sound_delete.
Qed.

Lemma same_config_trans m1 m2 m3 :
  same_config m1 m2 → same_config m2 m3 → same_config m1 m3.
Proof. unfold same_config. naive_solver congruence. Qed.

Lemma steps_sound m0 m calls now granted :
  same_config m0 m → Forall (λ t, t ≤ now) (concat (sweeps <$> calls)) →
  sound now m.(sessions) granted →
  sound now (foldl step m calls).(sessions)
    (foldl (λ granted c, issue m0 c granted) granted calls).
Proof.
  revert m granted. induction calls as [|c calls IH]; intros m granted Hcfg; simpl; [done|].
  intros [Hc Hcs]%Forall_app Hs. apply IH; [|done|by apply step_sound].
  by eapply same_config_trans, session_step_config.
Qed.

Lemma Authenticate_answer m granted token now :
  sound now m.(sessions) granted →
  (Authenticate m token now).2 =
  if bool_decide (token = "") then Err ErrUnauthorized
  else match granted !! SHA256.Sum256 token with
       | Some p => if unexpired now p then Ok p else Err ErrUnauthorized
       | None => Err ErrUnauthorized
       end.
Proof.
  intros Hs. unfold Authenticate. case_bool_decide; [done|]. cbv zeta.
  destruct (Hs (SHA256.Sum256 token)) as [->|[-> (p & -> & Hp)]].
  - destruct (granted !! _) as [p|]; [|done]. by destruct (unexpired now p).
  - by rewrite Hp.
Qed.

Lemma New_sound username hash ttl m now :
  NewSessionManager username hash ttl = Ok m → sound now m.(sessions) ∅.
Proof.
  unfold NewSessionManager. repeat (destruct (reject_if _ _); simpl; try done).
  intros [= <-] d. left. simpl. by rewrite !lookup_empty.
Qed.

(** A grant stems from a login that no logout of the same digest followed. *)
Lemma grants_inv m calls d p :
  grants m calls !! d = Some p →
  ∃ before u pw r t1 t2 token after,
    calls = before ++ CLogin u pw r t1 t2 :: after ∧
    (Login m u pw r t1 t2).2 = Ok (token, p) ∧ SHA256.Sum256 token = d ∧
    ∀ token', CLogout token' ∈ after → SHA256.Sum256 token' ≠ d.
Proof.
  unfold grants. induction calls as [|c calls IH] using rev_ind; [by cbn [foldl]; rewrite lookup_empty|].
  rewrite foldl_app. simpl. fold (grants m calls) in *.
  assert (∀ c', c' = c → (∀ token', c' = CLogout token' → SHA256.Sum256 token' ≠ d) →
    foldl (λ granted c, issue m c granted) ∅ calls !! d = Some p →
    ∃ before u pw r t1 t2 token after,
      calls ++ [c] = before ++ CLogin u pw r t1 t2 :: after ∧
      (Login m u pw r t1 t2).2 = Ok (token, p) ∧ SHA256.Sum256 token = d ∧
      ∀ token', CLogout token' ∈ after → SHA256.Sum256 token' ≠ d) as Hkeep.
  { intros ? -> Hc Hg. destruct (IH Hg) as (b & u & pw & r & t1 & t2 & tok & a & -> & Hl & Hd & Ha).
    exists b, u, pw, r, t1, t2, tok, (a ++ [c]). rewrite <-app_assoc. split_and!; try done.
    intros token'. rewrite elem_of_app, list_elem_of_singleton. intros [?|Heq]; [by apply Ha|].
    by apply Hc. }
  destruct c as [u pw r t1 t2|token t1|token]; simpl.
  - destruct (Login m u pw r t1 t2).2 as [[tok p']|] eqn:Hl; [|by apply (Hkeep _ eq_refl)].
    rewrite lookup_insert_Some. intros [[Hd ->]|[_ Hg]]; [|by apply (Hkeep _ eq_refl)].
    exists calls, u, pw, r, t1, t2, tok, []. split_and!; try done. by intros ? ?%elem_of_nil.
  - by apply (Hkeep _ eq_refl).
  - rewrite lookup_delete_Some. intros [Hne Hg].
    apply (Hkeep _ eq_refl); [|done]. intros ? [= <-]. done.
Qed.

Lemma Login_Ok m u pw r t1 t2 token p :
  (Login m u pw r t1 t2).2 = Ok (token, p) ↔
  u = m.(username) ∧ Verify m.(passwordHash) pw = Ok true ∧
  (∃ raw, r = Ok raw ∧ token = RawURLEncode raw) ∧
  p = Principal.mk m.(username) "system-admin" (Add t1 m.(ttl)).
Proof.
  unfold Login. destruct (Verify _ _) as [[]|]; simpl; [| |naive_solver].
  - rewrite orb_false_r. case_bool_decide; simpl; [|naive_solver].
    destruct r; simpl; naive_solver.
  - rewrite orb_true_r. naive_solver.
Qed.

(** C32: lazy expiry is invisible: after any sequence of logins, logouts and
    authentications whose clock readings are not later than now, a token is
    accepted exactly when it is not empty and the last login that issued its
    digest, with no logout of it since, has not expired by now; it is accepted as
    the principal that login created. *)
Theorem Authenticate_refines_grants username hash ttl m calls token now :
  NewSessionManager username hash ttl = Ok m →
  Forall (λ t, t ≤ now) (concat (sweeps <$> calls)) →
  (Authenticate (foldl step m calls) token now).2 =
  if bool_decide (token = "") then Err ErrUnauthorized
  else match grants m calls !! SHA256.Sum256 token with
       | Some p => if unexpired now p then Ok p else Err ErrUnauthorized
       | None => Err ErrUnauthorized
       end.
Proof.
  intros Hm Ht. apply Authenticate_answer, steps_sound; [done|done|by eapply New_sound].
Qed.

(** No session without the password: whoever is authenticated presents a token
    with the digest of a token issued by an earlier login with the administrator's
    name and a password the verifier accepted, at most the configured lifetime
    (no more than 24 hours) ago, and not logged out since. *)
Theorem Authenticate_requires_login admin hash lifetime m calls token now p :
  NewSessionManager admin hash lifetime = Ok m →
  Forall (λ t, t ≤ now) (concat (sweeps <$> calls)) →
  (Authenticate (foldl step m calls) token now).2 = Ok p →
  p.(Principal.Username) = admin ∧ 0 < lifetime ≤ 24 * hour ∧
  ∃ before pw r t1 t2 token' after,
    calls = before ++ CLogin admin pw r t1 t2 :: after ∧
    Verify hash pw = Ok true ∧ SHA256.Sum256 token' = SHA256.Sum256 token ∧
    (∃ raw, r = Ok raw ∧ token' = RawURLEncode raw) ∧
    p.(Principal.ExpiresAt) = t1 + lifetime ∧ now < t1 + lifetime ∧
    (∀ out, CLogout out ∈ after → SHA256.Sum256 out ≠ SHA256.Sum256 token).
Proof.
  intros Hm Ht. rewrite (Authenticate_answer _ (grants m calls)).
  2:{ apply steps_sound; [done|done|by eapply New_sound]. }
  case_bool_decide; [done|]. destruct (grants m calls !! _) as [p'|] eqn:Hg; [|done].
  destruct (unexpired now p') eqn:Hp; [|done]. intros [= ->].
  apply grants_inv in Hg as (b & u & pw & r & t1 & t2 & tok & a & -> & Hl & Hd & Hout).
  apply Login_Ok in Hl as (-> & Hv & Hr & ->).
  assert (username m = admin ∧ passwordHash m = hash ∧
    ttl m = lifetime ∧ 0 < lifetime ≤ 24 * hour) as (<- & <- & <- & Httl).
  { revert Hm. unfold NewSessionManager. repeat (rewrite bind_Ok; intros ([] & ? & Hm); revert Hm).
    intros [= <-]. simpl. split_and!; try done.
    all: match goal with H : reject_if ((_ <=? _) || _) _ = _ |- _ =>
      apply reject_if_Ok, orb_false_iff in H as [E1%Z.leb_gt E2%Z.ltb_ge] end; done. }
  split_and!; [done|tauto|tauto|].
  exists b, pw, r, t1, t2, tok, a. split_and!; try done.
  revert Hp. unfold unexpired, Before, Add. simpl. lia.
Qed.
End session.

(** ** Examples, with a verifier that accepts one password *)

#[local] Instance sample_verifier : PasswordVerifier := λ _ password, Ok (String.eqb password "secret").

Definition example_manager : t := mk "admin" "$argon2id$v=19$" (8 * hour) ∅.

Definition example_calls : list call :=
  [CLogin "admin" "secret" (Ok [1; 2; 3]) 0 0; CLogin "admin" "wrong" (Ok [4; 5; 6]) 1 1;
   CAuthenticate "AQID" 2].

Example example_manager_new :
  NewSessionManager "admin" "$argon2id$v=19$" (8 * hour) = Ok example_manager.
Proof. by vm_compute. Qed.

Lemma Authenticate_refines_grants_witness :
  (Authenticate (foldl step example_manager example_calls) "AQID" second).2 =
  Ok (Principal.mk "admin" "system-admin" (8 * hour)).
Proof.
  rewrite (Authenticate_refines_grants "admin" "$argon2id$v=19$" (8 * hour) example_manager
    example_calls "AQID" second); [by vm_compute|by vm_compute|].
  repeat constructor; by vm_compute.
Defined.

Lemma Authenticate_requires_login_witness :
  (Principal.mk "admin" "system-admin" (8 * hour)).(Principal.Username) = "admin" ∧ 0 < 8 * hour.
Proof.
  destruct (Authenticate_requires_login "admin" "$argon2id$v=19$" (8 * hour) example_manager
    example_calls "AQID" second (Principal.mk "admin" "system-admin" (8 * hour)))
    as (H1 & H2 & _); [by vm_compute|repeat constructor; by vm_compute|by vm_compute|].
  split; [exact H1|apply H2].
Defined.
End SessionManager.
