(* ===== verification/RateLimit.v ===== *)
(** * The login failure limiter (src/internal/httpapi/rate_limit.go)

    Failures are counted per client in fixed windows; the table is bounded, and
    the window that ends first makes room for a new client.  Every method runs
    under the limiter's mutex.  [evictOldest] ranges over a Go map, so the order of
    the iteration is a parameter of the step. *)

From S2P Require Export Prelude.

Local Open Scope Z_scope.
Local Open Scope stdpp_scope.

Module FailureLimiter.

Record failureWindow : Type := mkWindow { count : Z; resetAt : time }.

Record t : Type := mk {
  entries : gmap string failureWindow;
  maxFailure : Z;
  window : duration;
  maxEntries : Z;
}.

Definition with_entries (l : t) (es : gmap string failureWindow) : t :=
  mk es l.(maxFailure) l.(window) l.(maxEntries).

Definition newFailureLimiter (maxFailure : Z) (window : duration) (maxEntries : Z) : t :=
  mk ∅ maxFailure window maxEntries.

Definition blocked (l : t) (now : time) (key : string) : t * option duration :=
  match l.(entries) !! key with
  | None => (l, None)
  | Some entry =>
      if negb (Before now entry.(resetAt))
      then (with_entries l (delete key l.(entries)), None)
      else if entry.(count) <? l.(maxFailure) then (l, None)
      else (l, Some (Sub entry.(resetAt) now))
  end.

(** The loop of [evictOldest]: the candidate key (empty at first) and its time,
    and the next entry of the iteration. *)
Definition oldest_step (acc : string * time) (p : string * failureWindow) : string * time :=
  if bool_decide (acc.1 = "") || Before p.2.(resetAt) acc.2
  then (p.1, p.2.(resetAt)) else acc.

Definition evictOldest (l : t) (order : list (string * failureWindow)) : t :=
  with_entries l (delete (foldl oldest_step ("", time_zero) order).1 l.(entries)).

Definition failed (l : t) (order : list (string * failureWindow)) (now : time) (key : string) : t :=
  let fresh l := with_entries l (<[key := mkWindow 1 (Add now l.(window))]> l.(entries)) in
  match l.(entries) !! key with
  | Some entry =>
      if Before now entry.(resetAt)
      then with_entries l
             (<[key := mkWindow (wrap_int (entry.(count) + 1)) entry.(resetAt)]> l.(entries))
      else fresh l
  | None =>
      fresh (if l.(maxEntries) <=? Z.of_nat (size l.(entries)) then evictOldest l order else l)
  end.

Definition reset (l : t) (key : string) : t := with_entries l (delete key l.(entries)).

(** ** Histories of calls *)

Inductive call : Type :=
  | CBlocked (now : time) (key : string)
  | CFailed (order : list (string * failureWindow)) (now : time) (key : string)
  | CReset (key : string).

Definition step (l : t) (c : call) : t :=
  match c with
  | CBlocked now key => (blocked l now key).1
  | CFailed order now key => failed l order now key
  | CReset key => reset l key
  end.

Definition call_key (c : call) : string :=
  match c with CBlocked _ key | CFailed _ _ key | CReset key => key end.

(** The iteration order of an eviction is one of the map at that moment. *)
Definition legal (l : t) (c : call) : Prop :=
  match c with
  | CFailed order _ _ => order ≡ₚ map_to_list l.(entries)
  | _ => True
  end.

Inductive runs : t → list call → t → Prop :=
  | runs_nil l : runs l [] l
  | runs_cons l c calls l' : legal l c → runs (step l c) calls l' → runs l (c :: calls) l'.

(** ** Eviction *)

Lemma foldl_oldest_in order acc :
  let r := foldl oldest_step acc order in r = acc ∨ ∃ p, p ∈ order ∧ r = (p.1, p.2.(resetAt)).
Proof.
  revert acc. induction order as [|p order IH]; intros acc; simpl; [by left|].
  destruct (IH (oldest_step acc p)) as [Heq|(q & Hq & Heq)].
  - rewrite Heq. unfold oldest_step. destruct (_ || _); [right|by left].
    exists p. split; [by left|done].
  - right. exists q. split; [by right|done].
Qed.

(** Once the candidate is a proper key, the loop computes a minimum. *)
Lemma foldl_oldest_min order acc :
  acc.1 ≠ "" → Forall (λ p, p.1 ≠ "") order →
  let r := foldl oldest_step acc order in
  r.1 ≠ "" ∧ r.2 ≤ acc.2 ∧ Forall (λ p, r.2 ≤ p.2.(resetAt)) order.
Proof.
  revert acc. induction order as [|p order IH]; intros acc Hacc; simpl; [done|].
  intros [Hp Hps]%Forall_cons.
  assert (oldest_step acc p = acc ∧ acc.2 ≤ resetAt p.2 ∨
          oldest_step acc p = (p.1, resetAt p.2) ∧ resetAt p.2 ≤ acc.2) as Hstep.
  { unfold oldest_step. rewrite bool_decide_eq_false_2 by done. simpl.
    destruct (Before _ _) eqn:E; unfold Before in E; [right|left]; split; try done; lia. }
  destruct Hstep as [[-> Hle]|[-> Hle]].
  - destruct (IH acc Hacc Hps) as (? & ? & ?). split_and!; try done. constructor; [lia|done].
  - destruct (IH (p.1, resetAt p.2) Hp Hps) as (? & ? & ?). simpl in *.
    split_and!; try done; [lia|]. constructor; [lia|done].
Qed.

Lemma evictOldest_size l order :
  order ≡ₚ map_to_list l.(entries) → l.(entries) ≠ ∅ →
  S (size (evictOldest l order).(entries)) = size l.(entries).
Proof.
  intros Hord Hne. simpl.
  assert (is_Some (entries l !! (foldl oldest_step ("", time_zero) order).1)) as [e He].
  { destruct order as [|p order].
    { symmetry in Hord. by apply Permutation_nil_r, map_to_list_empty_iff in Hord. }
    assert (∃ q, q ∈ p :: order ∧ foldl oldest_step ("", time_zero) (p :: order) =
      (q.1, q.2.(resetAt))) as (q & Hq & ->).
    { simpl. change (oldest_step ("", time_zero) p) with (p.1, resetAt p.2).
      destruct (foldl_oldest_in order (p.1, resetAt p.2)) as [->|(q & Hq & ->)].
      - exists p. split; [by left|done].
      - exists q. split; [by right|done]. }
    rewrite Hord in Hq. destruct q as [k e]. apply elem_of_map_to_list in Hq. by exists e. }
  pose proof (map_size_delete (foldl oldest_step ("", time_zero) order).1 (entries l)) as Hd.
  rewrite He in Hd. simpl in Hd.
  pose proof (map_size_ne_0_lookup_2 (entries l) _ (mk_is_Some _ _ He)). lia.
Qed.

(** ** The table stays bounded *)

Definition bounded (l : t) : Prop := 1 ≤ l.(maxEntries) ∧ Z.of_nat (size l.(entries)) ≤ l.(maxEntries).

Lemma size_insert_le (es : gmap string failureWindow) k e :
  (size (<[k:=e]> es) ≤ S (size es))%nat ∧ (is_Some (es !! k) → size (<[k:=e]> es) = size es).
Proof. rewrite map_size_insert. destruct (es !! k); simpl; split; try lia; by intros [? ?]. Qed.

Lemma size_delete_le (es : gmap string failureWindow) k : (size (delete k es) ≤ size es)%nat.
Proof. rewrite map_size_delete. destruct (es !! k); simpl; lia. Qed.

Lemma step_bounded l c : legal l c → bounded l → bounded (step l c).
Proof.
  intros Hlegal [Hm Hs]. unfold bounded. destruct c as [now key|order now key|key]; simpl in *.
  - unfold blocked. pose proof (size_delete_le l.(entries) key).
    repeat case_match; simplify_eq/=; lia.
  - unfold failed. destruct (entries l !! key) as [e|] eqn:E.
    + assert (is_Some (entries l !! key)) as Hk by eauto.
      destruct (Before _ _); simpl; rewrite (proj2 (size_insert_le _ _ _) Hk); lia.
    + destruct (Z.leb_spec (maxEntries l) (Z.of_nat (size (entries l)))) as [Hle|Hlt]; simpl.
      * assert (entries l ≠ ∅) as Hne by (intros Hn; rewrite Hn, map_size_empty in Hle; lia).
        pose proof (evictOldest_size _ _ Hlegal Hne) as Hev. simpl in Hev.
        pose proof (proj1 (size_insert_le (delete (foldl oldest_step ("", time_zero) order).1
          (entries l)) key (mkWindow 1 (Add now (window l))))). lia.
      * pose proof (proj1 (size_insert_le (entries l) key (mkWindow 1 (Add now (window l))))). lia.
  - pose proof (size_delete_le l.(entries) key). lia.
Qed.

(** ** Clients do not influence each other *)

Definition own (key : string) (c : call) : bool := bool_decide (call_key c = key).

Definition keys (calls : list call) : gset string := list_to_set (call_key <$> calls).

Definition room (l : t) : Prop := Z.of_nat (size l.(entries)) < l.(maxEntries).

(** A call on another key leaves this key's window alone, unless it evicts. *)
Lemma step_other l c key :
  call_key c ≠ key → (l.(entries) !! call_key c = None → room l) →
  (step l c).(entries) !! key = l.(entries) !! key.
Proof.
  intros Hne Hroom. destruct c as [now k|order now k|k]; simpl in *.
  - unfold blocked. repeat case_match; simplify_eq/=; try done. by rewrite lookup_delete_ne.
  - unfold failed. destruct (entries l !! k) as [e|].
    + destruct (Before _ _); simpl; by rewrite lookup_insert_ne.
    + unfold room in Hroom. rewrite (proj2 (Z.leb_gt _ _)) by auto. simpl.
      by rewrite lookup_insert_ne.
  - by rewrite lookup_delete_ne.
Qed.

(** A call on this key acts on its window alone, unless it evicts. *)
Lemma step_own l l' c :
  l.(maxFailure) = l'.(maxFailure) → l.(window) = l'.(window) →
  (l.(entries) !! call_key c = None → room l ∧ room l') →
  l.(entries) !! call_key c = l'.(entries) !! call_key c →
  (step l c).(entries) !! call_key c = (step l' c).(entries) !! call_key c.
Proof.
  intros Hf Hw Hroom Heq. destruct c as [now k|order now k|k]; simpl in *.
  - unfold blocked. rewrite <-Heq, <-Hf.
    destruct (entries l !! k) as [e|] eqn:E; [|simpl; congruence].
    destruct (negb _); simpl; [by rewrite !lookup_delete_eq|].
    destruct (_ <? _); simpl; congruence.
  - unfold failed. rewrite <-Heq. destruct (entries l !! k) as [e|].
    + destruct (Before _ _); simpl; rewrite !lookup_insert_eq, ?Hw; done.
    + destruct Hroom as [H1 H2]; [done|]. unfold room in *.
      rewrite !(proj2 (Z.leb_gt _ _)) by done. simpl. by rewrite !lookup_insert_eq, Hw.
  - by rewrite !lookup_delete_eq.
Qed.

Lemma limiter_step_config l c :
  (step l c).(maxFailure) = l.(maxFailure) ∧ (step l c).(window) = l.(window) ∧
  (step l c).(maxEntries) = l.(maxEntries).
Proof.
  destruct c; simpl; unfold blocked, failed, evictOldest; repeat case_match; by simplify_eq/=.
Qed.

Lemma step_dom l c : dom (step l c).(entries) ⊆ {[ call_key c ]} ∪ dom l.(entries).
Proof.
  intros k. rewrite !elem_of_union, elem_of_singleton, !elem_of_dom.
  destruct (decide (k = call_key c)) as [->|Hne]; [by left|right].
  destruct c as [now k'|order now k'|k']; simpl in *.
  - unfold blocked in *. repeat case_match; simplify_eq/=; try done.
    by rewrite lookup_delete_ne in *.
  - unfold failed in *. destruct (entries l !! k').
    + destruct (Before _ _); simpl in *; by rewrite lookup_insert_ne in *.
    + destruct (_ <=? _); simpl in *; rewrite lookup_insert_ne in * by done; [|done].
      match goal with H : is_Some (delete _ _ !! _) |- _ => destruct H as [e [_ He]%lookup_delete_Some] end.
      by exists e.
  - by rewrite lookup_delete_ne in *.
Qed.

Lemma room_new_key l (ks : gset string) k :
  dom l.(entries) ⊆ ks → k ∈ ks → Z.of_nat (size ks) ≤ l.(maxEntries) →
  l.(entries) !! k = None → room l.
Proof.
  intros Hsub Hk Hsize Hn. unfold room.
  assert (dom l.(entries) ⊆ ks ∖ {[k]}) as Hd.
  { intros x Hx. apply elem_of_difference. split; [by apply Hsub|].
    rewrite elem_of_singleton. intros ->. by apply not_elem_of_dom in Hn. }
  apply subseteq_size in Hd. rewrite size_dom in Hd.
  rewrite size_difference, size_singleton in Hd by (by apply singleton_subseteq_l).
  assert (size ks ≠ 0%nat); [|lia]. intros H0. apply size_empty_inv in H0. set_solver.
Qed.

Lemma steps_independent calls (ks : gset string) l l' key :
  l.(maxFailure) = l'.(maxFailure) → l.(window) = l'.(window) →
  l.(maxEntries) = l'.(maxEntries) → Z.of_nat (size ks) ≤ l.(maxEntries) →
  keys calls ⊆ ks → dom l.(entries) ⊆ ks → dom l'.(entries) ⊆ ks →
  l.(entries) !! key = l'.(entries) !! key →
  (foldl step l calls).(entries) !! key =
  (foldl step l' (List.filter (own key) calls)).(entries) !! key.
Proof.
  revert l l'. induction calls as [|c calls IH]; intros l l' Hf Hw Hm Hsz Hks Hd Hd' Heq; [done|].
  change (keys (c :: calls)) with ({[ call_key c ]} ∪ keys calls) in Hks.
  apply union_subseteq in Hks as [Hc%singleton_subseteq_l Hcs].
  pose proof (limiter_step_config l c) as (?&?&Hm1). pose proof (limiter_step_config l' c) as (?&?&?).
  assert (∀ l0, dom l0.(entries) ⊆ ks → dom (step l0 c).(entries) ⊆ ks) as Hdom.
  { intros l0 Hl0. etrans; [apply step_dom|]. apply union_least; [|done].
    by apply singleton_subseteq_l. }
  simpl. destruct (own key c) eqn:Hk; unfold own in Hk;
    [apply bool_decide_eq_true in Hk|apply bool_decide_eq_false in Hk]; simpl.
  - apply IH; [congruence..|by rewrite Hm1|done|by apply Hdom|by apply Hdom|].
    rewrite <-Hk in *. apply step_own; try done.
    intros Hn. split; [by eapply room_new_key|]. rewrite Heq in Hn.
    eapply room_new_key; [exact Hd'|done|by rewrite <-Hm|done].
  - apply IH; [congruence..|by rewrite Hm1|done|by apply Hdom|done|].
    rewrite <-Heq. apply step_other; [done|].
    intros Hn. by eapply room_new_key.
Qed.

(** ** Counting failures *)

Definition fail_all (l : t) (fs : list (list (string * failureWindow) * time)) (key : string) : t :=
  foldl (λ l f, failed l f.1 f.2 key) l fs.

Lemma fail_again l fs key n r :
  l.(entries) !! key = Some (mkWindow n r) → Forall (λ f, f.2 < r) fs →
  0 ≤ n → n + len_list fs ≤ max_int64 →
  (fail_all l fs key).(entries) !! key = Some (mkWindow (n + len_list fs) r) ∧
  (fail_all l fs key).(maxFailure) = l.(maxFailure).
Proof.
  unfold len_list. revert l n. induction fs as [|[o now] fs IH]; intros l n Hk.
  { intros. simpl. by rewrite Z.add_0_r. }
  rewrite Forall_cons. cbn [length snd]. intros [Hnow Hfs] Hn Hmax.
  change (fail_all l ((o, now) :: fs) key) with (fail_all (failed l o now key) fs key).
  assert (failed l o now key = with_entries l (<[key := mkWindow (n + 1) r]> l.(entries))) as ->.
  { unfold failed. rewrite Hk. simpl. rewrite (proj2 (Before_spec now r)) by done.
    rewrite wrap_int_id; [done|]. unfold min_int64. lia. }
  destruct (IH (with_entries l (<[key:=mkWindow (n + 1) r]> (entries l))) (n + 1)) as [He Hf];
    [by simpl; rewrite lookup_insert_eq|done|lia..|].
  split; [|done]. rewrite He. do 2 f_equal. lia.
Qed.

Lemma oldest_evicted l order :
  order ≡ₚ map_to_list l.(entries) → l.(entries) !! "" = None → l.(entries) ≠ ∅ →
  ∃ k e, l.(entries) !! k = Some e ∧ (evictOldest l order).(entries) = delete k l.(entries) ∧
    ∀ k' e', l.(entries) !! k' = Some e' → e.(resetAt) ≤ e'.(resetAt).
Proof.
  intros Hord Hempty Hne.
  assert (∀ k e, (k, e) ∈ order ↔ l.(entries) !! k = Some e) as Hin.
  { intros k e. by rewrite Hord, elem_of_map_to_list. }
  assert (Forall (λ p, p.1 ≠ "") order) as Hkeys.
  { apply Forall_forall. intros [k e] Hp%Hin Hk. simpl in *. congruence. }
  destruct order as [|[k0 e0] order].
  { symmetry in Hord. by apply Permutation_nil_r, map_to_list_empty_iff in Hord. }
  apply Forall_cons in Hkeys as Hkeys'. destruct Hkeys' as [Hk0 Hkeys'].
  simpl evictOldest. unfold evictOldest. cbn [foldl entries with_entries].
  change (oldest_step ("", time_zero) (k0, e0)) with (k0, resetAt e0).
  destruct (foldl_oldest_min order (k0, resetAt e0)) as (_ & Hle & Hmin); [done|done|].
  destruct (foldl_oldest_in order (k0, resetAt e0)) as [Heq|([k e] & Hp & Heq)];
    rewrite Heq in *; simpl in *.
  - exists k0, e0. split_and!; [apply Hin; by left|done|].
    intros k' e' [[= -> ->]|Hk']%Hin%elem_of_cons; [done|].
    rewrite Forall_forall in Hmin. by apply Hmin in Hk'.
  - exists k, e. split_and!; [apply Hin; by right|done|].
    intros k' e' [[= -> ->]|Hk']%Hin%elem_of_cons; [done|].
    rewrite Forall_forall in Hmin. by apply Hmin in Hk'.
Qed.

(** ** Properties *)

(** The limiter's memory is bounded: after any history of calls, with any
    iteration order of the map at each eviction, it holds at most [maxEntries]
    windows, and an eviction among non-empty client keys drops a window that ends
    no later than any other. *)
Theorem limiter_bounded failures d limit calls l :
  1 ≤ limit → runs (newFailureLimiter failures d limit) calls l →
  Z.of_nat (size l.(entries)) ≤ limit ∧
  (∀ order, order ≡ₚ map_to_list l.(entries) → l.(entries) !! "" = None → l.(entries) ≠ ∅ →
    ∃ k e, l.(entries) !! k = Some e ∧ (evictOldest l order).(entries) = delete k l.(entries) ∧
      ∀ k' e', l.(entries) !! k' = Some e' → e.(resetAt) ≤ e'.(resetAt)).
Proof.
  intros Hm Hruns. split; [|by apply oldest_evicted].
  assert (bounded l ∧ maxEntries l = limit) as [[_ ?] <-]; [|done].
  assert (bounded (newFailureLimiter failures d limit)) as Hb.
  { split; simpl; [lia|]. rewrite map_size_empty. lia. }
  assert (maxEntries (newFailureLimiter failures d limit) = limit) as Hl by done.
  revert Hb Hl. induction Hruns as [l0|l0 c calls l' Hlegal _ IH]; intros Hb Hl; [done|].
  apply IH; [by apply step_bounded|]. by destruct (limiter_step_config l0 c) as (_ & _ & ->).
Qed.

(** Clients do not influence each other: when the history mentions no more
    client keys than the table has room for, the window of a client depends only
    on that client's own calls. *)
Theorem clients_independent failures d limit calls key :
  Z.of_nat (size (keys calls)) ≤ limit →
  let l := newFailureLimiter failures d limit in
  (foldl step l calls).(entries) !! key =
  (foldl step l (List.filter (own key) calls)).(entries) !! key.
Proof.
  intros Hsize l. apply (steps_independent calls (keys calls)); try done; set_solver.
Qed.

(** Failures block: when a client without a window fails [n] times before
    the window of its first failure ends, it is blocked until exactly that end if
    [n] has reached [maxFailure], and not blocked otherwise; at the end of the
    window it is free again. *)
Theorem failures_block l key order t0 later now :
  l.(entries) !! key = None → 1 + len_list later ≤ max_int64 →
  0 ≤ l.(window) ≤ max_int64 → t0 ≤ now →
  Forall (λ f, f.2 < t0 + l.(window)) later →
  (blocked (fail_all l ((order, t0) :: later) key) now key).2 =
  if (now <? t0 + l.(window)) && (l.(maxFailure) <=? 1 + len_list later)
  then Some (t0 + l.(window) - now) else None.
Proof.
  intros Hk Hmax Hw Hnow Hfs.
  change (fail_all l ((order, t0) :: later) key) with (fail_all (failed l order t0 key) later key).
  assert ((failed l order t0 key).(entries) !! key = Some (mkWindow 1 (t0 + l.(window))) ∧
    (failed l order t0 key).(maxFailure) = l.(maxFailure)) as [H1 Hf1].
  { unfold failed, Add. rewrite Hk. destruct (_ <=? _); simpl; by rewrite lookup_insert_eq. }
  destruct (fail_again _ later key 1 (t0 + l.(window)) H1) as [He Hf]; [done|lia|lia|].
  unfold blocked. rewrite He, Hf, Hf1. simpl. unfold Before.
  destruct (Z.ltb_spec now (t0 + window l)); simpl; [|done].
  rewrite Z.leb_antisym. destruct (_ <? _); simpl; [done|].
  rewrite Sub_exact; [done|]. unfold min_int64. lia.
Qed.

(** ** Examples *)

Definition example_limiter : t := newFailureLimiter 2 (5 * minute) 2.

Definition example_calls : list call :=
  [CFailed [] 0 "10.0.0.1"; CFailed [] second "10.0.0.2"; CFailed [] second "10.0.0.1";
   CBlocked minute "10.0.0.1"].

Lemma limiter_bounded_witness :
  (size (foldl step example_limiter [CFailed [] 0 "a"; CFailed [("a", mkWindow 1 (5 * minute))] 1 "b"]).(entries)
    = 2%nat) ∧
  Z.of_nat (size (foldl step example_limiter
    [CFailed [] 0 "a"; CFailed [("a", mkWindow 1 (5 * minute))] 1 "b"]).(entries)) ≤ 2.
Proof.
  split; [by vm_compute|].
  apply (limiter_bounded 2 (5 * minute) 2
    [CFailed [] 0 "a"; CFailed [("a", mkWindow 1 (5 * minute))] 1 "b"]); [lia|].
  repeat (constructor; [by vm_compute|]). constructor.
Defined.

Lemma clients_independent_witness :
  (foldl step example_limiter example_calls).(entries) !! "10.0.0.1" =
  (foldl step example_limiter (List.filter (own "10.0.0.1") example_calls)).(entries) !! "10.0.0.1".
Proof. apply (clients_independent 2 (5 * minute) 2 example_calls). by vm_compute. Defined.

Lemma failures_block_witness :
  (blocked (fail_all example_limiter [([], 0); ([], second)] "10.0.0.1") minute "10.0.0.1").2 =
  Some (4 * minute).
Proof.
  rewrite (failures_block example_limiter "10.0.0.1" [] 0 [([], second)] minute);
    [by vm_compute|by vm_compute|by vm_compute|by vm_compute|by vm_compute|].
  repeat constructor; by vm_compute.
Defined.

(** The empty key doubles as the loop's "no candidate yet" mark, so with it in the
    table the victim depends on the iteration order, and the newest window can go. *)
Example evict_empty_key :
  let l := mk {[ "" := mkWindow 1 0; "a" := mkWindow 1 1; "b" := mkWindow 1 5 ]} 5 minute 3 in
  let order := [("a", mkWindow 1 1); ("", mkWindow 1 0); ("b", mkWindow 1 5)] in
  (evictOldest l order).(entries) !! "b" = None.
Proof. by vm_compute. Qed.
End FailureLimiter.
