(* ===== verification/Password.v ===== *)
(** * Password hashes (src/internal/secure/password.go)

    A password is kept as an Argon2id key with the parameters and the salt it was derived
    with, in the usual encoding.  Argon2id itself is not part of the repository: it is a
    parameter, of which the length of its keys is known. *)

From S2P Require Export GoNum Base64 Session.
From S2P Require Import Json.

Local Open Scope Z_scope.
Local Open Scope stdpp_scope.

(** [argon2.IDKey(password, salt, time, memory, threads, keyLen)]. *)
Class Argon2 := IDKey : string → list Z → Z → Z → Z → Z → list Z.

Class Argon2Laws `{Argon2} : Prop := {
  IDKey_bytes password salt iterations memory threads keyLen :
    Forall is_byte (IDKey password salt iterations memory threads keyLen);
  IDKey_length password salt iterations memory threads keyLen :
    0 ≤ keyLen → len_list (IDKey password salt iterations memory threads keyLen) = keyLen;
}.

(** ** fmt.Sscanf

    The format is [m=%d,t=%d,p=%d]: its other characters are matched as they are, a verb
    skips spaces but no line feed, reads decimal digits and fails when they are none or
    too many for 32 bits.  What follows the last number is not looked at. *)

Fixpoint SkipSpace (s : string) : option string :=
  match s with
  | EmptyString => Some s
  | String c r0 =>
      if bool_decide (c = "010"%char) then None else
      if space1 c then SkipSpace r0 else
      match r0 with
      | EmptyString => Some s
      | String d r1 =>
          if space2 c d then SkipSpace r1 else
          match r1 with
          | EmptyString => Some s
          | String e r2 => if space3 c d e then SkipSpace r2 else Some s
          end
      end
  end.

Definition scan_uint32 (s : string) : option (Z * string) :=
  s ← SkipSpace s;
  let '(tok, rest) := Json.digits s in
  i ← ParseUint tok 64;
  if i <? 2 ^ 32 then Some (i, rest) else None.

Definition scan_verb (literal s : string) : option (Z * string) := strip_prefix literal s ≫= scan_uint32.

Definition Sscanf (s : string) : option (Z * Z * Z) :=
  '(m, s) ← scan_verb "m=" s;
  '(t, s) ← scan_verb ",t=" s;
  '(p, _) ← scan_verb ",p=" s;
  Some (m, t, p).

(** ** The hasher *)

Module PasswordParams.
Record t : Type := mk {
  MemoryKiB : Z;
  Iterations : Z;
  Parallelism : Z;
  SaltLength : Z;
  KeyLength : Z;
}.
End PasswordParams.
Notation PasswordParams := PasswordParams.t.

Definition DefaultPasswordParams : PasswordParams := PasswordParams.mk (64 * 1024) 3 2 16 32.

Definition validatePasswordParams (params : PasswordParams) : result unit :=
  let '(PasswordParams.mk memory iterations parallelism salt key) := params in
  reject_if ((memory <? 8 * 1024) || (1024 * 1024 <? memory))
    (NewError "argon2 memory must be between 8 MiB and 1 GiB") ;;
  reject_if ((iterations <? 1) || (10 <? iterations)) (NewError "argon2 iterations must be between 1 and 10") ;;
  reject_if ((parallelism <? 1) || (16 <? parallelism)) (NewError "argon2 parallelism must be between 1 and 16") ;;
  reject_if ((salt <? 16) || (64 <? salt) || (key <? 16) || (64 <? key))
    (NewError "argon2 salt and key lengths must be between 16 and 64 bytes").

Module PasswordHasher.
Section hasher.
Context `{Argon2}.

(** A hasher is its parameters. [random n] is what reading [n] bytes of [rand.Reader]
    gives. *)
Definition Hash (params : PasswordParams) (random : Z → result (list Z)) (password : string) : result string :=
  validatePasswordParams params ;;
  reject_if (bool_decide (password = "")) (NewError "password must not be empty") ;;
  match random params.(PasswordParams.SaltLength) with
  | Err err => Err (Errorf "create password salt: " err)
  | Ok salt =>
      let hash := IDKey password salt params.(PasswordParams.Iterations) params.(PasswordParams.MemoryKiB)
        params.(PasswordParams.Parallelism) params.(PasswordParams.KeyLength) in
      Ok ("$argon2id$v=19$m=" +:+ FormatInt params.(PasswordParams.MemoryKiB) +:+
          ",t=" +:+ FormatInt params.(PasswordParams.Iterations) +:+
          ",p=" +:+ FormatInt params.(PasswordParams.Parallelism) +:+
          "$" +:+ RawStdEncode salt +:+ "$" +:+ RawStdEncode hash)
  end.

(** The parameters, the salt and the key of an encoded hash. *)
Definition decode (encoded : string) : result (PasswordParams * list Z * list Z) :=
  match Split encoded "$" with
  | [_; name; version; numbers; salt; key] =>
      reject_if (negb (bool_decide (name = "argon2id")) || negb (bool_decide (version = "v=19")))
        (NewError "invalid password hash format") ;;
      '(memory, iterations, parallelism) ← expect_ok (NewError "invalid password hash parameters") (Sscanf numbers);
      reject_if (255 <? parallelism) (NewError "invalid password hash parameters") ;;
      salt ← expect_ok (NewError "invalid password hash salt") (RawStdDecodeString salt);
      want ← expect_ok (NewError "invalid password hash value") (RawStdDecodeString key);
      reject_if (bool_decide (want = [])) (NewError "invalid password hash value") ;;
      let params := PasswordParams.mk memory iterations parallelism (len_list salt mod 2 ^ 32) (len_list want mod 2 ^ 32) in
      validatePasswordParams params ;;
      Ok (params, salt, want)
  | _ => Err (NewError "invalid password hash format")
  end.

Definition Verify (encoded password : string) : result bool :=
  '(params, salt, want) ← decode encoded;
  let got := IDKey password salt params.(PasswordParams.Iterations) params.(PasswordParams.MemoryKiB)
    params.(PasswordParams.Parallelism) params.(PasswordParams.KeyLength) in
  Ok (bool_decide (got = want)).

(** The sessions verify passwords with a hasher. *)
#[global] Instance verifier : PasswordVerifier := Verify.
End hasher.
End PasswordHasher.

(** ** What is decoded *)

Definition bounded_params (params : PasswordParams) : Prop :=
  8192 ≤ params.(PasswordParams.MemoryKiB) ≤ 1048576 ∧ 1 ≤ params.(PasswordParams.Iterations) ≤ 10 ∧
  1 ≤ params.(PasswordParams.Parallelism) ≤ 16 ∧ 16 ≤ params.(PasswordParams.SaltLength) ≤ 64 ∧
  16 ≤ params.(PasswordParams.KeyLength) ≤ 64.

Lemma validatePasswordParams_Ok params : validatePasswordParams params = Ok tt ↔ bounded_params params.
Proof.
  destruct params as [m t p s k]. unfold validatePasswordParams, bounded_params. cbn.
  unfold reject_if. repeat case_match; cbn; rewrite ?orb_true_iff, ?orb_false_iff, ?Z.ltb_lt, ?Z.ltb_ge in *; split; intros; done || lia.
Qed.

Lemma SkipSpace_digit c s : is_digit c = true → SkipSpace (String c s) = Some (String c s).
Proof.
  intros Hc. cbn [SkipSpace].
  assert (c ≠ "010"%char) by (intros ->; vm_compute in Hc; discriminate). rewrite bool_decide_eq_false_2 by done.
  assert (space1 c = false ∧ (∀ d, space2 c d = false) ∧ (∀ d e, space3 c d e = false)) as (-> & H2 & H3).
  { destruct c as [[] [] [] [] [] [] [] []]; vm_compute in Hc; try discriminate; done. }
  destruct s as [|d s]; [done|]. rewrite H2. destruct s as [|e s]; [done|]. by rewrite H3.
Qed.

Lemma digits_stop d s : all_bytes is_digit d = true → (∀ c r, s = String c r → is_digit c = false) → Json.digits (d +:+ s) = (d, s).
Proof.
  intros Hd Hs. induction d as [|c d IH].
  - rewrite app_empty_l. destruct s as [|c s]; [done|]. cbn. by rewrite (Hs c s eq_refl).
  - cbn in Hd. apply andb_true_iff in Hd as [Hc Hd]. rewrite app_cons. cbn [Json.digits]. by rewrite Hc, IH.
Qed.

Lemma scan_verb_FormatInt literal n s : 0 ≤ n < 2 ^ 32 → (∀ c r, s = String c r → is_digit c = false) →
  scan_verb literal (literal +:+ FormatInt n +:+ s) = Some (n, s).
Proof.
  intros Hn Hs. unfold scan_verb. rewrite (proj2 (strip_prefix_Some literal _ (FormatInt n +:+ s))) by done. cbn [mbind option_bind].
  assert (FormatInt n = FormatUint n) as -> by (unfold FormatInt; by destruct (Z.ltb_spec n 0); [lia|]).
  destruct (FormatUint_spec n ltac:(lia)) as (Hne & Hd & _ & _). unfold scan_uint32.
  assert (SkipSpace (FormatUint n +:+ s) = Some (FormatUint n +:+ s)) as ->.
  { destruct (FormatUint n) as [|c d]; [done|]. cbn in Hd. apply andb_true_iff in Hd as [Hc _].
    rewrite app_cons. by apply SkipSpace_digit. }
  cbn [mbind option_bind]. rewrite digits_stop by done. rewrite ParseUint_FormatUint by lia. cbn [mbind option_bind].
  by rewrite (proj2 (Z.ltb_lt _ _)) by lia.
Qed.

Lemma Sscanf_format m t p : 0 ≤ m < 2 ^ 32 → 0 ≤ t < 2 ^ 32 → 0 ≤ p < 2 ^ 32 →
  Sscanf ("m=" +:+ FormatInt m +:+ ",t=" +:+ FormatInt t +:+ ",p=" +:+ FormatInt p) = Some (m, t, p).
Proof.
  intros Hm Ht Hp. unfold Sscanf. rewrite scan_verb_FormatInt; [|done|by intros c r [= <- _]]. cbn [mbind option_bind].
  rewrite scan_verb_FormatInt; [|done|by intros c r [= <- _]]. cbn [mbind option_bind].
  pose proof (scan_verb_FormatInt ",p=" p "" Hp) as Hlast. rewrite string_app_nil_r in Hlast. by rewrite Hlast.
Qed.

(** ** A hash reads back *)

Section hashes.
Context `{Argon2Laws}.

(** The key of a password. *)
Definition key_of (params : PasswordParams) (salt : list Z) (password : string) : list Z :=
  IDKey password salt params.(PasswordParams.Iterations) params.(PasswordParams.MemoryKiB)
    params.(PasswordParams.Parallelism) params.(PasswordParams.KeyLength).

(** A source of random bytes: as many as are asked for. *)
Definition random_bytes (random : Z → result (list Z)) : Prop :=
  ∀ n bs, random n = Ok bs → Forall is_byte bs ∧ len_list bs = n.

Lemma not_in_encoding (f : ascii → bool) s c : all_bytes f s = true → f c = false → c ∉ bytes s.
Proof. rewrite all_bytes_spec. intros Hs Hc Hin%Hs. congruence. Qed.

Lemma dollar_not_in_FormatInt n : 0 ≤ n → "$"%char ∉ bytes (FormatInt n).
Proof.
  intros Hn. assert (FormatInt n = FormatUint n) as -> by (unfold FormatInt; by destruct (Z.ltb_spec n 0); [lia|]).
  apply (not_in_encoding is_digit); [apply (FormatUint_spec n Hn)|done].
Qed.

Lemma dollar_not_in_base64 l : Forall is_byte l → "$"%char ∉ bytes (RawStdEncode l).
Proof.
  intros Hl. unfold RawStdEncode. rewrite bytes_of_bytes. intros (c & Hc & Hin)%list_elem_of_fmap.
  pose proof (RawStdEncode_chars _ Hl) as Hf. rewrite Forall_forall in Hf.
  destruct (std_char_digit c (Hf c Hin)) as (_ & Hs & _). rewrite <-Hc in Hs. by vm_compute in Hs.
Qed.

Lemma dollar_not_in_numbers m t p : 0 ≤ m → 0 ≤ t → 0 ≤ p →
  "$"%char ∉ bytes ("m=" +:+ FormatInt m +:+ ",t=" +:+ FormatInt t +:+ ",p=" +:+ FormatInt p).
Proof.
  intros Hm Ht Hp. rewrite !bytes_app, !not_elem_of_app.
  pose proof (dollar_not_in_FormatInt m Hm). pose proof (dollar_not_in_FormatInt t Ht).
  pose proof (dollar_not_in_FormatInt p Hp). split_and!; try done; apply (bool_decide_unpack _); reflexivity.
Qed.

(** The parts of an encoded hash. *)
Lemma Split_encoded numbers salt key :
  "$"%char ∉ bytes numbers → "$"%char ∉ bytes salt → "$"%char ∉ bytes key →
  Split ("$argon2id$v=19$" +:+ numbers +:+ "$" +:+ salt +:+ "$" +:+ key) "$" = [""; "argon2id"; "v=19"; numbers; salt; key].
Proof.
  intros Hn Hs Hk.
  assert ("$argon2id$v=19$" +:+ numbers +:+ "$" +:+ salt +:+ "$" +:+ key =
    Join [""; "argon2id"; "v=19"; numbers; salt; key] "$") as -> by (by cbn).
  apply Split_Join; [done|]. repeat constructor; try done; by apply (bool_decide_unpack _).
Qed.

Lemma Hash_decodes params random password encoded :
  PasswordHasher.Hash params random password = Ok encoded → random_bytes random →
  HasPrefix encoded "$argon2id$" = true ∧
  ∃ salt, PasswordHasher.decode encoded = Ok (params, salt, key_of params salt password).
Proof.
  unfold PasswordHasher.Hash. intros ([] & Hv & (_ & _ & Hr)%bind_Ok)%bind_Ok Hrandom.
  pose proof Hv as Hb%validatePasswordParams_Ok. destruct (random _) as [salt|] eqn:Hs; [|done].
  destruct (Hrandom _ _ Hs) as [Hsalt Hslen]. injection Hr as <-. split; [apply HasPrefix_spec; by eexists|]. exists salt.
  destruct Hb as (Hm & Ht & Hp & Hsl & Hkl). unfold PasswordHasher.decode.
  pose proof (IDKey_bytes password salt params.(PasswordParams.Iterations) params.(PasswordParams.MemoryKiB)
    params.(PasswordParams.Parallelism) params.(PasswordParams.KeyLength)) as Hkey.
  pose proof (IDKey_length password salt params.(PasswordParams.Iterations) params.(PasswordParams.MemoryKiB)
    params.(PasswordParams.Parallelism) params.(PasswordParams.KeyLength) ltac:(lia)) as Hklen.
  unfold key_of. set (key := IDKey _ _ _ _ _ _) in *. clearbody key.
  destruct params as [m t p s k]. cbn [PasswordParams.MemoryKiB PasswordParams.Iterations PasswordParams.Parallelism
    PasswordParams.SaltLength PasswordParams.KeyLength] in *. subst s k.
  pose proof (Split_encoded _ _ _ (dollar_not_in_numbers m t p ltac:(lia) ltac:(lia) ltac:(lia))
    (dollar_not_in_base64 _ Hsalt) (dollar_not_in_base64 _ Hkey)) as Hsplit.
  rewrite !string_app_assoc in Hsplit.
  change ("$argon2id$v=19$" +:+ "m=" +:+ ?r) with ("$argon2id$v=19$m=" +:+ r) in Hsplit. rewrite Hsplit.
  change (bool_decide ("argon2id" = "argon2id")) with true. change (bool_decide ("v=19" = "v=19")) with true.
  cbn [negb orb reject_if mbind result_bind]. rewrite Sscanf_format by lia. cbn [mbind result_bind expect_ok].
  rewrite (proj2 (Z.ltb_ge _ _)) by lia. cbn [reject_if mbind result_bind].
  rewrite !RawStdDecodeString_Encode by done. cbn [mbind result_bind expect_ok].
  rewrite bool_decide_eq_false_2 by (intros ->; unfold len_list in Hkl; cbn in Hkl; lia). cbn [reject_if mbind result_bind].
  rewrite !Z.mod_small, Hv by lia. done.
Qed.

(** C19: Passwords are told apart by their Argon2id keys and by nothing else: a hash that
    was made of a password is accepted as the configured one, a login with it and some
    password succeeds exactly when this password has the same key under the salt of the
    hash, so that the password itself logs in, and the attempt ends without an error of
    another kind. *)
Theorem hashed_password_logs_in params random password encoded username ttl :
  PasswordHasher.Hash params random password = Ok encoded → random_bytes random →
  TrimSpace username ≠ "" → 0 < ttl ≤ 24 * hour →
  ∃ manager salt, SessionManager.NewSessionManager username encoded ttl = Ok manager ∧
    ∀ attempt token now swept,
      match (SessionManager.Login manager username attempt (Ok token) now swept).2 with
      | Ok (issued, _) => issued = RawURLEncode token ∧ key_of params salt attempt = key_of params salt password
      | Err err => err = ErrUnauthorized ∧ key_of params salt attempt ≠ key_of params salt password ∧ attempt ≠ password
      end.
Proof.
  intros Hh Hr Hu Ht. destruct (Hash_decodes _ _ _ _ Hh Hr) as [Hp (salt & Hd)].
  exists (SessionManager.mk username encoded ttl ∅), salt. split.
  - unfold SessionManager.NewSessionManager. rewrite bool_decide_eq_false_2, Hp by done.
    rewrite (proj2 (Z.leb_gt _ _)), (proj2 (Z.ltb_ge _ _)) by lia. done.
  - intros attempt token now swept. unfold SessionManager.Login, Session.Verify, PasswordHasher.verifier, PasswordHasher.Verify.
    cbn [SessionManager.passwordHash SessionManager.username]. rewrite Hd. cbn [mbind result_bind].
    fold (key_of params salt attempt). rewrite (bool_decide_eq_true_2 (username = username)) by done. cbn [negb orb].
    case_bool_decide as E; cbn [negb snd]; [done|]. split_and!; [done|done|by intros ->].
Qed.

End hashes.

(** ** Example *)

(** A derivation of keys for examples: the length of the password, counted on. *)
#[local] Instance example_argon2 : Argon2 := λ password salt iterations memory threads keyLen,
  (λ i, (len password + i) mod 256) <$> seqZ 0 keyLen.

#[local] Instance example_argon2_laws : Argon2Laws.
Proof.
  split; intros.
  - apply Forall_fmap, Forall_forall. intros i _. unfold compose, is_byte. by apply Z.mod_pos_bound.
  - unfold IDKey, example_argon2, len_list. rewrite length_fmap, length_seqZ. lia.
Qed.

Definition example_random (n : Z) : result (list Z) :=
  if n <? 0 then Err (NewError "length") else Ok (replicate (Z.to_nat n) 7).

Lemma example_random_bytes : random_bytes example_random.
Proof.
  intros n bs. unfold example_random. destruct (Z.ltb_spec n 0); [discriminate|]. intros [= <-].
  split; [apply Forall_replicate; unfold is_byte; lia|]. unfold len_list. rewrite length_replicate. lia.
Qed.

Definition example_hash : string :=
  "$argon2id$v=19$m=65536,t=3,p=2$BwcHBwcHBwcHBwcHBwcHBw$BgcICQoLDA0ODxAREhMUFRYXGBkaGxwdHh8gISIjJCU".

Lemma hashed_password_logs_in_witness :
  PasswordHasher.Hash DefaultPasswordParams example_random "secret" = Ok example_hash ∧
  ∃ manager salt, SessionManager.NewSessionManager "admin" example_hash hour = Ok manager ∧
    ∀ attempt token now swept,
      match (SessionManager.Login manager "admin" attempt (Ok token) now swept).2 with
      | Ok (issued, _) => issued = RawURLEncode token ∧
          key_of DefaultPasswordParams salt attempt = key_of DefaultPasswordParams salt "secret"
      | Err err => err = ErrUnauthorized ∧
          key_of DefaultPasswordParams salt attempt ≠ key_of DefaultPasswordParams salt "secret" ∧ attempt ≠ "secret"
      end.
Proof.
  assert (PasswordHasher.Hash DefaultPasswordParams example_random "secret" = Ok example_hash) as Hh by (vm_compute; reflexivity).
  split; [exact Hh|]. apply (hashed_password_logs_in _ example_random "secret" _ "admin" hour Hh).
  - exact example_random_bytes.
  - vm_compute. discriminate.
  - vm_compute. split; [reflexivity|discriminate].
Defined.
