(* ===== verification/Config.v ===== *)
(** * The configuration (src/internal/config/config.go)

    What the environment says is read once, when the program starts: every value is
    within the limits of the part that uses it, or the program does not start. *)

From S2P Require Export GoTime Base64 Outbound Governor.
From S2P Require Import Json.
From Stdlib Require Import SpecFloat.

Local Open Scope Z_scope.
Local Open Scope stdpp_scope.

(** ** time.ParseDuration *)

(** [uint64(x)] of a float that is not negative. *)
Definition truncate (x : float64) : Z :=
  match x with S754_finite false m e => Z.shiftl (Zpos m) e | _ => 0 end.

(** [leadingInt]: [None] where the number is too big. *)
Fixpoint leadingInt (s : string) (x : Z) : option (Z * string) :=
  match s with
  | String c rest =>
      if negb (is_digit c) then Some (x, s)
      else if 2 ^ 63 / 10 <? x then None
      else
        let x := x * 10 + digit_value c in
        if 2 ^ 63 <? x then None else leadingInt rest x
  | EmptyString => Some (x, s)
  end.

(** [leadingFraction]: digits beyond the precision of 63 bits are skipped. *)
Fixpoint leadingFraction (s : string) (x : Z) (scale : float64) (overflow : bool) : Z * float64 * string :=
  match s with
  | String c rest =>
      if negb (is_digit c) then (x, scale, s)
      else if overflow then leadingFraction rest x scale overflow
      else if (2 ^ 63 - 1) / 10 <? x then leadingFraction rest x scale true
      else
        let y := x * 10 + digit_value c in
        if 2 ^ 63 <? y then leadingFraction rest x scale true
        else leadingFraction rest y (float_mul scale (float_of 10)) false
  | EmptyString => (x, scale, s)
  end.

(** The characters of a unit, and the rest. *)
Fixpoint unit_name (s : string) : string * string :=
  match s with
  | String c rest =>
      if bool_decide (c = "."%char) || is_digit c then ("", s)
      else let '(u, rest) := unit_name rest in (String c u, rest)
  | EmptyString => ("", "")
  end.

(** [unitMap]; the sign of micro has two code points. *)
Definition micro_sign : string := of_bytes [ascii_of_Z 194; ascii_of_Z 181] +:+ "s".
Definition greek_mu : string := of_bytes [ascii_of_Z 206; ascii_of_Z 188] +:+ "s".

Definition unit_of (u : string) : option Z :=
  if bool_decide (u = "ns") then Some 1
  else if bool_decide (u ∈ ["us"; micro_sign; greek_mu]) then Some 1000
  else if bool_decide (u = "ms") then Some 1000000
  else if bool_decide (u = "s") then Some second
  else if bool_decide (u = "m") then Some minute
  else if bool_decide (u = "h") then Some hour
  else None.

(** One number with its unit: its value in nanoseconds, and the rest. *)
Definition duration_part (s : string) : option (Z * string) :=
  match s with
  | EmptyString => None
  | String c _ =>
      if negb (bool_decide (c = "."%char) || is_digit c) then None else
      '(v, s1) ← leadingInt s 0;
      let pre := negb (bool_decide (s1 = s)) in
      let '(f, scale, s2, post) :=
        match s1 with
        | String "." after =>
            let '(f, scale, s2) := leadingFraction after 0 float_one false in
            (f, scale, s2, negb (bool_decide (s2 = after)))
        | _ => (0, float_one, s1, false)
        end in
      if negb pre && negb post then None else
      let '(u, s3) := unit_name s2 in
      unit ← unit_of u;
      if 2 ^ 63 / unit <? v then None else
      let v := v * unit in
      if 0 <? f then
        let v := v + truncate (float_mul (float_of f) (float_div (float_of unit) scale)) in
        if 2 ^ 63 <? v then None else Some (v, s3)
      else Some (v, s3)
  end.

(** The parts together, as a [uint64] that wraps; each part takes a character at least. *)
Fixpoint duration_parts (fuel : nat) (s : string) (d : Z) : option Z :=
  match s with
  | EmptyString => Some d
  | _ =>
      match fuel with
      | O => None
      | S fuel =>
          '(v, rest) ← duration_part s;
          let d := (d + v) mod 2 ^ 64 in
          if 2 ^ 63 <? d then None else duration_parts fuel rest d
      end
  end.

Definition ParseDuration (s : string) : option duration :=
  let '(neg, s) := match s with
                   | String "-" rest => (true, rest)
                   | String "+" rest => (false, rest)
                   | _ => (false, s)
                   end in
  if bool_decide (s = "0") then Some 0 else
  if bool_decide (s = "") then None else
  d ← duration_parts (String.length s) s 0;
  if neg : bool then Some (- d) else if 2 ^ 63 - 1 <? d then None else Some d.

Example ParseDuration_examples :
  ParseDuration "8h" = Some (8 * hour) ∧ ParseDuration "1h30m" = Some (90 * minute) ∧
  ParseDuration "-1.5h" = Some (- 90 * minute) ∧ ParseDuration ".5ms" = Some 500000 ∧
  ParseDuration "0.1s" = Some 100000000 ∧ ParseDuration (String "1" micro_sign) = Some 1000 ∧
  ParseDuration "9223372036854775807ns" = Some max_int64 ∧ ParseDuration "9223372036854775808ns" = None ∧
  ParseDuration "1" = None ∧ ParseDuration "h" = None ∧ ParseDuration "1d" = None ∧ ParseDuration "2562048h" = None.
Proof. vm_compute. done. Qed.

(** ** strconv.ParseBool *)

Definition ParseBool (s : string) : option bool :=
  if bool_decide (s ∈ ["1"; "t"; "T"; "TRUE"; "true"; "True"]) then Some true
  else if bool_decide (s ∈ ["0"; "f"; "F"; "FALSE"; "false"; "False"]) then Some false
  else None.

(** ** The values *)

Definition valueOrDefault (value fallback : string) : string :=
  if bool_decide (TrimSpace value = "") then fallback else TrimSpace value.

Definition durationOrDefault (value : string) (fallback : duration) : option duration :=
  if bool_decide (TrimSpace value = "") then Some fallback else ParseDuration (TrimSpace value).

Definition intOrDefault (value : string) (fallback : Z) : option Z :=
  if bool_decide (TrimSpace value = "") then Some fallback else Atoi (TrimSpace value).

Definition boolOrDefault (value : string) (fallback : bool) : option bool :=
  if bool_decide (TrimSpace value = "") then Some fallback else ParseBool (TrimSpace value).

Definition validateListenAddress (address : string) : result unit :=
  match Outbound.SplitHostPort address with
  | None => Err (NewError "PANEL_LISTEN_ADDR must be host:port")
  | Some (_, port) =>
      let invalid := NewError "PANEL_LISTEN_ADDR port must be between 1 and 65535" in
      match Atoi port with
      | None => Err invalid
      | Some numericPort => reject_if ((numericPort <? 1) || (65535 <? numericPort)) invalid
      end
  end.

(** A value that was read, within its limits. *)
Definition in_limits (value : option Z) (lo hi : Z) (message : string) : result Z :=
  match value with
  | None => Err (NewError message)
  | Some v => reject_if ((v <? lo) || (hi <? v)) (NewError message) ;; Ok v
  end.

Module Config.
Record t : Type := mk {
  ListenAddr : string;
  DataFile : string;
  WebDir : string;
  EncryptionKey : list Z;
  AdminUsername : string;
  AdminPasswordHash : string;
  SessionTTL : duration;
  HelmTimeout : duration;
  HelmWorkers : Z;
  OperationQueueSize : Z;
  AdaptiveOperations : bool;
  KubernetesReadConcurrency : Z;
  KubernetesClientCacheSize : Z;
  KubernetesClientCacheTTL : duration;
  MaxConcurrentRequests : Z;
  AllowedPrivateCIDRs : list Prefix.t;
  SecureCookies : bool;
  LogLevel : string;
}.

Definition Load (getenv : string → string) : result t :=
  let listenAddr := valueOrDefault (getenv "PANEL_LISTEN_ADDR") "127.0.0.1:8080" in
  let dataFile := valueOrDefault (getenv "PANEL_DATA_FILE") "./data/panel.json" in
  let webDir := valueOrDefault (getenv "PANEL_WEB_DIR") "./web/dist" in
  let adminUsername := valueOrDefault (getenv "PANEL_ADMIN_USERNAME") "admin" in
  let adminPasswordHash := TrimSpace (getenv "PANEL_ADMIN_PASSWORD_HASH") in
  let logLevel := valueOrDefault (getenv "PANEL_LOG_LEVEL") "info" in
  validateListenAddress listenAddr ;;
  reject_if (bool_decide (dataFile = "") || bool_decide (webDir = ""))
    (NewError "data file and web directory must not be empty") ;;
  let encodedKey := TrimSpace (getenv "PANEL_ENCRYPTION_KEY") in
  reject_if (bool_decide (encodedKey = "")) (NewError "PANEL_ENCRYPTION_KEY is required") ;;
  let badKey := NewError "PANEL_ENCRYPTION_KEY must be Base64 for exactly 32 bytes" in
  key ← expect_ok badKey (StdDecodeString encodedKey);
  reject_if (negb (len_list key =? 32)) badKey ;;
  reject_if (negb (HasPrefix adminPasswordHash "$argon2id$"))
    (NewError "PANEL_ADMIN_PASSWORD_HASH must be an Argon2id encoded hash") ;;
  reject_if (bool_decide (TrimSpace adminUsername = "")) (NewError "PANEL_ADMIN_USERNAME must not be empty") ;;
  sessionTTL ← in_limits (durationOrDefault (getenv "PANEL_SESSION_TTL") (8 * hour)) 1 (24 * hour)
    "PANEL_SESSION_TTL must be greater than zero and at most 24h";
  helmTimeout ← in_limits (durationOrDefault (getenv "PANEL_HELM_TIMEOUT") (5 * minute)) (10 * second) (30 * minute)
    "PANEL_HELM_TIMEOUT must be between 10s and 30m";
  helmWorkers ← in_limits (intOrDefault (getenv "PANEL_HELM_WORKERS") 2) 1 8 "PANEL_HELM_WORKERS must be between 1 and 8";
  operationQueueSize ← in_limits (intOrDefault (getenv "PANEL_OPERATION_QUEUE_SIZE") 64) 1 128
    "PANEL_OPERATION_QUEUE_SIZE must be between 1 and 128";
  adaptiveOperations ← expect_ok (NewError "PANEL_ADAPTIVE_OPERATIONS must be true or false")
    (boolOrDefault (getenv "PANEL_ADAPTIVE_OPERATIONS") true);
  readConcurrency ← in_limits (intOrDefault (getenv "PANEL_KUBERNETES_READ_CONCURRENCY") 4) 1 32
    "PANEL_KUBERNETES_READ_CONCURRENCY must be between 1 and 32";
  cacheSize ← in_limits (intOrDefault (getenv "PANEL_KUBERNETES_CLIENT_CACHE_SIZE") 8) 1 64
    "PANEL_KUBERNETES_CLIENT_CACHE_SIZE must be between 1 and 64";
  cacheTTL ← in_limits (durationOrDefault (getenv "PANEL_KUBERNETES_CLIENT_CACHE_TTL") (10 * minute)) minute hour
    "PANEL_KUBERNETES_CLIENT_CACHE_TTL must be between 1m and 1h";
  maxRequests ← in_limits (intOrDefault (getenv "PANEL_MAX_CONCURRENT_REQUESTS") 16) 1 128
    "PANEL_MAX_CONCURRENT_REQUESTS must be between 1 and 128";
  allowed ← Outbound.ParseAllowedPrefixes (getenv "PANEL_ALLOWED_PRIVATE_CIDRS");
  secureCookies ← expect_ok (NewError "PANEL_SECURE_COOKIES must be true or false")
    (boolOrDefault (getenv "PANEL_SECURE_COOKIES") false);
  reject_if (negb (bool_decide (logLevel ∈ ["debug"; "info"; "warn"; "error"])))
    (NewError "PANEL_LOG_LEVEL must be debug, info, warn or error") ;;
  Ok (mk listenAddr dataFile webDir key adminUsername adminPasswordHash sessionTTL helmTimeout helmWorkers operationQueueSize
    adaptiveOperations readConcurrency cacheSize cacheTTL maxRequests allowed secureCookies logLevel).
End Config.

(** ** The loop over the parts of a duration ends

    Each part takes the characters of its number and of its unit, so that no more rounds
    than characters are needed. *)

Lemma leadingInt_length s x n rest : leadingInt s x = Some (n, rest) → (String.length rest ≤ String.length s)%nat.
Proof.
  revert x. induction s as [|c s IH]; intros x; cbn [leadingInt]; [by intros [= _ <-]|].
  destruct (negb (is_digit c)); [by intros [= _ <-]|]. repeat (case_match; [done|]).
  intros Hr%IH. cbn [String.length]. lia.
Qed.

Lemma leadingFraction_length s x scale overflow :
  (String.length (leadingFraction s x scale overflow).2 ≤ String.length s)%nat.
Proof.
  revert x scale overflow. induction s as [|c s IH]; intros x scale overflow; cbn [leadingFraction]; [done|].
  repeat case_match; try done; cbn [String.length]; (etrans; [apply IH|lia]).
Qed.

Lemma unit_name_length s : (String.length (unit_name s).1 + String.length (unit_name s).2 = String.length s)%nat.
Proof.
  induction s as [|c s IH]; [done|]. cbn [unit_name]. destruct (_ || _); [done|].
  destruct (unit_name s). cbn in *. lia.
Qed.

Lemma duration_part_length s v rest : duration_part s = Some (v, rest) → (String.length rest < String.length s)%nat.
Proof.
  unfold duration_part. destruct s as [|c s]; [done|]. destruct (negb _); [done|].
  intros ([w s1] & Hw & H0)%bind_Some. apply leadingInt_length in Hw. cbv zeta in H0.
  set (p := match s1 with String "." after => _ | _ => _ end) in H0.
  assert (String.length p.1.2 ≤ String.length s1)%nat as Hp.
  { unfold p. destruct s1 as [|[[] [] [] [] [] [] [] []] after]; try done.
    pose proof (leadingFraction_length after 0 float_one false).
    destruct (leadingFraction after 0 float_one false) as [[f scale] s2]. cbn in *. lia. }
  destruct p as [[[f scale] s2] post]. cbn [fst snd] in Hp. destruct (_ && _); [done|].
  pose proof (unit_name_length s2) as Hu. destruct (unit_name s2) as [u s3]. cbn [fst snd] in Hu.
  apply bind_Some in H0 as (unit & Hunit & H0).
  assert (u ≠ "") by (intros ->; vm_compute in Hunit; discriminate).
  assert (String.length u ≠ 0)%nat by (by destruct u).
  assert (rest = s3) as -> by (repeat case_match; simplify_eq; done). lia.
Qed.

Lemma duration_parts_enough fuel s d :
  (String.length s ≤ fuel)%nat → duration_parts (S fuel) s d = duration_parts fuel s d.
Proof.
  revert s d. induction fuel as [|fuel IH]; intros s d Hs; [destruct s; [done|cbn in Hs; lia]|].
  destruct s as [|c s]; [done|]. change (duration_parts (S ?n) (String c s) d) with
    (duration_part (String c s) ≫= λ '(v, rest),
       if 2 ^ 63 <? (d + v) mod 2 ^ 64 then None else duration_parts n rest ((d + v) mod 2 ^ 64)).
  destruct (duration_part (String c s)) as [[v rest]|] eqn:E; [|done]. apply duration_part_length in E. cbn [mbind option_bind].
  destruct (_ <? _); [done|]. apply IH. cbn in *. lia.
Qed.

(** ** A number with a unit is what it says *)

Lemma digits_from_step acc c s : is_digit c = true → digits_from acc (String c s) = digits_from (acc * 10 + digit_value c) s.
Proof. intros Hc. cbn [digits_from]. by rewrite Hc. Qed.

Lemma leadingInt_digits d x n rest :
  0 ≤ x → all_bytes is_digit d = true → digits_from x d = Some n → n < 2 ^ 63 → (∀ c r, rest = String c r → is_digit c = false) →
  leadingInt (d +:+ rest) x = Some (n, rest).
Proof.
  intros Hx Hd Hn Hb Hr. revert x Hx Hd Hn. induction d as [|c d IH]; intros x Hx Hd Hn.
  - cbn in Hn. injection Hn as ->. rewrite app_empty_l. destruct rest as [|c rest]; [done|]. cbn [leadingInt]. by rewrite (Hr c rest eq_refl).
  - cbn [all_bytes] in Hd. apply andb_true_iff in Hd as [Hc Hd]. rewrite digits_from_step in Hn by done.
    pose proof (digit_value_range c Hc). pose proof (digits_from_bound (x * 10 + digit_value c) d n ltac:(lia) Hn) as Hge.
    assert (1 ≤ 10 ^ len d) by (apply (Z.pow_le_mono_r 10 0); [lia|apply len_nonneg]).
    assert (x * 10 + digit_value c ≤ n).
    { destruct Hge as [Hge _]. etrans; [|exact Hge]. rewrite <-(Z.mul_1_r (x * 10 + digit_value c)) at 1.
      apply Z.mul_le_mono_nonneg_l; lia. }
    rewrite app_cons. cbn [leadingInt]. rewrite Hc. cbn [negb].
    rewrite (proj2 (Z.ltb_ge _ _)) by (apply Z.div_le_lower_bound; lia). cbv zeta.
    rewrite (proj2 (Z.ltb_ge _ _)) by lia. by apply IH; [lia|..].
Qed.

(** A unit that is written with letters. *)
Definition unit_text (u : string) : Prop :=
  u ≠ "" ∧ (unit_name u = (u, "")) ∧ all_bytes (λ c, negb (bool_decide (c = "."%char)) && negb (is_digit c)) u = true.

Lemma ParseDuration_written n u unit :
  unit_of u = Some unit → unit_text u → 0 ≤ n → n * unit < 2 ^ 63 → ParseDuration (FormatInt n +:+ u) = Some (n * unit).
Proof.
  intros Hu (Hne & Hname & Hb) Hn Hlt.
  assert (1 ≤ unit) as Hunit.
  { revert Hu. unfold unit_of. repeat (case_bool_decide; [intros [= <-]; by vm_compute|]). done. }
  assert (FormatInt n = FormatUint n) as -> by (unfold FormatInt; by destruct (Z.ltb_spec n 0); [lia|]).
  destruct (FormatUint_spec n Hn) as (Hd & Hdigits & Hv & _).
  destruct u as [|c u]; [done|]. cbn [all_bytes] in Hb. apply andb_true_iff in Hb as [[Hdot%negb_true_iff Hdig%negb_true_iff]%andb_true_iff _].
  apply bool_decide_eq_false in Hdot.
  assert (duration_part (FormatUint n +:+ String c u) = Some (n * unit, "")) as Hpart.
  { unfold duration_part. destruct (FormatUint n) as [|e d] eqn:E; [done|]. rewrite app_cons.
    cbn [all_bytes] in Hdigits. apply andb_true_iff in Hdigits as [He Hds]. rewrite He, orb_true_r. cbn [negb].
    rewrite <-app_cons, leadingInt_digits with (n := n); [|done|by cbn [all_bytes]; rewrite He, Hds|done|nia|by intros ? ? [= <- _]].
    cbn [mbind option_bind].
    rewrite bool_decide_eq_false_2.
    2: { intros Heq. apply (f_equal String.length) in Heq. rewrite length_app_string in Heq. cbn in Heq. lia. }
    assert (match String c u with
            | String "." after =>
                let '(f, scale, s2) := leadingFraction after 0 float_one false in
                (f, scale, s2, negb (bool_decide (s2 = after)))
            | _ => (0, float_one, String c u, false)
            end = (0, float_one, String c u, false)) as ->.
    { destruct c as [[] [] [] [] [] [] [] []]; try reflexivity. by contradict Hdot. }
    cbn [negb andb]. rewrite Hname, Hu. cbn [mbind option_bind].
    rewrite (proj2 (Z.ltb_ge _ _)) by (apply Z.div_le_lower_bound; lia). done. }
  assert (∀ r, FormatUint n +:+ String c u ≠ String "-" r ∧ FormatUint n +:+ String c u ≠ String "+" r) as Hsign.
  { intros r. destruct (FormatUint n) as [|e d]; [done|]. cbn [all_bytes] in Hdigits. apply andb_true_iff in Hdigits as [He _].
    rewrite app_cons. split; intros [= -> _]; by vm_compute in He. }
  assert (duration_parts (String.length (FormatUint n +:+ String c u)) (FormatUint n +:+ String c u) 0 = Some (n * unit)) as Hparts.
  { destruct (FormatUint n +:+ String c u) as [|e s] eqn:E; [by destruct (FormatUint n)|]. cbn [String.length duration_parts].
    rewrite Hpart. cbn [mbind option_bind]. rewrite Z.add_0_l, Z.mod_small by lia. cbv zeta.
    rewrite (proj2 (Z.ltb_ge _ _)) by lia. by destruct (String.length s). }
  unfold ParseDuration.
  assert (match FormatUint n +:+ String c u with
          | String "-" rest => (true, rest)
          | String "+" rest => (false, rest)
          | _ => (false, FormatUint n +:+ String c u)
          end = (false, FormatUint n +:+ String c u)) as ->.
  { destruct (FormatUint n +:+ String c u) as [|[[] [] [] [] [] [] [] []] s]; try reflexivity;
      destruct (Hsign s) as [H1 H2]; (by contradict H1) || (by contradict H2). }
  assert (FormatUint n +:+ String c u ≠ "0") as H0.
  { intros Heq. destruct (FormatUint n) as [|e d]; [done|]. rewrite app_cons in Heq. injection Heq as _ Heq.
    apply (f_equal String.length) in Heq. rewrite length_app_string in Heq. cbn in Heq. lia. }
  rewrite bool_decide_eq_false_2 by done. rewrite bool_decide_eq_false_2 by (by destruct (FormatUint n)).
  rewrite Hparts. cbn [mbind option_bind]. by rewrite (proj2 (Z.ltb_ge _ _)) by lia.
Qed.

(** ** What is loaded is valid *)

Definition valid_config (c : Config.t) : Prop :=
  validateListenAddress c.(Config.ListenAddr) = Ok tt ∧
  c.(Config.DataFile) ≠ "" ∧ c.(Config.WebDir) ≠ "" ∧
  len_list c.(Config.EncryptionKey) = 32 ∧
  TrimSpace c.(Config.AdminUsername) ≠ "" ∧ HasPrefix c.(Config.AdminPasswordHash) "$argon2id$" = true ∧
  1 ≤ c.(Config.SessionTTL) ≤ 24 * hour ∧ 10 * second ≤ c.(Config.HelmTimeout) ≤ 30 * minute ∧
  1 ≤ c.(Config.HelmWorkers) ≤ 8 ∧ 1 ≤ c.(Config.OperationQueueSize) ≤ 128 ∧
  1 ≤ c.(Config.KubernetesReadConcurrency) ≤ 32 ∧ 1 ≤ c.(Config.KubernetesClientCacheSize) ≤ 64 ∧
  minute ≤ c.(Config.KubernetesClientCacheTTL) ≤ hour ∧ 1 ≤ c.(Config.MaxConcurrentRequests) ≤ 128 ∧
  c.(Config.LogLevel) ∈ ["debug"; "info"; "warn"; "error"].

Lemma in_limits_Ok value lo hi message n : in_limits value lo hi message = Ok n ↔ value = Some n ∧ lo ≤ n ≤ hi.
Proof.
  unfold in_limits. destruct value as [v|]; [|naive_solver].
  destruct (reject_if _ _) as [[]|] eqn:E; unfold reject_if in E;
    destruct (Z.ltb_spec v lo), (Z.ltb_spec hi v); cbn in *; naive_solver lia.
Qed.

Lemma Load_valid getenv c : Config.Load getenv = Ok c → valid_config c.
Proof.
  unfold Config.Load. cbv zeta.
  intros ([] & Ha & (_ & Hf%reject_if_Ok & (_ & _ & (key & _ & (_ & Hk%reject_if_Ok & (_ & Hh%reject_if_Ok & (_ & Hu%reject_if_Ok & H0)%bind_Ok)%bind_Ok)%bind_Ok)%bind_Ok)%bind_Ok)%bind_Ok)%bind_Ok.
  apply bind_Ok in H0 as (ttl & [_ Httl]%in_limits_Ok & (timeout & [_ Htimeout]%in_limits_Ok & (workers & [_ Hworkers]%in_limits_Ok & (queue & [_ Hqueue]%in_limits_Ok & (adaptive & _ & H0)%bind_Ok)%bind_Ok)%bind_Ok)%bind_Ok).
  apply bind_Ok in H0 as (reads & [_ Hreads]%in_limits_Ok & (size & [_ Hsize]%in_limits_Ok & (cacheTTL & [_ HcacheTTL]%in_limits_Ok & (requests & [_ Hrequests]%in_limits_Ok & H0)%bind_Ok)%bind_Ok)%bind_Ok).
  apply bind_Ok in H0 as (allowed & _ & (cookies & _ & (_ & Hlevel%reject_if_Ok & [= <-])%bind_Ok)%bind_Ok).
  apply orb_false_iff in Hf as [Hf%bool_decide_eq_false Hw%bool_decide_eq_false].
  apply negb_false_iff, Z.eqb_eq in Hk. apply negb_false_iff in Hh. apply bool_decide_eq_false in Hu.
  apply negb_false_iff, bool_decide_eq_true in Hlevel. unfold valid_config. cbn. tauto.
Qed.

(** ** What is written is loaded *)

Fixpoint env_of (variables : list (string * string)) (name : string) : string :=
  match variables with
  | [] => ""
  | (n, value) :: variables => if String.eqb n name then value else env_of variables name
  end.

Definition print_env (c : Config.t) : string → string := env_of [
  ("PANEL_LISTEN_ADDR", c.(Config.ListenAddr)); ("PANEL_DATA_FILE", c.(Config.DataFile)); ("PANEL_WEB_DIR", c.(Config.WebDir));
  ("PANEL_ENCRYPTION_KEY", RawStdEncode c.(Config.EncryptionKey) +:+ "=");
  ("PANEL_ADMIN_USERNAME", c.(Config.AdminUsername)); ("PANEL_ADMIN_PASSWORD_HASH", c.(Config.AdminPasswordHash));
  ("PANEL_SESSION_TTL", FormatInt c.(Config.SessionTTL) +:+ "ns"); ("PANEL_HELM_TIMEOUT", FormatInt c.(Config.HelmTimeout) +:+ "ns");
  ("PANEL_HELM_WORKERS", FormatInt c.(Config.HelmWorkers)); ("PANEL_OPERATION_QUEUE_SIZE", FormatInt c.(Config.OperationQueueSize));
  ("PANEL_ADAPTIVE_OPERATIONS", if c.(Config.AdaptiveOperations) then "true" else "false");
  ("PANEL_KUBERNETES_READ_CONCURRENCY", FormatInt c.(Config.KubernetesReadConcurrency));
  ("PANEL_KUBERNETES_CLIENT_CACHE_SIZE", FormatInt c.(Config.KubernetesClientCacheSize));
  ("PANEL_KUBERNETES_CLIENT_CACHE_TTL", FormatInt c.(Config.KubernetesClientCacheTTL) +:+ "ns");
  ("PANEL_MAX_CONCURRENT_REQUESTS", FormatInt c.(Config.MaxConcurrentRequests));
  ("PANEL_SECURE_COOKIES", if c.(Config.SecureCookies) then "true" else "false"); ("PANEL_LOG_LEVEL", c.(Config.LogLevel))].

(** A text that can be the value of a variable. *)
Definition trimmed (s : string) : Prop := s ≠ "" ∧ TrimSpace s = s.

Definition writable (c : Config.t) : Prop :=
  valid_config c ∧ Forall trimmed [c.(Config.ListenAddr); c.(Config.DataFile); c.(Config.WebDir); c.(Config.AdminUsername);
    c.(Config.AdminPasswordHash)] ∧
  Forall is_byte c.(Config.EncryptionKey) ∧ c.(Config.AllowedPrivateCIDRs) = [].

Lemma digit_visible s : all_bytes is_digit s = true → all_bytes is_visible s = true.
Proof. apply all_bytes_weaken. byte_implies. Qed.

Lemma number_trimmed n u : 0 ≤ n → all_bytes is_visible u = true → trimmed (FormatInt n +:+ u).
Proof.
  intros Hn Hu. destruct (FormatInt_digits n Hn) as [Hne Hd%digit_visible]. split; [revert Hne; by destruct (FormatInt n)|].
  apply TrimSpace_visible. by rewrite all_bytes_app, Hd.
Qed.

Lemma valueOrDefault_written s d : trimmed s → valueOrDefault s d = s.
Proof. intros [Hne Ht]. unfold valueOrDefault. rewrite Ht. by rewrite bool_decide_eq_false_2. Qed.

Lemma intOrDefault_written n d : 0 ≤ n < 2 ^ 63 → intOrDefault (FormatInt n) d = Some n.
Proof.
  intros Hn. destruct (number_trimmed n "" ltac:(lia) eq_refl) as [Hne Ht]; rewrite string_app_nil_r in Hne, Ht.
  unfold intOrDefault. rewrite Ht, bool_decide_eq_false_2 by done. by apply ParseInt_FormatInt.
Qed.

Lemma durationOrDefault_written n d : 0 ≤ n < 2 ^ 63 → durationOrDefault (FormatInt n +:+ "ns") d = Some n.
Proof.
  intros Hn. destruct (number_trimmed n "ns" ltac:(lia) eq_refl) as [Hne Ht]. unfold durationOrDefault.
  rewrite Ht, bool_decide_eq_false_2 by done. rewrite (ParseDuration_written n "ns" 1); [by rewrite Z.mul_1_r|done| |lia|lia].
  by split_and!.
Qed.

Lemma boolOrDefault_written (b d : bool) : boolOrDefault (if b then "true" else "false") d = Some b.
Proof. by destruct b, d. Qed.

Lemma in_limits_written lo hi n message : lo ≤ n ≤ hi → in_limits (Some n) lo hi message = Ok n.
Proof. intros Hn. by apply in_limits_Ok. Qed.

Lemma hour_bound : hour < 2 ^ 63 ∧ 24 * hour < 2 ^ 63 ∧ 30 * minute < 2 ^ 63 ∧ 0 ≤ minute ∧ 0 ≤ 10 * second.
Proof. by vm_compute. Qed.


Definition example_config : Config.t := Config.mk "[::1]:9443" "/var/lib/panel.json" "/srv/web" (replicate 32 7) "root"
  "$argon2id$v=19$m=65536,t=3,p=2$BwcHBwcHBwcHBwcHBwcHBw$BgcICQoLDA0ODxAREhMUFRYXGBkaGxwdHh8gISIjJCU"
  (90 * minute) (45 * second) 3 100 false 8 16 (2 * minute) 64 [] true "debug".


(** Nothing but the key and the hash has to be set. *)
Example Load_defaults :
  Config.SessionTTL <$> Config.Load (env_of [("PANEL_ENCRYPTION_KEY", "BwcHBwcHBwcHBwcHBwcHBwcHBwcHBwcHBwcHBwcHBwc=");
    ("PANEL_ADMIN_PASSWORD_HASH", "$argon2id$")]) = Ok (8 * hour).
Proof. by vm_compute. Qed.
