(* ===== verification/Panelctl.v ===== *)
(** * The command line (src/cmd/panelctl/main.go, src/internal/buildinfo/buildinfo.go)

    The command that makes what the panel has to be configured with: an encryption key
    and the hash of a password. *)

From S2P Require Export Password Config.

Local Open Scope Z_scope.
Local Open Scope stdpp_scope.

(** [buildinfo.String]; the linker may set the version and the commit. *)
Definition BuildString (Version Commit name : string) : string := name +:+ " " +:+ Version +:+ " (commit " +:+ Commit +:+ ")".

Module Panelctl.

(** What a run of the command leaves: its exit status, and its two outputs. *)
Record outcome : Type := mk { code : Z; stdout : string; stderr : string }.

Definition newline : string := String (ascii_of_Z 10) "".
Definition Println (text : string) : outcome := mk 0 (text +:+ newline) "".
Definition usage : outcome :=
  mk 2 "" ("usage: panelctl version | panelctl encryption-key | panelctl hash-password" +:+ newline).
Definition fatal (err : error) : outcome := mk 1 "" ("panelctl: " +:+ ErrorText err +:+ newline).

Section panelctl.
Context `{Argon2}.

(** [random n] is what reading [n] bytes of [rand.Reader] gives; [stdin] is the input
    with whether reading it breaks off. *)
Definition run (Version Commit : string) (args : list string) (random : Z → result (list Z)) (stdin : string * bool) : outcome :=
  match args with
  | [_; command] =>
      if bool_decide (command ∈ ["version"; "--version"]) then Println (BuildString Version Commit "panelctl")
      else if bool_decide (command = "encryption-key") then
        match random 32 with
        | Err err => fatal err
        | Ok key => Println (StdEncodeToString key)
        end
      else if bool_decide (command = "hash-password") then
        let '(input, broken) := stdin in
        if (len input <? 1025) && broken then fatal (NewError "read")
        else if 1024 <? len input then fatal (NewError "password exceeds 1024 bytes")
        else
          let password := TrimRight input (String (ascii_of_Z 13) newline) in
          match PasswordHasher.Hash DefaultPasswordParams random password with
          | Err err => fatal err
          | Ok hash => Println hash
          end
      else usage
  | _ => usage
  end.
End panelctl.
End Panelctl.

(** ** What is printed configures the panel *)

Section printed.
Context `{Argon2Laws}.

Lemma StdDecodeString_key key : Forall is_byte key → len_list key = 32 →
  StdDecodeString (StdEncodeToString key) = Some key ∧ all_bytes is_visible (StdEncodeToString key) = true ∧ StdEncodeToString key ≠ "".
Proof.
  intros Hb Hl. unfold StdEncodeToString. rewrite Hl. change (32 mod 3) with 2. cbv iota. split_and!.
  - apply StdDecodeString_padded; [done|by rewrite Hl].
  - by rewrite all_bytes_app, RawStdEncode_visible.
  - pose proof (RawStdEncode_length key) as Hlen. rewrite Hl in Hlen. intros E. by destruct (RawStdEncode key).
Qed.

Lemma FormatInt_visible n : 0 ≤ n → all_bytes is_visible (FormatInt n) = true.
Proof. intros Hn. by apply digit_visible, FormatInt_digits. Qed.

Lemma Hash_visible random password encoded :
  PasswordHasher.Hash DefaultPasswordParams random password = Ok encoded → random_bytes random → all_bytes is_visible encoded = true.
Proof.
  unfold PasswordHasher.Hash. intros ([] & _ & (_ & _ & Hr)%bind_Ok)%bind_Ok Hrandom.
  destruct (random _) as [salt|] eqn:Hs; [|done]. destruct (Hrandom _ _ Hs) as [Hsalt _]. injection Hr as <-.
  rewrite !all_bytes_app, !RawStdEncode_visible by (exact Hsalt || apply IDKey_bytes). by rewrite !FormatInt_visible by done.
Qed.

(** A configuration of the two values that have to be set, and the defaults. *)
Lemma Load_two_values key_text hash key :
  key_text ≠ "" → TrimSpace key_text = key_text → StdDecodeString key_text = Some key → len_list key = 32 →
  TrimSpace hash = hash → HasPrefix hash "$argon2id$" = true →
  ∃ c, Config.Load (env_of [("PANEL_ENCRYPTION_KEY", key_text); ("PANEL_ADMIN_PASSWORD_HASH", hash)]) = Ok c ∧
    c.(Config.EncryptionKey) = key ∧ c.(Config.AdminPasswordHash) = hash ∧ c.(Config.AdminUsername) = "admin".
Proof.
  intros Hne Ht Hd Hl Hh Hp. set (env := env_of _).
  assert (env "PANEL_ENCRYPTION_KEY" = key_text) as E1 by reflexivity.
  assert (env "PANEL_ADMIN_PASSWORD_HASH" = hash) as E2 by reflexivity.
  assert (∀ name, bool_decide (name ∈ ["PANEL_ENCRYPTION_KEY"; "PANEL_ADMIN_PASSWORD_HASH"]) = false → env name = "") as E3.
  { intros name Hn%bool_decide_eq_false. unfold env, env_of. repeat case_match; try done; exfalso; apply Hn;
      match goal with E : String.eqb _ _ = true |- _ => apply String.eqb_eq in E as <- end; repeat constructor. }
  eexists. unfold Config.Load. rewrite E1, E2, Ht, Hh. rewrite !E3 by reflexivity. clearbody env.
  change (validateListenAddress (valueOrDefault "" "127.0.0.1:8080")) with (Ok tt). cbv zeta. cbn [mbind result_bind].
  change (reject_if (bool_decide (valueOrDefault "" "./data/panel.json" = "") || bool_decide (valueOrDefault "" "./web/dist" = "")) ?e) with (Ok tt).
  cbn [mbind result_bind]. rewrite (bool_decide_eq_false_2 (key_text = "")) by done. cbn [reject_if mbind result_bind]. rewrite Hd. cbn [expect_ok mbind result_bind].
  rewrite Hl, Hp. split; [reflexivity|]. done.
Qed.
(** C21: What the command prints is what the panel wants: an encryption key and the hash of
    a password, each as it was printed, configure a panel that starts with this very key
    and in which this password, without the line break it was entered with, verifies. *)
Theorem printed_values_configure Version Commit random random' key_text hash input :
  random_bytes random → random_bytes random' →
  Panelctl.run Version Commit ["panelctl"; "encryption-key"] random ("", false) = Panelctl.Println key_text →
  Panelctl.run Version Commit ["panelctl"; "hash-password"] random' (input, false) = Panelctl.Println hash →
  ∃ c, Config.Load (env_of [("PANEL_ENCRYPTION_KEY", key_text); ("PANEL_ADMIN_PASSWORD_HASH", hash)]) = Ok c ∧
    random 32 = Ok c.(Config.EncryptionKey) ∧
    PasswordHasher.Verify c.(Config.AdminPasswordHash) (TrimRight input (String (ascii_of_Z 13) Panelctl.newline)) = Ok true.
Proof.
  intros Hr Hr' Hkey Hhash. set (password := TrimRight _ _) in *.
  destruct (random 32) as [key|err] eqn:Ek; [|by revert Hkey; cbn; rewrite Ek].
  assert (StdEncodeToString key = key_text) as Htext.
  { revert Hkey. cbn. rewrite Ek. by intros [= Hk%string_app_cancel_r]. }
  destruct (Hr _ _ Ek) as [Hkb Hkl]. destruct (StdDecodeString_key key Hkb Hkl) as (Hd & Hv & Hne). rewrite Htext in *.
  assert (PasswordHasher.Hash DefaultPasswordParams random' password = Ok hash) as Hh.
  { revert Hhash. cbn -[PasswordHasher.Hash TrimRight Z.ltb len Panelctl.newline]. rewrite andb_false_r.
    destruct (1024 <? len input); [done|]. fold password. destruct (PasswordHasher.Hash _ _ _) as [h|]; [|done].
    by intros [= ->%string_app_cancel_r]. }
  destruct (Hash_decodes _ _ _ _ Hh Hr') as [Hp (salt & Hdec)].
  destruct (Load_two_values key_text hash key) as (c & Hload & <- & Hch & _); try done.
  - by apply TrimSpace_visible.
  - apply TrimSpace_visible. by eapply Hash_visible.
  - exists c. split_and!; [done|done|]. rewrite Hch. unfold PasswordHasher.Verify. rewrite Hdec. cbn [mbind result_bind].
    fold (key_of DefaultPasswordParams salt password). by rewrite bool_decide_eq_true_2.
Qed.
End printed.

(** ** Example *)

#[local] Existing Instance example_argon2.
#[local] Existing Instance example_argon2_laws.

Definition example_input : string := "secret" +:+ Panelctl.newline.

Lemma printed_values_configure_witness :
  ∃ c, Config.Load (env_of [("PANEL_ENCRYPTION_KEY", "BwcHBwcHBwcHBwcHBwcHBwcHBwcHBwcHBwcHBwcHBwc="); ("PANEL_ADMIN_PASSWORD_HASH", example_hash)]) = Ok c ∧
    example_random 32 = Ok c.(Config.EncryptionKey) ∧ PasswordHasher.Verify c.(Config.AdminPasswordHash) "secret" = Ok true.
Proof.
  apply (printed_values_configure "dev" "unknown" example_random example_random _ _ example_input
    example_random_bytes example_random_bytes); vm_compute; reflexivity.
Defined.
