(* ===== verification/Store.v ===== *)
(** * The store (src/internal/store/file.go)

    All state is kept in memory and written out as one JSON document by each
    mutation.  A mutation decides the next state ([result State.t]) and commits it:
    [commit] keeps the old data when persisting fails.  Every method runs under the
    store's lock, so a history of the store is a sequence of method calls; the
    writing of the document is modelled in StoreFile.v. *)

From S2P Require Export Domain.

Local Open Scope Z_scope.
Local Open Scope stdpp_scope.

Definition schemaVersion : Z := 1.
Definition maxStoredOperations : Z := 2000.
Definition maxStoredAuditEvents : Z := 5000.

Module State.
Record t : Type := mk {
  SchemaVersion : Z;
  Clusters : list Cluster;
  Repositories : list Repository;
  Operations : list Operation;
  AuditEvents : list AuditEvent;
}.
#[global] Instance eq_dec : EqDecision t.
Proof. solve_decision. Defined.

Definition empty : t := mk schemaVersion [] [] [] [].

Definition set_Clusters (s : t) (l : list Cluster) : t :=
  mk s.(SchemaVersion) l s.(Repositories) s.(Operations) s.(AuditEvents).
Definition set_Repositories (s : t) (l : list Repository) : t :=
  mk s.(SchemaVersion) s.(Clusters) l s.(Operations) s.(AuditEvents).
Definition set_Operations (s : t) (l : list Operation) : t :=
  mk s.(SchemaVersion) s.(Clusters) s.(Repositories) l s.(AuditEvents).
Definition set_AuditEvents (s : t) (l : list AuditEvent) : t :=
  mk s.(SchemaVersion) s.(Clusters) s.(Repositories) s.(Operations) l.
End State.
Notation State := State.t.

Module Store.

(** [if err := ctx.Err(); err != nil { return err }]. *)
Definition live (ctxErr : option error) : result unit :=
  match ctxErr with Some e => Err e | None => Ok tt end.

(** [s.commit(next)], given how persisting [next] ended. *)
Definition commit (data : State) (next : result State) (persisted : result unit) :
    State * result unit :=
  match next with
  | Err e => (data, Err e)
  | Ok next =>
      match persisted with
      | Err e => (data, Err e)
      | Ok _ => (next, Ok tt)
      end
  end.

(** ** Retention *)

Fixpoint trim_operations (overflow : Z) (operations : list Operation) : list Operation :=
  match operations with
  | [] => []
  | operation :: operations =>
      if (0 <? overflow) && negb (in_flight operation)
      then trim_operations (overflow - 1) operations
      else operation :: trim_operations overflow operations
  end.

Definition trimOperationHistory (operations : list Operation) : list Operation :=
  let overflow := len_list operations - maxStoredOperations in
  if overflow <=? 0 then operations else trim_operations overflow operations.

Definition trimAuditHistory (events : list AuditEvent) : list AuditEvent :=
  if len_list events <=? maxStoredAuditEvents then events
  else drop (Z.to_nat (len_list events - maxStoredAuditEvents)) events.

Definition limitSlice {A} (items : list A) (limit : Z) : list A :=
  let limit := if (limit <=? 0) || (100 <? limit) then 100 else limit in
  if limit <? len_list items then take (Z.to_nat limit) items else items.

(** ** Clusters *)

Section store.
Context `{UnicodeTables}.

Definition cluster_clash (cluster existing : Cluster) : bool :=
  bool_decide (existing.(Cluster.ID) = cluster.(Cluster.ID)) ||
  EqualFold existing.(Cluster.Name) cluster.(Cluster.Name).

Definition CreateCluster (ctxErr : option error) (s : State) (cluster : Cluster) : result State :=
  live ctxErr ;;
  reject_if (existsb (cluster_clash cluster) s.(State.Clusters)) ErrConflict ;;
  Ok (State.set_Clusters s (s.(State.Clusters) ++ [cluster])).

Definition newer_cluster (x y : Cluster) : bool :=
  if TimeEqual x.(Cluster.UpdatedAt) y.(Cluster.UpdatedAt)
  then String.ltb y.(Cluster.ID) x.(Cluster.ID)
  else After x.(Cluster.UpdatedAt) y.(Cluster.UpdatedAt).

Definition ListClusters (ctxErr : option error) (s : State) : result (list Cluster) :=
  live ctxErr ;; Ok (sort_Slice newer_cluster s.(State.Clusters)).

Definition has_cluster_id (id : string) (c : Cluster) : bool := bool_decide (c.(Cluster.ID) = id).

Definition GetCluster (ctxErr : option error) (s : State) (id : string) : result Cluster :=
  live ctxErr ;;
  match List.find (has_cluster_id id) s.(State.Clusters) with
  | Some cluster => Ok cluster
  | None => Err ErrNotFound
  end.

Definition UpdateCluster (ctxErr : option error) (s : State) (cluster : Cluster) : result State :=
  live ctxErr ;;
  reject_if (existsb (λ c, negb (has_cluster_id cluster.(Cluster.ID) c) &&
                           EqualFold c.(Cluster.Name) cluster.(Cluster.Name)) s.(State.Clusters))
    ErrConflict ;;
  reject_if (negb (existsb (has_cluster_id cluster.(Cluster.ID)) s.(State.Clusters)))
    ErrNotFound ;;
  Ok (State.set_Clusters s
        ((λ c, if has_cluster_id cluster.(Cluster.ID) c then cluster else c) <$> s.(State.Clusters))).

(** Replace, or remove, the first item with the key. *)
Fixpoint replace_first {A} (f : A → bool) (x : A) (l : list A) : list A :=
  match l with
  | [] => []
  | y :: l => if f y then x :: l else y :: replace_first f x l
  end.

Fixpoint remove_first {A} (f : A → bool) (l : list A) : list A :=
  match l with
  | [] => []
  | y :: l => if f y then l else y :: remove_first f l
  end.

Definition has_audit_id (id : string) (e : AuditEvent) : bool :=
  bool_decide (e.(AuditEvent.ID) = id).

Definition RotateClusterCredentials (ctxErr : option error) (s : State)
    (expected updated : Cluster) (audit : AuditEvent) : result State :=
  live ctxErr ;;
  reject_if (bool_decide (expected.(Cluster.ID) = "") ||
             negb (bool_decide (updated.(Cluster.ID) = expected.(Cluster.ID))))
    (NewError "credential rotation cluster is invalid") ;;
  reject_if (bool_decide (audit.(AuditEvent.ID) = "") ||
             negb (bool_decide (audit.(AuditEvent.ClusterID) = updated.(Cluster.ID))))
    (NewError "credential rotation audit is invalid") ;;
  match List.find (has_cluster_id expected.(Cluster.ID)) s.(State.Clusters) with
  | None => Err ErrNotFound
  | Some current => reject_if (negb (bool_decide (current = expected))) ErrConflict
  end ;;
  reject_if (existsb (has_audit_id audit.(AuditEvent.ID)) s.(State.AuditEvents)) ErrConflict ;;
  Ok (State.set_AuditEvents
        (State.set_Clusters s
           (replace_first (has_cluster_id expected.(Cluster.ID)) updated s.(State.Clusters)))
        (trimAuditHistory (s.(State.AuditEvents) ++ [audit]))).

Definition DeleteCluster (ctxErr : option error) (s : State) (id : string) : result State :=
  live ctxErr ;;
  reject_if (negb (existsb (has_cluster_id id) s.(State.Clusters))) ErrNotFound ;;
  Ok (State.set_Clusters s (remove_first (has_cluster_id id) s.(State.Clusters))).

(** ** Repositories *)

Definition has_repository_id (id : string) (r : Repository) : bool :=
  bool_decide (r.(Repository.ID) = id).

Definition CreateRepository (ctxErr : option error) (s : State) (repository : Repository) :
    result State :=
  live ctxErr ;;
  reject_if (existsb (λ existing,
               bool_decide (existing.(Repository.ID) = repository.(Repository.ID)) ||
               EqualFold existing.(Repository.Name) repository.(Repository.Name))
               s.(State.Repositories)) ErrConflict ;;
  Ok (State.set_Repositories s (s.(State.Repositories) ++ [repository])).

Definition ListRepositories (ctxErr : option error) (s : State) : result (list Repository) :=
  live ctxErr ;;
  Ok (sort_Slice (λ x y, After x.(Repository.UpdatedAt) y.(Repository.UpdatedAt))
        s.(State.Repositories)).

Definition GetRepository (ctxErr : option error) (s : State) (id : string) : result Repository :=
  live ctxErr ;;
  match List.find (has_repository_id id) s.(State.Repositories) with
  | Some repository => Ok repository
  | None => Err ErrNotFound
  end.

Definition UpdateRepository (ctxErr : option error) (s : State) (repository : Repository) :
    result State :=
  live ctxErr ;;
  reject_if (existsb (λ r, negb (has_repository_id repository.(Repository.ID) r) &&
                           EqualFold r.(Repository.Name) repository.(Repository.Name))
               s.(State.Repositories)) ErrConflict ;;
  reject_if (negb (existsb (has_repository_id repository.(Repository.ID)) s.(State.Repositories)))
    ErrNotFound ;;
  Ok (State.set_Repositories s
        ((λ r, if has_repository_id repository.(Repository.ID) r then repository else r) <$>
         s.(State.Repositories))).

Definition DeleteRepository (ctxErr : option error) (s : State) (id : string) : result State :=
  live ctxErr ;;
  reject_if (negb (existsb (has_repository_id id) s.(State.Repositories))) ErrNotFound ;;
  Ok (State.set_Repositories s (remove_first (has_repository_id id) s.(State.Repositories))).
End store.

(** ** Operations and audit events *)

Definition has_operation_id (id : string) (o : Operation) : bool :=
  bool_decide (o.(Operation.ID) = id).

Definition CreateOperation (ctxErr : option error) (s : State) (operation : Operation) :
    result State :=
  live ctxErr ;;
  reject_if (existsb (has_operation_id operation.(Operation.ID)) s.(State.Operations)) ErrConflict ;;
  Ok (State.set_Operations s (trimOperationHistory (s.(State.Operations) ++ [operation]))).

Definition GetOperation (ctxErr : option error) (s : State) (id : string) : result Operation :=
  live ctxErr ;;
  match List.find (has_operation_id id) s.(State.Operations) with
  | Some operation => Ok operation
  | None => Err ErrNotFound
  end.

Definition UpdateOperation (ctxErr : option error) (s : State) (operation : Operation) :
    result State :=
  live ctxErr ;;
  reject_if (negb (existsb (has_operation_id operation.(Operation.ID)) s.(State.Operations)))
    ErrNotFound ;;
  Ok (State.set_Operations s
        (replace_first (has_operation_id operation.(Operation.ID)) operation s.(State.Operations))).

Definition TransitionOperation (ctxErr : option error) (s : State) (expected : OperationState)
    (operation : Operation) (audit : option AuditEvent) : result State :=
  live ctxErr ;;
  reject_if (bool_decide (operation.(Operation.ID) = "")) (NewError "operation ID is required") ;;
  match audit with
  | Some a =>
      reject_if (bool_decide (a.(AuditEvent.ID) = "") ||
                 negb (bool_decide (a.(AuditEvent.OperationID) = operation.(Operation.ID))))
        (NewError "operation transition audit is invalid")
  | None => Ok tt
  end ;;
  match List.find (has_operation_id operation.(Operation.ID)) s.(State.Operations) with
  | None => Err ErrNotFound
  | Some current =>
      reject_if (negb (bool_decide (current.(Operation.State) = expected))) ErrInvalidState
  end ;;
  match audit with
  | Some a => reject_if (existsb (has_audit_id a.(AuditEvent.ID)) s.(State.AuditEvents)) ErrConflict
  | None => Ok tt
  end ;;
  let next := State.set_Operations s
    (replace_first (has_operation_id operation.(Operation.ID)) operation s.(State.Operations)) in
  Ok match audit with
     | Some a => State.set_AuditEvents next (trimAuditHistory (next.(State.AuditEvents) ++ [a]))
     | None => next
     end.

Definition ListOperations (ctxErr : option error) (s : State) (limit : Z) : result (list Operation) :=
  live ctxErr ;;
  Ok (limitSlice (sort_Slice (λ x y, After x.(Operation.UpdatedAt) y.(Operation.UpdatedAt))
                    s.(State.Operations)) limit).

Definition CreateAuditEvent (ctxErr : option error) (s : State) (event : AuditEvent) : result State :=
  live ctxErr ;;
  reject_if (existsb (has_audit_id event.(AuditEvent.ID)) s.(State.AuditEvents)) ErrConflict ;;
  Ok (State.set_AuditEvents s (trimAuditHistory (s.(State.AuditEvents) ++ [event]))).

Definition ListAuditEvents (ctxErr : option error) (s : State) (limit : Z) :
    result (list AuditEvent) :=
  live ctxErr ;;
  Ok (limitSlice (sort_Slice (λ x y, After x.(AuditEvent.CreatedAt) y.(AuditEvent.CreatedAt))
                    s.(State.AuditEvents)) limit).

(** ** Reconciliation when the store is opened *)

(** [None]: nothing to persist. *)
Definition reconcileHistoryRetention (s : State) : option State :=
  let operations := trimOperationHistory s.(State.Operations) in
  let events := trimAuditHistory s.(State.AuditEvents) in
  if (len_list operations =? len_list s.(State.Operations)) &&
     (len_list events =? len_list s.(State.AuditEvents))
  then None
  else Some (State.set_AuditEvents (State.set_Operations s operations) events).

Definition process_restarted_message : string :=
  "操作排队或执行期间服务发生重启，结果需要人工确认".

Definition interrupt (now : time) (o : Operation) : Operation :=
  if in_flight o
  then Operation.finish o OperationUnknown "process_restarted" process_restarted_message now
  else o.

Definition reconcileInterruptedOperations (s : State) (now : time) : option State :=
  if existsb in_flight s.(State.Operations)
  then Some (State.set_Operations s (interrupt now <$> s.(State.Operations)))
  else None.

(** ** Histories of mutations *)

Section invariant.
Context `{UnicodeTables}.

Inductive call : Type :=
  | CCreateCluster (cluster : Cluster)
  | CUpdateCluster (cluster : Cluster)
  | CRotate (expected updated : Cluster) (audit : AuditEvent)
  | CDeleteCluster (id : string)
  | CCreateRepository (repository : Repository)
  | CUpdateRepository (repository : Repository)
  | CDeleteRepository (id : string)
  | CCreateOperation (operation : Operation)
  | CUpdateOperation (operation : Operation)
  | CTransition (expected : OperationState) (operation : Operation) (audit : option AuditEvent)
  | CCreateAudit (event : AuditEvent).

Definition next (c : call) (ctxErr : option error) (s : State) : result State :=
  match c with
  | CCreateCluster x => CreateCluster ctxErr s x
  | CUpdateCluster x => UpdateCluster ctxErr s x
  | CRotate expected updated audit => RotateClusterCredentials ctxErr s expected updated audit
  | CDeleteCluster id => DeleteCluster ctxErr s id
  | CCreateRepository x => CreateRepository ctxErr s x
  | CUpdateRepository x => UpdateRepository ctxErr s x
  | CDeleteRepository id => DeleteRepository ctxErr s id
  | CCreateOperation x => CreateOperation ctxErr s x
  | CUpdateOperation x => UpdateOperation ctxErr s x
  | CTransition expected x audit => TransitionOperation ctxErr s expected x audit
  | CCreateAudit x => CreateAuditEvent ctxErr s x
  end.

(** A call, whether its context was done, and how persisting ended. *)
Definition run_call (s : State) (c : call * option error * result unit) : State :=
  (commit s (next c.1.1 c.1.2 s) c.2).1.

(** ** Lists without clashes *)

(** Identifier and name; two of them clash on either. *)
Definition clash (x y : string * string) : bool :=
  bool_decide (x.1 = y.1) || EqualFold x.2 y.2.

Definition apart (x y : string * string) : Prop := clash x y = false.

Lemma clash_sym x y : clash x y = clash y x.
Proof.
  unfold clash. rewrite EqualFold_sym. f_equal. by repeat case_bool_decide.
Qed.

Lemma apart_sym x y : apart x y → apart y x.
Proof. unfold apart. by rewrite clash_sym. Qed.

Lemma pairs_snoc (l : list (string * string)) x :
  ForallOrdPairs apart l → existsb (clash x) l = false → ForallOrdPairs apart (l ++ [x]).
Proof.
  induction 1 as [|y l Hy Hl IH]; simpl; [repeat constructor|].
  intros [Hxy Hxl]%orb_false_iff. constructor; [|by apply IH].
  apply Forall_app; split; [done|]. constructor; [|done]. by apply apart_sym.
Qed.

Lemma pairs_sublist (l l' : list (string * string)) :
  sublist l' l → ForallOrdPairs apart l → ForallOrdPairs apart l'.
Proof.
  induction 1 as [|x l' l Hsub IH|x l' l Hsub IH]; [done|..];
    inversion_clear 1 as [|? ? Hx Hl]; [|by apply IH].
  constructor; [|by apply IH]. rewrite Forall_forall in *. intros y Hy. apply Hx.
  by eapply elem_of_sublist.
Qed.

Definition cluster_key (c : Cluster) : string * string := (c.(Cluster.ID), c.(Cluster.Name)).
Definition repository_key (r : Repository) : string * string :=
  (r.(Repository.ID), r.(Repository.Name)).

(** Replacing the item with an identifier keeps the list free of clashes, when no
    other item has the new name. *)
Lemma pairs_replace {A} (key : A → string * string) (has : A → bool) (x : A) (l : list A) :
  (∀ y, has y = bool_decide ((key y).1 = (key x).1)) →
  ForallOrdPairs apart (key <$> l) →
  existsb (λ y, negb (has y) && EqualFold (key y).2 (key x).2) l = false →
  ForallOrdPairs apart (key <$> ((λ y, if has y then x else y) <$> l)).
Proof.
  intros Hhas. induction l as [|y l IH]; simpl; [done|].
  inversion_clear 1 as [|? ? Hy Hl]. intros [Hn Hns]%orb_false_iff.
  constructor; [|by apply IH]. rewrite Forall_forall in Hy |- *.
  intros k (z' & -> & (z & -> & Hz)%list_elem_of_fmap)%list_elem_of_fmap.
  assert (apart (key y) (key z)) as Hyz by (apply Hy; by apply list_elem_of_fmap_2).
  assert (has z = false → EqualFold (key z).2 (key x).2 = false) as Hzx.
  { intros Hz0. apply not_true_is_false. intros E. apply not_true_iff_false in Hns. apply Hns.
    apply existsb_exists. exists z. by rewrite <-list_elem_of_In, Hz0, E. }
  assert (∀ v w, apart v w ↔ v.1 ≠ w.1 ∧ EqualFold v.2 w.2 = false) as Hap.
  { intros v w. unfold apart, clash. by rewrite orb_false_iff, bool_decide_eq_false. }
  apply Hap in Hyz as [Hid Hname]. apply Hap. clear Hap Hy.
  assert (∀ w, has w = true ↔ (key w).1 = (key x).1) as Ht.
  { intros w. by rewrite Hhas, bool_decide_eq_true. }
  assert (∀ w, has w = false ↔ (key w).1 ≠ (key x).1) as Hf.
  { intros w. by rewrite Hhas, bool_decide_eq_false. }
  destruct (has y) eqn:Ey, (has z) eqn:Ez; simpl in Hn.
  - apply Ht in Ey, Ez. congruence.
  - apply Ht in Ey. split; [congruence|]. rewrite EqualFold_sym. by apply Hzx.
  - apply Ht in Ez. split; [congruence|done].
  - done.
Qed.

Lemma replace_first_map {A B} (g : A → B) (f : A → bool) x l :
  (∀ y, List.find f l = Some y → g y = g x) → g <$> replace_first f x l = g <$> l.
Proof.
  induction l as [|y l IH]; simpl; [done|]. destruct (f y) eqn:E; intros Hg; simpl.
  - f_equal. symmetry. by apply Hg.
  - f_equal. by apply IH.
Qed.

Lemma remove_first_sublist {A} (f : A → bool) l : sublist (remove_first f l) l.
Proof.
  induction l as [|y l IH]; simpl; [done|]. destruct (f y); [by constructor|by constructor].
Qed.

Lemma trim_operations_sublist n l : sublist (trim_operations n l) l.
Proof.
  revert n. induction l as [|o l IH]; intros n; simpl; [done|].
  destruct (_ && _); by constructor.
Qed.

Lemma trimOperationHistory_sublist l : sublist (trimOperationHistory l) l.
Proof. unfold trimOperationHistory. destruct (_ <=? 0); [done|apply trim_operations_sublist]. Qed.

Lemma trimAuditHistory_sublist l : sublist (trimAuditHistory l) l.
Proof. unfold trimAuditHistory. destruct (_ <=? _); [done|apply sublist_drop]. Qed.

Lemma trimAuditHistory_len l : len_list (trimAuditHistory l) = Z.min maxStoredAuditEvents (len_list l).
Proof.
  unfold trimAuditHistory, len_list, maxStoredAuditEvents.
  destruct (Z.leb_spec (Z.of_nat (length l)) 5000); [lia|]. rewrite length_drop. lia.
Qed.

Lemma NoDup_sublist {A} (l l' : list A) : sublist l' l → NoDup l → NoDup l'.
Proof. intros Hs Hl. eapply sublist_NoDup; done. Qed.

Lemma find_has_Some {A} (f : A → bool) l x : List.find f l = Some x → f x = true ∧ x ∈ l.
Proof. intros Hf. apply find_some in Hf as [Hin ?]. split; [done|by apply list_elem_of_In]. Qed.

Lemma existsb_false_not_in {A} (f : A → string) (id : string) (l : list A) :
  existsb (λ x, bool_decide (f x = id)) l = false → id ∉ f <$> l.
Proof.
  intros Hex (x & -> & Hx)%list_elem_of_fmap. apply not_true_iff_false in Hex. apply Hex.
  apply existsb_exists. exists x. rewrite <-list_elem_of_In. split; [done|].
  by apply bool_decide_eq_true.
Qed.

Lemma NoDup_snoc_new {A} (f : A → string) (x : A) (l : list A) :
  NoDup (f <$> l) → existsb (λ y, bool_decide (f y = f x)) l = false → NoDup (f <$> (l ++ [x])).
Proof.
  intros Hl Hx%existsb_false_not_in. rewrite fmap_app. apply NoDup_app. split_and!; [done| |].
  - intros y Hy Hyx. by apply list_elem_of_singleton in Hyx as ->.
  - simpl. apply NoDup_singleton.
Qed.

(** ** Well-formed states *)

Record ok (s : State) : Prop := {
  ok_clusters : ForallOrdPairs apart (cluster_key <$> s.(State.Clusters));
  ok_repositories : ForallOrdPairs apart (repository_key <$> s.(State.Repositories));
  ok_operations : NoDup (Operation.ID <$> s.(State.Operations));
  ok_audit : NoDup (AuditEvent.ID <$> s.(State.AuditEvents));
  ok_audit_bound : len_list s.(State.AuditEvents) ≤ maxStoredAuditEvents;
}.

Lemma ok_empty : ok State.empty.
Proof. split; [constructor|constructor|constructor|constructor|by vm_compute]. Qed.

(** What a client owes: a rotation keeps the cluster's name. *)
Definition keeps_name (c : call) : Prop :=
  match c with
  | CRotate expected updated _ => updated.(Cluster.Name) = expected.(Cluster.Name)
  | _ => True
  end.

Lemma live_Ok e u : live e = Ok u ↔ e = None.
Proof. destruct e, u; naive_solver. Qed.

(** Take an accepting chain of guards apart. *)
Lemma then_Ok {A B} (r : result A) (k : result B) b :
  (r ;; k) = Ok b ↔ (∃ a, r = Ok a) ∧ k = Ok b.
Proof. destruct r; simpl; naive_solver. Qed.

Lemma live_is_Ok e : (∃ u, live e = Ok u) ↔ e = None.
Proof. destruct e; naive_solver. Qed.

Lemma guard_is_Ok b e : (∃ u, reject_if b e = Ok u) ↔ b = false.
Proof. destruct b; naive_solver. Qed.

Ltac guards := rewrite ?then_Ok, ?live_is_Ok, ?guard_is_Ok.

Lemma CreateCluster_Ok e s c s' :
  CreateCluster e s c = Ok s' ↔
  e = None ∧ existsb (cluster_clash c) s.(State.Clusters) = false ∧
  s' = State.set_Clusters s (s.(State.Clusters) ++ [c]).
Proof. unfold CreateCluster. guards. naive_solver. Qed.

Lemma TransitionOperation_Ok e s expected o audit s' :
  TransitionOperation e s expected o audit = Ok s' ↔
  e = None ∧ o.(Operation.ID) ≠ "" ∧
  (∀ a, audit = Some a → a.(AuditEvent.ID) ≠ "" ∧ a.(AuditEvent.OperationID) = o.(Operation.ID) ∧
    existsb (has_audit_id a.(AuditEvent.ID)) s.(State.AuditEvents) = false) ∧
  (∃ current, List.find (has_operation_id o.(Operation.ID)) s.(State.Operations) = Some current ∧
    current.(Operation.State) = expected) ∧
  s' = State.mk s.(State.SchemaVersion) s.(State.Clusters) s.(State.Repositories)
    (replace_first (has_operation_id o.(Operation.ID)) o s.(State.Operations))
    (match audit with
     | Some a => trimAuditHistory (s.(State.AuditEvents) ++ [a])
     | None => s.(State.AuditEvents)
     end).
Proof.
  unfold TransitionOperation. guards.
  destruct (List.find _ _) as [cur|]; [|naive_solver].
  destruct audit as [a|]; guards;
    rewrite ?orb_false_iff, ?negb_false_iff, ?bool_decide_eq_true, ?bool_decide_eq_false.
  - split.
    + intros (-> & ? & [? ?] & ? & ? & [= <-]). split_and!; try done; [by intros ? [= <-]|eauto].
    + intros (-> & ? & Ha & (? & [= <-] & ?) & ->). destruct (Ha a) as (? & ? & ?); [done|].
      split_and!; done.
  - split.
    + intros (-> & ? & _ & ? & _ & [= <-]). split_and!; try done. eauto.
    + intros (-> & ? & _ & (? & [= <-] & ?) & ->). split_and!; try done; eauto.
Qed.

Lemma audit_append (l : list AuditEvent) a :
  NoDup (AuditEvent.ID <$> l) → existsb (has_audit_id a.(AuditEvent.ID)) l = false →
  NoDup (AuditEvent.ID <$> trimAuditHistory (l ++ [a])) ∧
  len_list (trimAuditHistory (l ++ [a])) ≤ maxStoredAuditEvents.
Proof.
  intros Hl Ha. split; [|rewrite trimAuditHistory_len; lia].
  eapply NoDup_sublist; [apply fmap_sublist, trimAuditHistory_sublist|].
  by apply NoDup_snoc_new.
Qed.

Lemma replace_operation_ids o l :
  Operation.ID <$> replace_first (has_operation_id o.(Operation.ID)) o l = Operation.ID <$> l.
Proof.
  apply replace_first_map. intros y [Hy _]%find_has_Some. by apply bool_decide_eq_true in Hy.
Qed.

Lemma ok_set_Clusters s l :
  ok s → ForallOrdPairs apart (cluster_key <$> l) → ok (State.set_Clusters s l).
Proof. by intros []. Qed.

Lemma ok_set_Repositories s l :
  ok s → ForallOrdPairs apart (repository_key <$> l) → ok (State.set_Repositories s l).
Proof. by intros []. Qed.

Lemma ok_set_Operations s l :
  ok s → NoDup (Operation.ID <$> l) → ok (State.set_Operations s l).
Proof. by intros []. Qed.

Lemma ok_append_audit s a :
  ok s → existsb (has_audit_id a.(AuditEvent.ID)) s.(State.AuditEvents) = false →
  ok (State.set_AuditEvents s (trimAuditHistory (s.(State.AuditEvents) ++ [a]))).
Proof. intros [] Ha. split; try done; by apply audit_append. Qed.

Lemma existsb_fmap {A B} (g : A → B) (f : B → bool) l : existsb f (g <$> l) = existsb (f ∘ g) l.
Proof. induction l; simpl; [done|]. by f_equal. Qed.

Lemma existsb_ext {A} (f g : A → bool) l : (∀ x, f x = g x) → existsb f l = existsb g l.
Proof. intros Hfg. induction l; simpl; [done|]. by rewrite Hfg, IHl. Qed.

Lemma existsb_clash_keys {A} (key : A → string * string) (x : A) (l : list A) :
  existsb (clash (key x)) (key <$> l) =
  existsb (λ y, bool_decide ((key y).1 = (key x).1) || EqualFold (key y).2 (key x).2) l.
Proof. rewrite existsb_fmap. apply existsb_ext. intros y. simpl. by rewrite clash_sym. Qed.

(** Every successful mutation keeps the state well formed. *)
Lemma next_ok c e s s' : keeps_name c → ok s → next c e s = Ok s' → ok s'.
Proof.
  intros Hname Hok. destruct c; simpl in *.
  - rewrite CreateCluster_Ok. intros (_ & Hc & ->). apply ok_set_Clusters; [done|].
    rewrite fmap_app. apply pairs_snoc; [by apply ok_clusters|].
    by rewrite (existsb_clash_keys cluster_key).
  - unfold UpdateCluster. guards. intros (_ & Hc & _ & [= <-]). apply ok_set_Clusters; [done|].
    apply pairs_replace; [done|by apply ok_clusters|done].
  - unfold RotateClusterCredentials. guards. intros (_ & Hid & _ & Hcur & Ha & [= <-]).
    apply (ok_append_audit (State.set_Clusters _ _)); [|done].
    apply ok_set_Clusters; [done|]. rewrite replace_first_map; [by apply ok_clusters|].
    intros y Hy. rewrite Hy in Hcur. rewrite guard_is_Ok in Hcur.
    apply negb_false_iff, bool_decide_eq_true in Hcur as ->.
    apply orb_false_iff in Hid as [_ Hid%negb_false_iff%bool_decide_eq_true].
    unfold cluster_key. congruence.
  - unfold DeleteCluster. guards. intros (_ & _ & [= <-]). apply ok_set_Clusters; [done|].
    eapply pairs_sublist; [apply fmap_sublist, remove_first_sublist|by apply ok_clusters].
  - unfold CreateRepository. guards. intros (_ & Hc & [= <-]). apply ok_set_Repositories; [done|].
    rewrite fmap_app. apply pairs_snoc; [by apply ok_repositories|].
    by rewrite (existsb_clash_keys repository_key).
  - unfold UpdateRepository. guards. intros (_ & Hc & _ & [= <-]).
    apply ok_set_Repositories; [done|].
    apply pairs_replace; [done|by apply ok_repositories|done].
  - unfold DeleteRepository. guards. intros (_ & _ & [= <-]). apply ok_set_Repositories; [done|].
    eapply pairs_sublist; [apply fmap_sublist, remove_first_sublist|by apply ok_repositories].
  - unfold CreateOperation. guards. intros (_ & Hc & [= <-]). apply ok_set_Operations; [done|].
    eapply NoDup_sublist; [apply fmap_sublist, trimOperationHistory_sublist|].
    apply NoDup_snoc_new; [by apply ok_operations|done].
  - unfold UpdateOperation. guards. intros (_ & _ & [= <-]). apply ok_set_Operations; [done|].
    rewrite replace_operation_ids. by apply ok_operations.
  - rewrite TransitionOperation_Ok. intros (_ & _ & Ha & _ & ->).
    assert (ok (State.set_Operations s (replace_first (has_operation_id
      (Operation.ID operation)) operation (State.Operations s)))) as Hok'.
    { apply ok_set_Operations; [done|]. rewrite replace_operation_ids. by apply ok_operations. }
    destruct audit as [a|]; [|done]. destruct (Ha a eq_refl) as (_ & _ & Hex).
    by apply (ok_append_audit _ a) in Hok'.
  - unfold CreateAuditEvent. guards. intros (_ & Ha & [= <-]). by apply ok_append_audit.
Qed.

Lemma commit_cases s r p :
  commit s r p = (s, Err (match r with Err e => e | Ok _ => match p with Err e => e | Ok _ => ErrBusy end end)) ∨
  ∃ s', r = Ok s' ∧ p = Ok tt ∧ commit s r p = (s', Ok tt).
Proof. destruct r as [s'|e], p as [[]|e']; simpl; eauto. Qed.

Lemma run_call_ok s c : keeps_name c.1.1 → ok s → ok (run_call s c).
Proof.
  intros Hname Hok. unfold run_call.
  destruct (commit_cases s (next c.1.1 c.1.2 s) c.2) as [->|(s' & Hn & _ & ->)]; [done|].
  simpl. by eapply next_ok.
Qed.

(** ** Looking up after a replacement *)

Lemma find_replace_first_eq {A} (f : A → bool) x l :
  f x = true → is_Some (List.find f l) → List.find f (replace_first f x l) = Some x.
Proof.
  intros Hx. induction l as [|y l IH]; simpl; [by intros [? ?]|].
  destruct (f y) eqn:E; simpl; [by rewrite Hx|by rewrite E].
Qed.

Lemma find_replace_first_ne {A} (f g : A → bool) x l :
  g x = false → (∀ y, f y = true → g y = false) →
  List.find g (replace_first f x l) = List.find g l.
Proof.
  intros Hx Hfg. induction l as [|y l IH]; simpl; [done|].
  destruct (f y) eqn:E; simpl; [by rewrite Hx, (Hfg y)|by rewrite IH].
Qed.

Lemma GetOperation_find s id o :
  GetOperation None s id = Ok o ↔ List.find (has_operation_id id) s.(State.Operations) = Some o.
Proof. unfold GetOperation. simpl. destruct (List.find _ _); naive_solver. Qed.

Lemma trim_operations_spec n l :
  0 ≤ n →
  List.filter in_flight (trim_operations n l) = List.filter in_flight l ∧
  List.filter (negb ∘ in_flight) (trim_operations n l) =
    drop (Z.to_nat n) (List.filter (negb ∘ in_flight) l).
Proof.
  revert n. induction l as [|o l IH]; intros n Hn; simpl; [by rewrite drop_nil|].
  destruct (in_flight o) eqn:E; simpl.
  - rewrite andb_false_r. simpl. rewrite E. simpl. destruct (IH n Hn) as [-> ->]. done.
  - rewrite andb_true_r. destruct (Z.ltb_spec 0 n).
    + destruct (IH (n - 1)) as [-> ->]; [lia|]. split; [done|].
      by replace (Z.to_nat n) with (S (Z.to_nat (n - 1))) by lia.
    + simpl. rewrite E. simpl. assert (n = 0) as -> by lia.
      destruct (IH 0) as [-> ->]; [lia|]. by rewrite !drop_0.
Qed.

Lemma filter_partition_length {A} (f : A → bool) l :
  length l = (length (List.filter f l) + length (List.filter (negb ∘ f) l))%nat.
Proof. induction l as [|x l IH]; simpl; [done|]. destruct (f x); simpl; lia. Qed.

Lemma trimOperationHistory_flight l :
  List.filter in_flight (trimOperationHistory l) = List.filter in_flight l ∧
  List.filter (negb ∘ in_flight) (trimOperationHistory l) =
    drop (Z.to_nat (len_list l - 2000)) (List.filter (negb ∘ in_flight) l).
Proof.
  unfold trimOperationHistory, maxStoredOperations.
  destruct (Z.leb_spec (len_list l - 2000) 0) as [Hle|Hgt].
  - split; [done|]. by replace (Z.to_nat _) with 0%nat by lia.
  - apply trim_operations_spec. lia.
Qed.

Lemma find_unique_operation l x :
  NoDup (Operation.ID <$> l) → x ∈ l →
  List.find (has_operation_id x.(Operation.ID)) l = Some x.
Proof.
  intros Hnd Hx. induction l as [|y l IH]; [by inversion Hx|].
  simpl in *. apply NoDup_cons in Hnd as [Hy Hnd]. unfold has_operation_id at 1.
  case_bool_decide as Heq.
  - apply elem_of_cons in Hx as [->|Hx]; [done|]. exfalso. apply Hy. rewrite Heq.
    by apply list_elem_of_fmap_2.
  - apply elem_of_cons in Hx as [->|Hx]; [done|]. by apply IH.
Qed.

(** ** Properties *)



(** Trimming the operation history never loses an operation that is queued or
    running: it drops exactly the oldest finished operations beyond the limit of
    2000, keeps the order, and leaves no more than 2000 operations unless more
    than that are in flight. *)
Theorem trimOperationHistory_correct l :
  let l' := trimOperationHistory l in
  sublist l' l ∧
  List.filter in_flight l' = List.filter in_flight l ∧
  List.filter (negb ∘ in_flight) l' =
    drop (Z.to_nat (len_list l - 2000)) (List.filter (negb ∘ in_flight) l) ∧
  (length l' ≤ Nat.max 2000 (length (List.filter in_flight l)))%nat.
Proof.
  intros l'. split; [apply trimOperationHistory_sublist|].
  destruct (trimOperationHistory_flight l) as [H1 H2]. fold l' in H1, H2.
  split_and!; [done|done|]. rewrite (filter_partition_length in_flight l'), H1, H2, length_drop.
  pose proof (filter_partition_length in_flight l). unfold len_list. lia.
Qed.

(** Creating an operation that is queued stores it, and a stored operation
    that is in flight survives every later creation unchanged. *)
Theorem CreateOperation_keeps_in_flight e s o s' :
  ok s → CreateOperation e s o = Ok s' → in_flight o = true →
  GetOperation None s' o.(Operation.ID) = Ok o ∧
  (∀ x, in_flight x = true → GetOperation None s x.(Operation.ID) = Ok x →
    GetOperation None s' x.(Operation.ID) = Ok x).
Proof.
  unfold CreateOperation. guards. intros Hok (_ & Hnew & [= <-]) Ho.
  assert (NoDup (Operation.ID <$> trimOperationHistory (State.Operations s ++ [o]))) as Hnd.
  { eapply NoDup_sublist; [apply fmap_sublist, trimOperationHistory_sublist|].
    apply NoDup_snoc_new; [by apply ok_operations|done]. }
  assert (∀ x, in_flight x = true → x ∈ State.Operations s ++ [o] →
    GetOperation None (State.set_Operations s (trimOperationHistory (State.Operations s ++ [o])))
      x.(Operation.ID) = Ok x) as Hkept.
  { intros x Hx Hin. apply GetOperation_find. simpl.
    assert (x ∈ trimOperationHistory (State.Operations s ++ [o])) as Hx'.
    { apply list_elem_of_In, (proj1 (filter_In in_flight _ _)).
      destruct (trimOperationHistory_flight (State.Operations s ++ [o])) as [-> _].
      apply filter_In. by rewrite <-list_elem_of_In. }
    by apply find_unique_operation. }
  split.
  - apply Hkept; [done|]. apply elem_of_app. right. by left.
  - intros x Hx Hget. apply Hkept; [done|]. apply GetOperation_find in Hget.
    apply elem_of_app. left. by apply find_has_Some in Hget as [_ ?].
Qed.
End invariant.

(** ** Examples *)

Definition example_cluster (id name : string) : Cluster :=
  Cluster.mk id name EnvironmentStaging "https://10.0.0.1" ClusterConnected "v1.30.0" "" "" "c" 0 0 0.

Definition example_operation (id : string) (state : OperationState) : Operation :=
  Operation.mk id "req" OperationWorkloadScale state "cl_1" "apps" "web" "admin" "replicas=2" "" ""
    1 0 0 1.

Definition example_audit (id operation : string) : AuditEvent :=
  AuditEvent.mk id "req" operation "admin" "operation.cancel" "succeeded" "cl_1" "apps" "web" "" 2.

Definition example_state : State :=
  State.mk schemaVersion [example_cluster "cl_1" "prod"] []
    [example_operation "op_1" OperationQueued] [].

Lemma example_state_ok : ok example_state.
Proof.
  split; simpl; [|constructor|apply NoDup_singleton|constructor|by vm_compute].
  by repeat constructor.
Qed.

Definition example_calls : list (call * option error * result unit) :=
  [(CCreateCluster (example_cluster "cl_2" "PROD"), None, Ok tt);
   (CCreateCluster (example_cluster "cl_2" "edge"), None, Ok tt);
   (CDeleteCluster "cl_1", None, Err (NewError "disk full"));
   (CTransition OperationQueued (example_operation "op_1" OperationRunning) None, None, Ok tt)].



Lemma CreateOperation_keeps_in_flight_witness :
  ∃ s', CreateOperation None example_state (example_operation "op_2" OperationQueued) = Ok s' ∧
    GetOperation None s' "op_2" = Ok (example_operation "op_2" OperationQueued).
Proof.
  eexists. split; [by vm_compute|].
  apply (CreateOperation_keeps_in_flight None example_state
    (example_operation "op_2" OperationQueued) _ example_state_ok); by vm_compute.
Defined.
End Store.
