(* ===== verification/StoreFile.v ===== *)
(** * Writing and opening the store file (src/internal/store/file.go)

    [persist] writes the document to a temporary file, synchronises it, renames it
    over the store's path and synchronises the directory.  Every system call can
    fail, and the machine can stop after any of them, so the disk is modelled with
    what a crash can leave behind.  encoding/json enters as the class
    [StateCodec]. *)

From S2P Require Export Store.
From S2P Require Import GoNum.

Local Open Scope Z_scope.
Local Open Scope stdpp_scope.

(** [json.MarshalIndent] and [json.Unmarshal] on the store's document. *)
Class StateCodec := {
  MarshalIndent : State → result string;
  Unmarshal : string → result State;
}.

(** Decoding an encoded state gives it back, for the states whose texts are valid
    UTF-8 and whose times JSON can carry. *)
Class StateCodecLaws `{StateCodec} := {
  representable : State → Prop;
  Unmarshal_Marshal s b : representable s → MarshalIndent s = Ok b → Unmarshal b = Ok s;
}.

Module StoreFile.

(** ** The disk

    [visible] is the file the path names now, [durable] the one it named when the
    directory was last synchronised, [temporary] the temporary file. *)
Record file : Type := mkFile { contents : string; synced : bool }.

Record disk : Type := mkDisk {
  visible : option file;
  durable : option file;
  temporary : option file;
}.

(** What reading the path can give after a crash: the directory entry may be the
    old or the new one, and a file that was not synchronised can hold anything. *)
Definition after_crash (d : disk) (c : option string) : Prop :=
  ∃ entry, (entry = d.(durable) ∨ entry = d.(visible)) ∧
  match entry with
  | None => c = None
  | Some f => ∃ s, c = Some s ∧ (f.(synced) = true → s = f.(contents))
  end.

Inductive syscall : Type :=
  | MkdirAll | CreateTemp | ChmodTemp | WriteTemp | SyncTemp | CloseTemp
  | Rename | ChmodStore | OpenDirectory | SyncDirectory.

(** A failed write may have written a prefix. *)
Inductive outcome : Type :=
  | Done
  | Failed (e : error) (written : nat).

Definition set_temporary (d : disk) (t : option file) : disk :=
  mkDisk d.(visible) d.(durable) t.

Definition perform (text : string) (c : syscall) (o : outcome) (d : disk) : disk :=
  match c, o with
  | CreateTemp, Done => set_temporary d (Some (mkFile "" false))
  | WriteTemp, Done => set_temporary d (Some (mkFile text false))
  | WriteTemp, Failed _ n => set_temporary d (Some (mkFile (take_bytes n text) false))
  | SyncTemp, Done =>
      set_temporary d ((λ f, mkFile f.(contents) true) <$> d.(temporary))
  | Rename, Done => mkDisk d.(temporary) d.(durable) None
  | SyncDirectory, Done => mkDisk d.(visible) d.(visible) d.(temporary)
  | _, _ => d
  end.

(** The calls of [persist] in order, with the prefix of the error each one causes. *)
Definition protocol : list (syscall * string) :=
  [(MkdirAll, "create store directory: "); (CreateTemp, "create temporary store: ");
   (ChmodTemp, "protect temporary store: "); (WriteTemp, "write temporary store: ");
   (SyncTemp, "sync temporary store: "); (CloseTemp, "close temporary store: ");
   (Rename, "replace store: "); (ChmodStore, "protect store: ");
   (OpenDirectory, "open store directory: "); (SyncDirectory, "sync store directory: ")].

(** Run the calls until one fails; [outcomes] gives the outcome of each (all that
    are not listed succeed).  The second component lists the disks in between. *)
Fixpoint run_protocol (steps : list (syscall * string)) (text : string)
    (outcomes : list outcome) (d : disk) : disk * list disk * result unit :=
  match steps with
  | [] => (d, [], Ok tt)
  | (c, message) :: steps =>
      let o := default Done (head outcomes) in
      let d' := perform text c o d in
      match o with
      | Failed e _ => (d', [d'], Err (Errorf message e))
      | Done =>
          let '(d'', between, r) := run_protocol steps text (tail outcomes) d' in
          (d'', d' :: between, r)
      end
  end.

(** The deferred function removes the temporary file, if it can. *)
Definition cleanup (removed : bool) (d : disk) : disk :=
  if removed then set_temporary d None else d.

Section codec.
Context `{StateCodec}.

Definition persist (next : State) (outcomes : list outcome) (removed : bool) (d : disk) :
    disk * list disk * result unit :=
  match MarshalIndent next with
  | Err e => (d, [], Err (Errorf "encode store: " e))
  | Ok text =>
      let '(d', between, r) := run_protocol protocol text outcomes d in
      (cleanup removed d', between ++ [cleanup removed d'], r)
  end.

(** ** The store with its file *)

Record t : Type := mk { data : State; on_disk : disk }.

(** [s.commit(next)] of a mutation that decided on [next]. *)
Definition commit (s : t) (next : result State) (outcomes : list outcome) (removed : bool) :
    t * list disk * result unit :=
  match next with
  | Err e => (s, [], Err e)
  | Ok n =>
      let '(d, between, persisted) := persist n outcomes removed s.(on_disk) in
      let '(data, r) := Store.commit s.(data) (Ok n) persisted in
      (mk data d, between, r)
  end.

Definition load (readErr : option error) (d : disk) : result State :=
  match readErr with
  | Some e => Err (Errorf "read store: " e)
  | None =>
      match d.(visible) with
      | None => Ok State.empty
      | Some f =>
          match Unmarshal f.(contents) with
          | Err e => Err (Errorf "decode store: " e)
          | Ok loaded =>
              reject_if (negb (loaded.(State.SchemaVersion) =? schemaVersion))
                (NewError ("unsupported store schema version " +:+
                           FormatInt loaded.(State.SchemaVersion))) ;;
              Ok loaded
          end
      end
  end.

(** A reconciliation persists its result only when it changed something. *)
Definition reconcile (s : t) (next : option State) (outcomes : list outcome) (removed : bool) :
    t * result unit :=
  match next with
  | None => (s, Ok tt)
  | Some n => let '(s', _, r) := commit s (Ok n) outcomes removed in (s', r)
  end.

Definition Open (path : string) (now : time) (readErr : option error)
    (outcomes1 outcomes2 : list outcome) (removed1 removed2 : bool) (d : disk) : result t :=
  reject_if (bool_decide (TrimSpace path = "")) (NewError "store path must not be empty") ;;
  loaded ← load readErr d;
  let s := mk loaded d in
  let '(s, r) := reconcile s (Store.reconcileHistoryRetention s.(data)) outcomes1 removed1 in
  r ;;
  let '(s, r) :=
    reconcile s (Store.reconcileInterruptedOperations s.(data) now) outcomes2 removed2 in
  r ;;
  Ok s.
End codec.

(** ** The disk holds one of a set of documents *)

(** Both directory entries are synchronised files (or nothing) with contents in [P]. *)
Definition holds (P : option string → Prop) (d : disk) : Prop :=
  ∀ entry, entry = d.(durable) ∨ entry = d.(visible) →
    P (contents <$> entry) ∧ ∀ f, entry = Some f → f.(synced) = true.

Lemma holds_after_crash P d c : holds P d → after_crash d c → P c.
Proof.
  intros Hd (entry & Hentry & Hc). destruct (Hd entry Hentry) as [HP Hsync].
  destruct entry as [f|]; simpl in *; [|by subst]. destruct Hc as (s & -> & Hs).
  by rewrite Hs by by apply Hsync.
Qed.

Lemma holds_weaken (P Q : option string → Prop) d : (∀ c, P c → Q c) → holds P d → holds Q d.
Proof. intros HPQ Hd entry He. destruct (Hd entry He). eauto. Qed.

Lemma holds_same P d d' :
  d'.(visible) = d.(visible) → d'.(durable) = d.(durable) → holds P d → holds P d'.
Proof. unfold holds. by intros -> ->. Qed.

Lemma holds_cleanup P removed d : holds P d → holds P (cleanup removed d).
Proof. by destruct removed. Qed.

Definition old_or_new (P : option string → Prop) (text : string) (c : option string) : Prop :=
  P c ∨ c = Some text.

(** The calls before the rename leave both directory entries alone; the temporary
    file holds the synchronised text once they are through. *)
Definition before_rename : list (syscall * string) := take 6 protocol.
Definition from_rename : list (syscall * string) := drop 6 protocol.

Lemma run_protocol_app s1 s2 text outcomes d :
  run_protocol (s1 ++ s2) text outcomes d =
  let '(d1, b1, r1) := run_protocol s1 text outcomes d in
  match r1 with
  | Err e => (d1, b1, Err e)
  | Ok _ =>
      let '(d2, b2, r2) := run_protocol s2 text (drop (length s1) outcomes) d1 in
      (d2, b1 ++ b2, r2)
  end.
Proof.
  revert outcomes d. induction s1 as [|[c m] s1 IH]; intros outcomes d; simpl.
  { rewrite drop_0. by destruct (run_protocol s2 text outcomes d) as [[? ?] ?]. }
  destruct (default Done (head outcomes)); [|done]. rewrite IH.
  destruct (run_protocol s1 text (tail outcomes) _) as [[d1 b1] [u|e]]; [|done].
  destruct outcomes as [|o outcomes]; simpl; rewrite ?drop_nil;
    by destruct (run_protocol s2 text _ d1) as [[? ?] ?].
Qed.

Definition leaves_path (c : syscall) : Prop :=
  match c with Rename | SyncDirectory => False | _ => True end.

Lemma perform_leaves_path text c o d :
  leaves_path c →
  (perform text c o d).(visible) = d.(visible) ∧ (perform text c o d).(durable) = d.(durable).
Proof. by destruct c, o. Qed.

Lemma run_leaves_path steps text outcomes d :
  Forall (λ s, leaves_path s.1) steps →
  let '(d', between, r) := run_protocol steps text outcomes d in
  Forall (λ x, x.(visible) = d.(visible) ∧ x.(durable) = d.(durable)) (d' :: between).
Proof.
  intros Hs. revert outcomes d.
  induction Hs as [|[c m] steps Hc _ IH]; intros outcomes d; cbn [run_protocol].
  { by repeat constructor. }
  destruct (perform_leaves_path text c (default Done (head outcomes)) d Hc) as [Hv Hd].
  destruct (default Done (head outcomes)) as [|e n]; [|by repeat constructor].
  specialize (IH (tail outcomes) (perform text c Done d)).
  destruct (run_protocol steps text (tail outcomes) _) as [[d' b] r].
  rewrite Hv, Hd in IH. apply Forall_cons in IH as [Hd' Hb].
  constructor; [done|]. constructor; [by split|done].
Qed.

(** A run that succeeds performed every call successfully. *)
Lemma run_protocol_Ok steps text outcomes d d' between u :
  run_protocol steps text outcomes d = (d', between, Ok u) →
  d' = foldl (λ d s, perform text s.1 Done d) d steps.
Proof.
  revert outcomes d between. induction steps as [|[c m] steps IH]; intros outcomes d between;
    cbn [run_protocol]; [by intros [= <- _ _]|].
  destruct (default Done (head outcomes)); [|done].
  destruct (run_protocol steps text (tail outcomes) _) as [[d2 b] r] eqn:E.
  intros [= -> _ ->]. by apply IH in E.
Qed.

(** A property of disks that every call preserves holds of every disk of a run. *)
Lemma run_protocol_invariant (I : disk → Prop) steps text outcomes d :
  Forall (λ s, ∀ o d, I d → I (perform text s.1 o d)) steps → I d →
  let '(d', between, _) := run_protocol steps text outcomes d in Forall I (d' :: between).
Proof.
  intros Hs. revert outcomes d. induction Hs as [|[c m] steps Hc _ IH]; intros outcomes d Hd;
    cbn [run_protocol]; [by repeat constructor|].
  specialize (Hc (default Done (head outcomes)) d Hd).
  destruct (default Done (head outcomes)); [|by repeat constructor].
  specialize (IH (tail outcomes) _ Hc).
  destruct (run_protocol steps text (tail outcomes) _) as [[d' b] r].
  apply Forall_cons in IH as [Hd' Hb]. by repeat constructor.
Qed.

Lemma before_rename_temporary text outcomes d d' between u :
  run_protocol before_rename text outcomes d = (d', between, Ok u) →
  d'.(temporary) = Some (mkFile text true).
Proof. by intros ->%run_protocol_Ok. Qed.

(** The path names the synchronised new document. *)
Definition renamed (P : option string → Prop) (text : string) (d : disk) : Prop :=
  holds (old_or_new P text) d ∧ d.(visible) = Some (mkFile text true).

Lemma renamed_perform P text c o d :
  c ≠ Rename → renamed P text d → renamed P text (perform text c o d).
Proof.
  intros Hc [Hd Hv]. split.
  - destruct c, o; try done; try (by eapply holds_same; [..|exact Hd]).
    intros entry [-> | ->]; simpl; apply Hd; by right.
  - by destruct c, o.
Qed.

(** From the rename on, the path names the old or the new document. *)
Lemma from_rename_holds P text outcomes d :
  holds P d → d.(temporary) = Some (mkFile text true) →
  let '(d', between, r) := run_protocol from_rename text outcomes d in
  Forall (holds (old_or_new P text)) (d' :: between) ∧
  (r = Ok tt → holds (λ c, c = Some text) d').
Proof.
  intros Hd Ht.
  change from_rename with ((Rename, "replace store: ") :: drop 7 protocol). cbn [run_protocol].
  assert (holds (old_or_new P text) d) as H0 by (eapply holds_weaken, Hd; by left).
  destruct (default Done (head outcomes)); [|by split; [apply Forall_cons_2; [|apply Forall_cons_2; [|apply Forall_nil_2]]|]].
  assert (renamed P text (perform text Rename Done d)) as H1.
  { split; [|done]. intros entry [-> | ->]; simpl; [by apply H0; left|].
    rewrite Ht. split; [by right|by intros f [= <-]]. }
  assert (Forall (λ s, ∀ o d, renamed P text d → renamed P text (perform text s.1 o d))
    (drop 7 protocol)) as Hkeep.
  { simpl. repeat apply Forall_cons_2; try apply Forall_nil_2; intros; by apply renamed_perform. }
  pose proof (run_protocol_invariant _ _ text (tail outcomes) _ Hkeep H1) as Hall.
  destruct (run_protocol (drop 7 protocol) text (tail outcomes) _) as [[d' b] r] eqn:E.
  apply Forall_cons in Hall as [Hd' Hb]. split.
  - constructor; [by apply Hd'|]. constructor; [by apply H1|].
    eapply Forall_impl; [exact Hb|]. by intros x [? _].
  - intros ->. apply run_protocol_Ok in E as ->. simpl. rewrite Ht.
    intros entry [-> | ->]; simpl; (split; [done|by intros f [= <-]]).
Qed.

Section durability.
Context `{StateCodecLaws}.

Lemma persist_holds P next text outcomes removed d :
  MarshalIndent next = Ok text → holds P d →
  let '(d', between, r) := persist next outcomes removed d in
  Forall (holds (old_or_new P text)) (d' :: between) ∧
  (r = Ok tt → holds (λ c, c = Some text) d').
Proof.
  intros Htext Hd. unfold persist. rewrite Htext.
  change protocol with (before_rename ++ from_rename). rewrite run_protocol_app.
  assert (∀ x, x.(visible) = d.(visible) ∧ x.(durable) = d.(durable) → holds P x) as Hsame.
  { intros x [??]. by eapply holds_same. }
  assert (∀ x, holds P x → holds (old_or_new P text) x) as Hweak.
  { intros x. apply holds_weaken. by left. }
  assert (Forall (λ s, leaves_path s.1) before_rename) as Hbr by (by repeat constructor).
  pose proof (run_leaves_path before_rename text outcomes d Hbr) as Hb.
  destruct (run_protocol before_rename text outcomes d) as [[d1 b1] r1] eqn:E1.
  apply Forall_cons in Hb as [Hd1%Hsame Hb1].
  assert (Forall (holds (old_or_new P text)) b1) as Hb1'.
  { eapply Forall_impl; [exact Hb1|]. intros x ?. by apply Hweak, Hsame. }
  destruct r1 as [u|e].
  - pose proof (before_rename_temporary _ _ _ _ _ _ E1) as Ht.
    pose proof (from_rename_holds P text (drop (length before_rename) outcomes) d1 Hd1 Ht) as Hf.
    destruct (run_protocol from_rename text _ d1) as [[d2 b2] r2]. simpl in Hf.
    destruct Hf as [[Hd2 Hb2]%Forall_cons Hok]. split.
    + constructor; [by apply holds_cleanup|]. rewrite !Forall_app. split; [done|].
      apply Forall_singleton. by apply holds_cleanup.
    + intros Hr. by apply holds_cleanup, Hok.
  - split; [|done]. constructor; [by apply holds_cleanup, Hweak|].
    apply Forall_app. split; [done|]. apply Forall_singleton. by apply holds_cleanup, Hweak.
Qed.

(** A commit of the store, and the states whose commit failed since the last
    success: their documents may have reached the disk all the same. *)
Definition attempt : Type := State * list outcome * bool.

Definition step (s : t * list State) (a : attempt) : t * list State :=
  let '(next, outcomes, removed) := a in
  let '(s', _, r) := commit s.1 (Ok next) outcomes removed in
  (s', if is_ok r then [] else next :: s.2).

(** The disk holds the document of one of these states. *)
Definition document_of (states : list State) (c : option string) : Prop :=
  ∃ n b, n ∈ states ∧ MarshalIndent n = Ok b ∧ c = Some b.

Lemma document_of_mono l l' c : l ⊆ l' → document_of l c → document_of l' c.
Proof. intros Hl (n & b & Hn & Hb). exists n, b. split; [by apply Hl|done]. Qed.

Lemma commit_holds s next outcomes removed failed :
  holds (document_of (s.(data) :: failed)) s.(on_disk) →
  let '(s', between, r) := commit s (Ok next) outcomes removed in
  s'.(data) = (if is_ok r then next else s.(data)) ∧
  Forall (holds (document_of (next :: s.(data) :: failed))) between ∧
  holds (document_of (if is_ok r then [next] else s.(data) :: next :: failed)) s'.(on_disk).
Proof.
  intros Hd. unfold commit. destruct (MarshalIndent next) as [text|e] eqn:Htext.
  - pose proof (persist_holds _ next text outcomes removed _ Htext Hd) as Hp.
    destruct (persist next outcomes removed (on_disk s)) as [[d b] r].
    destruct Hp as [[Hd' Hb]%Forall_cons Hok].
    assert (∀ c, old_or_new (document_of (data s :: failed)) text c →
      document_of (next :: data s :: failed) c) as Hon.
    { intros c [(n & x & Hn & Hx)| ->]; [exists n, x; split; [by right|done]|].
      exists next, text. split; [by left|done]. }
    destruct r as [[]|e]; simpl; (split; [done|split]).
    + eapply Forall_impl; [exact Hb|]. intros x. by apply holds_weaken.
    + eapply holds_weaken, Hok; [|done]. intros c ->. exists next, text.
      split; [by left|done].
    + eapply Forall_impl; [exact Hb|]. intros x. by apply holds_weaken.
    + eapply holds_weaken, Hd'. intros c Hc%Hon. eapply document_of_mono, Hc.
      intros n. rewrite !elem_of_cons. tauto.
  - unfold persist. rewrite Htext. simpl. split_and!; [done|done|].
    eapply holds_weaken, Hd. intros c. apply document_of_mono.
    intros n. rewrite !elem_of_cons. tauto.
Qed.

#[local] Arguments commit : simpl never.

Lemma steps_hold s attempts :
  holds (document_of (s.1.(data) :: s.2)) s.1.(on_disk) →
  let s' := foldl step s attempts in holds (document_of (s'.1.(data) :: s'.2)) s'.1.(on_disk).
Proof.
  revert s. induction attempts as [|[[next outcomes] removed] attempts IH]; intros [s failed] Hd;
    [done|]. simpl. apply IH. unfold step. simpl in *.
  pose proof (commit_holds s next outcomes removed failed Hd) as Hc.
  destruct (commit s (Ok next) outcomes removed) as [[s' b] r].
  destruct Hc as (Hdata & _ & Hd'). simpl. rewrite Hdata. by destruct (is_ok r).
Qed.

(** C6: writing the store is atomic: whatever system call fails and wherever the
    machine stops, the store's path afterwards holds a complete document, either
    one it could have held before or the new one; and when persisting reports
    success, only the new one is left, even after a crash. *)
Theorem persist_crash_atomic P next text outcomes removed d d' between r :
  MarshalIndent next = Ok text → holds P d →
  persist next outcomes removed d = (d', between, r) →
  (∀ x c, x ∈ d' :: between → after_crash x c → P c ∨ c = Some text) ∧
  (r = Ok tt → ∀ c, after_crash d' c → c = Some text).
Proof.
  intros Htext Hd Hp. pose proof (persist_holds P next text outcomes removed d Htext Hd) as Hh.
  rewrite Hp in Hh. destruct Hh as [Hall Hok]. split.
  - intros x c Hx. rewrite Forall_forall in Hall. apply (holds_after_crash _ _ _ (Hall x Hx)).
  - intros Hr c. apply (holds_after_crash _ _ _ (Hok Hr)).
Qed.

(** C5: acknowledged writes survive crashes: after any sequence of commits, with
    any failures, a crash (also in the middle of one more commit) leaves a
    document that decodes to the last acknowledged state or to a state whose commit
    failed after it (or was under way); never to an older or a broken one. *)
Theorem acknowledged_writes_survive s attempts next outcomes removed x c :
  holds (document_of [s.(data)]) s.(on_disk) →
  let s' := (foldl step (s, []) attempts).1 in
  let failed := (foldl step (s, []) attempts).2 in
  Forall representable (next :: s'.(data) :: failed) →
  x ∈ s'.(on_disk) :: (commit s' (Ok next) outcomes removed).1.2 →
  after_crash x c →
  ∃ n b, n ∈ next :: s'.(data) :: failed ∧ c = Some b ∧ Unmarshal b = Ok n.
Proof.
  intros Hd. pose proof (steps_hold (s, []) attempts Hd) as Hs.
  destruct (foldl step (s, []) attempts) as [s' failed]. simpl in *. intros Hrep Hx Hc.
  assert (holds (document_of (next :: data s' :: failed)) x) as Hholds.
  { apply elem_of_cons in Hx as [->|Hx].
    - eapply holds_weaken, Hs. intros c'. apply document_of_mono. by intros n ?; right.
    - pose proof (commit_holds s' next outcomes removed failed Hs) as Hcm.
      destruct (commit s' (Ok next) outcomes removed) as [[s2 b] r].
      destruct Hcm as (_ & Hb & _). rewrite Forall_forall in Hb. by apply Hb. }
  apply (holds_after_crash _ _ _ Hholds) in Hc as (n & b & Hn & Hb & ->).
  exists n, b. split_and!; [done|done|]. rewrite Forall_forall in Hrep.
  apply (Unmarshal_Marshal n b); [by apply Hrep|done].
Qed.
End durability.

Section opening.
Context `{StateCodec}.

Lemma reconcile_data s next outcomes removed s' u :
  reconcile s next outcomes removed = (s', Ok u) → s'.(data) = default s.(data) next.
Proof.
  unfold reconcile, commit, Store.commit. destruct next as [n|]; [|by intros [= <-]].
  destruct (persist n outcomes removed (on_disk s)) as [[d b] [?|?]]; by intros [= <-].
Qed.

Lemma sublist_same_length {A} (l l' : list A) : sublist l' l → length l' = length l → l' = l.
Proof.
  induction 1 as [|x l' l Hs IH|x l' l Hs IH]; simpl; intros Hl; [done|f_equal; apply IH; lia|].
  apply sublist_length in Hs. lia.
Qed.

(** What is opened is what was loaded, with its histories trimmed and nothing in flight. *)
Lemma Open_data path now readErr outs1 outs2 rm1 rm2 d s :
  Open path now readErr outs1 outs2 rm1 rm2 d = Ok s →
  ∃ loaded, load readErr d = Ok loaded ∧
    s.(data) = State.mk loaded.(State.SchemaVersion) loaded.(State.Clusters)
      loaded.(State.Repositories)
      (Store.interrupt now <$> Store.trimOperationHistory loaded.(State.Operations))
      (Store.trimAuditHistory loaded.(State.AuditEvents)).
Proof.
  unfold Open. rewrite bind_Ok. intros (_ & _ & Hs).
  rewrite bind_Ok in Hs. destruct Hs as (loaded & Hload & Hs). exists loaded.
  split; [done|]. simpl in Hs.
  destruct (reconcile _ (Store.reconcileHistoryRetention loaded) _ _) as [s1 [u1|]] eqn:E1; [|done].
  simpl in Hs.
  destruct (reconcile s1 _ _ _) as [s2 [u2|]] eqn:E2; [|done]. injection Hs as <-.
  apply reconcile_data in E1 as Hd1. apply reconcile_data in E2 as Hd2. simpl in Hd1.
  set (trimmed := State.mk loaded.(State.SchemaVersion) loaded.(State.Clusters)
    loaded.(State.Repositories) (Store.trimOperationHistory loaded.(State.Operations))
    (Store.trimAuditHistory loaded.(State.AuditEvents))).
  assert (data s1 = trimmed) as Ht.
  { rewrite Hd1. unfold Store.reconcileHistoryRetention.
    destruct (_ && _) eqn:E; simpl; [|done]. apply andb_true_iff in E as [Eo Ea].
    subst trimmed. unfold len_list in *.
    rewrite (sublist_same_length _ _ (Store.trimOperationHistory_sublist _)) by lia.
    rewrite (sublist_same_length _ _ (Store.trimAuditHistory_sublist _)) by lia.
    by destruct loaded. }
  assert (data s2 = State.set_Operations trimmed (Store.interrupt now <$> State.Operations trimmed))
    as Hdata.
  { rewrite Hd2, Ht. unfold Store.reconcileInterruptedOperations.
    destruct (existsb in_flight _) eqn:E; simpl; [done|].
    assert (Store.interrupt now <$> State.Operations trimmed = State.Operations trimmed) as Hid.
    { rewrite <-(list_fmap_id (State.Operations trimmed)) at 2. apply list_fmap_ext.
      intros i o Ho. unfold Store.interrupt. destruct (in_flight o) eqn:Ef; [|done].
      exfalso. apply not_true_iff_false in E. apply E. apply existsb_exists. exists o.
      split; [|done]. apply list_elem_of_lookup_2 in Ho. by apply list_elem_of_In. }
    symmetry. etrans; [exact (f_equal (State.set_Operations trimmed) Hid)|done]. }
  by rewrite Hdata.
Qed.


(** A failure after the rename is reported although the file has been replaced:
    the memory keeps the old state while the path names the new document. *)
Theorem commit_error_after_rename s next text e :
  MarshalIndent next = Ok text →
  let '(s', _, r) := commit s (Ok next) (replicate 7 Done ++ [Failed e 0]) true in
  r = Err (Errorf "protect store: " e) ∧ s'.(data) = s.(data) ∧
  contents <$> s'.(on_disk).(visible) = Some text.
Proof. intros Htext. unfold commit, persist. rewrite Htext. done. Qed.
End opening.

(** ** Examples, with a codec for two states *)

Definition sample_state : State := Store.example_state.
Definition sample_next : State :=
  State.set_Operations sample_state (Store.interrupt 7 <$> sample_state.(State.Operations)).

#[local] Instance sample_codec : StateCodec := {|
  MarshalIndent s :=
    if bool_decide (s = sample_state) then Ok "A"
    else if bool_decide (s = sample_next) then Ok "B" else Err (NewError "other state");
  Unmarshal b :=
    if String.eqb b "A" then Ok sample_state
    else if String.eqb b "B" then Ok sample_next else Err (NewError "bad document");
|}.

#[local] Program Instance sample_laws : StateCodecLaws := {|
  representable s := s = sample_state ∨ s = sample_next |}.
Next Obligation. intros s b [-> | ->]; vm_compute; by intros [= <-]. Qed.

Definition sample_disk : disk :=
  mkDisk (Some (mkFile "A" true)) (Some (mkFile "A" true)) None.

Definition sample_store : t := mk sample_state sample_disk.

Lemma sample_disk_holds : holds (document_of [sample_state]) sample_disk.
Proof.
  intros entry [-> | ->]; simpl; (split; [|by intros f [= <-]]);
    exists sample_state, "A"; (split; [by left|]); split; by vm_compute.
Qed.

Definition sample_outcomes : list outcome := [Done; Done; Done; Failed ErrBusy 1].

Lemma persist_crash_atomic_witness :
  let run := persist sample_next sample_outcomes true sample_disk in
  run.2 = Err (Errorf "write temporary store: " ErrBusy) ∧
  (document_of [sample_state] (Some "A") ∨ Some "A" = Some "B").
Proof.
  intros run. split; [by vm_compute|].
  assert (MarshalIndent sample_next = Ok "B") as Hb by by vm_compute.
  assert (run = (run.1.1, run.1.2, run.2)) as Hrun by by destruct run as [[? ?] ?].
  destruct (persist_crash_atomic (document_of [sample_state]) sample_next "B"
    sample_outcomes true sample_disk run.1.1 run.1.2 run.2 Hb sample_disk_holds Hrun) as [Hc _].
  apply (Hc run.1.1); [by left|].
  exists run.1.1.(visible). split; [by right|]. vm_compute. eauto.
Defined.

(** The write of [sample_next] succeeds, the next one fails after the rename: the
    crash finds the document the failed commit left behind. *)
Definition late_failure : list outcome := replicate 9 Done ++ [Failed ErrBusy 0].

Definition sample_after : t * list State := foldl step (sample_store, []) [(sample_next, [], true)].

Lemma acknowledged_writes_survive_witness :
  let x := (commit sample_after.1 (Ok sample_state) late_failure true).1.1.(on_disk) in
  ∃ n b, n ∈ sample_state :: sample_after.1.(data) :: sample_after.2 ∧
    contents <$> x.(visible) = Some b ∧ Unmarshal b = Ok n.
Proof.
  intros x.
  refine (acknowledged_writes_survive sample_store [(sample_next, [], true)] sample_state
    late_failure true x (contents <$> x.(visible)) sample_disk_holds _ _ _).
  - constructor; [by left|]. constructor; [by right|constructor].
  - right. vm_compute. do 9 right. by left.
  - exists x.(visible). split; [by right|]. vm_compute. eauto.
Defined.

End StoreFile.
