(* ===== verification/Program.v ===== *)
(** * Programs of the platform service (src/internal/platform/contracts.go)

    The methods of [Service] are sequential programs whose every interaction with
    something shared (the store, the clock, a channel, a mutex-protected map, a
    governor, a remote cluster) is an [effect].  A program is the tree of its
    effects, branching on their answers; the interfaces of contracts.go are the
    constructors of [effect].  [safe] checks a program against a monitor for every
    answer its effects may give, so it covers every interleaving with other
    goroutines; the shared world in which effects are atomic steps is in Pool.v. *)

From S2P Require Export Store GatewayCache.

Local Open Scope Z_scope.
Local Open Scope stdpp_scope.

(** What the service only passes on: gateways, and the read models
    [domain.X] it returns ([Model "X"]). *)
Class Platform := {
  Gateway : Type;
  Gateway_eq_dec :: EqDecision Gateway;
  Model : string → Type;
}.

(** ** Contexts

    The context of an HTTP request, the two derivations the service makes, the
    workers' context, and the context of [operationExecutionContext], which ends
    with the workers' context or with the operation's control. *)
Inductive Ctx : Type :=
  | RequestCtx
  | WorkerCtx
  | Execution (control : option nat)
  | WithoutCancel (ctx : Ctx)
  | WithTimeout (ctx : Ctx) (timeout : duration).

(** ** Data exchanged with the interfaces *)

Module Connection.
Record t : Type := mk { Server : string; CACert : string; BearerToken : string }.
End Connection.
Notation Connection := Connection.t.

Module RepositoryConnection.
Record t : Type := mk { URL : string; Username : string; Password : string }.
End RepositoryConnection.
Notation RepositoryConnection := RepositoryConnection.t.

Module HelmRequest.
Record t : Type := mk {
  Connection : Connection;
  Repository : option RepositoryConnection;
  Input : HelmOperationInput;
}.
End HelmRequest.
Notation HelmRequest := HelmRequest.t.

(** A job of the operation queue; [control] is the operation's control, a context
    with its cancel function, named by its number. *)
Record operationJob : Type := mkJob {
  operationID : string;
  helmInput : option HelmOperationInput;
  workloadInput : option WorkloadOperationInput;
  workloadImageInput : option WorkloadImageOperationInput;
  control : option nat;
}.

Inductive store_read : Type → Type :=
  | ListClusters : store_read (list Cluster)
  | GetCluster (id : string) : store_read Cluster
  | ListRepositories : store_read (list Repository)
  | GetRepository (id : string) : store_read Repository
  | GetOperation (id : string) : store_read Operation
  | ListOperations (limit : Z) : store_read (list Operation)
  | ListAuditEvents (limit : Z) : store_read (list AuditEvent).

(** [KubeGateway]. *)
Module KubeGateway.
Section methods.
Context `{Platform}.
Inductive method : Type → Type :=
  | Probe : method ClusterProbe
  | Capabilities (namespace : string) : method (list (Model "KubernetesCapability"))
  | Summary : method (Model "ClusterSummary")
  | Namespaces : method (list (Model "Namespace"))
  | PodSecurityAdmissionNamespaces :
      method (list (Model "KubernetesPodSecurityAdmissionNamespace"))
  | NodeVersionSkew : method (Model "KubernetesNodeVersionSkewReport")
  | DeprecatedAPIRequests : method (list (Model "KubernetesDeprecatedAPIRequest"))
  | EndpointCertificate : method (Model "KubernetesEndpointCertificate")
  | APIServerReadiness : method (Model "KubernetesAPIServerReadiness")
  | DisruptionBudgets : method (list (Model "KubernetesPodDisruptionBudget"))
  | Nodes : method (list (Model "Node"))
  | NodeDetail (name : string) : method (Model "NodeDetail")
  | NodeEvents (name : string) (limit : Z) : method (list (Model "KubernetesEvent"))
  | CustomResourceDefinitions : method (list (Model "KubernetesCustomResourceDefinition"))
  | CustomResourceDefinition (name : string) :
      method (Model "KubernetesCustomResourceDefinitionDetail")
  | CertificateSigningRequests : method (list (Model "KubernetesCertificateSigningRequest"))
  | CertificateSigningRequest (name : string) :
      method (Model "KubernetesCertificateSigningRequestDetail")
  | PriorityClasses : method (list (Model "KubernetesPriorityClass"))
  | PriorityClass (name : string) : method (Model "KubernetesPriorityClassDetail")
  | RuntimeClasses : method (list (Model "KubernetesRuntimeClass"))
  | RuntimeClass (name : string) : method (Model "KubernetesRuntimeClassDetail")
  | APIServices : method (list (Model "KubernetesAPIService"))
  | AdmissionWebhookConfigurations (kind : KubernetesAdmissionWebhookConfigurationKind) :
      method (list (Model "KubernetesAdmissionWebhookConfiguration"))
  | AdmissionWebhookConfiguration
      (kind : KubernetesAdmissionWebhookConfigurationKind) (name : string) :
      method (Model "KubernetesAdmissionWebhookConfigurationDetail")
  | ValidatingAdmissionPolicies : method (list (Model "KubernetesAdmissionPolicyResource"))
  | ValidatingAdmissionPolicy (name : string) :
      method (Model "KubernetesValidatingAdmissionPolicyDetail")
  | ValidatingAdmissionPolicyBindings :
      method (list (Model "KubernetesAdmissionPolicyResource"))
  | ValidatingAdmissionPolicyBinding (name : string) :
      method (Model "KubernetesValidatingAdmissionPolicyBindingDetail")
  | Events (namespace eventType : string) (limit : Z) : method (list (Model "KubernetesEvent"))
  | Workloads (namespace kind : string) : method (list (Model "Workload"))
  | Services (namespace : string) : method (list (Model "KubernetesService"))
  | Ingresses (namespace : string) : method (list (Model "KubernetesIngress"))
  | EndpointSlices (namespace : string) : method (list (Model "KubernetesEndpointSlice"))
  | NetworkPolicies (namespace : string) : method (list (Model "KubernetesNetworkPolicy"))
  | ConfigMaps (namespace : string) : method (list (Model "KubernetesConfigMap"))
  | Secrets (namespace : string) : method (list (Model "KubernetesSecret"))
  | PersistentVolumeClaims (namespace : string) :
      method (list (Model "KubernetesPersistentVolumeClaim"))
  | PersistentVolumes : method (list (Model "KubernetesPersistentVolume"))
  | StorageClasses : method (list (Model "KubernetesStorageClass"))
  | VolumeAttachments : method (list (Model "KubernetesVolumeAttachment"))
  | CSIStorageCapacities (namespace : string) :
      method (list (Model "KubernetesCSIStorageCapacity"))
  | VolumeAttributesClasses : method (list (Model "KubernetesVolumeAttributesClass"))
  | CSIDrivers : method (list (Model "KubernetesCSIDriver"))
  | CSIDriver (name : string) : method (Model "KubernetesCSIDriverDetail")
  | CSINodes : method (list (Model "KubernetesCSINode"))
  | CSINode (name : string) : method (Model "KubernetesCSINodeDetail")
  | HelmReleaseHistory (namespace releaseName : string) : method (Model "HelmReleaseHistory")
  | ResourceQuotas (namespace : string) : method (list (Model "KubernetesResourceQuota"))
  | LimitRanges (namespace : string) : method (list (Model "KubernetesLimitRange"))
  | HorizontalPodAutoscalers (namespace : string) :
      method (list (Model "KubernetesHorizontalPodAutoscaler"))
  | PodDisruptionBudgets (namespace : string) :
      method (list (Model "KubernetesPodDisruptionBudget"))
  | AccessResources (kind : KubernetesAccessResourceKind) (namespace : string) :
      method (list (Model "KubernetesAccessResource"))
  | AccessResourceDetail (reference : KubernetesAccessResourceReference) :
      method (Model "KubernetesAccessResourceDetail")
  | ReviewServiceAccountAccess (input : KubernetesServiceAccountAccessReviewInput) :
      method KubernetesCapabilityState
  | WorkloadDetail (reference : WorkloadReference) : method (Model "WorkloadDetail")
  | DeploymentRevisionHistory (reference : WorkloadReference) :
      method (Model "DeploymentRevisionHistory")
  | WorkloadEvents (reference : WorkloadReference) (limit : Z) :
      method (list (Model "KubernetesEvent"))
  | PodLogs (input : PodLogRequest) : method (Model "PodLogs")
  | ScaleWorkload (reference : WorkloadReference) (resourceVersion : string) (replicas : Z) :
      method (Model "Workload")
  | RestartWorkload (reference : WorkloadReference) (resourceVersion : string) (now : time) :
      method (Model "Workload")
  | PreviewWorkloadImage (change : WorkloadImageChange) : method (Model "WorkloadImagePreview")
  | UpdateWorkloadImage (change : WorkloadImageChange) : method (Model "Workload").

(** The three methods that change the cluster. *)
Definition mutates {A} (m : method A) : bool :=
  match m with
  | ScaleWorkload _ _ _ | RestartWorkload _ _ _ | UpdateWorkloadImage _ => true
  | _ => false
  end.
End methods.
End KubeGateway.

(** ** Effects *)

(** The answer of [gatewayCache.Get] up to the point where this caller must build
    the gateway itself: the result of the call, or the build it has started. *)
Inductive cache_answer `{Platform} : Type :=
  | CacheReturned (r : result Gateway)
  | CacheBuild (generation : Z) (pending : nat).

Section effects.
Context `{Platform} `{UnicodeTables}.

Inductive effect : Type → Type :=
  (** [ctx.Err()], [s.clock().UTC()] and [s.newID(prefix)] *)
  | CtxErr (ctx : Ctx) : effect (option error)
  | Clock : effect time
  | NewID (prefix : string) : effect (result string)
  (** [Store] *)
  | StoreRead {A} (ctx : Ctx) (r : store_read A) : effect (result A)
  | StoreWrite (ctx : Ctx) (c : Store.call) : effect (result unit)
  (** [SecretCipher], [TargetValidator], [RepositoryChecker] *)
  | SealString (plaintext associatedData : string) : effect (result string)
  | OpenString (encoded associatedData : string) : effect (result string)
  | ValidateTarget (ctx : Ctx) (rawURL : string) : effect (result unit)
  | CheckRepository (ctx : Ctx) (connection : RepositoryConnection) : effect (result unit)
  (** [KubeFactory] (a gateway and an error, either of which may be nil) and [KubeGateway] *)
  | FactoryNew (ctx : Ctx) (connection : Connection) : effect (option Gateway * option error)
  | GatewayCall {A} (ctx : Ctx) (gateway : Gateway) (m : KubeGateway.method A) : effect (result A)
  | CloseIdle (gateways : list Gateway) : effect unit
  (** [gatewayCache] *)
  | CacheEnter (ctx : Ctx) (clusterID : string) (fingerprint : list Z) : effect cache_answer
  | CacheFinish (clusterID : string) (fingerprint : list Z) (generation : Z) (pending : nat)
      (built : option Gateway) (buildErr : option error) : effect (result Gateway)
  | CacheInvalidate (clusterID : string) : effect unit
  | CacheReconcile (snapshot : Governor.Snapshot) : effect unit
  | CacheClose : effect unit
  | CacheSnapshot : effect GatewayCache.CacheSnapshot
  (** [ReadGovernor] and [OperationGovernor]; a release function is named by its number *)
  | ReadTryAcquire : effect (Governor.Snapshot * option nat)
  | ReadRelease (r : nat) : effect unit
  | ReadSnapshot : effect Governor.Snapshot
  | OperationAcquire (ctx : Ctx) : effect (result (Governor.Snapshot * nat))
  | OperationRelease (r : nat) : effect unit
  | OperationSnapshot : effect Governor.Snapshot
  (** the target locks: a send on the stripe's channel, with [ctx.Done()] or a
      default as the other branch, and the receive that unlocks *)
  | LockSend (ctx : Ctx) (stripe : Z) : effect (result unit)
  | LockTrySend (stripe : Z) : effect bool
  | LockReceive (stripe : Z) : effect unit
  (** the critical sections of [operationControls], and a control's cancel function *)
  | ControlsRegister (id : string) : effect (nat * option nat)
  | ControlsTake (id : string) : effect (option nat)
  | ControlsRemove (id : string) (control : nat) : effect unit
  | ControlsDrain : effect (list nat)
  | CancelControl (control : nat) : effect unit
  (** the operation queue, and [Run] *)
  | Enqueue (job : operationJob) : effect bool
  | QueueSize : effect (Z * Z)
  | RunOnce (workers : Z) : effect bool
  | AwaitDone (ctx : Ctx) : effect unit
  (** [HelmGateway] *)
  | HelmList (ctx : Ctx) (connection : Connection) (namespace : string) :
      effect (result (list (Model "HelmRelease")))
  | HelmExecute (ctx : Ctx) (kind : OperationKind) (request : HelmRequest) : effect (result unit).

(** ** Programs *)

Inductive prog (A : Type) : Type :=
  | Ret (a : A)
  | Vis {X} (e : effect X) (k : X → prog A).
#[global] Arguments Ret {A} a.
#[global] Arguments Vis {A X} e k.

Fixpoint prog_bind {A B} (f : A → prog B) (p : prog A) : prog B :=
  match p with
  | Ret a => f a
  | Vis e k => Vis e (λ x, prog_bind f (k x))
  end.

#[global] Instance prog_MRet : MRet prog := @Ret.
#[global] Instance prog_MBind : MBind prog := @prog_bind.

Definition perform {X} (e : effect X) : prog X := Vis e Ret.

(** [x, err := p; if err != nil { return err }], and [return wrap(err)]. *)
Definition try {A B} (p : prog (result A)) (k : A → prog (result B)) : prog (result B) :=
  r ← p; match r with Ok a => k a | Err e => Ret (Err e) end.

Definition wrapping {A} (message : string) (p : prog (result A)) : prog (result A) :=
  r ← p; Ret match r with Ok a => Ok a | Err e => Err (Errorf message e) end.

(** [defer cleanup()]. *)
Definition defer {A} (cleanup : prog unit) (body : prog A) : prog A :=
  a ← body; _ ← cleanup; Ret a.

(** ** Monitors

    A monitor watches one program: [mon e x s] judges effect [e] answered with [x]
    in the monitor's state [s].  [Allowed s'] goes on in state [s'], [Violation]
    is what must not happen, and [Impossible] is an answer the environment cannot
    give.  [safe] holds when no possible answers lead to a violation, and [Q]
    holds of the result and the final state. *)
Inductive verdict (S : Type) : Type :=
  | Allowed (s : S)
  | Violation
  | Impossible.
#[global] Arguments Allowed {S} s.
#[global] Arguments Violation {S}.
#[global] Arguments Impossible {S}.

Definition allow_if {S} (b : bool) (s : S) : verdict S := if b then Allowed s else Violation.

Definition monitor (S : Type) : Type := ∀ X, effect X → X → S → verdict S.

Section safe.
Context {S : Type} (mon : monitor S).
Arguments mon {X} _ _ _.

Fixpoint safe {A} (p : prog A) (s : S) (Q : A → S → Prop) : Prop :=
  match p with
  | Ret a => Q a s
  | Vis e k => ∀ x,
      match mon e x s with
      | Allowed s' => safe (k x) s' Q
      | Violation => False
      | Impossible => True
      end
  end.

Lemma safe_bind {A B} (p : prog A) (f : A → prog B) s Q :
  safe (p ≫= f) s Q ↔ safe p s (λ a s', safe (f a) s' Q).
Proof.
  revert s. induction p as [a|X e k IH]; intros s; [done|].
  cbn. split; intros Hs x; specialize (Hs x); destruct (mon e x s); (done || by apply IH).
Qed.

Lemma safe_mono {A} (p : prog A) s (Q Q' : A → S → Prop) :
  (∀ a s', Q a s' → Q' a s') → safe p s Q → safe p s Q'.
Proof.
  intros HQ. revert s. induction p as [a|X e k IH]; intros s; [apply HQ|].
  cbn. intros Hs x. specialize (Hs x). destruct (mon e x s); [by apply IH|done|done].
Qed.

Lemma safe_and {A} (p : prog A) s (Q Q' : A → S → Prop) :
  safe p s Q → safe p s Q' → safe p s (λ a s', Q a s' ∧ Q' a s').
Proof.
  revert s. induction p as [a|X e k IH]; intros s; [done|].
  cbn. intros Hs Hs' x. specialize (Hs x). specialize (Hs' x).
  destruct (mon e x s); [by apply IH|done|done].
Qed.

(** The rules for the ways programs are composed. *)
Lemma safe_bind_intro {A B} (p : prog A) (f : A → prog B) s Q :
  safe p s (λ a s', safe (f a) s' Q) → safe (p ≫= f) s Q.
Proof. apply safe_bind. Qed.

Lemma safe_try {A B} (p : prog (result A)) (k : A → prog (result B)) s Q :
  safe p s (λ r s', match r with Ok a => safe (k a) s' Q | Err e => Q (Err e) s' end) →
  safe (try p k) s Q.
Proof.
  intros Hp. apply safe_bind. eapply safe_mono; [|exact Hp]. by intros [a|e] s'.
Qed.

Lemma safe_wrapping {A} m (p : prog (result A)) s Q :
  safe p s (λ r s', match r with Ok a => Q (Ok a) s' | Err e => Q (Err (Errorf m e)) s' end) →
  safe (wrapping m p) s Q.
Proof.
  intros Hp. apply safe_bind. eapply safe_mono; [|exact Hp]. by intros [a|e] s'.
Qed.

Lemma safe_defer {A} (cleanup : prog unit) (body : prog A) s Q :
  safe body s (λ a s', safe cleanup s' (λ _ s'', Q a s'')) →
  safe (defer cleanup body) s Q.
Proof.
  intros Hb. apply safe_bind. eapply safe_mono; [|exact Hb].
  intros a s' Hc. by apply safe_bind.
Qed.

Lemma safe_Ret {A} (a : A) s (Q : A → S → Prop) : Q a s → safe (Ret a) s Q.
Proof. done. Qed.

Lemma safe_perform {X} (e : effect X) s Q :
  (∀ x, match mon e x s with
        | Allowed s' => Q x s' | Violation => False | Impossible => True end) →
  safe (perform e) s Q.
Proof. done. Qed.
End safe.

(** ** Running a program alone

    [answer] gives every effect's answer, threading a state of its own. *)
Fixpoint run_with {W A} (answer : ∀ X, effect X → W → W * X) (p : prog A) (w : W) : W * A :=
  match p with
  | Ret a => (w, a)
  | Vis e k => let '(w', x) := answer _ e w in run_with answer (k x) w'
  end.

(** A program whose answers are never judged impossible ends as [safe] says. *)
Lemma safe_run_with {S W A} (mon : monitor S) (answer : ∀ X, effect X → W → W * X)
    (R : W → S → Prop) (p : prog A) w s Q :
  (∀ X (e : effect X) w s, R w s →
     match mon X e (answer X e w).2 s with
     | Allowed s' => R (answer X e w).1 s'
     | Violation => True
     | Impossible => False
     end) →
  R w s → safe mon p s Q →
  ∃ s', R (run_with answer p w).1 s' ∧ Q (run_with answer p w).2 s'.
Proof.
  intros HR. revert w s. induction p as [a|X e k IH]; intros w s Hw; cbn; [by exists s|].
  intros Hs. specialize (HR X e w s Hw). destruct (answer X e w) as [w' x]. specialize (Hs x).
  simpl in HR. destruct (mon X e x s); [by eapply IH|done|done].
Qed.
End effects.

Notation "x ←? y ; z" := (try y (λ x, z))
  (at level 20, y at level 100, z at level 200, right associativity,
   format "x  ←?  y ;  '/' z") : go_scope.
Notation "y ;;? z" := (try y (λ _, z))
  (at level 100, z at level 200, right associativity) : go_scope.

#[global] Arguments safe : simpl never.
#[global] Arguments perform : simpl never.
#[global] Arguments try : simpl never.
#[global] Arguments wrapping : simpl never.
#[global] Arguments defer : simpl never.
#[global] Arguments prog_bind : simpl never.

Lemma allow_if_intro {S} b (s : S) (P : S → Prop) :
  b = true → P s →
  match allow_if b s with Allowed s' => P s' | Violation => False | Impossible => True end.
Proof. by intros ->. Qed.

(** Split the case analysis that blocks [t]. *)
Ltac split_match t :=
  lazymatch t with
  | match ?y with _ => _ end => split_match y
  | _ => destruct t eqn:?
  end.

(** One step of a proof of [safe]: take the program apart by the way it is
    composed, evaluate the monitor at an effect, or split the case analysis the
    program starts with. *)
Ltac safe_step :=
  lazymatch goal with
  | |- safe _ (let _ := _ in _) _ _ => cbv zeta
  | |- safe _ (Ret _) _ _ => apply safe_Ret
  | |- safe _ (try _ _) _ _ => apply safe_try
  | |- safe _ (wrapping _ _) _ _ => apply safe_wrapping
  | |- safe _ (defer _ _) _ _ => apply safe_defer
  | |- safe _ (mbind _ _) _ _ => apply safe_bind_intro
  | |- safe _ (prog_bind _ _) _ _ => apply safe_bind_intro
  | |- safe _ (perform _) _ _ => apply safe_perform; intros ?; cbn
  | |- safe _ (match ?x with _ => _ end) _ _ => split_match x; cbn
  | |- match allow_if _ _ with _ => _ end => apply allow_if_intro
  | |- match ?x with _ => _ end => split_match x; cbn
  end.

(** Evaluate the comparisons that are settled by computation or by a hypothesis. *)
Ltac settle :=
  repeat match goal with
    | |- context [bool_decide (?a = ?b)] =>
        first
          [ rewrite (bool_decide_eq_true_2 (a = b)) by done
          | rewrite (bool_decide_eq_false_2 (a = b)) by done ]
    end; cbn.
