(* ===== verification/ChartRepo.v ===== *)
(** * Checking a chart repository (src/internal/chartrepo/checker.go)

    One download of the repository's index with its credentials, over the redirects that
    [http.Client] follows by default. *)

From S2P Require Export ChartGetter Program.

Local Open Scope Z_scope.
Local Open Scope stdpp_scope.
Local Open Scope io_scope.

Definition maxIndexBytes : Z := 2 * 1024 * 1024.

(** [yaml.Unmarshal] into the index: its version, and the names of its entries. *)
Class IndexDecoder := UnmarshalIndex : string → result (string * list string).

Module Checker.
Section checker.
Context `{URLParser} `{URLReferences} `{IndexDecoder}.

(** The client: its transport dials with the policy and no limits of its own, and its
    redirects are the default ones. *)
Definition client : Client := mkClient (λ request, trigger (RoundTrip request)) defaultCheckRedirect.

(** The URL of the index. *)
Definition index_url (baseURL : URL.t) : URL.t :=
  URL.mk baseURL.(URL.Scheme) baseURL.(URL.HasUser) baseURL.(URL.Host)
    (TrimRight baseURL.(URL.Path) "/" +:+ "/index.yaml") "" "".

Definition index_request (connection : RepositoryConnection) (baseURL : URL.t) : result HTTPRequest :=
  match NewRequest "GET" (URLString (index_url baseURL)) with
  | Err err => Err (Errorf "create repository request: " err)
  | Ok request =>
      let request := SetHeader request "Accept" "application/yaml, text/yaml, text/plain" in
      Ok (if bool_decide (connection.(RepositoryConnection.Username) = "") then request
          else SetBasicAuth request connection.(RepositoryConnection.Username) connection.(RepositoryConnection.Password))
  end.

(** [Check] once the server has answered. *)
Definition check_index (response : HTTPResponse) : result unit :=
  reject_if ((response.(HTTPResponse.StatusCode) <? 200) || (300 <=? response.(HTTPResponse.StatusCode))) ErrUpstream ;;
  payload ← (match ReadAll (LimitReader (maxIndexBytes + 1) response) with Ok payload => Ok payload | Err _ => Err ErrUpstream end);
  reject_if (maxIndexBytes <? len payload) ErrUpstream ;;
  '(version, entries) ← (match UnmarshalIndex payload with Ok index => Ok index | Err _ => Err ErrUpstream end);
  reject_if (bool_decide (TrimSpace version = "") || bool_decide (entries = [])) (NewError "repository index contains no charts").

Definition Check (policy : option (list Prefix.t)) (connection : RepositoryConnection) : io http (result unit) :=
  match policy with
  | None => Return (Err (NewError "outbound policy is required"))
  | Some allowed =>
      baseURL ← validate allowed connection.(RepositoryConnection.URL);
      match baseURL with
      | Err _ => Return (Err ErrUpstream)
      | Ok baseURL =>
          match index_request connection baseURL with
          | Err err => Return (Err err)
          | Ok request =>
              response ← Do client request;
              match response with
              | Err _ => Return (Err ErrUpstream)
              | Ok response => Return (check_index response)
              end
          end
      end
  end.

(** ** What a check asks *)

(** The index a finished check has seen. *)
Definition index_of (a : HTTPResponse) (version : string) (entries : list string) : Prop :=
  200 ≤ a.(HTTPResponse.StatusCode) < 300 ∧ a.(HTTPResponse.Broken) = false ∧ len a.(HTTPResponse.Body) ≤ maxIndexBytes ∧
  UnmarshalIndex a.(HTTPResponse.Body) = Ok (version, entries) ∧ TrimSpace version ≠ "" ∧ entries ≠ [].

Lemma check_index_Ok a : check_index a = Ok tt → ∃ version entries, index_of a version entries.
Proof.
  unfold check_index. intros ([] & [Hlo%Z.ltb_ge Hhi%Z.leb_gt]%reject_if_Ok%orb_false_iff & Hr)%bind_Ok.
  destruct (ReadAll _) as [payload|] eqn:E; [|done]. cbn in Hr.
  apply bind_Ok in Hr as ([] & Hl%reject_if_Ok%Z.ltb_ge & Hr).
  apply LimitReader_whole in E as [-> Hb]; [|done|done].
  destruct (UnmarshalIndex _) as [[version entries]|] eqn:E; [|done]. cbn in Hr.
  apply reject_if_Ok, orb_false_iff in Hr as [Hv%bool_decide_eq_false He%bool_decide_eq_false].
  by exists version, entries.
Qed.

(** A request of a check goes out with the credentials only within the site of the
    repository, and with no others. *)
Definition repository_request (connection : RepositoryConnection) (r : HTTPRequest) : Prop :=
  r.(HTTPRequest.Method) = "GET" ∧
  ∀ value, r.(HTTPRequest.Header) !! "Authorization" = Some value →
    connection.(RepositoryConnection.Username) ≠ "" ∧
    value = basicAuth connection.(RepositoryConnection.Username) connection.(RepositoryConnection.Password) ∧
    ∃ base first, ParseRequestURI (TrimSpace connection.(RepositoryConnection.URL)) = Some base ∧ base.(URL.Scheme) = "https" ∧
      NewRequest "GET" (URLString (index_url base)) = Ok first ∧ same_site first.(HTTPRequest.URL) r.(HTTPRequest.URL).

Lemma index_request_authorization connection base request :
  index_request connection base = Ok request →
  request.(HTTPRequest.Method) = "GET" ∧
  (∃ first, NewRequest "GET" (URLString (index_url base)) = Ok first ∧ request.(HTTPRequest.URL) = first.(HTTPRequest.URL)) ∧
  ∀ value, request.(HTTPRequest.Header) !! "Authorization" = Some value →
    connection.(RepositoryConnection.Username) ≠ "" ∧
    value = basicAuth connection.(RepositoryConnection.Username) connection.(RepositoryConnection.Password).
Proof.
  unfold index_request. destruct (NewRequest _ _) as [first|] eqn:E; [|done].
  assert (first.(HTTPRequest.Method) = "GET" ∧ first.(HTTPRequest.Header) = ∅) as [Hm Hh].
  { unfold NewRequest in E. destruct (ParseURL _); [|done]. by injection E as <-. }
  intros [= <-]. case_bool_decide as Hu; cbn; rewrite Hh; (split; [done|]; split; [by exists first|]).
  - intros value. rewrite lookup_insert_ne by done. by rewrite lookup_empty.
  - intros value. rewrite lookup_insert_eq. by intros [= <-].
Qed.

Lemma redirected_authorization first request method u strip value :
  (redirected first request method u strip).(HTTPRequest.Header) !! "Authorization" = Some value →
  strip = false ∧ first.(HTTPRequest.Header) !! "Authorization" = Some value.
Proof.
  unfold redirected. cbn. intros Hv. assert (copyHeaders first.(HTTPRequest.Header) strip !! "Authorization" = Some value) as Hc.
  { revert Hv. case_bool_decide; [done|]. rewrite lookup_insert_ne by done. done. }
  destruct strip; [|done]. revert Hc. cbn. by rewrite lookup_delete_eq.
Qed.

End checker.
End Checker.

(** ** An example *)

#[local] Existing Instance plain_parser.
#[local] Existing Instance plain_references.
#[local] Instance example_index : IndexDecoder := λ text, Ok (text, ["nginx"]).

Definition example_check (answers : list (result HTTPResponse)) : list (string * string * option string) * result unit :=
  let '(sent, checked) := run_http (Checker.Check (Some [])
    (RepositoryConnection.mk "https://charts.example.com/stable/" "reader" "secret")) answers in (asked <$> sent, checked).

Example index_is_checked : example_check [content "v1"] =
  ([("https", "charts.example.com", Some "Basic cmVhZGVyOnNlY3JldA==")], Ok tt) ∧ (example_check [content ""]).2 = Err (NewError "repository index contains no charts").
Proof. by vm_compute. Qed.

(** Nothing looks at where a check is redirected to: when the repository redirects to plain
    HTTP on its own host, the credentials follow in the clear. *)
Example credentials_in_the_clear : example_check [redirect_to "http://charts.example.com/index.yaml"; content "v1"] =
  ([("https", "charts.example.com", Some "Basic cmVhZGVyOnNlY3JldA=="); ("http", "charts.example.com", Some "Basic cmVhZGVyOnNlY3JldA==")], Ok tt).
Proof. by vm_compute. Qed.
