(* ===== verification/HelmAdapter.v ===== *)
(** * The Helm adapter (src/internal/helmadapter/adapter.go, oci.go)

    Listing, installing, upgrading, rolling back and removing releases.  The Helm SDK, its
    registry client and the YAML reader are the class [HelmSDK] and effects; what this
    code makes of them, the workspace on the disk and every request they send through the
    code's own HTTP clients are modelled. *)

From S2P Require Export ChartGetter Program Paging.

Local Open Scope Z_scope.
Local Open Scope stdpp_scope.
Local Open Scope io_scope.

(** ** path/filepath *)

(** [Clean], one element after the other: [stack] are those kept, the last first. *)
Definition clean_step (rooted : bool) (stack : list string) (element : string) : list string :=
  if bool_decide (element ∈ [""; "."]) then stack
  else if bool_decide (element = "..") then
    match stack with
    | ".." :: _ => element :: stack
    | _ :: stack => stack
    | [] => if rooted then [] else [element]
    end
  else element :: stack.

Definition Clean (path : string) : string :=
  let rooted := HasPrefix path "/" in
  let elements := rev (foldl (clean_step rooted) [] (Split path "/")) in
  let cleaned := (if rooted then "/" else "") +:+ GoText.Join elements "/" in
  if bool_decide (cleaned = "") then "." else cleaned.

Definition JoinPath (directory name : string) : string := Clean (directory +:+ "/" +:+ name).

(** ** The Helm SDK *)

(** What the SDK asks of a getter while it looks for a chart in a repository, and of an
    HTTP client while it talks to a registry. *)
Inductive fetching : Type → Type := Fetch (url : string) : fetching (result string).
Inductive sending : Type → Type := Send (r : HTTPRequest) : sending (result HTTPResponse).

Module ChartPathOptions.
Record t : Type := mk {
  Version : string; RepoURL : string; Username : string; Password : string;
  PassCredentialsAll : bool; InsecureSkipTLSverify : bool; PlainHTTP : bool;
}.
End ChartPathOptions.
Notation ChartPathOptions := ChartPathOptions.t.

Class HelmSDK := {
  (** a chart that was loaded; the settings [cli.New] makes of the process's environment *)
  Chart : Type;
  Environment : Type;
  cli_New : Environment;
  (** [chartutil.ReadValues] and [json.Marshal] of what it has read *)
  YAML : Type;
  ReadValues : string → result YAML;
  MarshalValues : YAML → result string;
  LoadArchive : string → result Chart;
  (** [repo.FindChartInAuthAndTLSAndPassRepoURL] with the getter for https *)
  FindChart : ChartPathOptions → string → io fetching (result string);
  (** [registry.NewClient], and [ValidateReference] and [Pull] of the client: the chart's
      data, nil or not *)
  NewRegistryClient : result unit;
  ResolveReference : string → string → URL.t → io sending (result URL.t);
  Pull : string → io sending (result (option string));
}.

(** [cli.EnvSettings], as the adapter fills it. *)
Module EnvSettings.
Record t `{HelmSDK} : Type := mk {
  environment : Environment;
  KubeAPIServer : string; KubeToken : string; KubeInsecureSkipTLSVerify : bool; KubeTLSServerName : option string;
  KubeCaFile : option string;
  RepositoryConfig : string; RepositoryCache : string; RegistryConfig : string; PluginsDirectory : string;
  Namespace : string;
}.
Arguments mk {_}.
End EnvSettings.
Notation EnvSettings := EnvSettings.t.

(** [rest.Config] as [WrapConfigFn] leaves it: connections are dialed with the policy
    and never with a proxy. *)
Module RESTConfig.
Record t `{HelmSDK} : Type := mk { Settings : EnvSettings; Dial : list Prefix.t; Timeout : duration }.
Arguments mk {_}.
End RESTConfig.
Notation RESTConfig := RESTConfig.t.

(** [action.Configuration] after [Init]. *)
Module Configuration.
Record t `{HelmSDK} : Type := mk { REST : RESTConfig; Namespace : string; Driver : string }.
Arguments mk {_}.
End Configuration.
Notation Configuration := Configuration.t.

(** The actions of the SDK that the adapter runs, with the fields it sets. *)
Inductive action `{HelmSDK} : Type :=
  | Install (options : ChartPathOptions) (ReleaseName Namespace : string) (Timeout : duration)
      (Atomic Wait WaitForJobs CreateNamespace DependencyUpdate EnableDNS HideNotes : bool) (chart : Chart) (values : list Json.member)
  | Upgrade (options : ChartPathOptions) (ReleaseName Namespace : string) (Timeout : duration)
      (Atomic CleanupOnFail Wait WaitForJobs DependencyUpdate EnableDNS : bool) (MaxHistory : Z) (HideNotes : bool)
      (chart : Chart) (values : list Json.member)
  | Rollback (ReleaseName : string) (Version : Z) (Timeout : duration) (Wait WaitForJobs CleanupOnFail : bool)
  | Uninstall (ReleaseName : string) (Timeout : duration) (Wait : bool) (DeletionPropagation : string).

(** A release as the SDK returns it. *)
Module Release.
Record Info : Type := mkInfo { Status : string; LastDeployed : time }.
Record Metadata : Type := mkMetadata { ChartName : string; ChartVersion : string; AppVersion : string }.
Record t : Type := mk { Name : string; Namespace : string; Version : Z; Info_ : option Info; Chart_ : option (option Metadata) }.
End Release.
Notation Release := Release.t.

Module HelmRelease.
Record t : Type := mk {
  Name : string; Namespace : string; Revision : Z; Status : string; Chart : string; AppVersion : string; UpdatedAt : time;
}.
End HelmRelease.
Notation HelmRelease := HelmRelease.t.

(** ** Effects *)

(** The adapter's requests, its workspace on the disk, and what it runs of the SDK. *)
Inductive helm `{HelmSDK} : Type → Type :=
  | Http {X} (e : http X) : helm X
  | CtxErr : helm (option error)
  | MkdirTemp (pattern : string) : helm (result string)
  | Mkdir (path : string) : helm (result unit)
  | WriteFile (path contents : string) : helm (result unit)
  | RemoveAll (path : string) : helm unit
  (** whether [RESTClientGetter] is of the type that is expected; [Init]; the list of all
      releases in every state *)
  | IsConfigFlags (settings : EnvSettings) : helm bool
  | Init (configuration : Configuration) : helm (result unit)
  | RunList (configuration : Configuration) (AllNamespaces : bool) : helm (result (list Release))
  | Run (configuration : Configuration) (a : action) : helm (result unit).

Definition http_effects `{HelmSDK} {A} (m : io http A) : io helm A := interpret (λ _ e, trigger (Http e)) m.

Module Adapter.
Record t : Type := mk { timeout : duration; policy : option (list Prefix.t) }.

Definition New (timeout : duration) (policy : option (list Prefix.t)) : t :=
  mk (if timeout <=? 0 then 5 * minute else timeout) policy.

Section adapter.
Context `{URLParser} `{URLReferences} `{UnicodeTables} `{HelmSDK}.

Definition classifyHelmError (err : error) : error :=
  let message := ToLower (ErrorText err) in
  if Contains message "cannot re-use a name" || Contains message "another operation" then ErrConflict
  else if Is err DeadlineExceeded || Is err Canceled then ErrTimeout
  else ErrUpstream.

(** [if err := m; err != nil { return classifyHelmError(err) }]. *)
Definition classified {A} (m : io helm (result A)) : io helm (result A) :=
  r ← m; Return match r with Ok a => Ok a | Err err => Err (classifyHelmError err) end.

Definition validateConnection (a : t) (connection : Connection) : io helm (result unit) :=
  match a.(policy) with
  | None => Return (Err (NewError "outbound policy is required"))
  | Some allowed =>
      valid ← http_effects (validate allowed connection.(Connection.Server));
      Return match valid with Ok _ => Ok tt | Err _ => Err ErrUpstream end
  end.

(** [actionConfiguration]: the workspace is removed here when a step fails, and by the
    caller otherwise. *)
Fixpoint make_directories (workspace : string) (directories : list string) : io helm (result unit) :=
  match directories with
  | [] => Return (Ok tt)
  | directory :: directories =>
      made ← trigger (Mkdir (JoinPath workspace directory));
      match made with
      | Err err => _ ← trigger (RemoveAll workspace); Return (Err (Errorf "create Helm workspace directory: " err))
      | Ok _ => make_directories workspace directories
      end
  end.

Definition write_ca (workspace CACert : string) : io helm (result (option string)) :=
  if bool_decide (CACert = "") then Return (Ok None) else
  let caPath := JoinPath workspace "cluster-ca.pem" in
  written ← trigger (WriteFile caPath CACert);
  match written with
  | Err err => _ ← trigger (RemoveAll workspace); Return (Err (Errorf "write Helm CA file: " err))
  | Ok _ => Return (Ok (Some caPath))
  end.

Definition settings_for (connection : Connection) (workspace : string) (caFile : option string) (namespace : string) : EnvSettings :=
  EnvSettings.mk cli_New connection.(Connection.Server) connection.(Connection.BearerToken) false
    (Outbound.Hostname ∘ URL.Host <$> ParseURL connection.(Connection.Server)) caFile
    (JoinPath workspace "repositories.yaml") (JoinPath workspace "cache") (JoinPath workspace "registry.json")
    (JoinPath workspace "plugins") namespace.

(** The configuration, and the workspace to clean up. *)
Definition actionConfiguration (connection : Connection) (namespace : string) (policy : option (list Prefix.t))
    (timeout : duration) : io helm (result (Configuration * string)) :=
  match policy with
  | None => Return (Err (NewError "outbound policy is required"))
  | Some allowed =>
      made ← trigger (MkdirTemp "k8s-panel-helm-");
      match made with
      | Err err => Return (Err (Errorf "create Helm workspace: " err))
      | Ok workspace =>
          make_directories workspace ["cache"; "plugins"] ;~
          caFile ←~ write_ca workspace connection.(Connection.CACert);
          let namespace := if bool_decide (namespace = "") then "default" else namespace in
          let settings := settings_for connection workspace caFile namespace in
          expected ← trigger (IsConfigFlags settings);
          if negb expected then
            _ ← trigger (RemoveAll workspace); Return (Err (NewError "unsupported Kubernetes REST client configuration"))
          else
          let configuration := Configuration.mk (RESTConfig.mk settings allowed timeout) namespace "secret" in
          ready ← trigger (Init configuration);
          match ready with
          | Err err => _ ← trigger (RemoveAll workspace); Return (Err (Errorf "initialize Helm client: " err))
          | Ok _ => Return (Ok (configuration, workspace))
          end
      end
  end.

(** [defer cleanup()]. *)
Definition cleaning {A} (workspace : string) (body : io helm A) : io helm A :=
  a ← body; _ ← trigger (RemoveAll workspace); Return a.

(** ** Releases *)

Definition release_view (item : Release) : HelmRelease :=
  let '(Release.mk name namespace version info chart) := item in
  let '(chartName, appVersion) :=
    match chart with
    | Some (Some (Release.mkMetadata chartName chartVersion appVersion)) =>
        (chartName +:+ (if bool_decide (chartVersion = "") then "" else "-" +:+ chartVersion), appVersion)
    | _ => ("", "")
    end in
  HelmRelease.mk name namespace version (from_option Release.Status "" info) chartName appVersion
    (from_option Release.LastDeployed time_zero info).

Definition List (a : t) (connection : Connection) (namespace : string) : io helm (result (list HelmRelease)) :=
  validateConnection a connection ;~
  opened ←~ actionConfiguration connection namespace a.(policy) a.(timeout);
  cleaning opened.2 (
    cancelled ← trigger CtxErr;
    match cancelled with
    | Some err => Return (Err err)
    | None =>
        releases ←~ classified (trigger (RunList opened.1 (bool_decide (namespace = ""))));
        Return (Ok (sort_Slice (by_namespace HelmRelease.Namespace HelmRelease.Name) (release_view <$> releases)))
    end).

(** ** Charts and values *)

Definition parseValues (raw : string) : result (list Json.member) :=
  if bool_decide (TrimSpace raw = "") then Ok [] else
  match ReadValues raw with
  | Err _ => Err (Invalid "values" "must be valid YAML with a mapping root")
  | Ok values =>
      match MarshalValues values with
      | Err _ => Err (Invalid "values" "contains unsupported values")
      | Ok encoded =>
          match Json.parse encoded with
          | Some (_, Json.Object members) => Ok members
          | _ => Err (Invalid "values" "must have a mapping root")
          end
      end
  end.

Definition chartOptions (chartReference version : string) (repository : option RepositoryConnection) : result ChartPathOptions :=
  let chartReference := TrimSpace chartReference in
  if HasPrefix chartReference "oci://" then
    let bad := match ParseURL chartReference with
      | None => true
      | Some parsed => bool_decide (parsed.(URL.Host) = "") || bool_decide (parsed.(URL.Path) = "") || parsed.(URL.HasUser) ||
          negb (bool_decide (parsed.(URL.RawQuery) = "")) || negb (bool_decide (parsed.(URL.Fragment) = ""))
      end in
    reject_if bad (Invalid "chart" "invalid OCI reference") ;;
    Ok (ChartPathOptions.mk version "" "" "" false false false)
  else
    let refused := Err (Invalid "chart" "local and unconfigured chart references are not allowed") in
    match repository with
    | None => refused
    | Some (RepositoryConnection.mk url username password) =>
        if bool_decide (url = "") || HasPrefix chartReference "/" || Contains chartReference ".." ||
           Contains chartReference "\" || Contains chartReference "://"
        then refused else Ok (ChartPathOptions.mk version url username password false false false)
    end.

Definition loadOCIChart (reference version : string) (policy : option (list Prefix.t)) : io helm (result Chart) :=
  match policy with
  | None => Return (Err (NewError "outbound policy is required"))
  | Some allowed =>
      valid ← http_effects (validate allowed ("https://" +:+ TrimPrefix reference "oci://"));
      match valid with
      | Err err => Return (Err (Errorf "validate OCI registry: " err))
      | Ok _ =>
      match ParseURL reference with
      | None => Return (Err (Errorf "parse OCI reference: " (NewError "parse")))
      | Some parsed =>
      let registry {A} (m : io sending A) : io helm A :=
        http_effects (interpret (λ X (e : sending X),
          match e in sending X return io http X with Send r => HttpClient.Do (newPolicyHTTPClient allowed) r end) m) in
      match NewRegistryClient with
      | Err err => Return (Err (Errorf "create OCI registry client: " err))
      | Ok _ =>
      resolved ← registry (ResolveReference reference version parsed);
      match resolved with
      | Err err => Return (Err (Errorf "resolve OCI chart version: " err))
      | Ok resolved =>
      pulled ← registry (Pull (TrimPrefix (URLString resolved) "oci://"));
      match pulled with
      | Err err => Return (Err (Errorf "pull OCI chart: " err))
      | Ok data =>
          Return (let data := default "" data in
                  reject_if (bool_decide (data = "")) (NewError "OCI artifact contains no Helm chart") ;;
                  reject_if (maxChartArchiveBytes <? len data) (NewError "OCI chart exceeds size limit") ;;
                  LoadArchive data)
      end end end end end
  end.

Definition locateAndLoadChart (reference : string) (options : ChartPathOptions) (policy : option (list Prefix.t))
    (timeout : duration) : io helm (result Chart) :=
  if HasPrefix reference "oci://" then loadOCIChart reference options.(ChartPathOptions.Version) policy else
  match policy with
  | None => Return (Err (NewError "outbound policy is required"))
  | Some allowed => http_effects (
      chartGetter ←~ newSecureHTTPGetter (Some allowed) options.(ChartPathOptions.RepoURL)
        options.(ChartPathOptions.Username) options.(ChartPathOptions.Password) timeout;
      chartURL ←~ interpret (λ X (e : fetching X),
        match e in fetching X return io http X with Fetch url => Get allowed chartGetter url end) (FindChart options reference);
      archive ←~ Get allowed chartGetter chartURL;
      Return (LoadArchive archive))
  end.

Definition install (a : t) (configuration : Configuration) (request : HelmRequest) : io helm (result unit) :=
  let input := request.(HelmRequest.Input) in
  values ←~ Return (parseValues input.(HelmOperationInput.Values));
  options ←~ Return (chartOptions input.(HelmOperationInput.Chart) input.(HelmOperationInput.Version) request.(HelmRequest.Repository));
  chart ←~ classified (locateAndLoadChart input.(HelmOperationInput.Chart) options a.(policy) a.(timeout));
  classified (trigger (Run configuration (Install options input.(HelmOperationInput.ReleaseName)
    input.(HelmOperationInput.Namespace) a.(timeout) true true true false false false true chart values))).

Definition upgrade (a : t) (configuration : Configuration) (request : HelmRequest) : io helm (result unit) :=
  let input := request.(HelmRequest.Input) in
  values ←~ Return (parseValues input.(HelmOperationInput.Values));
  options ←~ Return (chartOptions input.(HelmOperationInput.Chart) input.(HelmOperationInput.Version) request.(HelmRequest.Repository));
  chart ←~ classified (locateAndLoadChart input.(HelmOperationInput.Chart) options a.(policy) a.(timeout));
  classified (trigger (Run configuration (Upgrade options input.(HelmOperationInput.ReleaseName)
    input.(HelmOperationInput.Namespace) a.(timeout) true true true true false false 10 true chart values))).

Definition Execute (a : t) (kind : OperationKind) (request : HelmRequest) : io helm (result unit) :=
  let input := request.(HelmRequest.Input) in
  validateConnection a request.(HelmRequest.Connection) ;~
  opened ←~ actionConfiguration request.(HelmRequest.Connection) input.(HelmOperationInput.Namespace) a.(policy) a.(timeout);
  cleaning opened.2 (
    if bool_decide (kind = OperationHelmInstall) then install a opened.1 request
    else if bool_decide (kind = OperationHelmUpgrade) then upgrade a opened.1 request
    else if bool_decide (kind = OperationHelmRollback) then
      classified (trigger (Run opened.1 (Rollback input.(HelmOperationInput.ReleaseName) input.(HelmOperationInput.Revision)
        a.(timeout) true true true)))
    else if bool_decide (kind = OperationHelmUninstall) then
      classified (trigger (Run opened.1 (Uninstall input.(HelmOperationInput.ReleaseName) a.(timeout) true "foreground")))
    else Return (Err (Invalid "kind" "unsupported Helm operation"))).
End adapter.
End Adapter.

(** ** What an execution does *)

Section executions.
Context `{URLParser} `{URLReferences} `{UnicodeTables} `{HelmSDK}.
Context (allowed : list Prefix.t) (connection : Connection).

(** A watched execution: the traffic, whether the policy has accepted the cluster's
    server, the workspaces on the disk, the configuration that is ready, and what was run. *)
Record doing : Type := mkDoing {
  web : traffic;
  connected : bool;
  workspaces : list string;
  ready : option Configuration;
  ran : list action;
}.

Definition idle : doing := mkDoing no_traffic false [] None [].

Definition accepts (resolver' : Outbound.resolution) : bool :=
  is_ok (Outbound.ValidateHTTPSURL allowed resolver' connection.(Connection.Server)).

Definition note (s : doing) X (e : helm X) : X → doing :=
  let '(mkDoing web connected workspaces ready ran) := s in
  match e in helm X return X → doing with
  | Http e => λ x, mkDoing (observe web _ e x)
      (connected || match e in http X return X → bool with Resolver => accepts | RoundTrip _ => λ _, false end x) workspaces ready ran
  | MkdirTemp _ => λ x, mkDoing web connected (match x with Ok w => w :: workspaces | Err _ => workspaces end) ready ran
  | RemoveAll path => λ _, mkDoing web connected (base.filter (λ w, w ≠ path) workspaces) ready ran
  | Init c => λ x, mkDoing web connected workspaces (match x with Ok _ => Some c | Err _ => ready end) ran
  | Run _ a => λ _, mkDoing web connected workspaces ready (ran ++ [a])
  | _ => λ _, s
  end.

(** The configuration an execution may use: the cluster's, with verified certificates and
    connections that the policy dials. *)
Definition own_configuration (c : Configuration) : Prop :=
  let rest := c.(Configuration.REST) in
  rest.(RESTConfig.Dial) = allowed ∧
  rest.(RESTConfig.Settings).(EnvSettings.KubeAPIServer) = connection.(Connection.Server) ∧
  rest.(RESTConfig.Settings).(EnvSettings.KubeToken) = connection.(Connection.BearerToken) ∧
  rest.(RESTConfig.Settings).(EnvSettings.KubeInsecureSkipTLSVerify) = false.

Context (may_request : HTTPRequest → Prop) (intended : action → Prop).

Definition may_do (s : doing) X (e : helm X) : Prop :=
  match e with
  | Http Resolver => True
  | Http (RoundTrip r) => s.(connected) = true ∧ validated_url allowed s.(web) r.(HTTPRequest.URL) ∧ may_request r
  | MkdirTemp _ => s.(connected) = true ∧ s.(workspaces) = []
  | Mkdir path | WriteFile path _ => ∃ w name, s.(workspaces) = [w] ∧ path = JoinPath w name
  | RemoveAll path => s.(workspaces) = [path]
  | Init c => s.(connected) = true ∧ own_configuration c ∧ length s.(workspaces) = 1%nat
  | RunList c _ => s.(ready) = Some c ∧ length s.(workspaces) = 1%nat
  | Run c a => s.(ready) = Some c ∧ length s.(workspaces) = 1%nat ∧ s.(ran) = [] ∧ intended a
  | CtxErr | IsConfigFlags _ => True
  end.

Notation watching := (watched may_do note).

(** The effects of the HTTP layer, once the cluster's server was accepted. *)
Definition may_fetch (w : traffic) X (e : http X) : Prop :=
  match e with
  | Resolver => True
  | RoundTrip r => validated_url allowed w r.(HTTPRequest.URL) ∧ may_request r
  end.

Definition with_web (s : doing) (w : traffic) : doing := mkDoing w s.(connected) s.(workspaces) s.(ready) s.(ran).

Lemma watched_http {A} (m : io http A) s Q :
  s.(connected) = true → watched may_fetch observe m s.(web) (λ a w, Q a (with_web s w)) →
  watching (http_effects m) s Q.
Proof.
  destruct s as [w c ws rd rn]. cbn. intros ->. revert w. induction m as [a|X e k IH]; intros w; [done|].
  intros [He Hk]. split; [by destruct e|]. intros x. apply IH. by apply Hk.
Qed.

Lemma watched_classified {A} (m : io helm (result A)) s Q :
  watching m s (λ r s, match r with Ok a => Q (Ok a) s | Err err => Q (Err (Adapter.classifyHelmError err)) s end) →
  watching (Adapter.classified m) s Q.
Proof. intros Hm. apply watched_bind. eapply watched_mono; [exact Hm|]. by intros [a|err] s'. Qed.

Lemma watched_validateConnection a s Q :
  a.(Adapter.policy) = Some allowed →
  (∀ w, Q (Ok tt) (mkDoing w true s.(workspaces) s.(ready) s.(ran))) →
  (∀ w, Q (Err ErrUpstream) (mkDoing w s.(connected) s.(workspaces) s.(ready) s.(ran))) →
  watching (Adapter.validateConnection a connection) s Q.
Proof.
  intros Hp Hok Herr. unfold Adapter.validateConnection. rewrite Hp. split; [done|]. intros x. destruct s as [w c ws rd rn].
  cbn. unfold accepts. destruct (Outbound.ValidateHTTPSURL _ _ _); cbn; rewrite ?orb_true_r, ?orb_false_r; [apply Hok|apply Herr].
Qed.

Lemma filter_workspace (w : string) : base.filter (λ v, v ≠ w) [w] = [].
Proof. by rewrite filter_cons_False by (intros Hn; by apply Hn). Qed.

(** A step that fails removes the workspace. *)
Lemma watched_cleaned {A} (r : A) w s (Q : A → doing → Prop) :
  s.(workspaces) = [w] → Q r (mkDoing s.(web) s.(connected) [] s.(ready) s.(ran)) →
  watching (_ ← trigger (RemoveAll w); Return r) s Q.
Proof.
  destruct s as [web c ws rd rn]. cbn. intros -> HQ. split; [done|]. intros []. by rewrite filter_workspace.
Qed.

Lemma watched_make_directories w directories s (Q : result unit → doing → Prop) :
  s.(workspaces) = [w] → Q (Ok tt) s → (∀ err, Q (Err err) (mkDoing s.(web) s.(connected) [] s.(ready) s.(ran))) →
  watching (Adapter.make_directories w directories) s Q.
Proof.
  intros Hw Hok Herr. induction directories as [|directory directories IH]; [done|]. cbn.
  split; [by exists w, directory|]. intros [[]|err]; destruct s as [web c ws rd rn]; [by apply IH|].
  by apply watched_cleaned.
Qed.

Lemma watched_write_ca w contents s (Q : result (option string) → doing → Prop) :
  s.(workspaces) = [w] → (∀ file, Q (Ok file) s) → (∀ err, Q (Err err) (mkDoing s.(web) s.(connected) [] s.(ready) s.(ran))) →
  watching (Adapter.write_ca w contents) s Q.
Proof.
  intros Hw Hok Herr. unfold Adapter.write_ca. case_bool_decide; [apply Hok|].
  split; [by exists w, "cluster-ca.pem"|]. intros [[]|err]; destruct s as [web c ws rd rn]; [apply Hok|]. by apply watched_cleaned.
Qed.

(** A configuration is ready in a workspace of its own, or nothing is left of it. *)
Lemma watched_actionConfiguration namespace timeout s (Q : result (Configuration * string) → doing → Prop) :
  s.(connected) = true → s.(workspaces) = [] →
  (∀ c w, Q (Ok (c, w)) (mkDoing s.(web) true [w] (Some c) s.(ran))) →
  (∀ err, Q (Err err) (mkDoing s.(web) true [] s.(ready) s.(ran))) →
  watching (Adapter.actionConfiguration connection namespace (Some allowed) timeout) s Q.
Proof.
  intros Hc Hw Hok Herr. destruct s as [web c ws rd rn]. simpl in Hc, Hw, Hok, Herr. subst c ws.
  apply watched_trigger; [done|]. intros [w|err]; [|apply Herr]. cbv beta iota.
  apply watched_or_fail, watched_make_directories; [done| |intros err; apply Herr].
  apply watched_or_fail, watched_write_ca; [done| |intros err; apply Herr]. intros file. cbv beta iota zeta.
  apply watched_trigger; [done|]. intros [|]; [|apply watched_cleaned; [done|apply Herr]]. cbn [negb].
  apply watched_trigger; [done|]. intros [[]|err]; [apply Hok|apply watched_cleaned; [done|apply Herr]].
Qed.

Lemma watched_cleaning {A} w (body : io helm A) s (Q : A → doing → Prop) :
  watching body s (λ a s', s'.(workspaces) = [w] ∧ Q a (mkDoing s'.(web) s'.(connected) [] s'.(ready) s'.(ran))) →
  watching (Adapter.cleaning w body) s Q.
Proof.
  intros Hb. apply watched_bind. eapply watched_mono; [exact Hb|]. intros a s' [Hw HQ]. by apply watched_cleaned.
Qed.
End executions.

Section charts.
Context `{URLParser} `{URLReferences} `{UnicodeTables} `{HelmSDK}.
Context (allowed : list Prefix.t).

(** A download may carry the credentials of the request's repository, to its host only. *)
Definition carries (repository : option RepositoryConnection) (r : HTTPRequest) : Prop :=
  ∀ value, r.(HTTPRequest.Header) !! "Authorization" = Some value → ∃ url username password,
    repository = Some (RepositoryConnection.mk url username password) ∧ username ≠ "" ∧
    authorization_of url username password r.(HTTPRequest.URL) = Some value.

Lemma chartOptions_credentials reference version repository options :
  Adapter.chartOptions reference version repository = Ok options →
  options.(ChartPathOptions.Username) = "" ∨
  repository = Some (RepositoryConnection.mk options.(ChartPathOptions.RepoURL) options.(ChartPathOptions.Username)
    options.(ChartPathOptions.Password)).
Proof.
  unfold Adapter.chartOptions. destruct (HasPrefix _ _).
  - intros ([] & _ & [= <-])%bind_Ok. by left.
  - destruct repository as [[url username password]|]; [|done]. destruct (_ || _); [done|]. intros [= <-]. by right.
Qed.

Lemma guarded_carries options repository s r :
  options.(ChartPathOptions.Username) = "" ∨
  repository = Some (RepositoryConnection.mk options.(ChartPathOptions.RepoURL) options.(ChartPathOptions.Username)
    options.(ChartPathOptions.Password)) →
  guarded allowed options.(ChartPathOptions.RepoURL) options.(ChartPathOptions.Username) options.(ChartPathOptions.Password) s r →
  validated_url allowed s r.(HTTPRequest.URL) ∧ carries repository r.
Proof.
  intros Hc [Hv Ha]. split; [done|]. intros value Hval. rewrite Hval in Ha. symmetry in Ha.
  assert (options.(ChartPathOptions.Username) ≠ "") as Hu.
  { unfold authorization_of in Ha. destruct (ParseRequestURI _); [|done]. by case_bool_decide as Hd; [destruct Hd|]. }
  destruct Hc as [Hc|Hc]; [done|]. by do 3 eexists.
Qed.

Lemma watched_download options repository g rawURL s (Q : result string → traffic → Prop) :
  options.(ChartPathOptions.Username) = "" ∨
  repository = Some (RepositoryConnection.mk options.(ChartPathOptions.RepoURL) options.(ChartPathOptions.Username)
    options.(ChartPathOptions.Password)) →
  getter_for options.(ChartPathOptions.RepoURL) options.(ChartPathOptions.Username) options.(ChartPathOptions.Password) g →
  (∀ r s, Q r s) →
  watched (may_fetch allowed (carries repository)) observe (Get allowed g rawURL) s Q.
Proof.
  intros Hc Hg HQ. eapply watched_mono; [|intros; apply HQ].
  eapply watched_weaken; [|by apply watched_Get].
  intros s' X [|r]; [done|]. intros [_ Hr]. by eapply guarded_carries.
Qed.

Lemma watched_registry {A} (m : io sending A) s (Q : A → traffic → Prop) :
  (∀ r s, Q r s) →
  watched (may_fetch allowed (λ _, True)) observe
    (interpret (λ X (e : sending X), match e in sending X return io http X with
       Send r => HttpClient.Do (newPolicyHTTPClient allowed) r end) m) s Q.
Proof.
  intros HQ. eapply watched_mono; [|intros; apply HQ].
  apply (watched_interpret _ _ _ _ (λ _, True)); [done|]. intros X [r] s' _.
  eapply watched_weaken; [|apply (watched_Do (may_send (length s'.(sent) + 5) (λ s r, validated_url allowed s r.(HTTPRequest.URL) ∧ True))
    observe _ _ 5 (λ _, True) (λ k s, (length s.(sent) ≤ length s'.(sent) + k)%nat) (λ _ _, True))]; try done; [| | |lia|lia].
  - intros s'' Y [|r']; [done|]. by intros [_ Hr].
  - intros r' k s'' _ Hk Hn. pose proof (watched_policy allowed maxChartArchiveBytes (length s'.(sent) + 5) (λ _, True) r' s''
      (length s'.(sent) + k) I Hk ltac:(lia)) as Hw.
    eapply watched_mono; [exact Hw|]. intros x s3 [Hl _]. split; [lia|done].
  - intros r' status method u strip via r'' _ _ _ ([] & Hv%reject_if_Ok%Z.leb_gt & _)%bind_Ok. unfold len_list in Hv. split; [done|lia].
Qed.
End charts.

Section runs.
Context `{URLParser} `{URLReferences} `{UnicodeTables} `{HelmSDK}.
Context (allowed : list Prefix.t) (kind : OperationKind) (request : HelmRequest).

Definition input : HelmOperationInput := request.(HelmRequest.Input).

(** A download from a repository may carry that repository's credentials, and no others. *)
Definition may_request (r : HTTPRequest) : Prop :=
  HasPrefix input.(HelmOperationInput.Chart) "oci://" = false → carries request.(HelmRequest.Repository) r.

(** What may be run: the action of the operation's kind on the release that was named,
    with the values as they were written, undone when it fails, without resolving names
    in templates and without fetching anything more. *)
Definition intended (a : action) : Prop :=
  match a with
  | Install options name namespace _ Atomic Wait _ CreateNamespace DependencyUpdate EnableDNS _ _ values =>
      kind = OperationHelmInstall ∧ name = input.(HelmOperationInput.ReleaseName) ∧ namespace = input.(HelmOperationInput.Namespace) ∧
      Adapter.parseValues input.(HelmOperationInput.Values) = Ok values ∧ Atomic && Wait = true ∧
      CreateNamespace || DependencyUpdate || EnableDNS = false ∧
      Adapter.chartOptions input.(HelmOperationInput.Chart) input.(HelmOperationInput.Version) request.(HelmRequest.Repository) = Ok options
  | Upgrade options name namespace _ Atomic _ Wait _ DependencyUpdate EnableDNS _ _ _ values =>
      kind = OperationHelmUpgrade ∧ name = input.(HelmOperationInput.ReleaseName) ∧ namespace = input.(HelmOperationInput.Namespace) ∧
      Adapter.parseValues input.(HelmOperationInput.Values) = Ok values ∧ Atomic && Wait = true ∧
      DependencyUpdate || EnableDNS = false ∧
      Adapter.chartOptions input.(HelmOperationInput.Chart) input.(HelmOperationInput.Version) request.(HelmRequest.Repository) = Ok options
  | Rollback name version _ Wait _ _ =>
      kind = OperationHelmRollback ∧ name = input.(HelmOperationInput.ReleaseName) ∧ version = input.(HelmOperationInput.Revision) ∧ Wait = true
  | Uninstall name _ Wait _ => kind = OperationHelmUninstall ∧ name = input.(HelmOperationInput.ReleaseName) ∧ Wait = true
  end.

Notation watching := (watched (may_do allowed request.(HelmRequest.Connection) may_request intended) (note allowed request.(HelmRequest.Connection))).

Lemma watched_loadOCIChart reference version s (Q : result Chart → doing → Prop) :
  s.(connected) = true → HasPrefix input.(HelmOperationInput.Chart) "oci://" = true →
  (∀ r w, Q r (with_web s w)) →
  watching (Adapter.loadOCIChart reference version (Some allowed)) s Q.
Proof.
  intros Hc Hoci HQ.
  assert (∀ {A} (m : io sending A) s (Q : A → doing → Prop), s.(connected) = true → (∀ a w, Q a (with_web s w)) →
    watching (http_effects (interpret (λ X (e : sending X),
      match e in sending X return io http X with Send r => HttpClient.Do (newPolicyHTTPClient allowed) r end) m)) s Q) as Hreg.
  { intros A m s' Q' Hc' HQ'. apply watched_http; [done|]. eapply watched_weaken; [|by apply watched_registry].
    intros w X [|r]; [done|]. intros [Hv _]. split; [done|]. intros Hf. by rewrite Hoci in Hf. }
  apply watched_bind, watched_http; [done|]. apply watched_validate_with; [done|]. intros resolver'.
  destruct (Outbound.ValidateHTTPSURL _ _ _) as [u|err]; [|apply HQ]. destruct (ParseURL reference); [|apply HQ]. destruct NewRegistryClient; [|apply HQ].
  apply watched_bind, Hreg; [done|]. intros [resolved|err] w; [|apply HQ].
  apply watched_bind, Hreg; [done|]. intros [data|err] w'; apply HQ.
Qed.

Lemma watched_locateAndLoadChart options timeout s (Q : result Chart → doing → Prop) :
  Adapter.chartOptions input.(HelmOperationInput.Chart) input.(HelmOperationInput.Version) request.(HelmRequest.Repository) = Ok options →
  s.(connected) = true → (∀ r w, Q r (with_web s w)) →
  watching (Adapter.locateAndLoadChart input.(HelmOperationInput.Chart) options (Some allowed) timeout) s Q.
Proof.
  intros Hoptions%chartOptions_credentials Hc HQ. unfold Adapter.locateAndLoadChart.
  destruct (HasPrefix _ _) eqn:Hoci; [by apply watched_loadOCIChart|].
  apply watched_http; [done|].
  apply (watched_weaken (may_fetch allowed (carries request.(HelmRequest.Repository)))).
  { intros w X [|r]; [done|]. intros [Hv Hr]. split; [done|]. intros _. exact Hr. }
  apply watched_or_fail. eapply watched_weaken; [|apply (watched_newSecureHTTPGetter _ _ _ _ _ 0 (λ _ _, False))].
  { intros w X [|r]; [done|]. by intros [_ []]. }
  intros [g|err] w _ Hg; [|apply HQ]. specialize (Hg g eq_refl).
  apply watched_or_fail. eapply watched_mono; [apply (watched_interpret _ _ _ _ (λ _, True)); [done|]|].
  { intros X [url] w' _. by eapply watched_download. }
  intros [url|err] w' _; [|apply HQ]. apply watched_or_fail. eapply watched_download; [done|done|].
  intros [archive|err] w''; apply HQ.
Qed.
(** What is so of an execution when it has ended, apart from the workspace: it has run
    the one action or has not got that far, and its error then says why in three ways. *)
Definition ended (r : result unit) (s : doing) : Prop :=
  match r with
  | Ok _ => ∃ a, s.(ran) = [a]
  | Err err => s.(ran) = [] ∨ (∃ a, s.(ran) = [a]) ∧ err ∈ [ErrConflict; ErrTimeout; ErrUpstream]
  end.

Lemma classifyHelmError_classes err : Adapter.classifyHelmError err ∈ [ErrConflict; ErrTimeout; ErrUpstream].
Proof. unfold Adapter.classifyHelmError. destruct (_ || _); [|destruct (_ || _)]; repeat constructor. Qed.

Lemma watched_run c a w s :
  s.(ready) = Some c → s.(workspaces) = [w] → s.(ran) = [] → intended a →
  watching (Adapter.classified (trigger (Run c a))) s (λ r s, s.(workspaces) = [w] ∧ ended r s).
Proof.
  intros Hr Hw Hran Ha. destruct s as [web cn ws rd rn]. simpl in Hr, Hw, Hran. subst rd ws rn. apply watched_classified. split; [done|].
  intros [[]|err]; cbn; (split; [done|]); [by exists a|]. right. split; [by exists a|]. apply classifyHelmError_classes.
Qed.

(** The charts of installations and upgrades. *)
Lemma watched_with_chart options timeout c w s (f : Chart → io helm (result unit)) :
  Adapter.chartOptions input.(HelmOperationInput.Chart) input.(HelmOperationInput.Version) request.(HelmRequest.Repository) = Ok options →
  s.(ready) = Some c → s.(workspaces) = [w] → s.(ran) = [] → s.(connected) = true →
  (∀ chart s, s.(ready) = Some c → s.(workspaces) = [w] → s.(ran) = [] → watching (f chart) s (λ r s, s.(workspaces) = [w] ∧ ended r s)) →
  watching (chart ←~ Adapter.classified (Adapter.locateAndLoadChart input.(HelmOperationInput.Chart) options (Some allowed) timeout); f chart) s
    (λ r s, s.(workspaces) = [w] ∧ ended r s).
Proof.
  intros Ho Hr Hw Hran Hc Hf. apply watched_or_fail, watched_classified, watched_locateAndLoadChart; [done..|].
  intros [chart|err] web; [by apply Hf|]. split; [done|]. by left.
Qed.

End runs.

(** ** Listing *)

Section listing.
Context `{URLParser} `{URLReferences} `{UnicodeTables} `{HelmSDK}.

(** Listing runs no action and leaves nothing on the disk either; the releases are all
    those the SDK returned, ordered by their namespaces and names. *)
Theorem List_contained allowed connection timeout namespace :
  watched (may_do allowed connection (λ _, False) (λ _, False)) (note allowed connection)
    (Adapter.List (Adapter.New timeout (Some allowed)) connection namespace) idle
    (λ r s, s.(workspaces) = [] ∧ s.(ran) = [] ∧ match r with
       | Ok releases => StronglySorted (not_after (by_namespace HelmRelease.Namespace HelmRelease.Name)) releases
       | Err _ => True
       end).
Proof.
  apply watched_or_fail, watched_validateConnection; [done| |done]. intros web.
  apply watched_or_fail, watched_actionConfiguration; [done..| |done]. intros c w.
  apply watched_cleaning. apply watched_trigger; [done|]. intros [err|]; [done|].
  apply watched_or_fail, watched_classified. split; [done|]. intros [releases|err]; [|done].
  split; [done|]. split; [done|]. split; [done|]. apply (sort_Slice_Sorted (by_namespace HelmRelease.Namespace HelmRelease.Name)).
Qed.
End listing.

(** ** An example *)

#[local] Existing Instance plain_parser.
#[local] Existing Instance plain_references.

Definition example_SDK : HelmSDK := {|
  Chart := string;
  Environment := unit;
  cli_New := tt;
  YAML := string;
  ReadValues := Ok;
  MarshalValues := Ok;
  LoadArchive := Ok;
  FindChart options reference :=
    Effect (Fetch (options.(ChartPathOptions.RepoURL) +:+ "/index.yaml")) (λ index,
      Return (_ ← index; Ok (options.(ChartPathOptions.RepoURL) +:+ "/" +:+ reference +:+ ".tgz")));
  NewRegistryClient := Ok tt;
  ResolveReference reference version u := Return (Ok u);
  Pull reference := Return (Ok (Some reference));
|}.
#[local] Existing Instance example_SDK.

Definition logged {A} (entry : string) (x : list string * A) : list string * A := (entry :: x.1, x.2).

(** An execution alone: every step succeeds, and every server answers alike. *)
Fixpoint run_helm {A} (m : io helm A) : list string * A :=
  match m with
  | Return a => ([], a)
  | Effect e k =>
      match e in helm X return (X → list string * A) → list string * A with
      | Http e => λ run,
          match e in http X return (X → list string * A) → list string * A with
          | Resolver => λ run, run (λ _, Ok [[93; 184; 216; 34]])
          | RoundTrip r => λ run, logged ("GET " +:+ URLString r.(HTTPRequest.URL)) (run (content "chart"))
          end run
      | CtxErr => λ run, run None
      | MkdirTemp _ => λ run, logged "MkdirTemp" (run (Ok "/tmp/helm-1"))
      | Mkdir path => λ run, logged ("Mkdir " +:+ path) (run (Ok tt))
      | WriteFile path _ => λ run, logged ("WriteFile " +:+ path) (run (Ok tt))
      | RemoveAll path => λ run, logged ("RemoveAll " +:+ path) (run tt)
      | IsConfigFlags _ => λ run, run true
      | Init _ => λ run, run (Ok tt)
      | RunList _ _ => λ run, logged "List" (run (Ok []))
      | Run _ _ => λ run, logged "Run" (run (Ok tt))
      end (λ x, run_helm (k x))
  end.

Definition example_request (chart : string) : HelmRequest :=
  HelmRequest.mk (Connection.mk "https://203.0.113.7:6443" "CA" "token")
    (Some (RepositoryConnection.mk "https://charts.example.com" "reader" "secret"))
    (HelmOperationInput.mk "cl_1" "apps" "web" chart "repo_1" "1.2.3" "{}" 0).

Section example.
Context `{UnicodeTables}.

Example installed : run_helm (Adapter.Execute (Adapter.New 0 (Some [])) OperationHelmInstall (example_request "nginx")) =
  (["MkdirTemp"; "Mkdir /tmp/helm-1/cache"; "Mkdir /tmp/helm-1/plugins"; "WriteFile /tmp/helm-1/cluster-ca.pem";
    "GET https://charts.example.com/index.yaml"; "GET https://charts.example.com/nginx.tgz"; "Run"; "RemoveAll /tmp/helm-1"], Ok tt).
Proof. by vm_compute. Qed.

(** A reference with a space before it is accepted as one of a registry when the
    operation is submitted, but not when the chart is to be loaded: the operation always
    fails, as if the upstream had. *)
Example untrimmed_reference_fails :
  ValidateHelmOperationInput (example_request " oci://registry.example.com/charts/web").(HelmRequest.Input) = Ok tt ∧
  let log := run_helm (Adapter.Execute (Adapter.New 0 (Some [])) OperationHelmInstall (example_request " oci://registry.example.com/charts/web")) in
  is_ok log.2 = false ∧ "GET" ∉ take_bytes 3 <$> log.1 ∧ "Run" ∉ log.1.
Proof. vm_compute. split; [done|]. split; [done|]. set_solver. Qed.
End example.
