(* ===== verification/Service.v ===== *)
(** * Clusters and cluster reads (src/internal/platform/service.go, views.go)

    Every method of [Service] outside the operation queue, as a program: the
    management of clusters and their credentials, the target locks, the admission
    of Kubernetes reads, and the read endpoints. *)

From S2P Require Export Program Validation Encoding GoNum.

Local Open Scope Z_scope.
Local Open Scope stdpp_scope.
Local Open Scope go_scope.

(** ** Views *)

Module ClusterView.
Record t : Type := mk {
  ID : string;
  Name : string;
  Environment : Environment;
  Server : string;
  Status : ClusterStatus;
  Version : string;
  LastErrorCode : string;
  CredentialsConfigured : bool;
  LastCheckedAt : time;
  CreatedAt : time;
  UpdatedAt : time;
}.
(** [ClusterView{}]. *)
Definition zero : t := mk "" "" "" "" "" "" "" false time_zero time_zero time_zero.
End ClusterView.
Notation ClusterView := ClusterView.t.

Definition clusterView (cluster : Cluster) : ClusterView :=
  ClusterView.mk cluster.(Cluster.ID) cluster.(Cluster.Name) cluster.(Cluster.Environment)
    cluster.(Cluster.Server) cluster.(Cluster.Status) cluster.(Cluster.Version)
    cluster.(Cluster.LastErrorCode)
    (negb (bool_decide (cluster.(Cluster.BearerTokenCiphertext) = "")))
    cluster.(Cluster.LastCheckedAt) cluster.(Cluster.CreatedAt) cluster.(Cluster.UpdatedAt).

Definition clusterAAD (id field : string) : string := "cluster:" +:+ id +:+ ":" +:+ field.

Lemma last_separator {A} (x : A) l1 l2 l1' l2' :
  x ∉ l2 → x ∉ l2' → l1 ++ x :: l2 = l1' ++ x :: l2' → l1 = l1' ∧ l2 = l2'.
Proof.
  intros H2 H2'. revert l1'. induction l1 as [|y l1 IH]; intros [|y' l1']; simpl.
  - naive_solver.
  - intros [= -> ->]. destruct H2. set_solver.
  - intros [= -> <-]. destruct H2'. set_solver.
  - intros [= -> [-> ->]%IH]. done.
Qed.

(** An identifier and a field without a colon can be read back. *)
Lemma colon_inj a id field id' field' :
  has_byte ":" field = false → has_byte ":" field' = false →
  a +:+ id +:+ ":" +:+ field = a +:+ id' +:+ ":" +:+ field' → id = id' ∧ field = field'.
Proof.
  intros Hf Hf' E. apply (f_equal bytes) in E. rewrite !bytes_app in E.
  apply (inj (app (bytes a))) in E.
  apply (last_separator ":"%char) in E as [Ei Ef]; [|by apply has_byte_false..].
  split; [rewrite <-(of_bytes_bytes id), <-(of_bytes_bytes id')
         |rewrite <-(of_bytes_bytes field), <-(of_bytes_bytes field')]; congruence.
Qed.

Lemma clusterAAD_inj id field id' field' :
  has_byte ":" field = false → has_byte ":" field' = false →
  clusterAAD id field = clusterAAD id' field' → id = id' ∧ field = field'.
Proof. apply (colon_inj "cluster:"). Qed.

Definition clusterFailure (err : error) : ClusterStatus * string :=
  if Is err ErrForbidden then (ClusterDegraded, "permission_denied")
  else if Is err ErrUnauthorized then (ClusterUnreachable, "credentials_rejected")
  else if Is err ErrTimeout then (ClusterUnreachable, "upstream_timeout")
  else (ClusterUnreachable, "upstream_unavailable").

(** The byte 0 that separates the parts of a fingerprint and of a lock's name. *)
Definition nul : string := String (ascii_of_Z 0) "".

(** src/internal/platform/gateway_cache.go *)
Definition clusterGatewayFingerprint (cluster : Cluster) : list Z :=
  SHA256.Sum256 (cluster.(Cluster.Server) +:+ nul +:+ cluster.(Cluster.CACertCiphertext) +:+ nul +:+
          cluster.(Cluster.BearerTokenCiphertext)).

#[global] Arguments clusterGatewayFingerprint : simpl never.
#[global] Arguments clusterAAD : simpl never.

(** The assignments the methods make to a cluster. *)
Definition with_status (c : Cluster) (status : ClusterStatus) (now : time) : Cluster :=
  Cluster.mk c.(Cluster.ID) c.(Cluster.Name) c.(Cluster.Environment) c.(Cluster.Server) status
    c.(Cluster.Version) c.(Cluster.LastErrorCode) c.(Cluster.CACertCiphertext)
    c.(Cluster.BearerTokenCiphertext) c.(Cluster.LastCheckedAt) c.(Cluster.CreatedAt) now.

Definition with_check (c : Cluster) (status : ClusterStatus) (version code : string) (now : time) :
    Cluster :=
  Cluster.mk c.(Cluster.ID) c.(Cluster.Name) c.(Cluster.Environment) c.(Cluster.Server) status
    version code c.(Cluster.CACertCiphertext) c.(Cluster.BearerTokenCiphertext) now
    c.(Cluster.CreatedAt) now.

Definition with_credentials (c : Cluster) (ca token version : string) (now : time) : Cluster :=
  Cluster.mk c.(Cluster.ID) c.(Cluster.Name) c.(Cluster.Environment) c.(Cluster.Server)
    ClusterConnected version "" ca token now c.(Cluster.CreatedAt) now.

Definition disabled (c : Cluster) : bool := bool_decide (c.(Cluster.Status) = ClusterDisabled).

Definition credentialRotationLock : string := "cluster-credentials".
Definition capabilityScanLock : string := "cluster-capabilities".
Definition capabilityScanTimeout : duration := 20 * second.
Definition targetLockStripes : Z := 64.

Definition targetLock (clusterID namespace name : string) : Z :=
  fnv1a (clusterID +:+ nul +:+ namespace +:+ nul +:+ name) mod targetLockStripes.

#[global] Arguments targetLock : simpl never.

Definition accessReviewAuditValue (value empty : string) : string :=
  if bool_decide (value = "") then empty else value.

(** [fmt] verbs [%t] and [%d]. *)
Definition format_bool (b : bool) : string := if b then "true" else "false".

Module Service.
Section service.
Context `{Platform} `{UnicodeTables} `{URLParser}.

(** ** The calls the methods share *)

Definition newID (prefix : string) : prog (result string) := perform (NewID prefix).
Definition now : prog time := perform Clock.

(** [if err := ctx.Err(); err != nil { return err }]. *)
Definition alive (ctx : Ctx) : prog (result unit) :=
  e ← perform (CtxErr ctx);
  Ret match e with Some err => Err err | None => Ok tt end.

Definition newAuditEvent (actor requestID action outcome clusterID namespace target summary
    operationID : string) : prog (result AuditEvent) :=
  id ←? wrapping "create audit ID: " (newID "audit");
  now ← now;
  Ret (Ok (AuditEvent.mk id requestID operationID actor action outcome clusterID namespace target
             summary now)).

Definition audit (ctx : Ctx) (actor requestID action outcome clusterID namespace target summary
    operationID : string) : prog (result unit) :=
  event ←? newAuditEvent actor requestID action outcome clusterID namespace target summary
    operationID;
  perform (StoreWrite ctx (Store.CCreateAudit event)).

Definition acquireTargetLock (ctx : Ctx) (clusterID namespace name : string) : prog (result Z) :=
  alive ctx ;;?
  let lock := targetLock clusterID namespace name in
  (perform (LockSend ctx lock) ;;? Ret (Ok lock)).

Definition tryAcquireTargetLock (ctx : Ctx) (clusterID namespace name : string) :
    prog (result Z) :=
  alive ctx ;;?
  let lock := targetLock clusterID namespace name in
  (locked ← perform (LockTrySend lock);
   Ret (if locked : bool then Ok lock else Err ErrBusy)).

Definition acquireKubernetesRead (ctx : Ctx) : prog (result nat) :=
  alive ctx ;;?
  (acquired ← perform ReadTryAcquire;
   _ ← perform (CacheReconcile acquired.1);
   Ret match acquired.2 with Some release => Ok release | None => Err ErrBusy end).

Definition clusterConnection (cluster : Cluster) : prog (result Connection) :=
  token ←? wrapping "decrypt cluster token: "
    (perform (OpenString cluster.(Cluster.BearerTokenCiphertext)
                (clusterAAD cluster.(Cluster.ID) "bearer_token")));
  ca ←? (if bool_decide (cluster.(Cluster.CACertCiphertext) = "") then Ret (Ok "")
         else wrapping "decrypt cluster CA: "
                (perform (OpenString cluster.(Cluster.CACertCiphertext)
                            (clusterAAD cluster.(Cluster.ID) "ca_cert"))));
  Ret (Ok (Connection.mk cluster.(Cluster.Server) ca token)).

(** [gatewayCache.Get]: its critical sections are in GatewayCache.v. *)
Definition gatewayCache_Get (ctx : Ctx) (clusterID : string) (fingerprint : list Z)
    (build : Ctx → prog (option Gateway * option error)) : prog (result Gateway) :=
  alive ctx ;;?
  (entered ← perform (CacheEnter ctx clusterID fingerprint);
   match entered with
   | CacheReturned r => Ret r
   | CacheBuild generation pending =>
       built ← build ctx;
       perform (CacheFinish clusterID fingerprint generation pending built.1 built.2)
   end).

Definition gatewayForCluster (ctx : Ctx) (cluster : Cluster) : prog (result Gateway) :=
  wrapping "create Kubernetes gateway: "
    (gatewayCache_Get ctx cluster.(Cluster.ID) (clusterGatewayFingerprint cluster)
       (λ buildContext,
          connection ← clusterConnection cluster;
          match connection with
          | Err err => Ret (None, Some err)
          | Ok connection => perform (FactoryNew buildContext connection)
          end)).

Definition kubeGateway (ctx : Ctx) (clusterID : string) : prog (result Gateway) :=
  cluster ←? perform (StoreRead ctx (GetCluster clusterID));
  if disabled cluster then Ret (Err ErrInvalidState) else gatewayForCluster ctx cluster.

(** ** Clusters *)

(** [x, err := p; if err != nil { return ClusterView{}, err }], where the view and
    the error may both be returned. *)
Definition or_fail {A} (p : prog (result A)) (k : A → prog (ClusterView * option error)) :
    prog (ClusterView * option error) :=
  r ← p; match r with Ok a => k a | Err e => Ret (ClusterView.zero, Some e) end.

(** The view returned next to the probe's error. *)
Definition testClusterConnection (ctx : Ctx) (actor requestID id : string) :
    prog (ClusterView * option error) :=
  or_fail (perform (StoreRead ctx (GetCluster id))) (λ cluster,
  if disabled cluster then Ret (ClusterView.zero, Some ErrInvalidState) else
  or_fail (gatewayForCluster ctx cluster) (λ gateway,
  probe ← perform (GatewayCall ctx gateway KubeGateway.Probe);
  _ ← match probe with Err _ => perform (CacheInvalidate id) | Ok _ => Ret tt end;
  now ← now;
  let '(cluster, outcome, probeErr) :=
    match probe with
    | Ok probe =>
        (with_check cluster ClusterConnected probe.(ClusterProbe.Version) "" now, "succeeded", None)
    | Err err =>
        let '(status, code) := clusterFailure err in
        (with_check cluster status cluster.(Cluster.Version) code now, "failed", Some err)
    end in
  or_fail (perform (StoreWrite ctx (Store.CUpdateCluster cluster))) (λ _,
  or_fail (wrapping "write connection test audit: "
          (audit ctx actor requestID "cluster.connection_test" outcome id ""
             cluster.(Cluster.Name) cluster.(Cluster.LastErrorCode) "")) (λ _,
  Ret (clusterView cluster, probeErr))))).

Definition CreateCluster (ctx : Ctx) (actor requestID : string) (input : ClusterInput) :
    prog (result ClusterView) :=
  Ret (ValidateClusterInput input) ;;?
  (valid ← perform (ValidateTarget ctx input.(ClusterInput.Server));
   match valid with
   | Err _ => Ret (Err (Invalid "server" "target is blocked or cannot be resolved"))
   | Ok _ =>
  id ←? wrapping "create cluster ID: " (newID "clu");
  tokenCiphertext ←? wrapping "encrypt cluster token: "
    (perform (SealString input.(ClusterInput.BearerToken) (clusterAAD id "bearer_token")));
  caCiphertext ←? (if bool_decide (input.(ClusterInput.CACert) = "") then Ret (Ok "")
                   else wrapping "encrypt cluster CA: "
                          (perform (SealString input.(ClusterInput.CACert)
                                      (clusterAAD id "ca_cert"))));
  now ← now;
  let cluster := Cluster.mk id input.(ClusterInput.Name) input.(ClusterInput.Environment)
    (TrimRight input.(ClusterInput.Server) "/") ClusterPending "" "" caCiphertext tokenCiphertext
    time_zero now now in
  perform (StoreWrite ctx (Store.CCreateCluster cluster)) ;;?
  wrapping "write cluster audit: "
    (audit ctx actor requestID "cluster.create" "succeeded" id "" input.(ClusterInput.Name)
       "connection metadata created" "") ;;?
  (view ← testClusterConnection ctx actor requestID id;
   Ret (Ok view.1))
   end).

Definition ListClusters (ctx : Ctx) : prog (result (list ClusterView)) :=
  clusters ←? perform (StoreRead ctx ListClusters);
  Ret (Ok (clusterView <$> clusters)).

Definition GetCluster (ctx : Ctx) (id : string) : prog (result ClusterView) :=
  cluster ←? perform (StoreRead ctx (GetCluster id));
  Ret (Ok (clusterView cluster)).

(** The error of the probe comes with the view. *)
Definition TestClusterConnection (ctx : Ctx) (actor requestID id : string) :
    prog (ClusterView * option error) :=
  acquired ← acquireKubernetesRead ctx;
  match acquired with
  | Err err => Ret (ClusterView.zero, Some err)
  | Ok release =>
      defer (perform (ReadRelease release))
        (_ ← perform (CacheInvalidate id);
         testClusterConnection ctx actor requestID id)
  end.

Definition recordCredentialRotationFailure (ctx : Ctx) (actor requestID : string)
    (cluster : Cluster) (cause : error) : prog error :=
  r ← audit ctx actor requestID "cluster.credentials.rotate" "failed" cluster.(Cluster.ID) ""
    cluster.(Cluster.Name) "candidate credential validation failed" "";
  Ret match r with
      | Err err => Errorf "write credential rotation audit: " err
      | Ok _ => cause
      end.

Definition RotateClusterCredentials (ctx : Ctx) (actor requestID id : string)
    (input : ClusterCredentialRotationInput) : prog (result ClusterView) :=
  Ret (ValidateClusterCredentialRotationInput input) ;;?
  unlock ←? tryAcquireTargetLock ctx id "" credentialRotationLock;
  defer (perform (LockReceive unlock))
  (release ←? acquireKubernetesRead ctx;
  defer (perform (ReadRelease release))
  (current ←? perform (StoreRead ctx (Program.GetCluster id));
  if disabled current then Ret (Err ErrInvalidState) else
  if negb (bool_decide (input.(ClusterCredentialRotationInput.Confirmation) =
                        current.(Cluster.Name)))
  then Ret (Err (Invalid "confirmation" "must match the cluster name")) else
  let failure cause :=
    err ← recordCredentialRotationFailure ctx actor requestID current cause; Ret (Err err) in
  built ← perform (FactoryNew ctx
    (Connection.mk current.(Cluster.Server) input.(ClusterCredentialRotationInput.CACert)
       input.(ClusterCredentialRotationInput.BearerToken)));
  match built with
  | (candidate, Some buildErr) =>
      _ ← match candidate with Some g => perform (CloseIdle [g]) | None => Ret tt end;
      failure buildErr
  | (None, None) => failure (NewError "Kubernetes gateway builder returned no gateway")
  | (Some candidate, None) =>
  defer (perform (CloseIdle [candidate]))
  (probe ← perform (GatewayCall ctx candidate KubeGateway.Probe);
  match probe with
  | Err probeErr => failure probeErr
  | Ok probe =>
  sealed ← perform (SealString input.(ClusterCredentialRotationInput.BearerToken)
                      (clusterAAD id "bearer_token"));
  match sealed with
  | Err err => failure (Errorf "encrypt cluster token: " err)
  | Ok tokenCiphertext =>
  sealed ← (if bool_decide (input.(ClusterCredentialRotationInput.CACert) = "")
            then Ret (Ok "")
            else perform (SealString input.(ClusterCredentialRotationInput.CACert)
                            (clusterAAD id "ca_cert")));
  match sealed with
  | Err err => failure (Errorf "encrypt cluster CA: " err)
  | Ok caCiphertext =>
  now ← now;
  let updated := with_credentials current caCiphertext tokenCiphertext
    probe.(ClusterProbe.Version) now in
  event ←? newAuditEvent actor requestID "cluster.credentials.rotate" "succeeded" id ""
    current.(Cluster.Name) "connection credentials rotated" "";
  perform (StoreWrite ctx (Store.CRotate current updated event)) ;;?
  (_ ← perform (CacheInvalidate id);
   Ret (Ok (clusterView updated)))
  end end end) end)).

Definition SetClusterEnabled (ctx : Ctx) (actor requestID id : string) (enabled : bool) :
    prog (result ClusterView) :=
  cluster ←? perform (StoreRead ctx (Program.GetCluster id));
  now ← now;
  let cluster := with_status cluster (if enabled then ClusterPending else ClusterDisabled) now in
  perform (StoreWrite ctx (Store.CUpdateCluster cluster)) ;;?
  (_ ← (if enabled then Ret tt else perform (CacheInvalidate id));
  audit ctx actor requestID "cluster.update" "succeeded" id "" cluster.(Cluster.Name)
    ("enabled=" +:+ format_bool enabled) "" ;;?
  if enabled then view ← testClusterConnection ctx actor requestID id; Ret (Ok view.1)
  else Ret (Ok (clusterView cluster))).

Definition DeleteCluster (ctx : Ctx) (actor requestID id expectedName : string) :
    prog (result unit) :=
  cluster ←? perform (StoreRead ctx (Program.GetCluster id));
  if negb (bool_decide (expectedName = cluster.(Cluster.Name)))
  then Ret (Err (Invalid "confirmation" "must match the cluster name")) else
  audit ctx actor requestID "cluster.delete" "succeeded" id "" cluster.(Cluster.Name)
    "connection metadata deleted" "" ;;?
  perform (StoreWrite ctx (Store.CDeleteCluster id)) ;;?
  (_ ← perform (CacheInvalidate id); Ret (Ok tt)).

(** ** Cluster reads

    Acquire a read slot, find the cluster's gateway, call one of its methods, and
    give the slot back. *)

Definition read {A} (ctx : Ctx) (clusterID : string) (m : KubeGateway.method A) :
    prog (result A) :=
  release ←? acquireKubernetesRead ctx;
  defer (perform (ReadRelease release))
    (gateway ←? kubeGateway ctx clusterID;
     perform (GatewayCall ctx gateway m)).

(** [if namespace != ""]: validate it. *)
Definition optional_namespace (namespace : string) : result unit :=
  if bool_decide (namespace = "") then Ok tt else ValidateNamespace namespace.

Definition Summary (ctx : Ctx) (clusterID : string) :
    prog (result (Model "ClusterSummary")) :=
  read ctx clusterID KubeGateway.Summary.

Definition Namespaces (ctx : Ctx) (clusterID : string) :
    prog (result (list (Model "Namespace"))) :=
  read ctx clusterID KubeGateway.Namespaces.

Definition Nodes (ctx : Ctx) (clusterID : string) :
    prog (result (list (Model "Node"))) :=
  read ctx clusterID KubeGateway.Nodes.

Definition CustomResourceDefinitions (ctx : Ctx) (clusterID : string) :
    prog (result (list (Model "KubernetesCustomResourceDefinition"))) :=
  read ctx clusterID KubeGateway.CustomResourceDefinitions.

Definition CertificateSigningRequests (ctx : Ctx) (clusterID : string) :
    prog (result (list (Model "KubernetesCertificateSigningRequest"))) :=
  read ctx clusterID KubeGateway.CertificateSigningRequests.

Definition PriorityClasses (ctx : Ctx) (clusterID : string) :
    prog (result (list (Model "KubernetesPriorityClass"))) :=
  read ctx clusterID KubeGateway.PriorityClasses.

Definition RuntimeClasses (ctx : Ctx) (clusterID : string) :
    prog (result (list (Model "KubernetesRuntimeClass"))) :=
  read ctx clusterID KubeGateway.RuntimeClasses.

Definition APIServices (ctx : Ctx) (clusterID : string) :
    prog (result (list (Model "KubernetesAPIService"))) :=
  read ctx clusterID KubeGateway.APIServices.

Definition ValidatingAdmissionPolicies (ctx : Ctx) (clusterID : string) :
    prog (result (list (Model "KubernetesAdmissionPolicyResource"))) :=
  read ctx clusterID KubeGateway.ValidatingAdmissionPolicies.

Definition ValidatingAdmissionPolicyBindings (ctx : Ctx) (clusterID : string) :
    prog (result (list (Model "KubernetesAdmissionPolicyResource"))) :=
  read ctx clusterID KubeGateway.ValidatingAdmissionPolicyBindings.

Definition PersistentVolumes (ctx : Ctx) (clusterID : string) :
    prog (result (list (Model "KubernetesPersistentVolume"))) :=
  read ctx clusterID KubeGateway.PersistentVolumes.

Definition StorageClasses (ctx : Ctx) (clusterID : string) :
    prog (result (list (Model "KubernetesStorageClass"))) :=
  read ctx clusterID KubeGateway.StorageClasses.

Definition VolumeAttachments (ctx : Ctx) (clusterID : string) :
    prog (result (list (Model "KubernetesVolumeAttachment"))) :=
  read ctx clusterID KubeGateway.VolumeAttachments.

Definition VolumeAttributesClasses (ctx : Ctx) (clusterID : string) :
    prog (result (list (Model "KubernetesVolumeAttributesClass"))) :=
  read ctx clusterID KubeGateway.VolumeAttributesClasses.

Definition CSIDrivers (ctx : Ctx) (clusterID : string) :
    prog (result (list (Model "KubernetesCSIDriver"))) :=
  read ctx clusterID KubeGateway.CSIDrivers.

Definition CSINodes (ctx : Ctx) (clusterID : string) :
    prog (result (list (Model "KubernetesCSINode"))) :=
  read ctx clusterID KubeGateway.CSINodes.

Definition PodSecurityAdmissionNamespaces (ctx : Ctx) (clusterID : string) :
    prog (result (list (Model "KubernetesPodSecurityAdmissionNamespace"))) :=
  read ctx clusterID KubeGateway.PodSecurityAdmissionNamespaces.

Definition NodeVersionSkew (ctx : Ctx) (clusterID : string) :
    prog (result (Model "KubernetesNodeVersionSkewReport")) :=
  read ctx clusterID KubeGateway.NodeVersionSkew.

Definition DeprecatedAPIRequests (ctx : Ctx) (clusterID : string) :
    prog (result (list (Model "KubernetesDeprecatedAPIRequest"))) :=
  read ctx clusterID KubeGateway.DeprecatedAPIRequests.

Definition EndpointCertificate (ctx : Ctx) (clusterID : string) :
    prog (result (Model "KubernetesEndpointCertificate")) :=
  read ctx clusterID KubeGateway.EndpointCertificate.

Definition APIServerReadiness (ctx : Ctx) (clusterID : string) :
    prog (result (Model "KubernetesAPIServerReadiness")) :=
  read ctx clusterID KubeGateway.APIServerReadiness.

Definition DisruptionBudgets (ctx : Ctx) (clusterID : string) :
    prog (result (list (Model "KubernetesPodDisruptionBudget"))) :=
  read ctx clusterID KubeGateway.DisruptionBudgets.

Definition NodeDetail (ctx : Ctx) (clusterID name : string) :
    prog (result (Model "NodeDetail")) :=
  Ret (ValidateNodeName name) ;;?
  read ctx clusterID (KubeGateway.NodeDetail name).

Definition CustomResourceDefinition (ctx : Ctx) (clusterID name : string) :
    prog (result (Model "KubernetesCustomResourceDefinitionDetail")) :=
  Ret (ValidateCustomResourceDefinitionName name) ;;?
  read ctx clusterID (KubeGateway.CustomResourceDefinition name).

Definition CertificateSigningRequest (ctx : Ctx) (clusterID name : string) :
    prog (result (Model "KubernetesCertificateSigningRequestDetail")) :=
  Ret (ValidateCertificateSigningRequestName name) ;;?
  read ctx clusterID (KubeGateway.CertificateSigningRequest name).

Definition PriorityClass (ctx : Ctx) (clusterID name : string) :
    prog (result (Model "KubernetesPriorityClassDetail")) :=
  Ret (ValidatePriorityClassName name) ;;?
  read ctx clusterID (KubeGateway.PriorityClass name).

Definition RuntimeClass (ctx : Ctx) (clusterID name : string) :
    prog (result (Model "KubernetesRuntimeClassDetail")) :=
  Ret (ValidateRuntimeClassName name) ;;?
  read ctx clusterID (KubeGateway.RuntimeClass name).

Definition ValidatingAdmissionPolicy (ctx : Ctx) (clusterID name : string) :
    prog (result (Model "KubernetesValidatingAdmissionPolicyDetail")) :=
  Ret (ValidateAdmissionPolicyResourceName name) ;;?
  read ctx clusterID (KubeGateway.ValidatingAdmissionPolicy name).

Definition ValidatingAdmissionPolicyBinding (ctx : Ctx) (clusterID name : string) :
    prog (result (Model "KubernetesValidatingAdmissionPolicyBindingDetail")) :=
  Ret (ValidateAdmissionPolicyResourceName name) ;;?
  read ctx clusterID (KubeGateway.ValidatingAdmissionPolicyBinding name).

Definition CSIDriver (ctx : Ctx) (clusterID name : string) :
    prog (result (Model "KubernetesCSIDriverDetail")) :=
  Ret (ValidateCSIDriverName name) ;;?
  read ctx clusterID (KubeGateway.CSIDriver name).

Definition CSINode (ctx : Ctx) (clusterID name : string) :
    prog (result (Model "KubernetesCSINodeDetail")) :=
  Ret (ValidateNodeName name) ;;?
  read ctx clusterID (KubeGateway.CSINode name).

Definition Services (ctx : Ctx) (clusterID namespace : string) :
    prog (result (list (Model "KubernetesService"))) :=
  Ret (optional_namespace namespace) ;;?
  read ctx clusterID (KubeGateway.Services namespace).

Definition Ingresses (ctx : Ctx) (clusterID namespace : string) :
    prog (result (list (Model "KubernetesIngress"))) :=
  Ret (optional_namespace namespace) ;;?
  read ctx clusterID (KubeGateway.Ingresses namespace).

Definition EndpointSlices (ctx : Ctx) (clusterID namespace : string) :
    prog (result (list (Model "KubernetesEndpointSlice"))) :=
  Ret (optional_namespace namespace) ;;?
  read ctx clusterID (KubeGateway.EndpointSlices namespace).

Definition NetworkPolicies (ctx : Ctx) (clusterID namespace : string) :
    prog (result (list (Model "KubernetesNetworkPolicy"))) :=
  Ret (optional_namespace namespace) ;;?
  read ctx clusterID (KubeGateway.NetworkPolicies namespace).

Definition ConfigMaps (ctx : Ctx) (clusterID namespace : string) :
    prog (result (list (Model "KubernetesConfigMap"))) :=
  Ret (optional_namespace namespace) ;;?
  read ctx clusterID (KubeGateway.ConfigMaps namespace).

Definition PersistentVolumeClaims (ctx : Ctx) (clusterID namespace : string) :
    prog (result (list (Model "KubernetesPersistentVolumeClaim"))) :=
  Ret (optional_namespace namespace) ;;?
  read ctx clusterID (KubeGateway.PersistentVolumeClaims namespace).

Definition CSIStorageCapacities (ctx : Ctx) (clusterID namespace : string) :
    prog (result (list (Model "KubernetesCSIStorageCapacity"))) :=
  Ret (optional_namespace namespace) ;;?
  read ctx clusterID (KubeGateway.CSIStorageCapacities namespace).

Definition ResourceQuotas (ctx : Ctx) (clusterID namespace : string) :
    prog (result (list (Model "KubernetesResourceQuota"))) :=
  Ret (ValidateNamespace namespace) ;;?
  read ctx clusterID (KubeGateway.ResourceQuotas namespace).

Definition LimitRanges (ctx : Ctx) (clusterID namespace : string) :
    prog (result (list (Model "KubernetesLimitRange"))) :=
  Ret (ValidateNamespace namespace) ;;?
  read ctx clusterID (KubeGateway.LimitRanges namespace).

Definition HorizontalPodAutoscalers (ctx : Ctx) (clusterID namespace : string) :
    prog (result (list (Model "KubernetesHorizontalPodAutoscaler"))) :=
  Ret (ValidateNamespace namespace) ;;?
  read ctx clusterID (KubeGateway.HorizontalPodAutoscalers namespace).

Definition PodDisruptionBudgets (ctx : Ctx) (clusterID namespace : string) :
    prog (result (list (Model "KubernetesPodDisruptionBudget"))) :=
  Ret (ValidateNamespace namespace) ;;?
  read ctx clusterID (KubeGateway.PodDisruptionBudgets namespace).

(** [limit < 1 || limit > maximum]; both maxima are 100. *)
Definition event_limit (limit maximum : Z) : result unit :=
  reject_if ((limit <? 1) || (maximum <? limit)) (Invalid "limit" "must be between 1 and 100").

Definition NodeEvents (ctx : Ctx) (clusterID name : string) (limit : Z) :
    prog (result (list (Model "KubernetesEvent"))) :=
  Ret (ValidateNodeName name) ;;?
  Ret (event_limit limit MaxNodeEventLimit) ;;?
  read ctx clusterID (KubeGateway.NodeEvents name limit).

Definition AdmissionWebhookConfigurations (ctx : Ctx) (clusterID : string)
    (kind : KubernetesAdmissionWebhookConfigurationKind) :
    prog (result (list (Model "KubernetesAdmissionWebhookConfiguration"))) :=
  Ret (ValidateAdmissionWebhookConfigurationKind kind) ;;?
  read ctx clusterID (KubeGateway.AdmissionWebhookConfigurations kind).

Definition AdmissionWebhookConfiguration (ctx : Ctx) (clusterID : string)
    (kind : KubernetesAdmissionWebhookConfigurationKind) (name : string) :
    prog (result (Model "KubernetesAdmissionWebhookConfigurationDetail")) :=
  Ret (ValidateAdmissionWebhookConfigurationKind kind) ;;?
  Ret (ValidateAdmissionWebhookConfigurationName name) ;;?
  read ctx clusterID (KubeGateway.AdmissionWebhookConfiguration kind name).

Definition Events (ctx : Ctx) (clusterID namespace eventType : string) (limit : Z) :
    prog (result (list (Model "KubernetesEvent"))) :=
  Ret (ValidateKubernetesEventList namespace eventType limit) ;;?
  read ctx clusterID (KubeGateway.Events namespace eventType limit).

Definition Workloads (ctx : Ctx) (clusterID namespace kind : string) :
    prog (result (list (Model "Workload"))) :=
  Ret (ValidateWorkloadList namespace kind) ;;?
  read ctx clusterID (KubeGateway.Workloads namespace kind).

Definition AccessResources (ctx : Ctx) (clusterID : string)
    (kind : KubernetesAccessResourceKind) (namespace : string) :
    prog (result (list (Model "KubernetesAccessResource"))) :=
  Ret (ValidateAccessResourceScope kind namespace) ;;?
  read ctx clusterID (KubeGateway.AccessResources kind namespace).

Definition AccessResourceDetail (ctx : Ctx) (clusterID : string)
    (reference : KubernetesAccessResourceReference) :
    prog (result (Model "KubernetesAccessResourceDetail")) :=
  Ret (ValidateAccessResourceReference reference) ;;?
  read ctx clusterID (KubeGateway.AccessResourceDetail reference).

Definition WorkloadDetail (ctx : Ctx) (clusterID : string) (reference : WorkloadReference) :
    prog (result (Model "WorkloadDetail")) :=
  Ret (ValidateWorkloadReference reference) ;;?
  read ctx clusterID (KubeGateway.WorkloadDetail reference).

Definition DeploymentRevisionHistory (ctx : Ctx) (clusterID : string)
    (reference : WorkloadReference) : prog (result (Model "DeploymentRevisionHistory")) :=
  let reference := WorkloadReference.mk
    (ToLower (TrimSpace reference.(WorkloadReference.Kind)))
    reference.(WorkloadReference.Namespace) reference.(WorkloadReference.Name) in
  Ret (ValidateDeploymentReference reference) ;;?
  read ctx clusterID (KubeGateway.DeploymentRevisionHistory reference).

Definition WorkloadEvents (ctx : Ctx) (clusterID : string) (reference : WorkloadReference)
    (limit : Z) : prog (result (list (Model "KubernetesEvent"))) :=
  Ret (ValidateWorkloadReference reference) ;;?
  Ret (event_limit limit MaxWorkloadEventLimit) ;;?
  read ctx clusterID (KubeGateway.WorkloadEvents reference limit).

(** [domain.ClusterCapabilities]: namespace, time of the scan, checks. *)
Record ClusterCapabilities_ : Type := mkClusterCapabilities {
  CapabilitiesNamespace : string;
  CheckedAt : time;
  Checks : list (Model "KubernetesCapability");
}.

Definition ClusterCapabilities (ctx : Ctx) (clusterID namespace : string) :
    prog (result ClusterCapabilities_) :=
  Ret (ValidateNamespace namespace) ;;?
  (unlock ←? tryAcquireTargetLock ctx clusterID namespace capabilityScanLock;
  defer (perform (LockReceive unlock))
  (release ←? acquireKubernetesRead ctx;
  defer (perform (ReadRelease release))
  (let scanContext := WithTimeout ctx capabilityScanTimeout in
  gateway ←? kubeGateway scanContext clusterID;
  checks ←? perform (GatewayCall scanContext gateway (KubeGateway.Capabilities namespace));
  now ← now;
  Ret (Ok (mkClusterCapabilities namespace now checks))))).

(** ** Audited reads *)

Definition Secrets (ctx : Ctx) (actor requestID clusterID namespace : string) :
    prog (result (list (Model "KubernetesSecret"))) :=
  Ret (ValidateNamespace namespace) ;;?
  (release ←? acquireKubernetesRead ctx;
  defer (perform (ReadRelease release))
  (items ← (gateway ←? kubeGateway ctx clusterID;
            perform (GatewayCall ctx gateway (KubeGateway.Secrets namespace)));
  let '(outcome, summary) :=
    match items with
    | Err _ => ("failed", "secret metadata list failed")
    | Ok items => ("succeeded", "count=" +:+ FormatInt (len_list items))
    end in
  wrapping "write secret metadata audit: "
    (audit ctx actor requestID "secret.metadata.list" outcome clusterID namespace "secrets"
       summary "") ;;?
  Ret items)).

Definition PodLogs (ctx : Ctx) (actor requestID clusterID : string) (input : PodLogRequest) :
    prog (result (Model "PodLogs")) :=
  Ret (ValidatePodLogRequest input) ;;?
  (release ←? acquireKubernetesRead ctx;
  defer (perform (ReadRelease release))
  (gateway ←? kubeGateway ctx clusterID;
  logs ← perform (GatewayCall ctx gateway (KubeGateway.PodLogs input));
  let '(outcome, summary) :=
    match logs with
    | Ok _ => ("succeeded",
        "container=" +:+ input.(PodLogRequest.Container) +:+
        ", previous=" +:+ format_bool input.(PodLogRequest.Previous) +:+
        ", tail_lines=" +:+ FormatInt input.(PodLogRequest.TailLines))
    | Err _ => ("failed", "pod log request failed")
    end in
  wrapping "write pod log audit: "
    (audit ctx actor requestID "pod.logs.read" outcome clusterID input.(PodLogRequest.Namespace)
       (input.(PodLogRequest.Pod) +:+ "/" +:+ input.(PodLogRequest.Container)) summary "") ;;?
  Ret logs)).

(** [domain.KubernetesServiceAccountAccessReview]. *)
Record AccessReview : Type := mkAccessReview {
  ServiceAccount : KubernetesServiceAccountReference;
  ResourceAttributes : KubernetesResourceAttributes;
  ReviewState : KubernetesCapabilityState;
  ReviewCheckedAt : time;
}.

Definition known_review_state (state : KubernetesCapabilityState) : bool :=
  bool_decide (state = KubernetesCapabilityAllowed) ||
  bool_decide (state = KubernetesCapabilityDenied) ||
  bool_decide (state = KubernetesCapabilityIndeterminate).

Definition access_review_summary (state : KubernetesCapabilityState)
    (attributes : KubernetesResourceAttributes) : string :=
  "state=" +:+ state +:+
  ", verb=" +:+ attributes.(KubernetesResourceAttributes.Verb) +:+
  ", group=" +:+ accessReviewAuditValue attributes.(KubernetesResourceAttributes.Group) "core" +:+
  ", resource=" +:+ attributes.(KubernetesResourceAttributes.Resource) +:+
  ", subresource=" +:+
    accessReviewAuditValue attributes.(KubernetesResourceAttributes.Subresource) "-" +:+
  ", target_namespace=" +:+
    accessReviewAuditValue attributes.(KubernetesResourceAttributes.Namespace) "cluster".

Definition ReviewServiceAccountAccess (ctx : Ctx) (actor requestID clusterID : string)
    (input : KubernetesServiceAccountAccessReviewInput) : prog (result AccessReview) :=
  Ret (ValidateServiceAccountAccessReviewInput input) ;;?
  (release ←? acquireKubernetesRead ctx;
  review ← (gateway ←? kubeGateway ctx clusterID;
            perform (GatewayCall ctx gateway (KubeGateway.ReviewServiceAccountAccess input)));
  let review :=
    match review with
    | Ok state =>
        if known_review_state state then Ok state
        else Err (Errorf "invalid Kubernetes service account access review state: " ErrUpstream)
    | Err err => Err err
    end in
  checkedAt ← now;
  _ ← perform (ReadRelease release);
  let attributes := input.(KubernetesServiceAccountAccessReviewInput.ResourceAttributes) in
  let serviceAccount := input.(KubernetesServiceAccountAccessReviewInput.ServiceAccount) in
  let '(outcome, summary) :=
    match review with
    | Ok state => ("succeeded", access_review_summary state attributes)
    | Err _ => ("failed", "service account access review failed")
    end in
  wrapping "write service account access review audit: "
    (audit ctx actor requestID "service_account.access_review" outcome clusterID
       serviceAccount.(KubernetesServiceAccountReference.Namespace)
       (serviceAccount.(KubernetesServiceAccountReference.Namespace) +:+ "/" +:+
        serviceAccount.(KubernetesServiceAccountReference.Name)) summary "") ;;?
  Ret match review with
      | Ok state => Ok (mkAccessReview serviceAccount attributes state checkedAt)
      | Err reviewErr => Err reviewErr
      end).

(** ** The reads of a cluster, all together

    One program for each method that reads a cluster, its result dropped. *)

Definition discard {A} (p : prog A) : prog unit := _ ← p; Ret tt.

Record read_arguments : Type := mkReadArguments {
  arg_actor : string;
  arg_requestID : string;
  arg_cluster : string;
  arg_name : string;
  arg_namespace : string;
  arg_kind : string;
  arg_limit : Z;
  arg_workload : WorkloadReference;
  arg_access : KubernetesAccessResourceReference;
  arg_logs : PodLogRequest;
  arg_review : KubernetesServiceAccountAccessReviewInput;
  arg_rotation : ClusterCredentialRotationInput;
}.

Definition cluster_reads (a : read_arguments) : list (prog unit) :=
  [ discard (Summary RequestCtx a.(arg_cluster));
    discard (Namespaces RequestCtx a.(arg_cluster));
    discard (Nodes RequestCtx a.(arg_cluster));
    discard (CustomResourceDefinitions RequestCtx a.(arg_cluster));
    discard (CertificateSigningRequests RequestCtx a.(arg_cluster));
    discard (PriorityClasses RequestCtx a.(arg_cluster));
    discard (RuntimeClasses RequestCtx a.(arg_cluster));
    discard (APIServices RequestCtx a.(arg_cluster));
    discard (ValidatingAdmissionPolicies RequestCtx a.(arg_cluster));
    discard (ValidatingAdmissionPolicyBindings RequestCtx a.(arg_cluster));
    discard (PersistentVolumes RequestCtx a.(arg_cluster));
    discard (StorageClasses RequestCtx a.(arg_cluster));
    discard (VolumeAttachments RequestCtx a.(arg_cluster));
    discard (VolumeAttributesClasses RequestCtx a.(arg_cluster));
    discard (CSIDrivers RequestCtx a.(arg_cluster));
    discard (CSINodes RequestCtx a.(arg_cluster));
    discard (PodSecurityAdmissionNamespaces RequestCtx a.(arg_cluster));
    discard (NodeVersionSkew RequestCtx a.(arg_cluster));
    discard (DeprecatedAPIRequests RequestCtx a.(arg_cluster));
    discard (EndpointCertificate RequestCtx a.(arg_cluster));
    discard (APIServerReadiness RequestCtx a.(arg_cluster));
    discard (DisruptionBudgets RequestCtx a.(arg_cluster));
    discard (NodeDetail RequestCtx a.(arg_cluster) a.(arg_name));
    discard (CustomResourceDefinition RequestCtx a.(arg_cluster) a.(arg_name));
    discard (CertificateSigningRequest RequestCtx a.(arg_cluster) a.(arg_name));
    discard (PriorityClass RequestCtx a.(arg_cluster) a.(arg_name));
    discard (RuntimeClass RequestCtx a.(arg_cluster) a.(arg_name));
    discard (ValidatingAdmissionPolicy RequestCtx a.(arg_cluster) a.(arg_name));
    discard (ValidatingAdmissionPolicyBinding RequestCtx a.(arg_cluster) a.(arg_name));
    discard (CSIDriver RequestCtx a.(arg_cluster) a.(arg_name));
    discard (CSINode RequestCtx a.(arg_cluster) a.(arg_name));
    discard (Services RequestCtx a.(arg_cluster) a.(arg_namespace));
    discard (Ingresses RequestCtx a.(arg_cluster) a.(arg_namespace));
    discard (EndpointSlices RequestCtx a.(arg_cluster) a.(arg_namespace));
    discard (NetworkPolicies RequestCtx a.(arg_cluster) a.(arg_namespace));
    discard (ConfigMaps RequestCtx a.(arg_cluster) a.(arg_namespace));
    discard (PersistentVolumeClaims RequestCtx a.(arg_cluster) a.(arg_namespace));
    discard (CSIStorageCapacities RequestCtx a.(arg_cluster) a.(arg_namespace));
    discard (ResourceQuotas RequestCtx a.(arg_cluster) a.(arg_namespace));
    discard (LimitRanges RequestCtx a.(arg_cluster) a.(arg_namespace));
    discard (HorizontalPodAutoscalers RequestCtx a.(arg_cluster) a.(arg_namespace));
    discard (PodDisruptionBudgets RequestCtx a.(arg_cluster) a.(arg_namespace));
    discard (NodeEvents RequestCtx a.(arg_cluster) a.(arg_name) a.(arg_limit));
    discard (AdmissionWebhookConfigurations RequestCtx a.(arg_cluster) a.(arg_kind));
    discard (AdmissionWebhookConfiguration RequestCtx a.(arg_cluster) a.(arg_kind) a.(arg_name));
    discard (Events RequestCtx a.(arg_cluster) a.(arg_namespace) a.(arg_kind) a.(arg_limit));
    discard (Workloads RequestCtx a.(arg_cluster) a.(arg_namespace) a.(arg_kind));
    discard (AccessResources RequestCtx a.(arg_cluster) a.(arg_kind) a.(arg_namespace));
    discard (AccessResourceDetail RequestCtx a.(arg_cluster) a.(arg_access));
    discard (WorkloadDetail RequestCtx a.(arg_cluster) a.(arg_workload));
    discard (DeploymentRevisionHistory RequestCtx a.(arg_cluster) a.(arg_workload));
    discard (WorkloadEvents RequestCtx a.(arg_cluster) a.(arg_workload) a.(arg_limit));
    discard (ClusterCapabilities RequestCtx a.(arg_cluster) a.(arg_namespace));
    discard (Secrets RequestCtx a.(arg_actor) a.(arg_requestID) a.(arg_cluster) a.(arg_namespace));
    discard (PodLogs RequestCtx a.(arg_actor) a.(arg_requestID) a.(arg_cluster) a.(arg_logs));
    discard (ReviewServiceAccountAccess RequestCtx a.(arg_actor) a.(arg_requestID) a.(arg_cluster)
      a.(arg_review));
    discard (TestClusterConnection RequestCtx a.(arg_actor) a.(arg_requestID) a.(arg_cluster));
    discard (RotateClusterCredentials RequestCtx a.(arg_actor) a.(arg_requestID) a.(arg_cluster)
      a.(arg_rotation)) ].

(** ** Admission of cluster reads

    What a monitor of one request remembers: the read slot and the target lock it
    holds, the cluster record it read last, and the gateway it was given last. *)

Record contact_state : Type := mkContact {
  slot : option nat;
  lock : option Z;
  seen : option Cluster;
  given : option Gateway;
}.

Definition idle : contact_state := mkContact None None None None.

Definition may_contact (s : contact_state) (P : Cluster → bool) : bool :=
  match s.(slot), s.(seen) with
  | Some _, Some c => negb (disabled c) && P c
  | _, _ => false
  end.

Definition give (s : contact_state) (g : option Gateway) : contact_state :=
  mkContact s.(slot) s.(lock) s.(seen) (match g with Some g => Some g | None => s.(given) end).

Definition result_option {A} (r : result A) : option A :=
  match r with Ok a => Some a | Err _ => None end.

Definition contact : monitor contact_state := λ X e,
  match e in effect X return X → contact_state → verdict contact_state with
  | ReadTryAcquire => λ x s,
      match x.2 with
      | None => Allowed s
      | Some r => allow_if (bool_decide (s.(slot) = None))
                    (mkContact (Some r) s.(lock) s.(seen) s.(given))
      end
  | ReadRelease r => λ _ s,
      allow_if (bool_decide (s.(slot) = Some r)) (mkContact None s.(lock) s.(seen) s.(given))
  | LockTrySend stripe => λ locked s,
      if locked then allow_if (bool_decide (s.(lock) = None))
                       (mkContact s.(slot) (Some stripe) s.(seen) s.(given))
      else Allowed s
  | LockReceive stripe => λ _ s,
      allow_if (bool_decide (s.(lock) = Some stripe)) (mkContact s.(slot) None s.(seen) s.(given))
  | StoreRead _ r => λ x s,
      match r in store_read A return result A → verdict contact_state with
      | Program.GetCluster _ => λ x,
          match x with
          | Ok c => Allowed (mkContact s.(slot) s.(lock) (Some c) s.(given))
          | Err _ => Allowed s
          end
      | _ => λ _, Allowed s
      end x
  | CacheEnter _ clusterID fingerprint => λ x s,
      allow_if (may_contact s (λ c, bool_decide (clusterID = c.(Cluster.ID)) &&
                                    bool_decide (fingerprint = clusterGatewayFingerprint c)))
        (give s (match x with CacheReturned r => result_option r | CacheBuild _ _ => None end))
  | FactoryNew _ connection => λ x s,
      allow_if (may_contact s (λ c, bool_decide (connection.(Connection.Server) = c.(Cluster.Server))))
        (give s x.1)
  | CacheFinish _ _ _ _ _ _ => λ x s, Allowed (give s (result_option x))
  | GatewayCall _ gateway m => λ _ s,
      allow_if (may_contact s (λ _, bool_decide (s.(given) = Some gateway) &&
                                    negb (KubeGateway.mutates m))) s
  | HelmList _ _ _ | HelmExecute _ _ _ | LockSend _ _ | Enqueue _ | OperationAcquire _ =>
      λ _ _, Violation
  | _ => λ _ s, Allowed s
  end.

Definition released (s : contact_state) : Prop := s.(slot) = None ∧ s.(lock) = None.

(** ** Replacing credentials

    What a monitor of one rotation remembers. *)

Record rotation_state : Type := mkRotation {
  rot_read : option Cluster;
  rot_built : option (Connection * Gateway);
  rot_probed : option (Connection * ClusterProbe);
  rot_sealed : list (string * string * string);
  rot_failures : bool;
  rotated : bool;
  invalidated : bool;
}.

Definition rotation_start : rotation_state := mkRotation None None None [] false false false.

(** The candidate credentials of [conn], sealed for the cluster. *)
Definition sealed_for (s : rotation_state) (id : string) (conn : Connection) (updated : Cluster) :
    bool :=
  bool_decide ((conn.(Connection.BearerToken), clusterAAD id "bearer_token",
                updated.(Cluster.BearerTokenCiphertext)) ∈ s.(rot_sealed)) &&
  (if bool_decide (conn.(Connection.CACert) = "")
   then bool_decide (updated.(Cluster.CACertCiphertext) = "")
   else bool_decide ((conn.(Connection.CACert), clusterAAD id "ca_cert",
                      updated.(Cluster.CACertCiphertext)) ∈ s.(rot_sealed))).

(** The one write a rotation may make: replace the record it has read by the same
    record with the candidate credentials a gateway has just been probed with. *)
Definition may_rotate (s : rotation_state) (id : string) (expected updated : Cluster)
    (event : AuditEvent) : bool :=
  match s.(rot_read), s.(rot_probed) with
  | Some current, Some (conn, probe) =>
      bool_decide (expected = current) && negb (disabled current) &&
      bool_decide (conn.(Connection.Server) = current.(Cluster.Server)) &&
      bool_decide (updated = with_credentials current updated.(Cluster.CACertCiphertext)
                     updated.(Cluster.BearerTokenCiphertext) probe.(ClusterProbe.Version)
                     updated.(Cluster.UpdatedAt)) &&
      sealed_for s id conn updated &&
      bool_decide (event.(AuditEvent.Action) = "cluster.credentials.rotate") &&
      bool_decide (event.(AuditEvent.Result) = "succeeded") &&
      bool_decide (event.(AuditEvent.ClusterID) = id) &&
      negb s.(rotated) && negb s.(rot_failures)
  | _, _ => false
  end.

Definition rotation (id : string) (input : ClusterCredentialRotationInput) :
    monitor rotation_state := λ X e,
  match e in effect X return X → rotation_state → verdict rotation_state with
  | StoreRead _ r => λ x s,
      match r in store_read A return result A → verdict rotation_state with
      | Program.GetCluster k => λ x,
          match x with
          | Ok c =>
              if bool_decide (c.(Cluster.ID) = k) && bool_decide (k = id) then
                Allowed (mkRotation (Some c) s.(rot_built) s.(rot_probed) s.(rot_sealed)
                           s.(rot_failures) s.(rotated) s.(invalidated))
              else Impossible
          | Err _ => Allowed s
          end
      | _ => λ _, Allowed s
      end x
  | FactoryNew _ conn => λ x s,
      match x with
      | (Some g, None) =>
          allow_if (bool_decide (conn.(Connection.CACert) =
                                 input.(ClusterCredentialRotationInput.CACert)) &&
                    bool_decide (conn.(Connection.BearerToken) =
                                 input.(ClusterCredentialRotationInput.BearerToken)))
            (mkRotation s.(rot_read) (Some (conn, g)) s.(rot_probed) s.(rot_sealed)
                     s.(rot_failures) s.(rotated) s.(invalidated))
      | _ => Allowed s
      end
  | GatewayCall _ gateway m => λ x s,
      match m in KubeGateway.method A return result A → verdict rotation_state with
      | KubeGateway.Probe => λ x,
          match x, s.(rot_built) with
          | Ok probe, Some (conn, g) =>
              allow_if (bool_decide (g = gateway))
                (mkRotation s.(rot_read) s.(rot_built) (Some (conn, probe)) s.(rot_sealed)
                   s.(rot_failures) s.(rotated) s.(invalidated))
          | _, _ => Allowed s
          end
      | _ => λ _, Violation
      end x
  | SealString plaintext aad => λ x s,
      match x with
      | Ok ciphertext =>
          Allowed (mkRotation s.(rot_read) s.(rot_built) s.(rot_probed)
                     ((plaintext, aad, ciphertext) :: s.(rot_sealed))
                     s.(rot_failures) s.(rotated) s.(invalidated))
      | Err _ => Allowed s
      end
  | StoreWrite _ (Store.CRotate expected updated event) => λ x s,
      allow_if (may_rotate s id expected updated event)
        (mkRotation s.(rot_read) s.(rot_built) s.(rot_probed) s.(rot_sealed) s.(rot_failures)
           (is_ok x) s.(invalidated))
  | StoreWrite _ (Store.CCreateAudit event) => λ _ s,
      allow_if (bool_decide (event.(AuditEvent.Result) = "failed") && negb s.(rotated) &&
                negb s.(rot_failures))
        (mkRotation s.(rot_read) s.(rot_built) s.(rot_probed) s.(rot_sealed) true s.(rotated)
           s.(invalidated))
  | StoreWrite _ _ => λ _ _, Violation
  | CacheInvalidate k => λ _ s,
      allow_if (bool_decide (k = id) && s.(rotated) && negb s.(invalidated))
        (mkRotation s.(rot_read) s.(rot_built) s.(rot_probed) s.(rot_sealed) s.(rot_failures)
           s.(rotated) true)
  | CacheEnter _ _ _ | CacheFinish _ _ _ _ _ _ => λ _ _, Violation
  | _ => λ _ s, Allowed s
  end.

(** ** Custody of credentials

    What a monitor of the cipher and the store remembers: plaintext, associated
    data and ciphertext of every sealing, and the last cluster record written.  The
    cipher's answers are those Cipher.v proves of it: a sealing is never empty, and
    opening one with its associated data gives its plaintext back; and the store
    answers a lookup with the record of that identifier. *)

Record custody_state : Type := mkCustody {
  sealings : list (string * string * string);
  written : option Cluster;
}.

Definition custody_start : custody_state := mkCustody [] None.

Definition sealed_as (ciphertext aad : string) (s : string * string * string) : bool :=
  bool_decide (s.1.2 = aad) && bool_decide (s.2 = ciphertext).

Definition custody : monitor custody_state := λ X e,
  match e in effect X return X → custody_state → verdict custody_state with
  | StoreRead _ r => λ x s,
      match r in store_read A return result A → verdict custody_state with
      | Program.GetCluster k => λ x,
          match x with
          | Ok c => if bool_decide (c.(Cluster.ID) = k) then Allowed s else Impossible
          | Err _ => Allowed s
          end
      | _ => λ _, Allowed s
      end x
  | SealString plaintext aad => λ x s,
      match x with
      | Ok ciphertext =>
          if bool_decide (ciphertext = "") then Impossible
          else Allowed (mkCustody ((plaintext, aad, ciphertext) :: s.(sealings)) s.(written))
      | Err _ => Allowed s
      end
  | OpenString ciphertext aad => λ x s,
      match List.find (sealed_as ciphertext aad) s.(sealings) with
      | Some (plaintext, _, _) => if bool_decide (x = Ok plaintext) then Allowed s else Impossible
      | None => Allowed s
      end
  | StoreWrite _ (Store.CCreateCluster c) | StoreWrite _ (Store.CRotate _ c _) => λ x s,
      match x with
      | Ok _ => Allowed (mkCustody s.(sealings) (Some c))
      | Err _ => Allowed s
      end
  | _ => λ _ s, Allowed s
  end.

(** Whoever connects to the record last written uses these credentials. *)
Definition connects (s : custody_state) (server ca token : string) : Prop :=
  match s.(written) with
  | None => False
  | Some c => safe custody (clusterConnection c) s (λ r _, r = Ok (Connection.mk server ca token))
  end.

Lemma contact_audit ctx actor requestID action outcome clusterID namespace target summary
    operationID s (Q : result unit → contact_state → Prop) :
  (∀ r, Q r s) →
  safe contact (audit ctx actor requestID action outcome clusterID namespace target summary
                  operationID) s Q.
Proof. intros HQ. unfold audit, newAuditEvent, newID, now. repeat (safe_step || done). Qed.

Lemma contact_acquire ctx s (Q : result nat → contact_state → Prop) :
  s.(slot) = None → (∀ err, Q (Err err) s) →
  (∀ r, Q (Ok r) (mkContact (Some r) s.(lock) s.(seen) s.(given))) →
  safe contact (acquireKubernetesRead ctx) s Q.
Proof.
  intros Hs He Hr. unfold acquireKubernetesRead, alive.
  repeat safe_step; (done || by apply bool_decide_eq_true).
Qed.

Lemma contact_lock ctx clusterID namespace name s (Q : result Z → contact_state → Prop) :
  s.(lock) = None → (∀ err, Q (Err err) s) →
  (∀ l, Q (Ok l) (mkContact s.(slot) (Some l) s.(seen) s.(given))) →
  safe contact (tryAcquireTargetLock ctx clusterID namespace name) s Q.
Proof.
  intros Hs He Hr. unfold tryAcquireTargetLock, alive.
  repeat safe_step; (done || by apply bool_decide_eq_true).
Qed.

(** The monitor's state after a request has found the gateway of [c], or failed to. *)
Definition looked_up (s s' : contact_state) : Prop :=
  s'.(slot) = s.(slot) ∧ s'.(lock) = s.(lock).

Definition has_gateway (s : contact_state) (g : Gateway) : Prop :=
  may_contact s (λ _, bool_decide (s.(given) = Some g)) = true.

Lemma contact_clusterConnection c s (Q : result Connection → contact_state → Prop) :
  (∀ err, Q (Err err) s) →
  (∀ conn, conn.(Connection.Server) = c.(Cluster.Server) → Q (Ok conn) s) →
  safe contact (clusterConnection c) s Q.
Proof. intros He Hok. unfold clusterConnection. repeat safe_step; auto. Qed.

Lemma contact_gatewayForCluster ctx c s (Q : result Gateway → contact_state → Prop) :
  is_Some s.(slot) → s.(seen) = Some c → disabled c = false →
  (∀ err s', looked_up s s' → Q (Err err) s') →
  (∀ g s', looked_up s s' → has_gateway s' g → Q (Ok g) s') →
  safe contact (gatewayForCluster ctx c) s Q.
Proof.
  intros [r Hr] Hc Hd He Hok. unfold gatewayForCluster, gatewayCache_Get, alive.
  assert (∀ s' f, looked_up s s' → s'.(seen) = Some c → f c = true → may_contact s' f = true) as Hmay.
  { intros s' f [Hs _] Hc' Hf. unfold may_contact. by rewrite Hs, Hr, Hc', Hd, Hf. }
  repeat (safe_step || (apply contact_clusterConnection; intros)).
  all: try (apply Hmay; [done..|]; by rewrite ?andb_true_iff, !bool_decide_eq_true).
  all: try (by apply He).
  all: try (apply Hok; [done|]; apply Hmay; [done..|]; by apply bool_decide_eq_true).
Qed.

Lemma contact_kubeGateway ctx id s (Q : result Gateway → contact_state → Prop) :
  is_Some s.(slot) →
  (∀ err s', looked_up s s' → Q (Err err) s') →
  (∀ g s', looked_up s s' → has_gateway s' g → Q (Ok g) s') →
  safe contact (kubeGateway ctx id) s Q.
Proof.
  intros Hs He Hok. unfold kubeGateway. repeat safe_step; try by apply He.
  by apply contact_gatewayForCluster.
Qed.

Lemma has_gateway_call s g b :
  has_gateway s g → b = true → may_contact s (λ _, bool_decide (s.(given) = Some g) && b) = true.
Proof.
  unfold has_gateway, may_contact. intros Hg ->. by destruct (slot s), (seen s); rewrite ?andb_true_r.
Qed.

#[local] Ltac contact_done :=
  repeat match goal with H : looked_up _ _ |- _ => destruct H as [? ?] end; cbn in *;
  first
    [ done
    | apply has_gateway_call; [done|first [done|by apply negb_true_iff]]
    | apply bool_decide_eq_true; congruence
    | split; cbn; congruence
    | congruence
    | eexists; congruence
    | match goal with H : disabled _ = false |- _ => rewrite H end;
      by rewrite !bool_decide_eq_true_2 ].

#[local] Ltac contact_step :=
  first
    [ apply contact_audit; intros
    | apply contact_acquire; [contact_done|intros|intros]
    | apply contact_lock; [contact_done|intros|intros]
    | apply contact_kubeGateway; [contact_done|intros|intros]
    | safe_step ].

Lemma contact_read {A} ctx id (m : KubeGateway.method A) :
  KubeGateway.mutates m = false → safe contact (read ctx id m) idle (λ _ s, released s).
Proof. intros Hm. unfold read. repeat contact_step; contact_done. Qed.

Lemma contact_discard {A} (p : prog A) s (Q : unit → contact_state → Prop) :
  safe contact p s (λ _, Q tt) → safe contact (discard p) s Q.
Proof. intros Hp. by apply safe_bind_intro. Qed.

(** A guarded read. *)
Lemma contact_guard {A} (v : result unit) (p : prog (result A)) :
  safe contact p idle (λ _, released) → safe contact (Ret v ;;? p) idle (λ _, released).
Proof. intros Hp. apply safe_try. by destruct v. Qed.

Lemma contact_capabilities ctx id namespace :
  safe contact (ClusterCapabilities ctx id namespace) idle (λ _, released).
Proof. unfold ClusterCapabilities, now. repeat contact_step; contact_done. Qed.

Lemma contact_secrets ctx actor requestID id namespace :
  safe contact (Secrets ctx actor requestID id namespace) idle (λ _, released).
Proof. unfold Secrets. repeat contact_step; contact_done. Qed.

Lemma contact_logs ctx actor requestID id input :
  safe contact (PodLogs ctx actor requestID id input) idle (λ _, released).
Proof. unfold PodLogs. repeat contact_step; contact_done. Qed.

Lemma contact_review ctx actor requestID id input :
  safe contact (ReviewServiceAccountAccess ctx actor requestID id input) idle (λ _, released).
Proof. unfold ReviewServiceAccountAccess, now. repeat contact_step; contact_done. Qed.

Lemma safe_or_fail {S A} (mon : monitor S) (p : prog (result A))
    (k : A → prog (ClusterView * option error)) s Q :
  safe mon p s (λ r s', match r with
                        | Ok a => safe mon (k a) s' Q
                        | Err e => Q (ClusterView.zero, Some e) s'
                        end) →
  safe mon (or_fail p k) s Q.
Proof.
  intros Hp. apply safe_bind_intro. eapply safe_mono; [|exact Hp]. by intros [a|e] s'.
Qed.

Lemma contact_test ctx actor requestID id s (Q : _ → contact_state → Prop) :
  is_Some s.(slot) → (∀ r s', looked_up s s' → Q r s') →
  safe contact (testClusterConnection ctx actor requestID id) s Q.
Proof.
  intros Hs HQ. unfold testClusterConnection, now.
  repeat first [apply safe_or_fail | contact_step
               | apply contact_gatewayForCluster; [contact_done|contact_done|contact_done|intros|intros]].
  all: first [contact_done | apply HQ; contact_done].
Qed.

Lemma contact_TestClusterConnection ctx actor requestID id :
  safe contact (TestClusterConnection ctx actor requestID id) idle (λ _, released).
Proof.
  unfold TestClusterConnection.
  repeat first [apply contact_test; [contact_done|intros] | contact_step]; contact_done.
Qed.

Lemma contact_RotateClusterCredentials ctx actor requestID id input :
  safe contact (RotateClusterCredentials ctx actor requestID id input) idle (λ _, released).
Proof.
  unfold RotateClusterCredentials, recordCredentialRotationFailure, newAuditEvent, newID, now.
  repeat contact_step; contact_done.
Qed.

(** The methods that are a guarded [read]. *)
#[local] Ltac head t := lazymatch t with ?f _ => head f | _ => t end.

#[local] Ltac guarded_read :=
  repeat (apply contact_guard); by apply contact_read.

(** C13: every method that reads a cluster or replaces its credentials (58 methods:
    the list endpoints, the details, pod logs, access reviews, capability scans,
    explicit connection tests and credential rotation), for every answer its
    environment may give, contacts a cluster only while it holds the one read slot
    it acquired, only through a gateway it was given for the cluster record it has
    just read, under that record's identifier and fingerprint (or, in a rotation,
    built for that record's server), and only if that record is not disabled; it
    never calls a method that changes the cluster; and it ends with the read slot
    and the target lock given back, on every path. *)
Theorem reads_admitted (a : read_arguments) :
  Forall (λ p, safe contact p idle (λ _, released)) (cluster_reads a).
Proof.
  unfold cluster_reads.
  repeat (apply Forall_cons_2; [apply contact_discard|]); [..|by apply Forall_nil_2].
  all: lazymatch goal with
       | |- safe _ (ClusterCapabilities _ _ _) _ _ => apply contact_capabilities
       | |- safe _ (Secrets _ _ _ _ _) _ _ => apply contact_secrets
       | |- safe _ (PodLogs _ _ _ _ _) _ _ => apply contact_logs
       | |- safe _ (ReviewServiceAccountAccess _ _ _ _ _) _ _ => apply contact_review
       | |- safe _ (TestClusterConnection _ _ _ _) _ _ => apply contact_TestClusterConnection
       | |- safe _ (RotateClusterCredentials _ _ _ _ _) _ _ =>
           apply contact_RotateClusterCredentials
       | |- safe _ ?p _ _ => let f := head p in unfold f; guarded_read
       end.
Qed.
(** C15: [RotateClusterCredentials] writes the store in one of two ways, whatever its
    environment answers: one atomic replacement of the cluster record together with
    its "succeeded" audit event, or at most one "failed" audit event, never both.
    The replacement is of the record it has read, which is not disabled; it keeps
    the record's identifier, name, environment, server and creation time, takes the
    version from a successful probe of a gateway built for that server with the
    submitted credentials, and stores exactly the ciphertexts of those credentials
    sealed for this cluster's fields.  The call succeeds exactly when the
    replacement was written, and only then is the cached connection invalidated
    (once, for this cluster): a failed rotation keeps the old credentials and the
    cached connection. *)
Theorem rotation_atomic ctx actor requestID id input :
  safe (rotation id input) (RotateClusterCredentials ctx actor requestID id input) rotation_start
    (λ r s, is_ok r = s.(rotated) ∧ s.(invalidated) = s.(rotated)).
Proof.
  unfold RotateClusterCredentials, recordCredentialRotationFailure, audit, newAuditEvent, newID, now,
    tryAcquireTargetLock, acquireKubernetesRead, alive.
  repeat safe_step; try done; unfold sealed_for; cbn;
    repeat match goal with H : disabled _ = false |- _ => rewrite H; clear H
      | H : bool_decide (_ = "") = _ |- _ => rewrite H; clear H end;
    by rewrite !bool_decide_eq_true_2 by (done || set_solver).
Qed.
Lemma clusterAAD_fields id : clusterAAD id "bearer_token" ≠ clusterAAD id "ca_cert".
Proof. by intros [_ ?]%clusterAAD_inj. Qed.

#[local] Arguments connects : simpl never.

(** The record last written holds exactly what has been sealed. *)
Lemma connects_token s c token :
  s.(written) = Some c → c.(Cluster.CACertCiphertext) = "" →
  s.(sealings) = [(token, clusterAAD c.(Cluster.ID) "bearer_token", c.(Cluster.BearerTokenCiphertext))] →
  connects s c.(Cluster.Server) "" token.
Proof.
  intros Hw Hca Hs. unfold connects. rewrite Hw. unfold clusterConnection. rewrite Hca.
  safe_step. safe_step. safe_step. rewrite Hs. cbn. unfold sealed_as. cbn.
  rewrite !bool_decide_eq_true_2 by done. cbn.
  safe_step; [|done]. apply bool_decide_eq_true in Heqb as ->. by repeat safe_step.
Qed.

Lemma connects_ca s c ca token :
  s.(written) = Some c → c.(Cluster.CACertCiphertext) ≠ "" →
  s.(sealings) = [(ca, clusterAAD c.(Cluster.ID) "ca_cert", c.(Cluster.CACertCiphertext));
                  (token, clusterAAD c.(Cluster.ID) "bearer_token",
                   c.(Cluster.BearerTokenCiphertext))] →
  connects s c.(Cluster.Server) ca token.
Proof.
  intros Hw Hca Hs. unfold connects. rewrite Hw. unfold clusterConnection.
  safe_step. safe_step. safe_step. rewrite Hs. cbn. unfold sealed_as. cbn.
  rewrite (bool_decide_eq_false_2 (clusterAAD _ "ca_cert" = _))
    by (intros E; exact (clusterAAD_fields _ (eq_sym E))). cbn.
  rewrite (bool_decide_eq_true_2 (_ = clusterAAD _ "bearer_token")) by done.
  rewrite (bool_decide_eq_true_2 (_ = Cluster.BearerTokenCiphertext c)) by done. cbn.
  safe_step; [|done]. apply bool_decide_eq_true in Heqb as ->.
  rewrite bool_decide_eq_false_2 by done. safe_step. safe_step. safe_step. rewrite Hs. cbn.
  unfold sealed_as. cbn. rewrite !bool_decide_eq_true_2 by done. cbn.
  safe_step; [|done]. apply bool_decide_eq_true in Heqb as ->. by safe_step.
Qed.

Lemma custody_audit ctx actor requestID action outcome clusterID namespace target summary
    operationID s (Q : result unit → custody_state → Prop) :
  (∀ r, Q r s) →
  safe custody (audit ctx actor requestID action outcome clusterID namespace target summary
                  operationID) s Q.
Proof. intros HQ. unfold audit, newAuditEvent, newID, now. repeat (safe_step || done). Qed.

Lemma custody_gateway ctx c s (Q : result Gateway → custody_state → Prop) :
  (∀ r, Q r s) → safe custody (gatewayForCluster ctx c) s Q.
Proof.
  intros HQ. unfold gatewayForCluster, gatewayCache_Get, alive, clusterConnection.
  repeat safe_step; done.
Qed.

Lemma custody_test ctx actor requestID id s (Q : _ → custody_state → Prop) :
  (∀ r, Q r s) → safe custody (testClusterConnection ctx actor requestID id) s Q.
Proof.
  intros HQ. unfold testClusterConnection, now.
  repeat first [apply safe_or_fail | apply custody_gateway; intros | apply custody_audit; intros
               | safe_step]; done.
Qed.

#[local] Ltac connected :=
  repeat match goal with
    | H : bool_decide (Cluster.ID _ = _) = true |- _ => apply bool_decide_eq_true in H; subst
    end;
  lazymatch goal with
  | H : bool_decide (?ca = "") = true |- connects (mkCustody _ (Some ?c)) _ ?ca _ =>
      apply bool_decide_eq_true in H; rewrite H; by apply (connects_token _ c)
  | H : bool_decide (_ = "") = false |- connects (mkCustody _ (Some ?c)) _ _ _ =>
      apply (connects_ca _ c); [done| |done];
      cbn; intros E; subst; rewrite bool_decide_eq_true_2 in * by done; done
  end.

(** C16: credentials survive storage, for every cipher that opens what it sealed:
    when [CreateCluster] has written a record, or [RotateClusterCredentials] has
    replaced one, [clusterConnection] of the written record yields exactly the
    submitted token and CA certificate (an empty CA stays empty) and, for a new
    cluster, the submitted server without its trailing slashes; a [CreateCluster]
    that wrote no record reports an error, and a rotation that wrote none does
    too.  The associated data of the two fields are never confused. *)
Theorem credentials_roundtrip ctx actor requestID :
  (∀ input,
     safe custody (CreateCluster ctx actor requestID input) custody_start
       (λ r s, (is_ok r = false ∧ s.(written) = None) ∨
               connects s (TrimRight input.(ClusterInput.Server) "/")
                 input.(ClusterInput.CACert) input.(ClusterInput.BearerToken))) ∧
  (∀ id input,
     safe custody (RotateClusterCredentials ctx actor requestID id input) custody_start
       (λ r s, (is_ok r = false ∧ s.(written) = None) ∨
               ∃ server, connects s server input.(ClusterCredentialRotationInput.CACert)
                           input.(ClusterCredentialRotationInput.BearerToken))).
Proof.
  split; [intros input|intros id input].
  - unfold CreateCluster, newID, now.
    repeat first [apply custody_test; intros | apply custody_audit; intros | safe_step].
    all: first [done | by left | right; connected].
  - unfold RotateClusterCredentials, recordCredentialRotationFailure, newAuditEvent, newID, now,
      tryAcquireTargetLock, acquireKubernetesRead, alive.
    repeat first [apply custody_audit; intros | safe_step].
    all: first [done | by left | right; eexists; connected].
Qed.

End service.
End Service.
