(* ===== verification/Repositories.v ===== *)
(** * Chart repositories (src/internal/platform/repositories.go, views.go)

    Registering, checking, enabling and deleting chart repositories. *)

From S2P Require Export Service.

Local Open Scope Z_scope.
Local Open Scope stdpp_scope.
Local Open Scope go_scope.

Module RepositoryView.
Record t : Type := mk {
  ID : string;
  Name : string;
  URL : string;
  Enabled : bool;
  Status : string;
  LastErrorCode : string;
  CredentialsConfigured : bool;
  LastCheckedAt : time;
  CreatedAt : time;
  UpdatedAt : time;
}.
(** [RepositoryView{}]. *)
Definition zero : t := mk "" "" "" false "" "" false time_zero time_zero time_zero.
End RepositoryView.
Notation RepositoryView := RepositoryView.t.

Definition repositoryView (repository : Repository) : RepositoryView :=
  RepositoryView.mk repository.(Repository.ID) repository.(Repository.Name)
    repository.(Repository.URL) repository.(Repository.Enabled) repository.(Repository.Status)
    repository.(Repository.LastErrorCode)
    (negb (bool_decide (repository.(Repository.UsernameCiphertext) = "")) ||
     negb (bool_decide (repository.(Repository.PasswordCiphertext) = "")))
    repository.(Repository.LastCheckedAt) repository.(Repository.CreatedAt)
    repository.(Repository.UpdatedAt).

Definition repositoryAAD (id field : string) : string := "repository:" +:+ id +:+ ":" +:+ field.

Module Repositories.
Section repositories.
Context `{Platform} `{UnicodeTables} `{URLParser}.
Import Service.

(** The assignments the methods make to a repository. *)
Definition with_check (r : Repository) (status code : string) (now : time) : Repository :=
  Repository.mk r.(Repository.ID) r.(Repository.Name) r.(Repository.URL) r.(Repository.Enabled)
    r.(Repository.UsernameCiphertext) r.(Repository.PasswordCiphertext) status code now
    r.(Repository.CreatedAt) now.

Definition with_enabled (r : Repository) (enabled : bool) (now : time) : Repository :=
  Repository.mk r.(Repository.ID) r.(Repository.Name) r.(Repository.URL) enabled
    r.(Repository.UsernameCiphertext) r.(Repository.PasswordCiphertext)
    (if enabled then "pending" else "disabled") r.(Repository.LastErrorCode)
    r.(Repository.LastCheckedAt) r.(Repository.CreatedAt) now.

Definition repositoryConnection (repository : Repository) : prog (result RepositoryConnection) :=
  username ←? (if bool_decide (repository.(Repository.UsernameCiphertext) = "") then Ret (Ok "")
               else wrapping "decrypt repository username: "
                      (perform (OpenString repository.(Repository.UsernameCiphertext)
                                  (repositoryAAD repository.(Repository.ID) "username"))));
  password ←? (if bool_decide (repository.(Repository.PasswordCiphertext) = "") then Ret (Ok "")
               else wrapping "decrypt repository password: "
                      (perform (OpenString repository.(Repository.PasswordCiphertext)
                                  (repositoryAAD repository.(Repository.ID) "password"))));
  Ret (Ok (RepositoryConnection.mk repository.(Repository.URL) username password)).

Definition or_none {A} (p : prog (result A)) (k : A → prog (RepositoryView * option error)) :
    prog (RepositoryView * option error) :=
  r ← p; match r with Ok a => k a | Err e => Ret (RepositoryView.zero, Some e) end.

(** The view returned next to the check's error. *)
Definition testRepository (ctx : Ctx) (actor requestID id : string) :
    prog (RepositoryView * option error) :=
  or_none (perform (StoreRead ctx (GetRepository id))) (λ repository,
  if negb repository.(Repository.Enabled)
  then Ret (RepositoryView.zero, Some ErrInvalidState) else
  or_none (repositoryConnection repository) (λ connection,
  checked ← perform (CheckRepository ctx connection);
  now ← now;
  let '(repository, outcome, checkErr) :=
    match checked with
    | Ok _ => (with_check repository "connected" "" now, "succeeded", None)
    | Err err =>
        (with_check repository "unreachable" "repository_unavailable" now, "failed", Some err)
    end in
  or_none (perform (StoreWrite ctx (Store.CUpdateRepository repository))) (λ _,
  or_none (audit ctx actor requestID "chart_repository.connection_test" outcome "" ""
             repository.(Repository.Name) repository.(Repository.LastErrorCode) "") (λ _,
  Ret (repositoryView repository, checkErr))))).

Definition TestRepository (ctx : Ctx) (actor requestID id : string) :
    prog (RepositoryView * option error) :=
  testRepository ctx actor requestID id.

Definition CreateRepository (ctx : Ctx) (actor requestID : string) (input : RepositoryInput) :
    prog (result RepositoryView) :=
  Ret (ValidateRepositoryInput input) ;;?
  (valid ← perform (ValidateTarget ctx input.(RepositoryInput.URL));
   match valid with
   | Err _ => Ret (Err (Invalid "url" "target is blocked or cannot be resolved"))
   | Ok _ =>
  id ←? wrapping "create repository ID: " (newID "repo");
  usernameCiphertext ←? (if bool_decide (input.(RepositoryInput.Username) = "") then Ret (Ok "")
                         else wrapping "encrypt repository username: "
                                (perform (SealString input.(RepositoryInput.Username)
                                            (repositoryAAD id "username"))));
  passwordCiphertext ←? (if bool_decide (input.(RepositoryInput.Password) = "") then Ret (Ok "")
                         else wrapping "encrypt repository password: "
                                (perform (SealString input.(RepositoryInput.Password)
                                            (repositoryAAD id "password"))));
  now ← now;
  let repository := Repository.mk id input.(RepositoryInput.Name)
    (TrimRight input.(RepositoryInput.URL) "/") true usernameCiphertext passwordCiphertext
    "pending" "" time_zero now now in
  perform (StoreWrite ctx (Store.CCreateRepository repository)) ;;?
  audit ctx actor requestID "chart_repository.create" "succeeded" "" ""
    repository.(Repository.Name) "repository metadata created" "" ;;?
  (view ← testRepository ctx actor requestID id;
   Ret (Ok view.1))
   end).

Definition ListRepositories (ctx : Ctx) : prog (result (list RepositoryView)) :=
  repositories ←? perform (StoreRead ctx ListRepositories);
  Ret (Ok (repositoryView <$> repositories)).

Definition SetRepositoryEnabled (ctx : Ctx) (actor requestID id : string) (enabled : bool) :
    prog (result RepositoryView) :=
  repository ←? perform (StoreRead ctx (GetRepository id));
  now ← now;
  let repository := with_enabled repository enabled now in
  perform (StoreWrite ctx (Store.CUpdateRepository repository)) ;;?
  audit ctx actor requestID "chart_repository.update" "succeeded" "" ""
    repository.(Repository.Name) ("enabled=" +:+ format_bool enabled) "" ;;?
  Ret (Ok (repositoryView repository)).

Definition DeleteRepository (ctx : Ctx) (actor requestID id : string) : prog (result unit) :=
  repository ←? perform (StoreRead ctx (GetRepository id));
  audit ctx actor requestID "chart_repository.delete" "succeeded" "" ""
    repository.(Repository.Name) "repository metadata deleted" "" ;;?
  perform (StoreWrite ctx (Store.CDeleteRepository id)).
End repositories.
End Repositories.
