(* ===== verification/Operations.v ===== *)
(** * The operation queue (src/internal/platform/operations.go)

    Submitting, cancelling and executing Helm and workload operations, as
    programs.  How they interleave is in Pool.v. *)

From S2P Require Export Repositories.

Local Open Scope Z_scope.
Local Open Scope stdpp_scope.
Local Open Scope go_scope.

(** ** Helpers *)

Definition validateHelmTarget (input : HelmOperationInput) : result unit :=
  reject_if (bool_decide (input.(HelmOperationInput.ClusterID) = ""))
    (Invalid "cluster_id" "is required") ;;
  reject_if (bool_decide (input.(HelmOperationInput.Namespace) = ""))
    (Invalid "namespace" "is required") ;;
  reject_if (bool_decide (input.(HelmOperationInput.ReleaseName) = ""))
    (Invalid "release_name" "is required") ;;
  reject_if (ContainsAny (input.(HelmOperationInput.Namespace) +:+
                          input.(HelmOperationInput.ReleaseName)) " /\")
    (Invalid "release_name" "contains invalid characters").

Definition operationSummary (input : HelmOperationInput) : string :=
  Join ((if bool_decide (input.(HelmOperationInput.Chart) = "") then []
         else ["chart=" +:+ input.(HelmOperationInput.Chart)]) ++
        (if bool_decide (input.(HelmOperationInput.Version) = "") then []
         else ["version=" +:+ input.(HelmOperationInput.Version)])) ", ".

Definition workloadOperationSummary (kind : OperationKind) (input : WorkloadOperationInput) :
    string :=
  match bool_decide (kind = OperationWorkloadScale), input.(WorkloadOperationInput.Replicas) with
  | true, Some replicas =>
      "replicas=" +:+ FormatInt replicas +:+
      ", resource_version=" +:+ input.(WorkloadOperationInput.ResourceVersion)
  | _, _ =>
      "rolling restart, resource_version=" +:+ input.(WorkloadOperationInput.ResourceVersion)
  end.

Definition workloadImageSummary (change : WorkloadImageChange) : string :=
  "container=" +:+ change.(WorkloadImageChange.Container) +:+ ", fields=1, resource_version=" +:+
  change.(WorkloadImageChange.ResourceVersion).

Definition isWorkloadOperation (kind : OperationKind) : bool :=
  bool_decide (kind = OperationWorkloadScale) || bool_decide (kind = OperationWorkloadRestart) ||
  bool_decide (kind = OperationWorkloadImage).

Definition operationErrorCode (kind : OperationKind) (err : error) : string :=
  if Is err ErrForbidden then "permission_denied"
  else if Is err ErrUnauthorized then "credentials_rejected"
  else if Is err ErrTimeout || Is err DeadlineExceeded then "upstream_timeout"
  else if Is err ErrConflict then
    if isWorkloadOperation kind then "resource_version_conflict" else "release_conflict"
  else if Is err ErrNotFound then "target_not_found"
  else if isWorkloadOperation kind then "workload_operation_failed"
  else "helm_operation_failed".

Definition operationFailureMessage (kind : OperationKind) : string :=
  if isWorkloadOperation kind then "工作负载操作执行失败，请刷新资源并检查错误码"
  else "Helm 操作执行失败，请查看错误码和目标集群状态".

Definition isHelmOperation (kind : OperationKind) : bool :=
  bool_decide (kind = OperationHelmInstall) || bool_decide (kind = OperationHelmUpgrade) ||
  bool_decide (kind = OperationHelmRollback) || bool_decide (kind = OperationHelmUninstall).

(** [cluster.Status == ClusterConnected || cluster.Status == ClusterDegraded]. *)
Definition usable (cluster : Cluster) : bool :=
  bool_decide (cluster.(Cluster.Status) = ClusterConnected) ||
  bool_decide (cluster.(Cluster.Status) = ClusterDegraded).

(** A production cluster's operations are confirmed with its name. *)
Definition unconfirmed (cluster : Cluster) (confirmation : string) : bool :=
  bool_decide (cluster.(Cluster.Environment) = EnvironmentProduction) &&
  negb (bool_decide (confirmation = cluster.(Cluster.Name))).

Module Operations.
Section operations.
Context `{Platform} `{UnicodeTables} `{URLParser}.
Import Service.

Definition normalizeWorkloadImageInput (input : WorkloadImageOperationInput) :
    WorkloadImageOperationInput :=
  let change := input.(WorkloadImageOperationInput.Change) in
  let reference := change.(WorkloadImageChange.Reference) in
  WorkloadImageOperationInput.mk
    (TrimSpace input.(WorkloadImageOperationInput.ClusterID))
    (WorkloadImageChange.mk
       (WorkloadReference.mk (ToLower (TrimSpace reference.(WorkloadReference.Kind)))
          reference.(WorkloadReference.Namespace) reference.(WorkloadReference.Name))
       (TrimSpace change.(WorkloadImageChange.ResourceVersion))
       (TrimSpace change.(WorkloadImageChange.Container))
       change.(WorkloadImageChange.CurrentImage) change.(WorkloadImageChange.Image))
    input.(WorkloadImageOperationInput.Confirmation).

(** The normalisation at the top of [SubmitWorkloadOperation], and the confirmation
    that is dropped once it has been checked. *)
Definition normalizeWorkloadInput (input : WorkloadOperationInput) : WorkloadOperationInput :=
  let reference := input.(WorkloadOperationInput.Reference) in
  WorkloadOperationInput.mk input.(WorkloadOperationInput.ClusterID)
    (WorkloadReference.mk (ToLower (TrimSpace reference.(WorkloadReference.Kind)))
       reference.(WorkloadReference.Namespace) reference.(WorkloadReference.Name))
    (TrimSpace input.(WorkloadOperationInput.ResourceVersion))
    input.(WorkloadOperationInput.Replicas) input.(WorkloadOperationInput.Confirmation).

Definition clear_confirmation (input : WorkloadOperationInput) : WorkloadOperationInput :=
  WorkloadOperationInput.mk input.(WorkloadOperationInput.ClusterID)
    input.(WorkloadOperationInput.Reference) input.(WorkloadOperationInput.ResourceVersion)
    input.(WorkloadOperationInput.Replicas) "".

Definition clear_image_confirmation (input : WorkloadImageOperationInput) :
    WorkloadImageOperationInput :=
  WorkloadImageOperationInput.mk input.(WorkloadImageOperationInput.ClusterID)
    input.(WorkloadImageOperationInput.Change) "".

(** ** Controls *)

Definition cancel_if (control : option nat) : prog unit :=
  match control with Some c => perform (CancelControl c) | None => Ret tt end.

Definition registerOperationControl (operationID : string) : prog nat :=
  registered ← perform (ControlsRegister operationID);
  _ ← cancel_if registered.2;
  Ret registered.1.

Definition signalOperationCancellation (operationID : string) : prog unit :=
  control ← perform (ControlsTake operationID);
  cancel_if control.

Definition releaseOperationControl (operationID : string) (control : nat) : prog unit :=
  _ ← perform (CancelControl control);
  perform (ControlsRemove operationID control).

Fixpoint cancel_all (controls : list nat) : prog unit :=
  match controls with
  | [] => Ret tt
  | c :: controls => _ ← perform (CancelControl c); cancel_all controls
  end.

Definition cancelAllOperationControls : prog unit :=
  controls ← perform ControlsDrain;
  cancel_all controls.

(** The context of an execution and its [finish] function. *)
Definition operationExecutionContext (job : operationJob) : Ctx * prog unit :=
  match job.(control) with
  | None => (WorkerCtx, Ret tt)
  | Some c => (Execution (Some c), releaseOperationControl job.(operationID) c)
  end.

(** ** Submission *)

Definition queued_operation (id requestID : string) (kind : OperationKind)
    (clusterID namespace target actor summary : string) (now : time) : Operation :=
  Operation.mk id requestID kind OperationQueued clusterID namespace target actor summary "" ""
    now time_zero time_zero now.

Definition with_control (job : operationJob) (c : nat) : operationJob :=
  mkJob job.(operationID) job.(helmInput) job.(workloadInput) job.(workloadImageInput) (Some c).

Definition audit_failed_message : string := "操作审计写入失败，任务未执行".
Definition queue_full_message : string := "操作队列已满，请稍后重试".
Definition interrupted_message : string := "操作执行被服务关闭中断，结果需要人工确认".
Definition result_audit_failed_message : string := "操作结果审计写入失败，请人工确认目标状态".

Definition operation_audit (ctx : Ctx) (operation : Operation) (outcome summary : string) :
    prog (result unit) :=
  audit ctx operation.(Operation.SubmittedBy) operation.(Operation.RequestID)
    operation.(Operation.Kind) outcome operation.(Operation.ClusterID)
    operation.(Operation.Namespace) operation.(Operation.Target) summary
    operation.(Operation.ID).

Definition createAndEnqueueOperation (ctx : Ctx) (operation : Operation) (job : operationJob) :
    prog (result Operation) :=
  c ← registerOperationControl operation.(Operation.ID);
  let job := with_control job c in
  created ← perform (StoreWrite ctx (Store.CCreateOperation operation));
  match created with
  | Err err =>
      _ ← releaseOperationControl operation.(Operation.ID) c;
      Ret (Err err)
  | Ok _ =>
  audited ← operation_audit ctx operation "submitted" operation.(Operation.Summary);
  match audited with
  | Err err =>
      now ← now;
      let failed := Operation.finish operation OperationFailed "audit_failed"
        audit_failed_message now in
      _ ← perform (StoreWrite (WithoutCancel ctx)
                     (Store.CTransition OperationQueued failed None));
      _ ← releaseOperationControl operation.(Operation.ID) c;
      Ret (Err (Errorf "write operation audit: " err))
  | Ok _ =>
  sent ← perform (Enqueue job);
  if sent : bool then Ret (Ok operation) else
  _ ← releaseOperationControl operation.(Operation.ID) c;
  now ← now;
  let failed := Operation.finish operation OperationFailed "queue_full" queue_full_message now in
  perform (StoreWrite (WithoutCancel ctx) (Store.CTransition OperationQueued failed None)) ;;?
  (_ ← operation_audit (WithoutCancel ctx) failed "failed" failed.(Operation.ErrorCode);
   Ret (Err (Errorf "operation queue is full: " ErrBusy)))
  end end.

Definition SubmitHelmOperation (ctx : Ctx) (actor requestID : string) (kind : OperationKind)
    (input : HelmOperationInput) : prog (result Operation) :=
  Ret (reject_if (negb (isHelmOperation kind)) (Invalid "kind" "unsupported Helm operation")) ;;?
  Ret (if bool_decide (kind = OperationHelmInstall) || bool_decide (kind = OperationHelmUpgrade)
       then ValidateHelmOperationInput input else validateHelmTarget input) ;;?
  (cluster ←? perform (StoreRead ctx
                        (Program.GetCluster input.(HelmOperationInput.ClusterID)));
  if negb (usable cluster) then Ret (Err ErrInvalidState) else
  (if bool_decide (input.(HelmOperationInput.RepositoryID) = "") then Ret (Ok tt)
   else repository ←? perform (StoreRead ctx
                                 (GetRepository input.(HelmOperationInput.RepositoryID)));
        Ret (reject_if (negb repository.(Repository.Enabled) ||
                        negb (bool_decide (repository.(Repository.Status) = "connected")))
               ErrInvalidState)) ;;?
  (id ←? wrapping "create operation ID: " (newID "op");
  now ← now;
  createAndEnqueueOperation ctx
    (queued_operation id requestID kind input.(HelmOperationInput.ClusterID)
       input.(HelmOperationInput.Namespace) input.(HelmOperationInput.ReleaseName) actor
       (operationSummary input) now)
    (mkJob id (Some input) None None None))).

Definition SubmitWorkloadOperation (ctx : Ctx) (actor requestID : string) (kind : OperationKind)
    (input : WorkloadOperationInput) : prog (result Operation) :=
  let input := normalizeWorkloadInput input in
  Ret (ValidateWorkloadOperationInput kind input) ;;?
  (cluster ←? perform (StoreRead ctx
                        (Program.GetCluster input.(WorkloadOperationInput.ClusterID)));
  if negb (usable cluster) then Ret (Err ErrInvalidState) else
  if unconfirmed cluster input.(WorkloadOperationInput.Confirmation)
  then Ret (Err (Invalid "confirmation" "must match the production cluster name")) else
  let input := clear_confirmation input in
  id ←? wrapping "create operation ID: " (newID "op");
  now ← now;
  let reference := input.(WorkloadOperationInput.Reference) in
  createAndEnqueueOperation ctx
    (queued_operation id requestID kind input.(WorkloadOperationInput.ClusterID)
       reference.(WorkloadReference.Namespace) reference.(WorkloadReference.Name) actor
       (workloadOperationSummary kind input) now)
    (mkJob id None (Some input) None None)).

Definition SubmitWorkloadImageUpdate (ctx : Ctx) (actor requestID : string)
    (input : WorkloadImageOperationInput) : prog (result Operation) :=
  let input := normalizeWorkloadImageInput input in
  Ret (ValidateWorkloadImageOperationInput input) ;;?
  (cluster ←? perform (StoreRead ctx
                        (Program.GetCluster input.(WorkloadImageOperationInput.ClusterID)));
  if negb (usable cluster) then Ret (Err ErrInvalidState) else
  if unconfirmed cluster input.(WorkloadImageOperationInput.Confirmation)
  then Ret (Err (Invalid "confirmation" "must match the production cluster name")) else
  let input := clear_image_confirmation input in
  id ←? wrapping "create operation ID: " (newID "op");
  now ← now;
  let change := input.(WorkloadImageOperationInput.Change) in
  let reference := change.(WorkloadImageChange.Reference) in
  createAndEnqueueOperation ctx
    (queued_operation id requestID OperationWorkloadImage
       input.(WorkloadImageOperationInput.ClusterID) reference.(WorkloadReference.Namespace)
       reference.(WorkloadReference.Name) actor (workloadImageSummary change) now)
    (mkJob id None None (Some input) None)).

Definition PreviewWorkloadImage (ctx : Ctx) (actor requestID : string)
    (input : WorkloadImageOperationInput) : prog (result (Model "WorkloadImagePreview")) :=
  let input := normalizeWorkloadImageInput input in
  Ret (ValidateWorkloadImageOperationInput input) ;;?
  (cluster ←? perform (StoreRead ctx
                        (Program.GetCluster input.(WorkloadImageOperationInput.ClusterID)));
  if negb (usable cluster) then Ret (Err ErrInvalidState) else
  release ←? acquireKubernetesRead ctx;
  defer (perform (ReadRelease release))
  (gateway ←? gatewayForCluster ctx cluster;
  let change := input.(WorkloadImageOperationInput.Change) in
  preview ← perform (GatewayCall ctx gateway (KubeGateway.PreviewWorkloadImage change));
  let '(outcome, summary) :=
    match preview with
    | Ok _ => ("succeeded", workloadImageSummary change)
    | Err _ => ("failed", "image preview failed")
    end in
  let reference := change.(WorkloadImageChange.Reference) in
  wrapping "write workload image preview audit: "
    (audit ctx actor requestID "workload.image_preview" outcome
       input.(WorkloadImageOperationInput.ClusterID) reference.(WorkloadReference.Namespace)
       reference.(WorkloadReference.Name) summary "") ;;?
  Ret preview)).

(** ** Cancellation *)

Definition CancelOperation (ctx : Ctx) (actor requestID operationID : string) :
    prog (result Operation) :=
  Ret (ValidateOperationID operationID) ;;?
  (operation ←? perform (StoreRead ctx (GetOperation operationID));
  if negb (bool_decide (operation.(Operation.State) = OperationQueued))
  then Ret (Err ErrInvalidState) else
  auditID ←? wrapping "create cancellation audit ID: " (newID "audit");
  now ← now;
  let operation := Operation.finish operation OperationCanceled "" "" now in
  let event := AuditEvent.mk auditID requestID operation.(Operation.ID) actor "operation.cancel"
    "succeeded" operation.(Operation.ClusterID) operation.(Operation.Namespace)
    operation.(Operation.Target) ("kind=" +:+ operation.(Operation.Kind)) now in
  perform (StoreWrite ctx (Store.CTransition OperationQueued operation (Some event))) ;;?
  (_ ← signalOperationCancellation operation.(Operation.ID);
   Ret (Ok operation))).

(** ** Execution *)

Definition helmRequest (ctx : Ctx) (input : HelmOperationInput) : prog (result HelmRequest) :=
  cluster ←? perform (StoreRead ctx (Program.GetCluster input.(HelmOperationInput.ClusterID)));
  connection ←? clusterConnection cluster;
  if bool_decide (input.(HelmOperationInput.RepositoryID) = "")
  then Ret (Ok (HelmRequest.mk connection None input)) else
  repository ←? perform (StoreRead ctx (GetRepository input.(HelmOperationInput.RepositoryID)));
  repositoryConnection ←? Repositories.repositoryConnection repository;
  Ret (Ok (HelmRequest.mk connection (Some repositoryConnection) input)).

(** [_, err = gateway.M(...)]. *)
Definition drop_value {A} (p : prog (result A)) : prog (result unit) :=
  _ ←? p; Ret (Ok tt).

Definition executeOperationJob (ctx : Ctx) (operation : Operation) (job : operationJob) :
    prog (result unit) :=
  match job.(helmInput), job.(workloadImageInput), job.(workloadInput) with
  | Some input, _, _ =>
      request ←? helmRequest ctx input;
      perform (HelmExecute ctx operation.(Operation.Kind) request)
  | None, Some input, _ =>
      gateway ←? kubeGateway ctx input.(WorkloadImageOperationInput.ClusterID);
      drop_value (perform (GatewayCall ctx gateway
        (KubeGateway.UpdateWorkloadImage input.(WorkloadImageOperationInput.Change))))
  | None, None, None => Ret (Err (NewError "operation job has no input"))
  | None, None, Some input =>
      gateway ←? kubeGateway ctx input.(WorkloadOperationInput.ClusterID);
      if bool_decide (operation.(Operation.Kind) = OperationWorkloadScale) then
        match input.(WorkloadOperationInput.Replicas) with
        | None => Ret (Err (Invalid "replicas" "is required"))
        | Some replicas =>
            drop_value (perform (GatewayCall ctx gateway
              (KubeGateway.ScaleWorkload input.(WorkloadOperationInput.Reference)
                 input.(WorkloadOperationInput.ResourceVersion) replicas)))
        end
      else if bool_decide (operation.(Operation.Kind) = OperationWorkloadRestart) then
        now ← now;
        drop_value (perform (GatewayCall ctx gateway
          (KubeGateway.RestartWorkload input.(WorkloadOperationInput.Reference)
             input.(WorkloadOperationInput.ResourceVersion) now)))
      else Ret (Err (Invalid "kind" "unsupported workload operation"))
  end.

(** The finished operation and its audit result, by the error of the execution and
    whether the workers' context is done. *)
Definition finished (operation : Operation) (executed : result unit) (shutdown : option error)
    (now : time) : Operation * string :=
  match executed with
  | Ok _ =>
      (Operation.finish operation OperationSucceeded operation.(Operation.ErrorCode)
         operation.(Operation.ErrorMessage) now, "succeeded")
  | Err err =>
      if Is err Canceled && bool_decide (is_Some shutdown)
      then (Operation.finish operation OperationUnknown "operation_interrupted"
              interrupted_message now, "unknown")
      else (Operation.finish operation OperationFailed
              (operationErrorCode operation.(Operation.Kind) err)
              (operationFailureMessage operation.(Operation.Kind)) now, "failed")
  end.

(** [ctx.Err()] of the workers' context is only asked for a cancelled execution. *)
Definition worker_shutdown (executed : result unit) : prog (option error) :=
  match executed with
  | Err err => if Is err Canceled then perform (CtxErr WorkerCtx) else Ret None
  | Ok _ => Ret None
  end.

(** What [executeOperation] does once the execution has returned. *)
Definition result_audit_failed (o : Operation) : Operation :=
  Operation.mk o.(Operation.ID) o.(Operation.RequestID) o.(Operation.Kind) OperationFailed
    o.(Operation.ClusterID) o.(Operation.Namespace) o.(Operation.Target)
    o.(Operation.SubmittedBy) o.(Operation.Summary) "audit_failed" result_audit_failed_message
    o.(Operation.CreatedAt) o.(Operation.StartedAt) o.(Operation.FinishedAt)
    o.(Operation.UpdatedAt).

Definition recordResult (operation : Operation) (executed : result unit) : prog unit :=
  now ← now;
  shutdown ← worker_shutdown executed;
  let ended := finished operation executed shutdown now in
  audited ← operation_audit (WithoutCancel WorkerCtx) ended.1 ended.2
    ended.1.(Operation.ErrorCode);
  let operation := match audited with Ok _ => ended.1 | Err _ => result_audit_failed ended.1 end in
  _ ← perform (StoreWrite (WithoutCancel WorkerCtx) (Store.CUpdateOperation operation));
  Ret tt.

Definition executeOperation (job : operationJob) : prog unit :=
  let '(executionContext, finish) := operationExecutionContext job in
  defer finish
  (read ← perform (StoreRead executionContext (GetOperation job.(operationID)));
  match read with
  | Err _ => Ret tt
  | Ok operation =>
  if negb (bool_decide (operation.(Operation.State) = OperationQueued)) then Ret tt else
  locked ← acquireTargetLock executionContext operation.(Operation.ClusterID)
    operation.(Operation.Namespace) operation.(Operation.Target);
  match locked with
  | Err _ => Ret tt
  | Ok lock =>
  defer (perform (LockReceive lock))
  (admitted ← perform (OperationAcquire executionContext);
  match admitted with
  | Err _ => Ret tt
  | Ok (_, release) =>
  defer (perform (OperationRelease release))
  (startedAt ← now;
  let operation := Operation.start operation startedAt in
  started ← perform (StoreWrite executionContext
                       (Store.CTransition OperationQueued operation None));
  match started with
  | Err _ => Ret tt
  | Ok _ =>
  executed ← executeOperationJob executionContext operation job;
  recordResult operation executed
  end)
  end)
  end end).

(** ** Running, reading and reporting *)

(** The workers are started by the first call; every call waits for its context. *)
Definition Run (ctx : Ctx) (workers : Z) : prog unit :=
  let workers := if workers <? 1 then 1 else workers in
  started ← perform (RunOnce workers);
  _ ← perform (AwaitDone ctx);
  if started : bool then
    _ ← cancelAllOperationControls;
    perform CacheClose
  else Ret tt.

Definition ListHelmReleases (ctx : Ctx) (clusterID namespace : string) :
    prog (result (list (Model "HelmRelease"))) :=
  cluster ←? perform (StoreRead ctx (Program.GetCluster clusterID));
  if disabled cluster then Ret (Err ErrInvalidState) else
  release ←? acquireKubernetesRead ctx;
  defer (perform (ReadRelease release))
  (connection ←? clusterConnection cluster;
   perform (HelmList ctx connection namespace)).

Definition HelmReleaseHistory (ctx : Ctx) (clusterID namespace releaseName : string) :
    prog (result (Model "HelmReleaseHistory")) :=
  Ret (reject_if (bool_decide (TrimSpace clusterID = "")) (Invalid "cluster_id" "is required")) ;;?
  Ret (ValidateHelmReleaseReference namespace releaseName) ;;?
  (cluster ←? perform (StoreRead ctx (Program.GetCluster clusterID));
  if disabled cluster then Ret (Err ErrInvalidState) else
  release ←? acquireKubernetesRead ctx;
  defer (perform (ReadRelease release))
  (gateway ←? gatewayForCluster ctx cluster;
   perform (GatewayCall ctx gateway (KubeGateway.HelmReleaseHistory namespace releaseName)))).

Definition GetOperation (ctx : Ctx) (id : string) : prog (result Operation) :=
  perform (StoreRead ctx (Program.GetOperation id)).

Definition ListOperations (ctx : Ctx) (limit : Z) : prog (result (list Operation)) :=
  perform (StoreRead ctx (Program.ListOperations limit)).

Definition ListAuditEvents (ctx : Ctx) (limit : Z) : prog (result (list AuditEvent)) :=
  perform (StoreRead ctx (Program.ListAuditEvents limit)).

Record KubernetesReadCapacity : Type := mkReadCapacity {
  ReadAdaptive : bool;
  ReadPressure : Governor.Pressure;
  ReadActive : Z;
  ReadLimit : Z;
  ReadMaximum : Z;
}.

Record OperationCapacity_ : Type := mkOperationCapacity {
  Snapshot : Governor.Snapshot;
  QueueDepth : Z;
  QueueCapacity : Z;
  KubernetesReads : KubernetesReadCapacity;
  KubernetesClients : GatewayCache.CacheSnapshot;
}.

Definition OperationCapacity : prog OperationCapacity_ :=
  readSnapshot ← perform ReadSnapshot;
  _ ← perform (CacheReconcile readSnapshot);
  clientSnapshot ← perform CacheSnapshot;
  snapshot ← perform OperationSnapshot;
  queue ← perform QueueSize;
  Ret (mkOperationCapacity snapshot queue.1 queue.2
    (mkReadCapacity readSnapshot.(Governor.Adaptive) readSnapshot.(Governor.SnapshotPressure)
       readSnapshot.(Governor.ActiveOperations) readSnapshot.(Governor.OperationLimit)
       readSnapshot.(Governor.MaximumOperations))
    clientSnapshot).
End operations.
End Operations.
