(* ===== verification/Pool.v ===== *)
(** * Requests and workers sharing the service's state

    The shared world of a [Service] ([New] in src/internal/platform/service.go), the
    effect of each atomic step on it, and the goroutines that interleave over it:
    one per request, and the workers of src/internal/platform/operations.go, each
    executing one job of the queue at a time.  Operations.v has their programs. *)

From S2P Require Export Operations.

Local Open Scope Z_scope.
Local Open Scope stdpp_scope.
Local Open Scope go_scope.

Module Pool.
Section pool.
Context `{Platform} `{UnicodeTables} `{URLParser}.

(** ** The shared world

    [issued] are the identifiers [newID] has returned: RandomID draws 144 random
    bits, so they are taken to be fresh.  [cancelled] are the controls whose cancel
    function has been called, [shutdown] says that the workers' context is done. *)

Record world : Type := mkWorld {
  store : State;
  queue : list operationJob;
  queueCapacity : Z;
  controls : gmap string nat;
  nextControl : nat;
  cancelled : gset nat;
  locks : gset Z;
  readGovernor : Governor.t;
  operationGovernor : Governor.t;
  workers : Z;
  runOnce : bool;
  shutdown : bool;
  issued : gset string;
}.

Definition set_store (w : world) (s : State) : world :=
  mkWorld s w.(queue) w.(queueCapacity) w.(controls) w.(nextControl) w.(cancelled) w.(locks)
    w.(readGovernor) w.(operationGovernor) w.(workers) w.(runOnce) w.(shutdown) w.(issued).
Definition set_queue (w : world) (q : list operationJob) : world :=
  mkWorld w.(store) q w.(queueCapacity) w.(controls) w.(nextControl) w.(cancelled) w.(locks)
    w.(readGovernor) w.(operationGovernor) w.(workers) w.(runOnce) w.(shutdown) w.(issued).
Definition set_controls (w : world) (m : gmap string nat) (n : nat) (c : gset nat) : world :=
  mkWorld w.(store) w.(queue) w.(queueCapacity) m n c w.(locks)
    w.(readGovernor) w.(operationGovernor) w.(workers) w.(runOnce) w.(shutdown) w.(issued).
Definition set_locks (w : world) (l : gset Z) : world :=
  mkWorld w.(store) w.(queue) w.(queueCapacity) w.(controls) w.(nextControl) w.(cancelled) l
    w.(readGovernor) w.(operationGovernor) w.(workers) w.(runOnce) w.(shutdown) w.(issued).
Definition set_governors (w : world) (r o : Governor.t) : world :=
  mkWorld w.(store) w.(queue) w.(queueCapacity) w.(controls) w.(nextControl) w.(cancelled)
    w.(locks) r o w.(workers) w.(runOnce) w.(shutdown) w.(issued).
Definition set_running (w : world) (n : Z) (once down : bool) : world :=
  mkWorld w.(store) w.(queue) w.(queueCapacity) w.(controls) w.(nextControl) w.(cancelled)
    w.(locks) w.(readGovernor) w.(operationGovernor) n once down w.(issued).
Definition set_issued (w : world) (ids : gset string) : world :=
  mkWorld w.(store) w.(queue) w.(queueCapacity) w.(controls) w.(nextControl) w.(cancelled)
    w.(locks) w.(readGovernor) w.(operationGovernor) w.(workers) w.(runOnce) w.(shutdown) ids.

(** [New]: [all_present] says that no required dependency is nil and [hasNewID]
    that there is an identifier generator; the queue size, the cache size and the
    cache's time to live are 0 when they are not set. *)
Definition defaultOperationQueueSize : Z := 64.
Definition maxOperationQueueSize : Z := 128.

Definition New (all_present hasNewID : bool) (OperationQueueSize KubernetesClientCacheSize : Z)
    (KubernetesClientCacheTTL : duration) (s : State) (reads operations : Governor.t)
    (known : gset string) : result (world * @GatewayCache.t Gateway (list Z)) :=
  reject_if (negb all_present) (NewError "all platform dependencies are required") ;;
  reject_if (negb hasNewID) (NewError "ID generator is required") ;;
  let size := if OperationQueueSize =? 0 then defaultOperationQueueSize else OperationQueueSize in
  reject_if ((size <? 1) || (maxOperationQueueSize <? size))
    (NewError "operation queue size must be between 1 and 128") ;;
  cache ← GatewayCache.newGatewayCache
    (if KubernetesClientCacheSize =? 0 then GatewayCache.defaultGatewayCacheSize
     else KubernetesClientCacheSize)
    (if KubernetesClientCacheTTL =? 0 then GatewayCache.defaultGatewayCacheTTL
     else KubernetesClientCacheTTL);
  Ok (mkWorld s [] size ∅ 0 ∅ ∅ reads operations 0 false false known, cache).

(** ** One atomic step

    What the environment contributes to a step: the answer of a party outside the
    world, the governors' sample, and the clock. *)
Record env : Type := mkEnv {
  answer : ∀ X, effect X → X;
  sample : Governor.Sample;
  clock : time;
}.

(** Can [ctx.Err()] be [err] now?  A request's context may end at any time; the
    workers' context ends with [shutdown]; an execution's context only after its
    control was cancelled or the workers' context was done. *)
Fixpoint plausible (w : world) (ctx : Ctx) (err : option error) : bool :=
  match ctx with
  | RequestCtx => true
  | WorkerCtx => bool_decide (err = if w.(shutdown) then Some Canceled else None)
  | Execution control =>
      match err with
      | None => true
      | Some e =>
          bool_decide (e = Canceled) &&
          (w.(shutdown) || match control with
                           | Some c => bool_decide (c ∈ w.(cancelled))
                           | None => false
                           end)
      end
  | WithoutCancel _ => bool_decide (err = None)
  | WithTimeout ctx _ => bool_decide (err = Some DeadlineExceeded) || plausible w ctx err
  end.

Definition read_store {A} (r : store_read A) (ctxErr : option error) (s : State) : result A :=
  match r in store_read A return result A with
  | ListClusters => Store.ListClusters ctxErr s
  | GetCluster id => Store.GetCluster ctxErr s id
  | ListRepositories => Store.ListRepositories ctxErr s
  | GetRepository id => Store.GetRepository ctxErr s id
  | GetOperation id => Store.GetOperation ctxErr s id
  | ListOperations limit => Store.ListOperations ctxErr s limit
  | ListAuditEvents limit => Store.ListAuditEvents ctxErr s limit
  end.

(** The effect's atomic step, [None] when it cannot happen now (the goroutine is
    blocked, or the answer is not one the environment can give).  The answer of
    [StoreWrite] in [E] is how persisting the new state ends. *)
Definition perform_effect (E : env) {X} (e : effect X) (w : world) : option (world * X) :=
  match e in effect X return (∀ X, effect X → X) → option (world * X) with
  | CtxErr ctx => λ ask,
      let err := ask _ (CtxErr ctx) in
      if plausible w ctx err then Some (w, err) else None
  | Clock => λ _, Some (w, E.(clock))
  | NewID prefix => λ ask,
      match ask _ (NewID prefix) with
      | Err err => Some (w, Err err)
      | Ok id =>
          if bool_decide (id ∈ w.(issued)) then None
          else Some (set_issued w ({[id]} ∪ w.(issued)), Ok id)
      end
  | StoreRead ctx r => λ ask,
      let err := ask _ (CtxErr ctx) in
      if plausible w ctx err then Some (w, read_store r err w.(store)) else None
  | StoreWrite ctx c => λ ask,
      let err := ask _ (CtxErr ctx) in
      if plausible w ctx err then
        let '(s, r) := Store.commit w.(store) (Store.next c err w.(store)) (ask _ (StoreWrite ctx c)) in
        Some (set_store w s, r)
      else None
  | ReadTryAcquire => λ _,
      let '(g, snapshot, r) := Governor.TryAcquire w.(readGovernor) E.(sample) E.(clock) in
      Some (set_governors w g w.(operationGovernor), (snapshot, r))
  | ReadRelease r => λ _,
      Some (set_governors w (Governor.release w.(readGovernor) r) w.(operationGovernor), tt)
  | ReadSnapshot => λ _,
      Some (w, Governor.snapshotLocked w.(readGovernor) E.(sample) E.(clock))
  | OperationAcquire ctx => λ ask,
      match ask _ (OperationAcquire ctx) with
      | Err err => if plausible w ctx (Some err) then Some (w, Err err) else None
      | Ok _ =>
          match Governor.TryAcquire w.(operationGovernor) E.(sample) E.(clock) with
          | (g, snapshot, Some r) => Some (set_governors w w.(readGovernor) g, Ok (snapshot, r))
          | (_, _, None) => None
          end
      end
  | OperationRelease r => λ _,
      Some (set_governors w w.(readGovernor) (Governor.release w.(operationGovernor) r), tt)
  | OperationSnapshot => λ _,
      Some (w, Governor.snapshotLocked w.(operationGovernor) E.(sample) E.(clock))
  | LockSend ctx stripe => λ ask,
      match ask _ (LockSend ctx stripe) with
      | Err err => if plausible w ctx (Some err) then Some (w, Err err) else None
      | Ok _ =>
          if bool_decide (stripe ∈ w.(locks)) then None
          else Some (set_locks w ({[stripe]} ∪ w.(locks)), Ok tt)
      end
  | LockTrySend stripe => λ _,
      if bool_decide (stripe ∈ w.(locks)) then Some (w, false)
      else Some (set_locks w ({[stripe]} ∪ w.(locks)), true)
  | LockReceive stripe => λ _,
      if bool_decide (stripe ∈ w.(locks)) then Some (set_locks w (w.(locks) ∖ {[stripe]}), tt)
      else None
  | ControlsRegister id => λ _,
      Some (set_controls w (<[id := w.(nextControl)]> w.(controls)) (S w.(nextControl)) w.(cancelled),
            (w.(nextControl), w.(controls) !! id))
  | ControlsTake id => λ _,
      Some (set_controls w (delete id w.(controls)) w.(nextControl) w.(cancelled),
            w.(controls) !! id)
  | ControlsRemove id c => λ _,
      Some (if bool_decide (w.(controls) !! id = Some c)
            then set_controls w (delete id w.(controls)) w.(nextControl) w.(cancelled) else w, tt)
  | ControlsDrain => λ _,
      Some (set_controls w ∅ w.(nextControl) w.(cancelled), (map_to_list w.(controls)).*2)
  | CancelControl c => λ _,
      Some (set_controls w w.(controls) w.(nextControl) ({[c]} ∪ w.(cancelled)), tt)
  | Enqueue job => λ _,
      if len_list w.(queue) <? w.(queueCapacity)
      then Some (set_queue w (w.(queue) ++ [job]), true) else Some (w, false)
  | QueueSize => λ _, Some (w, (len_list w.(queue), w.(queueCapacity)))
  | RunOnce n => λ _,
      if w.(runOnce) then Some (w, false) else Some (set_running w n true w.(shutdown), true)
  | AwaitDone _ => λ _, if w.(shutdown) then Some (w, tt) else None
  | CloseIdle _ | CacheInvalidate _ | CacheReconcile _ | CacheClose => λ _, Some (w, tt)
  | e => λ ask, Some (w, ask _ e)
  end E.(answer).

(** ** What is observed of a goroutine

    Which operation it is responsible for and how far that operation has come in
    its hands, and the target lock, the operation slot and the running operation it
    holds: bookkeeping computed from its effects and their answers. *)

Inductive stage : Type :=
  | Minted      (** the identifier has been made *)
  | Created     (** the operation is stored *)
  | Submitted   (** its submission is audited *)
  | Claimed     (** a worker has taken its job from the queue *)
  | Started     (** the worker has stored it as running *)
  | Executed.   (** the worker has called Helm, or the method that changes the cluster *)

#[export] Instance stage_eq_dec : EqDecision stage.
Proof. solve_decision. Defined.

Record held : Type := mkHeld {
  job : option operationJob;
  token : option (string * stage);
  slot : option nat;
  lock : option Z;
  running : option Operation;
}.

Definition with_token (h : held) (t : option (string * stage)) : held :=
  mkHeld h.(job) t h.(slot) h.(lock) h.(running).

Definition is_running (o : Operation) : bool :=
  bool_decide (o.(Operation.State) = OperationRunning).

(** The calls that change a cluster: the execution of an operation. *)
Definition executes {X} (e : effect X) : bool :=
  match e with
  | HelmExecute _ _ _ => true
  | GatewayCall _ _ m => KubeGateway.mutates m
  | _ => false
  end.

Definition execute_token (t : option (string * stage)) : option (string * stage) :=
  match t with Some (id, _) => Some (id, Executed) | None => None end.

Definition track_write (c : Store.call) (x : result unit) (h : held) : held :=
  match x with
  | Err _ => h
  | Ok _ =>
      match c with
      | Store.CCreateOperation o => with_token h (Some (o.(Operation.ID), Created))
      | Store.CCreateAudit event =>
          if bool_decide (event.(AuditEvent.Result) = "submitted")
          then with_token h (Some (event.(AuditEvent.OperationID), Submitted)) else h
      | Store.CTransition _ o _ =>
          if is_running o
          then mkHeld h.(job) (Some (o.(Operation.ID), Started)) h.(slot) h.(lock) (Some o) else h
      | Store.CUpdateOperation _ => with_token h None
      | _ => h
      end
  end.

Definition track {X} (e : effect X) : X → held → held :=
  match e in effect X return X → held → held with
  | NewID prefix => λ x h,
      match x with
      | Ok id => if bool_decide (prefix = "op") then with_token h (Some (id, Minted)) else h
      | Err _ => h
      end
  | StoreWrite _ c => λ x h, track_write c x h
  | Enqueue _ => λ x h, if x : bool then with_token h None else h
  | OperationAcquire _ => λ x h,
      match x with
      | Ok (_, r) => mkHeld h.(job) h.(token) (Some r) h.(lock) h.(running)
      | Err _ => h
      end
  | OperationRelease _ => λ _ h, mkHeld h.(job) h.(token) None h.(lock) None
  | LockSend _ stripe => λ x h,
      match x with
      | Ok _ => mkHeld h.(job) h.(token) h.(slot) (Some stripe) h.(running)
      | Err _ => h
      end
  | LockTrySend stripe => λ x h,
      if x : bool then mkHeld h.(job) h.(token) h.(slot) (Some stripe) h.(running) else h
  | LockReceive _ => λ _ h, mkHeld h.(job) h.(token) h.(slot) None h.(running)
  | HelmExecute _ _ _ => λ _ h, with_token h (execute_token h.(token))
  | GatewayCall _ _ m => λ _ h,
      if KubeGateway.mutates m then with_token h (execute_token h.(token)) else h
  | _ => λ _ h, h
  end.

(** ** What is observed of an operation *)

Inductive event : Type :=
  | Wrote (id : string) (state : OperationState)   (** its record was written *)
  | SubmissionAudited (id : string)                (** its "submitted" audit event was *)
  | Execution (id : string).                       (** Helm or the cluster was called for it *)

Definition observe_write (c : Store.call) (x : result unit) : list event :=
  match x, c with
  | Ok _, Store.CCreateOperation o | Ok _, Store.CTransition _ o _
  | Ok _, Store.CUpdateOperation o => [Wrote o.(Operation.ID) o.(Operation.State)]
  | Ok _, Store.CCreateAudit event =>
      if bool_decide (event.(AuditEvent.Result) = "submitted")
      then [SubmissionAudited event.(AuditEvent.OperationID)] else []
  | _, _ => []
  end.

Definition observe {X} (e : effect X) (h : held) : X → list event :=
  match e in effect X return X → list event with
  | StoreWrite _ c => λ x, observe_write c x
  | HelmExecute _ _ _ => λ _, [Execution (default "" (operationID <$> h.(job)))]
  | GatewayCall _ _ m => λ _,
      if KubeGateway.mutates m then [Execution (default "" (operationID <$> h.(job)))] else []
  | _ => λ _, []
  end.

(** ** The pool of goroutines *)

(** The requests the HTTP handlers make of the service. *)
Inductive request : Type :=
  | RSubmitHelm (actor requestID : string) (kind : OperationKind) (input : HelmOperationInput)
  | RSubmitWorkload (actor requestID : string) (kind : OperationKind)
      (input : WorkloadOperationInput)
  | RSubmitImage (actor requestID : string) (input : WorkloadImageOperationInput)
  | RPreviewImage (actor requestID : string) (input : WorkloadImageOperationInput)
  | RCancel (actor requestID operationID : string)
  | RRun (count : Z)
  | RCreateCluster (actor requestID : string) (input : ClusterInput)
  | RSetClusterEnabled (actor requestID id : string) (enabled : bool)
  | RDeleteCluster (actor requestID id expectedName : string)
  | RCreateRepository (actor requestID : string) (input : RepositoryInput)
  | RTestRepository (actor requestID id : string)
  | RSetRepositoryEnabled (actor requestID id : string) (enabled : bool)
  | RDeleteRepository (actor requestID id : string)
  | RRead (which : nat) (arguments : Service.read_arguments)
  | RListHelmReleases (clusterID namespace : string)
  | RHelmReleaseHistory (clusterID namespace releaseName : string)
  | RListOperations (limit : Z)
  | RListAuditEvents (limit : Z)
  | RGetOperation (id : string)
  | RCapacity.

Definition handle (r : request) : prog unit :=
  match r with
  | RSubmitHelm actor requestID kind input =>
      Service.discard (Operations.SubmitHelmOperation RequestCtx actor requestID kind input)
  | RSubmitWorkload actor requestID kind input =>
      Service.discard (Operations.SubmitWorkloadOperation RequestCtx actor requestID kind input)
  | RSubmitImage actor requestID input =>
      Service.discard (Operations.SubmitWorkloadImageUpdate RequestCtx actor requestID input)
  | RPreviewImage actor requestID input =>
      Service.discard (Operations.PreviewWorkloadImage RequestCtx actor requestID input)
  | RCancel actor requestID id =>
      Service.discard (Operations.CancelOperation RequestCtx actor requestID id)
  | RRun count => Operations.Run WorkerCtx count
  | RCreateCluster actor requestID input =>
      Service.discard (Service.CreateCluster RequestCtx actor requestID input)
  | RSetClusterEnabled actor requestID id enabled =>
      Service.discard (Service.SetClusterEnabled RequestCtx actor requestID id enabled)
  | RDeleteCluster actor requestID id expectedName =>
      Service.discard (Service.DeleteCluster RequestCtx actor requestID id expectedName)
  | RCreateRepository actor requestID input =>
      Service.discard (Repositories.CreateRepository RequestCtx actor requestID input)
  | RTestRepository actor requestID id =>
      Service.discard (Repositories.TestRepository RequestCtx actor requestID id)
  | RSetRepositoryEnabled actor requestID id enabled =>
      Service.discard (Repositories.SetRepositoryEnabled RequestCtx actor requestID id enabled)
  | RDeleteRepository actor requestID id =>
      Service.discard (Repositories.DeleteRepository RequestCtx actor requestID id)
  | RRead which arguments => default (Ret tt) (Service.cluster_reads arguments !! which)
  | RListHelmReleases clusterID namespace =>
      Service.discard (Operations.ListHelmReleases RequestCtx clusterID namespace)
  | RHelmReleaseHistory clusterID namespace releaseName =>
      Service.discard (Operations.HelmReleaseHistory RequestCtx clusterID namespace releaseName)
  | RListOperations limit => Service.discard (Operations.ListOperations RequestCtx limit)
  | RListAuditEvents limit => Service.discard (Operations.ListAuditEvents RequestCtx limit)
  | RGetOperation id => Service.discard (Operations.GetOperation RequestCtx id)
  | RCapacity => Service.discard Operations.OperationCapacity
  end.

Record thread : Type := mkThread { code : prog unit; holds : held }.

Record config : Type := mkConfig {
  shared : world;
  threads : list thread;
  history : list event;
}.

Inductive action : Type :=
  | Arrive (r : request)          (** a request starts *)
  | Receive                       (** an idle worker takes the first job of the queue *)
  | Step (i : nat) (E : env)      (** the next effect of goroutine [i] *)
  | Shutdown.                     (** the workers' context is cancelled *)

Definition nothing : held := mkHeld None None None None None.
Definition claims (j : operationJob) : held :=
  mkHeld (Some j) (Some (j.(operationID), Claimed)) None None None.

(** A worker is busy until its [executeOperation] returns. *)
Definition busy (t : thread) : bool :=
  match t.(holds).(job), t.(code) with Some _, Vis _ _ => true | _, _ => false end.

Definition exec (c : config) (a : action) : option config :=
  let w := c.(shared) in
  match a with
  | Arrive r =>
      Some (mkConfig w (c.(threads) ++ [mkThread (handle r) nothing]) c.(history))
  | Receive =>
      match w.(queue) with
      | [] => None
      | j :: q =>
          if len_list (List.filter busy c.(threads)) <? w.(workers) then
            Some (mkConfig (set_queue w q)
                    (c.(threads) ++ [mkThread (Operations.executeOperation j) (claims j)])
                    c.(history))
          else None
      end
  | Step i E =>
      match c.(threads) !! i with
      | Some (mkThread (Vis e k) h) =>
          '(w, x) ← perform_effect E e w;
          Some (mkConfig w (<[i := mkThread (k x) (track e x h)]> c.(threads))
                  (c.(history) ++ observe e h x))
      | _ => None
      end
  | Shutdown => Some (mkConfig (set_running w w.(workers) w.(runOnce) true) c.(threads) c.(history))
  end.

Fixpoint run (c : config) (actions : list action) : option config :=
  match actions with
  | [] => Some c
  | a :: actions => exec c a ≫= λ c', run c' actions
  end.

Definition init (w : world) : config := mkConfig w [] [].

(** ** What a goroutine may do

    The monitor of one goroutine: it owns at most one operation, whose stages it
    takes in order, executes it only as the worker of its job while it holds an
    operation slot and the lock of the operation's target, and gives back what it
    holds before it takes anything again. *)

Definition final_state (state : OperationState) : bool :=
  bool_decide (state = OperationSucceeded) || bool_decide (state = OperationFailed) ||
  bool_decide (state = OperationUnknown).

Definition target_of (o : Operation) : Z :=
  targetLock o.(Operation.ClusterID) o.(Operation.Namespace) o.(Operation.Target).

Definition works_on (h : held) (id : string) : bool :=
  bool_decide (operationID <$> h.(job) = Some id) && bool_decide (is_Some h.(slot)).

Definition permitted_write (c : Store.call) (h : held) : bool :=
  match c with
  | Store.CCreateOperation o =>
      bool_decide (h.(token) = Some (o.(Operation.ID), Minted)) &&
      bool_decide (o.(Operation.State) = OperationQueued)
  | Store.CCreateAudit event =>
      negb (bool_decide (event.(AuditEvent.Result) = "submitted")) ||
      bool_decide (h.(token) = Some (event.(AuditEvent.OperationID), Created))
  | Store.CTransition expected o _ =>
      bool_decide (expected = OperationQueued) &&
      if is_running o
      then bool_decide (h.(token) = Some (o.(Operation.ID), Claimed)) &&
           works_on h o.(Operation.ID) && bool_decide (h.(lock) = Some (target_of o))
      else bool_decide (o.(Operation.State) = OperationCanceled) ||
           bool_decide (o.(Operation.State) = OperationFailed) &&
           (bool_decide (h.(token) = Some (o.(Operation.ID), Created)) ||
            bool_decide (h.(token) = Some (o.(Operation.ID), Submitted)))
  | Store.CUpdateOperation o =>
      final_state o.(Operation.State) &&
      (bool_decide (h.(token) = Some (o.(Operation.ID), Started)) ||
       bool_decide (h.(token) = Some (o.(Operation.ID), Executed)))
  | _ => true
  end.

Definition permitted_execution (h : held) : bool :=
  match h.(running) with
  | Some o =>
      bool_decide (h.(token) = Some (o.(Operation.ID), Started)) &&
      works_on h o.(Operation.ID) && bool_decide (h.(lock) = Some (target_of o))
  | None => false
  end.

Definition permitted {X} (e : effect X) (h : held) : bool :=
  match e with
  | NewID prefix => negb (bool_decide (prefix = "op")) || bool_decide (h.(token) = None)
  | StoreWrite _ c => permitted_write c h
  | Enqueue j => bool_decide (h.(token) = Some (j.(operationID), Submitted))
  | OperationAcquire _ => bool_decide (h.(slot) = None)
  | OperationRelease r => bool_decide (h.(slot) = Some r)
  | LockSend _ _ | LockTrySend _ => bool_decide (h.(lock) = None)
  | LockReceive stripe => bool_decide (h.(lock) = Some stripe) && bool_decide (h.(running) = None)
  | HelmExecute _ _ _ => permitted_execution h
  | GatewayCall _ _ m => negb (KubeGateway.mutates m) || permitted_execution h
  | _ => true
  end.

(** The store answers a lookup with the operation of that identifier. *)
Definition possible {X} (e : effect X) : X → bool :=
  match e in effect X return X → bool with
  | StoreRead _ r => λ x,
      match r in store_read A return result A → bool with
      | GetOperation id => λ x,
          match x with Ok o => bool_decide (o.(Operation.ID) = id) | Err _ => true end
      | _ => λ _, true
      end x
  | _ => λ _, true
  end.

Definition ownership : monitor held := λ X e x h,
  if possible e x then allow_if (permitted e h) (track e x h) else Impossible.

(** Nothing but the token is left at the end. *)
Definition put_back (h : held) : Prop :=
  h.(slot) = None ∧ h.(lock) = None ∧ h.(running) = None.

End pool.
End Pool.
