(* ===== verification/Ownership.v ===== *)
(** * Every goroutine keeps to its monitor

    The programs of Service.v, Repositories.v and Operations.v respect the ownership
    discipline of Pool.v, whatever their effects answer. *)

From S2P Require Export Pool.

Local Open Scope Z_scope.
Local Open Scope stdpp_scope.
Local Open Scope go_scope.

Module Ownership.
Section ownership.
Context `{Platform} `{UnicodeTables} `{URLParser}.
Import Pool Service Operations.

(** ** The programs keep to the monitor *)

#[local] Ltac own_step := first [safe_step | progress settle].

Lemma own_audit ctx actor requestID action outcome clusterID namespace target summary operationID
    h (Q : result unit → held → Prop) :
  outcome ≠ "submitted" → (∀ r, Q r h) →
  safe ownership (audit ctx actor requestID action outcome clusterID namespace target summary
                    operationID) h Q.
Proof.
  intros Ho HQ. unfold audit, newAuditEvent, newID, now.
  repeat (own_step || done). unfold track_write. settle. by destruct x1.
Qed.

Lemma own_acquire ctx h (Q : result nat → held → Prop) :
  (∀ r, Q r h) → safe ownership (acquireKubernetesRead ctx) h Q.
Proof. intros HQ. unfold acquireKubernetesRead, alive. repeat (own_step || done). Qed.

Lemma own_clusterConnection c h (Q : result Connection → held → Prop) :
  (∀ r, Q r h) → safe ownership (clusterConnection c) h Q.
Proof. intros HQ. unfold clusterConnection. repeat (own_step || done). Qed.

Lemma own_gatewayForCluster ctx c h (Q : result Gateway → held → Prop) :
  (∀ r, Q r h) → safe ownership (gatewayForCluster ctx c) h Q.
Proof.
  intros HQ. unfold gatewayForCluster, gatewayCache_Get, alive.
  repeat (own_step || (apply own_clusterConnection; intros) || done).
Qed.

Lemma own_kubeGateway ctx id h (Q : result Gateway → held → Prop) :
  (∀ r, Q r h) → safe ownership (kubeGateway ctx id) h Q.
Proof.
  intros HQ. unfold kubeGateway.
  repeat (own_step || (apply own_gatewayForCluster; intros) || done).
Qed.

Lemma own_test ctx actor requestID id h (Q : _ → held → Prop) :
  (∀ r, Q r h) → safe ownership (testClusterConnection ctx actor requestID id) h Q.
Proof.
  intros HQ. unfold testClusterConnection, now.
  repeat first [apply safe_or_fail | apply own_gatewayForCluster; intros
    | apply own_audit; [done|intros] | own_step | done].
Qed.

#[local] Ltac own :=
  repeat first
    [ apply own_acquire; intros | apply own_kubeGateway; intros | apply own_test; intros
    | apply own_gatewayForCluster; intros | apply own_clusterConnection; intros
    | apply own_audit; [done|intros] | apply safe_or_fail | own_step | done ].

Lemma own_read {A} ctx id (m : KubeGateway.method A) :
  KubeGateway.mutates m = false → safe ownership (read ctx id m) nothing (λ _ h, h = nothing).
Proof. intros Hm. unfold read. own; by rewrite Hm. Qed.

Lemma own_guard {A} (v : result unit) (p : prog (result A)) :
  safe ownership p nothing (λ _ h, h = nothing) →
  safe ownership (Ret v ;;? p) nothing (λ _ h, h = nothing).
Proof. intros Hp. apply safe_try. by destruct v. Qed.

Lemma own_discard {A} (p : prog A) (Q : held → Prop) :
  safe ownership p nothing (λ _ h, Q h) → safe ownership (discard p) nothing (λ _ h, Q h).
Proof. intros Hp. by apply safe_bind_intro. Qed.

#[local] Ltac head t := lazymatch t with ?f _ => head f | _ => t end.
#[local] Ltac own_unfold :=
  unfold tryAcquireTargetLock, recordCredentialRotationFailure, newAuditEvent, newID, now, alive; own.

Lemma own_reads a : Forall (λ p, safe ownership p nothing (λ _ h, h = nothing)) (cluster_reads a).
Proof.
  unfold cluster_reads.
  repeat (apply Forall_cons_2; [apply own_discard|]); [..|by apply Forall_nil_2].
  all: lazymatch goal with
       | |- safe _ (ClusterCapabilities _ _ _) _ _ => unfold ClusterCapabilities; own_unfold
       | |- safe _ (Secrets _ _ _ _ _) _ _ => unfold Secrets; own_unfold
       | |- safe _ (PodLogs _ _ _ _ _) _ _ => unfold PodLogs; own_unfold
       | |- safe _ (ReviewServiceAccountAccess _ _ _ _ _) _ _ =>
           unfold ReviewServiceAccountAccess; own_unfold
       | |- safe _ (TestClusterConnection _ _ _ _) _ _ => unfold TestClusterConnection; own_unfold
       | |- safe _ (RotateClusterCredentials _ _ _ _ _) _ _ =>
           unfold RotateClusterCredentials; own_unfold
       | |- safe _ ?p _ _ => let f := head p in unfold f; repeat (apply own_guard); by apply own_read
       end.
Qed.

Lemma own_testRepository ctx actor requestID id h (Q : _ → held → Prop) :
  (∀ r, Q r h) → safe ownership (Repositories.testRepository ctx actor requestID id) h Q.
Proof.
  intros HQ. unfold Repositories.testRepository, Repositories.or_none,
    Repositories.repositoryConnection, now. own.
Qed.

Lemma own_cancel_all l h (Q : unit → held → Prop) : Q tt h → safe ownership (cancel_all l) h Q.
Proof.
  intros HQ. induction l as [|c l IH]; [done|].
  apply safe_bind_intro, safe_perform. intros x. exact IH.
Qed.

Lemma own_get ctx id h (Q : result Operation → held → Prop) :
  (∀ o, o.(Operation.ID) = id → Q (Ok o) h) → (∀ e, Q (Err e) h) →
  safe ownership (perform (StoreRead ctx (Program.GetOperation id))) h Q.
Proof.
  intros Ho He. apply safe_perform. intros [o|e]; unfold ownership; cbn; [|apply He].
  case_bool_decide; [by apply Ho|done].
Qed.

(** The requests that own no operation. *)
Definition plain (r : request) : bool :=
  match r with
  | RSubmitHelm _ _ _ _ | RSubmitWorkload _ _ _ _ | RSubmitImage _ _ _ | RCancel _ _ _ => false
  | _ => true
  end.

Lemma own_plain r : plain r = true → safe ownership (handle r) nothing (λ _ h, h = nothing).
Proof.
  destruct r; intros Hr; try discriminate Hr; clear Hr; unfold handle;
    try lazymatch goal with |- safe _ (discard _) _ _ => apply own_discard end.
  - unfold PreviewWorkloadImage. own_unfold.
  - unfold Run, cancelAllOperationControls. own_unfold.
    apply own_cancel_all. own.
  - unfold CreateCluster. own_unfold.
  - unfold SetClusterEnabled. own_unfold.
  - unfold DeleteCluster. own_unfold.
  - unfold Repositories.CreateRepository. own_unfold;
    repeat first [apply own_testRepository; intros | own_step | done].
  - unfold Repositories.TestRepository. apply own_testRepository. done.
  - unfold Repositories.SetRepositoryEnabled. own_unfold.
  - unfold Repositories.DeleteRepository. own_unfold. by destruct x0.
  - generalize (own_reads arguments). generalize (cluster_reads arguments). intros l Hl.
    rewrite Forall_lookup in Hl. destruct (l !! which) as [p|] eqn:E; [|by apply safe_Ret].
    exact (Hl which p E).
  - unfold ListHelmReleases. own_unfold.
  - unfold HelmReleaseHistory. own_unfold.
  - unfold ListOperations. own_unfold.
  - unfold ListAuditEvents. own_unfold.
  - unfold Operations.GetOperation. by apply own_get.
  - unfold OperationCapacity. own_unfold.
Qed.


Lemma track_unstarted expected o event x h :
  is_running o = false → track_write (Store.CTransition expected o event) x h = h.
Proof. intros Ho. unfold track_write. rewrite Ho. by destruct x. Qed.

Lemma own_createAndEnqueue ctx o j h (Q : result Operation → held → Prop) :
  h = with_token nothing (Some (o.(Operation.ID), Minted)) →
  o.(Operation.State) = OperationQueued → j.(operationID) = o.(Operation.ID) →
  (∀ r t, Q r (with_token nothing t)) →
  safe ownership (createAndEnqueueOperation ctx o j) h Q.
Proof.
  intros -> Ho Hj HQ. unfold createAndEnqueueOperation, operation_audit, audit, newAuditEvent,
    newID, now, registerOperationControl, releaseOperationControl, cancel_if.
  own; rewrite ?Hj; settle; rewrite ?track_unstarted by done; try apply HQ.
  all: first [done | rewrite (_ : is_running _ = false) by done; apply HQ].
Qed.

#[local] Ltac own_submit :=
  repeat first [apply own_createAndEnqueue; [done..|done] | own_step | done].

Lemma own_request r : safe ownership (handle r) nothing (λ _ h, put_back h).
Proof.
  destruct (plain r) eqn:Hr.
  { eapply safe_mono; [|by apply own_plain]. by intros [] h ->. }
  destruct r; try discriminate Hr; clear Hr; unfold handle; apply own_discard.
  - unfold SubmitHelmOperation, newID, now. own_submit.
  - unfold SubmitWorkloadOperation, newID, now. own_submit.
  - unfold SubmitWorkloadImageUpdate, newID, now. own_submit.
  - unfold CancelOperation, newID, now, signalOperationCancellation, cancel_if.
    apply safe_try, safe_Ret. destruct (ValidateOperationID _); [|done].
    apply safe_try, own_get; cbv beta iota; [intros o Ho|done].
    own_submit.
Qed.


Lemma own_repositoryConnection r h (Q : result RepositoryConnection → held → Prop) :
  (∀ x, Q x h) → safe ownership (Repositories.repositoryConnection r) h Q.
Proof. intros HQ. unfold Repositories.repositoryConnection. own. Qed.

Lemma own_helmRequest ctx input h (Q : result HelmRequest → held → Prop) :
  (∀ x, Q x h) → safe ownership (helmRequest ctx input) h Q.
Proof.
  intros HQ. unfold helmRequest.
  repeat first [apply own_clusterConnection; intros | apply own_repositoryConnection; intros
               | own_step | done].
Qed.

(** An execution happens at most once, and marks the token. *)
Lemma own_executeOperationJob ctx o j h (Q : result unit → held → Prop) :
  permitted_execution h = true → (∀ r, Q r h) →
  (∀ r, Q r (with_token h (execute_token h.(token)))) →
  safe ownership (executeOperationJob ctx o j) h Q.
Proof.
  intros Hp HQ HQ'. unfold executeOperationJob, drop_value, now.
  repeat first [apply own_helmRequest; intros | apply own_kubeGateway; intros | own_step | done].
Qed.

Lemma finished_id o executed shutdown now :
  (finished o executed shutdown now).1.(Operation.ID) = o.(Operation.ID).
Proof. unfold finished. destruct executed; [done|]. by destruct (_ && _). Qed.

Lemma finished_final o executed shutdown now :
  final_state (finished o executed shutdown now).1.(Operation.State) = true ∧
  (finished o executed shutdown now).2 ≠ "submitted".
Proof. unfold finished. destruct executed; [done|]. by destruct (_ && _). Qed.

(** The result is recorded under the token of the started operation, which the
    final write gives up. *)
Lemma own_recordResult o executed h (Q : unit → held → Prop) :
  (h.(token) = Some (o.(Operation.ID), Started) ∨ h.(token) = Some (o.(Operation.ID), Executed)) →
  Q tt h → Q tt (with_token h None) → safe ownership (recordResult o executed) h Q.
Proof.
  intros Ht HQ HQ'. unfold recordResult, worker_shutdown, operation_audit, now.
  assert (∀ o' (u : Operation.ID o' = Operation.ID o) (v : final_state (Operation.State o') = true),
    safe ownership (perform (StoreWrite (WithoutCancel WorkerCtx) (Store.CUpdateOperation o'))) h
      (λ _ h', Q tt h')) as Hw.
  { intros o' Hid Hf. apply safe_perform. intros [?|?]; cbn; rewrite Hf, Hid; cbn.
    all: apply allow_if_intro; [|done].
    all: apply orb_true_iff; rewrite !bool_decide_eq_true; tauto. }
  apply safe_bind_intro, safe_perform. intros n. cbn. apply safe_bind_intro.
  assert (∀ down, safe ownership
    (let ended := finished o executed down n in
     audited ← audit (WithoutCancel WorkerCtx) ended.1.(Operation.SubmittedBy)
       ended.1.(Operation.RequestID) ended.1.(Operation.Kind) ended.2
       ended.1.(Operation.ClusterID) ended.1.(Operation.Namespace) ended.1.(Operation.Target)
       ended.1.(Operation.ErrorCode) ended.1.(Operation.ID);
     let operation := match audited with Ok _ => ended.1 | Err _ => result_audit_failed ended.1 end in
     _ ← perform (StoreWrite (WithoutCancel WorkerCtx) (Store.CUpdateOperation operation));
     Ret tt) h Q) as Hrest.
  { intros down. cbv zeta. pose proof (finished_id o executed down n) as Hid.
    destruct (finished_final o executed down n) as [Hf Hs].
    apply safe_bind_intro, own_audit; [done|]. intros r. apply safe_bind_intro.
    by apply Hw; destruct r. }
  destruct executed as [?|err]; [by apply safe_Ret|]. destruct (Is err Canceled); [|by apply safe_Ret].
  apply safe_perform. intros x. apply Hrest.
Qed.

Lemma own_execute j : safe ownership (executeOperation j) (claims j) (λ _ h, put_back h).
Proof.
  unfold executeOperation. destruct (operationExecutionContext j) as [ctx finish] eqn:Ef.
  assert (∀ h, put_back h → safe ownership finish h (λ _ h, put_back h)) as Hfinish.
  { intros h Hh. revert Ef. unfold operationExecutionContext.
    destruct (control j); intros [= <- <-]; [|done]. unfold releaseOperationControl. own. }
  apply safe_defer, safe_bind_intro, own_get; cbv beta iota; [|intros e; by apply Hfinish].
  intros o Ho. destruct (negb _); [by apply Hfinish|].
  unfold acquireTargetLock, alive, now.
  apply safe_bind_intro, safe_try, safe_bind_intro, safe_perform. intros e. cbn.
  destruct e as [err|]; cbn; [by apply Hfinish|]. apply safe_try, safe_perform. intros [[]|err]; cbn;
    [|by apply Hfinish].
  set (l := targetLock _ _ _).
  apply safe_defer, safe_bind_intro, safe_perform. intros [[snap r]|err]; cbn;
    [|own; by apply Hfinish].
  assert (∀ t run (Q : held → Prop), (∀ h, put_back h → Q h) →
    safe ownership (perform (OperationRelease r)) (mkHeld (Some j) t (Some r) (Some l) run)
      (λ _ h, safe ownership (perform (LockReceive l)) h (λ _ h, Q h))) as Hback.
  { intros t run Q HQ. own. by apply HQ. }
  apply safe_defer, safe_bind_intro, safe_perform. intros n. cbn. apply safe_bind_intro, safe_perform.
  intros [[]|err]; cbn; unfold works_on; cbn; rewrite Ho; settle;
    change (is_running (Operation.start o n)) with true; cbn.
  - apply safe_bind_intro, own_executeOperationJob.
    + unfold permitted_execution, works_on. cbn. rewrite Ho. settle. done.
    + intros x. apply own_recordResult; [left; by rewrite <-Ho|apply Hback, Hfinish..].
    + intros x. apply own_recordResult; [right; by rewrite <-Ho|apply Hback, Hfinish..].
  - apply safe_Ret, Hback, Hfinish.
Qed.

End ownership.
End Ownership.
