(* ===== verification/Lifecycle.v ===== *)
(** * The life of an operation

    The phases an operation goes through (created, submitted, then cancelled,
    refused or run by one worker), what the store holds of it in each, and what one
    step of a goroutine does to operations, locks, slots and the queue. *)

From S2P Require Export Ownership.

Local Open Scope Z_scope.
Local Open Scope stdpp_scope.

Module Lifecycle.
Import Pool.

(** ** Lives *)

Inductive phase : Type :=
  | Absent
  | Queued (audited : bool)
  | Running (executed : bool)
  | Ended (state : OperationState).

Definition event_id (e : event) : string :=
  match e with Wrote id _ | SubmissionAudited id | Execution id => id end.

(** The life an operation may lead.  [None]: it may not. *)
Definition advance (p : phase) (e : event) : option phase :=
  match p, e with
  | Absent, Wrote _ s => if bool_decide (s = OperationQueued) then Some (Queued false) else None
  | Queued false, SubmissionAudited _ => Some (Queued true)
  | Queued audited, Wrote _ s =>
      if bool_decide (s = OperationRunning) && audited then Some (Running false)
      else if bool_decide (s = OperationCanceled) || bool_decide (s = OperationFailed)
      then Some (Ended s) else None
  | Running false, Execution _ => Some (Running true)
  | Running _, Wrote _ s => if final_state s then Some (Ended s) else None
  | Ended s, SubmissionAudited _ => Some (Ended s)
  | _, _ => None
  end.

Definition live_on (id : string) (p : option phase) (e : event) : option phase :=
  if bool_decide (event_id e = id) then p ≫= λ p, advance p e else p.

(** The phase of operation [id] after a history, from the phase it started in. *)
Definition life (id : string) (p : phase) (history : list event) : option phase :=
  foldl (live_on id) (Some p) history.

Lemma life_snoc id p h e : life id p (h ++ [e]) = live_on id (life id p h) e.
Proof. unfold life. by rewrite foldl_app. Qed.

Lemma live_on_other id p e : event_id e ≠ id → live_on id p e = p.
Proof. intros. unfold live_on. by rewrite bool_decide_eq_false_2. Qed.

Lemma live_on_same p e : live_on (event_id e) (Some p) e = advance p e.
Proof. unfold live_on. by rewrite bool_decide_eq_true_2. Qed.

Lemma live_on_self id p e : event_id e = id → live_on id (Some p) e = advance p e.
Proof. intros <-. apply live_on_same. Qed.

(** ** The store's side *)

Definition lookup_operation (s : State) (id : string) : option Operation :=
  List.find (Store.has_operation_id id) s.(State.Operations).

Definition state_of (s : State) (id : string) : option OperationState :=
  Operation.State <$> lookup_operation s id.

Definition ids (s : State) : list string := Operation.ID <$> s.(State.Operations).

Definition terminal (state : OperationState) : Prop :=
  state ≠ OperationQueued ∧ state ≠ OperationRunning.

(** What the store holds of an operation in each phase; retention may have dropped
    an operation that has ended. *)
Definition agrees (p : phase) (stored : option OperationState) : Prop :=
  match p with
  | Absent => stored = None
  | Queued _ => stored = Some OperationQueued
  | Running _ => stored = Some OperationRunning
  | Ended s => terminal s ∧ (stored = None ∨ stored = Some s)
  end.

Lemma in_flight_false o : in_flight o = false ↔ terminal o.(Operation.State).
Proof. unfold in_flight, terminal. by rewrite orb_false_iff, !bool_decide_eq_false. Qed.

Lemma lookup_operation_Some s id o :
  lookup_operation s id = Some o → o.(Operation.ID) = id ∧ o ∈ s.(State.Operations).
Proof. intros [Hid Hin]%Store.find_has_Some. by apply bool_decide_eq_true in Hid. Qed.

Lemma lookup_operation_intro s o :
  NoDup (ids s) → o ∈ s.(State.Operations) → lookup_operation s o.(Operation.ID) = Some o.
Proof. apply Store.find_unique_operation. Qed.

Lemma state_of_None s id : state_of s id = None ↔ lookup_operation s id = None.
Proof. unfold state_of. by rewrite fmap_None. Qed.

Lemma lookup_operation_None s id : lookup_operation s id = None ↔ id ∉ ids s.
Proof.
  unfold lookup_operation, ids. rewrite list_elem_of_fmap. split.
  - intros Hf (o & -> & Ho). apply list_elem_of_In in Ho.
    pose proof (find_none _ _ Hf _ Ho) as Hid. by apply bool_decide_eq_false in Hid.
  - intros Hn. destruct (List.find _ _) as [o|] eqn:E; [|done]. destruct Hn.
    apply lookup_operation_Some in E as [<- ?]. by exists o.
Qed.

(** Retention keeps what is in flight and may drop what has ended. *)
Lemma trim_state s l id :
  NoDup (Operation.ID <$> l) →
  s.(State.Operations) = Store.trimOperationHistory l →
  ∀ o, o.(Operation.ID) = id → o ∈ l →
  lookup_operation s id = Some o ∨ lookup_operation s id = None ∧ in_flight o = false.
Proof.
  intros Hnd Hs o <- Ho.
  assert (ids s = Operation.ID <$> Store.trimOperationHistory l) as Hids by (unfold ids; by rewrite Hs).
  assert (NoDup (ids s)) as Hnd'.
  { rewrite Hids. eapply Store.NoDup_sublist; [|exact Hnd].
    apply fmap_sublist, Store.trimOperationHistory_sublist. }
  destruct (decide (o ∈ Store.trimOperationHistory l)) as [Hin|Hout].
  - left. apply lookup_operation_intro; [done|]. by rewrite Hs.
  - right. destruct (in_flight o) eqn:Hf.
    + destruct Hout. destruct (Store.trimOperationHistory_flight l) as [Hkeep _].
      apply list_elem_of_In, (proj1 (filter_In in_flight o _)). rewrite Hkeep.
      apply filter_In. by rewrite <-list_elem_of_In.
    + split; [|done]. apply lookup_operation_None. rewrite Hids.
      intros (o' & Hid & Ho')%list_elem_of_fmap.
      assert (o' ∈ l) as Hl by (by eapply elem_of_sublist; [|apply Store.trimOperationHistory_sublist]).
      pose proof (Store.find_unique_operation l o Hnd Ho) as E1.
      pose proof (Store.find_unique_operation l o' Hnd Hl) as E2.
      rewrite <-Hid in E2. rewrite E1 in E2. injection E2 as ->. done.
Qed.

Lemma create_state e s o s' :
  NoDup (ids s) → o.(Operation.State) = OperationQueued →
  Store.CreateOperation e s o = Ok s' →
  NoDup (ids s') ∧ state_of s o.(Operation.ID) = None ∧
  state_of s' o.(Operation.ID) = Some OperationQueued ∧
  ∀ id, id ≠ o.(Operation.ID) →
    state_of s' id = state_of s id ∨
    state_of s' id = None ∧ ∃ st, state_of s id = Some st ∧ terminal st.
Proof.
  intros Hnd Ho Hs. unfold Store.CreateOperation in Hs.
  rewrite Store.then_Ok, Store.then_Ok, Store.guard_is_Ok in Hs. destruct Hs as (_ & Hfresh & [= <-]).
  pose proof (Store.NoDup_snoc_new _ _ _ Hnd Hfresh) as Hnd'.
  set (s' := State.set_Operations _ _).
  assert (NoDup (ids s')) as Hnds.
  { eapply Store.NoDup_sublist; [|exact Hnd']. apply fmap_sublist, Store.trimOperationHistory_sublist. }
  split_and!; [done| | |].
  - apply state_of_None, lookup_operation_None. by apply Store.existsb_false_not_in in Hfresh.
  - destruct (trim_state s' _ _ Hnd' eq_refl o eq_refl) as [E|[_ E]].
    + apply elem_of_app. right. by left.
    + unfold state_of. rewrite E. simpl. by rewrite Ho.
    + apply in_flight_false in E as [? _]. done.
  - intros id Hne. destruct (lookup_operation s id) as [x|] eqn:E.
    + destruct (lookup_operation_Some _ _ _ E) as [Hid Hx].
      destruct (trim_state s' _ id Hnd' eq_refl x Hid) as [E'|[E' Hf]].
      * apply elem_of_app. by left.
      * left. unfold state_of. by rewrite E, E'.
      * right. unfold state_of. rewrite E, E'. split; [done|]. eexists. split; [done|].
        by apply in_flight_false.
    + left. unfold state_of. rewrite E. f_equal. apply lookup_operation_None. intros Hin.
      apply lookup_operation_None in E. destruct E.
      apply (elem_of_sublist (ids s') (Operation.ID <$> s.(State.Operations) ++ [o])) in Hin;
        [|apply fmap_sublist, Store.trimOperationHistory_sublist].
      rewrite fmap_app, elem_of_app in Hin. set_solver.
Qed.

(** Writing a stored operation's record. *)
Lemma replace_state s o s' :
  NoDup (ids s) →
  s'.(State.Operations) =
    Store.replace_first (Store.has_operation_id o.(Operation.ID)) o s.(State.Operations) →
  is_Some (lookup_operation s o.(Operation.ID)) →
  NoDup (ids s') ∧ state_of s' o.(Operation.ID) = Some o.(Operation.State) ∧
  ∀ id, id ≠ o.(Operation.ID) → state_of s' id = state_of s id.
Proof.
  intros Hnd Hs' Hin. unfold ids, state_of, lookup_operation in *. rewrite Hs'. split_and!.
  - by rewrite Store.replace_operation_ids.
  - rewrite Store.find_replace_first_eq; [done|by apply bool_decide_eq_true|done].
  - intros id Hne. rewrite Store.find_replace_first_ne; [done|..].
    + by apply bool_decide_eq_false.
    + intros y Hy%bool_decide_eq_true. apply bool_decide_eq_false. congruence.
Qed.

Lemma transition_state e s expected o event s' :
  NoDup (ids s) → Store.TransitionOperation e s expected o event = Ok s' →
  NoDup (ids s') ∧ state_of s o.(Operation.ID) = Some expected ∧
  state_of s' o.(Operation.ID) = Some o.(Operation.State) ∧
  ∀ id, id ≠ o.(Operation.ID) → state_of s' id = state_of s id.
Proof.
  intros Hnd (_ & _ & _ & (current & Hc & <-) & ->)%Store.TransitionOperation_Ok.
  destruct (replace_state s o (State.mk s.(State.SchemaVersion) s.(State.Clusters)
    s.(State.Repositories) (Store.replace_first (Store.has_operation_id o.(Operation.ID)) o
    s.(State.Operations)) (match event with
     | Some a => Store.trimAuditHistory (s.(State.AuditEvents) ++ [a])
     | None => s.(State.AuditEvents) end))) as (? & ? & ?); [done|done|by eexists|].
  split_and!; try done. unfold state_of, lookup_operation. by rewrite Hc.
Qed.

Lemma update_state e s o s' :
  NoDup (ids s) → Store.UpdateOperation e s o = Ok s' →
  NoDup (ids s') ∧ state_of s' o.(Operation.ID) = Some o.(Operation.State) ∧
  ∀ id, id ≠ o.(Operation.ID) → state_of s' id = state_of s id.
Proof.
  unfold Store.UpdateOperation. rewrite Store.then_Ok, Store.then_Ok, Store.guard_is_Ok.
  intros Hnd (_ & Hex & [= <-]). apply replace_state; [done|done|].
  apply negb_false_iff, existsb_exists in Hex as (x & Hx & Hid).
  unfold lookup_operation. destruct (List.find _ _) eqn:E; [done|].
  by rewrite (find_none _ _ E _ Hx) in Hid.
Qed.

(** The calls that leave the operations alone. *)
Definition other_call (c : Store.call) : bool :=
  match c with
  | Store.CCreateOperation _ | Store.CUpdateOperation _ | Store.CTransition _ _ _ => false
  | _ => true
  end.

Lemma other_call_operations `{UnicodeTables} c e s s' :
  other_call c = true → Store.next c e s = Ok s' → s'.(State.Operations) = s.(State.Operations).
Proof.
  destruct c; intros Hc; try discriminate Hc; clear Hc; simpl.
  all: unfold Store.CreateCluster, Store.UpdateCluster, Store.RotateClusterCredentials,
    Store.DeleteCluster, Store.CreateRepository, Store.UpdateRepository, Store.DeleteRepository,
    Store.CreateAuditEvent; rewrite ?Store.then_Ok.
  all: intros Hs; repeat match goal with H : _ ∧ _ |- _ => destruct H as [_ H] end;
    by injection Hs as <-.
Qed.

(** ** What one step does to the operations *)

Section pool.
Context `{Platform} `{UnicodeTables} `{URLParser}.

Definition operations_of (w : world) : list Operation := w.(store).(State.Operations).

(** The ten ways a goroutine's step touches operations, tokens, the queue and the
    issued identifiers. *)
Inductive token_step (w : world) (h : held) (w' : world) (h' : held) : list event → Prop :=
  | TNone :
      operations_of w' = operations_of w → w'.(queue) = w.(queue) →
      w.(issued) ⊆ w'.(issued) → h'.(token) = h.(token) → token_step w h w' h' []
  | TMint id :
      w'.(store) = w.(store) → w'.(queue) = w.(queue) →
      id ∉ w.(issued) → w'.(issued) = {[id]} ∪ w.(issued) →
      h.(token) = None → h'.(token) = Some (id, Minted) → token_step w h w' h' []
  | TCreate e o :
      Store.CreateOperation e w.(store) o = Ok w'.(store) → w'.(queue) = w.(queue) →
      w'.(issued) = w.(issued) → o.(Operation.State) = OperationQueued →
      h.(token) = Some (o.(Operation.ID), Minted) → h'.(token) = Some (o.(Operation.ID), Created) →
      token_step w h w' h' [Wrote o.(Operation.ID) OperationQueued]
  | TAudit id :
      operations_of w' = operations_of w → w'.(queue) = w.(queue) → w'.(issued) = w.(issued) →
      h.(token) = Some (id, Created) → h'.(token) = Some (id, Submitted) →
      token_step w h w' h' [SubmissionAudited id]
  | TEnqueue j :
      w'.(store) = w.(store) → w'.(queue) = w.(queue) ++ [j] → w'.(issued) = w.(issued) →
      h.(token) = Some (j.(operationID), Submitted) → h'.(token) = None →
      token_step w h w' h' []
  | TStop e o event :
      Store.TransitionOperation e w.(store) OperationQueued o event = Ok w'.(store) →
      w'.(queue) = w.(queue) → w'.(issued) = w.(issued) →
      o.(Operation.State) = OperationCanceled ∨ o.(Operation.State) = OperationFailed →
      h'.(token) = h.(token) →
      token_step w h w' h' [Wrote o.(Operation.ID) o.(Operation.State)]
  | TStart e o event :
      Store.TransitionOperation e w.(store) OperationQueued o event = Ok w'.(store) →
      w'.(queue) = w.(queue) → w'.(issued) = w.(issued) →
      o.(Operation.State) = OperationRunning →
      h.(token) = Some (o.(Operation.ID), Claimed) → h'.(token) = Some (o.(Operation.ID), Started) →
      token_step w h w' h' [Wrote o.(Operation.ID) OperationRunning]
  | TExecute id :
      w'.(store) = w.(store) → w'.(queue) = w.(queue) → w'.(issued) = w.(issued) →
      h.(token) = Some (id, Started) → h'.(token) = Some (id, Executed) →
      token_step w h w' h' [Execution id]
  | TFinish e o :
      Store.UpdateOperation e w.(store) o = Ok w'.(store) → w'.(queue) = w.(queue) →
      w'.(issued) = w.(issued) → final_state o.(Operation.State) = true →
      h.(token) = Some (o.(Operation.ID), Started) ∨ h.(token) = Some (o.(Operation.ID), Executed) →
      h'.(token) = None →
      token_step w h w' h' [Wrote o.(Operation.ID) o.(Operation.State)].

Lemma read_store_possible {A} (r : store_read A) ctx err s :
  possible (StoreRead ctx r) (read_store r err s) = true.
Proof.
  destruct r as [| | | |id| |]; try done. simpl. unfold Store.GetOperation.
  destruct (Store.live err); simpl; [|done]. destruct (List.find _ _) as [o|] eqn:E; [|done].
  apply Store.find_has_Some in E as [E _]. exact E.
Qed.

(** The answers of a step are possible ones. *)
Lemma perform_possible E {X} (e : effect X) w w' x :
  perform_effect E e w = Some (w', x) → possible e x = true.
Proof.
  destruct e; try done. simpl. destruct (plausible _ _ _); [|done]. intros [= <- <-].
  apply (read_store_possible _ RequestCtx).
Qed.

#[local] Hint Constructors token_step : core.

Lemma write_step E ctx c w w' x h :
  perform_effect E (StoreWrite ctx c) w = Some (w', x) → permitted_write c h = true →
  token_step w h w' (track_write c x h) (observe_write c x).
Proof.
  simpl. destruct (plausible _ _ _); [|done].
  destruct (Store.next c _ _) as [s|err] eqn:En; simpl.
  2:{ intros [= <- <-] _. by apply TNone. }
  destruct (answer E _ (StoreWrite ctx c)) as [[]|err]; cbn; intros Hx; injection Hx as Hw Hr; subst;
    [|by intros _; apply TNone].
  intros Hp. destruct (other_call c) eqn:Ec.
  { pose proof (other_call_operations _ _ _ _ Ec En) as Hops. clear En.
    destruct c; try discriminate Ec; clear Ec; simpl in *; try (by apply TNone).
    case_bool_decide as Hs; [|by apply TNone].
    apply bool_decide_eq_true in Hp. by eapply TAudit. }
  revert Hp. simpl in En.
  destruct c; try discriminate Ec; clear Ec; simpl in *.
  - rewrite andb_true_iff, !bool_decide_eq_true. intros [Ht Ho]. rewrite Ho. by eapply TCreate.
  - rewrite andb_true_iff, orb_true_iff, !bool_decide_eq_true. intros [Hf Ht]. by eapply TFinish.
  - rewrite andb_true_iff, bool_decide_eq_true. intros [-> Ht].
    destruct (is_running operation) eqn:Er.
    + apply bool_decide_eq_true in Er. rewrite !andb_true_iff, !bool_decide_eq_true in Ht.
      rewrite Er. eapply TStart; naive_solver.
    + rewrite orb_true_iff, andb_true_iff, !bool_decide_eq_true in Ht.
      eapply TStop; naive_solver.
Qed.

Lemma execution_step w h :
  permitted_execution h = true →
  token_step w h w (with_token h (execute_token h.(token)))
    [Execution (default "" (operationID <$> h.(job)))].
Proof.
  unfold permitted_execution, works_on. destruct (running h) as [o|]; [|done].
  rewrite !andb_true_iff, !bool_decide_eq_true. intros [[Ht [Hj _]] _].
  rewrite Hj. simpl. eapply TExecute; try done. simpl. by rewrite Ht.
Qed.

Lemma perform_token_step E {X} (e : effect X) w w' x h :
  perform_effect E e w = Some (w', x) → permitted e h = true →
  token_step w h w' (track e x h) (observe e h x).
Proof.
  destruct e; try apply write_step; simpl.
  all: try (repeat case_match; intros; simplify_eq/=; by apply TNone).
  - destruct (answer E _ (NewID _)) as [id|err]; [|intros [= <- <-] _; by apply TNone].
    case_bool_decide; [done|]. intros [= <- <-]. simpl. case_bool_decide; [|intros _; by apply TNone; set_solver].
    subst. simpl. rewrite bool_decide_eq_true. intros Ht. by eapply TMint.
  - intros [= <- <-]. destruct (KubeGateway.mutates m); simpl; [apply execution_step|].
    intros _. by apply TNone.
  - destruct (_ <? _); intros [= <- <-]; [|intros _; by apply TNone].
    rewrite bool_decide_eq_true. intros Ht. by eapply TEnqueue.
  - intros [= <- <-]. apply execution_step.
Qed.

(** ** Locks, slots and the queue *)

Inductive lock_step (w : world) (h : held) (w' : world) (h' : held) : Prop :=
  | LNone : w'.(locks) = w.(locks) → h'.(lock) = h.(lock) → lock_step w h w' h'
  | LTake l :
      l ∉ w.(locks) → w'.(locks) = {[l]} ∪ w.(locks) → h.(lock) = None → h'.(lock) = Some l →
      lock_step w h w' h'
  | LGive l :
      w'.(locks) = w.(locks) ∖ {[l]} → h.(lock) = Some l → h'.(lock) = None →
      lock_step w h w' h'.

Inductive slot_step (w : world) (h : held) (w' : world) (h' : held) : Prop :=
  | SNone :
      w'.(operationGovernor) = w.(operationGovernor) → h'.(slot) = h.(slot) → slot_step w h w' h'
  | STake sample now snapshot r :
      Governor.TryAcquire w.(operationGovernor) sample now =
        (w'.(operationGovernor), snapshot, Some r) →
      h.(slot) = None → h'.(slot) = Some r → slot_step w h w' h'
  | SGive r :
      w'.(operationGovernor) = Governor.release w.(operationGovernor) r →
      h.(slot) = Some r → h'.(slot) = None → slot_step w h w' h'.

Lemma track_write_rest c x h :
  (track_write c x h).(lock) = h.(lock) ∧ (track_write c x h).(slot) = h.(slot) ∧
  (track_write c x h).(job) = h.(job).
Proof.
  unfold track_write. destruct x, c; try done; [by destruct (is_running _)|by case_bool_decide].
Qed.

Lemma track_job {X} (e : effect X) x h : (track e x h).(job) = h.(job).
Proof.
  destruct e; simpl; try done; try (by repeat case_match).
  by destruct (track_write_rest c x h) as (_ & _ & ?).
Qed.

Lemma write_rest E ctx c w w' x :
  perform_effect E (StoreWrite ctx c) w = Some (w', x) →
  w'.(locks) = w.(locks) ∧ w'.(operationGovernor) = w.(operationGovernor).
Proof.
  simpl. destruct (plausible _ _ _); [|done]. destruct (Store.commit _ _ _) as [s r].
  by intros [= <- _].
Qed.

Lemma perform_lock_step E {X} (e : effect X) w w' x h :
  perform_effect E e w = Some (w', x) → permitted e h = true → lock_step w h w' (track e x h).
Proof.
  destruct e.
  all: try (intros Hw _; apply LNone; [|by apply track_write_rest]; by eapply write_rest).
  all: simpl.
  all: try (repeat case_match; intros; simplify_eq/=; by apply LNone).
  - destruct (answer _ _ _) as [|err]; [|destruct (plausible _ _ _); intros; simplify_eq/=; by apply LNone].
    case_bool_decide; [done|]. intros [= <- <-] Hl%bool_decide_eq_true. by eapply LTake.
  - case_bool_decide; intros [= <- <-]; [intros _; by apply LNone|].
    intros Hl%bool_decide_eq_true. by eapply LTake.
  - case_bool_decide; [|done]. intros [= <- <-].
    rewrite andb_true_iff, !bool_decide_eq_true. intros [Hl _]. by eapply LGive.
Qed.

Lemma perform_slot_step E {X} (e : effect X) w w' x h :
  perform_effect E e w = Some (w', x) → permitted e h = true → slot_step w h w' (track e x h).
Proof.
  destruct e.
  all: try (intros Hw _; apply SNone; [|by apply track_write_rest]; by eapply write_rest).
  all: simpl.
  all: try (repeat case_match; intros; simplify_eq/=; by apply SNone).
  - destruct (answer _ _ _) as [|err]; [|destruct (plausible _ _ _); intros; simplify_eq/=; by apply SNone].
    destruct (Governor.TryAcquire _ _ _) as [[g s] [r|]] eqn:Eg; [|done].
    intros [= <- <-] Hs%bool_decide_eq_true. by eapply STake.
  - intros [= <- <-] Hs%bool_decide_eq_true. by eapply SGive.
Qed.

End pool.
End Lifecycle.
