(* ===== verification/Interleaving.v ===== *)
(** * Interleavings of requests and workers

    The invariant of the pool of goroutines of Pool.v, kept by every action, and
    what it shows of every reachable configuration: the lives of operations, the
    exclusion of executions on one target, and that nothing held is lost. *)

From S2P Require Export Lifecycle.

Local Open Scope Z_scope.
Local Open Scope stdpp_scope.

Module Interleaving.
Import Pool Lifecycle.
Section pool.
Context `{Platform} `{UnicodeTables} `{URLParser}.

(** ** The invariant *)

(** The phase a new pool finds an operation in: what was in flight when the store
    was opened has been closed by [reconcileInterruptedOperations]. *)
Definition first_phase (s : State) (id : string) : phase :=
  match lookup_operation s id with
  | Some o => Ended o.(Operation.State)
  | None => Absent
  end.

(** The phases in which an operation can be that a goroutine holds at a stage. *)
Definition stage_ok (st : stage) (p : phase) : Prop :=
  match st with
  | Minted => p = Absent
  | Created => p = Queued false ∨ ∃ s, p = Ended s
  | Submitted | Claimed => p = Queued true ∨ ∃ s, p = Ended s
  | Started => p = Running false
  | Executed => p = Running true
  end.

Definition token_id (t : thread) : option string := fst <$> t.(holds).(token).

(** The operations somebody is responsible for: the goroutines', and the queue's. *)
Definition tokens (c : config) : list string :=
  omap token_id c.(threads) ++ (operationID <$> c.(shared).(queue)).

Definition phase_of (s : State) (c : config) (id : string) : option phase :=
  life id (first_phase s id) c.(history).

Record inv (s : State) (c : config) : Prop := {
  inv_ids : NoDup (ids c.(shared).(store));
  inv_life id : ∃ p, phase_of s c id = Some p ∧ agrees p (state_of c.(shared).(store) id);
  inv_known id p : phase_of s c id = Some p → p ≠ Absent → id ∈ c.(shared).(issued);
  inv_tokens : NoDup (tokens c);
  inv_issued id : id ∈ tokens c → id ∈ c.(shared).(issued);
  inv_stage i t id st p :
    c.(threads) !! i = Some t → t.(holds).(token) = Some (id, st) →
    phase_of s c id = Some p → stage_ok st p;
  inv_queue j p :
    j ∈ c.(shared).(queue) → phase_of s c j.(operationID) = Some p → stage_ok Submitted p;
  inv_safe i t :
    c.(threads) !! i = Some t → safe ownership t.(code) t.(holds) (λ _ h, put_back h);
}.

Lemma agrees_queued p : agrees p (Some OperationQueued) → ∃ a, p = Queued a.
Proof.
  destruct p as [|a|x|s]; simpl; [done|by exists a|done|].
  intros [[Hq _] [?|[= <-]]]; done.
Qed.

Lemma agrees_dropped p s : agrees p (Some s) → terminal s → agrees p None.
Proof.
  destruct p as [|a|x|s']; simpl; [done| | |].
  - intros [= ->] [? _]. done.
  - intros [= ->] [_ ?]. done.
  - intros [? [?|[= ->]]]; [done|]. intros ?. by split; [|left].
Qed.

Lemma final_terminal s : final_state s = true → terminal s.
Proof.
  unfold final_state. rewrite !orb_true_iff, !bool_decide_eq_true.
  unfold terminal. by intros [[-> | ->] | ->].
Qed.

(** How the phases move in a step: the phase of the goroutine's own operation by the
    step's event, another one's only by being stopped while it was queued. *)
Definition moves (own : option string) (id : string) (p p' : phase) : Prop :=
  p' = p ∨ own = Some id ∨ ∃ a s, p = Queued a ∧ p' = Ended s.

Section step.
Context (s : State) (w : world) (h : held) (w' : world) (h' : held) (history : list event).
Notation before id := (life id (first_phase s id) history).
Notation after evs id := (life id (first_phase s id) (history ++ evs)).
Context (Hnd : NoDup (ids w.(store))).
Context (Hlife : ∀ id, ∃ p, before id = Some p ∧ agrees p (state_of w.(store) id)).
Context (Hstage : ∀ id st p, h.(token) = Some (id, st) → before id = Some p → stage_ok st p).

Definition lives (evs : list event) : Prop := ∀ id, ∃ p p',
  before id = Some p ∧ after evs id = Some p' ∧
  agrees p' (state_of w'.(store) id) ∧ moves (fst <$> h.(token)) id p p'.

Definition steps_stage (evs : list event) : Prop := ∀ id st p,
  h'.(token) = Some (id, st) → after evs id = Some p → stage_ok st p.

Lemma no_event : operations_of w' = operations_of w → lives [].
Proof.
  intros Ho id. destruct (Hlife id) as (p & Hp & Ha). exists p, p. rewrite app_nil_r.
  split_and!; try done; [|by left].
  unfold state_of, lookup_operation, operations_of in *. by rewrite Ho.
Qed.

Lemma one_event e :
  (∀ id, id ≠ event_id e →
     state_of w'.(store) id = state_of w.(store) id ∨
     state_of w'.(store) id = None ∧ ∃ st, state_of w.(store) id = Some st ∧ terminal st) →
  (∀ p, before (event_id e) = Some p → agrees p (state_of w.(store) (event_id e)) →
     ∃ p', advance p e = Some p' ∧ agrees p' (state_of w'.(store) (event_id e)) ∧
       moves (fst <$> h.(token)) (event_id e) p p') →
  lives [e].
Proof.
  intros Hother Hself id. destruct (Hlife id) as (p & Hp & Ha). exists p. rewrite life_snoc, Hp.
  destruct (decide (id = event_id e)) as [->|Hne].
  - destruct (Hself p Hp Ha) as (p' & Hadv & Ha' & Hm). exists p'. by rewrite live_on_same.
  - exists p. rewrite live_on_other by done. split_and!; try done; [|by left].
    destruct (Hother id Hne) as [->|[-> (st & E & Ht)]]; [done|].
    rewrite E in Ha. by eapply agrees_dropped.
Qed.

Lemma own_event e id st p' :
  event_id e = id → (∀ p, before id = Some p → advance p e = Some p' → stage_ok st p') →
  after [e] id = Some p' → stage_ok st p'.
Proof.
  intros <- Hadv. rewrite life_snoc. destruct (Hlife (event_id e)) as (p & Hp & _).
  rewrite Hp, live_on_same. by apply Hadv.
Qed.

Lemma same_operations : operations_of w' = operations_of w → NoDup (ids w'.(store)).
Proof. unfold operations_of, ids in *. by intros ->. Qed.

Lemma same_state : operations_of w' = operations_of w →
  ∀ id, state_of w'.(store) id = state_of w.(store) id.
Proof. intros Ho id. unfold state_of, lookup_operation, operations_of in *. by rewrite Ho. Qed.

(** A step keeps every operation on its life, and the goroutine's own at its stage. *)
Lemma step_life evs :
  token_step w h w' h' evs → (∀ id, id ∉ w.(issued) → before id = Some Absent) →
  NoDup (ids w'.(store)) ∧ lives evs ∧ steps_stage evs.
Proof.
  intros Hstep Hunknown. destruct Hstep as
    [Ho _ _ Ht|id Hs _ Hid _ _ Ht|e o Hc _ _ Hq Ht Ht'|id Ho _ _ Ht Ht'|j Hs _ _ Ht Ht'
    |e o ev Hc _ _ Hq Ht|e o ev Hc _ _ Hq Ht Ht'|id Hs _ _ Ht Ht'|e o Hc _ _ Hf Ht Ht'].
  - split_and!; [by apply same_operations|by apply no_event|].
    intros id st p. rewrite app_nil_r, Ht. apply Hstage.
  - assert (operations_of w' = operations_of w) as Ho by (unfold operations_of; by rewrite Hs).
    split_and!; [by apply same_operations|by apply no_event|].
    intros id' st p. rewrite app_nil_r, Ht. intros [= <- <-]. rewrite Hunknown by done. by intros [= <-].
  - destruct (create_state _ _ _ _ Hnd Hq Hc) as (Hnd' & _ & Hnew & Hother).
    assert (∀ p, before (Operation.ID o) = Some p → p = Absent) as Hp.
    { intros p Hbp. exact (Hstage _ Minted _ Ht Hbp). }
    split_and!; [done|apply one_event; [done|]|].
    + intros p Hbp _. apply Hp in Hbp as ->. exists (Queued false). simpl. split_and!; try done. right. left. by rewrite Ht.
    + intros id st p. rewrite Ht'. intros [= <- <-]. apply own_event; [done|].
      intros p0 Hbp. apply Hp in Hbp as ->. simpl. intros [= <-]. by left.
  - split_and!; [by apply same_operations|apply one_event; [by left; apply same_state|]|].
    + intros p Hp. rewrite (same_state Ho). pose proof (Hstage _ _ _ Ht Hp) as Hst.
      assert (fst <$> h.(token) = Some id) as Hown by (by rewrite Ht).
      destruct Hst as [->|[s' ->]]; intros Ha;
        eexists; (split_and!; [done|exact Ha|by right; left]).
    + intros id' st p. rewrite Ht'. intros [= <- <-]. apply own_event; [done|].
      intros p0 Hp. destruct (Hstage _ _ _ Ht Hp) as [->|[s' ->]]; simpl; intros [= <-];
        [by left|right; by eexists].
  - assert (operations_of w' = operations_of w) as Ho by (unfold operations_of; by rewrite Hs).
    split_and!; [by apply same_operations|by apply no_event|].
    intros id' st p. by rewrite Ht'.
  - destruct (transition_state _ _ _ _ _ _ Hnd Hc) as (Hnd' & Hold & Hnew & Hother).
    assert (terminal o.(Operation.State)) as Hterm by (unfold terminal; destruct Hq as [-> | ->]; done).
    assert (∀ a, advance (Queued a) (Wrote (Operation.ID o) (Operation.State o)) =
                 Some (Ended (Operation.State o))) as Hadv by (intros []; by destruct Hq as [-> | ->]).
    split_and!; [done|apply one_event; [by left; apply Hother|]|].
    + intros p _. simpl. rewrite Hold. intros [a ->]%agrees_queued.
      exists (Ended (Operation.State o)). split_and!; [apply Hadv| |].
      * rewrite Hnew. split; [done|by right].
      * right. right. by exists a, (Operation.State o).
    + intros id st p. rewrite Ht. intros Htok.
      destruct (decide (id = Operation.ID o)) as [->|Hne].
      * apply own_event; [done|]. intros p0 Hp. destruct (Hlife (Operation.ID o)) as (q & Hp' & Ha).
        rewrite Hp in Hp'. injection Hp' as <-. rewrite Hold in Ha.
        apply agrees_queued in Ha as [a ->]. rewrite Hadv. intros [= <-].
        pose proof (Hstage _ _ _ Htok Hp) as Hst.
        destruct st; simpl in *; try done; try (right; by eexists).
      * rewrite life_snoc, live_on_other by done. by apply Hstage.
  - destruct (transition_state _ _ _ _ _ _ Hnd Hc) as (Hnd' & Hold & Hnew & Hother).
    assert (∀ p, before (Operation.ID o) = Some p → p = Queued true) as Hp.
    { intros p Hp. destruct (Hlife (Operation.ID o)) as (q & Hp' & Ha).
      rewrite Hp in Hp'. injection Hp' as <-. rewrite Hold in Ha. apply agrees_queued in Ha as [a ->].
      destruct (Hstage _ _ _ Ht Hp) as [?|[? ?]]; done. }
    split_and!; [done|apply one_event; [by left; apply Hother|]|].
    + intros p Hbp _. apply Hp in Hbp as ->. exists (Running false). simpl in *. rewrite Hnew, Hq.
      split_and!; try done. right. left. by rewrite Ht.
    + intros id st p. rewrite Ht'. intros [= <- <-]. apply own_event; [done|].
      intros p0 Hbp. apply Hp in Hbp as ->. simpl. by intros [= <-].
  - assert (operations_of w' = operations_of w) as Ho by (unfold operations_of; by rewrite Hs).
    split_and!; [by apply same_operations|apply one_event; [by left; apply same_state|]|].
    + intros p Hp. pose proof (Hstage _ _ _ Ht Hp) as Hst. simpl in Hst. subst p.
      rewrite (same_state Ho). intros Ha. exists (Running true). split_and!; try done.
      right. left. by rewrite Ht.
    + intros id' st p. rewrite Ht'. intros [= <- <-]. apply own_event; [done|].
      intros p0 Hp. pose proof (Hstage _ _ _ Ht Hp) as Hst. simpl in Hst. subst p0. simpl. by intros [= <-].
  - destruct (update_state _ _ _ _ Hnd Hc) as (Hnd' & Hnew & Hother).
    split_and!; [done|apply one_event; [by left; apply Hother|]|].
    + intros p Hp _. exists (Ended (Operation.State o)). simpl in *. rewrite Hnew.
      split; [|split; [by split; [apply final_terminal|right]|]].
      * destruct Ht as [Ht|Ht]; pose proof (Hstage _ _ _ Ht Hp) as Hst; simpl in Hst; subst p;
          simpl; by rewrite Hf.
      * right. left. by destruct Ht as [-> | ->].
    + intros id st p. by rewrite Ht'.
Qed.
End step.

(** ** The invariant is kept *)

Definition own_ids (h : held) : list string := option_list (fst <$> h.(token)).

(** Everybody's tokens but goroutine [i]'s. *)
Definition other_ids (i : nat) (c : config) : list string := omap token_id (delete i c.(threads)).

Lemma omap_Permutation {A B} (f : A → option B) (l l' : list A) : l ≡ₚ l' → omap f l ≡ₚ omap f l'.
Proof. intros Hl. by rewrite Hl. Qed.

Lemma omap_split {A B} (f : A → option B) (l : list A) i x :
  l !! i = Some x → omap f l ≡ₚ option_list (f x) ++ omap f (delete i l).
Proof.
  intros Hx. rewrite (omap_Permutation f l (x :: delete i l)) by by apply delete_Permutation.
  simpl. by destruct (f x).
Qed.

Lemma delete_insert {A} (l : list A) i y : delete i (<[i:=y]> l) = delete i l.
Proof. revert i. induction l as [|z l IH]; intros [|i]; simpl; f_equal; auto. Qed.

Lemma omap_split_insert {A B} (f : A → option B) (l : list A) i x y :
  l !! i = Some x → omap f (<[i:=y]> l) ≡ₚ option_list (f y) ++ omap f (delete i l).
Proof.
  intros Hx. rewrite (omap_split f (<[i:=y]> l) i y), delete_insert; [done|].
  apply list_lookup_insert_eq. by eapply lookup_lt_Some.
Qed.

Lemma tokens_split c i t :
  c.(threads) !! i = Some t →
  tokens c ≡ₚ own_ids t.(holds) ++ other_ids i c ++ (operationID <$> c.(shared).(queue)).
Proof. intros Ht. unfold tokens. by rewrite (omap_split _ _ _ _ Ht), <-app_assoc. Qed.

Lemma tokens_insert c i t t' w' hist :
  c.(threads) !! i = Some t →
  tokens (mkConfig w' (<[i:=t']> c.(threads)) hist) ≡ₚ
  own_ids t'.(holds) ++ other_ids i c ++ (operationID <$> w'.(queue)).
Proof. intros Ht. unfold tokens. simpl. by rewrite (omap_split_insert _ _ _ _ _ Ht), <-app_assoc. Qed.

Lemma own_elem h id : id ∈ own_ids h ↔ fst <$> h.(token) = Some id.
Proof. unfold own_ids. destruct (fst <$> _); simpl; set_solver. Qed.

(** Tokens are made from fresh identifiers, passed to the queue, or given up. *)
Lemma token_step_tokens w h w' h' evs :
  token_step w h w' h' evs →
  w.(issued) ⊆ w'.(issued) ∧
  (∀ j, j ∈ w'.(queue) → j ∈ w.(queue) ∨ h.(token) = Some (j.(operationID), Submitted) ∧ evs = []) ∧
  (own_ids h' ++ (operationID <$> w'.(queue)) ≡ₚ own_ids h ++ (operationID <$> w.(queue)) ∨
   own_ids h' = [] ∧ w'.(queue) = w.(queue) ∨
   ∃ id, own_ids h = [] ∧ own_ids h' = [id] ∧ w'.(queue) = w.(queue) ∧
     id ∉ w.(issued) ∧ id ∈ w'.(issued)).
Proof.
  unfold own_ids. destruct 1 as
    [_ Hq Hi Ht|id _ Hq Hid Hi Ht Ht'|e o _ Hq Hi _ Ht Ht'|id _ Hq Hi Ht Ht'|j _ Hq Hi Ht Ht'
    |e o ev _ Hq Hi _ Ht|e o ev _ Hq Hi _ Ht Ht'|id _ Hq Hi Ht Ht'|e o _ Hq Hi _ _ Ht'].
  all: rewrite ?Hq; (split; [set_solver|split; [set_solver|]]).
  - left. by rewrite Ht.
  - right. right. exists id. rewrite Ht, Ht'. split_and!; set_solver.
  - left. by rewrite Ht, Ht'.
  - left. by rewrite Ht, Ht'.
  - left. rewrite Ht, Ht', fmap_app. simpl. by rewrite Permutation_app_comm.
  - left. by rewrite Ht.
  - left. by rewrite Ht, Ht'.
  - left. by rewrite Ht, Ht'.
  - right. left. by rewrite Ht'.
Qed.

Lemma inv_fresh s c id : inv s c → id ∉ c.(shared).(issued) → phase_of s c id = Some Absent.
Proof.
  intros Hi Hid. destruct (inv_life _ _ Hi id) as (p & Hp & _).
  destruct p; [done|..]; destruct Hid; by eapply inv_known.
Qed.

Lemma stage_moves st own id p p' :
  stage_ok st p → moves own id p p' → own ≠ Some id → stage_ok st p'.
Proof.
  intros Hst [->|[?|(a & s & -> & ->)]] Hne; [done|done|].
  destruct st; simpl in *; naive_solver.
Qed.

(** What the goroutine's next effect may be, and what is left to run. *)
Lemma inv_next s c i X (e : effect X) k h x :
  inv s c → c.(threads) !! i = Some (mkThread (Vis e k) h) → possible e x = true →
  permitted e h = true ∧ safe ownership (k x) (track e x h) (λ _ h, put_back h).
Proof.
  intros Hi Ht Hx. pose proof (inv_safe _ _ Hi i _ Ht x) as Hs. simpl in Hs. unfold ownership in Hs.
  rewrite Hx in Hs. unfold allow_if in Hs. by destruct (permitted e h).
Qed.

(** Somebody else's operation. *)
Lemma other_elem c i t id :
  NoDup (tokens c) → c.(threads) !! i = Some t →
  id ∈ other_ids i c ++ (operationID <$> c.(shared).(queue)) →
  id ∈ tokens c ∧ fst <$> t.(holds).(token) ≠ Some id.
Proof.
  intros Hnd Ht Hid. rewrite (tokens_split c i t Ht) in Hnd |- *. split; [set_solver|].
  rewrite <-own_elem. intros Hown. rewrite NoDup_app in Hnd. destruct Hnd as (_ & Hnd & _).
  by apply (Hnd id).
Qed.

Lemma other_thread c i j t u id st :
  NoDup (tokens c) → c.(threads) !! i = Some t → c.(threads) !! j = Some u → i ≠ j →
  u.(holds).(token) = Some (id, st) → fst <$> t.(holds).(token) ≠ Some id.
Proof.
  intros Hnd Ht Hu Hij Hid. apply (other_elem c i t id Hnd Ht), elem_of_app. left.
  unfold other_ids. apply list_elem_of_omap. exists u. unfold token_id. rewrite Hid. split; [|done].
  apply list_elem_of_lookup. destruct (decide (j < i)%nat).
  - exists j. by rewrite list_lookup_delete_lt.
  - exists (pred j). rewrite list_lookup_delete_ge by lia. by replace (S (pred j)) with j by lia.
Qed.

Lemma step_tokens c i t w' t' evs hist :
  NoDup (tokens c) → (∀ id, id ∈ tokens c → id ∈ c.(shared).(issued)) →
  c.(threads) !! i = Some t → token_step c.(shared) t.(holds) w' t'.(holds) evs →
  NoDup (tokens (mkConfig w' (<[i:=t']> c.(threads)) hist)) ∧
  ∀ id, id ∈ tokens (mkConfig w' (<[i:=t']> c.(threads)) hist) → id ∈ w'.(issued).
Proof.
  intros Hnd Hiss Ht Hstep.
  destruct (token_step_tokens _ _ _ _ _ Hstep) as (Hsub & _ & Htok).
  pose proof (tokens_split c i t Ht) as Hc.
  pose proof (tokens_insert c i t t' w' hist Ht) as Hc'.
  destruct Htok as [Hp|[[Hown Hq]|(id & Hown & Hown' & Hq & Hid & Hid')]].
  - rewrite Permutation_app_swap_app, Hp, <-Permutation_app_swap_app, <-Hc in Hc'.
    split; [by rewrite Hc'|]. intros id. rewrite Hc'. auto.
  - rewrite Hown, Hq in Hc'. rewrite Hc in Hnd. apply NoDup_app in Hnd as (_ & _ & Hnd).
    split; [by rewrite Hc'|]. intros id. rewrite Hc'. intros Hin. apply Hsub, Hiss.
    rewrite Hc. set_solver.
  - rewrite Hown', Hq in Hc'. rewrite Hown in Hc. simpl in Hc, Hc'. rewrite <-Hc in Hc'.
    split; [rewrite Hc'; apply NoDup_cons; by auto|]. intros id'. rewrite Hc'. set_solver.
Qed.

Lemma step_inv s c i t w' t' evs :
  inv s c → c.(threads) !! i = Some t →
  token_step c.(shared) t.(holds) w' t'.(holds) evs →
  safe ownership t'.(code) t'.(holds) (λ _ h, put_back h) →
  inv s (mkConfig w' (<[i:=t']> c.(threads)) (c.(history) ++ evs)).
Proof.
  intros Hi Ht Hstep Hsafe.
  assert (∀ id st p, t.(holds).(token) = Some (id, st) →
    life id (first_phase s id) c.(history) = Some p → stage_ok st p) as Hstage.
  { intros id st p Htok. by eapply inv_stage. }
  destruct (step_life s _ _ _ _ _ (inv_ids _ _ Hi) (inv_life _ _ Hi) Hstage _ Hstep
    (λ id, inv_fresh s c id Hi)) as (Hids & Hlives & Hst).
  destruct (token_step_tokens _ _ _ _ _ Hstep) as (Hiss & Hqueue & _).
  pose proof (inv_tokens _ _ Hi) as Hnd.
  destruct (step_tokens c i t w' t' evs (c.(history) ++ evs) Hnd (inv_issued _ _ Hi) Ht Hstep)
    as [Hnd' Hiss'].
  split; simpl; try done.
  - intros id. destruct (Hlives id) as (p & p' & _ & Hp' & Ha & _). by exists p'.
  - intros id p Hp Hne. destruct (Hlives id) as (p0 & p' & Hp0 & Hp' & _ & Hm).
    unfold phase_of in Hp. simpl in Hp. rewrite Hp' in Hp. injection Hp as ->. apply Hiss.
    destruct Hm as [->|[Hown|(a & s' & -> & _)]]; [by eapply inv_known| |by eapply inv_known].
    eapply inv_issued; [done|]. rewrite (tokens_split c i t Ht), elem_of_app. left.
    by apply own_elem.
  - intros j u id st p Hu Htok. destruct (decide (i = j)) as [<-|Hij].
    + rewrite list_lookup_insert_eq in Hu by (by eapply lookup_lt_Some).
      injection Hu as <-. by apply Hst.
    + rewrite list_lookup_insert_ne in Hu by done.
      destruct (Hlives id) as (p0 & p' & Hp0 & Hp' & _ & Hm). unfold phase_of. simpl.
      rewrite Hp'. intros [= <-]. eapply stage_moves; [|exact Hm|exact (other_thread c i j t u id st Hnd Ht Hu Hij Htok)].
      by eapply inv_stage.
  - intros j p Hj. destruct (Hqueue j Hj) as [Hin|[Htok ->]].
    + destruct (Hlives j.(operationID)) as (p0 & p' & Hp0 & Hp' & _ & Hm). unfold phase_of. simpl.
      rewrite Hp'. intros [= <-]. apply (stage_moves Submitted _ _ _ _ (inv_queue _ _ Hi _ _ Hin Hp0) Hm).
      apply (other_elem c i t _ Hnd Ht), elem_of_app. right. by apply list_elem_of_fmap_2.
    + unfold phase_of. simpl. rewrite app_nil_r. by apply (Hstage _ Submitted).
  - intros j u Hu. destruct (decide (i = j)) as [<-|Hij].
    + rewrite list_lookup_insert_eq in Hu by (by eapply lookup_lt_Some).
      by injection Hu as <-.
    + rewrite list_lookup_insert_ne in Hu by done. by eapply inv_safe.
Qed.

(** ** What goroutines hold *)

Definition lock_of (t : thread) : option Z := t.(holds).(lock).
Definition slot_of (t : thread) : option nat := t.(holds).(slot).

(** Goroutine [i] exchanges what it holds of a kind for something else: [P] and [P']
    say what is granted before and after. *)
Lemma exclusive_step {A} (f : thread → option A) (l : list thread) i t t' (P P' : A → Prop) :
  l !! i = Some t → NoDup (omap f l) → (∀ a, a ∈ omap f l ↔ P a) →
  (f t' = f t ∧ (∀ a, P' a ↔ P a)) ∨
  (∃ a, f t = None ∧ f t' = Some a ∧ ¬ P a ∧ ∀ b, P' b ↔ b = a ∨ P b) ∨
  (∃ a, f t = Some a ∧ f t' = None ∧ ∀ b, P' b ↔ b ≠ a ∧ P b) →
  NoDup (omap f (<[i:=t']> l)) ∧ ∀ a, a ∈ omap f (<[i:=t']> l) ↔ P' a.
Proof.
  intros Ht Hnd HP Hcase.
  pose proof (omap_split f l i t Ht) as Hl. pose proof (omap_split_insert f l i t t' Ht) as Hl'.
  destruct Hcase as [[E HP']|[(a & E & E' & Ha & HP')|(a & E & E' & HP')]].
  - rewrite E, <-Hl in Hl'. split; [by rewrite Hl'|]. intros a. by rewrite Hl', HP', HP.
  - rewrite E in Hl. rewrite E' in Hl'. simpl in Hl, Hl'. rewrite <-Hl in Hl'. split.
    + rewrite Hl'. apply NoDup_cons. by rewrite HP.
    + intros b. by rewrite Hl', HP', elem_of_cons, HP.
  - rewrite E in Hl. rewrite E' in Hl'. simpl in Hl, Hl'. rewrite Hl in Hnd.
    apply NoDup_cons in Hnd as [Ha Hnd]. split; [by rewrite Hl'|].
    intros b. rewrite HP', <-HP, Hl', Hl, elem_of_cons. naive_solver.
Qed.

(** Two goroutines that hold the same thing are the same. *)
Lemma omap_inj {A} (f : thread → option A) (l : list thread) :
  NoDup (omap f l) → ∀ i j a t u, l !! i = Some t → l !! j = Some u → f t = Some a → f u = Some a → i = j.
Proof.
  intros Hnd i j a t u Ht Hu Hft Hfu. destruct (decide (i = j)) as [|Hij]; [done|]. exfalso.
  rewrite (omap_split f l i t Ht), Hft in Hnd. apply NoDup_cons in Hnd as [Hn _]. apply Hn.
  apply list_elem_of_omap. exists u. split; [|done]. apply list_elem_of_lookup.
  destruct (decide (j < i)%nat).
  - exists j. by rewrite list_lookup_delete_lt.
  - exists (pred j). rewrite list_lookup_delete_ge by lia. by replace (S (pred j)) with j by lia.
Qed.

(** Slots that are held are slots not yet released. *)
Lemma count_granted (l : list nat) (releases : list bool) :
  NoDup l → (∀ r, r ∈ l → releases !! r = Some false) →
  (length l ≤ count_occ Bool.bool_dec releases false)%nat.
Proof.
  revert releases. induction l as [|r l IH]; intros releases Hnd Hl; simpl; [lia|].
  apply NoDup_cons in Hnd as [Hr Hnd].
  rewrite <-(Governor.count_occ_insert_true r) by (apply Hl; by left). apply le_n_S, IH; [done|].
  intros r' Hr'. rewrite list_lookup_insert_ne by (by intros ->). apply Hl. by right.
Qed.

Lemma filter_omap (p : thread → bool) {A} (f : thread → option A) (l : list thread) :
  (∀ t, t ∈ l → p t = true → is_Some (f t)) → (length (List.filter p l) ≤ length (omap f l))%nat.
Proof.
  induction l as [|t l IH]; intros Hp; [done|].
  change (omap f (t :: l)) with (match f t with Some a => a :: omap f l | None => omap f l end). simpl.
  assert (length (List.filter p l) ≤ length (omap f l))%nat by (apply IH; intros u Hu; apply Hp; by right).
  destruct (p t) eqn:E.
  - destruct (Hp t) as [a ->]; [by left|done|]. simpl. lia.
  - destruct (f t); simpl; lia.
Qed.

(** A running operation's goroutine holds its target's lock and a slot. *)
Definition consistent (h : held) : Prop :=
  ∀ o, h.(running) = Some o → h.(lock) = Some (target_of o) ∧ is_Some h.(slot).

Record resources (w0 : world) (c : config) : Prop := {
  res_wf : Governor.wf c.(shared).(operationGovernor);
  res_max : c.(shared).(operationGovernor).(Governor.maxConcurrent) =
            w0.(operationGovernor).(Governor.maxConcurrent);
  res_capacity : c.(shared).(queueCapacity) = w0.(queueCapacity);
  res_queue : len_list c.(shared).(queue) ≤ w0.(queueCapacity);
  res_locks : NoDup (omap lock_of c.(threads));
  res_locked l : l ∈ omap lock_of c.(threads) ↔ l ∈ c.(shared).(locks);
  res_slots : NoDup (omap slot_of c.(threads));
  res_slot r : r ∈ omap slot_of c.(threads) ↔
               c.(shared).(operationGovernor).(Governor.releases) !! r = Some false;
  res_running i t : c.(threads) !! i = Some t → consistent t.(holds);
}.

Lemma TryAcquire_releases g sample now g' snapshot r :
  Governor.TryAcquire g sample now = (g', snapshot, Some r) →
  r = length g.(Governor.releases) ∧ g'.(Governor.releases) = g.(Governor.releases) ++ [false].
Proof. unfold Governor.TryAcquire. case_match; [done|]. by intros [= <- _ <-]. Qed.

Lemma release_releases g r :
  g.(Governor.releases) !! r = Some false →
  (Governor.release g r).(Governor.releases) = <[r:=true]> g.(Governor.releases).
Proof. unfold Governor.release. by intros ->. Qed.

Lemma slot_step_governor w h w' h' :
  slot_step w h w' h' → Governor.wf w.(operationGovernor) →
  Governor.wf w'.(operationGovernor) ∧
  w'.(operationGovernor).(Governor.maxConcurrent) = w.(operationGovernor).(Governor.maxConcurrent).
Proof.
  intros [-> _|sample now snapshot r Hg _ _|r -> _ _] Hwf; [done|..].
  - pose proof (Governor.step_wf _ (Governor.Try sample now) Hwf) as Hwf'.
    pose proof (Governor.governor_step_config w.(operationGovernor) (Governor.Try sample now)) as Hm.
    unfold Governor.step in Hwf', Hm. by rewrite Hg in Hwf', Hm.
  - split; [by apply Governor.release_wf|].
    apply (Governor.governor_step_config w.(operationGovernor) (Governor.Release r)).
Qed.

Lemma perform_consistent E {X} (e : effect X) w w' x h :
  perform_effect E e w = Some (w', x) → permitted e h = true → consistent h →
  consistent (track e x h).
Proof.
  unfold consistent. destruct e; simpl; intros Hp Hperm Hh o Ho; try (by apply Hh).
  - destruct x; [case_bool_decide|]; by apply Hh.
  - destruct (track_write_rest c x h) as (Hl & Hs & _). rewrite Hl, Hs.
    unfold track_write in Ho. destruct x, c; simpl in *; try by apply Hh.
    + rewrite andb_true_iff, bool_decide_eq_true in Hperm. destruct Hperm as [_ Hperm].
      destruct (is_running operation); [|by apply Hh]. simpl in Ho. injection Ho as <-.
      unfold works_on in Hperm. rewrite !andb_true_iff, !bool_decide_eq_true in Hperm. tauto.
    + case_bool_decide; by apply Hh.
  - destruct (KubeGateway.mutates m); by apply Hh.
  - destruct x as [[s r]|]; [|by apply Hh]. simpl in *. destruct (Hh o Ho). split; [done|by eexists].
  - done.
  - apply bool_decide_eq_true in Hperm. destruct x; [|by apply Hh].
    simpl in *. destruct (Hh o Ho). congruence.
  - apply bool_decide_eq_true in Hperm. destruct x; [|by apply Hh].
    simpl in *. destruct (Hh o Ho). congruence.
  - rewrite andb_true_iff, !bool_decide_eq_true in Hperm. simpl in Ho. destruct Hperm. congruence.
  - destruct x; by apply Hh.
Qed.

Lemma perform_queue E {X} (e : effect X) w w' x :
  perform_effect E e w = Some (w', x) →
  w'.(queueCapacity) = w.(queueCapacity) ∧
  (len_list w.(queue) ≤ w.(queueCapacity) → len_list w'.(queue) ≤ w.(queueCapacity)).
Proof.
  destruct e; simpl; try (by repeat case_match; intros; simplify_eq/=).
  destruct (_ <? _) eqn:Hlt; intros [= <- <-]; [|done]. simpl. split; [done|].
  apply Z.ltb_lt in Hlt. unfold len_list in *. rewrite length_app. simpl. lia.
Qed.

Lemma step_resources w0 c i E X (e : effect X) k h w' x :
  resources w0 c → c.(threads) !! i = Some (mkThread (Vis e k) h) →
  perform_effect E e c.(shared) = Some (w', x) → permitted e h = true →
  resources w0 (mkConfig w' (<[i := mkThread (k x) (track e x h)]> c.(threads))
                  (c.(history) ++ observe e h x)).
Proof.
  intros Hr Ht Hp Hperm.
  pose proof (perform_lock_step _ _ _ _ _ _ Hp Hperm) as Hlock.
  pose proof (perform_slot_step _ _ _ _ _ _ Hp Hperm) as Hslot.
  destruct (slot_step_governor _ _ _ _ Hslot (res_wf _ _ Hr)) as [Hwf Hmax].
  destruct (perform_queue _ _ _ _ _ Hp) as [Hcap Hqueue].
  set (t' := mkThread (k x) (track e x h)).
  assert (NoDup (omap lock_of (<[i:=t']> c.(threads))) ∧
          ∀ l, l ∈ omap lock_of (<[i:=t']> c.(threads)) ↔ l ∈ w'.(locks)) as [Hl Hl'].
  { eapply exclusive_step; [done|exact (res_locks _ _ Hr)|exact (res_locked _ _ Hr)|].
    destruct Hlock as [Hw Hh|l Hn Hw Hh Hh'|l Hw Hh Hh']; rewrite Hw.
    - left. done.
    - right. left. exists l. split_and!; try done. set_solver.
    - right. right. exists l. split_and!; try done. set_solver. }
  assert (NoDup (omap slot_of (<[i:=t']> c.(threads))) ∧
          ∀ r, r ∈ omap slot_of (<[i:=t']> c.(threads)) ↔
            w'.(operationGovernor).(Governor.releases) !! r = Some false) as [Hs Hs'].
  { eapply exclusive_step; [done|exact (res_slots _ _ Hr)|exact (res_slot _ _ Hr)|].
    destruct Hslot as [Hw Hh|sample now snapshot r Hw Hh Hh'|r Hw Hh Hh'].
    - left. by rewrite Hw.
    - right. left. destruct (TryAcquire_releases _ _ _ _ _ _ Hw) as [-> ->].
      eexists. split_and!; [done|done|rewrite lookup_ge_None_2; done|].
      intros b. rewrite lookup_snoc_Some. split; [|intros [->|Hb]].
      + intros [[_ Hb]|[-> _]]; [by right|by left].
      + right. split; done.
      + left. split; [by eapply lookup_lt_Some|done].
    - right. right. exists r. split_and!; [done|done|]. intros b.
      assert (c.(shared).(operationGovernor).(Governor.releases) !! r = Some false) as Hheld.
      { apply (res_slot _ _ Hr), list_elem_of_omap. exists (mkThread (Vis e k) h). split; [|done].
        by eapply list_elem_of_lookup_2. }
      rewrite Hw, release_releases by done. destruct (decide (b = r)) as [->|Hne].
      + rewrite list_lookup_insert_eq by (by eapply lookup_lt_Some). naive_solver.
      + rewrite list_lookup_insert_ne by done. tauto. }
  destruct Hr as [Hwf0 Hmax0 Hcap0 Hq0 _ _ _ _ Hrun0].
  split; simpl; try done; try congruence.
  - rewrite <-Hcap0. apply Hqueue. by rewrite Hcap0.
  - intros j u Hu. destruct (decide (i = j)) as [<-|Hij].
    + rewrite list_lookup_insert_eq in Hu by (by eapply lookup_lt_Some). injection Hu as <-.
      eapply perform_consistent; [done..|]. exact (Hrun0 _ _ Ht).
    + rewrite list_lookup_insert_ne in Hu by done. by eapply Hrun0.
Qed.

(** ** Every reachable configuration *)

Lemma inv_spawn s c w' t :
  inv s c → w'.(store) = c.(shared).(store) → w'.(issued) = c.(shared).(issued) →
  own_ids t.(holds) ++ (operationID <$> w'.(queue)) ≡ₚ (operationID <$> c.(shared).(queue)) →
  (∀ j, j ∈ w'.(queue) → j ∈ c.(shared).(queue)) →
  (∀ id st p, t.(holds).(token) = Some (id, st) → phase_of s c id = Some p → stage_ok st p) →
  safe ownership t.(code) t.(holds) (λ _ h, put_back h) →
  inv s (mkConfig w' (c.(threads) ++ [t]) c.(history)).
Proof.
  intros Hi Hs Hiss Htok Hq Hst Hsafe.
  assert (tokens (mkConfig w' (c.(threads) ++ [t]) c.(history)) ≡ₚ tokens c) as Hp.
  { unfold tokens. simpl. rewrite omap_app, <-app_assoc. f_equiv. rewrite <-Htok. unfold own_ids.
    simpl. unfold token_id. by destruct (fst <$> _). }
  destruct Hi as [I1 I2 I3 I4 I5 I6 I7 I8].
  split; simpl; rewrite ?Hs, ?Hiss; try done.
  - by rewrite Hp.
  - intros id. rewrite Hp. apply I5.
  - intros i u id st p [Hu|[_ Hu]]%lookup_app_Some; [by eapply I6|].
    apply list_lookup_singleton_Some in Hu as [_ <-]. apply Hst.
  - intros j p Hj. by apply I7, Hq.
  - intros i u [Hu|[_ Hu]]%lookup_app_Some; [by eapply I8|].
    by apply list_lookup_singleton_Some in Hu as [_ <-].
Qed.

Lemma resources_spawn w0 c w' t :
  resources w0 c → w'.(locks) = c.(shared).(locks) →
  w'.(operationGovernor) = c.(shared).(operationGovernor) →
  w'.(queueCapacity) = c.(shared).(queueCapacity) →
  len_list w'.(queue) ≤ len_list c.(shared).(queue) →
  put_back t.(holds) → resources w0 (mkConfig w' (c.(threads) ++ [t]) c.(history)).
Proof.
  intros [I1 I2 I3 I4 I5 I6 I7 I8 I9] Hl Hg Hc Hq (Hs & Hlock & Hrun).
  assert (omap lock_of (c.(threads) ++ [t]) = omap lock_of c.(threads)) as El.
  { rewrite omap_app. simpl. unfold lock_of at 2. by rewrite Hlock, app_nil_r. }
  assert (omap slot_of (c.(threads) ++ [t]) = omap slot_of c.(threads)) as Es.
  { rewrite omap_app. simpl. unfold slot_of at 2. by rewrite Hs, app_nil_r. }
  split; simpl; rewrite ?El, ?Es, ?Hl, ?Hg, ?Hc; try done; [lia|].
  intros i u [Hu|[_ Hu]]%lookup_app_Some; [by eapply I9|].
  apply list_lookup_singleton_Some in Hu as [_ <-]. intros o. by rewrite Hrun.
Qed.

Lemma exec_inv w0 s c a c' :
  exec c a = Some c' → inv s c → resources w0 c → inv s c' ∧ resources w0 c'.
Proof.
  intros Ha Hi Hr. destruct a as [r| |i E|]; simpl in Ha.
  - injection Ha as <-. split; [|by apply resources_spawn].
    apply inv_spawn; try done. apply Ownership.own_request.
  - destruct (queue _) as [|j q] eqn:Eq; [done|]. destruct (_ <? _); [|done]. injection Ha as <-.
    split.
    + apply inv_spawn; try done; rewrite ?Eq; try done.
      * intros j' Hj. by right.
      * intros id st p [= <- <-] Hp. apply (inv_queue _ _ Hi j p); [|done]. rewrite Eq. by left.
      * apply Ownership.own_execute.
    + apply resources_spawn; try done. simpl. rewrite Eq. unfold len_list. simpl. lia.
  - destruct (threads c !! i) as [[[|X e k] h]|] eqn:Et; [done| |done].
    destruct (perform_effect E e (shared c)) as [[w' x]|] eqn:Ep; [|done]. injection Ha as <-.
    destruct (inv_next _ _ _ _ _ _ _ x Hi Et) as [Hperm Hsafe]; [by eapply perform_possible|].
    split; [|by eapply step_resources].
    apply (step_inv s c i (mkThread (Vis e k) h) w' (mkThread (k x) (track e x h))); try done.
    by eapply perform_token_step.
  - injection Ha as <-. destruct Hi, Hr. by split; split.
Qed.

Lemma run_inv w0 s acts c c' :
  run c acts = Some c' → inv s c → resources w0 c → inv s c' ∧ resources w0 c'.
Proof.
  revert c. induction acts as [|a acts IH]; intros c; simpl; [by intros [= <-]|].
  destruct (exec c a) as [c1|] eqn:Ea; [|done]. simpl. intros Hrun Hi Hr.
  destruct (exec_inv _ _ _ _ _ Ea Hi Hr). by apply (IH c1).
Qed.

(** The world [New] makes of an opened store, in which nothing is in flight
    ([Open] has stored what [reconcileInterruptedOperations] closes). *)
Definition starts (w : world) : Prop :=
  ∃ size cacheSize cacheTTL s reads config operations known cache now,
    New true true size cacheSize cacheTTL s reads operations known = Ok (w, cache) ∧
    Governor.New config = Ok operations ∧ config.(Governor.MaxConcurrent) ≤ max_int64 ∧
    NoDup (ids s) ∧ Store.reconcileInterruptedOperations s now = None ∧
    ∀ id, id ∈ ids s → id ∈ known.

Definition reachable (w : world) (c : config) : Prop :=
  starts w ∧ ∃ actions, run (init w) actions = Some c.

Lemma start_inv w :
  starts w → inv w.(store) (init w) ∧ resources w (init w) ∧ w.(queueCapacity) ≤ maxOperationQueueSize.
Proof.
  intros (size & csize & ttl & s & reads & cfg & ops & known & cache & now & Hnew & Hg & Hmax & Hnd &
          Hrec & Hknown).
  apply Governor.wf_New in Hg as Hwf; [|done].
  assert (ops.(Governor.releases) = []) as Hrel.
  { unfold Governor.New in Hg. rewrite !bind_Ok in Hg. destruct Hg as (? & _ & Hg).
    rewrite !bind_Ok in Hg. destruct Hg as (? & _ & Hg). rewrite !bind_Ok in Hg.
    destruct Hg as (? & _ & Hg). by injection Hg as <-. }
  unfold New in Hnew. simpl in Hnew. rewrite bind_Ok in Hnew. destruct Hnew as ([] & Hsize & Hnew).
  apply reject_if_Ok in Hsize. rewrite bind_Ok in Hnew. destruct Hnew as (cache' & _ & [= <- <-]).
  revert Hsize. set (n := if size =? 0 then _ else _).
  rewrite orb_false_iff, !Z.ltb_ge. intros [Hlo Hhi].
  assert (∀ id o, lookup_operation s id = Some o → terminal o.(Operation.State)) as Hterm.
  { intros id o [_ Ho]%lookup_operation_Some. apply in_flight_false.
    unfold Store.reconcileInterruptedOperations in Hrec. destruct (existsb _ _) eqn:Ex; [done|].
    destruct (in_flight o) eqn:Ef; [|done]. exfalso. rewrite <-not_true_iff_false in Ex. apply Ex.
    apply existsb_exists. exists o. by rewrite <-list_elem_of_In. }
  split_and!; [split|split|]; simpl; try done.
  - intros id. exists (first_phase s id). split; [done|]. unfold first_phase, state_of.
    destruct (lookup_operation s id) as [o|] eqn:E; [|done]. simpl. split; [by eapply Hterm|by right].
  - intros id p [= <-] Hne. unfold first_phase in Hne.
    destruct (lookup_operation s id) as [o|] eqn:E; [|done].
    apply Hknown. apply lookup_operation_Some in E as [<- Ho]. by apply list_elem_of_fmap_2.
  - constructor.
  - intros id Hid. by apply elem_of_nil in Hid.
  - intros j p Hj. by apply elem_of_nil in Hj.
  - unfold len_list. simpl. lia.
  - constructor.
  - intros l. split; [by intros ?%elem_of_nil|set_solver].
  - constructor.
  - intros r. rewrite Hrel. split; [by intros ?%elem_of_nil|done].
Qed.

Lemma reachable_inv w c :
  reachable w c → inv w.(store) c ∧ resources w c ∧ w.(queueCapacity) ≤ maxOperationQueueSize.
Proof.
  intros [Hs [acts Hrun]]. destruct (start_inv w Hs) as (Hi & Hr & Hq).
  destruct (run_inv _ _ _ _ _ Hrun Hi Hr). done.
Qed.

(** ** What a life shows *)

Section past.
Context (id : string).

Definition begun : list event :=
  [Wrote id OperationQueued; SubmissionAudited id; Wrote id OperationRunning].

(** What has happened to an operation by the time it is in a phase. *)
Definition past (p : phase) (h : list event) : Prop :=
  match p with
  | Absent | Ended _ => True
  | Queued audited => sublist (take (if audited then 2 else 1) begun) h
  | Running _ => sublist begun h
  end ∧
  match p with
  | Absent | Queued _ | Running false => Execution id ∉ h
  | _ => True
  end.

Lemma past_keep p h e : past p h → e ≠ Execution id → past p (h ++ [e]).
Proof.
  intros [Hs Hn] He. assert (Execution id ∉ h → Execution id ∉ h ++ [e]) as Hne by set_solver.
  split; [|by destruct p as [| |[]|]; auto].
  destruct p as [|a|x|s]; try done; by apply sublist_inserts_r.
Qed.

Lemma past_snoc h e p q :
  past p h → event_id e = id → advance p e = Some q → past q (h ++ [e]).
Proof.
  intros [Hs Hn] He Hq.
  assert (∀ a b : list event, sublist a h → b = a ++ [e] → sublist b (h ++ [e])) as Hsnoc.
  { intros a b Ha ->. by apply sublist_app. }
  assert (Execution id ∉ h → e ≠ Execution id → Execution id ∉ h ++ [e]) as Hne by set_solver.
  destruct p as [|a|x|s], e as [i s'|i|i]; simpl in *; subst i; try done.
  - case_bool_decide; [|done]. subst. injection Hq as <-. split; [|by apply Hne].
    apply (Hsnoc []); [apply sublist_nil_l|done].
  - destruct a.
    + case_bool_decide as Hr; simpl in Hq.
      * subst. injection Hq as <-. split; [by apply (Hsnoc (take 2 begun))|by apply Hne].
      * destruct (_ || _); [|done]. by injection Hq as <-.
    + rewrite andb_false_r in Hq. destruct (_ || _); [|done]. by injection Hq as <-.
  - destruct a; [done|]. injection Hq as <-. split; [by apply (Hsnoc (take 1 begun))|by apply Hne].
  - by destruct a.
  - destruct x, (final_state s'); try done; by injection Hq as <-.
  - by destruct x.
  - destruct x; [done|]. injection Hq as <-. split; [|done]. by apply sublist_inserts_r.
  - by injection Hq as <-.
Qed.

Lemma life_past h p0 p :
  p0 = Absent ∨ (∃ s, p0 = Ended s) → life id p0 h = Some p →
  past p h.
Proof.
  intros Hp0. revert p. induction h as [|e h IH] using rev_ind; intros p.
  { intros [= <-]. destruct Hp0 as [->|[s ->]]; split; try done. apply not_elem_of_nil. }
  rewrite life_snoc. destruct (life id p0 h) as [q|] eqn:El.
  2:{ unfold live_on. by case_bool_decide. }
  specialize (IH q eq_refl). destruct (decide (event_id e = id)) as [<-|Hne].
  - rewrite live_on_same. intros Hadv. by eapply past_snoc.
  - rewrite live_on_other by done. intros [= ->]. apply past_keep; [done|]. by intros ->.
Qed.

Lemma live_on_None e : live_on id None e = None.
Proof. unfold live_on. by case_bool_decide. Qed.

Lemma life_app p h1 h2 : life id p (h1 ++ h2) = foldl (live_on id) (life id p h1) h2.
Proof. unfold life. by rewrite foldl_app. Qed.

Lemma live_None h : foldl (live_on id) None h = None.
Proof. induction h as [|e h IH]; [done|]. simpl. by rewrite live_on_None. Qed.

(** Once in a set of phases that [advance] does not leave, an operation sees only the
    events those phases allow. *)
Lemma life_closed (inside : phase → Prop) (ok : event → Prop) h p q :
  (∀ p e q, inside p → event_id e = id → advance p e = Some q → inside q ∧ ok e) →
  inside p → foldl (live_on id) (Some p) h = Some q →
  ∀ e, e ∈ h → event_id e = id → ok e.
Proof.
  intros Hstep. revert p. induction h as [|x h IH]; intros p Hp; simpl.
  { intros _ e He. by apply elem_of_nil in He. }
  intros Hl e He Hid. destruct (decide (event_id x = id)) as [Hx|Hx].
  - rewrite <-Hx in Hl at 2. rewrite live_on_same in Hl.
    destruct (advance p x) as [p'|] eqn:Ea; [|by rewrite live_None in Hl].
    destruct (Hstep _ _ _ Hp Hx Ea) as [Hp' Hok]. apply elem_of_cons in He as [->|He]; [done|].
    by apply (IH p').
  - rewrite live_on_other in Hl by done. apply elem_of_cons in He as [->|He]; [done|]. by apply (IH p).
Qed.

Lemma life_split p h1 e h2 q :
  event_id e = id → life id p (h1 ++ e :: h2) = Some q →
  ∃ p1 p2, life id p h1 = Some p1 ∧ advance p1 e = Some p2 ∧
    foldl (live_on id) (Some p2) h2 = Some q.
Proof.
  intros He. rewrite life_app. simpl. destruct (life _ p h1) as [p1|] eqn:E1.
  - rewrite (live_on_self id p1 e He). destruct (advance p1 e) as [p2|] eqn:E2; [|by rewrite live_None].
    intros Hq. by exists p1, p2.
  - rewrite live_on_None, live_None. done.
Qed.

Lemma ended_quiet h s q :
  foldl (live_on id) (Some (Ended s)) h = Some q →
  ∀ e, e ∈ h → event_id e = id → e = SubmissionAudited id.
Proof.
  apply (life_closed (λ p, ∃ s, p = Ended s)); [|by eexists].
  intros p e p' [s' ->] <-. destruct e; try done. intros [= <-]. split; [by eexists|done].
Qed.

Lemma executed_quiet h q :
  foldl (live_on id) (Some (Running true)) h = Some q →
  ∀ e, e ∈ h → event_id e = id → e ≠ Execution id.
Proof.
  apply (life_closed (λ p, p = Running true ∨ ∃ s, p = Ended s)); [|by left].
  intros p e p' [->|[s ->]] _; destruct e; simpl; try done.
  - destruct (final_state _); [|done]. intros [= <-]. split; [|done]. right. by eexists.
  - intros [= <-]. split; [|done]. right. by eexists.
Qed.
End past.

Lemma first_phase_start s id : first_phase s id = Absent ∨ ∃ x, first_phase s id = Ended x.
Proof. unfold first_phase. destruct (lookup_operation s id); [right; by eexists|by left]. Qed.

(** ** Properties *)

(** C1: However requests, cancellations, workers and shutdown interleave, every
    operation leads one life (created queued, audited as submitted, then refused,
    cancelled or run by one worker, which ends it), and the store holds it in the
    state of that life until retention drops it after its end. *)
Theorem operation_lifecycle w c id :
  reachable w c →
  ∃ p, life id (first_phase w.(store) id) c.(history) = Some p ∧
       agrees p (state_of c.(shared).(store) id).
Proof. intros (Hi & _)%reachable_inv. apply (inv_life _ _ Hi). Qed.

(** C3: Helm and the cluster are called for an operation at most once, and only after
    it was stored as queued, its submission was audited, and it was stored as
    running, in this order. *)
Theorem executed_at_most_once w c id before after :
  reachable w c → c.(history) = before ++ Execution id :: after →
  sublist (begun id) before ∧ Execution id ∉ before ∧ Execution id ∉ after.
Proof.
  intros (Hi & _)%reachable_inv Hh. destruct (inv_life _ _ Hi id) as (q & Hq & _).
  unfold phase_of in Hq. rewrite Hh in Hq.
  destruct (life_split id _ _ (Execution id) _ _ eq_refl Hq) as (p1 & p2 & Hp1 & Hadv & Hrest).
  destruct (life_past id _ _ _ (first_phase_start _ _) Hp1) as [Hs Hn].
  destruct p1 as [|[]|[]|]; try done. injection Hadv as <-. split_and!; try done.
  intros Hin. by apply (executed_quiet id after q Hrest _ Hin).
Qed.

(** The end of an operation is final: once it is written as cancelled, failed,
    succeeded or unknown, Helm and the cluster are not called for it and its record
    is not written again. *)
Theorem end_is_final w c id state before after :
  reachable w c → c.(history) = before ++ Wrote id state :: after → terminal state →
  Execution id ∉ after ∧ ∀ state', Wrote id state' ∉ after.
Proof.
  intros (Hi & _)%reachable_inv Hh [Hnq Hnr]. destruct (inv_life _ _ Hi id) as (q & Hq & _).
  unfold phase_of in Hq. rewrite Hh in Hq.
  destruct (life_split id _ _ (Wrote id state) _ _ eq_refl Hq) as (p1 & p2 & _ & Hadv & Hrest).
  assert (∃ s, p2 = Ended s) as [s ->].
  { destruct p1 as [|a|x|]; simpl in Hadv; [by rewrite bool_decide_eq_false_2 in Hadv| | |done].
    - rewrite (bool_decide_eq_false_2 (state = OperationRunning)) in Hadv by done. simpl in Hadv.
      destruct a, (_ || _); try done; injection Hadv as <-; by eexists.
    - destruct x, (final_state state); try done; injection Hadv as <-; by eexists. }
  pose proof (ended_quiet id after s q Hrest) as Hall.
  split; [|intros state']; intros Hin; by specialize (Hall _ Hin eq_refl).
Qed.

(** C2: When a goroutine is about to call Helm or to change a cluster, it is the
    worker of an operation stored as running, and no other goroutine runs an
    operation on the same target. *)
Theorem execution_guarded w c i X (e : effect X) k h :
  reachable w c → c.(threads) !! i = Some (mkThread (Vis e k) h) → executes e = true →
  ∃ o, h.(running) = Some o ∧ operationID <$> h.(job) = Some o.(Operation.ID) ∧
    state_of c.(shared).(store) o.(Operation.ID) = Some OperationRunning ∧
    ∀ j t o', c.(threads) !! j = Some t → t.(holds).(running) = Some o' →
      target_of o' = target_of o → j = i.
Proof.
  intros (Hi & Hr & _)%reachable_inv Ht He.
  assert (permitted_execution h = true) as Hp.
  { destruct e; simpl in He; try done.
    - destruct (inv_next _ _ _ _ _ _ _ (Err Canceled) Hi Ht eq_refl) as [Hp _]. simpl in Hp.
      by rewrite He in Hp.
    - by destruct (inv_next _ _ _ _ _ _ _ (Err Canceled) Hi Ht eq_refl) as [Hp _]. }
  unfold permitted_execution, works_on in Hp. destruct (running h) as [o|] eqn:Eo; [|done].
  rewrite !andb_true_iff, !bool_decide_eq_true in Hp. destruct Hp as [[Htok [Hjob _]] Hlock].
  exists o. split_and!; [done|done| |].
  - destruct (inv_life _ _ Hi o.(Operation.ID)) as (p & Hp & Ha).
    pose proof (inv_stage _ _ Hi _ _ _ _ _ Ht Htok Hp) as ->. exact Ha.
  - intros j t o' Hj Ho' Htarget. destruct (res_running _ _ Hr j t Hj o' Ho') as [Hl _].
    rewrite Htarget in Hl. by apply (omap_inj lock_of _ (res_locks _ _ Hr) j i _ _ _ Hj Ht Hl).
Qed.

(** At most as many operations run at a time as the operation governor's
    configured maximum, and the queue never exceeds its capacity, at most 128. *)
Theorem running_bounded w c :
  reachable w c →
  len_list (List.filter (λ t, bool_decide (is_Some t.(holds).(running))) c.(threads)) ≤
    w.(operationGovernor).(Governor.maxConcurrent) ∧
  len_list c.(shared).(queue) ≤ w.(queueCapacity) ≤ maxOperationQueueSize.
Proof.
  intros (_ & Hr & Hq)%reachable_inv. split; [|split; [apply (res_queue _ _ Hr)|done]].
  rewrite <-(res_max _ _ Hr).
  etrans; [|apply (Governor.wf_bound _ (res_wf _ _ Hr))].
  rewrite (Governor.wf_active _ (res_wf _ _ Hr)). unfold Governor.outstanding, len_list.
  apply Nat2Z.inj_le. etrans; [|apply (count_granted _ _ (res_slots _ _ Hr));
    intros r Hin; by apply (res_slot _ _ Hr)].
  apply filter_omap. intros t [i Ht]%list_elem_of_lookup [o Ho]%bool_decide_eq_true.
  by destruct (res_running _ _ Hr i t Ht o Ho).
Qed.

(** C26: Nothing leaks: when every goroutine has returned, on whatever path, no target
    lock is held and every operation slot has been given back. *)
Theorem nothing_leaks w c :
  reachable w c → Forall (λ t, t.(code) = Ret tt) c.(threads) →
  c.(shared).(locks) = ∅ ∧ c.(shared).(operationGovernor).(Governor.active) = 0.
Proof.
  intros (Hi & Hr & _)%reachable_inv Hall.
  assert (∀ t, t ∈ c.(threads) → put_back t.(holds)) as Hback.
  { intros t [i Ht]%list_elem_of_lookup. rewrite Forall_lookup in Hall.
    pose proof (inv_safe _ _ Hi i t Ht) as Hs. by rewrite (Hall i t Ht) in Hs. }
  split.
  - apply set_eq. intros l. rewrite <-(res_locked _ _ Hr), list_elem_of_omap. split; [|set_solver].
    intros (t & Ht & Hl). destruct (Hback t Ht) as (_ & Hn & _). unfold lock_of in Hl. congruence.
  - rewrite (Governor.wf_active _ (res_wf _ _ Hr)). unfold Governor.outstanding.
    destruct (count_occ _ _ _) eqn:Ec; [done|]. exfalso.
    assert (In false c.(shared).(operationGovernor).(Governor.releases)) as Hin.
    { apply (count_occ_In Bool.bool_dec). lia. }
    apply list_elem_of_In, list_elem_of_lookup in Hin as [r Hrel].
    apply (res_slot _ _ Hr), list_elem_of_omap in Hrel as (t & Ht & Hs).
    destruct (Hback t Ht) as (Hn & _ & _). unfold slot_of in Hs. congruence.
Qed.

End pool.

(** ** An example

    A Helm uninstall is submitted, a worker executes it, and a second request for the
    same release is cancelled before a worker takes it. *)

#[local] Instance example_platform : Platform := {| Gateway := unit; Model _ := unit |}.
#[local] Existing Instance plain_parser.

Definition example_snapshot : Governor.Snapshot :=
  Governor.snapshotLocked Governor.example_governor (Governor.mkSample None None) 0.

(** Every call succeeds; an identifier is made from the number of its step. *)
Definition example_answer (n : nat) (X : Type) (e : effect X) : X :=
  match e in effect X return X with
  | CtxErr _ => None
  | Clock => Z.of_nat n
  | NewID prefix => Ok (prefix +:+ "_" +:+ FormatInt (Z.of_nat n))
  | StoreRead _ _ | GatewayCall _ _ _ => Err ErrNotFound
  | StoreWrite _ _ | ValidateTarget _ _ | CheckRepository _ _ | LockSend _ _ | HelmExecute _ _ _ => Ok tt
  | SealString plaintext _ => Ok plaintext
  | OpenString encoded _ => Ok encoded
  | FactoryNew _ _ => (Some tt, None)
  | CloseIdle _ | CacheInvalidate _ | CacheReconcile _ | CacheClose | ReadRelease _
  | OperationRelease _ | LockReceive _ | ControlsRemove _ _ | CancelControl _ | AwaitDone _ => tt
  | CacheEnter _ _ _ => CacheBuild 0 0
  | CacheFinish _ _ _ _ _ _ => Ok tt
  | CacheSnapshot => GatewayCache.mkCacheSnapshot 0 0 0 0
  | ReadTryAcquire => (example_snapshot, None)
  | ReadSnapshot | OperationSnapshot => example_snapshot
  | OperationAcquire _ => Ok (example_snapshot, 0%nat)
  | LockTrySend _ | Enqueue _ | RunOnce _ => true
  | ControlsRegister _ => (0%nat, None)
  | ControlsTake _ => None
  | ControlsDrain => []
  | QueueSize => (0, 0)
  | HelmList _ _ _ => Ok []
  end.

Definition example_env (n : nat) : env :=
  mkEnv (example_answer n) (Governor.mkSample None None) (Z.of_nat n).

(** [count] steps of goroutine [i], numbered from [n]. *)
Definition steps (i n count : nat) : list action := (λ m, Step i (example_env m)) <$> seq n count.

Definition example_uninstall : HelmOperationInput :=
  HelmOperationInput.mk "cl_1" "apps" "web" "" "" "" "" 0.

Definition example_store : State :=
  State.mk Store.schemaVersion [Store.example_cluster "cl_1" "prod"] [] [] [].

Definition example_world : world :=
  mkWorld example_store [] 64 ∅ 0 ∅ ∅ Governor.example_governor Governor.example_governor 0
    false false ∅.

(** Two submissions, and a worker up to its call of Helm. *)
Definition example_started : list action :=
  [Arrive (RSubmitHelm "alice" "r1" OperationHelmUninstall example_uninstall);
   Arrive (RSubmitHelm "bob" "r2" OperationHelmUninstall example_uninstall)] ++
  steps 0 0 9 ++ steps 1 20 9 ++ [Arrive (RRun 1)] ++ steps 2 40 1 ++ [Receive] ++ steps 3 50 8.

(** The worker ends, the second operation is cancelled and its job is taken, and the
    service is shut down. *)
Definition example_finished : list action :=
  example_started ++ steps 3 60 10 ++ [Arrive (RCancel "bob" "r3" "op_21")] ++ steps 4 80 6 ++
  [Receive] ++ steps 5 90 3 ++ [Shutdown] ++ steps 2 100 3.

Definition example_config (actions : list action) : config :=
  default (init example_world) (run (init example_world) actions).

Lemma example_starts : starts example_world.
Proof.
  exists 0, 0, 0, example_store, Governor.example_governor, Governor.example_config,
    Governor.example_governor, ∅.
  eexists. exists 0.
  split_and!; [by vm_compute|by vm_compute|by vm_compute|constructor|done|set_solver].
Qed.

Lemma example_reachable actions :
  match run (init example_world) actions with Some _ => True | None => False end →
  reachable example_world (example_config actions).
Proof.
  intros Hrun. split; [apply example_starts|]. exists actions. unfold example_config.
  by destruct (run _ _).
Qed.

Lemma example_started_reachable : reachable example_world (example_config example_started).
Proof. apply example_reachable. vm_compute. exact I. Qed.

Lemma example_finished_reachable : reachable example_world (example_config example_finished).
Proof. apply example_reachable. vm_compute. exact I. Qed.

Definition example_history : list event :=
  [Wrote "op_1" OperationQueued; SubmissionAudited "op_1"; Wrote "op_21" OperationQueued;
   SubmissionAudited "op_21"; Wrote "op_1" OperationRunning; Execution "op_1";
   Wrote "op_1" OperationSucceeded; Wrote "op_21" OperationCanceled].

(** A connection test reads the record of a cluster, the cluster is disabled, and the
    test writes the record it had read with the result of its probe: the cluster ends
    enabled again.  [UpdateCluster] replaces the whole record. *)
Definition example_arguments : Service.read_arguments :=
  Service.mkReadArguments "alice" "r1" "cl_1" "" "" "" 0 (WorkloadReference.mk "" "" "")
    (KubernetesAccessResourceReference.mk "" "" "") (PodLogRequest.mk "" "" "" 0 false false)
    (KubernetesServiceAccountAccessReviewInput.mk (KubernetesServiceAccountReference.mk "" "")
       (KubernetesResourceAttributes.mk "" "" "" "" "" ""))
    (ClusterCredentialRotationInput.mk "" "" "").

Definition example_disabled : list action :=
  [Arrive (RRead 56 example_arguments); Arrive (RSetClusterEnabled "bob" "r2" "cl_1" false)] ++
  steps 0 0 6 ++ steps 1 30 7.

Definition example_statuses (actions : list action) : list ClusterStatus :=
  Cluster.Status <$> (example_config actions).(shared).(store).(State.Clusters).

Example overlapping_test_enables :
  example_statuses example_disabled = [ClusterDisabled] ∧
  example_statuses (example_disabled ++ steps 0 50 8) = [ClusterUnreachable].
Proof. by vm_compute. Qed.

Lemma operation_lifecycle_witness :
  (example_config example_finished).(history) = example_history ∧
  ∃ p, life "op_21" (first_phase example_store "op_21") example_history = Some p ∧
       agrees p (state_of (example_config example_finished).(shared).(store) "op_21").
Proof.
  pose proof (operation_lifecycle example_world (example_config example_finished) "op_21"
    example_finished_reachable) as Hlife.
  assert ((example_config example_finished).(history) = example_history) as E by by vm_compute.
  rewrite E in Hlife. split; [exact E|exact Hlife].
Defined.

Lemma executed_at_most_once_witness :
  Execution "op_1" ∉ [Wrote "op_1" OperationSucceeded; Wrote "op_21" OperationCanceled] ∧
  sublist (begun "op_1") (take 5 example_history).
Proof.
  destruct (executed_at_most_once example_world (example_config example_finished) "op_1"
    (take 5 example_history) (drop 6 example_history)) as (Hs & _ & Hn).
  - exact example_finished_reachable.
  - by vm_compute.
  - split; [exact Hn|exact Hs].
Defined.

Lemma end_is_final_witness :
  Execution "op_1" ∉ [Wrote "op_21" OperationCanceled] ∧
  ∀ state, Wrote "op_1" state ∉ [Wrote "op_21" OperationCanceled].
Proof.
  apply (end_is_final example_world (example_config example_finished) "op_1" OperationSucceeded
    (take 6 example_history)).
  - exact example_finished_reachable.
  - by vm_compute.
  - by split.
Defined.

Lemma execution_guarded_witness :
  ∃ t o, (example_config example_started).(threads) !! 3%nat = Some t ∧
    t.(holds).(running) = Some o ∧ operationID <$> t.(holds).(job) = Some o.(Operation.ID) ∧
    state_of (example_config example_started).(shared).(store) o.(Operation.ID) =
      Some OperationRunning.
Proof.
  assert (match (example_config example_started).(threads) !! 3%nat with
          | Some (mkThread (Vis e _) _) => executes e = true
          | _ => False
          end) as He by by vm_compute.
  destruct ((example_config example_started).(threads) !! 3%nat) as [[[|X e k] h]|] eqn:Et;
    [destruct He| |destruct He].
  destruct (execution_guarded example_world (example_config example_started) 3 X e k h) as
    (o & Ho & Hj & Hs & _); [exact example_started_reachable|exact Et|exact He|].
  exists (mkThread (Vis e k) h), o. split_and!; [done|exact Ho|exact Hj|exact Hs].
Defined.

Lemma running_bounded_witness :
  len_list (List.filter (λ t, bool_decide (is_Some t.(holds).(running)))
              (example_config example_started).(threads)) = 1 ∧
  len_list (List.filter (λ t, bool_decide (is_Some t.(holds).(running)))
              (example_config example_started).(threads)) ≤ 8.
Proof.
  split; [by vm_compute|].
  apply (running_bounded example_world (example_config example_started) example_started_reachable).
Defined.

Lemma nothing_leaks_witness :
  len_list (example_config example_finished).(threads) = 6 ∧
  (example_config example_finished).(shared).(locks) = ∅ ∧
  (example_config example_finished).(shared).(operationGovernor).(Governor.active) = 0.
Proof.
  split; [by vm_compute|].
  apply (nothing_leaks example_world (example_config example_finished)).
  - exact example_finished_reachable.
  - vm_compute. repeat constructor.
Defined.

End Interleaving.
