(* ===== verification/Http.v ===== *)
(** * Requests and responses (src/internal/httpapi/responses.go)

    What the handlers see of a request, the responses they write, and the parsers
    of request parameters and bodies.  The JSON decoder and the media type parser of
    the standard library are parameters. *)

From S2P Require Export Operations Outbound Session.

Local Open Scope Z_scope.
Local Open Scope stdpp_scope.
Local Open Scope go_scope.

(** ** Requests

    [PathValue] holds the wildcards of the route that matched and [Query] the first
    value of each query parameter; a header, wildcard or parameter that is missing
    reads as the empty string.  [User] and [RequestID] are the two values the
    middleware puts in the request's context. *)
Module Request.
Record t : Type := mk {
  Method : string;
  Path : string;
  Segments : list string;
  PathValue : string → string;
  Query : string → string;
  Header : string → string;
  Cookie : option string;
  Host : string;
  TLS : bool;
  RemoteAddr : string;
  Body : string;
  User : Principal;
  RequestID : string;
}.

Definition no_principal : Principal := Principal.mk "" "" time_zero.

Definition with_PathValue (r : t) (values : string → string) : t :=
  mk r.(Method) r.(Path) r.(Segments) values r.(Query) r.(Header) r.(Cookie) r.(Host) r.(TLS)
    r.(RemoteAddr) r.(Body) r.(User) r.(RequestID).

(** [context.WithValue] with the two keys of server.go. *)
Definition with_User (r : t) (user : Principal) : t :=
  mk r.(Method) r.(Path) r.(Segments) r.(PathValue) r.(Query) r.(Header) r.(Cookie) r.(Host) r.(TLS)
    r.(RemoteAddr) r.(Body) user r.(RequestID).

Definition with_RequestID (r : t) (id : string) : t :=
  mk r.(Method) r.(Path) r.(Segments) r.(PathValue) r.(Query) r.(Header) r.(Cookie) r.(Host) r.(TLS)
    r.(RemoteAddr) r.(Body) r.(User) id.
End Request.
Notation Request := Request.t.

(** ** Responses *)

Module Response.

(** Nothing, [{"data": a}], the [errorBody] of responses.go, plain text, or a file. *)
Inductive body : Type :=
  | NoBody
  | Data {A : Type} (a : A)
  | ErrorBody (code message : string) (details : list (string * string)) (requestID : string)
  | Text (text : string)
  | File (path : string).

(** [http.Cookie]. *)
Record cookie : Type := mkCookie {
  Name : string;
  Value : string;
  CookiePath : string;
  Expires : option time;
  MaxAge : Z;
  HttpOnly : bool;
  Secure : bool;
  SameSiteStrict : bool;
}.

Record t : Type := mk {
  Status : Z;
  Headers : list (string * string);
  SetCookie : option cookie;
  Body : body;
}.

Definition add_headers (headers : list (string * string)) (w : t) : t :=
  mk w.(Status) (headers ++ w.(Headers)) w.(SetCookie) w.(Body).

(** [http.SetCookie]. *)
Definition set_cookie (c : cookie) (w : t) : t := mk w.(Status) w.(Headers) (Some c) w.(Body).
End Response.
Notation Response := Response.t.

Definition content_json : string * string := ("Content-Type", "application/json; charset=utf-8").

Definition writeData {A} (status : Z) (data : A) : Response :=
  Response.mk status [content_json] None (Response.Data data).

Definition writeErrorStatus (r : Request) (status : Z) (code message : string)
    (details : list (string * string)) : Response :=
  Response.mk status
    ((if (status =? 503) && bool_decide (code = "server_busy") then [("Retry-After", "2")] else []) ++
     [content_json]) None
    (Response.ErrorBody code message details r.(Request.RequestID)).

Definition writeError (r : Request) (err : error) : Response :=
  match AsValidationError err with
  | Some (field, message) =>
      writeErrorStatus r 422 "validation_error" "请求参数不合法" [(field, message)]
  | None =>
      if Is err ErrUnauthorized then
        writeErrorStatus r 401 "unauthorized" "请先登录或重新登录" []
      else if Is err ErrForbidden then
        writeErrorStatus r 403 "forbidden" "没有执行该操作的权限" []
      else if Is err ErrNotFound then
        writeErrorStatus r 404 "not_found" "目标资源不存在" []
      else if Is err ErrConflict then
        writeErrorStatus r 409 "conflict" "资源名称或状态发生冲突" []
      else if Is err ErrInvalidState then
        writeErrorStatus r 409 "invalid_state" "资源当前状态不允许该操作" []
      else if Is err ErrBusy then
        writeErrorStatus r 503 "server_busy" "服务繁忙，请稍后重试" []
      else if Is err ErrTimeout || Is err DeadlineExceeded then
        writeErrorStatus r 504 "upstream_timeout" "上游请求超时" []
      else if Is err ErrUpstream then
        writeErrorStatus r 502 "upstream_unavailable" "上游服务不可用或拒绝了请求" []
      else writeErrorStatus r 500 "internal_error" "服务处理请求时发生错误" []
  end.

Definition writeInvalidJSON (r : Request) : Response :=
  writeErrorStatus r 400 "invalid_json" "请求正文不是有效的 JSON" [].

(** ** Bodies

    The shapes of the JSON bodies: the anonymous structs of handlers.go, as tuples
    or as the domain's input of the same fields. *)

Record helmWriteInput : Type := mkHelmWriteInput {
  helm_ClusterID : string;
  helm_Namespace : string;
  helm_ReleaseName : string;
  helm_Chart : string;
  helm_RepositoryID : string;
  helm_Version : string;
  helm_Values : string;
  helm_Revision : Z;
}.

Record imageInput : Type := mkImageInput {
  image_Container : string;
  image_CurrentImage : string;
  image_Image : string;
  image_ResourceVersion : string;
  image_Confirmation : string;
}.

Inductive shape : Type → Type :=
  | LoginBody : shape (string * string)
  | ClusterBody : shape ClusterInput
  | EnabledBody : shape (option bool)
  | ConfirmationBody : shape string
  | RotationBody : shape ClusterCredentialRotationInput
  | ReviewBody : shape KubernetesServiceAccountAccessReviewInput
  | ScaleBody : shape (option Z * string * string)
  | RestartBody : shape (string * string)
  | PreviewBody : shape imageInput
  | ImageBody : shape imageInput
  | RepositoryBody : shape RepositoryInput
  | HelmBody : shape helmWriteInput
  | EmptyBody : shape unit.

(** [mime.ParseMediaType], and a strict decoder of exactly one JSON value:
    [DisallowUnknownFields], and end of file after the value. *)
Class BodyDecoder := {
  ParseMediaType : string → option string;
  DecodeValue {A} : shape A → string → option A;
}.

Definition maxJSONBodyBytes : Z := 1024 * 1024.

(** The end of file after the value is only seen when the whole body was within
    the limit of [MaxBytesReader]. *)
Definition decodeJSON `{BodyDecoder} {A} (s : shape A) (r : Request) : option A :=
  match ParseMediaType (r.(Request.Header) "Content-Type") with
  | None => None
  | Some mediaType =>
      if negb (bool_decide (mediaType = "application/json")) then None
      else if maxJSONBodyBytes <? len r.(Request.Body) then None
      else DecodeValue s r.(Request.Body)
  end.

(** ** Parameters *)

Definition parseBoundedInt (raw : string) (defaultValue minimum maximum : Z) (field : string) :
    result Z :=
  if bool_decide (raw = "") then Ok defaultValue else
  let invalid := Invalid field ("must be between " +:+ FormatInt minimum +:+ " and " +:+
                                FormatInt maximum) in
  match Atoi raw with
  | None => Err invalid
  | Some value => if (value <? minimum) || (maximum <? value) then Err invalid else Ok value
  end.

(** [strconv.ParseBool]. *)
Definition ParseBool (s : string) : option bool :=
  if bool_decide (s ∈ ["1"; "t"; "T"; "true"; "TRUE"; "True"]) then Some true
  else if bool_decide (s ∈ ["0"; "f"; "F"; "false"; "FALSE"; "False"]) then Some false
  else None.

Definition parseOptionalBool (raw : string) (defaultValue : bool) (field : string) : result bool :=
  if bool_decide (raw = "") then Ok defaultValue else
  match ParseBool raw with
  | None => Err (Invalid field "must be true or false")
  | Some value => Ok value
  end.

Definition parseLimit (raw : string) : result Z :=
  if bool_decide (raw = "") then Ok 100 else
  match Atoi raw with
  | None => Err (Invalid "limit" "must be between 1 and 100")
  | Some limit =>
      if (limit <? 1) || (100 <? limit) then Err (Invalid "limit" "must be between 1 and 100")
      else Ok limit
  end.

Definition loginClientKey (r : Request) : string :=
  match Outbound.SplitHostPort r.(Request.RemoteAddr) with
  | Some (host, _) => host
  | None => r.(Request.RemoteAddr)
  end.

(** ** Properties *)

(** The answers an error can have: status, code and message. *)
Definition answers : list (Z * string * string) :=
  [(422, "validation_error", "请求参数不合法"); (401, "unauthorized", "请先登录或重新登录");
   (403, "forbidden", "没有执行该操作的权限"); (404, "not_found", "目标资源不存在");
   (409, "conflict", "资源名称或状态发生冲突"); (409, "invalid_state", "资源当前状态不允许该操作");
   (503, "server_busy", "服务繁忙，请稍后重试"); (504, "upstream_timeout", "上游请求超时");
   (502, "upstream_unavailable", "上游服务不可用或拒绝了请求");
   (500, "internal_error", "服务处理请求时发生错误")].

(** The error's text is not looked at: only which sentinel is in its chain. *)
Fixpoint same_chain (err err' : error) : Prop :=
  match err, err' with
  | Errorf _ err, Errorf _ err' => same_chain err err'
  | NewError _, NewError _ => True
  | Errorf _ _, _ | _, Errorf _ _ | NewError _, _ | _, NewError _ => False
  | err, err' => err = err'
  end.

Definition sentinel (err : error) : bool :=
  match err with Errorf _ _ | NewError _ => false | _ => true end.

Lemma same_chain_Is err err' target :
  same_chain err err' → sentinel target = true → Is err target = Is err' target.
Proof.
  revert err'. induction err; intros [] Hs Ht; simpl in *; try done; simplify_eq; try done.
  - rewrite !bool_decide_eq_false_2; [done|by intros <-..].
  - rewrite !bool_decide_eq_false_2 by (by intros <-). simpl. by apply IHerr.
Qed.

Lemma same_chain_validation err err' :
  same_chain err err' → AsValidationError err = AsValidationError err'.
Proof.
  revert err'. induction err; intros [] Hs; simpl in *; try done; simplify_eq; try done.
  by apply IHerr.
Qed.

(** C25: Every error becomes one of ten fixed answers, with details only for a
    validation error and [Retry-After] only on the busy answer, and the texts of
    internal errors never reach the client: errors that differ only in the texts
    of [errors.New] and of the wrapping [fmt.Errorf] are answered alike. *)
Theorem writeError_sound r err :
  (∃ status code message details, (status, code, message) ∈ answers ∧
    (writeError r err).(Response.Status) = status ∧
    (writeError r err).(Response.Body) =
      Response.ErrorBody code message details r.(Request.RequestID) ∧
    (details = [] ↔ AsValidationError err = None) ∧
    (("Retry-After", "2") ∈ (writeError r err).(Response.Headers) ↔ status = 503)) ∧
  ∀ err', same_chain err err' → writeError r err = writeError r err'.
Proof.
  split.
  - unfold writeError. destruct (AsValidationError err) as [[field message]|].
    { do 4 eexists. split_and!; [left|done|done|done|]. simpl. set_solver. }
    repeat match goal with |- context [if ?b then _ else _] => destruct b end;
      do 4 eexists; (split_and!; [|done|done|done|by vm_compute; set_solver]);
      unfold answers; set_solver.
  - intros err' Hc. unfold writeError. rewrite (same_chain_validation _ _ Hc).
    by rewrite !(same_chain_Is err err') by done.
Qed.
