(* ===== verification/Handlers.v ===== *)
(** * Handlers (src/internal/httpapi/handlers.go)

    One definition per handler of the API that calls the platform service: a program
    that ends with the response.  The handlers of the session are in Server.v. *)

From S2P Require Export Http.

Local Open Scope Z_scope.
Local Open Scope stdpp_scope.
Local Open Scope go_scope.

Module Handlers.
Section handlers.
Context `{Platform} `{UnicodeTables} `{URLParser} `{BodyDecoder}.

(** ** Shared endings *)

(** [principal(r).Username]. *)
Definition actor (r : Request) : string := r.(Request.User).(Principal.Username).

(** [if err != nil { writeError; return }; writeData(status, value)]. *)
Definition answer {A} (r : Request) (x : result A) (k : A → Response) : Response :=
  match x with Ok a => k a | Err err => writeError r err end.

Definition respond {A} (r : Request) (status : Z) (p : prog (result A)) : prog Response :=
  x ← p; Ret (answer r x (writeData status)).

(** The same for a method that returns a view next to its error. *)
Definition respond_view {A} (r : Request) (p : prog (A * option error)) : prog Response :=
  x ← p; Ret match x.2 with Some err => writeError r err | None => writeData 200 x.1 end.

(** A created or accepted item, with its location. *)
Definition respond_location {A} (r : Request) (status : Z) (prefix : string) (id : A → string)
    (p : prog (result A)) : prog Response :=
  x ← p;
  Ret (answer r x (λ a,
    Response.add_headers [("Location", prefix +:+ id a)] (writeData status a))).

Definition no_content {A} (r : Request) (p : prog (result A)) : prog Response :=
  x ← p; Ret (answer r x (λ _, Response.mk 204 [] None Response.NoBody)).

(** [if err := decodeJSON(w, r, &input); err != nil { writeInvalidJSON; return }]. *)
Definition with_body {A} (s : shape A) (r : Request) (k : A → prog Response) : prog Response :=
  match decodeJSON s r with
  | None => Ret (writeInvalidJSON r)
  | Some input => k input
  end.

(** A parameter that is parsed before the service is called. *)
Definition with_parameter {A} (r : Request) (x : result A) (k : A → prog Response) : prog Response :=
  match x with
  | Err err => Ret (writeError r err)
  | Ok a => k a
  end.

Definition workloadReference (r : Request) : WorkloadReference :=
  WorkloadReference.mk (r.(Request.PathValue) "kind") (r.(Request.PathValue) "namespace")
    (r.(Request.PathValue) "name").

Definition operations_path : string := "/api/v1/operations/".

(** ** Reads *)

Definition listClusters (r : Request) : prog Response :=
  respond r 200 (Service.ListClusters RequestCtx).

Definition getCluster (r : Request) : prog Response :=
  respond r 200 (Service.GetCluster RequestCtx (r.(Request.PathValue) "id")).

Definition clusterSummary (r : Request) : prog Response :=
  respond r 200 (Service.Summary RequestCtx (r.(Request.PathValue) "id")).

Definition clusterCapabilities (r : Request) : prog Response :=
  respond r 200 (Service.ClusterCapabilities RequestCtx (r.(Request.PathValue) "id")
    (r.(Request.Query) "namespace")).

Definition listNamespaces (r : Request) : prog Response :=
  respond r 200 (Service.Namespaces RequestCtx (r.(Request.PathValue) "id")).

Definition listPodSecurityAdmissionNamespaces (r : Request) : prog Response :=
  respond r 200 (Service.PodSecurityAdmissionNamespaces RequestCtx (r.(Request.PathValue) "id")).

Definition nodeVersionSkew (r : Request) : prog Response :=
  respond r 200 (Service.NodeVersionSkew RequestCtx (r.(Request.PathValue) "id")).

Definition listDeprecatedAPIRequests (r : Request) : prog Response :=
  respond r 200 (Service.DeprecatedAPIRequests RequestCtx (r.(Request.PathValue) "id")).

Definition endpointCertificate (r : Request) : prog Response :=
  respond r 200 (Service.EndpointCertificate RequestCtx (r.(Request.PathValue) "id")).

Definition apiServerReadiness (r : Request) : prog Response :=
  respond r 200 (Service.APIServerReadiness RequestCtx (r.(Request.PathValue) "id")).

Definition listDisruptionBudgetEvidence (r : Request) : prog Response :=
  respond r 200 (Service.DisruptionBudgets RequestCtx (r.(Request.PathValue) "id")).

Definition listNodes (r : Request) : prog Response :=
  respond r 200 (Service.Nodes RequestCtx (r.(Request.PathValue) "id")).

Definition getNodeDetail (r : Request) : prog Response :=
  respond r 200 (Service.NodeDetail RequestCtx (r.(Request.PathValue) "id")
    (r.(Request.PathValue) "name")).

Definition listCustomResourceDefinitions (r : Request) : prog Response :=
  respond r 200 (Service.CustomResourceDefinitions RequestCtx (r.(Request.PathValue) "id")).

Definition getCustomResourceDefinition (r : Request) : prog Response :=
  respond r 200 (Service.CustomResourceDefinition RequestCtx (r.(Request.PathValue) "id")
    (r.(Request.PathValue) "name")).

Definition listCertificateSigningRequests (r : Request) : prog Response :=
  respond r 200 (Service.CertificateSigningRequests RequestCtx (r.(Request.PathValue) "id")).

Definition getCertificateSigningRequest (r : Request) : prog Response :=
  respond r 200 (Service.CertificateSigningRequest RequestCtx (r.(Request.PathValue) "id")
    (r.(Request.PathValue) "name")).

Definition listPriorityClasses (r : Request) : prog Response :=
  respond r 200 (Service.PriorityClasses RequestCtx (r.(Request.PathValue) "id")).

Definition getPriorityClass (r : Request) : prog Response :=
  respond r 200 (Service.PriorityClass RequestCtx (r.(Request.PathValue) "id")
    (r.(Request.PathValue) "name")).

Definition listRuntimeClasses (r : Request) : prog Response :=
  respond r 200 (Service.RuntimeClasses RequestCtx (r.(Request.PathValue) "id")).

Definition getRuntimeClass (r : Request) : prog Response :=
  respond r 200 (Service.RuntimeClass RequestCtx (r.(Request.PathValue) "id")
    (r.(Request.PathValue) "name")).

Definition listAPIServices (r : Request) : prog Response :=
  respond r 200 (Service.APIServices RequestCtx (r.(Request.PathValue) "id")).

Definition listAdmissionWebhookConfigurations (r : Request) : prog Response :=
  respond r 200 (Service.AdmissionWebhookConfigurations RequestCtx (r.(Request.PathValue) "id")
    (r.(Request.Query) "kind")).

Definition getAdmissionWebhookConfiguration (r : Request) : prog Response :=
  respond r 200 (Service.AdmissionWebhookConfiguration RequestCtx (r.(Request.PathValue) "id")
    (r.(Request.Query) "kind") (r.(Request.PathValue) "name")).

Definition listValidatingAdmissionPolicies (r : Request) : prog Response :=
  respond r 200 (Service.ValidatingAdmissionPolicies RequestCtx (r.(Request.PathValue) "id")).

Definition getValidatingAdmissionPolicy (r : Request) : prog Response :=
  respond r 200 (Service.ValidatingAdmissionPolicy RequestCtx (r.(Request.PathValue) "id")
    (r.(Request.PathValue) "name")).

Definition listValidatingAdmissionPolicyBindings (r : Request) : prog Response :=
  respond r 200 (Service.ValidatingAdmissionPolicyBindings RequestCtx (r.(Request.PathValue) "id")).

Definition getValidatingAdmissionPolicyBinding (r : Request) : prog Response :=
  respond r 200 (Service.ValidatingAdmissionPolicyBinding RequestCtx (r.(Request.PathValue)
    "id") (r.(Request.PathValue) "name")).

Definition listWorkloads (r : Request) : prog Response :=
  respond r 200 (Service.Workloads RequestCtx (r.(Request.PathValue) "id") (r.(Request.Query)
    "namespace") (r.(Request.Query) "kind")).

Definition listServices (r : Request) : prog Response :=
  respond r 200 (Service.Services RequestCtx (r.(Request.PathValue) "id") (r.(Request.Query)
    "namespace")).

Definition listIngresses (r : Request) : prog Response :=
  respond r 200 (Service.Ingresses RequestCtx (r.(Request.PathValue) "id") (r.(Request.Query)
    "namespace")).

Definition listEndpointSlices (r : Request) : prog Response :=
  respond r 200 (Service.EndpointSlices RequestCtx (r.(Request.PathValue) "id")
    (r.(Request.Query) "namespace")).

Definition listNetworkPolicies (r : Request) : prog Response :=
  respond r 200 (Service.NetworkPolicies RequestCtx (r.(Request.PathValue) "id")
    (r.(Request.Query) "namespace")).

Definition listConfigMaps (r : Request) : prog Response :=
  respond r 200 (Service.ConfigMaps RequestCtx (r.(Request.PathValue) "id") (r.(Request.Query)
    "namespace")).

Definition listSecrets (r : Request) : prog Response :=
  respond r 200 (Service.Secrets RequestCtx (actor r) r.(Request.RequestID)
    (r.(Request.PathValue) "id") (r.(Request.Query) "namespace")).

Definition listPersistentVolumeClaims (r : Request) : prog Response :=
  respond r 200 (Service.PersistentVolumeClaims RequestCtx (r.(Request.PathValue) "id")
    (r.(Request.Query) "namespace")).

Definition listPersistentVolumes (r : Request) : prog Response :=
  respond r 200 (Service.PersistentVolumes RequestCtx (r.(Request.PathValue) "id")).

Definition listStorageClasses (r : Request) : prog Response :=
  respond r 200 (Service.StorageClasses RequestCtx (r.(Request.PathValue) "id")).

Definition listVolumeAttachments (r : Request) : prog Response :=
  respond r 200 (Service.VolumeAttachments RequestCtx (r.(Request.PathValue) "id")).

Definition listCSIStorageCapacities (r : Request) : prog Response :=
  respond r 200 (Service.CSIStorageCapacities RequestCtx (r.(Request.PathValue) "id")
    (r.(Request.Query) "namespace")).

Definition listVolumeAttributesClasses (r : Request) : prog Response :=
  respond r 200 (Service.VolumeAttributesClasses RequestCtx (r.(Request.PathValue) "id")).

Definition listCSIDrivers (r : Request) : prog Response :=
  respond r 200 (Service.CSIDrivers RequestCtx (r.(Request.PathValue) "id")).

Definition getCSIDriver (r : Request) : prog Response :=
  respond r 200 (Service.CSIDriver RequestCtx (r.(Request.PathValue) "id")
    (r.(Request.PathValue) "name")).

Definition listCSINodes (r : Request) : prog Response :=
  respond r 200 (Service.CSINodes RequestCtx (r.(Request.PathValue) "id")).

Definition getCSINode (r : Request) : prog Response :=
  respond r 200 (Service.CSINode RequestCtx (r.(Request.PathValue) "id") (r.(Request.PathValue)
    "name")).

Definition listResourceQuotas (r : Request) : prog Response :=
  respond r 200 (Service.ResourceQuotas RequestCtx (r.(Request.PathValue) "id")
    (r.(Request.Query) "namespace")).

Definition listLimitRanges (r : Request) : prog Response :=
  respond r 200 (Service.LimitRanges RequestCtx (r.(Request.PathValue) "id") (r.(Request.Query)
    "namespace")).

Definition listHorizontalPodAutoscalers (r : Request) : prog Response :=
  respond r 200 (Service.HorizontalPodAutoscalers RequestCtx (r.(Request.PathValue) "id")
    (r.(Request.Query) "namespace")).

Definition listPodDisruptionBudgets (r : Request) : prog Response :=
  respond r 200 (Service.PodDisruptionBudgets RequestCtx (r.(Request.PathValue) "id")
    (r.(Request.Query) "namespace")).

Definition listAccessResources (r : Request) : prog Response :=
  respond r 200 (Service.AccessResources RequestCtx (r.(Request.PathValue) "id")
    (r.(Request.Query) "kind") (r.(Request.Query) "namespace")).

Definition getWorkloadDetail (r : Request) : prog Response :=
  respond r 200 (Service.WorkloadDetail RequestCtx (r.(Request.PathValue) "id")
    (workloadReference r)).

Definition getDeploymentRevisionHistory (r : Request) : prog Response :=
  respond r 200 (Service.DeploymentRevisionHistory RequestCtx (r.(Request.PathValue) "id")
    (workloadReference r)).

Definition listRepositories (r : Request) : prog Response :=
  respond r 200 (Repositories.ListRepositories RequestCtx).

Definition getOperation (r : Request) : prog Response :=
  respond r 200 (Operations.GetOperation RequestCtx (r.(Request.PathValue) "id")).

(** ** Reads with parameters *)

Definition listNodeEvents (r : Request) : prog Response :=
  with_parameter r (parseBoundedInt (r.(Request.Query) "limit") 50 1 MaxNodeEventLimit "limit") (λ limit,
  respond r 200 (Service.NodeEvents RequestCtx (r.(Request.PathValue) "id")
    (r.(Request.PathValue) "name") limit)).

Definition listEvents (r : Request) : prog Response :=
  with_parameter r (parseBoundedInt (r.(Request.Query) "limit") 200 1 MaxClusterEventLimit "limit") (λ limit,
  respond r 200 (Service.Events RequestCtx (r.(Request.PathValue) "id")
    (r.(Request.Query) "namespace") (r.(Request.Query) "type") limit)).

Definition listWorkloadEvents (r : Request) : prog Response :=
  with_parameter r (parseBoundedInt (r.(Request.Query) "limit") 50 1 MaxWorkloadEventLimit "limit") (λ limit,
  respond r 200 (Service.WorkloadEvents RequestCtx (r.(Request.PathValue) "id")
    (workloadReference r) limit)).

Definition getAccessResourceDetail (r : Request) : prog Response :=
  respond r 200 (Service.AccessResourceDetail RequestCtx (r.(Request.PathValue) "id")
    (KubernetesAccessResourceReference.mk (r.(Request.PathValue) "kind")
       (r.(Request.Query) "namespace") (r.(Request.PathValue) "name"))).

Definition getPodLogs (r : Request) : prog Response :=
  with_parameter r (parseBoundedInt (r.(Request.Query) "tail_lines") 200 1 MaxPodLogTailLines
                      "tail_lines") (λ tailLines,
  with_parameter r (parseOptionalBool (r.(Request.Query) "previous") false "previous") (λ previous,
  with_parameter r (parseOptionalBool (r.(Request.Query) "timestamps") true "timestamps") (λ timestamps,
  respond r 200 (Service.PodLogs RequestCtx (actor r) r.(Request.RequestID)
    (r.(Request.PathValue) "id")
    (PodLogRequest.mk (r.(Request.PathValue) "namespace") (r.(Request.PathValue) "name")
       (r.(Request.Query) "container") tailLines previous timestamps))))).

Definition listHelmReleases (r : Request) : prog Response :=
  let clusterID := r.(Request.Query) "cluster_id" in
  with_parameter r (reject_if (bool_decide (clusterID = "")) (Invalid "cluster_id" "is required")) (λ _,
  respond r 200 (Operations.ListHelmReleases RequestCtx clusterID (r.(Request.Query) "namespace"))).

Definition getHelmReleaseHistory (r : Request) : prog Response :=
  let clusterID := r.(Request.Query) "cluster_id" in
  with_parameter r (reject_if (bool_decide (clusterID = "")) (Invalid "cluster_id" "is required")) (λ _,
  respond r 200 (Operations.HelmReleaseHistory RequestCtx clusterID (r.(Request.Query) "namespace")
    (r.(Request.PathValue) "name"))).

Definition listOperations (r : Request) : prog Response :=
  with_parameter r (parseLimit (r.(Request.Query) "limit")) (λ limit,
  respond r 200 (Operations.ListOperations RequestCtx limit)).

Definition listAuditEvents (r : Request) : prog Response :=
  with_parameter r (parseLimit (r.(Request.Query) "limit")) (λ limit,
  respond r 200 (Operations.ListAuditEvents RequestCtx limit)).

Definition systemResources (r : Request) : prog Response :=
  capacity ← Operations.OperationCapacity;
  Ret (writeData 200 capacity).

(** ** Clusters and repositories *)

Definition createCluster (r : Request) : prog Response :=
  with_body ClusterBody r (λ input,
  respond_location r 201 "/api/v1/clusters/" ClusterView.ID
    (Service.CreateCluster RequestCtx (actor r) r.(Request.RequestID) input)).

Definition patchCluster (r : Request) : prog Response :=
  with_body EnabledBody r (λ input,
  match input with
  | None => Ret (writeError r (Invalid "enabled" "is required"))
  | Some enabled =>
      respond r 200 (Service.SetClusterEnabled RequestCtx (actor r) r.(Request.RequestID)
        (r.(Request.PathValue) "id") enabled)
  end).

Definition deleteCluster (r : Request) : prog Response :=
  with_body ConfirmationBody r (λ confirmation,
  no_content r (Service.DeleteCluster RequestCtx (actor r) r.(Request.RequestID)
    (r.(Request.PathValue) "id") confirmation)).

Definition testCluster (r : Request) : prog Response :=
  respond_view r (Service.TestClusterConnection RequestCtx (actor r) r.(Request.RequestID)
    (r.(Request.PathValue) "id")).

Definition rotateClusterCredentials (r : Request) : prog Response :=
  with_body RotationBody r (λ input,
  respond r 200 (Service.RotateClusterCredentials RequestCtx (actor r) r.(Request.RequestID)
    (r.(Request.PathValue) "id") input)).

Definition reviewServiceAccountAccess (r : Request) : prog Response :=
  with_body ReviewBody r (λ input,
  respond r 200 (Service.ReviewServiceAccountAccess RequestCtx (actor r) r.(Request.RequestID)
    (r.(Request.PathValue) "id") input)).

Definition createRepository (r : Request) : prog Response :=
  with_body RepositoryBody r (λ input,
  respond_location r 201 "/api/v1/chart-repositories/" RepositoryView.ID
    (Repositories.CreateRepository RequestCtx (actor r) r.(Request.RequestID) input)).

Definition patchRepository (r : Request) : prog Response :=
  with_body EnabledBody r (λ input,
  match input with
  | None => Ret (writeError r (Invalid "enabled" "is required"))
  | Some enabled =>
      respond r 200 (Repositories.SetRepositoryEnabled RequestCtx (actor r) r.(Request.RequestID)
        (r.(Request.PathValue) "id") enabled)
  end).

Definition deleteRepository (r : Request) : prog Response :=
  no_content r (Repositories.DeleteRepository RequestCtx (actor r) r.(Request.RequestID)
    (r.(Request.PathValue) "id")).

Definition testRepository (r : Request) : prog Response :=
  respond_view r (Repositories.TestRepository RequestCtx (actor r) r.(Request.RequestID)
    (r.(Request.PathValue) "id")).

(** ** Operations *)

Definition submitWorkloadOperation (r : Request) (kind : OperationKind)
    (input : WorkloadOperationInput) : prog Response :=
  let input := WorkloadOperationInput.mk (r.(Request.PathValue) "id") (workloadReference r)
    input.(WorkloadOperationInput.ResourceVersion) input.(WorkloadOperationInput.Replicas)
    input.(WorkloadOperationInput.Confirmation) in
  respond_location r 202 operations_path Operation.ID
    (Operations.SubmitWorkloadOperation RequestCtx (actor r) r.(Request.RequestID) kind input).

(** The reference that the source leaves empty, and fills in [submitWorkloadOperation]. *)
Definition no_reference : WorkloadReference := WorkloadReference.mk "" "" "".

Definition scaleWorkload (r : Request) : prog Response :=
  with_body ScaleBody r (λ '(replicas, resourceVersion, confirmation),
  submitWorkloadOperation r OperationWorkloadScale
    (WorkloadOperationInput.mk "" no_reference resourceVersion replicas confirmation)).

Definition restartWorkload (r : Request) : prog Response :=
  with_body RestartBody r (λ '(resourceVersion, confirmation),
  submitWorkloadOperation r OperationWorkloadRestart
    (WorkloadOperationInput.mk "" no_reference resourceVersion None confirmation)).

Definition workloadImageOperationInput (r : Request)
    (container currentImage image resourceVersion confirmation : string) :
    WorkloadImageOperationInput :=
  WorkloadImageOperationInput.mk (r.(Request.PathValue) "id")
    (WorkloadImageChange.mk (workloadReference r) resourceVersion container currentImage image)
    confirmation.

Definition previewWorkloadImage (r : Request) : prog Response :=
  with_body PreviewBody r (λ input,
  respond r 200 (Operations.PreviewWorkloadImage RequestCtx (actor r) r.(Request.RequestID)
    (workloadImageOperationInput r input.(image_Container) input.(image_CurrentImage)
       input.(image_Image) input.(image_ResourceVersion) ""))).

Definition updateWorkloadImage (r : Request) : prog Response :=
  with_body ImageBody r (λ input,
  respond_location r 202 operations_path Operation.ID
    (Operations.SubmitWorkloadImageUpdate RequestCtx (actor r) r.(Request.RequestID)
       (workloadImageOperationInput r input.(image_Container) input.(image_CurrentImage)
          input.(image_Image) input.(image_ResourceVersion) input.(image_Confirmation)))).

Definition domainInput (input : helmWriteInput) : HelmOperationInput :=
  HelmOperationInput.mk input.(helm_ClusterID) input.(helm_Namespace) input.(helm_ReleaseName)
    input.(helm_Chart) input.(helm_RepositoryID) input.(helm_Version) input.(helm_Values)
    input.(helm_Revision).

(** [input.ReleaseName = r.PathValue("name")]. *)
Definition with_ReleaseName (input : helmWriteInput) (name : string) : helmWriteInput :=
  mkHelmWriteInput input.(helm_ClusterID) input.(helm_Namespace) name input.(helm_Chart)
    input.(helm_RepositoryID) input.(helm_Version) input.(helm_Values) input.(helm_Revision).

Definition submitHelm (r : Request) (kind : OperationKind) (input : HelmOperationInput) :
    prog Response :=
  respond_location r 202 operations_path Operation.ID
    (Operations.SubmitHelmOperation RequestCtx (actor r) r.(Request.RequestID) kind input).

Definition installHelmRelease (r : Request) : prog Response :=
  with_body HelmBody r (λ input, submitHelm r OperationHelmInstall (domainInput input)).

Definition upgradeHelmRelease (r : Request) : prog Response :=
  with_body HelmBody r (λ input,
  submitHelm r OperationHelmUpgrade
    (domainInput (with_ReleaseName input (r.(Request.PathValue) "name")))).

Definition rollbackHelmRelease (r : Request) : prog Response :=
  with_body HelmBody r (λ input,
  submitHelm r OperationHelmRollback
    (domainInput (with_ReleaseName input (r.(Request.PathValue) "name")))).

Definition uninstallHelmRelease (r : Request) : prog Response :=
  with_body HelmBody r (λ input,
  submitHelm r OperationHelmUninstall
    (domainInput (with_ReleaseName input (r.(Request.PathValue) "name")))).

Definition cancelOperation (r : Request) : prog Response :=
  with_body EmptyBody r (λ _,
  respond r 200 (Operations.CancelOperation RequestCtx (actor r) r.(Request.RequestID)
    (r.(Request.PathValue) "id"))).
End handlers.
End Handlers.
