(* ===== verification/Server.v ===== *)
(** * The HTTP server (src/internal/httpapi/server.go)

    Routing, the middleware that guards the API, the session handlers of
    handlers.go, and what reaches the platform service.  The file system below the
    static directory is a parameter. *)

From S2P Require Export Regex RateLimit Handlers.

Local Open Scope Z_scope.
Local Open Scope stdpp_scope.
Local Open Scope go_scope.

Definition sessionCookieName : string := "panel_session".

(** [^[A-Za-z0-9._:-]{1,80}$] *)
Definition requestIDPattern : re :=
  let c := Class (alnum ++ [(".", "."); ("_", "_"); (":", ":"); ("-", "-")]%char) in
  Cat c (Upto 79 c).

Definition isMutation (method : string) : bool :=
  bool_decide (method ∈ ["POST"; "PUT"; "PATCH"; "DELETE"]).

Module Server.
Section server.
Context `{Platform} `{UnicodeTables} `{URLParser} `{BodyDecoder} `{PasswordVerifier}.

(** ** State *)

(** [inUse] counts the request slots that are taken. *)
Record t : Type := mk {
  sessions : SessionManager.t;
  staticDir : string;
  secureCookies : bool;
  loginLimiter : FailureLimiter.t;
  inUse : Z;
  maxConcurrentRequests : Z;
}.

Definition with_sessions (s : t) (m : SessionManager.t) : t :=
  mk m s.(staticDir) s.(secureCookies) s.(loginLimiter) s.(inUse) s.(maxConcurrentRequests).
Definition with_limiter (s : t) (l : FailureLimiter.t) : t :=
  mk s.(sessions) s.(staticDir) s.(secureCookies) l s.(inUse) s.(maxConcurrentRequests).
Definition with_inUse (s : t) (n : Z) : t :=
  mk s.(sessions) s.(staticDir) s.(secureCookies) s.(loginLimiter) n s.(maxConcurrentRequests).

(** [has_service] and [has_sessions] say that the two dependencies are not nil. *)
Definition New (has_service has_sessions : bool) (sessions : SessionManager.t) (staticDir : string)
    (secureCookies : bool) (MaxConcurrentRequests : Z) : result t :=
  reject_if (negb has_service || negb has_sessions)
    (NewError "service and session manager are required") ;;
  let maxConcurrentRequests := if MaxConcurrentRequests =? 0 then 16 else MaxConcurrentRequests in
  reject_if ((maxConcurrentRequests <? 1) || (128 <? maxConcurrentRequests))
    (NewError "max concurrent requests must be between 1 and 128") ;;
  Ok (mk sessions staticDir secureCookies
        (FailureLimiter.newFailureLimiter 5 (5 * minute) 10000) 0 maxConcurrentRequests).

(** What one request reads of the clock, the random source and the file system. *)
Record env : Type := mkEnv {
  generatedID : result string;
  authenticatedAt : time;
  blockedAt : time;
  loginAt : time;
  sweptAt : time;
  failedAt : time;
  order : list (string * FailureLimiter.failureWindow);
  token : result (list Z);
  Stat : string → option bool;   (** [Some dir]: the path exists, [dir] if a directory *)
}.

(** ** The session handlers *)

Definition session_cookie (s : t) (r : Request) (value : string) (expires : option time)
    (maxAge : Z) : Response.cookie :=
  Response.mkCookie sessionCookieName value "/" expires maxAge true
    (s.(secureCookies) || r.(Request.TLS)) true.

Definition login (s : t) (E : env) (r : Request) : t * Response :=
  let clientKey := loginClientKey r in
  let '(limiter, retry) := FailureLimiter.blocked s.(loginLimiter) E.(blockedAt) clientKey in
  let s := with_limiter s limiter in
  match retry with
  | Some retryAfter =>
      let seconds := Z.quot retryAfter second + 1 in
      (s, Response.add_headers [("Retry-After", FormatInt seconds)]
            (writeErrorStatus r 429 "rate_limited" "登录尝试过多，请稍后重试" []))
  | None =>
  match decodeJSON LoginBody r with
  | None => (s, writeInvalidJSON r)
  | Some (username, password) =>
  let '(m, x) := SessionManager.Login s.(sessions) username password E.(token) E.(loginAt)
                   E.(sweptAt) in
  let s := with_sessions s m in
  match x with
  | Err err =>
      (if Is err ErrUnauthorized
       then with_limiter s (FailureLimiter.failed s.(loginLimiter) E.(order) E.(failedAt) clientKey)
       else s, writeError r err)
  | Ok (token, principal) =>
      let s := with_limiter s (FailureLimiter.reset s.(loginLimiter) clientKey) in
      (s, Response.set_cookie
            (session_cookie s r token (Some principal.(Principal.ExpiresAt)) 0)
            (writeData 200 principal))
  end end end.

Definition currentSession (r : Request) : Response := writeData 200 r.(Request.User).

Definition logout (s : t) (r : Request) : t * Response :=
  let s := match r.(Request.Cookie) with
           | Some value => with_sessions s (SessionManager.Logout s.(sessions) value)
           | None => s
           end in
  (s, Response.set_cookie (session_cookie s r "" None (-1)) (Response.mk 204 [] None Response.NoBody)).

Definition health : Response := writeData 200 [("status", "ok")].
Definition ready : Response := writeData 200 [("status", "ready")].

(** ** Static files *)

(** The components of [filepath.Clean("/" + path)]. *)
Definition clean_step (cleaned : list string) (component : string) : list string :=
  if bool_decide (component = "") || bool_decide (component = ".") then cleaned
  else if bool_decide (component = "..") then removelast cleaned
  else cleaned ++ [component].

Definition clean_components (path : string) : list string := foldl clean_step [] (Split path "/").

Definition static (s : t) (E : env) (r : Request) : Response :=
  if HasPrefix r.(Request.Path) "/api/" then
    writeErrorStatus r 404 "not_found" "接口不存在" []
  else if bool_decide (s.(staticDir) = "") then
    Response.mk 404 [] None (Response.Text "404 page not found")
  else
    let components := clean_components r.(Request.Path) in
    let assetPath := GoText.Join (s.(staticDir) :: components) "/" in
    match E.(Stat) assetPath with
    | Some false =>
        Response.mk 200
          (if Contains (GoText.Join components "/") "assets/"
           then [("Cache-Control", "public, max-age=31536000, immutable")] else [])
          None (Response.File assetPath)
    | _ =>
        Response.mk 200 [("Cache-Control", "no-cache")] None
          (Response.File (GoText.Join [s.(staticDir); "index.html"] "/"))
    end.

(** ** Routes *)

Inductive guarded : Type :=
  | CurrentSession
  | Logout
  | Call (h : Request → prog Response).

Inductive endpoint : Type :=
  | Health
  | Ready
  | Login
  | Protected (g : guarded)
  | Static.

Definition routes : list (string * endpoint) :=
  [("GET /healthz", Health);
   ("GET /readyz", Ready);
   ("POST /api/v1/session", Login);
   ("GET /api/v1/session", Protected (CurrentSession));
   ("DELETE /api/v1/session", Protected (Logout));
   ("GET /api/v1/clusters", Protected (Call Handlers.listClusters));
   ("POST /api/v1/clusters", Protected (Call Handlers.createCluster));
   ("GET /api/v1/clusters/{id}", Protected (Call Handlers.getCluster));
   ("PATCH /api/v1/clusters/{id}", Protected (Call Handlers.patchCluster));
   ("DELETE /api/v1/clusters/{id}", Protected (Call Handlers.deleteCluster));
   ("POST /api/v1/clusters/{id}/connection-tests", Protected (Call Handlers.testCluster));
   ("POST /api/v1/clusters/{id}/credential-rotations", Protected (Call Handlers.rotateClusterCredentials));
   ("GET /api/v1/clusters/{id}/capabilities", Protected (Call Handlers.clusterCapabilities));
   ("GET /api/v1/clusters/{id}/summary", Protected (Call Handlers.clusterSummary));
   ("GET /api/v1/clusters/{id}/namespaces", Protected (Call Handlers.listNamespaces));
   ("GET /api/v1/clusters/{id}/pod-security-admission/namespaces", Protected (Call Handlers.listPodSecurityAdmissionNamespaces));
   ("GET /api/v1/clusters/{id}/upgrade-readiness/node-versions", Protected (Call Handlers.nodeVersionSkew));
   ("GET /api/v1/clusters/{id}/upgrade-readiness/deprecated-apis", Protected (Call Handlers.listDeprecatedAPIRequests));
   ("GET /api/v1/clusters/{id}/upgrade-readiness/endpoint-certificate", Protected (Call Handlers.endpointCertificate));
   ("GET /api/v1/clusters/{id}/control-plane/readiness", Protected (Call Handlers.apiServerReadiness));
   ("GET /api/v1/clusters/{id}/upgrade-readiness/disruption-budgets", Protected (Call Handlers.listDisruptionBudgetEvidence));
   ("GET /api/v1/clusters/{id}/nodes", Protected (Call Handlers.listNodes));
   ("GET /api/v1/clusters/{id}/nodes/{name}", Protected (Call Handlers.getNodeDetail));
   ("GET /api/v1/clusters/{id}/nodes/{name}/events", Protected (Call Handlers.listNodeEvents));
   ("GET /api/v1/clusters/{id}/custom-resource-definitions", Protected (Call Handlers.listCustomResourceDefinitions));
   ("GET /api/v1/clusters/{id}/custom-resource-definitions/{name}", Protected (Call Handlers.getCustomResourceDefinition));
   ("GET /api/v1/clusters/{id}/certificate-signing-requests", Protected (Call Handlers.listCertificateSigningRequests));
   ("GET /api/v1/clusters/{id}/certificate-signing-requests/{name}", Protected (Call Handlers.getCertificateSigningRequest));
   ("GET /api/v1/clusters/{id}/priority-classes", Protected (Call Handlers.listPriorityClasses));
   ("GET /api/v1/clusters/{id}/priority-classes/{name}", Protected (Call Handlers.getPriorityClass));
   ("GET /api/v1/clusters/{id}/runtime-classes", Protected (Call Handlers.listRuntimeClasses));
   ("GET /api/v1/clusters/{id}/runtime-classes/{name}", Protected (Call Handlers.getRuntimeClass));
   ("GET /api/v1/clusters/{id}/api-services", Protected (Call Handlers.listAPIServices));
   ("GET /api/v1/clusters/{id}/admission-webhook-configurations", Protected (Call Handlers.listAdmissionWebhookConfigurations));
   ("GET /api/v1/clusters/{id}/admission-webhook-configurations/{name}", Protected (Call Handlers.getAdmissionWebhookConfiguration));
   ("GET /api/v1/clusters/{id}/validating-admission-policies", Protected (Call Handlers.listValidatingAdmissionPolicies));
   ("GET /api/v1/clusters/{id}/validating-admission-policies/{name}", Protected (Call Handlers.getValidatingAdmissionPolicy));
   ("GET /api/v1/clusters/{id}/validating-admission-policy-bindings", Protected (Call Handlers.listValidatingAdmissionPolicyBindings));
   ("GET /api/v1/clusters/{id}/validating-admission-policy-bindings/{name}", Protected (Call Handlers.getValidatingAdmissionPolicyBinding));
   ("GET /api/v1/clusters/{id}/events", Protected (Call Handlers.listEvents));
   ("GET /api/v1/clusters/{id}/workloads", Protected (Call Handlers.listWorkloads));
   ("GET /api/v1/clusters/{id}/services", Protected (Call Handlers.listServices));
   ("GET /api/v1/clusters/{id}/ingresses", Protected (Call Handlers.listIngresses));
   ("GET /api/v1/clusters/{id}/endpoint-slices", Protected (Call Handlers.listEndpointSlices));
   ("GET /api/v1/clusters/{id}/network-policies", Protected (Call Handlers.listNetworkPolicies));
   ("GET /api/v1/clusters/{id}/configmaps", Protected (Call Handlers.listConfigMaps));
   ("GET /api/v1/clusters/{id}/secrets", Protected (Call Handlers.listSecrets));
   ("GET /api/v1/clusters/{id}/persistent-volume-claims", Protected (Call Handlers.listPersistentVolumeClaims));
   ("GET /api/v1/clusters/{id}/persistent-volumes", Protected (Call Handlers.listPersistentVolumes));
   ("GET /api/v1/clusters/{id}/storage-classes", Protected (Call Handlers.listStorageClasses));
   ("GET /api/v1/clusters/{id}/volume-attachments", Protected (Call Handlers.listVolumeAttachments));
   ("GET /api/v1/clusters/{id}/csi-storage-capacities", Protected (Call Handlers.listCSIStorageCapacities));
   ("GET /api/v1/clusters/{id}/volume-attributes-classes", Protected (Call Handlers.listVolumeAttributesClasses));
   ("GET /api/v1/clusters/{id}/csi-drivers", Protected (Call Handlers.listCSIDrivers));
   ("GET /api/v1/clusters/{id}/csi-drivers/{name}", Protected (Call Handlers.getCSIDriver));
   ("GET /api/v1/clusters/{id}/csi-nodes", Protected (Call Handlers.listCSINodes));
   ("GET /api/v1/clusters/{id}/csi-nodes/{name}", Protected (Call Handlers.getCSINode));
   ("GET /api/v1/clusters/{id}/resource-quotas", Protected (Call Handlers.listResourceQuotas));
   ("GET /api/v1/clusters/{id}/limit-ranges", Protected (Call Handlers.listLimitRanges));
   ("GET /api/v1/clusters/{id}/horizontal-pod-autoscalers", Protected (Call Handlers.listHorizontalPodAutoscalers));
   ("GET /api/v1/clusters/{id}/pod-disruption-budgets", Protected (Call Handlers.listPodDisruptionBudgets));
   ("GET /api/v1/clusters/{id}/access-resources", Protected (Call Handlers.listAccessResources));
   ("GET /api/v1/clusters/{id}/access-resources/{kind}/{name}", Protected (Call Handlers.getAccessResourceDetail));
   ("POST /api/v1/clusters/{id}/service-account-access-reviews", Protected (Call Handlers.reviewServiceAccountAccess));
   ("GET /api/v1/clusters/{id}/workloads/{kind}/{namespace}/{name}", Protected (Call Handlers.getWorkloadDetail));
   ("GET /api/v1/clusters/{id}/workloads/{kind}/{namespace}/{name}/revisions", Protected (Call Handlers.getDeploymentRevisionHistory));
   ("GET /api/v1/clusters/{id}/workloads/{kind}/{namespace}/{name}/events", Protected (Call Handlers.listWorkloadEvents));
   ("GET /api/v1/clusters/{id}/pods/{namespace}/{name}/logs", Protected (Call Handlers.getPodLogs));
   ("POST /api/v1/clusters/{id}/workloads/{kind}/{namespace}/{name}/scales", Protected (Call Handlers.scaleWorkload));
   ("POST /api/v1/clusters/{id}/workloads/{kind}/{namespace}/{name}/restarts", Protected (Call Handlers.restartWorkload));
   ("POST /api/v1/clusters/{id}/workloads/{kind}/{namespace}/{name}/image-previews", Protected (Call Handlers.previewWorkloadImage));
   ("POST /api/v1/clusters/{id}/workloads/{kind}/{namespace}/{name}/image-updates", Protected (Call Handlers.updateWorkloadImage));
   ("GET /api/v1/chart-repositories", Protected (Call Handlers.listRepositories));
   ("POST /api/v1/chart-repositories", Protected (Call Handlers.createRepository));
   ("PATCH /api/v1/chart-repositories/{id}", Protected (Call Handlers.patchRepository));
   ("DELETE /api/v1/chart-repositories/{id}", Protected (Call Handlers.deleteRepository));
   ("POST /api/v1/chart-repositories/{id}/connection-tests", Protected (Call Handlers.testRepository));
   ("GET /api/v1/helm-releases", Protected (Call Handlers.listHelmReleases));
   ("POST /api/v1/helm-releases", Protected (Call Handlers.installHelmRelease));
   ("GET /api/v1/helm-releases/{name}/history", Protected (Call Handlers.getHelmReleaseHistory));
   ("POST /api/v1/helm-releases/{name}/upgrades", Protected (Call Handlers.upgradeHelmRelease));
   ("POST /api/v1/helm-releases/{name}/rollbacks", Protected (Call Handlers.rollbackHelmRelease));
   ("DELETE /api/v1/helm-releases/{name}", Protected (Call Handlers.uninstallHelmRelease));
   ("GET /api/v1/operations", Protected (Call Handlers.listOperations));
   ("GET /api/v1/operations/{id}", Protected (Call Handlers.getOperation));
   ("POST /api/v1/operations/{id}/cancellations", Protected (Call Handlers.cancelOperation));
   ("GET /api/v1/audit-events", Protected (Call Handlers.listAuditEvents));
   ("GET /api/v1/system/resources", Protected (Call Handlers.systemResources))].

(** A pattern of the mux, [METHOD /literal/{wildcard}/...]. *)
Inductive segment : Type :=
  | Literal (text : string)
  | Wildcard (name : string).

Definition parse_segment (s : string) : segment :=
  match s with
  | String "{" rest => Wildcard (TrimSuffix rest "}")
  | _ => Literal s
  end.

Definition parse_pattern (pattern : string) : string * list segment :=
  let '(method, path, _) := Cut pattern " " in
  (method, parse_segment <$> drop 1 (Split path "/")).

(** A wildcard matches one non-empty segment. *)
Fixpoint match_segments (pattern : list segment) (path : list string) (values : string → string) :
    option (string → string) :=
  match pattern, path with
  | [], [] => Some values
  | Literal text :: pattern, s :: path =>
      if bool_decide (text = s) then match_segments pattern path values else None
  | Wildcard name :: pattern, s :: path =>
      if bool_decide (s = "") then None
      else match_segments pattern path (λ n, if bool_decide (n = name) then s else values n)
  | _, _ => None
  end.

(** A pattern for GET also matches HEAD. *)
Definition match_method (method request : string) : bool :=
  bool_decide (method = request) || bool_decide (method = "GET") && bool_decide (request = "HEAD").

(** No two patterns of [routes] match the same request, so the first that matches is
    the one the mux picks; [/] matches every other request. *)
Fixpoint find_route (rs : list (string * endpoint)) (r : Request) : endpoint * (string → string) :=
  match rs with
  | [] => (Static, λ _, "")
  | (pattern, e) :: rs =>
      let '(method, segments) := parse_pattern pattern in
      match match_segments segments r.(Request.Segments) (λ _, "") with
      | Some values =>
          if match_method method r.(Request.Method) then (e, values) else find_route rs r
      | None => find_route rs r
      end
  end.

(** ** The middleware *)

Definition sameOrigin (r : Request) : bool :=
  let origin := r.(Request.Header) "Origin" in
  if bool_decide (origin = "") then true else
  match ParseURL origin with
  | None => false
  | Some parsed =>
      if negb (bool_decide (parsed.(URL.Host) = r.(Request.Host))) then false
      else bool_decide (parsed.(URL.Scheme) = if r.(Request.TLS) then "https" else "http")
  end.

Definition protected (s : t) (E : env) (r : Request) (g : guarded) : t * prog Response :=
  match r.(Request.Cookie) with
  | None => (s, Ret (writeError r ErrUnauthorized))
  | Some cookie =>
  let '(m, x) := SessionManager.Authenticate s.(sessions) cookie E.(authenticatedAt) in
  let s := with_sessions s m in
  match x with
  | Err err => (s, Ret (writeError r err))
  | Ok principal =>
  if isMutation r.(Request.Method) && negb (sameOrigin r)
  then (s, Ret (writeError r ErrForbidden)) else
  let r := Request.with_User r principal in
  match g with
  | CurrentSession => (s, Ret (currentSession r))
  | Logout => let '(s, w) := logout s r in (s, Ret w)
  | Call h => (s, h r)
  end
  end end.

Definition serve (s : t) (E : env) (r : Request) : t * prog Response :=
  let '(e, values) := find_route routes r in
  let r := Request.with_PathValue r values in
  match e with
  | Health => (s, Ret health)
  | Ready => (s, Ret ready)
  | Login => let '(s, w) := login s E r in (s, Ret w)
  | Protected g => protected s E r g
  | Static => (s, Ret (static s E r))
  end.

Definition security_headers (r : Request) (requestID : string) : list (string * string) :=
  [("X-Request-ID", requestID); ("X-Content-Type-Options", "nosniff"); ("X-Frame-Options", "DENY");
   ("Cross-Origin-Opener-Policy", "same-origin"); ("Cross-Origin-Resource-Policy", "same-origin");
   ("Referrer-Policy", "no-referrer");
   ("Permissions-Policy", "camera=(), microphone=(), geolocation=()");
   ("Content-Security-Policy", "default-src 'self'; script-src 'self'; style-src 'self'; img-src 'self' data:; connect-src 'self'; object-src 'none'; manifest-src 'self'; frame-ancestors 'none'; base-uri 'none'; form-action 'self'")] ++
  (if r.(Request.TLS)
   then [("Strict-Transport-Security", "max-age=31536000; includeSubDomains")] else []) ++
  (if HasPrefix r.(Request.Path) "/api/" then [("Cache-Control", "no-store")] else []).

Definition with_headers (headers : list (string * string)) (p : prog Response) : prog Response :=
  w ← p; Ret (Response.add_headers headers w).

(** The program that answers, and whether the request holds a slot until it ends. *)
Definition ServeHTTP (s : t) (E : env) (r : Request) : t * prog Response * bool :=
  let requestID := TrimSpace (r.(Request.Header) "X-Request-ID") in
  match (if MatchString requestIDPattern requestID then Ok requestID else E.(generatedID)) with
  | Err _ => (s, Ret (Response.mk 500 [] None (Response.Text "internal server error")), false)
  | Ok requestID =>
      let headers := security_headers r requestID in
      let r := Request.with_RequestID r requestID in
      if HasPrefix r.(Request.Path) "/api/" then
        if s.(inUse) <? s.(maxConcurrentRequests) then
          let '(s, p) := serve (with_inUse s (s.(inUse) + 1)) E r in
          (s, with_headers headers p, true)
        else (s, with_headers headers (Ret (writeErrorStatus r 503 "server_busy" "服务繁忙，请稍后重试" [])), false)
      else
        let '(s, p) := serve s E r in
        (s, with_headers headers p, false)
  end.

(** [defer func() { <-s.requestSlots }()]. *)
Definition finish (s : t) (held : bool) : t := if held then with_inUse s (s.(inUse) - 1) else s.
End server.
End Server.
