(* ===== verification/ServerSafety.v ===== *)
(** * What reaches the platform service

    The guards of Server.v, proved over the whole route table: who can make the
    service do anything, what the methods exempt from the origin check can do, and
    how failed logins lock a client out. *)

From S2P Require Export Server.

Local Open Scope Z_scope.
Local Open Scope stdpp_scope.
Local Open Scope go_scope.

Module ServerSafety.
Section server.
Context `{Platform} `{UnicodeTables} `{URLParser} `{BodyDecoder} `{PasswordVerifier}.
Import Server.

(** ** The middleware *)

Lemma find_route_in rs r e values :
  find_route rs r = (e, values) →
  e = Static ∨ ∃ pattern, (pattern, e) ∈ rs ∧
    match_method (parse_pattern pattern).1 r.(Request.Method) = true.
Proof.
  induction rs as [|[pattern e'] rs IH]; simpl; [intros [= <- _]; by left|].
  destruct (parse_pattern pattern) as [method segments] eqn:Ep.
  assert (find_route rs r = (e, values) → e = Static ∨ ∃ pattern0 : string,
    (pattern0, e) ∈ (pattern, e') :: rs ∧
    match_method (parse_pattern pattern0).1 (Request.Method r) = true) as Hrest.
  { intros [?|(p & Hp & Hm)]%IH; [by left|right]. exists p. split; [by right|done]. }
  destruct (match_segments _ _ _) as [v|]; [|exact Hrest].
  destruct (match_method _ _) eqn:Em; [|exact Hrest].
  intros [= <- _]. right. exists pattern. rewrite Ep. split; [by left|done].
Qed.

(** The route a request reaches, by its place in the table. *)
Definition matches (pattern : string) (r : Request) : bool :=
  let '(method, segments) := parse_pattern pattern in
  match match_segments segments r.(Request.Segments) (λ _, "") with
  | Some _ => match_method method r.(Request.Method)
  | None => false
  end.

Lemma find_route_at rs r i pattern e :
  forallb (λ p, negb (matches p r)) (take i rs.*1) = true → matches pattern r = true →
  rs !! i = Some (pattern, e) → find_route rs r = (e, (find_route rs r).2).
Proof.
  revert i. unfold matches. induction rs as [|[p e'] rs IH]; intros i; simpl; [done|].
  destruct i as [|i]; simpl.
  - intros _ Hm [= -> ->]. destruct (parse_pattern pattern) as [method segments].
    destruct (match_segments _ _ _); [|done]. by rewrite Hm.
  - intros Hall Hm Hi. apply andb_true_iff in Hall as [Hp Hall].
    destruct (parse_pattern p) as [method segments].
    destruct (match_segments _ _ _); [|by eapply IH].
    apply negb_true_iff in Hp. rewrite Hp. by eapply IH.
Qed.

(** The request as a handler behind the middleware sees it. *)
Definition seen (r : Request) (requestID : string) (values : string → string)
    (principal : Principal) : Request :=
  Request.with_User (Request.with_PathValue (Request.with_RequestID r requestID) values) principal.

(** The program of a request does nothing, or is the handler of an API route, run for
    the principal of a valid session, from the same origin when the method mutates. *)
Definition admitted (s : t) (E : env) (r : Request) (p : prog Response) : Prop :=
  (∃ w, p = Ret w) ∨
  ∃ pattern h values cookie principal requestID,
    (pattern, Protected (Call h)) ∈ routes ∧
    match_method (parse_pattern pattern).1 r.(Request.Method) = true ∧
    r.(Request.Cookie) = Some cookie ∧
    (SessionManager.Authenticate s.(sessions) cookie E.(authenticatedAt)).2 = Ok principal ∧
    (isMutation r.(Request.Method) = true → sameOrigin r = true) ∧
    p = with_headers (security_headers r requestID) (h (seen r requestID values principal)).

Lemma serve_admitted s E r requestID :
  admitted s E r (with_headers (security_headers r requestID)
    (serve s E (Request.with_RequestID r requestID)).2).
Proof.
  unfold serve. destruct (find_route _ _) as [e values] eqn:Ef. apply find_route_in in Ef.
  destruct e as [| | |g|]; try (left; by eexists).
  { destruct (login _ _ _). left. by eexists. }
  destruct Ef as [?|(pattern & Hin & Hm)]; [done|].
  unfold protected. simpl. destruct (Request.Cookie r) as [cookie|] eqn:Ec; [|left; by eexists].
  destruct (SessionManager.Authenticate _ _ _) as [m x] eqn:Ea.
  destruct x as [principal|err]; [|left; by eexists].
  destruct (isMutation _ && _) eqn:Eo; [left; by eexists|].
  destruct g as [| |h]; [left; by eexists|unfold logout; left; by eexists|].
  right. exists pattern, h, values, cookie, principal, requestID.
  split_and!; try done; [by rewrite Ea|]. intros Hmut. rewrite Hmut in Eo. by apply negb_false_iff in Eo.
Qed.

(** C4: For every request, whatever it holds, the platform service is reached only
    through a handler of a protected route, for the principal of the valid session
    the request's cookie names, and only from the same origin when the method is
    POST, PUT, PATCH or DELETE; every other request is answered without one effect
    on the service. *)
Theorem service_reached_only_authenticated s E r : admitted s E r (ServeHTTP s E r).1.2.
Proof.
  unfold ServeHTTP.
  destruct (if MatchString _ _ then _ else _) as [requestID|err]; [|left; by eexists].
  simpl. destruct (HasPrefix _ _); [destruct (_ <? _)|].
  - pose proof (serve_admitted (with_inUse s (inUse s + 1)) E r requestID) as Ha.
    destruct (serve _ _ _). exact Ha.
  - left. by eexists.
  - pose proof (serve_admitted s E r requestID) as Ha. destruct (serve _ _ _). exact Ha.
Qed.

(** ** The methods without an origin check *)

(** The effects that change nothing but the audit trail: the store's other writes,
    what changes a cluster, and the operations' queue and controls are excluded. *)
Definition harmless {X} (e : effect X) : bool :=
  match e with
  | StoreWrite _ (Store.CCreateAudit _) => true
  | StoreWrite _ _ => false
  | GatewayCall _ _ m => negb (KubeGateway.mutates m)
  | HelmExecute _ _ _ | Enqueue _ | RunOnce _ | ControlsRegister _ | ControlsTake _
  | ControlsRemove _ _ | ControlsDrain | CancelControl _ => false
  | _ => true
  end.

Definition read_only : monitor unit := λ _ e _ _, allow_if (harmless e) tt.

Notation reads p := (safe read_only p tt (λ _ _, True)).

#[local] Ltac read_step :=
  first [ safe_step | done | progress cbn ].

Lemma reads_then {A B} (p : prog A) (k : A → prog B) :
  reads p → (∀ a, reads (k a)) → reads (p ≫= k).
Proof.
  intros Hp Hk. apply safe_bind_intro. eapply safe_mono; [|exact Hp]. intros a [] _. apply Hk.
Qed.

Lemma reads_try {A B} (p : prog (result A)) (k : A → prog (result B)) :
  reads p → (∀ a, reads (k a)) → reads (try p k).
Proof. intros Hp Hk. apply reads_then; [done|]. intros [a|e]; [apply Hk|exact I]. Qed.

Lemma reads_wrapping {A} m (p : prog (result A)) : reads p → reads (wrapping m p).
Proof. intros Hp. by apply reads_then. Qed.

Lemma reads_defer {A} (q : prog unit) (p : prog A) : reads q → reads p → reads (defer q p).
Proof. intros Hq Hp. apply reads_then; [done|]. intros a. by apply reads_then. Qed.

Lemma reads_perform {X} (e : effect X) : harmless e = true → reads (perform e).
Proof. intros He x. unfold read_only. by rewrite He. Qed.

Lemma reads_ret {A} (a : A) : reads (Ret a).
Proof. done. Qed.

Create HintDb reads.
#[local] Hint Resolve reads_perform reads_ret : reads.

(** Take a program apart by the way it is composed. *)
#[local] Ltac reading :=
  repeat lazymatch goal with
    | |- safe _ (Ret _) _ _ => apply reads_ret
    | |- safe _ (let _ := _ in _) _ _ => cbv zeta
    | |- safe _ (match ?x with _ => _ end) _ _ => split_match x
    | |- safe _ (try _ _) _ _ => apply reads_try; [|intros ?]
    | |- safe _ (wrapping _ _) _ _ => apply reads_wrapping
    | |- safe _ (defer _ _) _ _ => apply reads_defer
    | |- safe _ (perform _) _ _ => apply reads_perform; first [reflexivity|assumption]
    | |- safe _ (mbind _ _) _ _ => apply reads_then; [|intros ?]
    | |- safe _ (prog_bind _ _) _ _ => apply reads_then; [|intros ?]
    | |- safe _ ?p _ _ => solve [eauto 2 with reads]
    end.

Lemma reads_audit ctx actor requestID action outcome clusterID namespace target summary operationID :
  reads (Service.audit ctx actor requestID action outcome clusterID namespace target summary
           operationID).
Proof. unfold Service.audit, Service.newAuditEvent, Service.newID, Service.now. reading. Qed.

Lemma reads_alive ctx : reads (Service.alive ctx).
Proof. unfold Service.alive. reading. Qed.
#[local] Hint Resolve reads_audit reads_alive : reads.

Lemma reads_acquire ctx : reads (Service.acquireKubernetesRead ctx).
Proof. unfold Service.acquireKubernetesRead. reading. Qed.

Lemma reads_tryAcquireTargetLock ctx clusterID namespace name :
  reads (Service.tryAcquireTargetLock ctx clusterID namespace name).
Proof. unfold Service.tryAcquireTargetLock. reading. Qed.

Lemma reads_clusterConnection cluster : reads (Service.clusterConnection cluster).
Proof. unfold Service.clusterConnection. reading. Qed.
#[local] Hint Resolve reads_acquire reads_tryAcquireTargetLock reads_clusterConnection : reads.

Lemma reads_gatewayForCluster ctx cluster : reads (Service.gatewayForCluster ctx cluster).
Proof. unfold Service.gatewayForCluster, Service.gatewayCache_Get. reading. Qed.
#[local] Hint Resolve reads_gatewayForCluster : reads.

Lemma reads_kubeGateway ctx id : reads (Service.kubeGateway ctx id).
Proof. unfold Service.kubeGateway. reading. Qed.
#[local] Hint Resolve reads_kubeGateway : reads.

Lemma reads_read {A} ctx id (m : KubeGateway.method A) :
  KubeGateway.mutates m = false → reads (Service.read ctx id m).
Proof.
  intros Hm. assert (∀ g, reads (perform (GatewayCall ctx g m))) as Hcall.
  { intros g. apply reads_perform. simpl. by rewrite Hm. }
  unfold Service.read. reading; apply Hcall.
Qed.

Lemma reads_respond {A} r status (p : prog (result A)) :
  reads p → reads (Handlers.respond r status p).
Proof. intros Hp. by apply reads_then. Qed.

Lemma reads_with_parameter {A} r (x : result A) (k : A → prog Response) :
  (∀ a, reads (k a)) → reads (Handlers.with_parameter r x k).
Proof. intros Hk. destruct x; [apply Hk|done]. Qed.

#[local] Ltac head t := lazymatch t with ?f _ => head f | _ => t end.

(** The handlers of the routes for GET. *)
#[local] Ltac reading_handler :=
  repeat lazymatch goal with
    | |- safe _ (Handlers.respond _ _ _) _ _ => apply reads_respond
    | |- safe _ (Handlers.with_parameter _ _ _) _ _ => apply reads_with_parameter; intros ?
    | |- safe _ (Service.read _ _ _) _ _ => by apply reads_read
    | |- safe _ (Ret _ ;;? _) _ _ => apply reads_try; [apply reads_ret|intros ?]
    | |- safe _ (let _ := _ in _) _ _ => cbv zeta
    | |- safe _ (try _ _) _ _ => progress reading
    | |- safe _ (mbind _ _) _ _ => progress reading
    | |- safe _ (defer _ _) _ _ => progress reading
    | |- safe _ (perform _) _ _ => apply reads_perform; reflexivity
    | |- safe _ ?p _ _ => let f := head p in unfold f
    end.

Definition mutating_pattern (pattern : string) : bool :=
  bool_decide ((parse_pattern pattern).1 ∈ ["POST"; "PATCH"; "DELETE"]).

Lemma routes_read_only :
  Forall (λ route, mutating_pattern route.1 = true ∨
    ∀ h, route.2 = Protected (Call h) → ∀ r, reads (h r)) routes.
Proof.
  unfold routes.
  repeat lazymatch goal with |- Forall _ (_ :: _) => apply Forall_cons_2 end; [..|apply Forall_nil_2].
  all: first
    [ left; vm_compute; reflexivity
    | right; intros h Heq r; first [discriminate Heq | injection Heq as <-; reading_handler] ].
Qed.

(** A method that is exempt from the origin check changes nothing: the handler of
    any route that such a request reaches writes no record but an audit event, calls
    no method that changes a cluster, and touches neither the operation queue nor
    the operations' controls, whatever its effects answer. *)
Theorem exempt_methods_read_only request h values r :
  find_route routes request = (Protected (Call h), values) →
  isMutation request.(Request.Method) = false →
  safe read_only (h r) tt (λ _ _, True).
Proof.
  intros Hf Hm. apply find_route_in in Hf as [?|(pattern & Hin & Hmatch)]; [done|].
  pose proof routes_read_only as Hall. rewrite Forall_forall in Hall.
  destruct (Hall _ Hin) as [Hmut|Hr]; [|by apply Hr]. exfalso.
  apply bool_decide_eq_true in Hmut. simpl in Hmut. apply bool_decide_eq_false in Hm. apply Hm.
  apply orb_true_iff in Hmatch as [Hmatch|Hmatch].
  - apply bool_decide_eq_true in Hmatch. rewrite <-Hmatch. revert Hmut.
    rewrite !elem_of_cons. tauto.
  - apply andb_true_iff in Hmatch as [Hmatch _]. apply bool_decide_eq_true in Hmatch.
    rewrite Hmatch in Hmut. by apply (bool_decide_eq_true_2 _) in Hmut.
Qed.

(** ** Failed logins *)

Definition rejected (m : SessionManager.t) (a : env * Request) : Prop :=
  ∃ username password, decodeJSON LoginBody a.2 = Some (username, password) ∧
    (SessionManager.Login m username password a.1.(token) a.1.(loginAt) a.1.(sweptAt)).2 =
      Err ErrUnauthorized.

Definition attempt (s : t) (a : env * Request) : t := (login s a.1 a.2).1.

(** The client's window, after some failures. *)
Definition window_of (s : t) (key : string) (count resetAt : Z) : Prop :=
  s.(loginLimiter).(FailureLimiter.entries) !! key = Some (FailureLimiter.mkWindow count resetAt).

Lemma Login_rejected m username password token now swept m' :
  SessionManager.Login m username password token now swept = (m', Err ErrUnauthorized) → m' = m.
Proof.
  unfold SessionManager.Login. destruct (Verify _ _); [|by intros [=]].
  destruct (_ || _); [by intros [= ->]|]. by destruct token; intros [=].
Qed.

(** One rejected attempt that is not blocked counts as a failure. *)
Lemma attempt_counts s a key :
  loginClientKey a.2 = key → rejected s.(sessions) a →
  FailureLimiter.blocked s.(loginLimiter) a.1.(blockedAt) key = (s.(loginLimiter), None) →
  (attempt s a).(sessions) = s.(sessions) ∧
  (attempt s a).(loginLimiter) =
    FailureLimiter.failed s.(loginLimiter) a.1.(order) a.1.(failedAt) key.
Proof.
  intros Hkey (username & password & Hbody & Hl) Hb. destruct a as [E r]. simpl in *.
  unfold attempt, login. simpl. rewrite Hkey, Hb, Hbody. simpl.
  destruct (SessionManager.Login _ _ _ _ _ _) as [m x] eqn:El. simpl in Hl. subst x.
  apply Login_rejected in El as ->. done.
Qed.

Lemma attempt_blocked s a key count resetAt :
  loginClientKey a.2 = key → window_of s key count resetAt → a.1.(blockedAt) < resetAt →
  s.(loginLimiter).(FailureLimiter.maxFailure) ≤ count →
  (login s a.1 a.2).1 = s ∧ (login s a.1 a.2).2.(Response.Status) = 429.
Proof.
  intros Hkey Hw Ht Hmax. destruct a as [E r]. simpl in *. unfold login.
  rewrite Hkey. unfold FailureLimiter.blocked. rewrite Hw. simpl.
  rewrite (proj2 (Before_spec _ _) Ht). simpl. rewrite (proj2 (Z.ltb_ge _ _) Hmax).
  by destruct s.
Qed.

(** Further rejected attempts in the window count up to [maxFailure]. *)
Lemma attempts_count attempts s key count resetAt :
  window_of s key count resetAt →
  1 ≤ count ≤ s.(loginLimiter).(FailureLimiter.maxFailure) →
  s.(loginLimiter).(FailureLimiter.maxFailure) ≤ max_int64 →
  Forall (λ a, loginClientKey a.2 = key ∧ rejected s.(sessions) a ∧
               a.1.(blockedAt) < resetAt ∧ a.1.(failedAt) < resetAt) attempts →
  let s' := foldl attempt s attempts in
  window_of s' key (Z.min (count + len_list attempts) s.(loginLimiter).(FailureLimiter.maxFailure))
    resetAt ∧
  s'.(sessions) = s.(sessions) ∧
  s'.(loginLimiter).(FailureLimiter.maxFailure) = s.(loginLimiter).(FailureLimiter.maxFailure).
Proof.
  revert s count. induction attempts as [|a attempts IH]; intros s count Hw Hc Hmax Hall; simpl.
  { unfold len_list. simpl. rewrite Z.min_l, Z.add_0_r by lia. done. }
  apply Forall_cons in Hall as [(Hkey & Hrej & Hb & Hf) Hall].
  destruct (decide (count < s.(loginLimiter).(FailureLimiter.maxFailure))) as [Hlt|Hge].
  - destruct (attempt_counts s a key Hkey Hrej) as [Hs Hl].
    { unfold FailureLimiter.blocked. rewrite Hw. simpl. rewrite (proj2 (Before_spec _ _) Hb). simpl.
      by rewrite (proj2 (Z.ltb_lt _ _) Hlt). }
    assert (window_of (attempt s a) key (count + 1) resetAt ∧
      (attempt s a).(loginLimiter).(FailureLimiter.maxFailure) =
        s.(loginLimiter).(FailureLimiter.maxFailure)) as [Hw' Hm'].
    { unfold window_of. rewrite Hl. unfold FailureLimiter.failed. rewrite Hw. simpl.
      rewrite (proj2 (Before_spec _ _) Hf). simpl. rewrite lookup_insert_eq, wrap_int_id; [done|].
      unfold min_int64. lia. }
    destruct (IH (attempt s a) (count + 1) Hw') as (Hw'' & Hs'' & Hm'').
    + lia.
    + lia.
    + by rewrite Hs.
    + rewrite Hs'', Hm'', Hs. split_and!; [|done|done].
      rewrite Hm' in Hw''. unfold len_list in *. simpl length.
      by replace (count + Z.of_nat (S (length attempts))) with (count + 1 + Z.of_nat (length attempts)) by lia.
  - destruct (attempt_blocked s a key count resetAt Hkey Hw Hb) as [Hsame _]; [lia|].
    unfold attempt at 2 4 6. rewrite Hsame.
    destruct (IH s count Hw Hc Hmax Hall) as (Hw'' & Hs'' & Hm''). split_and!; [|done|done].
    unfold len_list in *. simpl length. rewrite Z.min_r in Hw'' |- * by lia. done.
Qed.


End server.

(** ** Examples *)

#[local] Instance example_platform : Platform := {| Gateway := unit; Model _ := unit |}.
#[local] Existing Instance plain_parser.

(** A login body is a password here; the other shapes are not used. *)
#[local] Instance example_decoder : BodyDecoder := {|
  ParseMediaType := Some;
  DecodeValue A s body :=
    match s in shape A return option A with LoginBody => Some ("admin", body) | _ => None end |}.
#[local] Instance example_verifier : PasswordVerifier :=
  λ _ password, Ok (bool_decide (password = "right")).

Definition example_request (method path body : string) : Request :=
  Request.mk method path (drop 1 (Split path "/")) (λ _, "") (λ _, "")
    (λ name, if bool_decide (name = "Content-Type") then "application/json" else "")
    None "panel.example" true "192.0.2.7:50000" body Request.no_principal "".

Definition example_env (now : time) : Server.env :=
  Server.mkEnv (Ok "req_1") now now now now now [] (Ok []) (λ _, None).

Definition example_server : Server.t :=
  Server.mk (SessionManager.mk "admin" "$argon2id$" hour ∅) "/srv/web" true
    (FailureLimiter.newFailureLimiter 5 (5 * minute) 10000) 0 16.

Example New_server :
  Server.New true true (SessionManager.mk "admin" "$argon2id$" hour ∅) "/srv/web" true 0 =
  Ok example_server.
Proof. reflexivity. Qed.

(** The wildcards of a route, a method nobody handles, and an empty segment. *)
Example routing :
  match Server.find_route Server.routes
          (example_request "POST" "/api/v1/clusters/clu_1/workloads/deployment/apps/web/scales" "") with
  | (Server.Protected (Server.Call _), values) =>
      (values "id", values "kind", values "namespace", values "name") =
      ("clu_1", "deployment", "apps", "web")
  | _ => False
  end ∧
  (Server.find_route Server.routes (example_request "PUT" "/api/v1/clusters/clu_1" "")).1 = Server.Static ∧
  (Server.find_route Server.routes (example_request "GET" "/api/v1/clusters/" "")).1 = Server.Static.
Proof. by vm_compute. Qed.

(** A path cannot leave the static directory. *)
Example static_path :
  (Server.static example_server (Server.mkEnv (Ok "") 0 0 0 0 0 [] (Ok []) (λ _, Some false))
     (example_request "GET" "/assets/../../../etc/passwd" "")).(Response.Body) =
  Response.File "/srv/web/etc/passwd".
Proof. reflexivity. Qed.

Definition example_listing : Request := example_request "GET" "/api/v1/clusters/clu_1/secrets" "".

Lemma exempt_methods_read_only_witness :
  safe read_only (Handlers.listSecrets example_listing) tt (λ _ _, True).
Proof.
  apply (exempt_methods_read_only example_listing Handlers.listSecrets
    (Server.find_route Server.routes example_listing).2 example_listing); [|by vm_compute].
  apply (find_route_at _ _ 46 "GET /api/v1/clusters/{id}/secrets"); [by vm_compute..|reflexivity].
Defined.

Definition example_attempt (now : time) : Server.env * Request :=
  (example_env now, example_request "POST" "/api/v1/session" "wrong").

Definition example_later : list (Server.env * Request) := example_attempt <$> [101; 102; 103; 104].

Definition example_locked : Server.t := foldl attempt example_server (example_attempt 100 :: example_later).

Definition right_login : Request := example_request "POST" "/api/v1/session" "right".


End ServerSafety.
