(* ===== verification/Startup.v ===== *)
(** * Starting the program (src/cmd/panel/main.go)

    What [main] makes of a configuration: the store is opened, the cipher, the sessions,
    the governors, the service and the HTTP API are made of its values. Serving, signals
    and logging are the operating system's. *)

From S2P Require Export Config Password StoreFile Interleaving Server Client HelmAdapter.

Local Open Scope Z_scope.
Local Open Scope stdpp_scope.

Module Startup.
Section startup.
Context `{Platform} `{UnicodeTables} `{URLParser}.

(** The parts of the running program. *)
Record t : Type := mk {
  world : Pool.world;
  cache : @GatewayCache.t Gateway (list Z);
  cipher : list Z;
  helm : Adapter.t;
  api : Server.t;
}.

(** [resourceguard.Config] of a governor for so many operations. *)
Definition governor_config (settings : Config.t) (MaxConcurrent : Z) : Governor.Config :=
  Governor.mkConfig settings.(Config.AdaptiveOperations) MaxConcurrent DefaultHighWatermark DefaultCriticalWatermark 0.

(** [data] is what the store was opened with, [known] the identifiers in it. *)
Definition start (settings : Config.t) (data : State) (known : gset string) : result t :=
  cipher ← Cipher.NewCipher settings.(Config.EncryptionKey);
  sessions ← SessionManager.NewSessionManager settings.(Config.AdminUsername) settings.(Config.AdminPasswordHash)
    settings.(Config.SessionTTL);
  operationGovernor ← Governor.New (governor_config settings settings.(Config.HelmWorkers));
  readGovernor ← Governor.New (governor_config settings settings.(Config.KubernetesReadConcurrency));
  '(world, cache) ← Pool.New true true settings.(Config.OperationQueueSize) settings.(Config.KubernetesClientCacheSize)
    settings.(Config.KubernetesClientCacheTTL) data readGovernor operationGovernor known;
  api ← Server.New true true sessions settings.(Config.WebDir) settings.(Config.SecureCookies)
    settings.(Config.MaxConcurrentRequests);
  Ok (mk world cache cipher (Adapter.New settings.(Config.HelmTimeout) (Some settings.(Config.AllowedPrivateCIDRs))) api).

(** [kubeFactory.New]: every client is made with the outbound policy. *)
Definition kubeFactory `{CertPool} (settings : Config.t) :=
  NewClientContext (Some settings.(Config.AllowedPrivateCIDRs)).

(** [newLogger]'s level. *)
Inductive Level : Type := LevelDebug | LevelInfo | LevelWarn | LevelError.

Definition newLogger (level : string) : Level :=
  if String.eqb level "debug" then LevelDebug
  else if String.eqb level "warn" then LevelWarn
  else if String.eqb level "error" then LevelError
  else LevelInfo.
End startup.
End Startup.

Section starting.
Context `{Platform} `{UnicodeTables} `{URLParser} `{StateCodec}.

Lemma governor_starts settings n :
  1 ≤ n → ∃ g, Governor.New (Startup.governor_config settings n) = Ok g.
Proof.
  intros Hn. unfold Governor.New, Startup.governor_config. cbn [Governor.MaxConcurrent Governor.HighWatermark Governor.CriticalWatermark].
  rewrite (proj2 (Z.ltb_ge _ _)) by done.
  change (fle DefaultHighWatermark float_zero || fle float_one DefaultHighWatermark) with false.
  change (fle DefaultCriticalWatermark DefaultHighWatermark || flt float_one DefaultCriticalWatermark) with false.
  cbn [reject_if mbind result_bind]. by eexists.
Qed.

Lemma governor_maximum settings n g :
  Governor.New (Startup.governor_config settings n) = Ok g → g.(Governor.maxConcurrent) = n.
Proof. unfold Governor.New. by intros (_ & _ & (_ & _ & (_ & _ & [= <-])%bind_Ok)%bind_Ok)%bind_Ok. Qed.

(** No operation is in flight in an opened store, so that nothing is left to reconcile. *)
Lemma opened_settled path now readErr outs1 outs2 rm1 rm2 d s later :
  StoreFile.Open path now readErr outs1 outs2 rm1 rm2 d = Ok s →
  Store.reconcileInterruptedOperations s.(StoreFile.data) later = None.
Proof.
  intros (loaded & _ & ->)%StoreFile.Open_data. unfold Store.reconcileInterruptedOperations. cbn [State.Operations].
  destruct (existsb in_flight _) eqn:E; [|done]. exfalso. apply existsb_exists in E as (o & Ho%list_elem_of_In & Hf).
  apply list_elem_of_fmap in Ho as (o' & -> & _). unfold Store.interrupt in Hf. by destruct (in_flight o') eqn:E'; rewrite ?E' in Hf.
Qed.

Lemma service_starts settings data reads operations known : valid_config settings →
  ∃ w c, Pool.New true true settings.(Config.OperationQueueSize) settings.(Config.KubernetesClientCacheSize)
    settings.(Config.KubernetesClientCacheTTL) data reads operations known = Ok (w, c) ∧
    w.(Pool.store) = data ∧ w.(Pool.queueCapacity) = settings.(Config.OperationQueueSize) ∧
    w.(Pool.operationGovernor) = operations ∧ w.(Pool.readGovernor) = reads.
Proof.
  intros (Ha & Hf & Hw & Hk & Hu & Hh & Httl & _ & Hworkers & Hqueue & Hreads & Hsize & HcacheTTL & Hrequests & _).
  unfold Pool.New, GatewayCache.newGatewayCache.
    rewrite (proj2 (Z.eqb_neq settings.(Config.OperationQueueSize) 0)) by lia.
    rewrite (proj2 (Z.eqb_neq settings.(Config.KubernetesClientCacheSize) 0)) by lia.
    assert (settings.(Config.KubernetesClientCacheTTL) ≠ 0) as Httl0 by (intros E; rewrite E in HcacheTTL; by destruct HcacheTTL).
    rewrite (proj2 (Z.eqb_neq settings.(Config.KubernetesClientCacheTTL) 0)) by done.
    unfold Pool.maxOperationQueueSize, GatewayCache.maximumGatewayCacheSize, GatewayCache.minimumGatewayCacheTTL, GatewayCache.maximumGatewayCacheTTL.
    cbn [negb reject_if mbind result_bind].
    rewrite (proj2 (Z.ltb_ge settings.(Config.OperationQueueSize) 1)), (proj2 (Z.ltb_ge 128 settings.(Config.OperationQueueSize))) by lia.
    rewrite (proj2 (Z.ltb_ge settings.(Config.KubernetesClientCacheSize) 1)), (proj2 (Z.ltb_ge 64 settings.(Config.KubernetesClientCacheSize))) by lia.
    rewrite (proj2 (Z.ltb_ge settings.(Config.KubernetesClientCacheTTL) _)), (proj2 (Z.ltb_ge _ settings.(Config.KubernetesClientCacheTTL))) by apply HcacheTTL.
    cbn [orb reject_if mbind result_bind]. do 2 eexists. split_and!; reflexivity.
Qed.

Lemma api_starts settings sessions : valid_config settings →
  ∃ api, Server.New true true sessions settings.(Config.WebDir) settings.(Config.SecureCookies)
      settings.(Config.MaxConcurrentRequests) = Ok api ∧
    api.(Server.sessions) = sessions ∧
    api.(Server.inUse) = 0 ∧ api.(Server.maxConcurrentRequests) = settings.(Config.MaxConcurrentRequests).
Proof.
  intros (Ha & Hf & Hw & Hk & Hu & Hh & Httl & _ & Hworkers & Hqueue & Hreads & Hsize & HcacheTTL & Hrequests & _).
  unfold Server.New. rewrite (proj2 (Z.eqb_neq settings.(Config.MaxConcurrentRequests) 0)) by lia. cbn [negb orb reject_if mbind result_bind].
    rewrite (proj2 (Z.ltb_ge settings.(Config.MaxConcurrentRequests) 1)), (proj2 (Z.ltb_ge 128 settings.(Config.MaxConcurrentRequests))) by lia.
    eexists. split_and!; reflexivity.
Qed.

Lemma sessions_start settings : valid_config settings →
  SessionManager.NewSessionManager settings.(Config.AdminUsername) settings.(Config.AdminPasswordHash) settings.(Config.SessionTTL)
    = Ok (SessionManager.mk settings.(Config.AdminUsername) settings.(Config.AdminPasswordHash) settings.(Config.SessionTTL) ∅).
Proof.
  intros (Ha & Hf & Hw & Hk & Hu & Hh & Httl & _ & Hworkers & Hqueue & Hreads & Hsize & HcacheTTL & Hrequests & _).
  unfold SessionManager.NewSessionManager. rewrite bool_decide_eq_false_2, Hh by done.
  rewrite (proj2 (Z.leb_gt _ _)), (proj2 (Z.ltb_ge _ _)) by lia. done.
Qed.

End starting.

Section example.
#[local] Instance example_platform : Platform := {| Gateway := unit; Model _ := unit |}.
#[local] Existing Instance plain_parser.
#[local] Existing Instance StoreFile.sample_codec.


(** Only the prefix of the password's hash is looked at when the configuration is loaded:
    with this one, which no password was ever hashed to, the program starts, and every
    login fails. *)
Lemma prefix_alone_starts :
  let getenv := env_of [("PANEL_ENCRYPTION_KEY", "BwcHBwcHBwcHBwcHBwcHBwcHBwcHBwcHBwcHBwcHBwc="); ("PANEL_ADMIN_PASSWORD_HASH", "$argon2id$")] in
  Config.AdminPasswordHash <$> Config.Load getenv = Ok "$argon2id$" ∧
  ∀ `{Argon2} password, PasswordHasher.Verify "$argon2id$" password = Err (NewError "invalid password hash format").
Proof. split; [by vm_compute|]. intros. reflexivity. Qed.
End example.
